(* ===== verification/_CoqProject ===== *)
-Q . S2P
Prelude.v
GoStrings.v
OsLookup.v
Identity.v
Routes.v
Policy.v
Tables.v
Database.v
ImageDB.v
ResourceDB.v
DbReach.v
Names.v
Events.v
GoJson.v
GoJsonText.v
GoTime.v
Docker.v
GoUrl.v
ImagePerm.v
Quota.v
GoPath.v
Storage.v
Bodies.v
Filter.v
PreRequest.v
Pipeline.v
Prune.v
Streams.v
Response.v
Headers.v
Exchange.v
Hijack.v
Relay.v
Quoting.v
Reports.v
Bridge.v
Peers.v
Client.v
Live.v
Listeners.v
Ctl.v
CommandLine.v
LogFormat.v
AuditTrail.v
Trail.v
Messages.v
LogQuery.v
Lifecycle.v
