(* ===== verification/Prelude.v ===== *)
(** * docker-authz-proxy: a verification library (root file)

    ** The program

    The proxy stands between the users of a host and its Docker daemon.  It listens
    on a Unix socket per user, finds out from the kernel who is calling
    ([internal/auth]), classifies the request and holds it against the policy
    ([internal/authz/policy.go]), checks that what it addresses is the caller's by
    the ownership database ([internal/authz/ownership.go]), rewrites names, bodies
    and answers so that users see their own resources under their own names
    ([internal/isolation]), and forwards it ([internal/forward/proxy.go]).

    ** What models what

    Go and its libraries:
    - Prelude: notations, the hint databases [go] and [gosimp], 64-bit integers;
    - GoStrings, GoJson, GoPath, GoUrl: strings, strconv, encoding/json,
      path/filepath and net/url, as far as the source uses them;
    - GoJsonText: documents as text, [json.Marshal] and the parser, with their round
      trip; GoTime: RFC 3339 times.

    internal/auth:
    - OsLookup: os_lookup.go, the scan of /etc/passwd and /etc/group;
    - Identity: identity.go and auth.go, [ResolveCallerIdentity] from the peer's
      credentials and its /proc files, [VerifyIdentityAtRequest], tokens, certificates.

    internal/authz:
    - Routes: [ClassifyAction] and the extraction of ids, policy.go;
    - Policy: resolution of a configuration, [IsDenied], [IsConfigPrivileged];
    - Tables, Database: tables with a key, the schema, the engine with its failures;
    - ImageDB, ResourceDB: the methods of ownership.go, one Definition each;
    - DbReach: the states those methods can reach.

    internal/isolation:
    - Names: labels.go and the naming and URL rewriting of network.go, volume.go,
      netbridge.go and storage.go;
    - Quota: quota.go, quotas, their inheritance, check and injection;
    - Storage: storage.go, bind mounts, tmpfs, devices, volumes-from, the clean-up;
    - Bodies: the functions of labels.go, network.go, volume.go and netbridge.go
      that rewrite JSON bodies;
    - Filter: filter.go and the list filters of network.go and volume.go;
    - Bridge: the bridge of a user and its firewall rules, netbridge.go;
    - Client: the requests to the daemon of netbridge.go and storage.go, on the wire.

    internal/forward/proxy.go:
    - Docker: the questions asked of the daemon (a parameter);
    - Events: [eventBelongsToUser];
    - ImagePerm: the checks of image removal, pull, tag and push;
    - PreRequest: [checkOwnershipPreRequest], every branch;
    - Pipeline: [ServeHTTP] up to the daemon, [isAuxiliaryCall],
      [preprocessRequest], the decisions of [handleHijack], the retries of [forward];
    - Quoting, Reports: the messages of refusals, and how they are quoted by fmt and read
      as JSON;
    - Prune: the five prune handlers;
    - Streams: what is read out of streams, error messages and inspections;
    - Response: [postprocessResponse], every action; Headers: the heads of its answers;
    - Exchange: [ServeHTTP] from end to end;
    - Hijack: the rest of [handleHijack], BuildKit connections,
      [trackBuildKitImages];
    - Relay: the two directions of an upgraded connection, read by read and write by
      write;
    - Peers: networks between users, the listener of the daemon's events;
    - Live: requests at once, the semaphores of [ServeHTTP], the removal of entries
      from the event maps at the end of requests and by timers, in any order;
    - Listeners: the sockets of users, [Start], [watchNewUsers], [Stop], profiles and
      the sudoers rule, over a file system whose calls can fail.

    cmd/ctl/main.go, internal/authz/query.go:
    - Ctl: the commands of the administration tool and the queries;
    - CommandLine: the tool from its arguments to its status.

    internal/audit:
    - LogFormat: the writer of logger.go that puts the time first;
    - AuditTrail: audit.go and container.go, over files that can be renamed and calls
      that can fail;
    - Messages: the rest of logger.go;
    - Trail: the entries of each request and connection (proxy.go), on top of Exchange;
    - LogQuery: query.go.

    main.go:
    - Lifecycle: flags, start, the watcher of the configuration, signals and the end.

    A record stands for a Go struct and keeps its field names; a Definition keeps the
    name of the function it translates, parts of long functions have names of their
    own.  The state is passed along: [OwnershipDB] for the database, [EventState] for
    the maps the event filter reads, [Server] for both, [BuildServer] with the pending
    builds.  Checks are in the monad [M] of PreRequest (pass, reject, crash); a write
    to a nil map is [Panics].

    ** Interfaces

    The filters of Filter are stated against the class [OwnershipReader] and its laws
    [OwnershipReaderSpec], the volume rewriting of Bodies against [VolumeReader];
    ImageDB and ResourceDB give the instances.  [Iptables] and [IptablesLaws] (Bridge)
    are what is used of the firewall program.  The daemon is the record [Docker], with
    [DaemonEnv], [Daemon], [Peer] and [PeerDaemon] for what particular components get
    from it: arbitrary answers, about which no theorem assumes anything it does not
    state.

    ** What the theorems show

    - Who is served: the identity is bound to the account database and to the kernel's
      credentials (Identity); whatever is let through has passed the policy and every
      check (Pipeline); the policy is the one configured (Policy).
    - What is reached: the objects a request addresses are the caller's (PreRequest,
      Names, ImagePerm), a removal or prune deletes nothing of others (Prune,
      ImagePerm), mounts, devices, tmpfs and resources stay within their limits
      (Storage, Quota, Bodies).
    - What is seen: lists, reports and event streams show exactly what is the user's,
      and nothing when the records cannot be read (Filter, Events, Response).
    - What is recorded: each request changes the records only in steps of its own
      caller, and gives nobody else anything ([request_step], [attributed] of
      Exchange; BuildKit in Hijack); every reachable database is well formed (DbReach,
      Exchange); the image tables refine two finite maps (ImageDB).
    - The network: bridges of users are kept apart exactly (Bridge), peers are parted
      when denied (Peers).
    - Termination and bounds: attempts at the daemon (Pipeline), copying (Hijack, Relay),
      waits of the listener (Peers), requests at once and the server at rest (Live).
    - What goes over the wire: an upgraded connection loses nothing in either direction
      (Relay), an answer has the length its head says (Headers), the daemon reads
      from a request what was meant, and the client implements the record of documents the
      other components are stated over (Client).
    - The system around: whatever call fails, sockets are private at every moment and
      the sudoers rule whole (Listeners); the tool works by steps of the same database
      and for root alone (Ctl), and runs a command however its options are spelled
      (CommandLine).
    - What is kept of it: every refusal but the ones named leaves one true entry, all
      entries of a request are in the log of its caller (Trail), an entry of the trail is one line from which it can be read
      back, no byte of the logs is lost whatever fails, a rotation loses no entry, a
      query prints what was logged (AuditTrail, LogQuery), and clients cannot forge the
      time of a line (LogFormat).
    - The program's life: the configuration in force was in the files, a change of the
      policy takes effect with the next round of the watcher, and a signal to end ends
      the program (Lifecycle).
    - Where the code does not do what it says, the theorem states what it does, and is
      named for it (for example [build_opens_other_images],
      [container_image_never_recorded], [network_connect_takes_any_container]).

    ** Fuel and bounds

    Functions on strings that are not structural take the length (or one more) as
    fuel, and every round consumes a byte: [fields_go], [replace_all],
    [relay_rounds] ([chunked_answers_are_copied] shows more is of no use).  The parser of
    documents takes twice the length ([parse_value_fuel]: more changes nothing), and a
    round of the watcher has at most six steps ([watch_round]).  The
    retries of [forward] count down from [maxRetries].  The wait for a pending build is
    the list of states its polls find.  Integers of type int and int64 are [Z] with
    wrap-around written out where the code can reach it ([wrap64]); CPU quotas are
    binary64 values.  Clocks are [Z].

    ** What is not modelled

    - What the tool prints of its results and errors, its usage, and the opening of its
      database (a parameter of CommandLine).
    - The encoders of zap; Close and Sync of the logs.
    - TLS, the HTTP server and the accepting of connections: input and output around
      the parts above.  Whether a connection slot is free is a
      parameter of the pipeline ([ar_slot]), which Live sets to [free_slot].
    - Reading YAML, verifying JWTs and certificates, SQLite: libraries; the decoded
      configuration, the claims and the tables' contents are what the models start from.
    - The start of goroutines: Lifecycle has the two that watch files and the loop; those
      of the event listeners and of the clean-up are in Peers, AuditTrail and Storage.
    - Time: time-outs and time stamps other than those stored; a timer is a removal
      that is due and happens at some time (Live).
    - Interleaving: Live runs requests side by side as far as slots and event maps go;
      otherwise they run one after the other, except where a wait reads what others
      have left ([polls]), an event stream is filtered by the state of each line's moment
      ([during]), and the clean-up runs between other requests.
    - The flushing of answers, and the head of a forwarded request but for what decides how
      it is forwarded. *)

From Stdlib Require Export ZArith Lia Ascii Bool.
From stdpp Require Export base numbers option strings pretty gmap fin_maps list.

(** ** Scope and notations *)

Declare Scope go_scope.
Delimit Scope go_scope with go.

(** Go's [==] on strings and integers, as boolean tests. *)
Notation "a ==s b" := (String.eqb a b) (at level 70, no associativity) : go_scope.
Notation "a !=s b" := (negb (String.eqb a b)) (at level 70, no associativity) : go_scope.
Notation "a ==z b" := (Z.eqb a b) (at level 70, no associativity) : go_scope.
Notation "a !=z b" := (negb (Z.eqb a b)) (at level 70, no associativity) : go_scope.

Open Scope go_scope.

(** stdpp blocks the reduction of [append]; computation on string constants
    needs it. *)
#[global] Arguments String.append !_ _ / : simpl nomatch.

(** The hint database of the development: rewriting lemmas that reduce the
    Go string and integer operations, and resolution lemmas on tables. *)
Create HintDb go.
Create Rewrite HintDb gosimp.

(** ** Machine integers *)

(** Go's [int] and [int64] on the supported platforms. *)
Definition int64_min : Z := - 2 ^ 63.
Definition int64_max : Z := 2 ^ 63 - 1.

(** The two's complement value a 64-bit register holds after a computation
    whose mathematical result is [z]. *)
Definition wrap64 (z : Z) : Z := (z + 2 ^ 63) mod 2 ^ 64 - 2 ^ 63.

Definition in_int64 (z : Z) : Prop := (int64_min <= z <= int64_max)%Z.

#[export] Instance in_int64_dec z : Decision (in_int64 z).
Proof. unfold in_int64. apply _. Defined.

Lemma wrap64_range z : in_int64 (wrap64 z).
Proof.
  unfold in_int64, int64_min, int64_max, wrap64.
  pose proof (Z.mod_pos_bound (z + 2 ^ 63) (2 ^ 64) ltac:(lia)). lia.
Qed.

Lemma wrap64_id z : in_int64 z → wrap64 z = z.
Proof.
  unfold in_int64, int64_min, int64_max, wrap64. intros H.
  rewrite Z.mod_small by lia. lia.
Qed.

Lemma wrap64_idemp z : wrap64 (wrap64 z) = wrap64 z.
Proof. apply wrap64_id, wrap64_range. Qed.

#[export] Hint Resolve wrap64_range : go.
#[export] Hint Rewrite wrap64_idemp : gosimp.

(** ** Booleans *)

Lemma bool_eq_iff (a b : bool) : (a = true ↔ b = true) → a = b.
Proof. destruct a, b; naive_solver. Qed.

Lemma existsb_elem {A} (f : A → bool) (l : list A) :
  existsb f l = true ↔ ∃ x, x ∈ l ∧ f x = true.
Proof. rewrite existsb_exists. setoid_rewrite list_elem_of_In. done. Qed.

Lemma existsb_false_elem {A} (f : A → bool) (l : list A) :
  existsb f l = false ↔ ∀ x, x ∈ l → f x = false.
Proof.
  split.
  - intros H x Hx. destruct (f x) eqn:E; [|done].
    assert (existsb f l = true) by (apply existsb_elem; eauto). congruence.
  - intros H. destruct (existsb f l) eqn:E; [|done].
    apply existsb_elem in E as (x & Hx & Hf). rewrite H in Hf; done.
Qed.

Lemma eqb_str_refl s : String.eqb s s = true.
Proof. apply String.eqb_refl. Qed.
#[export] Hint Rewrite eqb_str_refl Z.eqb_refl : gosimp.

(** Case analysis on the boolean guards of a translated definition, from the
    outside in, turning each into a hypothesis. *)
Ltac bool_hyps :=
  repeat match goal with
  | H : (_ && _) = true |- _ => apply andb_true_iff in H; destruct H
  | H : (_ || _) = false |- _ => apply orb_false_iff in H; destruct H
  | H : negb _ = true |- _ => apply negb_true_iff in H
  | H : negb _ = false |- _ => apply negb_false_iff in H
  | H : String.eqb _ _ = true |- _ => apply String.eqb_eq in H
  | H : String.eqb _ _ = false |- _ => apply String.eqb_neq in H
  | H : Z.eqb _ _ = true |- _ => apply Z.eqb_eq in H
  | H : Z.eqb _ _ = false |- _ => apply Z.eqb_neq in H
  | H : Z.ltb _ _ = true |- _ => apply Z.ltb_lt in H
  | H : Z.ltb _ _ = false |- _ => apply Z.ltb_ge in H
  | H : Z.leb _ _ = true |- _ => apply Z.leb_le in H
  | H : Z.leb _ _ = false |- _ => apply Z.leb_gt in H
  | H : bool_decide _ = true |- _ => apply bool_decide_eq_true in H
  | H : bool_decide _ = false |- _ => apply bool_decide_eq_false in H
  end.

(** Split on the conditions of the goal one at a time. *)
Ltac cases_step :=
  match goal with
  | |- context [match ?x with _ => _ end] => destruct x eqn:?
  end.
Ltac cases := repeat (cases_step; simplify_eq/=; bool_hyps).

(** ** Lists *)

(** Go's [for ... { if p(x) { return f(x) } }]: the first element that
    satisfies [p]. *)
Fixpoint find_first {A} (p : A → bool) (l : list A) : option A :=
  match l with
  | [] => None
  | x :: l' => if p x then Some x else find_first p l'
  end.

Lemma find_first_Some {A} (p : A → bool) l x :
  find_first p l = Some x → x ∈ l ∧ p x = true.
Proof.
  induction l as [|y l IH]; simpl; [done|].
  destruct (p y) eqn:E; intros H; simplify_eq.
  - split; [left|done].
  - destruct (IH H). split; [by right|done].
Qed.

Lemma find_first_None {A} (p : A → bool) l :
  find_first p l = None ↔ ∀ x, x ∈ l → p x = false.
Proof.
  induction l as [|y l IH]; simpl.
  { split; [intros _ x Hx; by apply elem_of_nil in Hx|done]. }
  destruct (p y) eqn:E.
  - split; [done|]. intros H. rewrite H in E; [done|left].
  - rewrite IH. split; intros H x.
    + rewrite elem_of_cons. intros [->|]; eauto.
    + intros. apply H. by right.
Qed.

Lemma find_first_is_Some {A} (p : A → bool) l :
  is_Some (find_first p l) ↔ existsb p l = true.
Proof.
  rewrite existsb_elem. split.
  - intros [x Hx]. apply find_first_Some in Hx. eauto.
  - intros (x & Hx & Hp). destruct (find_first p l) eqn:E; [eauto|].
    rewrite find_first_None in E. rewrite E in Hp; done.
Qed.
