(* ===== verification/GoStrings.v ===== *)
(** * GoStrings: the Go [strings] and [strconv] functions the proxy uses

    A Go string is a byte sequence: here [string] (a list of 8-bit [ascii]).
    Offsets are [nat]; a function that returns -1 for "not found" returns an
    [option] here.  Each function is followed by the lemmas that characterise
    it; the rewriting lemmas are collected in the database [gosimp]. *)

From S2P Require Import Prelude.

(** ** Byte classes *)

Definition is_digit (c : ascii) : bool :=
  (48 <=? N_of_ascii c)%N && (N_of_ascii c <=? 57)%N.

Definition is_hex (c : ascii) : bool :=
  is_digit c
  || ((97 <=? N_of_ascii c)%N && (N_of_ascii c <=? 102)%N)
  || ((65 <=? N_of_ascii c)%N && (N_of_ascii c <=? 70)%N).

Fixpoint str_forallb (p : ascii → bool) (s : string) : bool :=
  match s with
  | "" => true
  | String c s' => p c && str_forallb p s'
  end.

(** ** Slicing: [s[:n]] and [s[n:]] *)

Fixpoint str_take (n : nat) (s : string) : string :=
  match n, s with
  | O, _ => ""
  | _, "" => ""
  | S n', String c s' => String c (str_take n' s')
  end.

Fixpoint str_drop (n : nat) (s : string) : string :=
  match n, s with
  | O, _ => s
  | _, "" => ""
  | S n', String _ s' => str_drop n' s'
  end.

Abbreviation slen := String.length.

(** ** Searching *)

Definition HasPrefix (s p : string) : bool := String.prefix p s.

#[global] Arguments HasPrefix s p : simpl never.

Definition HasSuffix (s p : string) : bool :=
  (slen p <=? slen s)%nat && String.eqb (str_drop (slen s - slen p) s) p.

(** [strings.Index]; [None] is Go's -1. *)
Fixpoint Index (s sub : string) : option nat :=
  if HasPrefix s sub then Some O
  else match s with
       | "" => None
       | String _ s' => S <$> Index s' sub
       end.

Fixpoint LastIndex (s sub : string) : option nat :=
  match s with
  | "" => if HasPrefix "" sub then Some O else None
  | String _ s' =>
      match LastIndex s' sub with
      | Some n => Some (S n)
      | None => if HasPrefix s sub then Some O else None
      end
  end.

Definition Contains (s sub : string) : bool :=
  match Index s sub with Some _ => true | None => false end.

Definition TrimPrefix (s p : string) : string :=
  if HasPrefix s p then str_drop (slen p) s else s.

(** [strings.TrimRight] with a one-character cutset. *)
Fixpoint TrimRight1 (s : string) (c : ascii) : string :=
  match s with
  | "" => ""
  | String d s' =>
      match TrimRight1 s' c with
      | "" => if Ascii.eqb d c then "" else String d ""
      | t => String d t
      end
  end.

(** ** Splitting and joining *)

(** [strings.Split] with a one-character separator: never empty. *)
Fixpoint Split1 (c : ascii) (s : string) : list string :=
  match s with
  | "" => [""]
  | String d s' =>
      if Ascii.eqb d c then "" :: Split1 c s'
      else match Split1 c s' with
           | w :: ws => String d w :: ws
           | [] => [String d ""]
           end
  end.

(** [strings.SplitN(s, sep, 2)] with a one-character separator. *)
Fixpoint Cut1 (c : ascii) (s : string) : option (string * string) :=
  match s with
  | "" => None
  | String d s' =>
      if Ascii.eqb d c then Some ("", s')
      else '(a, b) ← Cut1 c s'; Some (String d a, b)
  end.

Fixpoint Join (ws : list string) (sep : string) : string :=
  match ws with
  | [] => ""
  | [w] => w
  | w :: ws' => w +:+ sep +:+ Join ws' sep
  end.

(** ** White space

    [unicode.IsSpace] over the UTF-8 encoding: the ASCII white space bytes and
    the byte sequences of U+0085, U+00A0, U+1680, U+2000-200A, U+2028, U+2029,
    U+202F, U+205F and U+3000. *)
Definition str_of_codes (l : list N) : string :=
  foldr (λ n s, String (ascii_of_N n) s) "" l.

Definition space_seqs : list string :=
  str_of_codes <$>
    ([[9]; [10]; [11]; [12]; [13]; [32]; [194; 133]; [194; 160]; [225; 154; 128];
      [226; 128; 128]; [226; 128; 129]; [226; 128; 130]; [226; 128; 131];
      [226; 128; 132]; [226; 128; 133]; [226; 128; 134]; [226; 128; 135];
      [226; 128; 136]; [226; 128; 137]; [226; 128; 138]; [226; 128; 168];
      [226; 128; 169]; [226; 128; 175]; [226; 129; 159]; [227; 128; 128]])%N.

(** The length of the white space character [s] starts with, if any. *)
Definition space_prefix (s : string) : option nat :=
  slen <$> find_first (λ w, HasPrefix s w) space_seqs.
Definition space_suffix (s : string) : option nat :=
  slen <$> find_first (λ w, HasSuffix s w) space_seqs.

(** The fuel is the length: each step removes at least one byte. *)
Fixpoint trim_left_space (fuel : nat) (s : string) : string :=
  match fuel with
  | O => s
  | S f => match space_prefix s with
           | Some n => trim_left_space f (str_drop n s)
           | None => s
           end
  end.
Fixpoint trim_right_space (fuel : nat) (s : string) : string :=
  match fuel with
  | O => s
  | S f => match space_suffix s with
           | Some n => trim_right_space f (str_take (slen s - n) s)
           | None => s
           end
  end.

Definition TrimSpace (s : string) : string :=
  let s' := trim_left_space (slen s) s in trim_right_space (slen s') s'.

(** [strings.Fields]: the maximal runs of non-space bytes. *)
Fixpoint fields_go (fuel : nat) (cur : string) (s : string) : list string :=
  let flush := if String.eqb cur "" then [] else [cur] in
  match fuel with
  | O => flush
  | S f => match s with
           | "" => flush
           | String c s' =>
               match space_prefix s with
               | Some n => flush ++ fields_go f "" (str_drop n s)
               | None => fields_go f (cur +:+ String c "") s'
               end
           end
  end.
Definition Fields (s : string) : list string := fields_go (S (slen s)) "" s.

(** ** Numbers *)

(** [strconv.Itoa], and [fmt]'s [%d]. *)
Definition Itoa (z : Z) : string := pretty z.

Definition digit_val (c : ascii) : Z := Z.of_N (N_of_ascii c) - 48.

Definition uint64_max : Z := 2 ^ 64 - 1.

(** [strconv.ParseUint(s, 10, 64)]: [None] is a syntax error; a number that
    overflows stops the scan at [uint64_max]. *)
Fixpoint digits_val (acc : Z) (s : string) : option Z :=
  match s with
  | "" => Some acc
  | String c s' =>
      if is_digit c then
        let v := (acc * 10 + digit_val c)%Z in
        if (uint64_max <? v)%Z then Some uint64_max else digits_val v s'
      else None
  end.

(** [strconv.Atoi]: the value and whether the error is [nil].  A syntax error
    gives 0, an out-of-range number the nearest [int64]. *)
Definition Atoi (s : string) : Z * bool :=
  let '(neg, ds) :=
    match s with
    | String "-" t => (true, t)
    | String "+" t => (false, t)
    | _ => (false, s)
    end in
  match ds with
  | "" => (0%Z, false)
  | _ =>
      match digits_val 0 ds with
      | None => (0%Z, false)
      | Some v =>
          let v' := if neg then (- v)%Z else v in
          if (v' <? int64_min)%Z then (int64_min, false)
          else if (int64_max <? v')%Z then (int64_max, false)
          else (v', true)
      end
  end.

(** [n, _ := strconv.Atoi(s)]. *)
Definition Atoi_val (s : string) : Z := (Atoi s).1.

(** ASCII case folding, as SQLite's [LIKE] applies it. *)
Definition ascii_lower (c : ascii) : ascii :=
  let n := N_of_ascii c in
  if ((65 <=? n)%N && (n <=? 90)%N) then ascii_of_N (n + 32) else c.
Fixpoint ToLowerASCII (s : string) : string :=
  match s with
  | "" => ""
  | String c s' => String (ascii_lower c) (ToLowerASCII s')
  end.

Example Fields_ex : Fields "  docker  ps -a" = ["docker"; "ps"; "-a"].
Proof. vm_compute. reflexivity. Qed.
Example Atoi_ex : Atoi "-42" = ((-42)%Z, true) ∧ Atoi "12x" = (0%Z, false)
  ∧ Atoi "99999999999999999999" = (int64_max, false).
Proof. vm_compute. done. Qed.
Example Split1_ex : Split1 ":" "a::b:" = ["a"; ""; "b"; ""].
Proof. reflexivity. Qed.
Example TrimSpace_ex : TrimSpace "  1001 " = "1001".
Proof. vm_compute. reflexivity. Qed.
Example Last_ex : LastIndex "a/b/c" "/" = Some 3 ∧ Index "a/b/c" "/" = Some 1.
Proof. done. Qed.
Example TrimRight1_ex : TrimRight1 "/a//" "/" = "/a".
Proof. done. Qed.

(** ** Lemmas: concatenation, slicing, prefixes *)

Lemma app_nil_r_str (s : string) : s +:+ "" = s.
Proof. induction s; simpl; [done|]. by f_equal. Qed.

Lemma app_assoc_str (a b c : string) : a +:+ b +:+ c = (a +:+ b) +:+ c.
Proof. induction a; simpl; [done|]. by f_equal. Qed.

Lemma slen_app a b : slen (a +:+ b) = slen a + slen b.
Proof. induction a; simpl; [done|]. by f_equal. Qed.

Lemma str_drop_app p r : str_drop (slen p) (p +:+ r) = r.
Proof. induction p; simpl; done. Qed.

Lemma str_take_app p r : str_take (slen p) (p +:+ r) = p.
Proof. induction p; simpl; [by destruct r|]. by f_equal. Qed.

Lemma str_take_drop n s : str_take n s +:+ str_drop n s = s.
Proof. revert n; induction s; intros [|n]; simpl; try done. by f_equal. Qed.

Lemma str_take_all n s : slen s <= n → str_take n s = s.
Proof.
  revert n; induction s as [|c s IH]; intros [|n] H; simpl in *; try done; [lia|].
  f_equal. apply IH. lia.
Qed.

Lemma slen_take n s : slen (str_take n s) = n `min` slen s.
Proof.
  revert s; induction n as [|n IH]; intros s; [by destruct s|].
  destruct s as [|c s]; simpl; [done|]. by rewrite IH.
Qed.

Lemma slen_drop n s : slen (str_drop n s) = slen s - n.
Proof.
  revert s; induction n as [|n IH]; intros s; [by destruct s|].
  destruct s as [|c s]; simpl; [done|]. by rewrite IH.
Qed.

Lemma app_inj_l (p a b : string) : p +:+ a = p +:+ b → a = b.
Proof. induction p; simpl; [done|]. intros H. simplify_eq. auto. Qed.

Lemma HasPrefix_spec s p : HasPrefix s p = true ↔ ∃ r, s = p +:+ r.
Proof.
  unfold HasPrefix. revert s. induction p as [|c p IH]; intros s; simpl.
  { split; [eauto|by destruct s]. }
  destruct s as [|d s].
  { split; [done|]. intros [r Hr]. simplify_eq/=. }
  simpl. destruct (ascii_dec c d) as [->|Hne].
  - rewrite IH. split; intros [r Hr]; exists r; simpl in *; congruence.
  - split; [done|]. intros [r Hr]. simplify_eq/=.
Qed.

Lemma HasPrefix_app p r : HasPrefix (p +:+ r) p = true.
Proof. apply HasPrefix_spec. eauto. Qed.

Lemma HasPrefix_refl s : HasPrefix s s = true.
Proof. apply HasPrefix_spec. exists "". by rewrite app_nil_r_str. Qed.

Lemma HasPrefix_empty s : HasPrefix s "" = true.
Proof. by destruct s. Qed.
#[export] Hint Resolve HasPrefix_empty HasPrefix_refl HasPrefix_app : core.

Lemma HasPrefix_cons c s d p :
  HasPrefix (String c s) (String d p) = Ascii.eqb d c && HasPrefix s p.
Proof.
  unfold HasPrefix. simpl. destruct (ascii_dec d c) as [->|Hne].
  - by rewrite Ascii.eqb_refl.
  - apply Ascii.eqb_neq in Hne. by rewrite Hne.
Qed.

Lemma HasPrefix_app_inv p q s :
  HasPrefix (p +:+ s) (p +:+ q) = HasPrefix s q.
Proof. induction p; simpl; [done|]. rewrite HasPrefix_cons, Ascii.eqb_refl. done. Qed.

Lemma HasPrefix_trans s p q :
  HasPrefix s p = true → HasPrefix p q = true → HasPrefix s q = true.
Proof.
  rewrite !HasPrefix_spec. intros [r ->] [t ->]. exists (t +:+ r).
  by rewrite app_assoc_str.
Qed.

Lemma HasPrefix_slen s p : HasPrefix s p = true → slen p <= slen s.
Proof. rewrite HasPrefix_spec. intros [r ->]. rewrite slen_app. lia. Qed.

Lemma HasPrefix_total a b s :
  HasPrefix s a = true → HasPrefix s b = true →
  HasPrefix a b = true ∨ HasPrefix b a = true.
Proof.
  revert b s. induction a as [|c a IH]; intros b s Ha Hb; [by right|].
  destruct b as [|d b]; [by left|]. destruct s as [|e s]; [done|].
  rewrite !HasPrefix_cons in *. bool_hyps.
  rewrite Ascii.eqb_eq in *. subst. rewrite Ascii.eqb_refl. simpl. eauto.
Qed.

Lemma TrimPrefix_app p r : TrimPrefix (p +:+ r) p = r.
Proof. unfold TrimPrefix. rewrite HasPrefix_app. apply str_drop_app. Qed.

Lemma TrimPrefix_none s p : HasPrefix s p = false → TrimPrefix s p = s.
Proof. unfold TrimPrefix. by intros ->. Qed.

Lemma HasPrefix_TrimPrefix s p : HasPrefix s p = true → p +:+ TrimPrefix s p = s.
Proof. rewrite HasPrefix_spec. intros [r ->]. by rewrite TrimPrefix_app. Qed.

#[export] Hint Rewrite HasPrefix_app HasPrefix_refl HasPrefix_empty TrimPrefix_app
  str_drop_app str_take_app app_nil_r_str : gosimp.

Lemma HasSuffix_spec s p : HasSuffix s p = true ↔ ∃ r, s = r +:+ p.
Proof.
  unfold HasSuffix. rewrite andb_true_iff, Nat.leb_le, String.eqb_eq. split.
  - intros [Hle Heq]. exists (str_take (slen s - slen p) s).
    rewrite <- Heq at 2. by rewrite str_take_drop.
  - intros [r ->]. rewrite slen_app. split; [lia|].
    replace (slen r + slen p - slen p) with (slen r) by lia. apply str_drop_app.
Qed.

(** ** Lemmas: searching *)

Lemma Index_Some s sub n :
  Index s sub = Some n → ∃ r, s = str_take n s +:+ sub +:+ r ∧ n <= slen s.
Proof.
  revert n. induction s as [|c s IH]; intros n; simpl;
    destruct (HasPrefix _ sub) eqn:E; intros H; simplify_eq.
  - apply HasPrefix_spec in E as [r Hr]. exists r. split; [done|lia].
  - apply HasPrefix_spec in E as [r Hr]. exists r. split; [done|lia].
  - destruct (Index s sub) as [m|] eqn:F; simplify_eq/=.
    destruct (IH m eq_refl) as (r & Hr & Hm). exists r. split; [|lia].
    by rewrite Hr at 1.
Qed.

Lemma Index_is_Some s a sub b :
  s = a +:+ sub +:+ b → is_Some (Index s sub).
Proof.
  intros ->. induction a as [|c a IH]; simpl.
  - destruct (sub +:+ b) eqn:E; simpl; rewrite <- E, HasPrefix_app; eauto.
  - case_match; [eauto|]. by apply fmap_is_Some.
Qed.

Lemma Contains_spec s sub :
  Contains s sub = true ↔ ∃ a b, s = a +:+ sub +:+ b.
Proof.
  unfold Contains. split.
  - destruct (Index s sub) as [n|] eqn:E; [|done]. intros _.
    apply Index_Some in E as (r & Hr & _). eauto.
  - intros (a & b & H). destruct (Index_is_Some _ _ _ _ H) as [n ->]. done.
Qed.

(** Searching for a one-character separator. *)
Lemma Index1_cons c d s :
  Index (String d s) (String c "") =
  if Ascii.eqb c d then Some O else S <$> Index s (String c "").
Proof. simpl. rewrite HasPrefix_cons, HasPrefix_empty, andb_true_r. done. Qed.

Lemma Index1_None c s :
  Index s (String c "") = None ↔ str_forallb (λ d, negb (Ascii.eqb c d)) s = true.
Proof.
  induction s as [|d s IH]; [done|]. rewrite Index1_cons. simpl.
  destruct (Ascii.eqb c d); simpl; [done|].
  rewrite <- IH. by destruct (Index s _).
Qed.

(** [w] has no [c]: the first [c] of [w ++ c ++ r] is at [len(w)]. *)
Lemma Index1_app c w r :
  str_forallb (λ d, negb (Ascii.eqb c d)) w = true →
  Index (w +:+ String c r) (String c "") = Some (slen w).
Proof.
  induction w as [|d w IH]; cbn [str_forallb String.append String.length]; intros H.
  - by rewrite Index1_cons, Ascii.eqb_refl.
  - bool_hyps. rewrite Index1_cons, H. by rewrite IH.
Qed.

Lemma str_forallb_app p a b :
  str_forallb p (a +:+ b) = str_forallb p a && str_forallb p b.
Proof. induction a; simpl; [done|]. by rewrite IHa, andb_assoc. Qed.

Lemma str_forallb_impl (p q : ascii → bool) s :
  (∀ c, p c = true → q c = true) → str_forallb p s = true → str_forallb q s = true.
Proof.
  intros H. induction s; simpl; [done|]. intros Hs. bool_hyps. rewrite H; auto.
Qed.

(** [HasPrefix] against a literal that ends where a class of bytes ends: two
    runs of class [p], each followed by a byte outside it, are equal. *)
Lemma run_unique p a b c d r s :
  str_forallb p a = true → str_forallb p b = true → p c = false → p d = false →
  a +:+ String c r = b +:+ String d s → a = b ∧ String c r = String d s.
Proof.
  revert b. induction a as [|x a IH]; intros [|y b] Ha Hb Hc Hd H; simpl in *;
    simplify_eq; bool_hyps; try congruence; [done|].
  edestruct (IH b); eauto. by subst.
Qed.

(** ** Lemmas: splitting *)

Lemma Split1_ne c s : Split1 c s ≠ [].
Proof. destruct s; simpl; [done|]. destruct (Ascii.eqb _ _); [done|]. by case_match. Qed.

(** Joining what [Split] returns gives the string back. *)
Lemma Split1_Join c s : Join (Split1 c s) (String c "") = s.
Proof.
  induction s as [|d s IH]; simpl; [done|].
  destruct (Ascii.eqb_spec d c) as [->|Hne].
  - pose proof (Split1_ne c s). simpl. destruct (Split1 c s) eqn:E; [done|].
    by rewrite IH.
  - pose proof (Split1_ne c s). destruct (Split1 c s) as [|w [|w' ws]]; [done|..];
      simpl in *; by rewrite <- IH.
Qed.

Lemma Split1_no_sep c s :
  str_forallb (λ d, negb (Ascii.eqb c d)) s = true → Split1 c s = [s].
Proof.
  induction s as [|d s IH]; simpl; [done|]. intros H. bool_hyps.
  rewrite Ascii.eqb_sym, H. by rewrite IH.
Qed.

Lemma Split1_app c w s :
  str_forallb (λ d, negb (Ascii.eqb c d)) w = true →
  Split1 c (w +:+ String c s) = w :: Split1 c s.
Proof.
  induction w as [|d w IH]; simpl; [by rewrite Ascii.eqb_refl|].
  intros H. bool_hyps. rewrite Ascii.eqb_sym, H. by rewrite IH.
Qed.

(** Words without the separator, joined and split again. *)
Lemma Split1_of_Join c ws :
  ws ≠ [] → Forall (λ w, str_forallb (λ d, negb (Ascii.eqb c d)) w = true) ws →
  Split1 c (Join ws (String c "")) = ws.
Proof.
  induction ws as [|w ws IH]; [done|]. intros _ [Hw Hws]%Forall_cons. destruct ws as [|v ws].
  - by apply Split1_no_sep.
  - transitivity (Split1 c (w +:+ String c (Join (v :: ws) (String c "")))); [done|]. rewrite Split1_app by done. f_equal. by apply IH.
Qed.

(** ** Lemmas: decimal numbers *)

Lemma Itoa_inj a b : Itoa a = Itoa b → a = b.
Proof. apply pretty_Z_inj. Qed.
#[export] Instance Itoa_Inj : Inj (=) (=) Itoa := Itoa_inj.

Lemma pretty_N_char_digit x : is_digit (pretty_N_char x) = true.
Proof. unfold pretty_N_char. by repeat case_match. Qed.

Lemma pretty_N_go_digits x s :
  str_forallb is_digit s = true → str_forallb is_digit (pretty_N_go x s) = true.
Proof.
  revert s. induction (N.lt_wf_0 x) as [x _ IH]; intros s Hs.
  destruct (decide (0 < x)%N) as [Hx|Hx].
  - rewrite pretty_N_go_step by done. apply IH; [by apply N.div_lt|].
    simpl. by rewrite pretty_N_char_digit, Hs.
  - replace x with 0%N by lia. done.
Qed.

Lemma Itoa_digits z : (0 <= z)%Z → str_forallb is_digit (Itoa z) = true.
Proof.
  intros Hz. destruct z as [|p|p]; [done| |lia].
  unfold Itoa, pretty, pretty_Z, pretty, pretty_positive, pretty, pretty_N.
  case_decide; [done|]. by apply pretty_N_go_digits.
Qed.

Lemma pretty_N_go_ne x s : s ≠ "" → pretty_N_go x s ≠ "".
Proof.
  revert s. induction (N.lt_wf_0 x) as [x _ IH]; intros s Hs.
  destruct (decide (0 < x)%N) as [Hx|Hx].
  - rewrite pretty_N_go_step by done. apply IH; [by apply N.div_lt|done].
  - replace x with 0%N by lia. done.
Qed.

Lemma Itoa_ne z : Itoa z ≠ "".
Proof.
  destruct z as [|p|p]; [done| |done].
  unfold Itoa, pretty, pretty_Z, pretty, pretty_positive, pretty, pretty_N.
  case_decide; [done|]. rewrite pretty_N_go_step by lia. by apply pretty_N_go_ne.
Qed.


Lemma digit_val_pretty x : (x < 10)%N → digit_val (pretty_N_char x) = Z.of_N x.
Proof.
  intros H.
  assert (x = 0 ∨ x = 1 ∨ x = 2 ∨ x = 3 ∨ x = 4 ∨ x = 5 ∨ x = 6 ∨ x = 7
          ∨ x = 8 ∨ x = 9)%N as Hx by lia.
  destruct_or! Hx; by subst.
Qed.

Lemma digits_val_go x s :
  (Z.of_N x <= uint64_max)%Z → digits_val 0 (pretty_N_go x s) = digits_val (Z.of_N x) s.
Proof.
  revert s. induction (N.lt_wf_0 x) as [x _ IH]; intros s Hx.
  destruct (decide (0 < x)%N) as [Hpos|Hpos]; [|by replace x with 0%N by lia].
  rewrite pretty_N_go_step by done.
  pose proof (N.div_mod x 10 ltac:(done)) as Hdm.
  pose proof (N.mod_lt x 10 ltac:(done)) as Hm.
  assert (x `div` 10 < x)%N as Hlt by (by apply N.div_lt).
  rewrite IH; [|done|lia]. simpl.
  rewrite pretty_N_char_digit, digit_val_pretty by done.
  replace (Z.of_N (x `div` 10) * 10 + Z.of_N (x `mod` 10))%Z with (Z.of_N x) by lia.
  by rewrite (proj2 (Z.ltb_ge _ _) Hx).
Qed.

(** A string of digits has no sign to strip. *)
Lemma Atoi_digits s :
  str_forallb is_digit s = true → s ≠ "" →
  Atoi s = match digits_val 0 s with
           | None => (0%Z, false)
           | Some v => if (v <? int64_min)%Z then (int64_min, false)
                       else if (int64_max <? v)%Z then (int64_max, false) else (v, true)
           end.
Proof.
  destruct s as [|c t]; [done|]. intros H _. simpl in H. bool_hyps.
  destruct c as [[] [] [] [] [] [] [] []]; done.
Qed.

(** What [Itoa] prints is a number again. *)
Lemma digits_val_Itoa z : (0 <= z <= int64_max)%Z → digits_val 0 (Itoa z) = Some z.
Proof.
  unfold int64_max. intros Hz. destruct z as [|p|p]; [done| |lia].
  unfold Itoa, pretty, pretty_Z, pretty, pretty_positive, pretty, pretty_N.
  case_decide; [done|]. rewrite digits_val_go; [done|]. unfold uint64_max. lia.
Qed.

(** [Atoi] reads back what [Itoa] prints. *)
Lemma Atoi_Itoa z : (0 <= z <= int64_max)%Z → Atoi (Itoa z) = (z, true).
Proof.
  intros Hz. rewrite Atoi_digits; [|apply Itoa_digits; lia|apply Itoa_ne].
  rewrite digits_val_Itoa by done. unfold int64_max, int64_min in *.
  destruct (Z.ltb_spec z (- 2 ^ 63)); [lia|].
  by destruct (Z.ltb_spec (2 ^ 63 - 1) z); [lia|].
Qed.

(** ** Lemmas: [TrimRight] *)

Lemma TrimRight1_prefix s c : HasPrefix s (TrimRight1 s c) = true.
Proof.
  induction s as [|d s IH]; simpl; [done|].
  destruct (TrimRight1 s c) as [|e t] eqn:E.
  - destruct (Ascii.eqb d c); [done|]. by rewrite HasPrefix_cons, Ascii.eqb_refl.
  - by rewrite HasPrefix_cons, Ascii.eqb_refl.
Qed.

Fixpoint last_char (s : string) : option ascii :=
  match s with
  | "" => None
  | String d "" => Some d
  | String _ s' => last_char s'
  end.

Lemma last_char_cons d s : is_Some (last_char (String d s)).
Proof. revert d; induction s as [|e s IH]; intros d; [simpl; eauto|apply (IH e)]. Qed.

Lemma last_char_app a b :
  last_char (a +:+ b) = match last_char b with Some d => Some d | None => last_char a end.
Proof.
  destruct b as [|d b]; [by rewrite app_nil_r_str|].
  destruct (last_char_cons d b) as [e He]. rewrite He.
  induction a as [|x a IH]; [done|]. simpl. destruct (a +:+ String d b) eqn:E; [|done].
  by destruct a.
Qed.

(** A string whose last byte is not [c] is its own trimming. *)
Lemma TrimRight1_id s c : last_char s ≠ Some c → TrimRight1 s c = s.
Proof.
  induction s as [|d s IH]; [done|]. intros H. simpl. destruct s as [|e s].
  - simpl in *. destruct (Ascii.eqb_spec d c); congruence.
  - rewrite IH by done. done.
Qed.

(** Counting a byte. *)
Fixpoint count_char (c : ascii) (s : string) : nat :=
  match s with
  | "" => 0
  | String d s' => (if Ascii.eqb c d then 1 else 0) + count_char c s'
  end.

Lemma count_char_app c a b : count_char c (a +:+ b) = count_char c a + count_char c b.
Proof. induction a; simpl; [done|]. rewrite IHa. lia. Qed.

Lemma count_char_none c s :
  str_forallb (λ d, negb (Ascii.eqb c d)) s = true → count_char c s = 0.
Proof.
  induction s; simpl; [done|]. intros H. bool_hyps. rewrite H. auto.
Qed.

Lemma Index1_Some c s n :
  Index s (String c "") = Some n →
  s = str_take n s +:+ String c (str_drop (S n) s)
  ∧ str_drop n s = String c (str_drop (S n) s)
  ∧ str_forallb (λ d, negb (Ascii.eqb c d)) (str_take n s) = true.
Proof.
  revert n. induction s as [|d s IH]; intros n; [done|]. rewrite Index1_cons.
  destruct (Ascii.eqb c d) eqn:E.
  - intros ?; simplify_eq. apply Ascii.eqb_eq in E as ->. by destruct s.
  - destruct (Index s _) as [m|] eqn:F; intros ?; simplify_eq/=.
    destruct (IH m eq_refl) as (H1 & H2 & H3). rewrite E, H3. split_and!; [|done..].
    by f_equal.
Qed.

(** Printable ASCII other than the space: nothing for [TrimSpace] to remove. *)
Definition is_plain (c : ascii) : bool :=
  (33 <=? N_of_ascii c)%N && (N_of_ascii c <=? 126)%N.

Lemma space_seqs_not_plain w : w ∈ space_seqs → str_forallb is_plain w = false.
Proof.
  assert (Forall (λ w, str_forallb is_plain w = false) space_seqs) as H
    by (repeat constructor; vm_compute; done).
  rewrite Forall_forall in H. apply H.
Qed.

Lemma TrimSpace_plain s : str_forallb is_plain s = true → TrimSpace s = s.
Proof.
  intros Hs. unfold TrimSpace.
  assert (space_prefix s = None) as Hp.
  { unfold space_prefix. destruct (find_first _ _) as [w|] eqn:E; [exfalso|done].
    apply find_first_Some in E as [Hw [r ->]%HasPrefix_spec].
    rewrite str_forallb_app, (space_seqs_not_plain w Hw) in Hs. done. }
  assert (space_suffix s = None) as Hq.
  { unfold space_suffix. destruct (find_first _ _) as [w|] eqn:E; [exfalso|done].
    apply find_first_Some in E as [Hw [r ->]%HasSuffix_spec].
    rewrite str_forallb_app, (space_seqs_not_plain w Hw), andb_false_r in Hs. done. }
  assert (∀ f, trim_left_space f s = s) as -> by (intros []; simpl; by rewrite ?Hp).
  by destruct (slen s); simpl; rewrite ?Hq.
Qed.

Lemma digit_plain c : is_digit c = true → is_plain c = true.
Proof. unfold is_digit, is_plain. rewrite !andb_true_iff, !N.leb_le. lia. Qed.

Lemma Itoa_plain z : str_forallb is_plain (Itoa z) = true.
Proof.
  destruct (decide (0 <= z)%Z) as [Hz|Hz].
  - eapply str_forallb_impl, Itoa_digits, Hz. apply digit_plain.
  - destruct z as [|p|p]; try lia. change (Itoa (Z.neg p)) with (String "-" (Itoa (Z.pos p))).
    assert (str_forallb is_plain (Itoa (Z.pos p)) = true) as Hp
      by (eapply str_forallb_impl, Itoa_digits; [apply digit_plain|lia]).
    simpl. exact Hp.
Qed.

(** The last segment of a split is what follows the last separator. *)
Lemma Split1_last_no_sep c a b d :
  str_forallb (λ x, negb (Ascii.eqb c x)) b = true →
  List.last (Split1 c (a +:+ String c b)) d = b.
Proof.
  intros Hb. induction a as [|x a IH]; simpl.
  - rewrite Ascii.eqb_refl, (Split1_no_sep c b Hb). done.
  - destruct (Ascii.eqb x c).
    + pose proof (Split1_ne c (a +:+ String c b)). destruct (Split1 c _); [done|exact IH].
    + pose proof (Split1_ne c (a +:+ String c b)).
      destruct (Split1 c (a +:+ String c b)) as [|y [|z l]] eqn:E; [done| |exact IH].
      exfalso. pose proof (Split1_Join c (a +:+ String c b)) as HJ. rewrite E in HJ.
      simpl in HJ, IH. subst y.
      assert (count_char c b = count_char c (a +:+ String c b)) as Hc by (by rewrite <- HJ).
      rewrite count_char_app, count_char_none in Hc by done. simpl in Hc.
      rewrite Ascii.eqb_refl in Hc. lia.
Qed.

(** [strings.Replace(s, old, new, 1)] with a non-empty [old]. *)
Definition Replace1 (s old new : string) : string :=
  match Index s old with
  | Some n => str_take n s +:+ new +:+ str_drop (n + slen old) s
  | None => s
  end.

(** The longest prefix of bytes that satisfy [p], and the rest. *)
Fixpoint span (p : ascii → bool) (s : string) : string * string :=
  match s with
  | "" => ("", "")
  | String c s' => if p c then let '(a, b) := span p s' in (String c a, b) else ("", s)
  end.

Lemma span_app p s : (span p s).1 +:+ (span p s).2 = s.
Proof.
  induction s as [|c s IH]; simpl; [done|]. destruct (p c); [|done].
  destruct (span p s); simpl in *. by f_equal.
Qed.

Lemma span_forallb p s : str_forallb p (span p s).1 = true.
Proof.
  induction s as [|c s IH]; simpl; [done|]. destruct (p c) eqn:E; [|done].
  destruct (span p s); simpl in *. by rewrite E.
Qed.

Lemma span_all p s : str_forallb p s = true → span p s = (s, "").
Proof. induction s as [|c s IH]; [done|]. cbn. intros H. bool_hyps. by rewrite H, IH. Qed.
Lemma span_run p a c r :
  str_forallb p a = true → p c = false → span p (a +:+ String c r) = (a, String c r).
Proof.
  induction a as [|x a IH]; simpl; intros Ha Hc; [by rewrite Hc|].
  bool_hyps. rewrite H. by rewrite IH.
Qed.

Lemma HasSuffix_app a p : HasSuffix (a +:+ p) p = true.
Proof. apply HasSuffix_spec. eauto. Qed.
(** Between braces. *)
Lemma str_take_drop_braces s : str_take (slen ("{" +:+ s +:+ "}") - 2) (str_drop 1 ("{" +:+ s +:+ "}")) = s.
Proof. rewrite !slen_app. cbn. replace (slen s + 1 - 1)%nat with (slen s) by lia. apply str_take_app. Qed.
