(* ===== verification/OsLookup.v ===== *)
(** * OsLookup: the user and group database (internal/auth/os_lookup.go)

    The functions read /etc/passwd and /etc/group on every call.  The two
    files are the fields of [OsFiles], [None] when they cannot be read.  The
    theorems relate the text scan to an abstract user database: a file
    rendered from a list of entries answers as the list does. *)

From S2P Require Import Prelude GoStrings.

Record OsFiles := mkOsFiles {
  etc_passwd : option string;
  etc_group : option string;
}.

Definition NL : ascii := "010".

(** ** The operations *)

Section lookups.
Context (os : OsFiles).

(** [lookupPasswdField]: column [returnField] of the first line whose column
    [matchField] is [matchValue]. *)
Definition passwd_line_matches (matchValue : string) (matchField returnField : nat)
    (line : string) : bool :=
  let fields := Split1 ":" line in
  (returnField <? length fields) && (matchField <? length fields)
  && (default "" (fields !! matchField) ==s matchValue).

Definition lookupPasswdField (matchValue : string) (matchField returnField : nat)
    : string :=
  match etc_passwd os with
  | None => ""
  | Some data =>
      match find_first (passwd_line_matches matchValue matchField returnField)
              (Split1 NL data) with
      | Some line => default "" (Split1 ":" line !! returnField)
      | None => ""
      end
  end.

Definition LookupUsername (uid : Z) : string := lookupPasswdField (Itoa uid) 2 0.

Definition LookupHomeDir (uid : Z) : string := lookupPasswdField (Itoa uid) 2 5.

Definition LookupUID (username : string) : Z :=
  let s := lookupPasswdField username 0 2 in
  if s ==s "" then (-1)%Z else Atoi_val s.

Definition LookupPrimaryGID (username : string) : Z :=
  let s := lookupPasswdField username 0 3 in
  if s ==s "" then (-1)%Z else Atoi_val s.

Definition LookupGroupGID (groupname : string) : Z :=
  match etc_group os with
  | None => (-1)%Z
  | Some data =>
      match find_first (λ line,
              let fields := Split1 ":" line in
              (3 <=? length fields) && (default "" (fields !! 0) ==s groupname))
            (Split1 NL data) with
      | Some line => Atoi_val (default "" (Split1 ":" line !! 2))
      | None => (-1)%Z
      end
  end.

Definition LookupGroupName (gid : Z) : string :=
  match etc_group os with
  | None => ""
  | Some data =>
      match find_first (λ line,
              let fields := Split1 ":" line in
              (3 <=? length fields) && (default "" (fields !! 2) ==s Itoa gid))
            (Split1 NL data) with
      | Some line => default "" (Split1 ":" line !! 0)
      | None => ""
      end
  end.

(** The group of one /etc/group line, if [username] is among its members. *)
Definition group_line_gid (username line : string) : option Z :=
  let fields := Split1 ":" line in
  if length fields <? 4 then None
  else if existsb (λ member, TrimSpace member ==s username)
            (Split1 "," (default "" (fields !! 3)))
  then Some (Atoi_val (default "" (fields !! 2)))
  else None.

(** [GetUserGroups]: the primary group, then the supplementary groups. *)
Definition GetUserGroups (uid : Z) : list Z :=
  let username := LookupUsername uid in
  if username ==s "" then []
  else
    let pgid := LookupPrimaryGID username in
    let gids := if (0 <=? pgid)%Z then [pgid] else [] in
    match etc_group os with
    | None => gids
    | Some data => gids ++ omap (group_line_gid username) (Split1 NL data)
    end.
End lookups.

(** ** An abstract user database and its text form *)

Record PasswdEntry := mkPasswdEntry {
  pw_name : string; pw_passwd : string; pw_uid : Z; pw_gid : Z;
  pw_gecos : string; pw_dir : string; pw_shell : string;
}.

Definition passwd_fields (e : PasswdEntry) : list string :=
  [pw_name e; pw_passwd e; Itoa (pw_uid e); Itoa (pw_gid e);
   pw_gecos e; pw_dir e; pw_shell e].

Definition passwd_line (e : PasswdEntry) : string := Join (passwd_fields e) ":".

(** A complete file: each line ends with a newline. *)
Definition passwd_file (es : list PasswdEntry) : string :=
  foldr (λ e s, passwd_line e +:+ String NL s) "" es.

Definition no_char (c : ascii) (s : string) : bool :=
  str_forallb (λ d, negb (Ascii.eqb c d)) s.

(** An entry is well formed when no field holds a separator. *)
Definition passwd_entry_ok (e : PasswdEntry) : bool :=
  forallb (λ f, no_char ":" f && no_char NL f) (passwd_fields e).

Lemma Split1_Join_fields c ws w :
  forallb (no_char c) (w :: ws) = true → Split1 c (Join (w :: ws) (String c "")) = w :: ws.
Proof.
  rewrite forallb_forall. intros H. apply Split1_of_Join; [done|]. apply Forall_forall. intros x Hx. by apply H, list_elem_of_In.
Qed.

Lemma no_char_Join c d ws :
  c ≠ d → forallb (no_char c) ws = true → no_char c (Join ws (String d "")) = true.
Proof.
  intros Hcd. induction ws as [|w ws IH]; [done|]. intros H. simpl in H. bool_hyps.
  destruct ws as [|w' ws]; [done|].
  change (Join (w :: w' :: ws) (String d ""))
    with (w +:+ String d (Join (w' :: ws) (String d ""))).
  unfold no_char. rewrite str_forallb_app. simpl.
  apply andb_true_iff; split; [done|]. apply andb_true_iff; split.
  - apply negb_true_iff, Ascii.eqb_neq. done.
  - by apply IH.
Qed.

Lemma forallb_and {A} (p q : A → bool) l :
  forallb (λ x, p x && q x) l = true → forallb p l = true ∧ forallb q l = true.
Proof.
  rewrite !forallb_forall. intros H. split; intros x Hx; specialize (H x Hx); by bool_hyps.
Qed.

Lemma passwd_line_split e :
  passwd_entry_ok e = true → Split1 ":" (passwd_line e) = passwd_fields e.
Proof. intros [H _]%forallb_and. by apply Split1_Join_fields. Qed.

Lemma passwd_file_split es :
  forallb passwd_entry_ok es = true →
  Split1 NL (passwd_file es) = (passwd_line <$> es) ++ [""].
Proof.
  induction es as [|e es IH]; [done|]. intros H. simpl in H. bool_hyps. simpl.
  rewrite Split1_app, IH; [done..|].
  apply forallb_and in H as [_ H]. by apply no_char_Join.
Qed.

(** On a rendered file the text scan is the search of the entry list. *)
Lemma lookupPasswdField_render es og v mf rf :
  forallb passwd_entry_ok es = true → mf < 7 → rf < 7 → (v ≠ "" ∨ 0 < rf) →
  lookupPasswdField (mkOsFiles (Some (passwd_file es)) og) v mf rf =
  match find_first (λ e, default "" (passwd_fields e !! mf) ==s v) es with
  | Some e => default "" (passwd_fields e !! rf)
  | None => ""
  end.
Proof.
  intros Hok Hmf Hrf Hv. unfold lookupPasswdField. simpl. rewrite passwd_file_split by done.
  induction es as [|e es IH].
  - simpl. unfold passwd_line_matches. simpl.
    destruct mf as [|mf]; [|by rewrite andb_false_r].
    destruct rf as [|rf]; [|done]. simpl. destruct v; [naive_solver lia|done].
  - simpl in Hok. bool_hyps. cbn -[passwd_line passwd_fields passwd_line_matches Split1].
    unfold passwd_line_matches at 1. rewrite passwd_line_split by done.
    replace (rf <? length (passwd_fields e)) with true by (symmetry; by apply Nat.ltb_lt).
    replace (mf <? length (passwd_fields e)) with true by (symmetry; by apply Nat.ltb_lt).
    rewrite !andb_true_l. destruct (_ ==s v); cbn beta iota; [by rewrite passwd_line_split|]. by apply IH.
Qed.

Section rendered.
Context (es : list PasswdEntry) (og : option string).
Hypothesis es_ok : forallb passwd_entry_ok es = true.
Hypothesis names_distinct : NoDup (pw_name <$> es).
Hypothesis uids_distinct : NoDup (pw_uid <$> es).
Local Abbreviation os := (mkOsFiles (Some (passwd_file es)) og).

Lemma find_first_key {A} (key : A → string) (l : list A) e :
  NoDup (key <$> l) → e ∈ l → find_first (λ x, key x ==s key e) l = Some e.
Proof.
  induction l as [|x l IH]; intros Hnd He; [by apply elem_of_nil in He|].
  rewrite fmap_cons, NoDup_cons in Hnd. destruct Hnd as [Hx Hnd]. simpl.
  apply elem_of_cons in He as [->|He]; [by rewrite String.eqb_refl|].
  destruct (String.eqb_spec (key x) (key e)) as [Heq|]; [|auto].
  destruct Hx. rewrite Heq. by apply list_elem_of_fmap_2.
Qed.

(** The scans of a rendered file find the entry they are asked for. *)
Lemma LookupUsername_rendered e : e ∈ es → LookupUsername os (pw_uid e) = pw_name e.
Proof.
  intros He. unfold LookupUsername.
  rewrite lookupPasswdField_render; [|done|lia|lia|left; apply Itoa_ne]. simpl.
  rewrite (find_first_key (λ e, Itoa (pw_uid e)) es e); [done| |done].
  replace ((λ e0, Itoa (pw_uid e0)) <$> es) with (Itoa <$> (pw_uid <$> es))
    by (symmetry; apply (list_fmap_compose pw_uid Itoa)).
  by apply (NoDup_fmap Itoa).
Qed.

Lemma LookupUID_rendered e :
  e ∈ es → (0 <= pw_uid e <= int64_max)%Z → LookupUID os (pw_name e) = pw_uid e.
Proof.
  intros He Hr. unfold LookupUID.
  rewrite lookupPasswdField_render; [|done|lia|lia|right; lia]. simpl.
  rewrite (find_first_key pw_name es e) by done. simpl.
  destruct (String.eqb_spec (Itoa (pw_uid e)) "") as [E|_]; [by destruct (Itoa_ne (pw_uid e))|].
  unfold Atoi_val. by rewrite Atoi_Itoa.
Qed.
End rendered.
