(* ===== verification/Identity.v ===== *)
(** * Identity: who is calling (internal/auth/identity.go and auth.go)

    The identity of a request comes from the kernel: the peer credentials of
    the Unix socket and the /proc files of the peer process.  [ProcView] is
    what those files hold at one moment; [ResolveCallerIdentity] is the
    decision taken when a connection is accepted and
    [VerifyIdentityAtRequest] the check repeated before each request, on the
    files as they are then. *)

From S2P Require Import Prelude GoStrings OsLookup.

(** ** Data *)

Inductive UserType := UserTypeRegular | UserTypeSudo | UserTypeRoot.

#[export] Instance UserType_eq_dec : EqDecision UserType.
Proof. solve_decision. Defined.

Definition UserType_String (t : UserType) : string :=
  match t with
  | UserTypeRoot => "root"
  | UserTypeSudo => "sudo"
  | UserTypeRegular => "regular"
  end.

Definition is_sudo_type (t : UserType) : bool :=
  match t with UserTypeSudo => true | _ => false end.

Inductive AuthSource := AuthSourceNone | AuthSourceOS | AuthSourceJWT | AuthSourceCert.

Record CallerIdentity := mkCallerIdentity {
  RealUsername : string;
  RealUID : Z;
  RealGID : Z;
  EffectiveUsername : string;
  EffectiveUID : Z;
  EffectiveGID : Z;
  LoginUID : Z;
  LoginUsername : string;
  PID : Z;
  ProcessName : string;
  CmdLine : string;
  DockerCommand : string;
  SwitchedIdentity : bool;
  id_UserType : UserType;
  id_AuthSource : AuthSource;
  ClientAddr : string;
  ConfigPrivileged : bool;
}.

Definition IsPrivileged (id : CallerIdentity) : bool :=
  (RealUID id ==z 0) || is_sudo_type (id_UserType id) || ConfigPrivileged id.

Definition IsSudoCommand (id : CallerIdentity) : bool := is_sudo_type (id_UserType id).

(** The assignment [identity.ConfigPrivileged = b] of the forward layer. *)
Definition set_ConfigPrivileged (b : bool) (id : CallerIdentity) : CallerIdentity :=
  {| RealUsername := RealUsername id; RealUID := RealUID id; RealGID := RealGID id;
     EffectiveUsername := EffectiveUsername id; EffectiveUID := EffectiveUID id;
     EffectiveGID := EffectiveGID id; LoginUID := LoginUID id;
     LoginUsername := LoginUsername id; PID := PID id; ProcessName := ProcessName id;
     CmdLine := CmdLine id; DockerCommand := DockerCommand id;
     SwitchedIdentity := SwitchedIdentity id; id_UserType := id_UserType id;
     id_AuthSource := id_AuthSource id; ClientAddr := ClientAddr id;
     ConfigPrivileged := b |}.

(** ** Errors

    [Forgery] is [IdentityForgeryError], with the values its reason prints. *)
Inductive ForgeryReason :=
  | EUIDMismatch (cred pid status : Z)
  | LoginUIDUnknown (loginuid pid : Z)
  | LoginUIDUnbound (loginuid : Z) (username : string)
  | UIDUnknown (uid : Z)
  | SudoUIDUnknown (uid pid : Z)
  | SudoUIDUnbound (uid : Z) (username : string) (pid : Z)
  | SuOriginUnknown (uid : Z)
  | SuOriginUnbound (username : string)
  | UsernameMismatch (claimed : string) (uid : Z) (expected : string)
  | EffectiveUIDUnknown (uid : Z)
  | RealUIDChanged (was now pid : Z)
  | EffectiveUIDChanged (was now pid : Z).

Inductive AuthError :=
  | PlainError (msg : string)
  | Forgery (r : ForgeryReason).

Definition IsIdentityForgery (e : AuthError) : bool :=
  match e with Forgery _ => true | PlainError _ => false end.

(** ** The kernel's view of the peer *)

Record Ucred := mkUcred { cr_pid : Z; cr_uid : N; cr_gid : N }.

(** The outcome of the socket calls of [ResolveCallerIdentity]. *)
Inductive Conn :=
  | NotUnixConn
  | SyscallConnError
  | PeerCredError
  | PeerCred (cred : Ucred).

(** The /proc/<pid> files; [None] when a file cannot be read. *)
Record ProcView := mkProcView {
  proc_status : option string;
  proc_loginuid : option string;
  proc_environ : option string;
  proc_comm : option string;
  proc_cmdline : option string;
}.

(** ** Reading /proc *)

(** The scan of /proc/<pid>/status: rUID, eUID, rGID, eGID, -1 until a line
    sets them; a later line overrides an earlier one. *)
Definition status_line (acc : Z * Z * Z * Z) (line : string) : Z * Z * Z * Z :=
  let '(rUID, eUID, rGID, eGID) := acc in
  match Fields line with
  | f0 :: f1 :: f2 :: _ =>
      if f0 ==s "Uid:" then (Atoi_val f1, Atoi_val f2, rGID, eGID)
      else if f0 ==s "Gid:" then (rUID, eUID, Atoi_val f1, Atoi_val f2)
      else acc
  | _ => acc
  end.

Definition readProcStatus (pv : ProcView) : option (Z * Z * Z * Z) :=
  match proc_status pv with
  | None => None
  | Some data =>
      let '(rUID, eUID, rGID, eGID) :=
        foldl status_line ((-1)%Z, (-1)%Z, (-1)%Z, (-1)%Z) (Split1 NL data) in
      if (rUID <? 0)%Z || (eUID <? 0)%Z then None
      else Some (rUID, eUID, rGID, eGID)
  end.

Definition readLoginUID (pv : ProcView) : Z :=
  match proc_loginuid pv with
  | None => (-1)%Z
  | Some data =>
      let '(v, ok) := Atoi (TrimSpace data) in
      if negb ok then (-1)%Z
      else if (v ==z -1) || (v ==z 4294967295) then (-1)%Z
      else v
  end.

Definition NUL : ascii := "000".

Definition readProcEnviron (pv : ProcView) : gmap string string :=
  match proc_environ pv with
  | None => ∅
  | Some data =>
      foldl (λ m entry, match Cut1 "=" entry with
                        | Some (k, v) => <[k := v]> m
                        | None => m
                        end) ∅ (Split1 NUL data)
  end.

Definition getEnvInt (env : gmap string string) (key : string) : Z :=
  match env !! key with
  | Some v => let '(n, ok) := Atoi v in if ok then n else (-1)%Z
  | None => (-1)%Z
  end.

Definition readProcComm (pv : ProcView) : string :=
  match proc_comm pv with
  | None => "unknown"
  | Some data => TrimSpace data
  end.

(** Drop the trailing empty arguments. *)
Fixpoint drop_trailing_empty (parts : list string) : list string :=
  match parts with
  | [] => []
  | p :: ps => match drop_trailing_empty ps with
               | [] => if p ==s "" then [] else [p]
               | ps' => p :: ps'
               end
  end.

Definition readProcCmdline (pv : ProcView) : string :=
  match proc_cmdline pv with
  | None => ""
  | Some data => Join (drop_trailing_empty (Split1 NUL data)) " "
  end.

(** ** The docker sub-command of the command line *)

Definition compoundGroups : gset string :=
  {["system"; "container"; "image"; "network"; "volume"; "plugin"; "builder";
    "context"; "manifest"]}.

Definition arg_base (p : string) : string :=
  match LastIndex p "/" with
  | Some idx => str_drop (S idx) p
  | None => p
  end.

(** The arguments after the first [p] with [p x = true], if any. *)
Fixpoint after_first {A} (p : A → bool) (l : list A) : option (A * list A) :=
  match l with
  | [] => None
  | x :: l' => if p x then Some (x, l') else after_first p l'
  end.

Definition not_flag (arg : string) : bool := negb (HasPrefix arg "-").

Definition parseDockerCommand (cmdline : string) : string :=
  if cmdline ==s "" then ""
  else
    match after_first (λ p, arg_base p ==s "docker") (Fields cmdline) with
    | None => ""
    | Some (_, rest) =>
        match after_first not_flag rest with
        | None => ""
        | Some (first, rest') =>
            if bool_decide (first ∈ compoundGroups) then
              match after_first not_flag rest' with
              | Some (arg, _) => first +:+ "/" +:+ arg
              | None => first
              end
            else first
        end
    end.

Example parseDockerCommand_ex :
  parseDockerCommand "/usr/bin/docker --debug system -f df" = "system/df"
  ∧ parseDockerCommand "docker ps -a" = "ps" ∧ parseDockerCommand "bash" = "".
Proof. vm_compute. done. Qed.

(** ** Resolution *)

Section resolve.
Context (os : OsFiles).

(** Step 3: the login name bound to [loginUID], "" when it is not set. *)
Definition checkLoginUID (pid loginUID : Z) : string + AuthError :=
  if (0 <=? loginUID)%Z then
    let loginUsername := LookupUsername os loginUID in
    if loginUsername ==s "" then inr (Forgery (LoginUIDUnknown loginUID pid))
    else if LookupUID os loginUsername !=z loginUID then
      inr (Forgery (LoginUIDUnbound loginUID loginUsername))
    else inl loginUsername
  else inl "".

(** What steps 4 and 5 determine. *)
Record RealIdentity := mkReal {
  r_UID : Z; r_GID : Z; r_Username : string; r_UserType : UserType; r_switched : bool;
}.

(** eUID <> 0: the effective user is the policy identity. *)
Definition resolveRegular (effectiveUID effectiveGID loginUID : Z)
    : RealIdentity + AuthError :=
  let realUsername := LookupUsername os effectiveUID in
  if realUsername ==s "" then inr (Forgery (UIDUnknown effectiveUID))
  else inl (mkReal effectiveUID effectiveGID realUsername UserTypeRegular
              ((0 <=? loginUID)%Z && (loginUID !=z effectiveUID))).

(** eUID = 0 with no usable loginuid: SUDO_UID, then the real UID, then root. *)
Definition resolveRootNoLogin (pid effectiveGID : Z) (env : gmap string string)
    (status : option (Z * Z * Z * Z)) : RealIdentity + AuthError :=
  let sudoUID := getEnvInt env "SUDO_UID" in
  if (0 <? sudoUID)%Z then
    let sudoUsername := LookupUsername os sudoUID in
    if sudoUsername ==s "" then inr (Forgery (SudoUIDUnknown sudoUID pid))
    else if LookupUID os sudoUsername !=z sudoUID then
      inr (Forgery (SudoUIDUnbound sudoUID sudoUsername pid))
    else
      let g := LookupPrimaryGID os sudoUsername in
      inl (mkReal sudoUID (if (g <? 0)%Z then effectiveGID else g) sudoUsername
             UserTypeSudo true)
  else
    match status with
    | Some (procRUID, _, procRGID, _) =>
        if procRUID !=z 0 then
          let origUsername := LookupUsername os procRUID in
          if origUsername ==s "" then inr (Forgery (SuOriginUnknown procRUID))
          else if LookupUID os origUsername !=z procRUID then
            inr (Forgery (SuOriginUnbound origUsername))
          else inl (mkReal procRUID procRGID origUsername UserTypeSudo true)
        else inl (mkReal 0 effectiveGID "root" UserTypeRoot false)
    | None => inl (mkReal 0 effectiveGID "root" UserTypeRoot false)
    end.

(** Steps 4 and 5. *)
Definition resolveReal (pid effectiveUID effectiveGID loginUID : Z)
    (loginUsername : string) (env : gmap string string)
    (status : option (Z * Z * Z * Z)) : RealIdentity + AuthError :=
  if effectiveUID !=z 0 then resolveRegular effectiveUID effectiveGID loginUID
  else if (0 <=? loginUID)%Z && (loginUID !=z 0) then
    let g := LookupPrimaryGID os loginUsername in
    inl (mkReal loginUID (if (g <? 0)%Z then effectiveGID else g) loginUsername
           UserTypeSudo true)
  else resolveRootNoLogin pid effectiveGID env status.

Definition ResolveCallerIdentity (conn : Conn) (pv : ProcView)
    : CallerIdentity + AuthError :=
  match conn with
  | NotUnixConn => inr (PlainError "not a unix connection")
  | SyscallConnError => inr (PlainError "syscall conn")
  | PeerCredError => inr (PlainError "SO_PEERCRED")
  | PeerCred cred =>
      let effectiveUID := Z.of_N (cr_uid cred) in
      let effectiveGID := Z.of_N (cr_gid cred) in
      let pid := cr_pid cred in
      let processName := readProcComm pv in
      let cmdLine := readProcCmdline pv in
      let status := readProcStatus pv in
      let procEUID := match status with
                      | Some (_, e, _, _) => e
                      | None => effectiveUID
                      end in
      if procEUID !=z effectiveUID then
        inr (Forgery (EUIDMismatch effectiveUID pid procEUID))
      else
        let loginUID := readLoginUID pv in
        match checkLoginUID pid loginUID with
        | inr e => inr e
        | inl loginUsername =>
            match resolveReal pid effectiveUID effectiveGID loginUID loginUsername
                    (readProcEnviron pv) status with
            | inr e => inr e
            | inl real =>
                let expectedUsername := LookupUsername os (r_UID real) in
                if (r_UID real !=z 0) && (expectedUsername !=s "")
                   && (expectedUsername !=s r_Username real) then
                  inr (Forgery (UsernameMismatch (r_Username real) (r_UID real)
                                  expectedUsername))
                else
                  let effectiveUsername := LookupUsername os effectiveUID in
                  if (effectiveUID !=z 0) && (effectiveUsername ==s "") then
                    inr (Forgery (EffectiveUIDUnknown effectiveUID))
                  else
                    inl {| RealUsername := r_Username real;
                           RealUID := r_UID real;
                           RealGID := r_GID real;
                           EffectiveUsername := effectiveUsername;
                           EffectiveUID := effectiveUID;
                           EffectiveGID := effectiveGID;
                           LoginUID := loginUID;
                           LoginUsername := loginUsername;
                           PID := pid;
                           ProcessName := processName;
                           CmdLine := cmdLine;
                           DockerCommand := parseDockerCommand cmdLine;
                           SwitchedIdentity := r_switched real;
                           id_UserType := r_UserType real;
                           id_AuthSource := AuthSourceNone;
                           ClientAddr := "";
                           ConfigPrivileged := false |}
            end
        end
  end.
End resolve.

(** ** The check before each request

    [None] is success.  [pv] is /proc/<PID> at that moment. *)
Definition VerifyIdentityAtRequest (id : option CallerIdentity) (pv : ProcView)
    : option AuthError :=
  match id with
  | None => None
  | Some id =>
      if (PID id <=? 0)%Z then None
      else
        match readProcStatus pv with
        | None => None
        | Some (rUID, eUID, _, _) =>
            let expectedRUID :=
              if is_sudo_type (id_UserType id) then EffectiveUID id else RealUID id in
            if rUID !=z expectedRUID then
              Some (Forgery (RealUIDChanged expectedRUID rUID (PID id)))
            else if eUID !=z EffectiveUID id then
              Some (Forgery (EffectiveUIDChanged (EffectiveUID id) eUID (PID id)))
            else None
        end
  end.

(** ** TCP authenticators (auth.go)

    JWT verification and X.509 verification are library calls: [jwt_parse]
    gives the claims of a token that verifies against the secret, [verified_cn]
    the common name of a peer certificate that verifies against the CA pool. *)

Definition UserTypeFromUID (uid : Z) : UserType :=
  if uid ==z 0 then UserTypeRoot else UserTypeRegular.

(** The claim types [claimInt] and the username assertion tell apart; a JSON
    number is a [float64], here by its truncation to an integer. *)
Inductive ClaimVal := ClaimNumber (n : Z) | ClaimString (s : string) | ClaimOther.

Definition claimInt (claims : gmap string ClaimVal) (key : string) : option Z :=
  match claims !! key with
  | Some (ClaimNumber n) => Some n
  | _ => None
  end.

Definition tcp_identity (username : string) (uid gid : Z) (src : AuthSource) : CallerIdentity :=
  {| RealUsername := username; RealUID := uid; RealGID := gid;
     EffectiveUsername := username; EffectiveUID := uid; EffectiveGID := gid;
     LoginUID := 0; LoginUsername := ""; PID := 0; ProcessName := ""; CmdLine := "";
     DockerCommand := ""; SwitchedIdentity := false;
     id_UserType := UserTypeFromUID uid; id_AuthSource := src; ClientAddr := "";
     ConfigPrivileged := false |}.

Section authenticators.
Context (os : OsFiles).
Context (jwt_parse : string → option (gmap string ClaimVal)).

(** [Ok None]: the authenticator does not apply to this request. *)
Definition JWTAuthenticate (authHeader : string) : option CallerIdentity + AuthError :=
  if negb (HasPrefix authHeader "Bearer ") then inl None
  else
    match jwt_parse (TrimPrefix authHeader "Bearer ") with
    | None => inr (PlainError "jwt parse")
    | Some claims =>
        match claimInt claims "uid" with
        | None => inr (PlainError "jwt missing uid")
        | Some uid =>
            let gid := default 0%Z (claimInt claims "gid") in
            let username := match claims !! "username" with
                            | Some (ClaimString s) => s
                            | _ => ""
                            end in
            let username := if username ==s "" then LookupUsername os uid else username in
            inl (Some (tcp_identity username uid gid AuthSourceJWT))
        end
    end.

(** [cert]: [None] without a client certificate, [Some None] when it does not
    verify, [Some (Some cn)] with the verified common name. *)
Definition CertAuthenticate (cert : option (option string))
    : option CallerIdentity + AuthError :=
  match cert with
  | None => inl None
  | Some None => inr (PlainError "cert verify")
  | Some (Some username) =>
      if username ==s "" then inr (PlainError "cert CN is empty")
      else
        let uid := LookupUID os username in
        if (uid <? 0)%Z then inr (PlainError "cert CN not found in /etc/passwd")
        else inl (Some (tcp_identity username uid (LookupPrimaryGID os username)
                          AuthSourceCert))
  end.
End authenticators.

(** ** Theorems *)

Section facts.
Context (os : OsFiles).

(** The possible outcomes of steps 4 and 5, one constructor per branch. *)
Inductive real_case (pid eUID eGID login : Z) (loginName : string)
    (env : gmap string string) (st : option (Z * Z * Z * Z)) : RealIdentity → Prop :=
  | RC_regular :
      eUID ≠ 0%Z → LookupUsername os eUID ≠ "" →
      real_case pid eUID eGID login loginName env st
        (mkReal eUID eGID (LookupUsername os eUID) UserTypeRegular
           ((0 <=? login)%Z && (login !=z eUID)))
  | RC_login g :
      eUID = 0%Z → (0 < login)%Z →
      real_case pid eUID eGID login loginName env st
        (mkReal login g loginName UserTypeSudo true)
  | RC_sudo_uid g uid :
      eUID = 0%Z → (login <= 0)%Z → getEnvInt env "SUDO_UID" = uid → (0 < uid)%Z →
      LookupUsername os uid ≠ "" → LookupUID os (LookupUsername os uid) = uid →
      real_case pid eUID eGID login loginName env st
        (mkReal uid g (LookupUsername os uid) UserTypeSudo true)
  | RC_su rUID e rGID g :
      eUID = 0%Z → (login <= 0)%Z → (getEnvInt env "SUDO_UID" <= 0)%Z →
      st = Some (rUID, e, rGID, g) → rUID ≠ 0%Z →
      LookupUsername os rUID ≠ "" → LookupUID os (LookupUsername os rUID) = rUID →
      real_case pid eUID eGID login loginName env st
        (mkReal rUID rGID (LookupUsername os rUID) UserTypeSudo true)
  | RC_root :
      eUID = 0%Z → (login <= 0)%Z → (getEnvInt env "SUDO_UID" <= 0)%Z →
      (∀ rUID e rGID g, st = Some (rUID, e, rGID, g) → rUID = 0%Z) →
      real_case pid eUID eGID login loginName env st (mkReal 0 eGID "root" UserTypeRoot false).

Lemma resolveReal_cases pid eUID eGID login loginName env st r :
  resolveReal os pid eUID eGID login loginName env st = inl r →
  real_case pid eUID eGID login loginName env st r.
Proof.
  unfold resolveReal, resolveRegular, resolveRootNoLogin.
  destruct (eUID ==z 0) eqn:He; bool_hyps; simpl.
  2: { destruct (LookupUsername os eUID ==s "") eqn:Hn; bool_hyps; intros ?; simplify_eq.
       by constructor. }
  destruct ((0 <=? login)%Z && (login !=z 0)) eqn:Hl.
  { intros ?; simplify_eq. bool_hyps. apply RC_login; [done|lia]. }
  assert (login <= 0)%Z.
  { apply andb_false_iff in Hl as [Hl|Hl]; bool_hyps; lia. }
  destruct (0 <? _)%Z eqn:Hs; bool_hyps.
  - destruct (_ ==s "") eqn:Hn; [done|]. destruct (LookupUID _ _ ==z _) eqn:Hb; simpl; [|done].
    bool_hyps. intros ?; simplify_eq. by eapply RC_sudo_uid.
  - destruct st as [[[[rU e] rG] g]|].
    + destruct (rU ==z 0) eqn:Hr; simpl; bool_hyps.
      * intros ?; simplify_eq. apply RC_root; [done..|]. intros; by simplify_eq.
      * destruct (_ ==s "") eqn:Hn; [done|]. destruct (LookupUID _ _ ==z _) eqn:Hb; simpl; [|done].
        bool_hyps. intros ?; simplify_eq. by eapply RC_su.
    + intros ?; simplify_eq. by apply RC_root; intros; simplify_eq.
Qed.

Lemma checkLoginUID_ok pid login name :
  checkLoginUID os pid login = inl name → (0 <= login)%Z →
  name = LookupUsername os login ∧ name ≠ "" ∧ LookupUID os name = login.
Proof.
  unfold checkLoginUID. intros H Hl. rewrite (proj2 (Z.leb_le 0 login) Hl) in H.
  destruct (_ ==s "") eqn:E1; [done|]. destruct (_ ==z _) eqn:E2; simplify_eq/=.
  bool_hyps. done.
Qed.

(** Everything an accepted connection guarantees. *)
Lemma resolve_inv conn pv id :
  ResolveCallerIdentity os conn pv = inl id →
  ∃ cred name r,
    conn = PeerCred cred
    ∧ EffectiveUID id = Z.of_N (cr_uid cred) ∧ PID id = cr_pid cred
    ∧ ConfigPrivileged id = false
    ∧ (∀ rU e rG g, readProcStatus pv = Some (rU, e, rG, g) → e = Z.of_N (cr_uid cred))
    ∧ checkLoginUID os (cr_pid cred) (readLoginUID pv) = inl name
    ∧ real_case (cr_pid cred) (Z.of_N (cr_uid cred)) (Z.of_N (cr_gid cred))
        (readLoginUID pv) name (readProcEnviron pv) (readProcStatus pv) r
    ∧ RealUID id = r_UID r ∧ RealUsername id = r_Username r
    ∧ id_UserType id = r_UserType r ∧ SwitchedIdentity id = r_switched r
    ∧ (r_UID r ≠ 0%Z → LookupUsername os (r_UID r) ≠ "" →
       LookupUsername os (r_UID r) = r_Username r).
Proof.
  unfold ResolveCallerIdentity. destruct conn as [| | |cred]; [done..|].
  destruct (_ !=z _) eqn:Hst; [done|].
  destruct (checkLoginUID _ _ _) as [name|] eqn:Hlog; [|done].
  destruct (resolveReal _ _ _ _ _ _ _ _) as [r|] eqn:Hreal; [|done].
  destruct ((r_UID r !=z 0) && _ && _) eqn:Hmis; [done|].
  destruct ((_ !=z _) && (_ ==s _)) eqn:Heff; [done|].
  intros ?; simplify_eq/=. apply resolveReal_cases in Hreal. bool_hyps.
  exists cred, name, r. split_and!; try done.
  - intros rU e rG g Hs. by rewrite Hs in Hst.
  - intros H0 H1. apply Z.eqb_neq in H0. apply String.eqb_neq in H1.
    rewrite H0, H1 in Hmis. simpl in Hmis. by bool_hyps.
Qed.

(** Privilege comes from the kernel.  An identity resolved from a socket is
    privileged exactly when the peer's effective UID is 0. *)
Theorem resolve_privileged_iff_euid0 conn pv id :
  ResolveCallerIdentity os conn pv = inl id →
  (IsPrivileged id = true ↔ EffectiveUID id = 0%Z).
Proof.
  intros (cred & name & r & -> & HE & _ & HC & _ & Hlog & Hr & HU & _ & HT & _)%resolve_inv.
  unfold IsPrivileged. rewrite HE, HC, HU, HT, orb_false_r, orb_true_iff, Z.eqb_eq.
  destruct Hr; simpl; rewrite <- ?HE in *; naive_solver.
Qed.

(** C19: A resolved identity is bound to the account database: it is root, or it has a non-root
    real UID, and its real name is the one /etc/passwd has for that UID; the name of a sudo
    identity also maps back to the UID. *)
Theorem resolve_real_identity_bound conn pv id :
  ResolveCallerIdentity os conn pv = inl id →
  (RealUID id = 0%Z ∧ RealUsername id = "root" ∧ id_UserType id = UserTypeRoot)
  ∨ (RealUID id ≠ 0%Z ∧ RealUsername id ≠ ""
     ∧ LookupUsername os (RealUID id) = RealUsername id
     ∧ (IsSudoCommand id = true →
        SwitchedIdentity id = true ∧ LookupUID os (RealUsername id) = RealUID id)).
Proof.
  intros (cred & name & r & -> & HE & _ & _ & _ & Hlog & Hr & HU & HN & HT & HS & Hb)%resolve_inv.
  unfold IsSudoCommand. rewrite HU, HN, HT, HS.
  destruct Hr as [He Hn | g Hg Hl | g uid ???? Hn Hbk | ?????????? Hn Hbk | ]; simpl in *.
  - right. by split_and!.
  - right. apply checkLoginUID_ok in Hlog as (-> & Hne & Hbk); [|lia].
    split_and!; auto with lia.
  - right. split_and!; auto with lia.
  - right. split_and!; auto with lia.
  - by left.
Qed.

Lemma verify_iff id pv rU eU rG eG :
  (0 < PID id)%Z → readProcStatus pv = Some (rU, eU, rG, eG) →
  VerifyIdentityAtRequest (Some id) pv = None ↔
  rU = (if is_sudo_type (id_UserType id) then EffectiveUID id else RealUID id)
  ∧ eU = EffectiveUID id.
Proof.
  intros Hpid Hst. unfold VerifyIdentityAtRequest. rewrite Hst.
  rewrite (proj2 (Z.leb_gt (PID id) 0) Hpid).
  destruct (_ !=z _) eqn:E1; bool_hyps; [naive_solver|].
  destruct (_ !=z _) eqn:E2; bool_hyps; naive_solver.
Qed.

(** A connection's identity passes the per-request check exactly while both
    the real and the effective UID of the process are the peer's effective
    UID: a later setuid in either direction, or a set-uid binary, is refused. *)
Theorem verified_request_uids conn pv id pv' rU eU rG eG :
  ResolveCallerIdentity os conn pv = inl id → (0 < PID id)%Z →
  readProcStatus pv' = Some (rU, eU, rG, eG) →
  (VerifyIdentityAtRequest (Some id) pv' = None ↔
   rU = EffectiveUID id ∧ eU = EffectiveUID id).
Proof.
  intros Hres Hpid Hst. rewrite verify_iff by done.
  apply resolve_inv in Hres as (cred & name & r & -> & HE & _ & _ & _ & _ & Hr & HU & _ & HT & _).
  rewrite HT, HU, HE. destruct Hr; naive_solver.
Qed.

(** The "su without loginuid" path of the resolution produces an identity
    that the request check always refuses, although the process is unchanged. *)
Theorem su_without_loginuid_never_served cred pv id rU eU rG eG :
  ResolveCallerIdentity os (PeerCred cred) pv = inl id →
  cr_uid cred = 0%N → (0 < cr_pid cred)%Z → (readLoginUID pv <= 0)%Z →
  (getEnvInt (readProcEnviron pv) "SUDO_UID" <= 0)%Z →
  readProcStatus pv = Some (rU, eU, rG, eG) → rU ≠ 0%Z →
  RealUID id = rU ∧ IsSudoCommand id = true
  ∧ VerifyIdentityAtRequest (Some id) pv =
    Some (Forgery (RealUIDChanged 0 rU (cr_pid cred))).
Proof.
  intros Hres Hc Hpid Hlog Henv Hst HrU.
  apply resolve_inv in Hres as (cred' & name & r & Heq & HE & HP & _ & _ & _ & Hr & HU & _ & HT & _).
  simplify_eq. rewrite Hc in *.
  assert (r_UID r = rU ∧ r_UserType r = UserTypeSudo) as [Hu Ht]
    by (rewrite Hst in Hr; destruct Hr; simpl in *; naive_solver lia).
  rewrite Hu in HU. rewrite Ht in HT.
  unfold IsSudoCommand, VerifyIdentityAtRequest. rewrite HT, HU, HE, HP, Hst. simpl.
  rewrite (proj2 (Z.leb_gt (cr_pid cred') 0) Hpid).
  split_and!; [done..|]. by destruct (rU ==z 0) eqn:E; bool_hyps.
Qed.
End facts.

(** ** Witnesses *)

Module Demo.
Definition os : OsFiles := mkOsFiles
  (Some (passwd_file
     [mkPasswdEntry "root" "x" 0 0 "root" "/root" "/bin/sh";
      mkPasswdEntry "alice" "x" 1001 1001 "" "/home/alice" "/bin/sh";
      mkPasswdEntry "bob" "x" 1002 1002 "" "/home/bob" "/bin/sh"]))
  (Some (Join ["staff:x:50:alice,bob"; ""] (String NL ""))).

Definition status (r e : string) : string :=
  Join ["Name: docker"; Join ["Uid:"; r; e; e; e] " "; "Gid: 1001 1001 1001 1001"]
    (String NL "").

Definition view (st login : string) : ProcView :=
  mkProcView (Some st) (Some login) None None (Some "docker").

(** alice under sudo. *)
Definition sudo_cred : Ucred := mkUcred 4242 0 0.
Definition sudo_view : ProcView := view (status "0" "0") "1001".
(** alice under su, without PAM: no loginuid, real UID still hers. *)
Definition su_view : ProcView := view (status "1001" "0") "4294967295".

Definition resolved (c : Ucred) (pv : ProcView) : CallerIdentity :=
  match ResolveCallerIdentity os (PeerCred c) pv with
  | inl id => id
  | inr _ => tcp_identity "" (-1) (-1) AuthSourceNone
  end.
End Demo.

Lemma resolve_privileged_iff_euid0_witness :
  IsPrivileged (Demo.resolved Demo.sudo_cred Demo.sudo_view) = true.
Proof.
  apply (resolve_privileged_iff_euid0 Demo.os (PeerCred Demo.sudo_cred) Demo.sudo_view);
    vm_compute; reflexivity.
Defined.

Lemma resolve_real_identity_bound_witness :
  LookupUID Demo.os (RealUsername (Demo.resolved Demo.sudo_cred Demo.sudo_view))
  = RealUID (Demo.resolved Demo.sudo_cred Demo.sudo_view).
Proof.
  destruct (resolve_real_identity_bound Demo.os (PeerCred Demo.sudo_cred)
              Demo.sudo_view (Demo.resolved Demo.sudo_cred Demo.sudo_view))
    as [(H & _)|(_ & _ & _ & H)].
  - vm_compute; reflexivity.
  - vm_compute in H. discriminate H.
  - apply H. vm_compute; reflexivity.
Defined.

Lemma verified_request_uids_witness :
  VerifyIdentityAtRequest (Some (Demo.resolved Demo.sudo_cred Demo.sudo_view))
    Demo.sudo_view = None.
Proof.
  apply (verified_request_uids Demo.os (PeerCred Demo.sudo_cred) Demo.sudo_view _
           _ 0 0 1001 1001); vm_compute; (reflexivity || (split; reflexivity)).
Defined.

Lemma su_without_loginuid_never_served_witness :
  VerifyIdentityAtRequest (Some (Demo.resolved Demo.sudo_cred Demo.su_view))
    Demo.su_view = Some (Forgery (RealUIDChanged 0 1001 4242)).
Proof.
  apply (su_without_loginuid_never_served Demo.os Demo.sudo_cred Demo.su_view
           _ 1001 0 1001 1001); vm_compute; (reflexivity || discriminate).
Defined.
