(* ===== verification/Routes.v ===== *)
(** * Routes: action classification (internal/authz/policy.go)

    [ClassifyAction] maps an HTTP method and URI to an action name by an
    ordered list of rules, the cases of the Go [switch] in order, grouped by
    endpoint.  The lemmas reason on a path by a known prefix (rules anchored
    elsewhere are missed) or by its number of slashes. *)

From S2P Require Import Prelude GoStrings.

(** ** Action names *)

Definition ActionPS : string := "ps".
Definition ActionCreateContainer : string := "create_container".
Definition ActionStartContainer : string := "start".
Definition ActionRestart : string := "restart".
Definition ActionStop : string := "stop".
Definition ActionKill : string := "kill".
Definition ActionPause : string := "pause".
Definition ActionUnpause : string := "unpause".
Definition ActionRename : string := "rename".
Definition ActionUpdate : string := "update".
Definition ActionRemoveContainer : string := "rm".
Definition ActionExec : string := "exec".
Definition ActionAttach : string := "attach".
Definition ActionInspect : string := "inspect".
Definition ActionPort : string := "port".
Definition ActionLogs : string := "logs".
Definition ActionDiff : string := "diff".
Definition ActionCp : string := "cp".
Definition ActionExport : string := "export".
Definition ActionCommit : string := "commit".
Definition ActionWait : string := "wait".
Definition ActionImages : string := "images".
Definition ActionPull : string := "pull".
Definition ActionImport : string := "import".
Definition ActionLoad : string := "load".
Definition ActionSave : string := "save".
Definition ActionBuild : string := "build".
Definition ActionPush : string := "push".
Definition ActionRemoveImage : string := "rmi".
Definition ActionTag : string := "tag".
Definition ActionHistory : string := "history".
Definition ActionSearch : string := "search".
Definition ActionPrune : string := "prune".
Definition ActionNetworkList : string := "network_ls".
Definition ActionNetworkInspect : string := "network_inspect".
Definition ActionNetworkCreate : string := "network_create".
Definition ActionNetworkConnect : string := "network_connect".
Definition ActionNetworkDisconnect : string := "network_disconnect".
Definition ActionNetworkRemove : string := "network_rm".
Definition ActionVolumeList : string := "volume_ls".
Definition ActionVolumeInspect : string := "volume_inspect".
Definition ActionVolumeCreate : string := "volume_create".
Definition ActionVolumeRemove : string := "volume_rm".
Definition ActionSystemInfo : string := "info".
Definition ActionSystemVersion : string := "version".
Definition ActionSystemDF : string := "df".
Definition ActionSystemEvents : string := "events".
Definition ActionSystemLogin : string := "login".
Definition ActionSwarm : string := "swarm".
Definition ActionSwarmInspect : string := "swarm_inspect".
Definition ActionSwarmInit : string := "swarm_init".
Definition ActionSwarmJoin : string := "swarm_join".
Definition ActionSwarmLeave : string := "swarm_leave".
Definition ActionSwarmUpdate : string := "swarm_update".
Definition ActionSwarmUnlock : string := "swarm_unlock".
Definition ActionNodeList : string := "node_ls".
Definition ActionNodeInspect : string := "node_inspect".
Definition ActionNodeUpdate : string := "node_update".
Definition ActionNodeRemove : string := "node_rm".
Definition ActionServiceList : string := "service_ls".
Definition ActionServiceCreate : string := "service_create".
Definition ActionServiceInspect : string := "service_inspect".
Definition ActionServiceUpdate : string := "service_update".
Definition ActionServiceRemove : string := "service_rm".
Definition ActionServiceLogs : string := "service_logs".
Definition ActionTaskList : string := "task_ls".
Definition ActionTaskInspect : string := "task_inspect".
Definition ActionSecretList : string := "secret_ls".
Definition ActionSecretCreate : string := "secret_create".
Definition ActionSecretInspect : string := "secret_inspect".
Definition ActionSecretUpdate : string := "secret_update".
Definition ActionSecretRemove : string := "secret_rm".
Definition ActionConfigList : string := "config_ls".
Definition ActionConfigCreate : string := "config_create".
Definition ActionConfigInspect : string := "config_inspect".
Definition ActionConfigUpdate : string := "config_update".
Definition ActionConfigRemove : string := "config_rm".
Definition ActionPlugin : string := "plugin".
Definition ActionPluginList : string := "plugin_ls".
Definition ActionPluginInspect : string := "plugin_inspect".
Definition ActionPluginInstall : string := "plugin_install".
Definition ActionPluginRemove : string := "plugin_rm".
Definition ActionPluginEnable : string := "plugin_enable".
Definition ActionPluginDisable : string := "plugin_disable".
Definition ActionPluginUpgrade : string := "plugin_upgrade".
Definition ActionPluginSet : string := "plugin_set".
Definition ActionPluginPush : string := "plugin_push".
Definition ActionPluginCreate : string := "plugin_create".
Definition ActionSecret : string := "secret".
Definition ActionConfig : string := "config".
Definition ActionBuilderManage : string := "builder_manage".
Definition ActionContextList : string := "context_ls".
Definition ActionContextCreate : string := "context_create".
Definition ActionContextRemove : string := "context_rm".
Definition ActionContextInspect : string := "context_inspect".
Definition ActionContextUpdate : string := "context_update".
Definition ActionContextExport : string := "context_export".
Definition ActionContextImport : string := "context_import".
Definition ActionContextUse : string := "context_use".
Definition ActionManifestInspect : string := "manifest_inspect".
Definition ActionManifestCreate : string := "manifest_create".
Definition ActionManifestPush : string := "manifest_push".
Definition ActionManifestAnnotate : string := "manifest_annotate".
Definition ActionManifestRemove : string := "manifest_rm".
Definition ActionOther : string := "other".

(** ** URI parsing *)

(** [isVersionString]: non-empty, digits and dots only. *)
Definition isVersionString (s : string) : bool :=
  str_forallb (λ c, is_digit c || Ascii.eqb c ".") s && (0 <? slen s).

Definition StripAPIVersion (uri : string) : string :=
  if (2 <? slen uri) && HasPrefix uri "/v" then
    let rest := str_drop 2 uri in
    match Index rest "/" with
    | Some slash =>
        if (0 <? slash) && isVersionString (str_take slash rest) then str_drop slash rest
        else uri
    | None => uri
    end
  else uri.

(** [(path, query)]: the URI cut at its first question mark. *)
Definition cutQuery (uri : string) : string * string :=
  match Index uri "?" with
  | Some idx => (str_take idx uri, str_drop (S idx) uri)
  | None => (uri, "")
  end.

Definition pathMatches (path pattern : string) : bool :=
  TrimRight1 path "/" ==s TrimRight1 pattern "/".

Definition pathMatchesN (path prefix suffix : string) : bool :=
  if negb (HasPrefix path prefix) then false
  else
    let rest := str_drop (slen prefix) path in
    match Index rest "/" with
    | None => false
    | Some slashIdx =>
        TrimRight1 (str_drop slashIdx rest) "/" ==s TrimRight1 suffix "/"
    end.

Definition pathHasPrefix (path prefix : string) : bool := HasPrefix path prefix.

(** ** Classification

    The cases of the [switch], in order, one list per group of endpoints. *)

Section rules.
Context (m path query : string).

Definition container_rules : list (bool * string) :=
  [((m ==s "GET") && pathMatches path "/containers/json", ActionPS);
   ((m ==s "POST") && pathMatches path "/containers/prune", ActionPrune);
   ((m ==s "POST") && pathMatches path "/containers/create", ActionCreateContainer);
   ((m ==s "POST") && pathMatchesN path "/containers/" "/start", ActionStartContainer);
   ((m ==s "POST") && pathMatchesN path "/containers/" "/restart", ActionRestart);
   ((m ==s "POST") && pathMatchesN path "/containers/" "/stop", ActionStop);
   ((m ==s "POST") && pathMatchesN path "/containers/" "/kill", ActionKill);
   ((m ==s "POST") && pathMatchesN path "/containers/" "/pause", ActionPause);
   ((m ==s "POST") && pathMatchesN path "/containers/" "/unpause", ActionUnpause);
   ((m ==s "POST") && pathMatchesN path "/containers/" "/rename", ActionRename);
   ((m ==s "POST") && pathMatchesN path "/containers/" "/update", ActionUpdate);
   ((m ==s "POST") && pathMatchesN path "/containers/" "/wait", ActionWait);
   ((m ==s "DELETE") && pathHasPrefix path "/containers/", ActionRemoveContainer);
   ((m ==s "POST") && (pathMatchesN path "/containers/" "/exec" || pathMatchesN path "/containers/" "/resize"), ActionExec);
   ((m ==s "POST") && pathMatchesN path "/containers/" "/attach", ActionAttach);
   ((m ==s "GET") && pathHasPrefix path "/containers/" && Contains path "/attach", ActionAttach);
   ((m ==s "POST") && (pathMatchesN path "/exec/" "/start" || pathMatchesN path "/exec/" "/resize"), ActionExec);
   ((m ==s "GET") && pathMatchesN path "/exec/" "/json", ActionInspect);
   ((m ==s "GET") && (pathMatchesN path "/containers/" "/json" || pathMatchesN path "/containers/" "/processes"), ActionInspect);
   ((m ==s "GET") && (pathMatchesN path "/containers/" "/logs" || pathMatchesN path "/containers/" "/stats" || pathMatchesN path "/containers/" "/top"), ActionLogs);
   ((m ==s "GET") && pathMatchesN path "/containers/" "/changes", ActionDiff);
   (((m ==s "GET") || (m ==s "HEAD")) && pathMatchesN path "/containers/" "/archive", ActionCp);
   ((m ==s "PUT") && pathMatchesN path "/containers/" "/archive", ActionCp);
   ((m ==s "GET") && pathMatchesN path "/containers/" "/export", ActionExport);
   ((m ==s "POST") && pathMatches path "/commit", ActionCommit)].

Definition image_rules : list (bool * string) :=
  [((m ==s "GET") && pathMatches path "/images/json", ActionImages);
   ((m ==s "GET") && pathMatches path "/images/search", ActionSearch);
   ((m ==s "GET") && pathMatches path "/images/get", ActionSave);
   ((m ==s "POST") && pathMatches path "/images/prune", ActionPrune);
   ((m ==s "POST") && pathMatches path "/images/create", (if Contains query "fromSrc=" then ActionImport else ActionPull));
   ((m ==s "POST") && pathMatches path "/images/load", ActionLoad);
   ((m ==s "POST") && (pathMatches path "/build" || pathMatches path "/images/build" || pathMatches path "/grpc"), ActionBuild);
   ((m ==s "POST") && pathMatches path "/build/prune", ActionPrune);
   ((m ==s "POST") && pathMatchesN path "/images/" "/push", ActionPush);
   ((m ==s "DELETE") && pathHasPrefix path "/images/", ActionRemoveImage);
   ((m ==s "GET") && pathMatchesN path "/images/" "/history", ActionHistory);
   ((m ==s "GET") && pathMatchesN path "/images/" "/json", ActionInspect);
   ((m ==s "POST") && pathMatchesN path "/images/" "/tag", ActionTag);
   ((m ==s "GET") && pathMatchesN path "/images/" "/get", ActionSave);
   ((m ==s "GET") && pathMatchesN path "/distribution/" "/json", ActionInspect)].

Definition network_volume_rules : list (bool * string) :=
  [((m ==s "GET") && pathMatches path "/networks", ActionNetworkList);
   ((m ==s "POST") && pathMatches path "/networks/create", ActionNetworkCreate);
   ((m ==s "POST") && pathMatches path "/networks/prune", ActionPrune);
   ((m ==s "POST") && pathMatchesN path "/networks/" "/connect", ActionNetworkConnect);
   ((m ==s "POST") && pathMatchesN path "/networks/" "/disconnect", ActionNetworkDisconnect);
   ((m ==s "DELETE") && pathHasPrefix path "/networks/", ActionNetworkRemove);
   ((m ==s "GET") && pathHasPrefix path "/networks/", ActionNetworkInspect);
   ((m ==s "GET") && pathMatches path "/volumes", ActionVolumeList);
   ((m ==s "POST") && pathMatches path "/volumes/create", ActionVolumeCreate);
   ((m ==s "POST") && pathMatches path "/volumes/prune", ActionPrune);
   ((m ==s "DELETE") && pathHasPrefix path "/volumes/", ActionVolumeRemove);
   ((m ==s "GET") && pathHasPrefix path "/volumes/", ActionVolumeInspect)].

Definition system_rules : list (bool * string) :=
  [(((m ==s "GET") || (m ==s "HEAD")) && pathMatches path "/_ping", ActionSystemInfo);
   ((m ==s "GET") && pathMatches path "/info", ActionSystemInfo);
   ((m ==s "GET") && pathMatches path "/version", ActionSystemVersion);
   ((m ==s "GET") && pathMatches path "/system/df", ActionSystemDF);
   ((m ==s "GET") && pathMatches path "/events", ActionSystemEvents);
   ((m ==s "POST") && pathMatches path "/auth", ActionSystemLogin);
   ((m ==s "POST") && pathMatches path "/system/prune", ActionPrune)].

Definition swarm_rules : list (bool * string) :=
  [((m ==s "GET") && pathMatches path "/swarm", ActionSwarmInspect);
   ((m ==s "POST") && pathMatches path "/swarm/init", ActionSwarmInit);
   ((m ==s "POST") && pathMatches path "/swarm/join", ActionSwarmJoin);
   ((m ==s "POST") && pathMatches path "/swarm/leave", ActionSwarmLeave);
   ((m ==s "POST") && pathMatches path "/swarm/update", ActionSwarmUpdate);
   ((m ==s "POST") && pathMatches path "/swarm/unlock", ActionSwarmUnlock);
   ((m ==s "GET") && pathMatchesN path "/swarm/" "/unlockkey", ActionSwarmUpdate);
   (pathHasPrefix path "/swarm", ActionSwarmInspect);
   ((m ==s "GET") && pathMatches path "/nodes", ActionNodeList);
   ((m ==s "DELETE") && pathHasPrefix path "/nodes/", ActionNodeRemove);
   ((m ==s "POST") && pathMatchesN path "/nodes/" "/update", ActionNodeUpdate);
   (pathHasPrefix path "/nodes/", ActionNodeInspect);
   ((m ==s "GET") && pathMatches path "/services", ActionServiceList);
   ((m ==s "POST") && pathMatches path "/services/create", ActionServiceCreate);
   ((m ==s "DELETE") && pathHasPrefix path "/services/", ActionServiceRemove);
   ((m ==s "POST") && pathMatchesN path "/services/" "/update", ActionServiceUpdate);
   ((m ==s "GET") && pathMatchesN path "/services/" "/logs", ActionServiceLogs);
   (pathHasPrefix path "/services/", ActionServiceInspect);
   ((m ==s "GET") && pathMatches path "/tasks", ActionTaskList);
   (pathHasPrefix path "/tasks/", ActionTaskInspect)].

Definition secret_config_rules : list (bool * string) :=
  [((m ==s "GET") && pathMatches path "/secrets", ActionSecretList);
   ((m ==s "POST") && pathMatches path "/secrets/create", ActionSecretCreate);
   ((m ==s "DELETE") && pathHasPrefix path "/secrets/", ActionSecretRemove);
   ((m ==s "POST") && pathMatchesN path "/secrets/" "/update", ActionSecretUpdate);
   (pathHasPrefix path "/secrets/", ActionSecretInspect);
   ((m ==s "GET") && pathMatches path "/configs", ActionConfigList);
   ((m ==s "POST") && pathMatches path "/configs/create", ActionConfigCreate);
   ((m ==s "DELETE") && pathHasPrefix path "/configs/", ActionConfigRemove);
   ((m ==s "POST") && pathMatchesN path "/configs/" "/update", ActionConfigUpdate);
   (pathHasPrefix path "/configs/", ActionConfigInspect)].

Definition plugin_rules : list (bool * string) :=
  [((m ==s "GET") && pathMatches path "/plugins", ActionPluginList);
   ((m ==s "GET") && pathMatchesN path "/plugins/" "/json", ActionPluginInspect);
   ((m ==s "POST") && pathMatches path "/plugins/pull", ActionPluginInstall);
   ((m ==s "DELETE") && pathHasPrefix path "/plugins/", ActionPluginRemove);
   ((m ==s "POST") && pathMatchesN path "/plugins/" "/enable", ActionPluginEnable);
   ((m ==s "POST") && pathMatchesN path "/plugins/" "/disable", ActionPluginDisable);
   ((m ==s "POST") && pathMatchesN path "/plugins/" "/upgrade", ActionPluginUpgrade);
   ((m ==s "POST") && pathMatchesN path "/plugins/" "/set", ActionPluginSet);
   ((m ==s "POST") && pathMatchesN path "/plugins/" "/push", ActionPluginPush);
   ((m ==s "POST") && pathMatches path "/plugins/create", ActionPluginCreate);
   (pathHasPrefix path "/plugins", ActionPluginInspect)].

Definition all_rules : list (bool * string) :=
  container_rules ++ image_rules ++ network_volume_rules ++ system_rules ++ swarm_rules ++ secret_config_rules ++ plugin_rules.
End rules.

(** The action of the first rule whose condition holds. *)
Fixpoint first_action (rules : list (bool * string)) : string :=
  match rules with
  | [] => ActionOther
  | (c, a) :: rules' => if c then a else first_action rules'
  end.

Definition ClassifyAction (m uri : string) : string :=
  let '(path, query) := cutQuery (StripAPIVersion uri) in
  first_action (all_rules m path query).

(** [cmdActionOverrides] and [OverrideActionByCommand]. *)
Definition cmdActionOverrides : gmap string string :=
  {["port" := ActionPort; "container/port" := ActionPort]}.

Definition OverrideActionByCommand (dockerCmd action : string) : string :=
  match cmdActionOverrides !! dockerCmd with
  | Some override => override
  | None => action
  end.

(** ** Resource identifiers in paths *)

Definition cutSlash (rest : string) : string :=
  match Index rest "/" with
  | Some idx => str_take idx rest
  | None => rest
  end.

Definition ExtractContainerID (uri : string) : string :=
  let path := (cutQuery (StripAPIVersion uri)).1 in
  if negb (HasPrefix path "/containers/") then ""
  else cutSlash (str_drop (slen "/containers/") path).

(** Up to the last slash: an image name may hold slashes itself. *)
Definition ExtractImageID (uri : string) : string :=
  let path := (cutQuery (StripAPIVersion uri)).1 in
  if negb (HasPrefix path "/images/") then ""
  else
    let rest := str_drop (slen "/images/") path in
    match LastIndex rest "/" with
    | Some idx => str_take idx rest
    | None => rest
    end.

Definition extractSwarmResourceID (uri resourcePrefix : string) : string :=
  let path := (cutQuery (StripAPIVersion uri)).1 in
  if negb (HasPrefix path resourcePrefix) then ""
  else
    let rest := str_drop (slen resourcePrefix) path in
    if (rest ==s "") || (rest ==s "create") || (rest ==s "prune") then ""
    else cutSlash rest.

Definition ExtractServiceID (uri : string) : string := extractSwarmResourceID uri "/services/".
Definition ExtractSecretID (uri : string) : string := extractSwarmResourceID uri "/secrets/".
Definition ExtractConfigID (uri : string) : string := extractSwarmResourceID uri "/configs/".
Definition ExtractNodeID (uri : string) : string := extractSwarmResourceID uri "/nodes/".

(** ** Lemmas: paths *)

Create Rewrite HintDb route.

(** Two prefixes are compatible when one starts with the other. *)
Definition compatible (a b : string) : bool := HasPrefix a b || HasPrefix b a.

Lemma HasPrefix_incompat path q p :
  HasPrefix path q = true → compatible q p = false → HasPrefix path p = false.
Proof.
  intros Hq Hc. destruct (HasPrefix path p) eqn:Hp; [|done].
  unfold compatible in Hc. destruct (HasPrefix_total q p path); bool_hyps; congruence.
Qed.

Lemma pathMatches_prefix path pat :
  pathMatches path pat = true → HasPrefix path (TrimRight1 pat "/") = true.
Proof. unfold pathMatches. intros H. bool_hyps. rewrite <- H. apply TrimRight1_prefix. Qed.

Lemma pathMatches_incompat path q pat :
  HasPrefix path q = true → compatible q (TrimRight1 pat "/") = false →
  pathMatches path pat = false.
Proof.
  intros Hq Hc. destruct (pathMatches path pat) eqn:Hp; [|done].
  apply pathMatches_prefix in Hp. by rewrite (HasPrefix_incompat _ _ _ Hq Hc) in Hp.
Qed.

Lemma pathMatchesN_incompat path q pre suf :
  HasPrefix path q = true → compatible q pre = false → pathMatchesN path pre suf = false.
Proof.
  intros Hq Hc. unfold pathMatchesN. by rewrite (HasPrefix_incompat _ _ _ Hq Hc).
Qed.

(** The number of slashes bounds the patterns a path can match. *)
Lemma pathMatches_slashes path pat :
  last_char path ≠ Some "/"%char → pathMatches path pat = true →
  count_char "/" path = count_char "/" (TrimRight1 pat "/").
Proof. unfold pathMatches. intros Hd H. bool_hyps. rewrite <- H. by rewrite TrimRight1_id. Qed.

Lemma pathMatchesN_slashes path pre suf :
  last_char path ≠ Some "/"%char → pathMatchesN path pre suf = true →
  count_char "/" path = count_char "/" pre + count_char "/" (TrimRight1 suf "/").
Proof.
  intros Hd. unfold pathMatchesN. destruct (HasPrefix path pre) eqn:Hp; [|done]. simpl.
  apply HasPrefix_spec in Hp as [rest ->]. rewrite str_drop_app.
  destruct (Index rest "/") as [n|] eqn:Hi; [|done].
  apply Index1_Some in Hi as (Hr & Hdrop & Hno). intros Ht. bool_hyps.
  rewrite TrimRight1_id in Ht.
  - rewrite count_char_app. f_equal. rewrite Hr, count_char_app, count_char_none by done.
    by rewrite <- Ht, Hdrop.
  - rewrite Hdrop. intros Hl. destruct Hd. rewrite Hr, !last_char_app.
    by rewrite Hl.
Qed.

Lemma pathMatches_deep path pat n :
  last_char path ≠ Some "/"%char → n <= count_char "/" path →
  (count_char "/" (TrimRight1 pat "/") <? n) = true → pathMatches path pat = false.
Proof.
  intros Hd Hn Hlt%Nat.ltb_lt. destruct (pathMatches path pat) eqn:E; [|done].
  apply pathMatches_slashes in E; [lia|done].
Qed.

Lemma pathMatchesN_deep path pre suf n :
  last_char path ≠ Some "/"%char → n <= count_char "/" path →
  (count_char "/" pre + count_char "/" (TrimRight1 suf "/") <? n) = true →
  pathMatchesN path pre suf = false.
Proof.
  intros Hd Hn Hlt%Nat.ltb_lt. destruct (pathMatchesN path pre suf) eqn:E; [|done].
  apply pathMatchesN_slashes in E; [lia|done].
Qed.

(** ** Lemmas: classification *)

Lemma first_action_app l1 l2 :
  forallb (λ r, negb r.1) l1 = true → first_action (l1 ++ l2) = first_action l2.
Proof.
  induction l1 as [|[c a] l1 IH]; [done|]. simpl. intros H. bool_hyps. rewrite H. auto.
Qed.

Lemma first_action_in l :
  existsb fst l = true → first_action l ∈ l.*2.
Proof.
  induction l as [|[c a] l IH]; [done|]. simpl. destruct c; intros H; [by left|].
  right. auto.
Qed.

Lemma first_action_app_in l1 l2 :
  existsb fst l1 = true → first_action (l1 ++ l2) = first_action l1.
Proof. induction l1 as [|[[] a] l1 IH]; simpl; [done|done|auto]. Qed.

(** A path under [q] misses a rule anchored elsewhere, and so a whole group. *)
Ltac miss_rule Hq :=
  repeat first
    [ rewrite (pathMatchesN_incompat _ _ _ _ Hq) by reflexivity
    | rewrite (pathMatches_incompat _ _ _ Hq) by reflexivity
    | unfold pathHasPrefix; rewrite (HasPrefix_incompat _ _ _ Hq) by reflexivity ];
  rewrite ?andb_false_r, ?andb_false_l; reflexivity.
Ltac miss_group Hq :=
  cbn [forallb fst container_rules image_rules network_volume_rules system_rules
       swarm_rules secret_config_rules plugin_rules];
  repeat (apply andb_true_intro; split); try reflexivity; miss_rule Hq.
Ltac miss_groups Hq :=
  repeat (rewrite first_action_app; [|solve [miss_group Hq]]).

Lemma classify_plugins m path query :
  HasPrefix path "/plugins" = true →
  first_action (all_rules m path query) = first_action (plugin_rules m path).
Proof. intros Hq. unfold all_rules. miss_groups Hq. done. Qed.

Lemma plugin_rules_total m path :
  HasPrefix path "/plugins" = true → existsb fst (plugin_rules m path) = true.
Proof.
  intros Hq. apply existsb_elem. exists (pathHasPrefix path "/plugins", ActionPluginInspect).
  split; [|exact Hq]. unfold plugin_rules. rewrite !elem_of_cons. tauto.
Qed.

(** The endpoints of the swarm group, with the action of its catch-all case. *)
Definition swarm_roots : list (string * string) :=
  [("/swarm", ActionSwarmInspect); ("/nodes/", ActionNodeInspect);
   ("/services/", ActionServiceInspect); ("/tasks/", ActionTaskInspect)].

Lemma swarm_rules_total m path q a :
  (q, a) ∈ swarm_roots → HasPrefix path q = true →
  existsb fst (swarm_rules m path) = true.
Proof.
  intros Hin Hq. apply existsb_elem. exists (pathHasPrefix path q, a). split; [|exact Hq].
  unfold swarm_rules, swarm_roots in *. rewrite !elem_of_cons in *.
  destruct Hin as [E|[E|[E|[E|[]%elem_of_nil]]]]; injection E as -> ->; tauto.
Qed.

Lemma classify_swarm m path query q a :
  (q, a) ∈ swarm_roots → HasPrefix path q = true →
  first_action (all_rules m path query) = first_action (swarm_rules m path).
Proof.
  intros Hin Hq. pose proof (swarm_rules_total m path q a Hin Hq) as Htot.
  unfold all_rules, swarm_roots in *. rewrite !elem_of_cons in Hin.
  destruct Hin as [E|[E|[E|[E|[]%elem_of_nil]]]]; injection E as -> ->;
    miss_groups Hq; by apply first_action_app_in.
Qed.

(** ** Theorems: classification *)

Definition uri_path (uri : string) : string := (cutQuery (StripAPIVersion uri)).1.

Lemma ClassifyAction_unfold m uri :
  ClassifyAction m uri =
  first_action (all_rules m (uri_path uri) (cutQuery (StripAPIVersion uri)).2).
Proof. unfold ClassifyAction, uri_path. by destruct (cutQuery _). Qed.

Lemma StripAPIVersion_versioned ver p :
  isVersionString ver = true → HasPrefix p "/" = true →
  StripAPIVersion ("/v" +:+ ver +:+ p) = p.
Proof.
  unfold isVersionString. intros Hv Hp. bool_hyps. apply Nat.ltb_lt in H0.
  apply HasPrefix_spec in Hp as [r ->].
  assert (str_forallb (λ d, negb (Ascii.eqb "/" d)) ver = true) as Hno.
  { eapply str_forallb_impl; [|exact H]. intros c Hc. apply negb_true_iff, Ascii.eqb_neq.
    intros <-. done. }
  unfold StripAPIVersion.
  replace (2 <? slen _) with true by (symmetry; apply Nat.ltb_lt; simpl; rewrite slen_app; lia).
  cbn [andb]. change ("/v" +:+ ver +:+ "/" +:+ r) with ("/v" +:+ (ver +:+ String "/" r)).
  rewrite HasPrefix_app. change 2 with (slen "/v"). rewrite str_drop_app, Index1_app by done.
  rewrite str_take_app. unfold isVersionString. rewrite H.
  rewrite (proj2 (Nat.ltb_lt 0 (slen ver))) by done. apply str_drop_app.
Qed.

(** An API version prefix changes nothing: for every version string the
    versioned URI is classified, and its container and image identifiers are
    extracted, as those of the bare URI. *)
Theorem version_prefix_transparent m ver p :
  isVersionString ver = true → HasPrefix p "/" = true → StripAPIVersion p = p →
  let uri := "/v" +:+ ver +:+ p in
  ClassifyAction m uri = ClassifyAction m p
  ∧ ExtractContainerID uri = ExtractContainerID p
  ∧ ExtractImageID uri = ExtractImageID p.
Proof.
  intros Hv Hp Hs uri. unfold uri, ClassifyAction, ExtractContainerID, ExtractImageID.
  by rewrite StripAPIVersion_versioned, Hs.
Qed.

Definition image_endpoints : list (string * string) :=
  [("POST", "/push"); ("POST", "/tag"); ("GET", "/history"); ("GET", "/json"); ("GET", "/get")].

Ltac deep Hd Hn :=
  repeat first
    [ rewrite (pathMatchesN_deep _ _ _ 4 Hd Hn) by reflexivity
    | rewrite (pathMatches_deep _ _ 4 Hd Hn) by reflexivity ];
  rewrite ?andb_false_r, ?andb_false_l; reflexivity.

Lemma image_rules_deep m path query :
  last_char path ≠ Some "/"%char → 4 <= count_char "/" path → (m ==s "DELETE") = false →
  forallb (λ r, negb r.1) (image_rules m path query) = true.
Proof.
  intros Hd Hn Hm. unfold image_rules. cbn [forallb fst]. rewrite Hm.
  repeat (apply andb_true_intro; split); try reflexivity; deep Hd Hn.
Qed.

(** The single-segment match of [pathMatchesN] leaves every image endpoint
    whose name holds a slash unclassified: pushing, tagging, inspecting or
    saving "registry/user/image" is the action "other", so a deny rule for
    "push" does not stop it and no per-image check is selected for it. *)
Theorem multi_segment_image_is_other m suffix a b :
  (m, suffix) ∈ image_endpoints →
  Index (a +:+ b) "?" = None →
  ClassifyAction m ("/images/" +:+ a +:+ "/" +:+ b +:+ suffix) = ActionOther.
Proof.
  intros Hin Hq. set (path := "/images/" +:+ a +:+ "/" +:+ b +:+ suffix).
  assert (HasPrefix path "/images/" = true) as Hpre by apply HasPrefix_app.
  assert (last_char path ≠ Some "/"%char ∧ 4 <= count_char "/" path
          ∧ (m ==s "DELETE") = false ∧ Index suffix "?" = None) as (Hd & Hn & Hm & Hsq).
  { unfold path, image_endpoints in *. rewrite !last_char_app, !count_char_app.
    rewrite !elem_of_cons in Hin.
    destruct Hin as [E|[E|[E|[E|[E|[]%elem_of_nil]]]]]; injection E as -> ->;
      (split_and!; [done|simpl; lia|done|done]). }
  assert (ClassifyAction m path = first_action (all_rules m path "")) as ->.
  { unfold ClassifyAction, cutQuery.
    assert (StripAPIVersion path = path) as ->.
    { unfold StripAPIVersion.
      rewrite (HasPrefix_incompat path "/images/" "/v") by (done || reflexivity).
      by rewrite andb_false_r. }
    assert (Index path "?" = None) as ->; [|done].
    rewrite Index1_None in *. unfold path. rewrite !str_forallb_app in *.
    bool_hyps. rewrite Hsq, H, H0. done. }
  unfold all_rules. rewrite first_action_app by miss_group Hpre.
  rewrite first_action_app by by apply image_rules_deep.
  miss_groups Hpre. rewrite <- (app_nil_r (plugin_rules m path)).
  rewrite first_action_app by miss_group Hpre. done.
Qed.


(** ** Witnesses *)

Lemma version_prefix_transparent_witness :
  ClassifyAction "POST" "/v1.45/containers/abc/start" = ActionStartContainer.
Proof.
  destruct (version_prefix_transparent "POST" "1.45" "/containers/abc/start") as [H _];
    [reflexivity..|]. exact H.
Defined.

Lemma multi_segment_image_is_other_witness :
  ClassifyAction "POST" "/images/registry.io/user/nginx/push" = ActionOther.
Proof.
  apply (multi_segment_image_is_other "POST" "/push" "registry.io" "user/nginx");
    [left | reflexivity].
Defined.
