(* ===== verification/Policy.v ===== *)
(** * Policy: deny rules and privileged users (internal/authz/policy.go)

    A [Policy] is the parsed policy.yaml with its names resolved to UIDs and
    GIDs; [IsDenied] and [IsConfigPrivileged] decide on it.  Reading the file
    and parsing YAML are a parameter. *)

From S2P Require Import Prelude GoStrings OsLookup Identity Routes.

(** ** Policies *)

Record DenyRule := mkDenyRule {
  dr_Users : list string;
  dr_Groups : list string;
  dr_Actions : list string;
}.

Record PolicyConfig := mkPolicyConfig {
  pc_Version : Z;
  pc_DefaultAction : string;
  pc_DenyRules : list DenyRule;
  pc_PrivilegedUsers : list string;
  pc_ActionMapping : gmap string (list string);
}.

Record ResolvedDenyRule := mkResolved {
  rr_UIDs : list Z;
  rr_GIDs : list Z;
  rr_Usernames : list string;
  rr_Groups : list string;
  rr_Actions : gset string;
}.

(** [privUIDs] is [None] for a policy that was never resolved (a nil map). *)
Record Policy := mkPolicy {
  p_Config : PolicyConfig;
  p_ResolvedDenyRules : list ResolvedDenyRule;
  p_UnresolvedNames : list string;
  p_privUIDs : option (gset Z);
}.

(** The aliases a rule's action name stands for. *)
Definition expandAction (a : string) : list string :=
  match a with
  | "run" => [ActionCreateContainer; ActionStartContainer]
  | "stop" => [ActionStop; ActionKill]
  | "plugin" => [ActionPluginList; ActionPluginInspect; ActionPluginInstall; ActionPluginRemove; ActionPluginEnable; ActionPluginDisable; ActionPluginUpgrade; ActionPluginSet; ActionPluginPush; ActionPluginCreate]
  | "swarm" => [ActionSwarmInspect; ActionSwarmInit; ActionSwarmJoin; ActionSwarmLeave; ActionSwarmUpdate; ActionSwarmUnlock; ActionNodeList; ActionNodeInspect; ActionNodeUpdate; ActionNodeRemove; ActionServiceList; ActionServiceCreate; ActionServiceInspect; ActionServiceUpdate; ActionServiceRemove; ActionServiceLogs; ActionTaskList; ActionTaskInspect]
  | "secret" => [ActionSecretList; ActionSecretCreate; ActionSecretInspect; ActionSecretUpdate; ActionSecretRemove]
  | "config" => [ActionConfigList; ActionConfigCreate; ActionConfigInspect; ActionConfigUpdate; ActionConfigRemove]
  | "history" => [ActionHistory]
  | _ => [a]
  end.

Definition expandActions (actions : list string) : gset string :=
  list_to_set (actions ≫= expandAction).

Section resolve.
Context (os : OsFiles).

(** [for _, u := range users { if uid := LookupUID(u); uid >= 0 ... }]: the
    resolved ids, their names, and the names that do not resolve. *)
Definition resolveNames (lookup : string → Z) (names : list string)
    : list Z * list string * list string :=
  let ok u := (0 <=? lookup u)%Z in
  (lookup <$> List.filter ok names, List.filter ok names,
   List.filter (λ u, negb (ok u)) names).

Definition resolveRule (rule : DenyRule) : ResolvedDenyRule * list string :=
  let '(uids, users, bad_users) := resolveNames (LookupUID os) (dr_Users rule) in
  let '(gids, groups, bad_groups) := resolveNames (LookupGroupGID os) (dr_Groups rule) in
  (mkResolved uids gids users groups (expandActions (dr_Actions rule)),
   bad_users ++ bad_groups).

(** A rule that names no known user or group is dropped. *)
Definition rule_applies (r : ResolvedDenyRule) : bool :=
  (0 <? length (rr_UIDs r)) || (0 <? length (rr_GIDs r)).

Definition resolve (p : Policy) : Policy :=
  let resolved := resolveRule <$> pc_DenyRules (p_Config p) in
  let '(priv, _, bad_priv) :=
    resolveNames (LookupUID os) (pc_PrivilegedUsers (p_Config p)) in
  mkPolicy (p_Config p)
    (p_ResolvedDenyRules p ++ List.filter rule_applies (resolved.*1))
    (p_UnresolvedNames p ++ concat (resolved.*2) ++ bad_priv)
    (Some (list_to_set priv)).

(** [LoadPolicy]: [data] is the file's content, [None] when it cannot be
    read; [parse] is the YAML decoder. *)
Definition LoadPolicy (parse : string → option PolicyConfig) (data : option string)
    : option Policy :=
  d ← data; cfg ← parse d;
  let cfg' := if pc_DefaultAction cfg ==s "" then
                mkPolicyConfig (pc_Version cfg) "allow" (pc_DenyRules cfg)
                  (pc_PrivilegedUsers cfg) (pc_ActionMapping cfg)
              else cfg in
  Some (resolve (mkPolicy cfg' [] [] None)).

Definition DefaultAllowPolicy : Policy :=
  mkPolicy (mkPolicyConfig 1 "allow" [] [] ∅) [] [] None.

Definition IsConfigPrivileged (p : option Policy) (id : option CallerIdentity) : bool :=
  match p, id with
  | Some p, Some id =>
      if (RealUID id <? 0)%Z then false
      else match p_privUIDs p with
           | Some s => bool_decide (RealUID id ∈ s)
           | None => false
           end
  | _, _ => false
  end.

Definition IsDenied (p : Policy) (id : CallerIdentity) (action : string) : bool :=
  let userGroups := GetUserGroups os (RealUID id) in
  existsb (λ rule,
    bool_decide (action ∈ rr_Actions rule)
    && (existsb (λ uid, uid ==z RealUID id) (rr_UIDs rule)
        || existsb (λ gid, existsb (λ userGID, gid ==z userGID) userGroups) (rr_GIDs rule)))
    (p_ResolvedDenyRules p).
End resolve.

(** ** Theorems: aliases *)

Lemma all_in (l s : list string) a :
  forallb (λ a, existsb (String.eqb a) s) l = true → a ∈ l → a ∈ s.
Proof.
  intros H Ha. rewrite forallb_forall in H. apply list_elem_of_In in Ha.
  apply H, existsb_elem in Ha as (b & Hb & ->%String.eqb_eq). done.
Qed.

(** No request under an aliased endpoint group escapes the alias: denying
    "swarm" denies every action a /swarm, /nodes/, /services/ or /tasks/ request
    can be classified as, whatever its method; likewise "plugin" and /plugins. *)
Theorem alias_covers_endpoints m uri :
  (HasPrefix (uri_path uri) "/plugins" = true →
   ClassifyAction m uri ∈ expandActions ["plugin"])
  ∧ (∀ q, q ∈ swarm_roots.*1 → HasPrefix (uri_path uri) q = true →
     ClassifyAction m uri ∈ expandActions ["swarm"]).
Proof.
  rewrite ClassifyAction_unfold. unfold expandActions. split.
  - intros Hq. rewrite classify_plugins by done. apply elem_of_list_to_set.
    eapply all_in; [|exact (first_action_in _ (plugin_rules_total m _ Hq))]. reflexivity.
  - intros q Hin Hq. apply list_elem_of_fmap in Hin as ([q' a] & -> & Hin).
    erewrite classify_swarm by done. apply elem_of_list_to_set.
    eapply all_in; [|exact (first_action_in _ (swarm_rules_total m _ _ _ Hin Hq))]. reflexivity.
Qed.

(** ** The aliases as documented *)

(** design.md, section 5.2, in its own words. *)
Definition secret_words : list string := ["secret_ls"; "secret_create"; "secret_inspect"; "secret_update"; "secret_rm"].
Definition config_words : list string := ["config_ls"; "config_create"; "config_inspect"; "config_update"; "config_rm"].
Definition documented_aliases : list (string * list string) :=
  [("run", ["create_container"; "start"]);
   ("swarm", ["swarm_inspect"; "swarm_init"; "swarm_join"; "swarm_leave"; "swarm_update"; "swarm_unlock";
              "node_ls"; "node_inspect"; "node_update"; "node_rm";
              "service_ls"; "service_create"; "service_inspect"; "service_update"; "service_rm"; "service_logs";
              "task_ls"; "task_inspect"] ++ secret_words ++ config_words);
   ("secret", secret_words); ("config", config_words);
   ("plugin", ["plugin_ls"; "plugin_inspect"; "plugin_install"; "plugin_rm"; "plugin_enable"; "plugin_disable";
               "plugin_upgrade"; "plugin_set"; "plugin_push"; "plugin_create"])].
Definition documented_actions (a : string) : list string :=
  match find_first (λ e, e.1 ==s a) documented_aliases with Some (_, l) => l | None => [a] end.

(** What a word of a rule covers: what is documented, with the two exceptions of the code. *)
Definition names_action (a action : string) : Prop :=
  (action ∈ documented_actions a ∧ ¬ (a = "swarm" ∧ action ∈ secret_words ++ config_words)) ∨ (a = "stop" ∧ action = "kill").

Definition alias_words : list string := ["run"; "stop"; "plugin"; "swarm"; "secret"; "config"; "history"].
Lemma expandAction_other a : a ∉ alias_words → expandAction a = [a] ∧ documented_actions a = [a].
Proof.
  unfold alias_words. rewrite !not_elem_of_cons. intros (? & ? & ? & ? & ? & ? & ? & _). split.
  - unfold expandAction. repeat (case_match; try reflexivity); subst; exfalso; congruence.
  - unfold documented_actions, find_first, documented_aliases. cbn [fst].
    repeat match goal with |- context [String.eqb ?w a] => rewrite (proj2 (String.eqb_neq w a)) by congruence end. done.
Qed.
Lemma expandAction_names a action : action ∈ expandAction a ↔ names_action a action.
Proof.
  destruct (decide (a ∈ alias_words)) as [Ha|Ha].
  - assert (action ∈ expandAction a ↔ (action ∈ List.filter (λ x, negb ((a ==s "swarm") && existsb (String.eqb x) (secret_words ++ config_words)))
      (documented_actions a) ++ (if a ==s "stop" then ["kill"] else []))) as ->.
    { unfold alias_words in Ha. rewrite !elem_of_cons, elem_of_nil in Ha. by destruct_or! Ha; subst; vm_compute. }
    unfold names_action. rewrite elem_of_app, list_elem_of_In, List.filter_In, <- list_elem_of_In, negb_true_iff.
    destruct (existsb (String.eqb action) (secret_words ++ config_words)) eqn:E.
    + apply existsb_elem in E as (x & Hx & ->%String.eqb_eq). destruct (String.eqb_spec a "swarm"), (String.eqb_spec a "stop"); cbn [andb];
        rewrite ?elem_of_cons, ?elem_of_nil; naive_solver.
    + assert (action ∉ secret_words ++ config_words).
      { intros Hx. rewrite existsb_false_elem in E. specialize (E _ Hx). by rewrite String.eqb_refl in E. }
      rewrite andb_false_r. destruct (String.eqb_spec a "stop"); rewrite ?elem_of_cons, ?elem_of_nil; naive_solver.
  - destruct (expandAction_other a Ha) as [E D]. unfold names_action. rewrite E, D. split.
    + intros H. left. split; [done|]. intros [-> _]. destruct Ha. vm_compute. by repeat (left + right).
    + intros [[H _]|[-> _]]; [done|]. destruct Ha. vm_compute. by repeat (left + right).
Qed.

(** ** Theorems: deny rules *)

Section deny.
Context (os : OsFiles).

(** What a configured rule says of a caller and an action. *)
Definition rule_names_user (rule : DenyRule) (id : CallerIdentity) : Prop :=
  ∃ u, u ∈ dr_Users rule ∧ LookupUID os u = RealUID id ∧ (0 <= RealUID id)%Z.
Definition rule_names_group (rule : DenyRule) (id : CallerIdentity) : Prop :=
  ∃ g, g ∈ dr_Groups rule ∧ (0 <= LookupGroupGID os g)%Z
       ∧ LookupGroupGID os g ∈ GetUserGroups os (RealUID id).
Definition rule_denies (rule : DenyRule) (id : CallerIdentity) (action : string) : Prop :=
  (∃ a, a ∈ dr_Actions rule ∧ action ∈ expandAction a)
  ∧ (rule_names_user rule id ∨ rule_names_group rule id).

Lemma elem_of_List_filter {A} (f : A → bool) l x :
  x ∈ List.filter f l ↔ x ∈ l ∧ f x = true.
Proof. rewrite !list_elem_of_In. apply filter_In. Qed.

Lemma resolveNames_ids lookup names i :
  i ∈ (resolveNames lookup names).1.1 ↔ ∃ n, n ∈ names ∧ lookup n = i ∧ (0 <= i)%Z.
Proof.
  unfold resolveNames. simpl. rewrite list_elem_of_fmap. setoid_rewrite elem_of_List_filter.
  setoid_rewrite Z.leb_le. split.
  - intros (n & -> & Hn & Hp). eauto.
  - intros (n & Hn & <- & Hp). eauto.
Qed.

Lemma elem_of_expandActions a actions :
  a ∈ expandActions actions ↔ ∃ b, b ∈ actions ∧ a ∈ expandAction b.
Proof.
  unfold expandActions. rewrite elem_of_list_to_set, list_elem_of_bind. naive_solver.
Qed.

Lemma resolveRule_ids rule :
  rr_UIDs (resolveRule os rule).1 = (resolveNames (LookupUID os) (dr_Users rule)).1.1
  ∧ rr_GIDs (resolveRule os rule).1 = (resolveNames (LookupGroupGID os) (dr_Groups rule)).1.1
  ∧ rr_Actions (resolveRule os rule).1 = expandActions (dr_Actions rule).
Proof.
  unfold resolveRule. destruct (resolveNames (LookupUID os) (dr_Users rule)) as [[??]?] eqn:E1.
  by destruct (resolveNames (LookupGroupGID os) (dr_Groups rule)) as [[??]?] eqn:E2.
Qed.

Lemma length_pos_elem {A} (l : list A) x : x ∈ l → (0 <? length l) = true.
Proof. destruct l; [by intros ?%elem_of_nil|done]. Qed.

Lemma IsDenied_iff cfg id action :
  IsDenied os (resolve os (mkPolicy cfg [] [] None)) id action = true ↔
  ∃ rule, rule ∈ pc_DenyRules cfg ∧ rule_denies rule id action.
Proof.
  unfold IsDenied, resolve. simpl.
  destruct (resolveNames (LookupUID os) (pc_PrivilegedUsers cfg)) as [[??]?]. simpl.
  rewrite existsb_elem. setoid_rewrite elem_of_List_filter.
  setoid_rewrite list_elem_of_fmap. setoid_rewrite list_elem_of_fmap.
  setoid_rewrite andb_true_iff. setoid_rewrite orb_true_iff.
  setoid_rewrite existsb_elem. setoid_rewrite existsb_elem.
  setoid_rewrite bool_decide_eq_true. setoid_rewrite Z.eqb_eq.
  unfold rule_denies, rule_names_user, rule_names_group. split.
  - intros (r & [(rr & -> & rule & -> & Hrule) _] & Hact & Hid).
    destruct (resolveRule_ids rule) as (Hu & Hg & Ha).
    rewrite Ha, elem_of_expandActions in Hact. rewrite Hu, Hg in Hid.
    exists rule. split; [done|]. split; [done|]. destruct Hid as [Hid|Hid].
    + destruct Hid as (u & Hu' & ->). apply resolveNames_ids in Hu'. naive_solver.
    + destruct Hid as (g & Hg' & g' & Hin & ->). apply resolveNames_ids in Hg'.
      destruct Hg' as (n & Hn & Hl & Hp). right. exists n. by rewrite Hl.
  - intros (rule & Hrule & Hact & Hid). destruct (resolveRule_ids rule) as (Hu & Hg & Ha).
    exists (resolveRule os rule).1. rewrite Hu, Hg, Ha, elem_of_expandActions.
    destruct Hid as [(u & Hu' & Hl & Hp)|(g & Hg' & Hp & Hin)].
    + assert (RealUID id ∈ (resolveNames (LookupUID os) (dr_Users rule)).1.1) as Hr
        by (apply resolveNames_ids; eauto).
      split; [split; [eauto 10|left; by eapply length_pos_elem]|]. split; [done|]. left. eauto.
    + assert (LookupGroupGID os g ∈ (resolveNames (LookupGroupGID os) (dr_Groups rule)).1.1)
        as Hr by (apply resolveNames_ids; eauto).
      split; [split; [eauto 10|right; by eapply length_pos_elem]|]. split; [done|]. right. eauto.
Qed.

(** C20: The resolved policy denies an action to a caller exactly when a rule of the
    configuration lists an action that [names_action] it and names the caller's real UID
    or a group the caller is a member of; names that do not resolve and rules that name
    nobody have no effect.  The aliases are those of design.md, 5.2, written out in
    [documented_actions], except that "stop" also covers "kill" and that "swarm" leaves
    out secrets and configs. *)
Theorem IsDenied_spec cfg id action :
  IsDenied os (resolve os (mkPolicy cfg [] [] None)) id action = true ↔
  ∃ rule, rule ∈ pc_DenyRules cfg ∧
    (∃ a, a ∈ dr_Actions rule ∧ names_action a action) ∧ (rule_names_user rule id ∨ rule_names_group rule id).
Proof. rewrite IsDenied_iff. unfold rule_denies. by setoid_rewrite expandAction_names. Qed.

(** [IsConfigPrivileged] grants exactly the listed users, by real UID, and
    nobody when the caller is unauthenticated or the policy was not resolved. *)
Theorem IsConfigPrivileged_spec cfg id :
  (IsConfigPrivileged (Some (resolve os (mkPolicy cfg [] [] None))) (Some id) = true ↔
   (0 <= RealUID id)%Z ∧ ∃ u, u ∈ pc_PrivilegedUsers cfg ∧ LookupUID os u = RealUID id)
  ∧ IsConfigPrivileged None (Some id) = false
  ∧ IsConfigPrivileged (Some (resolve os (mkPolicy cfg [] [] None))) None = false
  ∧ IsConfigPrivileged (Some DefaultAllowPolicy) (Some id) = false.
Proof.
  split; [|unfold IsConfigPrivileged; split_and!; [done..|by case_match]].
  pose proof (resolveNames_ids (LookupUID os) (pc_PrivilegedUsers cfg) (RealUID id)) as Hids.
  unfold IsConfigPrivileged, resolve. simpl in *.
  destruct (RealUID id <? 0)%Z eqn:Hneg; bool_hyps; [split; [done|lia]|].
  rewrite bool_decide_eq_true, elem_of_list_to_set, Hids. naive_solver.
Qed.
End deny.

(** ** Witnesses and instances *)

(** bob may neither push nor kill; carol is listed but does not exist. *)
Definition demo_config : PolicyConfig :=
  mkPolicyConfig 1 "allow"
    [mkDenyRule ["bob"; "carol"] [] ["push"; "stop"]; mkDenyRule [] ["staff"] ["swarm"]]
    ["alice"] ∅.
Definition demo_policy : Policy := resolve Demo.os (mkPolicy demo_config [] [] None).
Definition caller (name : string) (uid : Z) : CallerIdentity :=
  tcp_identity name uid uid AuthSourceJWT.

Example demo_denied :
  IsDenied Demo.os demo_policy (caller "bob" 1002) ActionKill = true
  ∧ IsDenied Demo.os demo_policy (caller "alice" 1001) ActionKill = false
  ∧ IsDenied Demo.os demo_policy (caller "alice" 1001) ActionServiceCreate = true
  ∧ p_UnresolvedNames demo_policy = ["carol"]
  ∧ IsConfigPrivileged (Some demo_policy) (Some (caller "alice" 1001)) = true.
Proof. vm_compute. done. Qed.

(** The documented aliases and the code differ: denying "stop" denies "kill"
    to the same callers, and denying "swarm" leaves every secret and config
    action allowed. *)
Theorem alias_table_divergence os users groups id action :
  let deny acts := IsDenied os (resolve os (mkPolicy
      (mkPolicyConfig 1 "allow" [mkDenyRule users groups acts] [] ∅) [] [] None)) id in
  deny [ActionStop] ActionKill = deny [ActionStop] ActionStop
  ∧ (action ∈ expandAction ActionSecret ++ expandAction ActionConfig →
     deny [ActionSwarm] action = false).
Proof.
  intros deny. unfold deny. split.
  - apply bool_eq_iff. rewrite !IsDenied_iff. unfold rule_denies.
    setoid_rewrite list_elem_of_singleton. split; intros (rule & -> & (a & Ha & _) & Hid);
      (exists (mkDenyRule users groups [ActionStop]); split; [done|]; split; [|done]);
      exists ActionStop; (split; [by left|]); apply list_elem_of_In; simpl; auto.
  - intros Hact. destruct (IsDenied _ _ _ _) eqn:E; [|done].
    apply IsDenied_iff in E as (rule & Hr & (a & Ha & Hin) & _).
    apply list_elem_of_singleton in Hr as ->. apply list_elem_of_singleton in Ha as ->.
    exfalso. apply list_elem_of_In in Hact, Hin.
    repeat (destruct Hact as [<-|Hact];
      [repeat (destruct Hin as [Hin|Hin]; [discriminate Hin|]); destruct Hin|]).
    destruct Hact.
Qed.

Lemma alias_covers_endpoints_witness :
  ClassifyAction "PATCH" "/v1.45/services/abc?x=1" ∈ expandActions ["swarm"].
Proof.
  apply (proj2 (alias_covers_endpoints "PATCH" "/v1.45/services/abc?x=1") "/services/");
    [|vm_compute; reflexivity].
  right; right; left.
Defined.

Lemma alias_table_divergence_witness :
  IsDenied Demo.os (resolve Demo.os (mkPolicy (mkPolicyConfig 1 "allow"
    [mkDenyRule ["bob"] [] [ActionSwarm]] [] ∅) [] [] None)) (caller "bob" 1002)
    ActionSecretList = false.
Proof.
  apply (alias_table_divergence Demo.os ["bob"] [] (caller "bob" 1002) ActionSecretList).
  left.
Defined.
