(* ===== verification/Tables.v ===== *)
(** * Tables: relational tables with a primary key

    The ownership database is a set of SQLite tables.  A table is the list of
    its rows in storage order; [Keyed] names the primary key (or the UNIQUE
    columns) of a row type.  A query without ORDER BY returns rows in an order
    SQLite does not specify: the theorems quantify over every list, hence over
    every order.  [keys_unique] is the constraint the database engine keeps. *)

From S2P Require Import Prelude.

Class Keyed (R K : Type) := key_of : R → K.
#[export] Hint Mode Keyed ! - : typeclass_instances.

Section table.
Context {R K : Type} `{!Keyed R K} `{!EqDecision K}.
Implicit Types (t : list R) (r : R) (k : K).

Definition has_key k r : bool := bool_decide (key_of r = k).

(** SELECT ... WHERE key = k (at most one row). *)
Definition tbl_lookup k t : option R := find_first (has_key k) t.

(** SELECT ... WHERE p, and COUNT of it. *)
Definition tbl_select (p : R → bool) t : list R := List.filter p t.
Definition tbl_count (p : R → bool) t : nat := length (tbl_select p t).

(** DELETE ... WHERE p, and on the key. *)
Definition tbl_delete_where (p : R → bool) t : list R := List.filter (λ r, negb (p r)) t.
Definition tbl_delete k t : list R := tbl_delete_where (has_key k) t.

(** INSERT OR REPLACE: the old row goes, the new one is stored last. *)
Definition tbl_replace r t : list R := tbl_delete (key_of r) t ++ [r].

(** INSERT OR IGNORE. *)
Definition tbl_insert_ignore r t : list R :=
  match tbl_lookup (key_of r) t with Some _ => t | None => t ++ [r] end.

(** UPDATE ... SET f WHERE key = k. *)
Definition tbl_update k (f : R → R) t : list R :=
  (λ r, if has_key k r then f r else r) <$> t.

(** INSERT ... ON CONFLICT(key) DO UPDATE SET f. *)
Definition tbl_upsert r (f : R → R) t : list R :=
  match tbl_lookup (key_of r) t with
  | Some _ => tbl_update (key_of r) f t
  | None => t ++ [r]
  end.

Definition keys_unique t : Prop := NoDup (key_of <$> t).

(** *** Lookup *)

Lemma has_key_spec k r : has_key k r = true ↔ key_of r = k.
Proof. apply bool_decide_eq_true. Qed.

Lemma tbl_lookup_Some k t r : tbl_lookup k t = Some r → r ∈ t ∧ key_of r = k.
Proof. intros [Hr Hk]%find_first_Some. by rewrite has_key_spec in Hk. Qed.

Lemma tbl_lookup_None k t : tbl_lookup k t = None ↔ ∀ r, r ∈ t → key_of r ≠ k.
Proof.
  unfold tbl_lookup. rewrite find_first_None. unfold has_key.
  split; intros Hr r Hin; specialize (Hr r Hin);
    [by apply bool_decide_eq_false in Hr|by apply bool_decide_eq_false].
Qed.

Lemma tbl_lookup_app k t1 t2 :
  tbl_lookup k (t1 ++ t2) =
  match tbl_lookup k t1 with Some r => Some r | None => tbl_lookup k t2 end.
Proof.
  unfold tbl_lookup. induction t1 as [|r t1 IH]; simpl; [done|]. by destruct (has_key k r).
Qed.

Lemma tbl_lookup_single k r :
  tbl_lookup k [r] = if has_key k r then Some r else None.
Proof. done. Qed.

Lemma tbl_lookup_elem k t r :
  keys_unique t → r ∈ t → key_of r = k → tbl_lookup k t = Some r.
Proof.
  unfold keys_unique. induction t as [|x t IH]; intros Hu Hr Hk; [by apply elem_of_nil in Hr|].
  rewrite fmap_cons, NoDup_cons in Hu. destruct Hu as [Hx Hu].
  unfold tbl_lookup. simpl. destruct (has_key k x) eqn:E.
  - apply has_key_spec in E. apply elem_of_cons in Hr as [->|Hr]; [done|].
    destruct Hx. rewrite E, <- Hk. by apply list_elem_of_fmap_2.
  - apply elem_of_cons in Hr as [->|Hr]; [|by apply IH].
    apply has_key_spec in Hk. congruence.
Qed.

(** *** Delete *)

Lemma tbl_lookup_delete_eq k t : tbl_lookup k (tbl_delete k t) = None.
Proof.
  apply tbl_lookup_None. intros r Hr%list_elem_of_In%filter_In Hk.
  destruct Hr as [_ Hn]. bool_hyps. apply has_key_spec in Hk. congruence.
Qed.

Lemma tbl_lookup_delete_where_ne k p t :
  (∀ r, key_of r = k → p r = false) →
  tbl_lookup k (tbl_delete_where p t) = tbl_lookup k t.
Proof.
  intros Hp. unfold tbl_lookup. induction t as [|r t IH]; simpl; [done|].
  destruct (p r) eqn:E; simpl.
  - rewrite IH. destruct (has_key k r) eqn:F; [|done].
    apply has_key_spec in F. rewrite Hp in E; done.
  - by rewrite IH.
Qed.

Lemma tbl_lookup_delete_ne k k' t :
  k ≠ k' → tbl_lookup k (tbl_delete k' t) = tbl_lookup k t.
Proof.
  intros Hne. apply tbl_lookup_delete_where_ne. intros r Hr.
  destruct (has_key k' r) eqn:E; [|done]. apply has_key_spec in E. congruence.
Qed.

Lemma elem_of_tbl_select p t r : r ∈ tbl_select p t ↔ r ∈ t ∧ p r = true.
Proof. unfold tbl_select. rewrite !list_elem_of_In. apply filter_In. Qed.

Lemma elem_of_tbl_delete_where p t r : r ∈ tbl_delete_where p t ↔ r ∈ t ∧ p r = false.
Proof.
  unfold tbl_delete_where. rewrite !list_elem_of_In, filter_In, negb_true_iff. done.
Qed.

Lemma elem_of_tbl_delete k t r : r ∈ tbl_delete k t ↔ r ∈ t ∧ key_of r ≠ k.
Proof.
  unfold tbl_delete. rewrite elem_of_tbl_delete_where. unfold has_key.
  by rewrite bool_decide_eq_false.
Qed.

(** *** Insert, replace, update *)

Lemma tbl_lookup_replace_eq r t : tbl_lookup (key_of r) (tbl_replace r t) = Some r.
Proof.
  unfold tbl_replace. rewrite tbl_lookup_app, tbl_lookup_delete_eq, tbl_lookup_single.
  by rewrite (proj2 (has_key_spec _ _)).
Qed.

Lemma tbl_lookup_replace_ne k r t :
  key_of r ≠ k → tbl_lookup k (tbl_replace r t) = tbl_lookup k t.
Proof.
  intros Hne. unfold tbl_replace. rewrite tbl_lookup_app, tbl_lookup_delete_ne by done.
  rewrite tbl_lookup_single. unfold has_key. rewrite bool_decide_eq_false_2 by done.
  by case_match.
Qed.

Lemma elem_of_tbl_replace r t x : x ∈ tbl_replace r t ↔ x = r ∨ (x ∈ t ∧ key_of x ≠ key_of r).
Proof.
  unfold tbl_replace. rewrite elem_of_app, elem_of_tbl_delete, list_elem_of_singleton. tauto.
Qed.

Lemma tbl_lookup_update k k' f t :
  (∀ r, key_of (f r) = key_of r) →
  tbl_lookup k (tbl_update k' f t) =
  (if bool_decide (k = k') then f <$> tbl_lookup k t else tbl_lookup k t).
Proof.
  intros Hf. unfold tbl_lookup, tbl_update. induction t as [|r t IH]; csimpl.
  { by case_bool_decide. }
  rewrite IH. clear IH. destruct (has_key k' r) eqn:E1.
  - assert (has_key k (f r) = has_key k r) as -> by (unfold has_key; by rewrite Hf).
    destruct (has_key k r) eqn:E2; [|done]. rewrite has_key_spec in E1, E2.
    by rewrite bool_decide_eq_true_2 by congruence.
  - destruct (has_key k r) eqn:E2; [|done].
    rewrite bool_decide_eq_false_2; [done|]. intros ->. congruence.
Qed.

Lemma tbl_lookup_insert_ignore k r t :
  tbl_lookup k (tbl_insert_ignore r t) =
  match tbl_lookup k t with
  | Some x => Some x
  | None => if has_key k r then Some r else None
  end.
Proof.
  unfold tbl_insert_ignore. destruct (tbl_lookup (key_of r) t) eqn:E.
  - case_match; [done|]. destruct (has_key k r) eqn:F; [|done].
    apply has_key_spec in F. congruence.
  - by rewrite tbl_lookup_app, tbl_lookup_single.
Qed.

(** *** Uniqueness of keys *)

Lemma keys_unique_filter p t : keys_unique t → keys_unique (List.filter p t).
Proof.
  unfold keys_unique. induction t as [|r t IH]; simpl; [done|].
  rewrite NoDup_cons. intros [Hr Hu]. destruct (p r); [|auto]. simpl.
  rewrite NoDup_cons. split; [|auto]. intros (x & Hx & Hin)%list_elem_of_fmap.
  apply Hr. apply list_elem_of_fmap. exists x. split; [done|].
  rewrite list_elem_of_In, filter_In in Hin. apply list_elem_of_In. tauto.
Qed.

Lemma keys_unique_snoc t r :
  keys_unique t → tbl_lookup (key_of r) t = None → keys_unique (t ++ [r]).
Proof.
  unfold keys_unique. intros Hu Hl. rewrite fmap_app, NoDup_app. split_and!; [done| |].
  - intros k (x & -> & Hx)%list_elem_of_fmap Hk%list_elem_of_singleton.
    rewrite tbl_lookup_None in Hl. by eapply Hl.
  - apply NoDup_singleton.
Qed.

Lemma keys_unique_delete_where p t : keys_unique t → keys_unique (tbl_delete_where p t).
Proof. apply keys_unique_filter. Qed.

Lemma keys_unique_delete k t : keys_unique t → keys_unique (tbl_delete k t).
Proof. apply keys_unique_filter. Qed.

Lemma keys_unique_replace r t : keys_unique t → keys_unique (tbl_replace r t).
Proof.
  intros Hu. apply keys_unique_snoc; [by apply keys_unique_delete|].
  apply tbl_lookup_delete_eq.
Qed.

Lemma keys_unique_insert_ignore r t : keys_unique t → keys_unique (tbl_insert_ignore r t).
Proof.
  intros Hu. unfold tbl_insert_ignore. case_match eqn:E; [done|]. by apply keys_unique_snoc.
Qed.

Lemma keys_unique_update k f t :
  (∀ r, key_of (f r) = key_of r) → keys_unique t → keys_unique (tbl_update k f t).
Proof.
  intros Hf. unfold keys_unique, tbl_update. rewrite <- list_fmap_compose.
  intros Hu. erewrite list_fmap_ext; [exact Hu|]. intros i r _. simpl.
  by destruct (has_key k r).
Qed.

Lemma keys_unique_upsert r f t :
  (∀ r, key_of (f r) = key_of r) → keys_unique t → keys_unique (tbl_upsert r f t).
Proof.
  intros Hf Hu. unfold tbl_upsert. case_match eqn:E;
    [by apply keys_unique_update|by apply keys_unique_snoc].
Qed.

(** *** Counting *)

Lemma tbl_count_pos p t : 0 < tbl_count p t ↔ ∃ r, r ∈ t ∧ p r = true.
Proof.
  unfold tbl_count. split.
  - destruct (tbl_select p t) as [|r l] eqn:E; simpl; [lia|]. intros _. exists r.
    apply elem_of_tbl_select. rewrite E. left.
  - intros (r & Hr & Hp). assert (r ∈ tbl_select p t) as Hin by by apply elem_of_tbl_select.
    destruct (tbl_select p t); [by apply elem_of_nil in Hin|simpl; lia].
Qed.

Lemma tbl_count_split p q t :
  tbl_count p t = tbl_count (λ r, p r && q r) t + tbl_count (λ r, p r && negb (q r)) t.
Proof.
  unfold tbl_count, tbl_select. induction t as [|r t IH]; simpl; [done|].
  destruct (p r), (q r); simpl; lia.
Qed.
End table.

#[export] Hint Resolve keys_unique_delete keys_unique_delete_where keys_unique_replace
  keys_unique_insert_ignore : go.
#[export] Hint Rewrite @tbl_lookup_delete_eq @tbl_lookup_replace_eq : gosimp.

(** ** Tables as finite maps

    The abstract view of a table: the row stored under each key. *)
Section table_map.
Context {R K : Type} `{!Keyed R K} `{Countable K}.
Implicit Types (t : list R) (r : R) (k : K).

Definition tbl_map t : gmap K R := list_to_map ((λ r, (key_of r, r)) <$> t).

Lemma lookup_tbl_map t k : tbl_map t !! k = tbl_lookup k t.
Proof.
  unfold tbl_map, tbl_lookup. induction t as [|r t IH]; [done|]. csimpl.
  unfold has_key at 1. case_bool_decide as E; [by rewrite E, lookup_insert_eq|].
  by rewrite lookup_insert_ne.
Qed.

Lemma tbl_map_replace r t : tbl_map (tbl_replace r t) = <[key_of r := r]> (tbl_map t).
Proof.
  apply map_eq. intros k. rewrite lookup_tbl_map.
  destruct (decide (key_of r = k)) as [<-|Hne].
  - by rewrite tbl_lookup_replace_eq, lookup_insert_eq.
  - by rewrite tbl_lookup_replace_ne, lookup_insert_ne, lookup_tbl_map.
Qed.

Lemma tbl_map_delete k t : tbl_map (tbl_delete k t) = delete k (tbl_map t).
Proof.
  apply map_eq. intros k'. rewrite lookup_tbl_map.
  destruct (decide (k' = k)) as [->|Hne].
  - by rewrite tbl_lookup_delete_eq, lookup_delete_eq.
  - by rewrite tbl_lookup_delete_ne, lookup_delete_ne, lookup_tbl_map.
Qed.

Lemma tbl_map_update k f t :
  (∀ r, key_of (f r) = key_of r) →
  tbl_map (tbl_update k f t) = alter f k (tbl_map t).
Proof.
  intros Hf. apply map_eq. intros k'. rewrite lookup_tbl_map, tbl_lookup_update by done.
  destruct (decide (k' = k)) as [->|Hne].
  - by rewrite bool_decide_eq_true_2, lookup_alter_eq, lookup_tbl_map.
  - by rewrite bool_decide_eq_false_2, lookup_alter_ne, lookup_tbl_map.
Qed.

Lemma tbl_map_snoc r t :
  tbl_lookup (key_of r) t = None →
  tbl_map (t ++ [r]) = <[key_of r := r]> (tbl_map t).
Proof.
  intros Hl. apply map_eq. intros k.
  rewrite lookup_tbl_map, tbl_lookup_app, tbl_lookup_single.
  destruct (decide (key_of r = k)) as [<-|Hne].
  - by rewrite Hl, lookup_insert_eq, (proj2 (has_key_spec _ _)).
  - rewrite lookup_insert_ne, lookup_tbl_map by done. unfold has_key.
    rewrite bool_decide_eq_false_2 by done. by destruct (tbl_lookup k t).
Qed.

Lemma tbl_map_upsert r f t :
  (∀ x, key_of (f x) = key_of x) →
  tbl_map (tbl_upsert r f t) =
  <[key_of r := match tbl_map t !! key_of r with Some x => f x | None => r end]> (tbl_map t).
Proof.
  intros Hf. unfold tbl_upsert. rewrite lookup_tbl_map.
  destruct (tbl_lookup (key_of r) t) as [x|] eqn:E; [|by apply tbl_map_snoc].
  rewrite tbl_map_update by done. apply map_eq. intros k.
  destruct (decide (key_of r = k)) as [<-|Hne].
  - by rewrite lookup_alter_eq, lookup_insert_eq, lookup_tbl_map, E.
  - by rewrite lookup_alter_ne, lookup_insert_ne.
Qed.

Lemma tbl_map_insert_ignore r t :
  tbl_map (tbl_insert_ignore r t) =
  match tbl_map t !! key_of r with
  | Some _ => tbl_map t
  | None => <[key_of r := r]> (tbl_map t)
  end.
Proof.
  unfold tbl_insert_ignore. rewrite lookup_tbl_map.
  destruct (tbl_lookup (key_of r) t) eqn:E; [done|by apply tbl_map_snoc].
Qed.

Lemma elem_of_tbl_map t r : keys_unique t → r ∈ t → tbl_map t !! key_of r = Some r.
Proof. intros Hu Hr. rewrite lookup_tbl_map. by apply tbl_lookup_elem. Qed.

Lemma tbl_map_elem t k r : tbl_map t !! k = Some r → r ∈ t ∧ key_of r = k.
Proof. rewrite lookup_tbl_map. apply tbl_lookup_Some. Qed.

Lemma tbl_map_delete_where p t :
  keys_unique t → tbl_map (tbl_delete_where p t) = filter (λ kr, p kr.2 = false) (tbl_map t).
Proof.
  intros Hu. apply map_eq. intros k. apply option_eq. intros r.
  rewrite map_lookup_filter_Some. simpl. split.
  - intros [Hr Hk]%tbl_map_elem. apply elem_of_tbl_delete_where in Hr as [Hr Hp].
    split; [|done]. rewrite <- Hk. by apply elem_of_tbl_map.
  - intros [[Hr Hk]%tbl_map_elem Hp]. rewrite <- Hk. apply elem_of_tbl_map.
    + by apply keys_unique_delete_where.
    + by apply elem_of_tbl_delete_where.
Qed.
End table_map.
