(* ===== verification/Database.v ===== *)
(** * Database: the schema and the engine of the ownership database

    [internal/authz/ownership.go], lines 13-286: the tables [initSchema]
    creates, one record per row type with its primary key as a [Keyed]
    instance, and the two ways the code talks to the engine, [Exec] and
    [Query].  The engine can fail: [writes_left = Some n] is a database that
    accepts [n] more writes and then refuses every statement (a full disk, a
    closed handle); [None] is a healthy one.  [DATETIME] columns hold a clock
    reading passed to the operations as [now]. *)

From stdpp Require Export sorting.
From S2P Require Export Prelude.
From S2P Require Import GoStrings.
From S2P Require Export Tables Identity.

Record OwnerInfo := mkOwnerInfo {
  oi_Username : string;
  oi_UID : Z;
  oi_GID : Z;
  oi_Source : string;
}.

(** ** Rows *)

Record ContainerRow := mkContainerRow {
  c_id : string; c_owner_username : string; c_owner_uid : Z; c_owner_gid : Z;
  c_image_id : string; c_privileged_context : Z; c_created_at : Z;
}.
#[export] Instance container_keyed : Keyed ContainerRow string := c_id.

Record ImageRow := mkImageRow {
  i_image_id : string; i_owner_username : string; i_owner_uid : Z; i_owner_gid : Z;
  i_is_public : Z; i_privileged_context : Z; i_source : string; i_created_at : Z;
}.
#[export] Instance image_keyed : Keyed ImageRow string := i_image_id.

Record ImageAccessRow := mkImageAccessRow {
  a_image_id : string; a_user_uid : Z; a_privileged_context : Z;
}.
#[export] Instance image_access_keyed : Keyed ImageAccessRow (string * Z) :=
  λ r, (a_image_id r, a_user_uid r).

Record NetworkRow := mkNetworkRow {
  n_network_id : string; n_name : string; n_owner_uid : Z; n_owner_username : string;
  n_is_shared : Z; n_privileged_context : Z; n_created_at : Z;
}.
#[export] Instance network_keyed : Keyed NetworkRow string := n_network_id.

Record NetworkAccessRow := mkNetworkAccessRow { na_network_id : string; na_user_uid : Z }.
#[export] Instance network_access_keyed : Keyed NetworkAccessRow (string * Z) :=
  λ r, (na_network_id r, na_user_uid r).

Record VolumeRow := mkVolumeRow {
  v_name : string; v_owner_uid : Z; v_owner_username : string;
  v_privileged_context : Z; v_created_at : Z;
}.
#[export] Instance volume_keyed : Keyed VolumeRow string := v_name.

(** [UNIQUE(host_port, protocol)]; the surrogate [id] is never read. *)
Record PortRow := mkPortRow {
  p_host_port : Z; p_protocol : string; p_container_port : Z; p_container_id : string;
  p_owner_uid : Z; p_owner_username : string; p_created_at : Z;
}.
#[export] Instance port_keyed : Keyed PortRow (Z * string) := λ r, (p_host_port r, p_protocol r).

(** [UNIQUE(uid_a, uid_b, container_id_a, container_id_b)]. *)
Record PeerRow := mkPeerRow {
  pe_uid_a : Z; pe_uid_b : Z; pe_peer_network_id : string;
  pe_container_id_a : string; pe_container_id_b : string; pe_created_at : Z;
}.
#[export] Instance peer_keyed : Keyed PeerRow (Z * Z * string * string) :=
  λ r, (pe_uid_a r, pe_uid_b r, pe_container_id_a r, pe_container_id_b r).

Record VolumesFromRow := mkVolumesFromRow {
  vf_container_id : string; vf_grantee_uid : Z; vf_granted_by : Z; vf_created_at : Z;
}.
#[export] Instance volumes_from_keyed : Keyed VolumesFromRow (string * Z) :=
  λ r, (vf_container_id r, vf_grantee_uid r).

(** The three swarm tables have the same columns up to the key's name. *)
Record SwarmRow := mkSwarmRow {
  s_id : string; s_name : string; s_owner_uid : Z; s_owner_username : string; s_created_at : Z;
}.
#[export] Instance swarm_keyed : Keyed SwarmRow string := s_id.

(** ** The database *)

Record OwnershipDB := mkDB {
  containers : list ContainerRow;
  images : list ImageRow;
  image_access : list ImageAccessRow;
  networks : list NetworkRow;
  network_access : list NetworkAccessRow;
  volumes : list VolumeRow;
  port_mappings : list PortRow;
  network_peers : list PeerRow;
  volumes_from_access : list VolumesFromRow;
  swarm_services : list SwarmRow;
  swarm_secrets : list SwarmRow;
  swarm_configs : list SwarmRow;
  writes_left : option nat;
}.

(** A fresh database file after [initSchema]. *)
Definition initSchema : OwnershipDB :=
  mkDB [] [] [] [] [] [] [] [] [] [] [] [] None.

(** Updates of one table. *)
Definition on_containers f d := let 'mkDB c i a n m v p e vf ss sc cf w := d in
  mkDB (f c) i a n m v p e vf ss sc cf w.
Definition on_images f d := let 'mkDB c i a n m v p e vf ss sc cf w := d in
  mkDB c (f i) a n m v p e vf ss sc cf w.
Definition on_image_access f d := let 'mkDB c i a n m v p e vf ss sc cf w := d in
  mkDB c i (f a) n m v p e vf ss sc cf w.
Definition on_networks f d := let 'mkDB c i a n m v p e vf ss sc cf w := d in
  mkDB c i a (f n) m v p e vf ss sc cf w.
Definition on_network_access f d := let 'mkDB c i a n m v p e vf ss sc cf w := d in
  mkDB c i a n (f m) v p e vf ss sc cf w.
Definition on_volumes f d := let 'mkDB c i a n m v p e vf ss sc cf w := d in
  mkDB c i a n m (f v) p e vf ss sc cf w.
Definition on_port_mappings f d := let 'mkDB c i a n m v p e vf ss sc cf w := d in
  mkDB c i a n m v (f p) e vf ss sc cf w.
Definition on_network_peers f d := let 'mkDB c i a n m v p e vf ss sc cf w := d in
  mkDB c i a n m v p (f e) vf ss sc cf w.
Definition on_volumes_from_access f d := let 'mkDB c i a n m v p e vf ss sc cf w := d in
  mkDB c i a n m v p e (f vf) ss sc cf w.
Definition on_swarm_services f d := let 'mkDB c i a n m v p e vf ss sc cf w := d in
  mkDB c i a n m v p e vf (f ss) sc cf w.
Definition on_swarm_secrets f d := let 'mkDB c i a n m v p e vf ss sc cf w := d in
  mkDB c i a n m v p e vf ss (f sc) cf w.
Definition on_swarm_configs f d := let 'mkDB c i a n m v p e vf ss sc cf w := d in
  mkDB c i a n m v p e vf ss sc (f cf) w.
Definition set_writes_left w d := let 'mkDB c i a n m v p e vf ss sc cf _ := d in
  mkDB c i a n m v p e vf ss sc cf w.

(** ** Statements *)

Inductive DBError :=
  | ErrEngine
  | ErrUnique
  | ErrNoRows
  | PortConflictError (HostPort : Z) (Protocol ExistingContainer ExistingOwner : string)
      (ExistingOwnerUID : Z).

(** Go's [error] result, and a [(T, error)] result whose value is the zero
    value when the error is not nil. *)
Definition error := option DBError.
Definition result (A : Type) : Type := DBError + A.

Definition db_down (d : OwnershipDB) : bool :=
  match writes_left d with Some O => true | _ => false end.

(** [db.Exec] of a statement that cannot violate a constraint. *)
Definition Exec (f : OwnershipDB → OwnershipDB) (d : OwnershipDB) : error * OwnershipDB :=
  match writes_left d with
  | None => (None, f d)
  | Some O => (Some ErrEngine, d)
  | Some (S n) => (None, set_writes_left (Some n) (f d))
  end.

(** [db.QueryRow(...).Scan(...)] and [db.Query(...)] with the loop over the rows. *)
Definition QueryRow {A} (q : OwnershipDB → option A) (d : OwnershipDB) : result A :=
  if db_down d then inl ErrEngine else
  match q d with Some a => inr a | None => inl ErrNoRows end.
Definition Query {A} (q : OwnershipDB → A) (d : OwnershipDB) : result A :=
  if db_down d then inl ErrEngine else inr (q d).

(** [if err != nil { return nil, false }], and a [Scan] whose error is dropped. *)
Definition ok_opt {A} (r : result A) : option A :=
  match r with inr a => Some a | inl _ => None end.
Definition scan_or {A} (dflt : A) (r : result A) : A :=
  match r with inr a => a | inl _ => dflt end.

Definition privCtx (identity : CallerIdentity) : Z := if IsSudoCommand identity then 1 else 0.
Definition b2z (b : bool) : Z := if b then 1 else 0.

(** ** Frame lemmas *)

Lemma Exec_cases f d :
  (Exec f d = (Some ErrEngine, d) ∧ writes_left d = Some 0%nat) ∨
  (∃ w, Exec f d = (None, set_writes_left w (f d)) ∧
        (writes_left d = None → w = writes_left (f d))).
Proof.
  unfold Exec. destruct (writes_left d) as [[|n]|] eqn:E; [by left|right..].
  - by exists (Some n).
  - exists (writes_left (f d)). split; [|done]. by destruct (f d).
Qed.

Lemma Exec_healthy f d : writes_left d = None → Exec f d = (None, f d).
Proof. unfold Exec. by intros ->. Qed.

Lemma Exec_down f d : db_down d = true → Exec f d = (Some ErrEngine, d).
Proof. unfold Exec, db_down. by destruct (writes_left d) as [[]|]. Qed.

Lemma Exec_ok f d d' : Exec f d = (None, d') → db_down d = false ∧ ∃ w, d' = set_writes_left w (f d).
Proof.
  unfold Exec, db_down. destruct (writes_left d) as [[|n]|] eqn:E; intros H; simplify_eq; eauto.
  split; [done|]. exists (writes_left (f d)). by destruct (f d).
Qed.

Lemma healthy_up d : writes_left d = None → db_down d = false.
Proof. unfold db_down. by intros ->. Qed.
#[export] Hint Resolve healthy_up : go.

(** An [Exec] either leaves the database alone or runs its statement: what
    holds of both and does not depend on the engine's budget holds after. *)
Lemma Exec_ind (P : OwnershipDB → Prop) f d :
  (∀ w d, P d → P (set_writes_left w d)) → P d → P (f d) → P (Exec f d).2.
Proof.
  intros Hw Hd Hf. destruct (Exec_cases f d) as [[-> _]|(w & -> & _)]; simpl; eauto.
Qed.
