(* ===== verification/ImageDB.v ===== *)
(** * ImageDB: images and image references in the ownership database

    [internal/authz/ownership.go], lines 390-747: who owns an image, who
    references it, who may use it and who may see it in a listing.  An image
    id reaches the database as a 64-digit digest, with or without the
    [sha256:] prefix, or as the 12-digit short form; [resolveImageIDInDB]
    finds the row it denotes.

    The abstract specification [ImageSpec] is two finite maps; the refinement
    theorem at the end says every update of the tables is the specified update
    of the maps. *)

From S2P Require Import Prelude GoStrings Database.

(** ** Identifiers *)

Definition sha256_prefix : string := "sha256:".

Definition normalizeImageID (id : string) : string := TrimPrefix id sha256_prefix.

Definition matchesImageID (stored query : string) : bool :=
  let s := normalizeImageID stored in
  let q := normalizeImageID query in
  if s ==s q then true
  else if (slen s <? slen q)%nat then HasPrefix q s
  else HasPrefix s q.

(** SQLite's [id LIKE short || '%'] for a [short] without wildcards. *)
Definition like_prefix (short id : string) : bool :=
  HasPrefix (ToLowerASCII id) (ToLowerASCII short).

(** The 12-digit prefix the second lookup uses, when the id has one. *)
Definition short_form (norm : string) : option string :=
  if (12 <=? slen norm)%nat && str_forallb is_hex (str_take 12 norm)
  then Some (str_take 12 norm) else None.

Definition resolveImageIDInDB (imageID : string) (d : OwnershipDB) : string :=
  let norm := normalizeImageID imageID in
  match QueryRow (λ d, i_image_id <$> tbl_lookup norm (images d)) d with
  | inr stored => stored
  | inl _ =>
    match short_form norm with
    | None => ""
    | Some short =>
      match QueryRow (λ d, i_image_id <$>
              find_first (λ r, (i_image_id r ==s short) || like_prefix short (i_image_id r))
                (images d)) d with
      | inr stored => stored
      | inl _ => ""
      end
    end
  end.

(** ** Writes *)

Definition image_conflict (new old : ImageRow) : ImageRow :=
  if (i_source old ==s "build") && (i_source new ==s "pull")
  then mkImageRow (i_image_id old) (i_owner_username new) (i_owner_uid new) (i_owner_gid new)
         (i_is_public old) (i_privileged_context new) (i_source new) (i_created_at new)
  else old.

Definition access_conflict (new old : ImageAccessRow) : ImageAccessRow :=
  mkImageAccessRow (a_image_id old) (a_user_uid old)
    (Z.min (a_privileged_context old) (a_privileged_context new)).

Definition SetImageOwner (now : Z) (imageID : string) (identity : CallerIdentity)
    (isPublic : bool) (source : string) (d : OwnershipDB) : error * OwnershipDB :=
  let imageID := normalizeImageID imageID in
  let row := mkImageRow imageID (RealUsername identity) (RealUID identity) (RealGID identity)
               (b2z isPublic) (privCtx identity) source now in
  let '(err, d1) := Exec (on_images (tbl_upsert row (image_conflict row))) d in
  match err with
  | Some e => (Some e, d1)
  | None =>
    let acc := mkImageAccessRow imageID (RealUID identity) (privCtx identity) in
    Exec (on_image_access (tbl_upsert acc (access_conflict acc))) d1
  end.

Definition set_public (v : Z) (r : ImageRow) : ImageRow :=
  mkImageRow (i_image_id r) (i_owner_username r) (i_owner_uid r) (i_owner_gid r)
    v (i_privileged_context r) (i_source r) (i_created_at r).

Definition MarkImagePublic (imageID : string) (isPublic : bool) (d : OwnershipDB) : error * OwnershipDB :=
  Exec (on_images (tbl_update (normalizeImageID imageID) (set_public (b2z isPublic)))) d.

Definition SetImagePublic (imageID : string) (isPublic : bool) (d : OwnershipDB) : error * OwnershipDB :=
  Exec (on_images (tbl_update (normalizeImageID imageID) (set_public (b2z isPublic)))) d.

Definition refs_image (imageID : string) (r : ImageAccessRow) : bool := a_image_id r ==s imageID.
Definition refs_image_uid (imageID : string) (uid : Z) (r : ImageAccessRow) : bool :=
  (a_image_id r ==s imageID) && (a_user_uid r ==z uid).

Definition RemoveUserImageAccess (imageID : string) (uid : Z) (d : OwnershipDB)
    : result bool * OwnershipDB :=
  let imageID := normalizeImageID imageID in
  let '(err, d1) := Exec (on_image_access (tbl_delete (imageID, uid))) d in
  match err with
  | Some e => (inl e, d1)
  | None =>
    match Query (λ d, tbl_count (refs_image imageID) (image_access d)) d1 with
    | inl e => (inl e, d1)
    | inr count => (inr (count =? 0)%nat, d1)
    end
  end.

Definition EnsureImageAccess (imageID : string) (uid : Z) (d : OwnershipDB) : error * OwnershipDB :=
  Exec (on_image_access (tbl_insert_ignore (mkImageAccessRow (normalizeImageID imageID) uid 0))) d.

Definition DeleteImage (imageID : string) (d : OwnershipDB) : error * OwnershipDB :=
  let resolved := resolveImageIDInDB imageID d in
  let imageID := if resolved !=s "" then resolved else normalizeImageID imageID in
  let '(_, d1) := Exec (on_image_access (tbl_delete_where (refs_image imageID))) d in
  Exec (on_images (tbl_delete imageID)) d1.

(** ** Queries *)

Definition row_owner (r : ImageRow) : OwnerInfo :=
  mkOwnerInfo (i_owner_username r) (i_owner_uid r) (i_owner_gid r) (i_source r).

Definition GetImageOwner (imageID : string) (d : OwnershipDB) : option (OwnerInfo * bool * Z) :=
  let resolvedID := resolveImageIDInDB imageID d in
  if resolvedID ==s "" then None else
  match QueryRow (λ d, tbl_lookup resolvedID (images d)) d with
  | inl _ => None
  | inr r => Some (row_owner r, i_is_public r !=z 0, i_privileged_context r)
  end.

Definition HasImageAccess (imageID : string) (uid : Z) (d : OwnershipDB) : bool :=
  let imageID := normalizeImageID imageID in
  if imageID ==s "" then false else
  (0 <? scan_or 0 (Query (λ d, tbl_count (λ r, refs_image_uid imageID uid r
                                        && (a_privileged_context r ==z 0)) (image_access d)) d))%nat.

Definition CanUseImage (realUID : Z) (imageID : string) (d : OwnershipDB) : bool :=
  let resolvedID := resolveImageIDInDB imageID d in
  if resolvedID ==s "" then realUID ==z 0 else
  match QueryRow (λ d, tbl_lookup resolvedID (images d)) d with
  | inl _ => realUID ==z 0
  | inr r =>
    if i_is_public r !=z 0 then true
    else if i_owner_uid r ==z realUID then true
    else (0 <? scan_or 0 (Query (λ d, tbl_count (refs_image_uid resolvedID realUID) (image_access d)) d))%nat
  end.

Definition CanSeeImage (realUID : Z) (imageID : string) (d : OwnershipDB) : bool :=
  let resolvedID := resolveImageIDInDB imageID d in
  if resolvedID ==s "" then false else
  let by_image :=
    match QueryRow (λ d, find_first (λ r, (i_image_id r ==s resolvedID)
                                       && (i_privileged_context r ==z 0)) (images d)) d with
    | inl _ => false
    | inr r => if i_is_public r !=z 0 then true else i_owner_uid r ==z realUID
    end in
  if by_image then true else
  (0 <? scan_or 0 (Query (λ d, tbl_count (λ r, refs_image_uid resolvedID realUID r
                                        && (a_privileged_context r ==z 0)) (image_access d)) d))%nat.

Definition GetImageRefCount (imageID : string) (d : OwnershipDB) : result nat :=
  Query (λ d, tbl_count (refs_image (normalizeImageID imageID)) (image_access d)) d.

Definition GetImageRefCountExcluding (imageID : string) (excludeUID : Z) (d : OwnershipDB) : result nat :=
  Query (λ d, tbl_count (λ r, refs_image (normalizeImageID imageID) r
                              && (a_user_uid r !=z excludeUID)) (image_access d)) d.

Definition GetImageRefUsers (imageID : string) (d : OwnershipDB) : result (list Z) :=
  Query (λ d, a_user_uid <$> tbl_select (refs_image (normalizeImageID imageID)) (image_access d)) d.

Definition HasUserImageAccess (imageID : string) (uid : Z) (d : OwnershipDB) : result bool :=
  match Query (λ d, tbl_count (refs_image_uid (normalizeImageID imageID) uid) (image_access d)) d with
  | inl e => inl e
  | inr count => inr (0 <? count)%nat
  end.

Definition GetImageIDsByOwner (uid : Z) (d : OwnershipDB) : result (list string) :=
  Query (λ d, i_image_id <$> tbl_select (λ r, (i_owner_uid r ==z uid) && (i_is_public r ==z 0)) (images d)) d.

Definition GetPublicImageIDs (d : OwnershipDB) : result (list string) :=
  Query (λ d, i_image_id <$> tbl_select (λ r, i_is_public r ==z 1) (images d)) d.

(** The only query of this group that looks the id up as it is given. *)
Definition IsImagePublic (imageID : string) (d : OwnershipDB) : result bool :=
  match QueryRow (λ d, i_is_public <$> tbl_lookup imageID (images d)) d with
  | inl e => inl e
  | inr pub => inr (pub ==z 1)
  end.

Definition CountAccessibleImages (uid : Z) (d : OwnershipDB) : result nat :=
  Query (λ d, length (remove_dups
    ((i_image_id <$> tbl_select (λ r, (i_owner_uid r ==z uid) || (i_is_public r ==z 1)) (images d)) ++
     (a_image_id <$> tbl_select (λ r, a_user_uid r ==z uid) (image_access d))))) d.

(** ** Well-formedness *)

Definition flag (z : Z) : Prop := z = 0%Z ∨ z = 1%Z.

Record image_wf (d : OwnershipDB) : Prop := {
  wf_images_key : keys_unique (images d);
  wf_access_key : keys_unique (image_access d);
  wf_images_flags : ∀ r, r ∈ images d → flag (i_is_public r) ∧ flag (i_privileged_context r);
  wf_access_flags : ∀ r, r ∈ image_access d → flag (a_privileged_context r);
}.

Lemma privCtx_flag id : flag (privCtx id).
Proof. unfold privCtx, flag. case_match; auto. Qed.
Lemma b2z_flag b : flag (b2z b).
Proof. unfold b2z, flag. case_match; auto. Qed.
Lemma min_flag a b : flag a → flag b → flag (Z.min a b).
Proof. unfold flag. lia. Qed.
#[export] Hint Resolve privCtx_flag b2z_flag min_flag : go.

Lemma privCtx_nonsudo id : IsSudoCommand id = false → privCtx id = 0%Z.
Proof. unfold privCtx. by intros ->. Qed.
Lemma privCtx_sudo id : IsSudoCommand id = true → privCtx id = 1%Z.
Proof. unfold privCtx. by intros ->. Qed.

(** ** Resolution of identifiers *)

Lemma resolve_exact id r d :
  db_down d = false → tbl_lookup (normalizeImageID id) (images d) = Some r →
  resolveImageIDInDB id d = normalizeImageID id.
Proof.
  intros Hd Hl. unfold resolveImageIDInDB, QueryRow. rewrite Hd, Hl. simpl.
  by apply tbl_lookup_Some in Hl as [_ Hk].
Qed.

Lemma resolve_down id d : db_down d = true → resolveImageIDInDB id d = "".
Proof. intros Hd. unfold resolveImageIDInDB, QueryRow. rewrite Hd. by case_match. Qed.

(** [id] may denote the stored identifier [s]. *)
Definition denotes (id s : string) : bool :=
  (normalizeImageID id ==s s) ||
  match short_form (normalizeImageID id) with
  | Some short => (s ==s short) || like_prefix short s
  | None => false
  end.

Lemma resolve_stored id s d :
  resolveImageIDInDB id d = s → s ≠ "" →
  db_down d = false ∧ denotes id s = true ∧ ∃ r, tbl_lookup s (images d) = Some r.
Proof.
  intros Hr Hs. destruct (db_down d) eqn:Hd.
  { rewrite resolve_down in Hr by done. congruence. }
  split; [done|]. unfold resolveImageIDInDB, QueryRow, denotes in *. rewrite Hd in Hr.
  destruct (tbl_lookup (normalizeImageID id) (images d)) as [r|] eqn:E; simpl in Hr.
  { apply tbl_lookup_Some in E as E'. destruct E' as [_ Hk]. cbv [key_of image_keyed] in Hk.
    rewrite Hr in Hk. rewrite <- Hk in E. rewrite <- Hk, eqb_str_refl. eauto. }
  destruct (short_form (normalizeImageID id)) as [short|]; [|congruence].
  destruct (find_first _ _) as [r|] eqn:F; simpl in Hr; [|congruence].
  apply find_first_Some in F as [Hin Hp]. rewrite Hr in Hp. rewrite Hp, orb_true_r.
  split; [done|]. destruct (tbl_lookup s (images d)) eqn:G; [eauto|].
  rewrite tbl_lookup_None in G. by destruct (G r Hin).
Qed.

Lemma resolve_own_id s r d :
  db_down d = false → tbl_lookup s (images d) = Some r → normalizeImageID s = s →
  resolveImageIDInDB s d = s.
Proof. intros Hd Hl Hn. rewrite (resolve_exact _ r); by rewrite ?Hn. Qed.

(** ** What the two visibility tests compute *)

Lemma CanUseImage_iff uid id d :
  CanUseImage uid id d = true ↔
  (resolveImageIDInDB id d = "" ∧ uid = 0%Z) ∨
  (resolveImageIDInDB id d ≠ "" ∧ ∃ r, tbl_lookup (resolveImageIDInDB id d) (images d) = Some r ∧
     (i_is_public r ≠ 0%Z ∨ i_owner_uid r = uid ∨
      ∃ a, a ∈ image_access d ∧ a_image_id a = resolveImageIDInDB id d ∧ a_user_uid a = uid)).
Proof.
  unfold CanUseImage. set (s := resolveImageIDInDB id d).
  destruct (s ==s "") eqn:Es; bool_hyps.
  { rewrite Z.eqb_eq. naive_solver. }
  destruct (resolve_stored id s d eq_refl Es) as (Hd & _ & r & Hr).
  unfold QueryRow, Query. rewrite Hd, Hr. simpl.
  assert ((0 <? tbl_count (refs_image_uid s uid) (image_access d))%nat = true ↔
    ∃ a, a ∈ image_access d ∧ a_image_id a = s ∧ a_user_uid a = uid) as Hc.
  { rewrite Nat.ltb_lt, tbl_count_pos. unfold refs_image_uid.
    setoid_rewrite andb_true_iff. setoid_rewrite String.eqb_eq. by setoid_rewrite Z.eqb_eq. }
  trans (i_is_public r ≠ 0%Z ∨ i_owner_uid r = uid ∨
    ∃ a, a ∈ image_access d ∧ a_image_id a = s ∧ a_user_uid a = uid);
    [|split; [intros H; right; eauto|by intros [[? _]|[_ (r' & [= <-] & H)]]]].
  rewrite <- Hc. clear.
  destruct (i_is_public r !=z 0) eqn:Ep, (i_owner_uid r ==z uid) eqn:Eo; bool_hyps; tauto.
Qed.

Lemma CanSeeImage_iff uid id d :
  keys_unique (images d) →
  CanSeeImage uid id d = true ↔
  resolveImageIDInDB id d ≠ "" ∧
  ((∃ r, tbl_lookup (resolveImageIDInDB id d) (images d) = Some r ∧ i_privileged_context r = 0%Z ∧
         (i_is_public r ≠ 0%Z ∨ i_owner_uid r = uid)) ∨
   (∃ a, a ∈ image_access d ∧ a_image_id a = resolveImageIDInDB id d ∧ a_user_uid a = uid ∧
         a_privileged_context a = 0%Z)).
Proof.
  intros Hu. unfold CanSeeImage. set (s := resolveImageIDInDB id d).
  destruct (s ==s "") eqn:Es; bool_hyps; [naive_solver|].
  destruct (resolve_stored id s d eq_refl Es) as (Hd & _ & r & Hr).
  unfold QueryRow, Query. rewrite Hd. simpl.
  set (P := λ x, (i_image_id x ==s s) && (i_privileged_context x ==z 0)).
  assert (∀ x, find_first P (images d) = Some x ↔ x = r ∧ i_privileged_context r = 0%Z) as HP.
  { intros x. apply tbl_lookup_Some in Hr as Hr'. destruct Hr' as [Hin Hk]. split.
    - intros [Hx Hp]%find_first_Some. unfold P in Hp. bool_hyps.
      assert (x = r) as ->; [|done].
      pose proof (tbl_lookup_elem s _ x Hu Hx ltac:(done)). congruence.
    - intros [-> Hp]. destruct (find_first P (images d)) as [y|] eqn:F.
      + apply find_first_Some in F as [Hy Hpy]. unfold P in Hpy. bool_hyps.
        pose proof (tbl_lookup_elem s _ y Hu Hy ltac:(done)). congruence.
      + rewrite find_first_None in F. specialize (F r Hin). unfold P in F.
        cbv [key_of image_keyed] in Hk. by rewrite Hp, Hk, eqb_str_refl in F. }
  assert ((0 <? tbl_count (λ r, refs_image_uid s uid r && (a_privileged_context r ==z 0))
                (image_access d))%nat = true ↔
    ∃ a, a ∈ image_access d ∧ a_image_id a = s ∧ a_user_uid a = uid ∧ a_privileged_context a = 0%Z) as Hc.
  { rewrite Nat.ltb_lt, tbl_count_pos. unfold refs_image_uid.
    setoid_rewrite andb_true_iff. setoid_rewrite andb_true_iff.
    setoid_rewrite String.eqb_eq. setoid_rewrite Z.eqb_eq. naive_solver. }
  destruct (find_first P (images d)) as [x|] eqn:F.
  - destruct (proj1 (HP x) eq_refl) as [-> Hp].
    trans ((i_is_public r ≠ 0%Z ∨ i_owner_uid r = uid) ∨ 
      ∃ a, a ∈ image_access d ∧ a_image_id a = s ∧ a_user_uid a = uid ∧ a_privileged_context a = 0%Z);
      [|split; [intros [H|H]; (split; [done|]); [left; eauto|by right]
               |intros [_ [(r' & Hr' & _ & H)|H]]; [left; congruence|by right]]].
    rewrite <- Hc. clear.
    destruct (i_is_public r !=z 0) eqn:Ep, (i_owner_uid r ==z uid) eqn:Eo; bool_hyps; tauto.
  - assert (i_privileged_context r ≠ 0%Z).
    { intros Hp. discriminate (proj2 (HP r) (conj eq_refl Hp)). }
    rewrite Hc. split; [intros Ha; split; [done|by right]|].
    intros [_ [(r' & Hr' & ? & _)|Ha]]; [congruence|exact Ha].
Qed.

(** ** Operations as data, and the abstract specification *)

Inductive ImageOp :=
  | OpSetImageOwner (now : Z) (id : string) (who : CallerIdentity) (isPublic : bool) (source : string)
  | OpSetImagePublic (id : string) (isPublic : bool)
  | OpRemoveUserImageAccess (id : string) (uid : Z)
  | OpEnsureImageAccess (id : string) (uid : Z)
  | OpDeleteImage (id : string).

Definition run_image_op (op : ImageOp) (d : OwnershipDB) : OwnershipDB :=
  match op with
  | OpSetImageOwner now id who pub src => (SetImageOwner now id who pub src d).2
  | OpSetImagePublic id pub => (SetImagePublic id pub d).2
  | OpRemoveUserImageAccess id uid => (RemoveUserImageAccess id uid d).2
  | OpEnsureImageAccess id uid => (EnsureImageAccess id uid d).2
  | OpDeleteImage id => (DeleteImage id d).2
  end.

(** The specification state: the record of every known image, and the flag of
    every (image, user) reference. *)
Record ImageSpec := mkImageSpec {
  sp_images : gmap string ImageRow;
  sp_access : gmap (string * Z) Z;
}.

Definition image_abs (d : OwnershipDB) : ImageSpec :=
  mkImageSpec (tbl_map (images d)) (a_privileged_context <$> tbl_map (image_access d)).

(** First registration wins, except that a pull takes over a built image. *)
Definition spec_register (row : ImageRow) (m : gmap string ImageRow) : gmap string ImageRow :=
  match m !! i_image_id row with
  | None => <[i_image_id row := row]> m
  | Some old =>
    if (i_source old ==s "build") && (i_source row ==s "pull")
    then <[i_image_id row := mkImageRow (i_image_id old) (i_owner_username row) (i_owner_uid row)
            (i_owner_gid row) (i_is_public old) (i_privileged_context row) (i_source row)
            (i_created_at row)]> m
    else m
  end.

(** A reference keeps the least privileged context it was ever made in. *)
Definition spec_reference (k : string * Z) (p : Z) (m : gmap (string * Z) Z) : gmap (string * Z) Z :=
  <[k := match m !! k with Some q => Z.min q p | None => p end]> m.

(** The row an identifier denotes: the exact one, else any row its short form
    matches, else none (the normalised identifier is used as it is). *)
Inductive spec_target (m : gmap string ImageRow) (id : string) : string → Prop :=
  | target_exact : is_Some (m !! normalizeImageID id) → spec_target m id (normalizeImageID id)
  | target_short k :
      m !! normalizeImageID id = None → is_Some (m !! k) → denotes id k = true → spec_target m id k
  | target_none :
      (∀ k, is_Some (m !! k) → denotes id k = false) → spec_target m id (normalizeImageID id).

(** [target] is the row a deletion is for. *)
Definition spec_image_op (target : string) (op : ImageOp) (s : ImageSpec) : ImageSpec :=
  match op with
  | OpSetImageOwner now id who pub src =>
    let nid := normalizeImageID id in
    mkImageSpec
      (spec_register (mkImageRow nid (RealUsername who) (RealUID who) (RealGID who) (b2z pub)
                        (privCtx who) src now) (sp_images s))
      (spec_reference (nid, RealUID who) (privCtx who) (sp_access s))
  | OpSetImagePublic id pub =>
    mkImageSpec (alter (set_public (b2z pub)) (normalizeImageID id) (sp_images s)) (sp_access s)
  | OpRemoveUserImageAccess id uid =>
    mkImageSpec (sp_images s) (delete (normalizeImageID id, uid) (sp_access s))
  | OpEnsureImageAccess id uid =>
    let k := (normalizeImageID id, uid) in
    mkImageSpec (sp_images s)
      (match sp_access s !! k with Some _ => sp_access s | None => <[k := 0%Z]> (sp_access s) end)
  | OpDeleteImage id =>
    mkImageSpec (delete target (sp_images s))
      (filter (λ kp, kp.1.1 ≠ target) (sp_access s))
  end.

Definition spec_image_step (op : ImageOp) (s s' : ImageSpec) : Prop :=
  ∃ target,
    match op with OpDeleteImage id => spec_target (sp_images s) id target | _ => True end ∧
    s' = spec_image_op target op s.

(** ** Effect of each operation on a healthy database *)

Lemma SetImageOwner_healthy now id who pub src d :
  writes_left d = None →
  SetImageOwner now id who pub src d =
  let nid := normalizeImageID id in
  let row := mkImageRow nid (RealUsername who) (RealUID who) (RealGID who) (b2z pub) (privCtx who) src now in
  let acc := mkImageAccessRow nid (RealUID who) (privCtx who) in
  (None, on_image_access (tbl_upsert acc (access_conflict acc))
           (on_images (tbl_upsert row (image_conflict row)) d)).
Proof. intros Hw. unfold SetImageOwner. destruct d. simpl in *. subst. done. Qed.

Lemma DeleteImage_healthy id d :
  writes_left d = None →
  DeleteImage id d =
  let target := if resolveImageIDInDB id d !=s "" then resolveImageIDInDB id d else normalizeImageID id in
  (None, on_images (tbl_delete target) (on_image_access (tbl_delete_where (refs_image target)) d)).
Proof. intros Hw. unfold DeleteImage. destruct d. simpl in *. subst. done. Qed.

Lemma RemoveUserImageAccess_healthy id uid d :
  writes_left d = None →
  RemoveUserImageAccess id uid d =
  let d' := on_image_access (tbl_delete (normalizeImageID id, uid)) d in
  (inr (tbl_count (refs_image (normalizeImageID id)) (image_access d') =? 0)%nat, d').
Proof. intros Hw. unfold RemoveUserImageAccess. destruct d. simpl in *. subst. done. Qed.

Lemma image_conflict_key new r : i_image_id (image_conflict new r) = i_image_id r.
Proof. unfold image_conflict. by case_match. Qed.

Lemma access_conflict_key new r : key_of (access_conflict new r) = key_of r.
Proof. done. Qed.

Lemma image_conflict_flags new r :
  flag (i_is_public r) ∧ flag (i_privileged_context r) → flag (i_privileged_context new) →
  flag (i_is_public (image_conflict new r)) ∧ flag (i_privileged_context (image_conflict new r)).
Proof. unfold image_conflict. case_match; simpl; tauto. Qed.

(** ** The invariant is preserved *)

Lemma upsert_Forall {R K} `{!Keyed R K} `{!EqDecision K} (P : R → Prop) x f t :
  (∀ r, P r → P (f r)) → P x → (∀ r, r ∈ t → P r) → ∀ r, r ∈ tbl_upsert x f t → P r.
Proof.
  intros Hf Hx Ht r. unfold tbl_upsert. case_match.
  - unfold tbl_update. intros (y & -> & Hy)%list_elem_of_fmap. case_match; auto.
  - rewrite elem_of_app, list_elem_of_singleton. intros [?| ->]; auto.
Qed.

Lemma update_Forall {R K} `{!Keyed R K} `{!EqDecision K} (P : R → Prop) k f t :
  (∀ r, P r → P (f r)) → (∀ r, r ∈ t → P r) → ∀ r, r ∈ tbl_update k f t → P r.
Proof.
  intros Hf Ht r. unfold tbl_update. intros (y & -> & Hy)%list_elem_of_fmap. case_match; auto.
Qed.

Lemma image_wf_writes w d : image_wf d → image_wf (set_writes_left w d).
Proof. destruct d. by intros []; split. Qed.

Lemma image_wf_on_images f d :
  image_wf d → keys_unique (f (images d)) →
  (∀ r, r ∈ f (images d) → flag (i_is_public r) ∧ flag (i_privileged_context r)) →
  image_wf (on_images f d).
Proof. destruct d. intros []; by split. Qed.

Lemma image_wf_on_access f d :
  image_wf d → keys_unique (f (image_access d)) →
  (∀ r, r ∈ f (image_access d) → flag (a_privileged_context r)) →
  image_wf (on_image_access f d).
Proof. destruct d. intros []; by split. Qed.

Lemma Exec_image_wf f d : image_wf d → image_wf (f d) → image_wf (Exec f d).2.
Proof. intros. apply Exec_ind; auto using image_wf_writes. Qed.

Lemma image_wf_step op d : image_wf d → image_wf (run_image_op op d).
Proof.
  intros Hwf. destruct op; simpl.
  - unfold SetImageOwner. set (row := mkImageRow _ _ _ _ _ _ _ _). set (acc := mkImageAccessRow _ _ _).
    pose proof (Exec_image_wf (on_images (tbl_upsert row (image_conflict row))) d Hwf) as H1.
    assert (image_wf (on_images (tbl_upsert row (image_conflict row)) d)) as H2.
    { apply image_wf_on_images; [done| |].
      - apply keys_unique_upsert; [apply image_conflict_key|apply Hwf].
      - apply (upsert_Forall (λ r, flag (i_is_public r) ∧ flag (i_privileged_context r))).
        + intros r Hr. apply image_conflict_flags; [done|]. simpl. auto with go.
        + simpl. auto with go.
        + apply Hwf. }
    specialize (H1 H2). destruct (Exec _ d) as [[e|] d1]; simpl in *; [done|].
    apply Exec_image_wf; [done|]. apply image_wf_on_access; [done| |].
    + apply keys_unique_upsert; [apply access_conflict_key|apply H1].
    + apply (upsert_Forall (λ r, flag (a_privileged_context r))); [|simpl; auto with go|apply H1].
      intros r Hr. simpl. auto with go.
  - apply Exec_image_wf, image_wf_on_images; [done..| |].
    + apply keys_unique_update; [done|apply Hwf].
    + apply (update_Forall (λ r, flag (i_is_public r) ∧ flag (i_privileged_context r))); [|apply Hwf].
      simpl. intros r []. auto with go.
  - unfold RemoveUserImageAccess.
    pose proof (Exec_image_wf (on_image_access (tbl_delete (normalizeImageID id, uid))) d Hwf) as H1.
    destruct (Exec _ d) as [[e|] d1]; simpl in *;
      [|case_match; simpl]; (apply H1, image_wf_on_access; [done|apply keys_unique_delete, Hwf|];
        intros r [Hr _]%elem_of_tbl_delete; by apply Hwf).
  - apply Exec_image_wf, image_wf_on_access; [done..| |].
    + apply keys_unique_insert_ignore, Hwf.
    + unfold tbl_insert_ignore. case_match; [apply Hwf|]. intros r.
      rewrite elem_of_app, list_elem_of_singleton. intros [?| ->]; [by apply Hwf|by left].
  - unfold DeleteImage. match goal with |- context [tbl_delete ?t] => set (target := t) end.
    pose proof (Exec_image_wf (on_image_access (tbl_delete_where (refs_image target))) d Hwf) as H1.
    destruct (Exec _ d) as [e d1]; simpl in *.
    assert (image_wf d1) as Hd1.
    { apply H1, image_wf_on_access; [done|apply keys_unique_delete_where, Hwf|].
      intros r [Hr _]%elem_of_tbl_delete_where. by apply Hwf. }
    apply Exec_image_wf, image_wf_on_images; [done..|apply keys_unique_delete, Hd1|].
    intros r [Hr _]%elem_of_tbl_delete. by apply Hd1.
Qed.

(** ** Refinement *)

Lemma access_abs_upsert k1 k2 p t :
  a_privileged_context <$>
    tbl_map (tbl_upsert (mkImageAccessRow k1 k2 p) (access_conflict (mkImageAccessRow k1 k2 p)) t) =
  spec_reference (k1, k2) p (a_privileged_context <$> tbl_map t).
Proof.
  rewrite tbl_map_upsert by done. unfold spec_reference. rewrite fmap_insert, lookup_fmap. simpl.
  cbv [key_of image_access_keyed]. simpl. by destruct (tbl_map t !! (k1, k2)).
Qed.

Lemma images_abs_upsert row t :
  tbl_map (tbl_upsert row (image_conflict row) t) = spec_register row (tbl_map t).
Proof.
  rewrite tbl_map_upsert by apply image_conflict_key.
  unfold spec_register, image_conflict. cbv [key_of image_keyed].
  destruct (tbl_map t !! i_image_id row) as [old|] eqn:E; [|done].
  case_match; [done|]. by rewrite insert_id.
Qed.

Lemma access_abs_delete_image target t :
  keys_unique t →
  a_privileged_context <$> tbl_map (tbl_delete_where (refs_image target) t) =
  filter (λ kp, kp.1.1 ≠ target) (a_privileged_context <$> tbl_map t).
Proof.
  intros Hu. rewrite tbl_map_delete_where by done. rewrite map_filter_fmap. f_equal.
  apply map_filter_ext. intros k r [_ <-]%tbl_map_elem. simpl. unfold refs_image.
  by rewrite String.eqb_neq.
Qed.

(** The row [DeleteImage] works on. *)
Definition delete_target (id : string) (d : OwnershipDB) : string :=
  if resolveImageIDInDB id d !=s "" then resolveImageIDInDB id d else normalizeImageID id.

Lemma like_prefix_empty short : short ≠ "" → like_prefix short "" = false.
Proof. destruct short; [done|]. intros _. unfold like_prefix. simpl. by unfold HasPrefix. Qed.

Lemma resolve_none id k d :
  db_down d = false → resolveImageIDInDB id d = "" → normalizeImageID id ≠ "" →
  is_Some (tbl_lookup k (images d)) → denotes id k = false.
Proof.
  intros Hd Hr Hn [r [Hin Hk]%tbl_lookup_Some]. cbv [key_of image_keyed] in Hk.
  unfold resolveImageIDInDB, QueryRow, denotes in *. rewrite Hd in Hr.
  destruct (tbl_lookup (normalizeImageID id) (images d)) as [x|] eqn:E; simpl in Hr.
  { apply tbl_lookup_Some in E as [_ Hx]. cbv [key_of image_keyed] in Hx. congruence. }
  rewrite tbl_lookup_None in E. specialize (E r Hin). cbv [key_of image_keyed] in E.
  apply orb_false_iff. split; [apply String.eqb_neq; congruence|].
  destruct (short_form (normalizeImageID id)) as [short|] eqn:Es; [|done].
  destruct (find_first _ _) as [x|] eqn:F; simpl in Hr.
  - apply find_first_Some in F as [_ Hp]. rewrite Hr in Hp.
    unfold short_form in Es. destruct (_ && _) eqn:El; [|done]. bool_hyps. simplify_eq.
    apply Nat.leb_le in H.
    assert (str_take 12 (normalizeImageID id) ≠ "") as Hne.
    { intros He. pose proof (slen_take 12 (normalizeImageID id)) as Hl. rewrite He, Nat.min_l in Hl by done.
      discriminate. }
    rewrite like_prefix_empty, orb_false_r in Hp by done. apply String.eqb_eq in Hp. congruence.
  - rewrite find_first_None in F. specialize (F r Hin). by rewrite Hk in F.
Qed.

Lemma delete_target_spec id d :
  writes_left d = None → spec_target (tbl_map (images d)) id (delete_target id d).
Proof.
  intros Hw. assert (Hd := healthy_up _ Hw). unfold delete_target.
  destruct (tbl_lookup (normalizeImageID id) (images d)) as [r|] eqn:E.
  { rewrite (resolve_exact id r) by done. case_match; (apply target_exact; rewrite lookup_tbl_map; eauto). }
  destruct (resolveImageIDInDB id d ==s "") eqn:Er; bool_hyps; simpl.
  - destruct (decide (normalizeImageID id = "")) as [Hn|Hn].
    + rewrite Hn. rewrite <- Hn. apply target_none. intros k [r Hr]. rewrite lookup_tbl_map in Hr.
      unfold denotes. rewrite Hn in *. unfold short_form. simpl. rewrite orb_false_r.
      destruct k; [congruence|done].
    + apply target_none. intros k Hk. rewrite lookup_tbl_map in Hk. by eapply resolve_none.
  - destruct (resolve_stored id _ d eq_refl Er) as (_ & Hden & r & Hr).
    apply target_short; rewrite ?lookup_tbl_map; eauto.
Qed.

Lemma image_step_refines op d :
  writes_left d = None → image_wf d →
  image_abs (run_image_op op d) =
    spec_image_op (match op with OpDeleteImage id => delete_target id d | _ => "" end) op (image_abs d) ∧
  writes_left (run_image_op op d) = None.
Proof.
  intros Hw Hwf. destruct op; simpl.
  - rewrite SetImageOwner_healthy by done. destruct d. simpl in *. split; [|done].
    unfold image_abs. simpl. by rewrite images_abs_upsert, access_abs_upsert.
  - unfold SetImagePublic. rewrite Exec_healthy by done. destruct d. simpl in *. split; [|done].
    unfold image_abs. simpl. by rewrite tbl_map_update.
  - rewrite RemoveUserImageAccess_healthy by done. destruct d. simpl in *. split; [|done].
    unfold image_abs. simpl. by rewrite tbl_map_delete, fmap_delete.
  - unfold EnsureImageAccess. rewrite Exec_healthy by done. destruct d. simpl in *. split; [|done].
    unfold image_abs. simpl. rewrite tbl_map_insert_ignore, lookup_fmap.
    cbv [key_of image_access_keyed]. simpl.
    destruct (tbl_map _ !! _) eqn:E; simpl; [done|]. by rewrite fmap_insert.
  - rewrite DeleteImage_healthy by done. cbv zeta.
    fold (delete_target id d). set (target := delete_target id d).
    destruct d. simpl in *. split; [|done]. unfold image_abs. simpl.
    by rewrite tbl_map_delete, access_abs_delete_image by apply Hwf.
Qed.

(** Runs of operations, first to last. *)
Definition run_image_ops (ops : list ImageOp) (d : OwnershipDB) : OwnershipDB :=
  foldl (λ d op, run_image_op op d) d ops.

Inductive spec_image_run : list ImageOp → ImageSpec → ImageSpec → Prop :=
  | spec_run_nil s : spec_image_run [] s s
  | spec_run_cons op ops s s' s'' :
      spec_image_step op s s' → spec_image_run ops s' s'' → spec_image_run (op :: ops) s s''.

Lemma image_run_refines ops d :
  writes_left d = None → image_wf d →
  spec_image_run ops (image_abs d) (image_abs (run_image_ops ops d)) ∧
  image_wf (run_image_ops ops d) ∧ writes_left (run_image_ops ops d) = None.
Proof.
  revert d. induction ops as [|op ops IH]; intros d Hw Hwf; [split; [apply spec_run_nil|done]|].
  destruct (image_step_refines op d Hw Hwf) as [Hs Hw'].
  destruct (IH (run_image_op op d) Hw' (image_wf_step op d Hwf)) as (IHs & IHwf & IHw).
  split; [|done]. econstructor; [|exact IHs]. rewrite Hs. eexists. split; [|done].
  destruct op; try done. by apply delete_target_spec.
Qed.

(** ** Lasting visibility *)

(** The operations that can take a user's reference to the image [nid] away. *)
Definition may_revoke (nid : string) (uid : Z) (op : ImageOp) : bool :=
  match op with
  | OpRemoveUserImageAccess id u => (normalizeImageID id ==s nid) && (u ==z uid)
  | OpDeleteImage id => denotes id nid
  | _ => false
  end.

(** The image is known and the user has an unprivileged reference to it. *)
Definition referenced (nid : string) (uid : Z) (s : ImageSpec) : Prop :=
  is_Some (sp_images s !! nid) ∧ sp_access s !! (nid, uid) = Some 0%Z.

Lemma spec_target_denotes m id t :
  spec_target m id t → denotes id t = true.
Proof.
  intros [H|k _ _ Hd|H]; [|done|]; unfold denotes; by rewrite eqb_str_refl.
Qed.

Lemma spec_register_keeps row m k : is_Some (m !! k) → is_Some (spec_register row m !! k).
Proof.
  intros Hk. unfold spec_register. repeat case_match; try done;
    (destruct (decide (i_image_id row = k)) as [<-|];
      [rewrite lookup_insert_eq; eauto|by rewrite lookup_insert_ne]).
Qed.

Lemma spec_reference_zero k p m k' :
  flag p → m !! k' = Some 0%Z → spec_reference k p m !! k' = Some 0%Z.
Proof.
  intros Hp Hk. unfold spec_reference. destruct (decide (k = k')) as [->|].
  - rewrite lookup_insert_eq, Hk. f_equal. unfold flag in Hp. lia.
  - by rewrite lookup_insert_ne.
Qed.

Lemma referenced_step nid uid op s s' :
  may_revoke nid uid op = false → spec_image_step op s s' →
  referenced nid uid s → referenced nid uid s'.
Proof.
  intros Hr (t & Ht & ->) [Hi Ha]. destruct op as [? id who ? ?|id b|id u|id u|id]; simpl in *.
  - split; simpl; [by apply spec_register_keeps|]. apply spec_reference_zero; auto with go.
  - split; simpl; [|done]. rewrite lookup_alter_is_Some. done.
  - split; simpl; [done|]. rewrite lookup_delete_ne; [done|]. intros [= H1 H2].
    by rewrite H1, H2, eqb_str_refl, Z.eqb_refl in Hr.
  - split; simpl; [done|]. case_match eqn:E; [done|].
    destruct (decide ((normalizeImageID id, u) = (nid, uid))) as [Heq|Hne].
    + rewrite Heq in E. congruence.
    + by rewrite lookup_insert_ne.
  - apply spec_target_denotes in Ht. assert (t ≠ nid) as Hne by congruence.
    split; simpl; [by rewrite lookup_delete_ne|]. apply map_lookup_filter_Some. split; [done|].
    simpl. congruence.
Qed.

Lemma referenced_run nid uid ops s s' :
  Forall (λ op, may_revoke nid uid op = false) ops → spec_image_run ops s s' →
  referenced nid uid s → referenced nid uid s'.
Proof.
  intros Hall Hrun. induction Hrun as [|op ops s s1 s2 Hs _ IH]; [done|].
  apply Forall_cons in Hall as [Hop Hall]. intros H. apply IH; [done|]. by eapply referenced_step.
Qed.

Lemma referenced_visible uid id d :
  writes_left d = None → image_wf d → normalizeImageID id ≠ "" →
  referenced (normalizeImageID id) uid (image_abs d) → CanSeeImage uid id d = true.
Proof.
  intros Hw Hwf Hn [[r Hi] Ha]. simpl in *. rewrite lookup_tbl_map in Hi.
  apply CanSeeImage_iff; [apply Hwf|]. rewrite (resolve_exact id r) by auto with go.
  split; [done|]. right. rewrite lookup_fmap, lookup_tbl_map in Ha.
  destruct (tbl_lookup _ (image_access d)) as [a|] eqn:E; [|done]. simpl in Ha. simplify_eq.
  apply tbl_lookup_Some in E as [Hin Hk]. cbv [key_of image_access_keyed] in Hk. simplify_eq.
  exists a. auto.
Qed.

(** A successful registration from a non-sudo command leaves a reference. *)
Lemma SetImageOwner_referenced now id who pub src d :
  writes_left d = None → image_wf d → IsSudoCommand who = false →
  referenced (normalizeImageID id) (RealUID who)
    (image_abs (run_image_op (OpSetImageOwner now id who pub src) d)).
Proof.
  intros Hw Hwf Hs. destruct (image_step_refines (OpSetImageOwner now id who pub src) d Hw Hwf) as [-> _].
  split; simpl.
  - unfold spec_register. repeat case_match; rewrite ?lookup_insert_eq; eauto.
  - unfold spec_reference. rewrite lookup_insert_eq, (privCtx_nonsudo who) by done. f_equal.
    case_match eqn:E; [|done]. rewrite lookup_fmap, lookup_tbl_map in E.
    destruct (tbl_lookup _ _) as [a|] eqn:F; [|done]. simpl in E. simplify_eq.
    apply tbl_lookup_Some in F as [Hin _]. apply Hwf in Hin. unfold flag in Hin. lia.
Qed.

(** ** Properties *)

(** C21: the image tables implement the abstract specification: from any
    well-formed, working database, every sequence of image operations
    (registrations, publications, reference removals and additions, deletions)
    changes the maps "image → record" and "(image, user) → flag" exactly as the
    specification's steps do, and keeps the tables well formed: keys unique,
    flags 0 or 1. *)
Theorem image_tables_refine_spec ops d
    (Hw : writes_left d = None) (Hwf : image_wf d) :
  spec_image_run ops (image_abs d) (image_abs (run_image_ops ops d)) ∧
  image_wf (run_image_ops ops d).
Proof. destruct (image_run_refines ops d Hw Hwf) as (? & ? & _). done. Qed.

(** An image a user can see in a listing is an image the user can use:
    [CanSeeImage] (the unprivileged listing) implies [CanUseImage], whatever the
    form of the id and even when the database fails. *)
Theorem seen_image_is_usable uid id d (Hwf : image_wf d) (Hsee : CanSeeImage uid id d = true) :
  CanUseImage uid id d = true.
Proof.
  apply CanSeeImage_iff in Hsee as [Hs Hc]; [|apply Hwf].
  apply CanUseImage_iff. right. split; [done|].
  destruct (resolve_stored id _ d eq_refl Hs) as (_ & _ & r & Hr). exists r. split; [done|].
  destruct Hc as [(r' & Hr' & _ & Ho)|(a & ? & ? & ? & _)]; [|by eauto 10].
  assert (r' = r) as -> by congruence. tauto.
Qed.

(** Once a user's unprivileged command (pull, build, load, ...) has
    registered an image, the image is visible to that user in listings, and it
    stays visible through every later sequence of image operations by anyone,
    sudo pulls by the same user included, as long as none of them removes this
    user's reference or deletes the image. *)
Theorem registered_image_stays_visible now id who pub src ops d
    (Hw : writes_left d = None) (Hwf : image_wf d) (Hs : IsSudoCommand who = false)
    (Hn : normalizeImageID id ≠ "")
    (Hops : Forall (λ op, may_revoke (normalizeImageID id) (RealUID who) op = false) ops) :
  CanSeeImage (RealUID who) id (run_image_ops (OpSetImageOwner now id who pub src :: ops) d) = true.
Proof.
  set (op := OpSetImageOwner now id who pub src).
  pose proof (SetImageOwner_referenced now id who pub src d Hw Hwf Hs) as Href.
  destruct (image_step_refines op d Hw Hwf) as [_ Hw1].
  pose proof (image_wf_step op d Hwf) as Hwf1. change (run_image_ops (op :: ops) d) with
    (run_image_ops ops (run_image_op op d)).
  destruct (image_run_refines ops _ Hw1 Hwf1) as (Hrun & Hwf2 & Hw2).
  apply referenced_visible; try done. by eapply referenced_run.
Qed.

(** An image a user pulls for the first time with sudo can be used but is
    hidden from that user's unprivileged listings. *)
Theorem sudo_registration_hidden now id who src d
    (Hw : writes_left d = None) (Hwf : image_wf d) (Hs : IsSudoCommand who = true)
    (Hn : normalizeImageID id ≠ "")
    (Hnew : sp_images (image_abs d) !! normalizeImageID id = None)
    (Hnoref : sp_access (image_abs d) !! (normalizeImageID id, RealUID who) = None) :
  CanUseImage (RealUID who) id (SetImageOwner now id who false src d).2 = true ∧
  CanSeeImage (RealUID who) id (SetImageOwner now id who false src d).2 = false.
Proof.
  set (op := OpSetImageOwner now id who false src).
  change (SetImageOwner now id who false src d).2 with (run_image_op op d).
  pose proof (image_wf_step op d Hwf) as Hwf1.
  destruct (image_step_refines op d Hw Hwf) as [Habs Hw1].
  remember (run_image_op op d) as d1 eqn:Hd1. clear Hd1. simpl in Habs.
  unfold spec_register, spec_reference in Habs. simpl in Habs, Hnew, Hnoref.
  rewrite Hnew, Hnoref in Habs. unfold image_abs in Habs at 1. injection Habs as Hi Ha.
  set (nid := normalizeImageID id) in *.
  assert (∃ r, tbl_lookup nid (images d1) = Some r ∧ i_owner_uid r = RealUID who ∧
               i_privileged_context r = 1%Z) as (r & Hr & Ho & Hp).
  { eexists. rewrite <- lookup_tbl_map, Hi, lookup_insert_eq.
    split; [done|]. simpl. by rewrite (privCtx_sudo who). }
  assert (resolveImageIDInDB id d1 = nid) as Hres by (apply (resolve_exact id r); auto with go).
  split.
  - apply CanUseImage_iff. right. rewrite Hres. split; [done|]. exists r. auto.
  - destruct (CanSeeImage _ _ _) eqn:E; [exfalso|done].
    apply CanSeeImage_iff in E as [_ [(r' & Hr' & Hp' & _)|(a & Hin & Hai & Hau & Hap)]];
      [| |apply Hwf1]; rewrite Hres in *; [congruence|].
    pose proof (elem_of_tbl_map _ a (wf_access_key _ Hwf1) Hin) as Hl.
    assert (key_of a = (nid, RealUID who)) as Hk
      by (cbv [key_of image_access_keyed]; congruence).
    rewrite Hk in Hl.
    assert ((a_privileged_context <$> tbl_map (image_access d1)) !! (nid, RealUID who) = Some 0%Z)
      as Hz by (rewrite lookup_fmap, Hl; simpl; congruence).
    rewrite Ha, lookup_insert_eq, (privCtx_sudo who) in Hz by done. discriminate.
Qed.

(** The recorded owner of an image changes in one case only: a pull of an
    image whose record says it was built takes the record over.  No other
    operation, registration or fault changes the owner of a known image. *)
Theorem image_owner_changes_only_on_build_to_pull op d nid r r'
    (Hw : writes_left d = None) (Hwf : image_wf d)
    (Hr : tbl_lookup nid (images d) = Some r)
    (Hr' : tbl_lookup nid (images (run_image_op op d)) = Some r')
    (Hne : i_owner_uid r' ≠ i_owner_uid r) :
  ∃ now id who pub, op = OpSetImageOwner now id who pub "pull" ∧
    normalizeImageID id = nid ∧ i_source r = "build" ∧ i_source r' = "pull" ∧
    i_owner_uid r' = RealUID who.
Proof.
  destruct (image_step_refines op d Hw Hwf) as [Habs _].
  apply (f_equal sp_images), (f_equal (lookup nid)) in Habs. simpl in Habs.
  rewrite lookup_tbl_map, Hr' in Habs.
  assert (Hm : tbl_map (images d) !! nid = Some r) by by rewrite lookup_tbl_map.
  destruct op as [now id who pub src|id b|id u|id u|id]; simpl in Habs.
  - unfold spec_register in Habs. simpl in Habs.
    destruct (decide (normalizeImageID id = nid)) as [Hid|Hid].
    + rewrite Hid, Hm in Habs. destruct (_ && _) eqn:E; bool_hyps; [|by rewrite Hm in Habs; simplify_eq].
      rewrite lookup_insert_eq in Habs. simplify_eq/=. exists now, id, who, pub. by subst.
    + repeat case_match; rewrite ?lookup_insert_ne, ?Hm in Habs by done; by simplify_eq.
  - destruct (decide (normalizeImageID id = nid)) as [Hid|Hid].
    + rewrite Hid, lookup_alter_eq, Hm in Habs. by simplify_eq/=.
    + rewrite lookup_alter_ne, Hm in Habs by done. by simplify_eq.
  - rewrite Hm in Habs. by simplify_eq.
  - rewrite Hm in Habs. by simplify_eq.
  - destruct (decide (delete_target id d = nid)) as [Hid|Hid].
    + by rewrite Hid, lookup_delete_eq in Habs.
    + rewrite lookup_delete_ne, Hm in Habs by done. by simplify_eq.
Qed.

(** A public image that was registered with sudo is usable by everybody but
    listed for nobody without an unprivileged reference of their own: the
    listing looks at publicity only among the unprivileged records, so the rule
    "a public image is visible to all" does not hold of it. *)
Theorem public_sudo_image_unlisted id uid r d
    (Hup : db_down d = false) (Hwf : image_wf d) (Hn : normalizeImageID id ≠ "")
    (Hr : tbl_lookup (normalizeImageID id) (images d) = Some r)
    (Hpub : i_is_public r = 1%Z) (Hpriv : i_privileged_context r = 1%Z)
    (Href : ∀ a, a ∈ image_access d → a_image_id a = normalizeImageID id → a_user_uid a = uid →
            a_privileged_context a = 1%Z) :
  CanUseImage uid id d = true ∧ CanSeeImage uid id d = false.
Proof.
  pose proof (resolve_exact id r d Hup Hr) as Hres. split.
  - apply CanUseImage_iff. right. rewrite Hres. split; [done|]. exists r. split; [done|]. left. lia.
  - destruct (CanSeeImage uid id d) eqn:E; [exfalso|done].
    apply CanSeeImage_iff in E as [_ [(r' & Hr' & Hp' & _)|(a & Ha & Hi & Hua & Hap)]]; [| |apply Hwf];
      rewrite Hres in *; [congruence|]. specialize (Href a Ha Hi Hua). lia.
Qed.

(** Reference counting: what the counting queries see. *)
Lemma count_excluding_zero nid uid t :
  tbl_count (λ r, refs_image nid r && (a_user_uid r !=z uid)) t = 0 ↔
  ∀ a, a ∈ t → a_image_id a = nid → a_user_uid a = uid.
Proof.
  pose proof (tbl_count_pos (λ r, refs_image nid r && (a_user_uid r !=z uid)) t) as Hp.
  split.
  - intros H0 a Ha Hn. destruct (decide (a_user_uid a = uid)) as [|Hne]; [done|exfalso].
    assert (0 < tbl_count (λ r, refs_image nid r && (a_user_uid r !=z uid)) t); [|lia].
    apply Hp. exists a. split; [done|]. unfold refs_image.
    by rewrite Hn, eqb_str_refl, (proj2 (Z.eqb_neq _ _) Hne).
  - intros Hall. destruct (tbl_count _ t) eqn:E; [done|exfalso].
    destruct (proj1 Hp ltac:(lia)) as (a & Ha & Hpa). unfold refs_image in Hpa.
    apply andb_prop in Hpa as [Hn Hu]. bool_hyps. by apply Hu, Hall.
Qed.

Lemma count_after_delete nid uid t :
  tbl_count (refs_image nid) (tbl_delete (nid, uid) t) =
  tbl_count (λ r, refs_image nid r && (a_user_uid r !=z uid)) t.
Proof.
  unfold tbl_count, tbl_select, tbl_delete, tbl_delete_where.
  induction t as [|a t IH]; [done|]. simpl. unfold has_key at 1. cbv [key_of image_access_keyed].
  destruct (refs_image nid a) eqn:E; unfold refs_image in E; bool_hyps; simpl.
  - rewrite E. destruct (a_user_uid a ==z uid) eqn:F; bool_hyps.
    + rewrite F. by rewrite bool_decide_eq_true_2.
    + rewrite bool_decide_eq_false_2 by congruence. simpl. unfold refs_image at 1.
      rewrite E, eqb_str_refl. simpl. by f_equal.
  - rewrite bool_decide_eq_false_2 by congruence. simpl. unfold refs_image at 1.
    by rewrite (proj2 (String.eqb_neq _ _) E).
Qed.

(** Reference counting decides physical deletion correctly: removing a
    user's reference answers "delete the image" exactly when no other user
    references it, which is what the single-query count excluding the user also
    says; afterwards the user has no reference, and every other user's
    reference is as before. *)
Theorem reference_removal_counts id uid d (Hw : writes_left d = None) :
  let '(res, d') := RemoveUserImageAccess id uid d in
  (res = inr true ↔ ∀ a, a ∈ image_access d → a_image_id a = normalizeImageID id → a_user_uid a = uid) ∧
  (res = inr true ↔ GetImageRefCountExcluding id uid d = inr 0%nat) ∧
  GetImageRefCount id d' = GetImageRefCountExcluding id uid d ∧
  HasUserImageAccess id uid d' = inr false ∧
  (∀ uid', uid' ≠ uid → HasUserImageAccess id uid' d' = HasUserImageAccess id uid' d).
Proof.
  rewrite RemoveUserImageAccess_healthy by done. cbv zeta.
  unfold GetImageRefCount, GetImageRefCountExcluding, HasUserImageAccess, Query.
  destruct d as [c i t n m v p e vf ss sc cf w]. unfold db_down. simpl in *. subst w.
  rewrite count_after_delete, <- count_excluding_zero.
  set (nid := normalizeImageID id). set (k := tbl_count _ t).
  split_and!; try done.
  - destruct k; simpl; naive_solver.
  - destruct k; simpl; naive_solver.
  - destruct (tbl_count (refs_image_uid nid uid) _) eqn:E; [done|exfalso].
    destruct (proj1 (tbl_count_pos (refs_image_uid nid uid) (tbl_delete (nid, uid) t)) ltac:(lia))
      as (a & [_ Hk]%elem_of_tbl_delete & Hp).
    unfold refs_image_uid in Hp. bool_hyps. apply Hk. cbv [key_of image_access_keyed]. congruence.
  - intros uid' Hne. do 2 f_equal. clear k. unfold tbl_count, tbl_select, tbl_delete, tbl_delete_where.
    induction t as [|a t IH]; [done|]. simpl. destruct (has_key (nid, uid) a) eqn:Hk; simpl.
    + rewrite has_key_spec in Hk. apply (f_equal snd) in Hk. simpl in Hk.
      unfold refs_image_uid at 2. rewrite (proj2 (Z.eqb_neq (a_user_uid a) uid')) by congruence.
      by rewrite andb_false_r.
    + destruct (refs_image_uid nid uid' a); simpl; congruence.
Qed.

(** When the database refuses statements, the image checks fail closed: no
    image is visible, none is usable except by UID 0, no owner and no access is
    reported, and every update is an error that changes nothing. *)
Theorem image_checks_fail_closed d (Hd : db_down d = true) uid id op :
  CanSeeImage uid id d = false ∧ CanUseImage uid id d = (uid ==z 0) ∧
  HasImageAccess id uid d = false ∧ GetImageOwner id d = None ∧
  IsImagePublic id d = inl ErrEngine ∧ HasUserImageAccess id uid d = inl ErrEngine ∧
  run_image_op op d = d.
Proof.
  unfold CanSeeImage, CanUseImage, HasImageAccess, GetImageOwner, IsImagePublic, HasUserImageAccess.
  rewrite !resolve_down by done. unfold QueryRow, Query. rewrite Hd. simpl.
  split_and!; try done; [by case_match|].
  destruct op; simpl; unfold SetImageOwner, SetImagePublic, RemoveUserImageAccess, EnsureImageAccess,
    DeleteImage; by rewrite !Exec_down.
Qed.

(** [IsImagePublic] is the one query that does not normalise its argument: for
    an id given with its [sha256:] prefix, as Docker reports it, the row that
    [SetImagePublic] has just published is not found. *)
Lemma IsImagePublic_prefixed_not_found nid r d :
  db_down d = false → keys_unique (images d) → tbl_lookup nid (images d) = Some r →
  tbl_lookup (sha256_prefix +:+ nid) (images d) = None →
  IsImagePublic (sha256_prefix +:+ nid) d = inl ErrNoRows ∧
  IsImagePublic nid d = inr (i_is_public r ==z 1).
Proof.
  intros Hd Hu Hr Hn. unfold IsImagePublic, QueryRow. by rewrite Hd, Hn, Hr.
Qed.

(** ** A concrete database, and the witnesses *)

Module ImageDemo.
Definition alice : CallerIdentity := tcp_identity "alice" 1001 1001 AuthSourceJWT.
Definition bob : CallerIdentity := tcp_identity "bob" 1002 1002 AuthSourceJWT.
(** alice behind sudo. *)
Definition alice_sudo : CallerIdentity := Demo.resolved Demo.sudo_cred Demo.sudo_view.
Definition long : string := "ba6dc382fcdc19e3ba6dc382fcdc19e3ba6dc382fcdc19e3ba6dc382fcdc19e3".
Definition digest : string := sha256_prefix +:+ long.
(** bob built the image; alice then references it. *)
Definition db : OwnershipDB :=
  run_image_ops [OpSetImageOwner 7 digest bob false "build"; OpEnsureImageAccess digest 1001] initSchema.
End ImageDemo.

Lemma initSchema_image_wf : image_wf initSchema.
Proof. split; try apply NoDup_nil_2; by intros r Hr%elem_of_nil. Qed.

Lemma demo_db_wf : image_wf ImageDemo.db.
Proof. apply image_run_refines; [done|apply initSchema_image_wf]. Qed.

Lemma image_tables_refine_spec_witness :
  spec_image_run [OpDeleteImage "ba6dc382fcdc"] (image_abs ImageDemo.db) (mkImageSpec ∅ ∅).
Proof.
  apply (image_tables_refine_spec [OpDeleteImage "ba6dc382fcdc"] ImageDemo.db eq_refl demo_db_wf).
Defined.

Lemma seen_image_is_usable_witness : CanUseImage 1001 "ba6dc382fcdc" ImageDemo.db = true.
Proof. apply (seen_image_is_usable _ _ _ demo_db_wf). vm_compute. reflexivity. Defined.

Lemma registered_image_stays_visible_witness :
  CanSeeImage 1001 ImageDemo.digest
    (run_image_ops
       [OpSetImageOwner 8 ImageDemo.digest ImageDemo.alice false "pull";
        OpSetImageOwner 9 ImageDemo.digest ImageDemo.alice_sudo false "pull";
        OpRemoveUserImageAccess ImageDemo.digest 1002] ImageDemo.db) = true.
Proof.
  apply (registered_image_stays_visible 8 ImageDemo.digest ImageDemo.alice false "pull"
           [OpSetImageOwner 9 ImageDemo.digest ImageDemo.alice_sudo false "pull";
            OpRemoveUserImageAccess ImageDemo.digest 1002] ImageDemo.db eq_refl demo_db_wf eq_refl).
  - discriminate.
  - repeat constructor.
Defined.

Lemma sudo_registration_hidden_witness :
  CanSeeImage 1001 "sha256:0123" (SetImageOwner 8 "sha256:0123" ImageDemo.alice_sudo false "pull" ImageDemo.db).2
  = false.
Proof.
  apply (sudo_registration_hidden 8 "sha256:0123" ImageDemo.alice_sudo "pull" ImageDemo.db eq_refl demo_db_wf);
    try (vm_compute; reflexivity). discriminate.
Defined.

Lemma image_owner_changes_only_on_build_to_pull_witness :
  ∃ now id who pub,
    OpSetImageOwner 8 ImageDemo.long ImageDemo.alice false "pull" = OpSetImageOwner now id who pub "pull" ∧
    normalizeImageID id = ImageDemo.long ∧ RealUID who = 1001%Z.
Proof.
  destruct (image_owner_changes_only_on_build_to_pull
    (OpSetImageOwner 8 ImageDemo.long ImageDemo.alice false "pull") ImageDemo.db ImageDemo.long
    (mkImageRow ImageDemo.long "bob" 1002 1002 0 0 "build" 7)
    (mkImageRow ImageDemo.long "alice" 1001 1001 0 0 "pull" 8)
    eq_refl demo_db_wf) as (now & id & who & pub & ? & ? & _ & _ & ?);
    try (vm_compute; reflexivity); [discriminate|]. exists now, id, who, pub. auto.
Defined.

(** alice pulls with sudo and publishes; bob can run the image and cannot list it. *)
Lemma public_sudo_image_unlisted_witness :
  CanSeeImage 1002 "sha256:0123"
    (run_image_ops [OpSetImageOwner 8 "sha256:0123" ImageDemo.alice_sudo false "pull";
                    OpSetImagePublic "sha256:0123" true] initSchema) = false.
Proof.
  apply (public_sudo_image_unlisted "sha256:0123" 1002
           (mkImageRow "0123" "alice" 1001 1001 1 1 "pull" 8)).
  - reflexivity.
  - apply image_run_refines; [reflexivity|apply initSchema_image_wf].
  - discriminate.
  - vm_compute. reflexivity.
  - reflexivity.
  - reflexivity.
  - intros a Ha. vm_compute in Ha. apply list_elem_of_singleton in Ha as ->. discriminate.
Defined.

Lemma reference_removal_counts_witness :
  RemoveUserImageAccess ImageDemo.digest 1001 ImageDemo.db =
    (inr false, (RemoveUserImageAccess ImageDemo.digest 1001 ImageDemo.db).2) ∧
  HasUserImageAccess ImageDemo.digest 1001 (RemoveUserImageAccess ImageDemo.digest 1001 ImageDemo.db).2
    = inr false.
Proof.
  split; [vm_compute; reflexivity|].
  apply (reference_removal_counts ImageDemo.digest 1001 ImageDemo.db eq_refl).
Defined.

Lemma image_checks_fail_closed_witness :
  CanUseImage 1002 ImageDemo.long (set_writes_left (Some 0) ImageDemo.db) = false.
Proof.
  apply (image_checks_fail_closed (set_writes_left (Some 0) ImageDemo.db) eq_refl 1002
           ImageDemo.long (OpDeleteImage "")).
Defined.
