(* ===== verification/ResourceDB.v ===== *)
(** * ResourceDB: containers, networks, volumes, ports, peers, grants, swarm

    [internal/authz/ownership.go], lines 288-388 and 749-1472: the ownership
    records of every resource other than images.  One Definition per method,
    in the order of the file; then the table effects and the properties: the
    host ports of all users are pairwise distinct, peer records are
    symmetric in the two users, and volumes-from grants. *)

From S2P Require Import Prelude GoStrings Database.

(** ** Containers *)

Definition SetContainerOwner (now : Z) (id : string) (identity : CallerIdentity) (imageID : string)
    (d : OwnershipDB) : error * OwnershipDB :=
  Exec (on_containers (tbl_replace
    (mkContainerRow id (RealUsername identity) (RealUID identity) (RealGID identity) imageID
       (privCtx identity) now))) d.

Definition HasContainerUsingImage (uid : Z) (imageID : string) (d : OwnershipDB) : result bool :=
  match Query (λ d, tbl_count (λ r, (c_owner_uid r ==z uid) && (c_image_id r ==s imageID))
                              (containers d)) d with
  | inl e => inl e
  | inr count => inr (0 <? count)%nat
  end.

Definition GetContainerOwner (id : string) (d : OwnershipDB) : option OwnerInfo :=
  ok_opt (QueryRow (λ d, (λ r, mkOwnerInfo (c_owner_username r) (c_owner_uid r) (c_owner_gid r) "")
                         <$> tbl_lookup id (containers d)) d).

Definition GetContainerOwnerAndPrivCtx (id : string) (d : OwnershipDB) : option (Z * Z) :=
  ok_opt (QueryRow (λ d, (λ r, (c_owner_uid r, c_privileged_context r))
                         <$> tbl_lookup id (containers d)) d).

Definition DeleteContainer (id : string) (d : OwnershipDB) : error * OwnershipDB :=
  Exec (on_containers (tbl_delete id)) d.

Definition CountContainersByOwner (uid : Z) (d : OwnershipDB) : result nat :=
  Query (λ d, tbl_count (λ r, c_owner_uid r ==z uid) (containers d)) d.

Definition GetContainerIDsByOwner (uid : Z) (d : OwnershipDB) : result (list string) :=
  Query (λ d, c_id <$> tbl_select (λ r, (c_owner_uid r ==z uid) && (c_privileged_context r ==z 0))
                                  (containers d)) d.

(** ** Networks *)

Definition SetNetworkOwner (now : Z) (networkID name : string) (identity : CallerIdentity)
    (d : OwnershipDB) : error * OwnershipDB :=
  Exec (on_networks (tbl_replace
    (mkNetworkRow networkID name (RealUID identity) (RealUsername identity) 0 (privCtx identity) now))) d.

(** The column left out takes its default, 0. *)
Definition SetManagedNetworkOwner (now : Z) (networkID name : string) (uid : Z) (username : string)
    (d : OwnershipDB) : error * OwnershipDB :=
  Exec (on_networks (tbl_replace (mkNetworkRow networkID name uid username 0 0 now))) d.

Definition GetNetworkIDByName (name : string) (d : OwnershipDB) : option string :=
  ok_opt (QueryRow (λ d, n_network_id <$> find_first (λ r, n_name r ==s name) (networks d)) d).

Definition GetNetworkPrivCtxByName (name : string) (d : OwnershipDB) : option Z :=
  ok_opt (QueryRow (λ d, n_privileged_context <$> find_first (λ r, n_name r ==s name) (networks d)) d).

Definition GetNetworkOwner (networkID : string) (d : OwnershipDB) : option OwnerInfo :=
  ok_opt (QueryRow (λ d, (λ r, mkOwnerInfo (n_owner_username r) (n_owner_uid r) 0 "")
                         <$> tbl_lookup networkID (networks d)) d).

Definition DeleteNetwork (networkID : string) (d : OwnershipDB) : error * OwnershipDB :=
  let '(err, d1) := Exec (on_networks (tbl_delete networkID)) d in
  match err with
  | Some e => (Some e, d1)
  | None => Exec (on_network_access (tbl_delete_where (λ r, na_network_id r ==s networkID))) d1
  end.

Definition set_shared (r : NetworkRow) : NetworkRow :=
  mkNetworkRow (n_network_id r) (n_name r) (n_owner_uid r) (n_owner_username r) 1
    (n_privileged_context r) (n_created_at r).

Fixpoint grant_network (networkID : string) (allowedUIDs : list Z) (d : OwnershipDB)
    : error * OwnershipDB :=
  match allowedUIDs with
  | [] => (None, d)
  | uid :: rest =>
    let '(err, d1) := Exec (on_network_access (tbl_insert_ignore (mkNetworkAccessRow networkID uid))) d in
    match err with
    | Some e => (Some e, d1)
    | None => grant_network networkID rest d1
    end
  end.

Definition SetNetworkShared (networkID : string) (allowedUIDs : list Z) (d : OwnershipDB)
    : error * OwnershipDB :=
  let '(err, d1) := Exec (on_networks (tbl_update networkID set_shared)) d in
  match err with
  | Some e => (Some e, d1)
  | None => grant_network networkID allowedUIDs d1
  end.

Definition CanUserAccessNetwork (networkID : string) (uid : Z) (d : OwnershipDB) : result bool :=
  let owned := match GetNetworkOwner networkID d with Some o => oi_UID o ==z uid | None => false end in
  if owned then inr true else
  match Query (λ d, tbl_count (λ r, (na_network_id r ==s networkID) && (na_user_uid r ==z uid))
                              (network_access d)) d with
  | inl e => inl e
  | inr count => inr (0 <? count)%nat
  end.

Definition GetNetworkIDsByOwner (uid : Z) (d : OwnershipDB) : result (list string) :=
  Query (λ d, n_network_id <$> tbl_select (λ r, (n_owner_uid r ==z uid) && (n_privileged_context r ==z 0))
                                          (networks d)) d.

Definition GetAccessibleNetworkIDs (uid : Z) (d : OwnershipDB) : result (list string) :=
  Query (λ d, remove_dups
    ((n_network_id <$> tbl_select (λ r, (n_owner_uid r ==z uid) && (n_privileged_context r ==z 0)) (networks d)) ++
     (na_network_id <$> tbl_select (λ r, na_user_uid r ==z uid) (network_access d)))) d.

(** ** Volumes *)

Definition SetVolumeOwner (now : Z) (name : string) (identity : CallerIdentity) (d : OwnershipDB)
    : error * OwnershipDB :=
  Exec (on_volumes (tbl_replace
    (mkVolumeRow name (RealUID identity) (RealUsername identity) (privCtx identity) now))) d.

Definition GetVolumeOwner (name : string) (d : OwnershipDB) : option OwnerInfo :=
  ok_opt (QueryRow (λ d, (λ r, mkOwnerInfo (v_owner_username r) (v_owner_uid r) 0 "")
                         <$> tbl_lookup name (volumes d)) d).

Definition GetVolumePrivCtx (name : string) (d : OwnershipDB) : option Z :=
  ok_opt (QueryRow (λ d, v_privileged_context <$> tbl_lookup name (volumes d)) d).

Definition DeleteVolume (name : string) (d : OwnershipDB) : error * OwnershipDB :=
  Exec (on_volumes (tbl_delete name)) d.

Definition GetAllVolumeNames (d : OwnershipDB) : result (list string) :=
  Query (λ d, v_name <$> volumes d) d.

Definition GetVolumeNamesByOwner (uid : Z) (d : OwnershipDB) : result (list string) :=
  Query (λ d, v_name <$> tbl_select (λ r, (v_owner_uid r ==z uid) && (v_privileged_context r ==z 0))
                                    (volumes d)) d.

(** ** Host ports *)

Record PortMappingInfo := mkPortMappingInfo {
  pm_HostPort : Z; pm_Protocol : string; pm_ContainerPort : Z; pm_ContainerID : string;
  pm_OwnerUID : Z; pm_OwnerUsername : string;
}.

Definition port_info (r : PortRow) : PortMappingInfo :=
  mkPortMappingInfo (p_host_port r) (p_protocol r) (p_container_port r) (p_container_id r)
    (p_owner_uid r) (p_owner_username r).

Definition port_row (now : Z) (m : PortMappingInfo) : PortRow :=
  mkPortRow (pm_HostPort m) (pm_Protocol m) (pm_ContainerPort m) (pm_ContainerID m)
    (pm_OwnerUID m) (pm_OwnerUsername m) now.

(** INSERT: the engine refuses a row that breaks the UNIQUE constraint. *)
Definition InsertPort (r : PortRow) (d : OwnershipDB) : error * OwnershipDB :=
  if db_down d then (Some ErrEngine, d) else
  match tbl_lookup (key_of r) (port_mappings d) with
  | Some _ => (Some ErrUnique, d)
  | None => Exec (on_port_mappings (λ t, t ++ [r])) d
  end.

(** Whatever made the INSERT fail, the error reports the row now stored for the
    port, with zero values when there is none. *)
Fixpoint AddPortMappings (now : Z) (mappings : list PortMappingInfo) (d : OwnershipDB)
    : error * OwnershipDB :=
  match mappings with
  | [] => (None, d)
  | m :: rest =>
    let '(err, d1) := InsertPort (port_row now m) d in
    match err with
    | None => AddPortMappings now rest d1
    | Some _ =>
      let '(existing_container, existing_uid, existing_user) :=
        scan_or ("", 0%Z, "")
          (QueryRow (λ d, (λ r, (p_container_id r, p_owner_uid r, p_owner_username r))
             <$> tbl_lookup (pm_HostPort m, pm_Protocol m) (port_mappings d)) d1) in
      (Some (PortConflictError (pm_HostPort m) (pm_Protocol m) existing_container existing_user
               existing_uid), d1)
    end
  end.

Definition ReleasePortMappings (containerID : string) (d : OwnershipDB) : error * OwnershipDB :=
  Exec (on_port_mappings (tbl_delete_where (λ r, p_container_id r ==s containerID))) d.

#[export] Instance port_order_dec : RelDecision (λ a b : PortRow, (p_host_port a <= p_host_port b)%Z).
Proof. intros a b. apply _. Defined.

Definition GetPortMappingsByOwner (uid : Z) (d : OwnershipDB) : result (list PortMappingInfo) :=
  Query (λ d, port_info <$> merge_sort (λ a b, (p_host_port a <= p_host_port b)%Z)
    (tbl_select (λ r, p_owner_uid r ==z uid) (port_mappings d))) d.

Definition GetPortMapping (hostPort : Z) (protocol : string) (d : OwnershipDB) : option PortMappingInfo :=
  ok_opt (QueryRow (λ d, port_info <$> tbl_lookup (hostPort, protocol) (port_mappings d)) d).

Definition truncateID (id : string) : string :=
  if (12 <? slen id)%nat then str_take 12 id else id.

Definition PortConflictError_Error (hostPort : Z) (protocol container owner : string) (uid : Z) : string :=
  "port " +:+ Itoa hostPort +:+ "/" +:+ protocol +:+ " already in use by container "
  +:+ truncateID container +:+ " (owner: " +:+ owner +:+ " uid=" +:+ Itoa uid +:+ ")".

(** ** Network peers *)

Record NetworkPeerInfo := mkNetworkPeerInfo {
  UidA : Z; UidB : Z; PeerNetworkID : string; ContainerIDA : string; ContainerIDB : string;
}.

Definition peer_info (r : PeerRow) : NetworkPeerInfo :=
  mkNetworkPeerInfo (pe_uid_a r) (pe_uid_b r) (pe_peer_network_id r)
    (pe_container_id_a r) (pe_container_id_b r).

Definition IsUserLevel (p : NetworkPeerInfo) : bool :=
  (ContainerIDA p ==s "") && (ContainerIDB p ==s "").

(** The smaller UID comes first, with its container. *)
Definition peer_norm (uidA uidB : Z) (containerIDA containerIDB : string)
    : Z * Z * string * string :=
  if (uidB <? uidA)%Z then (uidB, uidA, containerIDB, containerIDA)
  else (uidA, uidB, containerIDA, containerIDB).

Definition AddNetworkPeer (now uidA uidB : Z) (peerNetworkID containerIDA containerIDB : string)
    (d : OwnershipDB) : error * OwnershipDB :=
  let '(a, b, ca, cb) := peer_norm uidA uidB containerIDA containerIDB in
  Exec (on_network_peers (tbl_replace (mkPeerRow a b peerNetworkID ca cb now))) d.

Definition peer_pair (a b : Z) (r : PeerRow) : bool := (pe_uid_a r ==z a) && (pe_uid_b r ==z b).

(** The rows a removal is about: all of the pair's, or one. *)
Definition peer_match (a b : Z) (ca cb : string) (r : PeerRow) : bool :=
  if (ca ==s "") && (cb ==s "") then peer_pair a b r
  else peer_pair a b r && (pe_container_id_a r ==s ca) && (pe_container_id_b r ==s cb).

(** The third component is Go's [err]; the ids are returned with it. *)
Definition RemoveNetworkPeer (uidA uidB : Z) (containerIDA containerIDB : string) (d : OwnershipDB)
    : list string * error * OwnershipDB :=
  let '(a, b, ca, cb) := peer_norm uidA uidB containerIDA containerIDB in
  match Query (λ d, pe_peer_network_id <$> tbl_select (peer_match a b ca cb) (network_peers d)) d with
  | inl e => ([], Some e, d)
  | inr ids =>
    let '(err, d1) := Exec (on_network_peers (tbl_delete_where (peer_match a b ca cb))) d in
    (ids, err, d1)
  end.

Definition GetNetworkPeer (uidA uidB : Z) (d : OwnershipDB) : option NetworkPeerInfo :=
  let '(a, b, _, _) := peer_norm uidA uidB "" "" in
  ok_opt (QueryRow (λ d, peer_info <$> tbl_lookup (a, b, "", "") (network_peers d)) d).

Definition GetContainerPeer (uidA uidB : Z) (containerIDA containerIDB : string) (d : OwnershipDB)
    : option NetworkPeerInfo :=
  let '(a, b, ca, cb) := peer_norm uidA uidB containerIDA containerIDB in
  ok_opt (QueryRow (λ d, peer_info <$> tbl_lookup (a, b, ca, cb) (network_peers d)) d).

Definition GetAllNetworkPeers (d : OwnershipDB) : result (list NetworkPeerInfo) :=
  Query (λ d, peer_info <$> network_peers d) d.

Definition GetNetworkPeersByContainer (containerID : string) (d : OwnershipDB)
    : result (list NetworkPeerInfo) :=
  Query (λ d, peer_info <$> tbl_select (λ r, (pe_container_id_a r ==s containerID)
                                          || (pe_container_id_b r ==s containerID)) (network_peers d)) d.

Definition GetNetworkPeersByUID (uid : Z) (d : OwnershipDB) : result (list NetworkPeerInfo) :=
  Query (λ d, peer_info <$> tbl_select (λ r, (pe_uid_a r ==z uid) || (pe_uid_b r ==z uid))
                                       (network_peers d)) d.

(** ** volumes-from grants *)

(** The grantee that stands for every user, and the argument of a revocation
    that stands for every grant of the container. *)
Definition all_users : Z := -1.
Definition all_grants : Z := -999.

Definition GrantVolumesFrom (now : Z) (containerID : string) (granteeUID grantedBy : Z) (d : OwnershipDB)
    : error * OwnershipDB :=
  Exec (on_volumes_from_access (tbl_replace
    (mkVolumesFromRow containerID granteeUID grantedBy now))) d.

Definition RevokeVolumesFrom (containerID : string) (granteeUID : Z) (d : OwnershipDB)
    : error * OwnershipDB :=
  if granteeUID ==z all_grants
  then Exec (on_volumes_from_access (tbl_delete_where (λ r, vf_container_id r ==s containerID))) d
  else Exec (on_volumes_from_access (tbl_delete (containerID, granteeUID))) d.

Definition CanVolumesFrom (containerID : string) (uid : Z) (d : OwnershipDB) : result bool :=
  match Query (λ d, tbl_count (λ r, (vf_container_id r ==s containerID)
                 && ((vf_grantee_uid r ==z uid) || (vf_grantee_uid r ==z all_users)))
                 (volumes_from_access d)) d with
  | inl e => inl e
  | inr count => inr (0 <? count)%nat
  end.

#[export] Instance grant_order_dec : RelDecision (λ a b : VolumesFromRow, (vf_created_at b <= vf_created_at a)%Z).
Proof. intros a b. apply _. Defined.

Definition ListVolumesFromGrants (containerID : string) (d : OwnershipDB) : result (list VolumesFromRow) :=
  Query (λ d, merge_sort (λ a b, (vf_created_at b <= vf_created_at a)%Z)
    (if containerID !=s ""
     then tbl_select (λ r, vf_container_id r ==s containerID) (volumes_from_access d)
     else volumes_from_access d)) d.

(** ** Swarm services, secrets and configs *)

Definition swarm_row (now : Z) (id name : string) (identity : CallerIdentity) : SwarmRow :=
  mkSwarmRow id name (RealUID identity) (RealUsername identity) now.
Definition swarm_owner (r : SwarmRow) : OwnerInfo := mkOwnerInfo (s_owner_username r) (s_owner_uid r) 0 "".

Definition SetServiceOwner now serviceID name identity (d : OwnershipDB) : error * OwnershipDB :=
  Exec (on_swarm_services (tbl_replace (swarm_row now serviceID name identity))) d.
Definition GetServiceOwner (serviceID : string) (d : OwnershipDB) : option OwnerInfo :=
  ok_opt (QueryRow (λ d, swarm_owner <$> tbl_lookup serviceID (swarm_services d)) d).
Definition DeleteService (serviceID : string) (d : OwnershipDB) : error * OwnershipDB :=
  Exec (on_swarm_services (tbl_delete serviceID)) d.
Definition GetServiceIDsByOwner (uid : Z) (d : OwnershipDB) : result (list string) :=
  Query (λ d, s_id <$> tbl_select (λ r, s_owner_uid r ==z uid) (swarm_services d)) d.

Definition SetSecretOwner now secretID name identity (d : OwnershipDB) : error * OwnershipDB :=
  Exec (on_swarm_secrets (tbl_replace (swarm_row now secretID name identity))) d.
Definition GetSecretOwner (secretID : string) (d : OwnershipDB) : option OwnerInfo :=
  ok_opt (QueryRow (λ d, swarm_owner <$> tbl_lookup secretID (swarm_secrets d)) d).
Definition DeleteSecret (secretID : string) (d : OwnershipDB) : error * OwnershipDB :=
  Exec (on_swarm_secrets (tbl_delete secretID)) d.
Definition GetSecretIDsByOwner (uid : Z) (d : OwnershipDB) : result (list string) :=
  Query (λ d, s_id <$> tbl_select (λ r, s_owner_uid r ==z uid) (swarm_secrets d)) d.

Definition SetConfigOwner now configID name identity (d : OwnershipDB) : error * OwnershipDB :=
  Exec (on_swarm_configs (tbl_replace (swarm_row now configID name identity))) d.
Definition GetConfigOwner (configID : string) (d : OwnershipDB) : option OwnerInfo :=
  ok_opt (QueryRow (λ d, swarm_owner <$> tbl_lookup configID (swarm_configs d)) d).
Definition DeleteConfig (configID : string) (d : OwnershipDB) : error * OwnershipDB :=
  Exec (on_swarm_configs (tbl_delete configID)) d.
Definition GetConfigIDsByOwner (uid : Z) (d : OwnershipDB) : result (list string) :=
  Query (λ d, s_id <$> tbl_select (λ r, s_owner_uid r ==z uid) (swarm_configs d)) d.

(** ** Properties: host ports *)

Lemma InsertPort_effect r d :
  match InsertPort r d with
  | (None, d') => tbl_lookup (key_of r) (port_mappings d) = None ∧
                  port_mappings d' = port_mappings d ++ [r]
  | (Some _, d') => d' = d ∧ (db_down d = false → is_Some (tbl_lookup (key_of r) (port_mappings d)))
  end.
Proof.
  unfold InsertPort. destruct (db_down d) eqn:Hd; [done|].
  destruct (tbl_lookup (key_of r) (port_mappings d)) eqn:E; [eauto|].
  destruct (Exec_cases (on_port_mappings (λ t, t ++ [r])) d) as [[_ Hw]|(w & -> & _)].
  - unfold db_down in Hd. by rewrite Hw in Hd.
  - destruct d. done.
Qed.

Lemma AddPortMappings_effect now ms d :
  match AddPortMappings now ms d with
  | (None, d') => port_mappings d' = port_mappings d ++ (port_row now <$> ms)
  | (Some e, d') => ∃ done m rest, ms = done ++ m :: rest ∧
      port_mappings d' = port_mappings d ++ (port_row now <$> done) ∧
      (db_down d' = false → ∃ r, tbl_lookup (pm_HostPort m, pm_Protocol m) (port_mappings d') = Some r ∧
         e = PortConflictError (pm_HostPort m) (pm_Protocol m) (p_container_id r)
               (p_owner_username r) (p_owner_uid r))
  end.
Proof.
  revert d. induction ms as [|m ms IH]; intros d; simpl; [by rewrite app_nil_r|].
  pose proof (InsertPort_effect (port_row now m) d) as Hi.
  destruct (InsertPort (port_row now m) d) as [[e|] d1].
  - destruct Hi as [-> Hl]. destruct (scan_or _ _) as [[c u] n] eqn:Hscan. exists [], m, ms.
    split; [done|]. split; [by rewrite app_nil_r|]. intros Hd.
    destruct (Hl Hd) as [r Hr]. exists r.
    change (key_of (port_row now m)) with (pm_HostPort m, pm_Protocol m) in Hr.
    split; [done|]. unfold QueryRow in Hscan. rewrite Hd, Hr in Hscan. by simplify_eq/=.
  - destruct Hi as [_ Hp]. specialize (IH d1). destruct (AddPortMappings now ms d1) as [[e|] d'].
    + destruct IH as (dn & m' & rest & -> & Hp' & He). exists (m :: dn), m', rest.
      split; [done|]. split; [|done]. by rewrite Hp', Hp, <- app_assoc.
    + by rewrite IH, Hp, <- app_assoc.
Qed.

Lemma AddPortMappings_unique now ms d :
  keys_unique (port_mappings d) → keys_unique (port_mappings (AddPortMappings now ms d).2).
Proof.
  revert d. induction ms as [|m ms IH]; intros d Hu; simpl; [done|].
  pose proof (InsertPort_effect (port_row now m) d) as Hi.
  destruct (InsertPort (port_row now m) d) as [[e|] d1].
  - destruct Hi as [-> _]. by destruct (scan_or _ _) as [[c u] n].
  - apply IH. destruct Hi as [Hl ->]. by apply keys_unique_snoc.
Qed.

(** A host port is never recorded twice.  Recording a container's ports keeps
    (host port, protocol) unique; the records already there are untouched.  On
    success every mapping is stored, in order; otherwise exactly the mappings
    before the refused one are stored, and, while the database answers, the
    error names the container and the user that hold the refused port. *)
Theorem port_mappings_exclusive now ms d (Hu : keys_unique (port_mappings d)) :
  keys_unique (port_mappings (AddPortMappings now ms d).2) ∧
  match AddPortMappings now ms d with
  | (None, d') => port_mappings d' = port_mappings d ++ (port_row now <$> ms)
  | (Some e, d') => ∃ stored m rest, ms = stored ++ m :: rest ∧
      port_mappings d' = port_mappings d ++ (port_row now <$> stored) ∧
      (db_down d' = false → ∃ r, tbl_lookup (pm_HostPort m, pm_Protocol m) (port_mappings d') = Some r ∧
         e = PortConflictError (pm_HostPort m) (pm_Protocol m) (p_container_id r)
               (p_owner_username r) (p_owner_uid r))
  end.
Proof. split; [by apply AddPortMappings_unique|apply AddPortMappings_effect]. Qed.

(** ** Properties: peers *)

Lemma peer_norm_sym a b ca cb : a ≠ b → peer_norm b a cb ca = peer_norm a b ca cb.
Proof.
  intros Hne. unfold peer_norm. destruct (b <? a)%Z eqn:E1, (a <? b)%Z eqn:E2; bool_hyps; try done; lia.
Qed.

Lemma peer_norm_pair a b ca cb ca' cb' :
  (peer_norm a b ca cb).1.1 = (peer_norm a b ca' cb').1.1.
Proof. unfold peer_norm. by case_match. Qed.

Lemma peer_norm_ordered a b ca cb : ((peer_norm a b ca cb).1.1.1 <= (peer_norm a b ca cb).1.1.2)%Z.
Proof. unfold peer_norm. case_match eqn:E; bool_hyps; simpl; lia. Qed.

Lemma peer_match_all a b r : peer_match a b "" "" r = peer_pair a b r.
Proof. done. Qed.

Lemma peer_norm_user_level a b : (peer_norm a b "" "").1.2 = "" ∧ (peer_norm a b "" "").2 = "".
Proof. unfold peer_norm. by case_match. Qed.

(** Peer records do not depend on the order the two users are given in.
    What an administrator connects as (A with container a, B with container b)
    is found as (B with b, A with a), with the same shared network; and removing
    the pair at user level, in either order, removes every record of the two
    users, container-level ones included, and reports their networks. *)
Theorem peers_symmetric now uidA uidB net ca cb d
    (Hw : writes_left d = None) (Hne : uidA ≠ uidB) :
  let d1 := (AddNetworkPeer now uidA uidB net ca cb d).2 in
  let '(ids, err, d2) := RemoveNetworkPeer uidB uidA "" "" d1 in
  PeerNetworkID <$> GetContainerPeer uidB uidA cb ca d1 = Some net ∧
  GetContainerPeer uidB uidA cb ca d1 = GetContainerPeer uidA uidB ca cb d1 ∧
  net ∈ ids ∧ err = None ∧
  (∀ ca' cb', GetContainerPeer uidA uidB ca' cb' d2 = None) ∧
  GetNetworkPeer uidA uidB d2 = None.
Proof.
  destruct (peer_norm uidA uidB "" "") as [[[a b] x] y] eqn:E0.
  assert (∀ ca cb, ∃ ca' cb', peer_norm uidA uidB ca cb = (a, b, ca', cb')) as Hn.
  { intros ca' cb'. pose proof (peer_norm_pair uidA uidB ca' cb' "" "") as Hp. rewrite E0 in Hp.
    destruct (peer_norm uidA uidB ca' cb') as [[[? ?] ?] ?]. simpl in Hp. simplify_eq. eauto. }
  destruct (peer_norm_user_level uidA uidB) as [Hx Hy]. rewrite E0 in Hx, Hy. simpl in Hx, Hy. subst x y.
  unfold AddNetworkPeer, RemoveNetworkPeer, GetContainerPeer, GetNetworkPeer.
  rewrite (peer_norm_sym uidA uidB "" ""), (peer_norm_sym uidA uidB ca cb), E0 by done.
  destruct (Hn ca cb) as (ca1 & cb1 & ->). rewrite Exec_healthy by done.
  destruct d as [c i t n m v p e vf ss sc cf w]. simpl in Hw. subst w. unfold Query. simpl.
  unfold QueryRow. simpl.
  set (r := mkPeerRow a b net ca1 cb1 now).
  change (a, b, ca1, cb1) with (key_of r). rewrite tbl_lookup_replace_eq. simpl.
  assert (∀ k, k.1.1 = (a, b) →
    tbl_lookup k (tbl_delete_where (peer_match a b "" "") (tbl_replace r e)) = None) as Hnone.
  { intros k Hk. apply tbl_lookup_None. intros x [_ Hx]%elem_of_tbl_delete_where <-.
    unfold peer_match, peer_pair in Hx. simpl in Hx, Hk. injection Hk as H1 H2.
    by rewrite H1, H2, !Z.eqb_refl in Hx. }
  split_and!; try done.
  - apply list_elem_of_fmap. exists r. split; [done|]. apply elem_of_tbl_select. split.
    + apply elem_of_tbl_replace. by left.
    + rewrite peer_match_all. unfold peer_pair. simpl. by rewrite !Z.eqb_refl.
  - intros ca' cb'. destruct (Hn ca' cb') as (ca2 & cb2 & ->). by rewrite Hnone.
  - by rewrite Hnone.
Qed.

(** ** Properties: volumes-from *)

Lemma CanVolumesFrom_iff cid uid d :
  db_down d = false →
  CanVolumesFrom cid uid d = inr true ↔
  ∃ g, (g = uid ∨ g = all_users) ∧ is_Some (tbl_map (volumes_from_access d) !! (cid, g)).
Proof.
  intros Hd. unfold CanVolumesFrom, Query. rewrite Hd.
  trans (0 < tbl_count (λ r, (vf_container_id r ==s cid)
          && ((vf_grantee_uid r ==z uid) || (vf_grantee_uid r ==z all_users))) (volumes_from_access d)).
  { rewrite <- Nat.ltb_lt. split; [by intros [=]|by intros ->]. }
  rewrite tbl_count_pos. split.
  - intros (r & Hr & Hp). bool_hyps. exists (vf_grantee_uid r). split.
    + apply orb_true_iff in H0. by rewrite !Z.eqb_eq in H0.
    + rewrite lookup_tbl_map. destruct (tbl_lookup _ _) eqn:E; [eauto|].
      rewrite tbl_lookup_None in E. destruct (E r Hr). cbv [key_of volumes_from_keyed]. congruence.
  - intros (g & Hg & r & [Hr Hk]%tbl_map_elem). cbv [key_of volumes_from_keyed] in Hk. simplify_eq.
    exists r. split; [done|]. rewrite eqb_str_refl. simpl. by rewrite orb_true_iff, !Z.eqb_eq.
Qed.

Lemma GrantVolumesFrom_map now cid g by_ d :
  writes_left d = None →
  let d' := (GrantVolumesFrom now cid g by_ d).2 in
  tbl_map (volumes_from_access d') = <[(cid, g) := mkVolumesFromRow cid g by_ now]> (tbl_map (volumes_from_access d))
  ∧ db_down d' = false.
Proof.
  intros Hw. unfold GrantVolumesFrom. rewrite Exec_healthy by done. destruct d. simpl in *. subst.
  split; [|done]. by rewrite tbl_map_replace.
Qed.

Lemma RevokeVolumesFrom_lookup cid g d cid' g' :
  writes_left d = None →
  let d' := (RevokeVolumesFrom cid g d).2 in
  tbl_map (volumes_from_access d') !! (cid', g') =
    (if (cid' ==s cid) && ((g ==z all_grants) || (g' ==z g)) then None
     else tbl_map (volumes_from_access d) !! (cid', g'))
  ∧ db_down d' = false.
Proof.
  intros Hw. unfold RevokeVolumesFrom.
  destruct (g ==z all_grants) eqn:Eg; rewrite Exec_healthy by done; destruct d; simpl in *; subst;
    (split; [|done]).
  - rewrite !lookup_tbl_map, andb_true_r. destruct (cid' ==s cid) eqn:Ec; bool_hyps.
    + apply tbl_lookup_None. intros r [_ Hr]%elem_of_tbl_delete_where Hk. bool_hyps.
      cbv [key_of volumes_from_keyed] in Hk. congruence.
    + apply tbl_lookup_delete_where_ne. intros r Hk. cbv [key_of volumes_from_keyed] in Hk.
      apply String.eqb_neq. congruence.
  - rewrite tbl_map_delete. destruct (cid' ==s cid) eqn:Ec, (g' ==z g) eqn:Eg'; bool_hyps; simpl;
      [subst; by rewrite lookup_delete_eq|rewrite lookup_delete_ne by congruence; done..].
Qed.

(** Volumes-from grants.  After a grant exactly the grantee (everybody, for
    the grantee -1) gains the right to that container; after a revocation the
    users that keep it are those with another grant on the container, their own
    or everybody's; the revocation -999 leaves nobody; the rights to other
    containers never change. *)
Theorem volumes_from_grants now cid g by_ cid' uid d (Hw : writes_left d = None) :
  (CanVolumesFrom cid' uid (GrantVolumesFrom now cid g by_ d).2 = inr true ↔
     CanVolumesFrom cid' uid d = inr true ∨ (cid' = cid ∧ (g = uid ∨ g = all_users))) ∧
  (CanVolumesFrom cid' uid (RevokeVolumesFrom cid g d).2 = inr true ↔
     ∃ g', (g' = uid ∨ g' = all_users) ∧ is_Some (tbl_map (volumes_from_access d) !! (cid', g')) ∧
           (cid' = cid → g ≠ all_grants ∧ g' ≠ g)).
Proof.
  split.
  - destruct (GrantVolumesFrom_map now cid g by_ d Hw) as [Hm Hd].
    rewrite !CanVolumesFrom_iff, Hm by auto with go. setoid_rewrite lookup_insert_is_Some.
    split.
    + intros (g' & Hg & [[= <- <-]|[_ Hs]]); [by right|left; eauto].
    + intros [(g' & Hg & Hs)|[-> Hg]]; [|eauto].
      exists g'. split; [done|]. destruct (decide ((cid, g) = (cid', g'))); auto.
  - destruct (RevokeVolumesFrom_lookup cid g d cid' 0 Hw) as [_ Hd].
    rewrite CanVolumesFrom_iff by done. apply exist_proper. intros g'.
    destruct (RevokeVolumesFrom_lookup cid g d cid' g' Hw) as [-> _].
    destruct (cid' ==s cid) eqn:Ec, (g ==z all_grants) eqn:Eg, (g' ==z g) eqn:Eg'; bool_hyps; simpl;
      unfold is_Some; naive_solver.
Qed.

(** ** Properties: networks *)

Definition grants_net (networkID : string) (uid : Z) (r : NetworkAccessRow) : bool :=
  (na_network_id r ==s networkID) && (na_user_uid r ==z uid).

Lemma CanUserAccessNetwork_iff net uid d :
  db_down d = false →
  CanUserAccessNetwork net uid d = inr true ↔
  (∃ r, tbl_lookup net (networks d) = Some r ∧ n_owner_uid r = uid) ∨
  is_Some (tbl_map (network_access d) !! (net, uid)).
Proof.
  intros Hd. unfold CanUserAccessNetwork, GetNetworkOwner, QueryRow, Query. rewrite Hd.
  assert (0 < tbl_count (λ r, (na_network_id r ==s net) && (na_user_uid r ==z uid)) (network_access d) ↔
    is_Some (tbl_map (network_access d) !! (net, uid))) as Hc.
  { rewrite tbl_count_pos. split.
    - intros (r & Hr & Hp). bool_hyps. rewrite lookup_tbl_map. destruct (tbl_lookup _ _) eqn:E; [eauto|].
      rewrite tbl_lookup_None in E. destruct (E r Hr). cbv [key_of network_access_keyed]. congruence.
    - intros (r & [Hr Hk]%tbl_map_elem). cbv [key_of network_access_keyed] in Hk. simplify_eq.
      exists r. split; [done|]. by rewrite eqb_str_refl, Z.eqb_refl. }
  set (n := tbl_count _ _) in *.
  assert ((inr (0 <? n)%nat : result bool) = inr true ↔ is_Some (tbl_map (network_access d) !! (net, uid))) as Hc'.
  { rewrite <- Hc, <- Nat.ltb_lt. split; [by intros [=]|by intros ->]. }
  clearbody n. clear Hc. destruct (tbl_lookup net (networks d)) as [r|]; simpl.
  - destruct (n_owner_uid r ==z uid) eqn:E; bool_hyps; [naive_solver|].
    rewrite Hc'. naive_solver.
  - rewrite Hc'. naive_solver.
Qed.

Lemma grant_network_healthy net uids d :
  writes_left d = None →
  let '(err, d') := grant_network net uids d in
  err = None ∧ writes_left d' = None ∧ networks d' = networks d ∧
  ∀ k, is_Some (tbl_map (network_access d') !! k) ↔
       is_Some (tbl_map (network_access d) !! k) ∨ (k.1 = net ∧ k.2 ∈ uids).
Proof.
  revert d. induction uids as [|u uids IH]; intros d Hw; simpl.
  { split_and!; try done. intros k. rewrite elem_of_nil. tauto. }
  rewrite Exec_healthy by done. simpl.
  specialize (IH (on_network_access (tbl_insert_ignore (mkNetworkAccessRow net u)) d)).
  destruct (grant_network _ _ _) as [err d']. destruct d as [c i t n m v p e vf ss sc cf w].
  simpl in *. destruct IH as (-> & ? & ? & Hk); [done|]. split_and!; try done. intros [n' u'].
  rewrite Hk, tbl_map_insert_ignore. cbv [key_of network_access_keyed]. simpl.
  rewrite elem_of_cons. destruct (tbl_map m !! (net, u)) eqn:E.
  - destruct (decide ((n', u') = (net, u))) as [[= -> ->]|]; naive_solver.
  - rewrite lookup_insert_is_Some. destruct (decide ((n', u') = (net, u))) as [[= -> ->]|]; naive_solver.
Qed.

(** Sharing a network and deleting it.  After [SetNetworkShared] succeeds, a
    user may join the network exactly when the user could before or was listed;
    after [DeleteNetwork] nobody may, the former owner and the users it was
    shared with included; the other networks are not affected by either. *)
Theorem network_access_lifecycle net uids net' uid d (Hw : writes_left d = None) :
  (CanUserAccessNetwork net' uid (SetNetworkShared net uids d).2 = inr true ↔
     CanUserAccessNetwork net' uid d = inr true ∨ (net' = net ∧ uid ∈ uids)) ∧
  (CanUserAccessNetwork net' uid (DeleteNetwork net d).2 = inr true ↔
     net' ≠ net ∧ CanUserAccessNetwork net' uid d = inr true).
Proof.
  assert (Hd := healthy_up _ Hw). split.
  - unfold SetNetworkShared. rewrite Exec_healthy by done.
    pose proof (grant_network_healthy net uids (on_networks (tbl_update net set_shared) d)) as Hg.
    destruct (grant_network _ _ _) as [err d']. destruct d as [c i t n m v p e vf ss sc cf w].
    simpl in *. destruct Hg as (_ & Hw' & Hn & Hk); [done|].
    rewrite !CanUserAccessNetwork_iff by auto with go. rewrite Hk, Hn. simpl.
    rewrite tbl_lookup_update by done. case_bool_decide; [|naive_solver].
    destruct (tbl_lookup net' n); simpl; naive_solver.
  - unfold DeleteNetwork. rewrite Exec_healthy by done. simpl. rewrite Exec_healthy by (by destruct d).
    destruct d as [c i t n m v p e vf ss sc cf w]. simpl in *.
    rewrite !CanUserAccessNetwork_iff by (by subst). simpl. rewrite !lookup_tbl_map.
    destruct (decide (net' = net)) as [->|Hne].
    + rewrite tbl_lookup_delete_eq. split; [|naive_solver]. intros [(r & ? & _)|[r Hr]]; [done|].
      apply tbl_lookup_Some in Hr as [[_ Hr]%elem_of_tbl_delete_where Hk]. bool_hyps.
      cbv [key_of network_access_keyed] in Hk. congruence.
    + rewrite tbl_lookup_delete_ne by done. rewrite tbl_lookup_delete_where_ne; [naive_solver|].
      intros r Hk. cbv [key_of network_access_keyed] in Hk. apply String.eqb_neq. congruence.
Qed.

(** ** Witnesses *)

Module ResourceDemo.
Definition web : PortMappingInfo := mkPortMappingInfo 8080 "tcp" 80 "c1" 1001 "alice".
Definition web2 : PortMappingInfo := mkPortMappingInfo 8081 "tcp" 80 "c2" 1002 "bob".
Definition clash : PortMappingInfo := mkPortMappingInfo 8080 "tcp" 81 "c2" 1002 "bob".
Definition db : OwnershipDB := (AddPortMappings 1 [web] initSchema).2.
End ResourceDemo.

Lemma port_mappings_exclusive_witness :
  (AddPortMappings 2 [ResourceDemo.web2; ResourceDemo.clash] ResourceDemo.db).1 =
    Some (PortConflictError 8080 "tcp" "c1" "alice" 1001) ∧
  keys_unique (port_mappings (AddPortMappings 2 [ResourceDemo.web2; ResourceDemo.clash] ResourceDemo.db).2).
Proof.
  split; [vm_compute; reflexivity|].
  apply (port_mappings_exclusive 2 [ResourceDemo.web2; ResourceDemo.clash] ResourceDemo.db).
  apply NoDup_singleton.
Defined.

Lemma peers_symmetric_witness :
  GetContainerPeer 1001 1002 "ca" "cb" (AddNetworkPeer 3 1002 1001 "net9" "cb" "ca" initSchema).2 =
  Some (mkNetworkPeerInfo 1001 1002 "net9" "ca" "cb") ∧
  (RemoveNetworkPeer 1001 1002 "" "" (AddNetworkPeer 3 1002 1001 "net9" "cb" "ca" initSchema).2).1.2 = None.
Proof.
  split; [vm_compute; reflexivity|].
  apply (peers_symmetric 3 1002 1001 "net9" "cb" "ca" initSchema eq_refl). discriminate.
Defined.

Lemma volumes_from_grants_witness :
  CanVolumesFrom "c1" 1002 (GrantVolumesFrom 4 "c1" all_users 0 initSchema).2 = inr true.
Proof.
  apply (volumes_from_grants 4 "c1" all_users 0 "c1" 1002 initSchema eq_refl). right. auto.
Defined.

Lemma network_access_lifecycle_witness :
  CanUserAccessNetwork "n1" 1002
    (SetNetworkShared "n1" [1002%Z] (SetManagedNetworkOwner 5 "n1" "web" 1001 "alice" initSchema).2).2
  = inr true.
Proof.
  apply (network_access_lifecycle "n1" [1002%Z] "n1" 1002
           (SetManagedNetworkOwner 5 "n1" "web" 1001 "alice" initSchema).2 eq_refl).
  right. split; [reflexivity|left].
Defined.
