(* ===== verification/DbReach.v ===== *)
(** * DbReach: every state the ownership database can be in

    The proxy, the admin tool and the cleanup jobs change the database only
    through the methods of [internal/authz/ownership.go].  [db_step] has one
    rule per method that writes, and one for the engine's health, which can
    change at any time; the invariant [db_wf] holds of every state reachable
    from a fresh database, in the middle of a failing multi-statement operation
    included. *)

From S2P Require Import Prelude GoStrings Database ImageDB ResourceDB.

Inductive db_step (d : OwnershipDB) : OwnershipDB → Prop :=
  | step_engine w : db_step d (set_writes_left w d)
  | step_image op : db_step d (run_image_op op d)
  | step_MarkImagePublic id b : db_step d (MarkImagePublic id b d).2
  | step_SetContainerOwner now id who img : db_step d (SetContainerOwner now id who img d).2
  | step_DeleteContainer id : db_step d (DeleteContainer id d).2
  | step_SetNetworkOwner now id name who : db_step d (SetNetworkOwner now id name who d).2
  | step_SetManagedNetworkOwner now id name uid user :
      db_step d (SetManagedNetworkOwner now id name uid user d).2
  | step_DeleteNetwork id : db_step d (DeleteNetwork id d).2
  | step_SetNetworkShared id uids : db_step d (SetNetworkShared id uids d).2
  | step_SetVolumeOwner now name who : db_step d (SetVolumeOwner now name who d).2
  | step_DeleteVolume name : db_step d (DeleteVolume name d).2
  | step_AddPortMappings now ms : db_step d (AddPortMappings now ms d).2
  | step_ReleasePortMappings id : db_step d (ReleasePortMappings id d).2
  | step_AddNetworkPeer now a b net ca cb : db_step d (AddNetworkPeer now a b net ca cb d).2
  | step_RemoveNetworkPeer a b ca cb : db_step d (RemoveNetworkPeer a b ca cb d).2
  | step_GrantVolumesFrom now id g by_ : db_step d (GrantVolumesFrom now id g by_ d).2
  | step_RevokeVolumesFrom id g : db_step d (RevokeVolumesFrom id g d).2
  | step_SetServiceOwner now id name who : db_step d (SetServiceOwner now id name who d).2
  | step_DeleteService id : db_step d (DeleteService id d).2
  | step_SetSecretOwner now id name who : db_step d (SetSecretOwner now id name who d).2
  | step_DeleteSecret id : db_step d (DeleteSecret id d).2
  | step_SetConfigOwner now id name who : db_step d (SetConfigOwner now id name who d).2
  | step_DeleteConfig id : db_step d (DeleteConfig id d).2.

Definition reachable (d : OwnershipDB) : Prop := rtc db_step initSchema d.

Record db_wf (d : OwnershipDB) : Prop := {
  wf_image : image_wf d;
  wf_containers : keys_unique (containers d);
  wf_containers_flag : ∀ r, r ∈ containers d → flag (c_privileged_context r);
  wf_networks : keys_unique (networks d);
  wf_networks_flag : ∀ r, r ∈ networks d → flag (n_privileged_context r) ∧ flag (n_is_shared r);
  wf_network_access : keys_unique (network_access d);
  wf_volumes : keys_unique (volumes d);
  wf_volumes_flag : ∀ r, r ∈ volumes d → flag (v_privileged_context r);
  wf_ports : keys_unique (port_mappings d);
  wf_peers : keys_unique (network_peers d);
  wf_peers_ordered : ∀ r, r ∈ network_peers d → (pe_uid_a r <= pe_uid_b r)%Z;
  wf_volumes_from : keys_unique (volumes_from_access d);
  wf_services : keys_unique (swarm_services d);
  wf_secrets : keys_unique (swarm_secrets d);
  wf_configs : keys_unique (swarm_configs d);
}.

Lemma initSchema_wf : db_wf initSchema.
Proof.
  split; try apply NoDup_nil_2; try apply initSchema_image_wf; by intros r Hr%elem_of_nil.
Qed.

(** An operation that writes the image tables only. *)
Definition same_resources (d d' : OwnershipDB) : Prop :=
  containers d' = containers d ∧ networks d' = networks d ∧ network_access d' = network_access d ∧
  volumes d' = volumes d ∧ port_mappings d' = port_mappings d ∧ network_peers d' = network_peers d ∧
  volumes_from_access d' = volumes_from_access d ∧ swarm_services d' = swarm_services d ∧
  swarm_secrets d' = swarm_secrets d ∧ swarm_configs d' = swarm_configs d.

Lemma same_resources_trans d1 d2 d3 :
  same_resources d1 d2 → same_resources d2 d3 → same_resources d1 d3.
Proof. unfold same_resources. intros. destruct_and!. split_and!; congruence. Qed.

Lemma same_resources_Exec f d :
  (∀ d, same_resources d (f d)) → same_resources d (Exec f d).2.
Proof.
  intros Hf. destruct (Exec_cases f d) as [[-> _]|(w & -> & _)]; simpl; [by split_and!|].
  eapply same_resources_trans; [apply Hf|]. destruct (f d). by split_and!.
Qed.

Lemma same_resources_images f d : same_resources d (on_images f d).
Proof. destruct d. by split_and!. Qed.
Lemma same_resources_access f d : same_resources d (on_image_access f d).
Proof. destruct d. by split_and!. Qed.
#[local] Hint Resolve same_resources_images same_resources_access same_resources_Exec : go.

Lemma run_image_op_resources op d : same_resources d (run_image_op op d).
Proof.
  assert (∀ f g, (∀ d, same_resources d (f d)) → (∀ d, same_resources d (g d)) → ∀ d,
    same_resources d (Exec g (Exec f d).2).2) as H2.
  { intros f g Hf Hg d0. eapply same_resources_trans; by apply same_resources_Exec. }
  destruct op; simpl; unfold SetImageOwner, SetImagePublic, RemoveUserImageAccess, EnsureImageAccess, DeleteImage;
    auto with go.
  - match goal with |- context [Exec ?f d] => pose proof (same_resources_Exec f d (same_resources_images _)) as H1 end.
    destruct (Exec _ d) as [[e|] d1]; [done|]. simpl in H1.
    eapply same_resources_trans; [exact H1|]. auto with go.
  - match goal with |- context [Exec ?f d] => pose proof (same_resources_Exec f d (same_resources_access _)) as H1 end.
    destruct (Exec _ d) as [[e|] d1]; [done|]. simpl in *. by destruct (Query _ d1).
  - match goal with |- context [tbl_delete ?t] => set (target := t) end.
    specialize (H2 (on_image_access (tbl_delete_where (refs_image target))) (on_images (tbl_delete target))).
    specialize (H2 (λ _, same_resources_access _ _) (λ _, same_resources_images _ _) d).
    by destruct (Exec (on_image_access _) d).
Qed.

Lemma same_resources_wf d d' : same_resources d d' → image_wf d' → db_wf d → db_wf d'.
Proof.
  unfold same_resources. intros (H1 & H2 & H3 & H4 & H5 & H6 & H7 & H8 & H9 & H10) Hi [].
  split; rewrite ?H1, ?H2, ?H3, ?H4, ?H5, ?H6, ?H7, ?H8, ?H9, ?H10; done.
Qed.

Lemma db_wf_writes w d : db_wf d → db_wf (set_writes_left w d).
Proof. destruct d. intros [[] ]. by split; [split|..]. Qed.

Lemma Exec_wf f d : db_wf d → db_wf (f d) → db_wf (Exec f d).2.
Proof. intros. apply Exec_ind; auto using db_wf_writes. Qed.

(** Rows kept by a deletion or added by a replacement satisfy what the old rows
    and the new one do. *)
Lemma replace_Forall {R K} `{!Keyed R K} `{!EqDecision K} (P : R → Prop) x t :
  P x → (∀ r, r ∈ t → P r) → ∀ r, r ∈ tbl_replace x t → P r.
Proof. intros Hx Ht r [->|[? _]]%elem_of_tbl_replace; auto. Qed.
Lemma delete_where_Forall {R} (P : R → Prop) p (t : list R) :
  (∀ r, r ∈ t → P r) → ∀ r, r ∈ tbl_delete_where p t → P r.
Proof. intros Ht r [? _]%elem_of_tbl_delete_where; auto. Qed.

Lemma flag_0 : flag 0.
Proof. by left. Qed.
#[local] Hint Resolve flag_0 : go.

(** One table of a well-formed database is updated. *)
Ltac wf_table :=
  let Hwf := fresh in
  intros Hwf; destruct Hwf; match goal with d : OwnershipDB |- _ => destruct d end; simpl in *;
  split; simpl;
  match goal with H : image_wf _ |- image_wf _ => destruct H; by split | _ => idtac end;
  first
    [ done
    | by auto using keys_unique_replace, keys_unique_delete, keys_unique_delete_where,
        keys_unique_insert_ignore
    | apply replace_Forall; simpl; by auto with go
    | apply delete_where_Forall; done
    | idtac ].

Lemma grant_network_wf net uids d : db_wf d → db_wf (grant_network net uids d).2.
Proof.
  revert d. induction uids as [|u uids IH]; intros d Hwf; simpl; [done|].
  match goal with |- context [Exec ?f d] => set (g := f) end.
  assert (db_wf (Exec g d).2) as H1.
  { apply Exec_wf; [done|]. revert Hwf. unfold g. wf_table. }
  destruct (Exec g d) as [[e|] d1]; [done|]. by apply IH.
Qed.

Lemma AddPortMappings_wf now ms d : db_wf d → db_wf (AddPortMappings now ms d).2.
Proof.
  revert d. induction ms as [|m ms IH]; intros d Hwf; simpl; [done|].
  assert (db_wf (InsertPort (port_row now m) d).2) as H1.
  { unfold InsertPort. destruct (db_down d); [done|].
    destruct (tbl_lookup _ _) eqn:E; [done|]. apply Exec_wf; [done|].
    revert E Hwf. intros E. wf_table. by apply keys_unique_snoc. }
  destruct (InsertPort (port_row now m) d) as [[e|] d1]; [by destruct (scan_or _ _) as [[??]?]|].
  by apply IH.
Qed.

Lemma db_step_wf d d' : db_step d d' → db_wf d → db_wf d'.
Proof.
  destruct 1; intros Hwf.
  - by apply db_wf_writes.
  - eapply same_resources_wf; [apply run_image_op_resources| |done]. apply image_wf_step, Hwf.
  - change (MarkImagePublic id b d).2 with (run_image_op (OpSetImagePublic id b) d).
    eapply same_resources_wf; [apply run_image_op_resources| |done]. apply image_wf_step, Hwf.
  - apply Exec_wf; [done|]. revert Hwf. wf_table.
  - apply Exec_wf; [done|]. revert Hwf. wf_table.
  - apply Exec_wf; [done|]. revert Hwf. wf_table.
  - apply Exec_wf; [done|]. revert Hwf. wf_table.
  - unfold DeleteNetwork. assert (db_wf (Exec (on_networks (tbl_delete id)) d).2) as H1.
    { apply Exec_wf; [done|]. revert Hwf. wf_table. }
    destruct (Exec _ d) as [[e|] d1]; [done|]. simpl in *. apply Exec_wf; [done|]. clear Hwf d.
    revert H1. wf_table.
  - unfold SetNetworkShared. assert (db_wf (Exec (on_networks (tbl_update id set_shared)) d).2) as H1.
    { apply Exec_wf; [done|]. revert Hwf. wf_table.
      - by apply keys_unique_update.
      - apply (update_Forall (λ r, flag (n_privileged_context r) ∧ flag (n_is_shared r))); [|done].
        simpl. intros r []. split; [done|by right]. }
    destruct (Exec _ d) as [[e|] d1]; [done|]. by apply grant_network_wf.
  - apply Exec_wf; [done|]. revert Hwf. wf_table.
  - apply Exec_wf; [done|]. revert Hwf. wf_table.
  - by apply AddPortMappings_wf.
  - apply Exec_wf; [done|]. revert Hwf. wf_table.
  - unfold AddNetworkPeer. pose proof (peer_norm_ordered a b ca cb) as Ho.
    destruct (peer_norm a b ca cb) as [[[a' b'] ca'] cb']. apply Exec_wf; [done|]. revert Hwf. wf_table.
  - unfold RemoveNetworkPeer. destruct (peer_norm a b ca cb) as [[[a' b'] ca'] cb'].
    destruct (Query _ d); [done|].
    match goal with |- context [Exec ?f d] => assert (db_wf (Exec f d).2) as H1 end.
    { apply Exec_wf; [done|]. revert Hwf. wf_table. }
    by destruct (Exec _ d).
  - apply Exec_wf; [done|]. revert Hwf. wf_table.
  - unfold RevokeVolumesFrom. case_match; (apply Exec_wf; [done|]; revert Hwf; wf_table).
  - apply Exec_wf; [done|]. revert Hwf. wf_table.
  - apply Exec_wf; [done|]. revert Hwf. wf_table.
  - apply Exec_wf; [done|]. revert Hwf. wf_table.
  - apply Exec_wf; [done|]. revert Hwf. wf_table.
  - apply Exec_wf; [done|]. revert Hwf. wf_table.
  - apply Exec_wf; [done|]. revert Hwf. wf_table.
Qed.

Lemma reachable_wf d : reachable d → db_wf d.
Proof.
  intros Hr. pose proof initSchema_wf as Hi. unfold reachable in Hr.
  induction Hr as [|d1 d2 d3 Hs _ IH]; [done|]. by eapply IH, db_step_wf.
Qed.

(** Every reachable state of the ownership database is well formed, at every
    point of every sequence of operations and engine failures: no two records
    of a container, image, reference, network, volume, host port, peer pair,
    grant or swarm object; every privilege, sharing and publicity flag is 0 or
    1; every peer record has its users in order. *)
Theorem reachable_db_wf d (Hr : reachable d) : db_wf d.
Proof. by apply reachable_wf. Qed.

Lemma reachable_db_wf_witness :
  db_wf (set_writes_left (Some 1)
    (AddNetworkPeer 2 1002 1001 "n" "" "" (AddPortMappings 1 [ResourceDemo.web] initSchema).2).2).
Proof.
  apply reachable_db_wf. eapply rtc_l; [apply (step_AddPortMappings _ 1 [ResourceDemo.web])|].
  eapply rtc_l; [apply (step_AddNetworkPeer _ 2 1002 1001 "n" "" "")|].
  eapply rtc_l; [apply (step_engine _ (Some 1))|]. apply rtc_refl.
Defined.
