(* ===== verification/Names.v ===== *)
(** * Names: resource names, owner labels and URL rewriting

    [internal/isolation/labels.go], the naming functions of [storage.go],
    [network.go] and [netbridge.go], and the URL rewriting of [network.go] and
    [volume.go].  Every resource of a user carries the user's UID in its name;
    names a client sends are completed with the client's own prefix, which is
    what keeps one user from naming another user's resource.  URLs are modelled
    by their path and, where the code reads it, their parsed query. *)

From S2P Require Import Prelude GoStrings Identity Routes.

(** ** Prefixes *)

Definition UserResourcePrefix (identity : CallerIdentity) : string :=
  RealUsername identity +:+ "_u" +:+ Itoa (RealUID identity) +:+ "_".
Definition UserContainerPrefix (uid : Z) : string := "user-" +:+ Itoa uid +:+ "-".
Definition UserVolumePrefix (uid : Z) : string := "user-" +:+ Itoa uid +:+ "-volume-".
Definition UserBridgeName (uid : Z) : string := "user-" +:+ Itoa uid +:+ "-bridge".
Definition PeerNetworkName (uidA uidB : Z) : string :=
  let '(uidA, uidB) := if (uidB <? uidA)%Z then (uidB, uidA) else (uidA, uidB) in
  "peer-" +:+ Itoa uidA +:+ "-" +:+ Itoa uidB.

(** [user-{digits}-volume-*]. *)
Definition isUserVolumePrefix (name : string) : bool :=
  if negb (HasPrefix name "user-") then false else
  let '(digits, rest) := span is_digit (str_drop (slen "user-") name) in
  if digits ==s "" then false else HasPrefix rest "-volume-".

Definition isHexID (s : string) : bool :=
  if negb (slen s =? 12) && negb (slen s =? 64) then false else str_forallb is_hex s.

(** ** Labels *)

Definition LabelOwnerUsername : string := "system.authz.owner.username".
Definition LabelOwnerUID : string := "system.authz.owner.uid".
Definition LabelOwnerGID : string := "system.authz.owner.gid".
Definition LabelCallerType : string := "system.authz.caller.type".
Definition LabelEffectiveUID : string := "system.authz.effective.uid".
Definition LabelOwner : string := "owner".
Definition LabelOwnerID : string := "user_id".

(** Go's [m[k]] on a [map[string]string]: the zero value when absent. *)
Definition map_get (m : gmap string string) (k : string) : string := default "" (m !! k).

Definition appendLabel (labels : gmap string string) (key value : string) : gmap string string :=
  match labels !! key with
  | Some existing => <[key := existing +:+ "," +:+ value]> labels
  | None => <[key := value]> labels
  end.
Definition setLabel (labels : gmap string string) (key value : string) : gmap string string :=
  <[key := value]> labels.

Definition GetLastLabelValue (value : string) : string :=
  TrimSpace (List.last (Split1 "," value) "").

(** The labels [InjectSystemLabels] writes, on the map it has decoded. *)
Definition system_labels (labels : gmap string string) (id : CallerIdentity) : gmap string string :=
  let labels := appendLabel labels LabelOwnerUsername (RealUsername id) in
  let labels := appendLabel labels LabelOwnerUID (Itoa (RealUID id)) in
  let labels := setLabel labels LabelOwnerGID (Itoa (RealGID id)) in
  let labels := setLabel labels LabelCallerType (UserType_String (id_UserType id)) in
  let labels := setLabel labels LabelEffectiveUID (Itoa (EffectiveUID id)) in
  let labels := appendLabel labels LabelOwner (RealUsername id) in
  appendLabel labels LabelOwnerID (Itoa (RealUID id)).

(** ** Names in URLs *)

(** The first segment after [prefix] in the path. *)
Definition path_segment (prefix path : string) : string :=
  let p := StripAPIVersion path in
  if negb (HasPrefix p prefix) then "" else cutSlash (str_drop (slen prefix) p).

Definition ExtractNetworkID (path : string) : string := path_segment "/networks/" path.
Definition ExtractVolumeName (path : string) : string := path_segment "/volumes/" path.

(** A peer network whose name mentions the user's UID. *)
Definition own_peer (uid : Z) (netName : string) : bool :=
  let uidStr := Itoa uid in
  HasPrefix netName "peer-" &&
  (HasPrefix (str_drop (slen "peer-") netName) (uidStr +:+ "-")
   || Contains netName ("-" +:+ uidStr +:+ "-")
   || HasSuffix netName ("-" +:+ uidStr)).

Definition RewriteNetworkURL (path : string) (identity : CallerIdentity) : string :=
  let netName := ExtractNetworkID path in
  if (netName ==s "") || (netName ==s "create") || (netName ==s "prune") then path
  else if isHexID netName then path
  else if (netName ==s UserBridgeName (RealUID identity)) || own_peer (RealUID identity) netName then path
  else
    let prefix := UserResourcePrefix identity in
    if HasPrefix netName prefix then path
    else Replace1 path ("/networks/" +:+ netName) ("/networks/" +:+ prefix +:+ netName).

Definition RewriteVolumeURL (path : string) (uid : Z) : string :=
  let volName := ExtractVolumeName path in
  if (volName ==s "") || (volName ==s "create") || (volName ==s "prune") then path
  else if isHexID volName then path
  else
    let prefix := UserVolumePrefix uid in
    if HasPrefix volName prefix then path
    else Replace1 path ("/volumes/" +:+ volName) ("/volumes/" +:+ prefix +:+ volName).

(** A request URL: the path and the parsed query ([url.Values], in order). *)
Record ReqURL := mkReqURL { u_Path : string; u_Query : list (string * string) }.

Definition query_get (q : list (string * string)) (k : string) : string :=
  match find_first (λ kv, kv.1 ==s k) q with Some kv => kv.2 | None => "" end.
Definition query_set (q : list (string * string)) (k v : string) : list (string * string) :=
  List.filter (λ kv, kv.1 !=s k) q ++ [(k, v)].

Definition containerSpecialIDs (s : string) : bool :=
  (s ==s "json") || (s ==s "create") || (s ==s "prune").

Definition RewriteContainerURL (u : ReqURL) (uid : Z) : ReqURL :=
  let p := StripAPIVersion (u_Path u) in
  let prefix := UserContainerPrefix uid in
  if p ==s "/commit" then
    let containerParam := query_get (u_Query u) "container" in
    if (containerParam !=s "") && negb (HasPrefix containerParam prefix) && negb (isHexID containerParam)
    then mkReqURL (u_Path u) (query_set (u_Query u) "container" (prefix +:+ containerParam))
    else u
  else if negb (HasPrefix p "/containers/") then u
  else
    let containerID := cutSlash (str_drop (slen "/containers/") p) in
    if (containerID ==s "") || containerSpecialIDs containerID || isHexID containerID then u
    else if Contains containerID ":" || Contains containerID "/" then u
    else if HasPrefix containerID prefix then u
    else mkReqURL (Replace1 (u_Path u) ("/containers/" +:+ containerID)
                     ("/containers/" +:+ prefix +:+ containerID)) (u_Query u).

(** [src:dst[:opts]] as [(src, ":dst[:opts]")]. *)
Definition splitBindSrc (b : string) : string * string :=
  match Index b ":" with
  | None => (b, "")
  | Some idx => (str_take idx b, str_drop idx b)
  end.

(** ** Lemmas: version prefixes *)

Lemma StripAPIVersion_split path :
  ∃ pre, path = pre +:+ StripAPIVersion path ∧
    (pre = "" ∨ ∃ ver, pre = "/v" +:+ ver ∧ isVersionString ver = true).
Proof.
  unfold StripAPIVersion. destruct (_ && _) eqn:E; [|exists ""; auto].
  apply andb_true_iff in E as [_ Hv]. apply HasPrefix_spec in Hv as [rest ->].
  change (str_drop 2 ("/v" +:+ rest)) with rest.
  destruct (Index rest "/") as [n|] eqn:Hi; [|exists ""; auto].
  destruct (_ && _) eqn:Hc; [|exists ""; auto].
  apply andb_true_iff in Hc as [_ Hver].
  exists ("/v" +:+ str_take n rest). split; [|right; eauto].
  simpl. by rewrite str_take_drop.
Qed.

Lemma version_no_slash ver : isVersionString ver = true → str_forallb (λ d, negb (Ascii.eqb "/" d)) ver = true.
Proof.
  unfold isVersionString. intros [H _]%andb_true_iff. eapply str_forallb_impl; [|exact H].
  intros c Hc. destruct (Ascii.eqb_spec "/" c) as [<-|]; [by vm_compute in Hc|done].
Qed.


(** Searching for a slash-led pattern skips bytes that are not slashes. *)
Lemma Index_skip a s sub :
  str_forallb (λ d, negb (Ascii.eqb "/" d)) a = true →
  Index (a +:+ s) (String "/" sub) = Nat.add (slen a) <$> Index s (String "/" sub).
Proof.
  induction a as [|c a IH]; intros Ha; [simpl; by destruct (Index s _)|].
  cbn [str_forallb] in Ha. bool_hyps. cbn [String.append Index].
  rewrite HasPrefix_cons, H. cbn [andb]. rewrite IH by done. by destruct (Index s _).
Qed.

(** [pat] is a rooted path prefix that no version prefix starts with, and that
    is not taken for one. *)
Definition rooted (pat : string) : Prop :=
  HasPrefix pat "/" = true ∧
  (∀ ver x, isVersionString ver = true → HasPrefix ("/v" +:+ ver +:+ x) pat = false) ∧
  ∀ x, StripAPIVersion (pat +:+ x) = pat +:+ x.

Lemma version_first ver : isVersionString ver = true →
  ∃ d ver', ver = String d ver' ∧ (is_digit d || Ascii.eqb d ".") = true.
Proof.
  unfold isVersionString. destruct ver as [|d ver']; [done|]. simpl.
  intros [[H _]%andb_true_iff _]%andb_true_iff. eauto.
Qed.

Lemma StripAPIVersion_not_v p : HasPrefix p "/v" = false → StripAPIVersion p = p.
Proof. unfold StripAPIVersion. intros ->. by rewrite andb_false_r. Qed.

Lemma rooted_networks : rooted "/networks/".
Proof. split_and!; [done..|]. intros x. by apply StripAPIVersion_not_v. Qed.
Lemma rooted_containers : rooted "/containers/".
Proof. split_and!; [done..|]. intros x. by apply StripAPIVersion_not_v. Qed.
Lemma rooted_volumes : rooted "/volumes/".
Proof.
  split_and!; [done| |].
  - intros ver x (d & ver' & -> & Hd)%version_first.
    cbn [String.append]. rewrite !HasPrefix_cons, !Ascii.eqb_refl. cbn [andb].
    destruct (Ascii.eqb_spec "o" d) as [<-|]; [by vm_compute in Hd|done].
  - intros x. unfold StripAPIVersion. case_match; [|done].
    change (str_drop 2 ("/volumes/" +:+ x)) with ("olumes" +:+ String "/" x).
    rewrite Index1_app by done. by rewrite str_take_app.
Qed.
#[local] Hint Resolve rooted_networks rooted_containers rooted_volumes : go.

(** The segment the code extracts is the one it replaces. *)
Lemma Replace1_after_version path pat name rest new :
  rooted pat → StripAPIVersion path = pat +:+ name +:+ rest →
  ∃ pre, path = pre +:+ pat +:+ name +:+ rest ∧
    (pre = "" ∨ ∃ ver, pre = "/v" +:+ ver ∧ isVersionString ver = true) ∧
    Replace1 path (pat +:+ name) new = pre +:+ new +:+ rest.
Proof.
  intros (Hsl & Hroot & _) Hs. destruct (StripAPIVersion_split path) as (pre & Hp & Hpre).
  rewrite Hs in Hp. exists pre. split; [done|]. split; [done|].
  assert (Index path (pat +:+ name) = Some (slen pre)) as Hi.
  { rewrite Hp. destruct Hpre as [->|(ver & -> & Hver)].
    - change ("" +:+ ?x) with x. rewrite app_assoc_str.
      destruct (pat +:+ name) as [|c p] eqn:E; [by destruct rest|].
      rewrite <- E. pose proof (HasPrefix_app (pat +:+ name) rest) as Hh. revert Hh.
      rewrite E. simpl. by intros ->.
    - apply HasPrefix_spec in Hsl as [p ->].
      change (("/v" +:+ ver) +:+ ?x) with (String "/" (String "v" (ver +:+ x))).
      change (("/" +:+ p) +:+ name) with (String "/" (p +:+ name)).
      cbn [Index]. rewrite HasPrefix_cons. simpl.
      destruct (HasPrefix (String "v" (ver +:+ _)) (p +:+ name)) eqn:Hbad.
      { exfalso. pose proof (Hroot ver (String "/" (p +:+ name +:+ rest)) Hver) as Hr.
        simpl in Hr. rewrite HasPrefix_cons, Ascii.eqb_refl in Hr. simpl in Hr.
        rewrite (HasPrefix_trans _ (p +:+ name) p) in Hr; [done|exact Hbad|apply HasPrefix_app]. }
      rewrite (Index_skip ver) by by apply version_no_slash. simpl.
      rewrite HasPrefix_cons, Ascii.eqb_refl. simpl.
      rewrite app_assoc_str, HasPrefix_app. simpl. f_equal. lia. }
  unfold Replace1. rewrite Hi, Hp, str_take_app. do 2 f_equal.
  rewrite (app_assoc_str pat name rest), (app_assoc_str pre _ rest).
  rewrite <- (slen_app pre (pat +:+ name)). apply str_drop_app.
Qed.

(** A rooted path after a version prefix is what stripping leaves. *)
Lemma StripAPIVersion_restore pre pat x :
  HasPrefix pat "/" = true → StripAPIVersion (pat +:+ x) = pat +:+ x →
  (pre = "" ∨ ∃ ver, pre = "/v" +:+ ver ∧ isVersionString ver = true) →
  StripAPIVersion (pre +:+ pat +:+ x) = pat +:+ x.
Proof.
  intros Hsl Hid [->|(ver & -> & Hver)]; [done|]. rewrite <- app_assoc_str.
  apply StripAPIVersion_versioned; [done|]. apply HasPrefix_spec in Hsl as [p ->]. by rewrite <- app_assoc_str.
Qed.

Notation no_slash s := (str_forallb (λ d, negb (Ascii.eqb "/" d)) s = true).

Lemma cutSlash_spec s :
  ∃ rest, s = cutSlash s +:+ rest ∧ no_slash (cutSlash s) ∧ (rest = "" ∨ ∃ r, rest = String "/" r).
Proof.
  unfold cutSlash. destruct (Index s "/") as [n|] eqn:E.
  - apply Index1_Some in E as (H1 & H2 & H3). exists (String "/" (str_drop (S n) s)). eauto.
  - apply Index1_None in E. exists "". rewrite app_nil_r_str. auto.
Qed.

Lemma cutSlash_app a rest :
  no_slash a → (rest = "" ∨ ∃ r, rest = String "/" r) → cutSlash (a +:+ rest) = a.
Proof.
  intros Ha [->|[r ->]]; unfold cutSlash.
  - rewrite app_nil_r_str. by rewrite (proj2 (Index1_None "/" a) Ha).
  - by rewrite (Index1_app "/" a r Ha), str_take_app.
Qed.

Lemma path_segment_split pat path :
  path_segment pat path ≠ "" →
  ∃ rest, StripAPIVersion path = pat +:+ path_segment pat path +:+ rest ∧
    no_slash (path_segment pat path) ∧ (rest = "" ∨ ∃ r, rest = String "/" r).
Proof.
  unfold path_segment. destruct (HasPrefix _ _) eqn:E; [|done]. simpl. intros _.
  apply HasPrefix_spec in E as [x Hx]. rewrite Hx, str_drop_app.
  destruct (cutSlash_spec x) as (rest & H1 & H2 & H3). exists rest. by rewrite <- H1.
Qed.

(** Completing the segment with a prefix gives a path whose segment is the
    completed name, and whose remainder is the same. *)
Lemma path_segment_replaced pat path prefix :
  rooted pat → path_segment pat path ≠ "" → no_slash prefix →
  path_segment pat (Replace1 path (pat +:+ path_segment pat path)
                      (pat +:+ prefix +:+ path_segment pat path))
  = prefix +:+ path_segment pat path.
Proof.
  intros Hroot Hne Hpre. destruct (path_segment_split pat path Hne) as (rest & Hs & Hno & Hrest).
  set (name := path_segment pat path) in *.
  destruct (Replace1_after_version path pat name rest (pat +:+ prefix +:+ name) Hroot Hs)
    as (pre & _ & Hver & ->).
  unfold path_segment. rewrite <- app_assoc_str. destruct Hroot as (Hsl & _ & Hid).
  rewrite StripAPIVersion_restore by auto. rewrite HasPrefix_app, str_drop_app. simpl.
  apply cutSlash_app; [|done]. by rewrite str_forallb_app, Hpre, Hno.
Qed.

Lemma Itoa_no_slash z : no_slash (Itoa z).
Proof.
  assert (∀ n, no_slash (Itoa (Zpos n))) as Hp.
  { intros n. eapply str_forallb_impl, Itoa_digits; [|lia]. intros c Hc.
    destruct (Ascii.eqb_spec "/" c) as [<-|]; [by vm_compute in Hc|done]. }
  destruct z as [|p|p]; [done|apply Hp|].
  change (Itoa (Z.neg p)) with (String "-" (Itoa (Z.pos p))). cbn [str_forallb]. by rewrite Hp.
Qed.

(** ** Properties *)

(** No client can name another user's network.  After [RewriteNetworkURL] the
    network the path names either carries the caller's own prefix (completed
    when the client left it out, the rest of the path unchanged), or is one of
    the forms the ownership check decides: no name, [create], [prune], a
    hexadecimal id, the caller's own bridge, or a peer network whose name
    mentions the caller's UID. *)
Theorem rewritten_network_is_own path identity
    (Huser : str_forallb (λ d, negb (Ascii.eqb "/" d)) (RealUsername identity) = true) :
  let name := ExtractNetworkID path in
  let name' := ExtractNetworkID (RewriteNetworkURL path identity) in
  (HasPrefix name' (UserResourcePrefix identity) = true ∧
     (name' = name ∨ name' = UserResourcePrefix identity +:+ name)) ∨
  (name' = name ∧ (name ∈ [""; "create"; "prune"; UserBridgeName (RealUID identity)] ∨
     isHexID name = true ∨ own_peer (RealUID identity) name = true)).
Proof.
  cbv zeta. unfold RewriteNetworkURL. set (name := ExtractNetworkID path).
  destruct (_ || _ || _) eqn:E1.
  { right. split; [done|]. left. rewrite !elem_of_cons. rewrite !orb_true_iff, !String.eqb_eq in E1. tauto. }
  destruct (isHexID name) eqn:E2; [right; auto|].
  destruct (_ || own_peer _ _) eqn:E3.
  { right. split; [done|]. rewrite orb_true_iff, String.eqb_eq in E3. rewrite !elem_of_cons. tauto. }
  destruct (HasPrefix name _) eqn:E4; [left; auto|]. left.
  bool_hyps. assert (no_slash (UserResourcePrefix identity)) as Hns
    by (unfold UserResourcePrefix; by rewrite !str_forallb_app, Huser, Itoa_no_slash).
  pose proof (path_segment_replaced "/networks/" path _ rooted_networks ltac:(done) Hns) as Heq.
  fold (ExtractNetworkID path) in Heq. fold name in Heq. unfold ExtractNetworkID.
  rewrite Heq, HasPrefix_app. auto.
Qed.

(** No client can name another user's volume or container.  After the
    rewriting, a volume in the path carries the caller's own prefix or is empty,
    [create], [prune] or a hexadecimal id; likewise a container, which may also
    be the reserved [json] or hold a colon (no container name does); and so does
    the container of a commit, given in the query. *)
Theorem rewritten_volume_container_is_own path q uid :
  (let name := ExtractVolumeName path in
   let name' := ExtractVolumeName (RewriteVolumeURL path uid) in
   (HasPrefix name' (UserVolumePrefix uid) = true ∧
      (name' = name ∨ name' = UserVolumePrefix uid +:+ name)) ∨
   (name' = name ∧ (name ∈ [""; "create"; "prune"] ∨ isHexID name = true))) ∧
  (let name := path_segment "/containers/" path in
   let u := RewriteContainerURL (mkReqURL path q) uid in
   let name' := path_segment "/containers/" (u_Path u) in
   (HasPrefix name' (UserContainerPrefix uid) = true ∧
      (name' = name ∨ name' = UserContainerPrefix uid +:+ name)) ∨
   (name' = name ∧ (name ∈ [""; "create"; "prune"; "json"] ∨ isHexID name = true ∨
                    Contains name ":" = true))) ∧
  (StripAPIVersion path = "/commit" →
   let c' := query_get (u_Query (RewriteContainerURL (mkReqURL path q) uid)) "container" in
   c' = "" ∨ isHexID c' = true ∨ HasPrefix c' (UserContainerPrefix uid) = true).
Proof.
  cbv zeta. split; [|split].
  - unfold RewriteVolumeURL. set (name := ExtractVolumeName path).
    destruct (_ || _ || _) eqn:E1.
    { right. split; [done|]. left. rewrite !elem_of_cons. rewrite !orb_true_iff, !String.eqb_eq in E1. tauto. }
    destruct (isHexID name) eqn:E2; [right; auto|].
    destruct (HasPrefix name _) eqn:E4; [left; auto|]. left. bool_hyps.
    assert (no_slash (UserVolumePrefix uid)) as Hns
      by (unfold UserVolumePrefix; by rewrite !str_forallb_app, Itoa_no_slash).
    pose proof (path_segment_replaced "/volumes/" path _ rooted_volumes ltac:(done) Hns) as Heq.
    fold (ExtractVolumeName path) in Heq. fold name in Heq. unfold ExtractVolumeName.
    rewrite Heq, HasPrefix_app. auto.
  - unfold RewriteContainerURL. cbn [u_Path u_Query].
    destruct (StripAPIVersion path ==s "/commit") eqn:Ec.
    { bool_hyps. assert (path_segment "/containers/" path = "") as Hempty
        by (unfold path_segment; by rewrite Ec).
      rewrite Hempty. right. case_match; cbn [u_Path]; rewrite Hempty; (split; [done|left; left]). }
    set (name := path_segment "/containers/" path).
    assert (HasPrefix (StripAPIVersion path) "/containers/" = true →
      cutSlash (str_drop (slen "/containers/") (StripAPIVersion path)) = name) as Hseg.
    { intros Hp. unfold name, path_segment. by rewrite Hp. }
    destruct (HasPrefix (StripAPIVersion path) "/containers/") eqn:Hp; simpl negb; cbv iota.
    2:{ right. split; [done|]. left. unfold name, path_segment. rewrite Hp. left. }
    rewrite Hseg by done. destruct (_ || _ || _) eqn:E1.
    { right. split; [done|]. unfold containerSpecialIDs in E1.
      rewrite !orb_true_iff, !String.eqb_eq in E1. rewrite !elem_of_cons. tauto. }
    destruct (_ || Contains name "/") eqn:E2.
    { right. split; [done|]. right. right. apply orb_true_iff in E2 as [|Hsl]; [done|exfalso].
      unfold Contains in Hsl. destruct (cutSlash_spec (str_drop (slen "/containers/") (StripAPIVersion path)))
        as (_ & _ & Hno & _). rewrite Hseg in Hno by done.
      by rewrite (proj2 (Index1_None "/" name) Hno) in Hsl. }
    destruct (HasPrefix name _) eqn:E4; [left; auto|]. left. bool_hyps.
    assert (no_slash (UserContainerPrefix uid)) as Hns
      by (unfold UserContainerPrefix; by rewrite !str_forallb_app, Itoa_no_slash).
    pose proof (path_segment_replaced "/containers/" path _ rooted_containers ltac:(done) Hns) as Heq.
    fold name in Heq. cbn [u_Path]. rewrite Heq, HasPrefix_app. auto.
  - intros Hc. unfold RewriteContainerURL. cbn [u_Path u_Query]. rewrite Hc. simpl.
    set (c := query_get q "container").
    destruct (_ && _ && _) eqn:E; cbn [u_Query].
    + right. right. unfold query_get, query_set.
      assert (∀ (l : list (string * string)) v, find_first (λ kv, kv.1 ==s "container")
        (List.filter (λ kv, kv.1 !=s "container") l ++ [("container", v)]) = Some ("container", v)) as Hf.
      { intros l v. induction l as [|[k w] l IH]; [done|]. cbn [List.filter fst].
        destruct (k ==s "container") eqn:Ek; simpl; [exact IH|]. by rewrite Ek. }
      rewrite Hf. apply HasPrefix_app.
    + fold c. destruct (c ==s "") eqn:E1; bool_hyps; [auto|].
      destruct (HasPrefix c _) eqn:E2, (isHexID c) eqn:E3; auto.
Qed.

(** ** Labels cannot be forged *)

Lemma GetLastLabelValue_append existing v :
  str_forallb (λ d, negb (Ascii.eqb "," d)) v = true → str_forallb is_plain v = true →
  GetLastLabelValue (existing +:+ "," +:+ v) = v.
Proof.
  intros Hc Hp. unfold GetLastLabelValue.
  change ("," +:+ v) with (String "," v). by rewrite Split1_last_no_sep, TrimSpace_plain.
Qed.

Lemma GetLastLabelValue_self v :
  str_forallb (λ d, negb (Ascii.eqb "," d)) v = true → str_forallb is_plain v = true →
  GetLastLabelValue v = v.
Proof.
  intros Hc Hp. unfold GetLastLabelValue. rewrite Split1_no_sep by done. by apply TrimSpace_plain.
Qed.

Lemma appendLabel_last labels k v :
  str_forallb (λ d, negb (Ascii.eqb "," d)) v = true → str_forallb is_plain v = true →
  GetLastLabelValue (map_get (appendLabel labels k v) k) = v.
Proof.
  intros Hc Hp. unfold appendLabel, map_get.
  destruct (labels !! k); rewrite lookup_insert_eq; simpl;
    [by apply GetLastLabelValue_append|by apply GetLastLabelValue_self].
Qed.

Lemma appendLabel_ne labels k k' v :
  k ≠ k' → map_get (appendLabel labels k v) k' = map_get labels k'.
Proof.
  intros Hne. unfold appendLabel, map_get. destruct (labels !! k); by rewrite lookup_insert_ne.
Qed.

Lemma setLabel_ne labels k k' v : k ≠ k' → map_get (setLabel labels k v) k' = map_get labels k'.
Proof. intros Hne. unfold setLabel, map_get. by rewrite lookup_insert_ne. Qed.

Lemma setLabel_eq labels k v : map_get (setLabel labels k v) k = v.
Proof. unfold setLabel, map_get. by rewrite lookup_insert_eq. Qed.

Lemma Itoa_no_comma z : str_forallb (λ d, negb (Ascii.eqb "," d)) (Itoa z) = true.
Proof.
  assert (∀ n, str_forallb (λ d, negb (Ascii.eqb "," d)) (Itoa (Zpos n)) = true) as Hp.
  { intros n. eapply str_forallb_impl, Itoa_digits; [|lia]. intros c Hc.
    destruct (Ascii.eqb_spec "," c) as [<-|]; [by vm_compute in Hc|done]. }
  destruct z as [|p|p]; [done|apply Hp|].
  change (Itoa (Z.neg p)) with (String "-" (Itoa (Z.pos p))). cbn [str_forallb]. by rewrite Hp.
Qed.

Lemma UserType_String_plain t :
  str_forallb (λ d, negb (Ascii.eqb "," d)) (UserType_String t) = true ∧
  str_forallb is_plain (UserType_String t) = true.
Proof. by destruct t. Qed.

(** Whatever labels the client sends with a
    container, after the injection the last value of the owner UID labels is the
    caller's real UID, the last value of the owner name labels is the caller's
    user name (a name without comma or blanks), the caller type is the caller's,
    and every other label is the client's. *)
Lemma system_labels_values labels id
    (Hc : str_forallb (λ d, negb (Ascii.eqb "," d)) (RealUsername id) = true)
    (Hp : str_forallb is_plain (RealUsername id) = true) :
  let l := system_labels labels id in
  GetLastLabelValue (map_get l LabelOwnerUID) = Itoa (RealUID id) ∧
  GetLastLabelValue (map_get l LabelOwnerID) = Itoa (RealUID id) ∧
  GetLastLabelValue (map_get l LabelOwnerUsername) = RealUsername id ∧
  GetLastLabelValue (map_get l LabelOwner) = RealUsername id ∧
  GetLastLabelValue (map_get l LabelCallerType) = UserType_String (id_UserType id) ∧
  map_get l LabelOwnerGID = Itoa (RealGID id) ∧
  map_get l LabelEffectiveUID = Itoa (EffectiveUID id) ∧
  (∀ k, k ∉ [LabelOwnerUsername; LabelOwnerUID; LabelOwnerGID; LabelCallerType; LabelEffectiveUID;
             LabelOwner; LabelOwnerID] → map_get l k = map_get labels k).
Proof.
  cbv zeta. unfold system_labels. destruct (UserType_String_plain (id_UserType id)) as [Hu1 Hu2].
  split_and!.
  all: repeat first [rewrite appendLabel_ne by discriminate | rewrite setLabel_ne by discriminate].
  all: try (by apply appendLabel_last; auto using Itoa_no_comma, Itoa_plain).
  all: try (by rewrite setLabel_eq).
  - rewrite setLabel_eq. by apply GetLastLabelValue_self.
  - intros k Hk. rewrite !not_elem_of_cons in Hk. destruct_and! Hk.
    by rewrite !appendLabel_ne, !setLabel_ne, !appendLabel_ne by done.
Qed.

(** ** Witnesses *)

Lemma rewritten_network_is_own_witness :
  RewriteNetworkURL "/v1.41/networks/bob_u1002_web/connect"
    (tcp_identity "alice" 1001 1001 AuthSourceJWT) = "/v1.41/networks/alice_u1001_bob_u1002_web/connect" ∧
  HasPrefix (ExtractNetworkID (RewriteNetworkURL "/v1.41/networks/bob_u1002_web/connect"
    (tcp_identity "alice" 1001 1001 AuthSourceJWT))) "alice_u1001_" = true.
Proof.
  split; [vm_compute; reflexivity|].
  destruct (rewritten_network_is_own "/v1.41/networks/bob_u1002_web/connect"
    (tcp_identity "alice" 1001 1001 AuthSourceJWT) eq_refl) as [[H _]|[H _]]; vm_compute in H; [vm_compute; exact H|discriminate H].
Defined.

Lemma rewritten_volume_container_is_own_witness :
  query_get (u_Query (RewriteContainerURL (mkReqURL "/v1.41/commit" [("container", "web")]) 1001)) "container"
  = "user-1001-web" ∧
  (let c := query_get (u_Query (RewriteContainerURL (mkReqURL "/v1.41/commit" [("container", "web")]) 1001))
              "container" in
   c = "" ∨ isHexID c = true ∨ HasPrefix c (UserContainerPrefix 1001) = true).
Proof.
  split; [vm_compute; reflexivity|].
  destruct (rewritten_volume_container_is_own "/v1.41/commit" [("container", "web")] 1001)
    as (_ & _ & H).
  apply H. vm_compute. reflexivity.
Defined.
