(* ===== verification/Events.v ===== *)
(** * Events: the per-user filter of the Docker event stream

    [eventBelongsToUser] of [internal/forward/proxy.go], lines 2129-2553.  A
    [docker events] line is shown to a user when the resource it is about is
    the user's.  The decision reads the ownership database and five concurrent
    maps that cover the windows in which an event is delivered before the
    ownership record is written (builds, pulls) or after it is deleted
    (prunes).  The decoded line is the argument; [None] is a line that is not
    JSON of the expected shape.  The maps hold nothing but [pruneOwnerInfo], so
    the type assertions of the code always succeed. *)

From S2P Require Import Prelude GoStrings Database ImageDB ResourceDB Names.

Record Event := mkEvent {
  ev_Type : string;
  ev_Action : string;
  ev_ID : string;
  ev_Attributes : gmap string string;
}.

Record pruneOwnerInfo := mkPruneOwnerInfo { po_ownerUID : Z; po_privCtx : Z }.

(** What the filter reads of the server; [es_db] is [None] for a nil database. *)
Record EventState := mkEventState {
  pendingBuildTags : gmap string pruneOwnerInfo;
  completedBuildOwner : gmap string pruneOwnerInfo;
  pendingPullRefs : gmap string pruneOwnerInfo;
  completedPullOwner : gmap string pruneOwnerInfo;
  completedPruneOwner : gmap string pruneOwnerInfo;
  es_db : option OwnershipDB;
}.

(** ** Networks *)

(** The digits of the first [_u{digits}_] of a network name. *)
Fixpoint uid_segment (name : string) : option string :=
  match name with
  | "" => None
  | String c rest =>
    if negb (Ascii.eqb c "_") then uid_segment rest else
    match rest with
    | String "u" r =>
      let '(digits, after) := span is_digit r in
      if (digits ==s "") || negb (HasPrefix after "_") then uid_segment rest else Some digits
    | _ => uid_segment rest
    end
  end.

(** [found && privCtx == 1] of the database lookups by name. *)
Definition db_priv (q : OwnershipDB → option Z) (odb : option OwnershipDB) : bool :=
  match odb with
  | None => false
  | Some d => match q d with Some pc => pc ==z 1 | None => false end
  end.

(** Not visible in a view without sudo. *)
Definition hidden (sudoCtx : bool) (priv : Z) : bool := negb sudoCtx && (priv ==z 1).

Definition network_event (st : EventState) (ev : Event) (uid : Z) (sudoCtx : bool) : bool :=
  let uidStr := Itoa uid in
  let name := map_get (ev_Attributes ev) "name" in
  if name ==s UserBridgeName uid then true
  else if HasPrefix name "user-" && HasSuffix name "-bridge" then false
  else if HasPrefix name "peer-" then
    existsb (λ seg, seg ==s uidStr) (Split1 "-" (str_drop (slen "peer-") name))
  else
  match uid_segment name with
  | Some foundUID =>
    if foundUID !=s uidStr then false
    else if negb sudoCtx && db_priv (GetNetworkPrivCtxByName name) (es_db st) then false
    else true
  | None =>
    if db_priv (GetNetworkPrivCtxByName name) (es_db st) && negb sudoCtx then false
    else if match completedPruneOwner st !! ("network:" +:+ name) with
            | Some entry => (po_privCtx entry ==z 1) && negb sudoCtx
            | None => false
            end then false
    else
    let ctnID := map_get (ev_Attributes ev) "container" in
    match es_db st with
    | Some d =>
      if ctnID ==s "" then true else
      match GetContainerOwnerAndPrivCtx ctnID d with
      | Some (ctnOwnerUID, ctnPrivCtx) =>
        if ctnOwnerUID !=z uid then false
        else if hidden sudoCtx ctnPrivCtx then false else true
      | None =>
        match completedPruneOwner st !! ("container:" +:+ ctnID) with
        | Some entry =>
          if po_ownerUID entry !=z uid then false
          else if hidden sudoCtx (po_privCtx entry) then false else true
        | None => true
        end
      end
    | None => true
    end
  end.

(** ** Volumes *)

Definition volume_event (st : EventState) (ev : Event) (uid : Z) (sudoCtx : bool) : bool :=
  let name := if ev_ID ev ==s "" then map_get (ev_Attributes ev) "name" else ev_ID ev in
  if HasPrefix name ("user-" +:+ Itoa uid +:+ "-volume-") then
    if negb sudoCtx && db_priv (GetVolumePrivCtx name) (es_db st) then false else true
  else if HasPrefix name "user-" &&
          (let '(digits, rest) := span is_digit (str_drop (slen "user-") name) in
           (digits !=s "") && HasPrefix rest "-volume-") then false
  else
  match completedPruneOwner st !! ("volume:" +:+ name) with
  | Some entry =>
    if po_ownerUID entry !=z uid then false
    else if hidden sudoCtx (po_privCtx entry) then false else true
  | None =>
    match es_db st with
    | Some d =>
      match GetVolumeOwner name d with
      | Some owner =>
        if oi_UID owner !=z uid then false
        else if negb sudoCtx && db_priv (GetVolumePrivCtx name) (Some d) then false else true
      | None => true
      end
    | None => true
    end
  end.

(** ** Images *)

Definition entry_verdict (entry : pruneOwnerInfo) (uid : Z) (sudoCtx : bool) : bool :=
  if hidden sudoCtx (po_privCtx entry) then false else po_ownerUID entry ==z uid.

Definition when {A} (b : bool) (o : option A) : option A := if b then o else None.

(** The first record of the build and pull windows that the event hits, in the
    order the code looks (paths 0a to 0c.2). *)
Definition window_entry (st : EventState) (ev : Event) : option pruneOwnerInfo :=
  let name := map_get (ev_Attributes ev) "name" in
  let ref := ev_ID ev in
  let by_name := (name !=s "") && negb (HasPrefix name sha256_prefix) in
  let by_ref := (ref !=s "") && negb (HasPrefix ref sha256_prefix) in
  when by_name (pendingBuildTags st !! name)
  ∪ (when by_name (completedBuildOwner st !! name)
  ∪ (when by_name (pendingPullRefs st !! name)
  ∪ (when (by_ref && (ev_Action ev !=s "pull")) (pendingBuildTags st !! ref)
  ∪ (when (by_ref && (ev_Action ev !=s "pull")) (completedBuildOwner st !! ref)
  ∪ (when by_ref (pendingPullRefs st !! ref)
  ∪ (when ((ev_Action ev ==s "create") && HasPrefix ref sha256_prefix) (completedBuildOwner st !! ref)
  ∪ (when by_name (completedPullOwner st !! name)
  ∪ when by_ref (completedPullOwner st !! ref)))))))).

Definition image_event (st : EventState) (ev : Event) (uid : Z) (sudoCtx : bool) : bool :=
  match window_entry st ev with
  | Some entry => entry_verdict entry uid sudoCtx
  | None =>
    let imageID := if ev_ID ev ==s "" then map_get (ev_Attributes ev) "name" else ev_ID ev in
    match es_db st with
    | Some d =>
      if imageID ==s "" then true else
      match GetImageOwner imageID d with
      | Some (owner, isPublic, priv) =>
        if isPublic : bool then true
        else if oi_UID owner ==z uid then (if hidden sudoCtx priv then false else true)
        else HasImageAccess imageID uid d
      | None =>
        match completedPruneOwner st !! ("image:" +:+ imageID) with
        | Some entry =>
          if po_ownerUID entry !=z uid then false
          else if hidden sudoCtx (po_privCtx entry) then false else true
        | None => true
        end
      end
    | None => true
    end
  end.

(** ** Containers and everything else *)

Definition labelled_event (ev : Event) (uid : Z) (sudoCtx : bool) : bool :=
  let uidStr := Itoa uid in
  match ev_Attributes ev !! LabelOwnerUID with
  | Some v =>
    if v !=s uidStr then false
    else if negb sudoCtx && (GetLastLabelValue (map_get (ev_Attributes ev) LabelCallerType) ==s "sudo")
         then false
    else true
  | None =>
    match ev_Attributes ev !! LabelOwnerID with
    | Some v => v ==s uidStr
    | None => true
    end
  end.

Definition eventBelongsToUser (st : EventState) (line : option Event) (uid : Z) (sudoCtx : bool) : bool :=
  match line with
  | None => true
  | Some ev =>
    if ev_Type ev ==s "network" then network_event st ev uid sudoCtx
    else if ev_Type ev ==s "volume" then volume_event st ev uid sudoCtx
    else if ev_Type ev ==s "image" then image_event st ev uid sudoCtx
    else labelled_event ev uid sudoCtx
  end.

(** ** Lemmas: names *)

Lemma digit_not_dash c : is_digit c = true → Ascii.eqb "-" c = false.
Proof. intros Hc. destruct (Ascii.eqb_spec "-" c) as [<-|]; [by vm_compute in Hc|done]. Qed.

(** A name whose digit segment is another user's does not have the user's prefix. *)
Lemma user_prefix_other suf uid other x :
  (0 <= uid)%Z → (0 <= other)%Z → uid ≠ other →
  HasPrefix ("user-" +:+ Itoa other +:+ String "-" x) ("user-" +:+ Itoa uid +:+ String "-" suf) = false.
Proof.
  intros Hu Ho Hne. destruct (HasPrefix _ _) eqn:E; [exfalso|done].
  apply HasPrefix_spec in E as [r Hr].
  rewrite <- app_assoc_str in Hr. apply app_inj_l in Hr. rewrite <- app_assoc_str in Hr.
  destruct (run_unique is_digit (Itoa other) (Itoa uid) "-" "-" x (suf +:+ r)) as [Heq _];
    auto using Itoa_digits. by apply Hne, Itoa_inj.
Qed.

Lemma HasPrefix_stop a c r p :
  str_forallb (λ d, negb (Ascii.eqb c d)) p = true → HasPrefix (a +:+ String c r) p = HasPrefix a p.
Proof.
  revert p. induction a as [|x a IH]; intros [|d p]; cbn [str_forallb]; intros Hp;
    try (by rewrite !HasPrefix_empty); bool_hyps.
  - cbn [String.append]. rewrite HasPrefix_cons. destruct (Ascii.eqb_spec d c) as [->|]; [|done].
    by rewrite Ascii.eqb_refl in H.
  - cbn [String.append]. rewrite !HasPrefix_cons. by rewrite IH.
Qed.

Lemma uid_segment_user user uid x :
  str_forallb (λ d, negb (Ascii.eqb "_" d)) user = true → (0 <= uid)%Z →
  uid_segment (user +:+ "_u" +:+ Itoa uid +:+ String "_" x) = Some (Itoa uid).
Proof.
  intros Hu Hz. induction user as [|c user IH].
  - cbn [String.append uid_segment]. rewrite Ascii.eqb_refl. cbn [negb].
    rewrite (span_run is_digit (Itoa uid) "_" x) by (done || by apply Itoa_digits).
    rewrite (proj2 (String.eqb_neq _ _) (Itoa_ne uid)).
    by rewrite HasPrefix_cons, Ascii.eqb_refl, HasPrefix_empty.
  - cbn [str_forallb] in Hu. bool_hyps. cbn [String.append uid_segment].
    destruct (Ascii.eqb_spec c "_") as [->|]; [by rewrite Ascii.eqb_refl in H|]. by apply IH.
Qed.

Lemma peer_segments a b :
  (0 <= a)%Z → (0 <= b)%Z → Split1 "-" (Itoa a +:+ "-" +:+ Itoa b) = [Itoa a; Itoa b].
Proof.
  intros Ha Hb.
  assert (∀ z, (0 <= z)%Z → str_forallb (λ d, negb (Ascii.eqb "-" d)) (Itoa z) = true) as Hd.
  { intros z Hz. eapply str_forallb_impl, Itoa_digits, Hz. intros c Hc. by rewrite digit_not_dash. }
  change ("-" +:+ Itoa b) with (String "-" (Itoa b)).
  rewrite Split1_app, Split1_no_sep by auto. done.
Qed.

Lemma event_network st ev uid s :
  ev_Type ev = "network" → eventBelongsToUser st (Some ev) uid s = network_event st ev uid s.
Proof. unfold eventBelongsToUser. by intros ->. Qed.
Lemma event_volume st ev uid s :
  ev_Type ev = "volume" → eventBelongsToUser st (Some ev) uid s = volume_event st ev uid s.
Proof. unfold eventBelongsToUser. by intros ->. Qed.
Lemma event_image st ev uid s :
  ev_Type ev = "image" → eventBelongsToUser st (Some ev) uid s = image_event st ev uid s.
Proof. unfold eventBelongsToUser. by intros ->. Qed.
Lemma event_container st ev uid s :
  ev_Type ev = "container" → eventBelongsToUser st (Some ev) uid s = labelled_event ev uid s.
Proof. unfold eventBelongsToUser. by intros ->. Qed.

Lemma Itoa_eqb a b : (Itoa a ==s Itoa b) = (b =? a)%Z.
Proof.
  apply bool_eq_iff. rewrite String.eqb_eq, Z.eqb_eq.
  split; [intros H; by apply Itoa_inj in H|by intros ->].
Qed.

(** ** Properties *)

(** Volume events are isolated.  An event about a volume named for another
    user is never shown, whatever the database and the windows hold; an event
    about the user's own volume is shown, except to a view without sudo of a
    volume recorded as created with sudo. *)
Theorem volume_events_isolated st ev uid other x sudoCtx
    (Hu : (0 <= uid)%Z) (Ho : (0 <= other)%Z) (Ht : ev_Type ev = "volume")
    (Hid : ev_ID ev = UserVolumePrefix other +:+ x) :
  eventBelongsToUser st (Some ev) uid sudoCtx =
  (uid =? other)%Z && negb (negb sudoCtx && db_priv (GetVolumePrivCtx (ev_ID ev)) (es_db st)).
Proof.
  rewrite event_volume by done. unfold volume_event.
  assert ((ev_ID ev ==s "") = false) as -> by by rewrite Hid. cbv zeta.
  destruct (uid =? other)%Z eqn:E; bool_hyps.
  - subst other. unfold UserVolumePrefix in Hid. rewrite Hid at 1. rewrite HasPrefix_app. by case_match.
  - assert (ev_ID ev = "user-" +:+ Itoa other +:+ String "-" ("volume-" +:+ x)) as Hn
      by (rewrite Hid; unfold UserVolumePrefix; by rewrite <- !app_assoc_str).
    change (Itoa uid +:+ "-volume-") with (Itoa uid +:+ String "-" "volume-").
    rewrite Hn at 1. rewrite user_prefix_other by done.
    rewrite Hn, HasPrefix_app, str_drop_app, (span_run is_digit (Itoa other)) by (done || by apply Itoa_digits).
    rewrite (proj2 (String.eqb_neq _ _) (Itoa_ne other)).
    change (String "-" ("volume-" +:+ x)) with ("-volume-" +:+ x). by rewrite HasPrefix_app.
Qed.

(** Network events are isolated.  A user sees the events of the user's own
    bridge and of no other user's; of a peer network exactly when one of its two
    users; and, for user names without underscore that do not imitate the
    managed names, of a network named for a user exactly when it is that user's
    and is not hidden as created with sudo. *)
Theorem network_events_isolated st ev uid sudoCtx
    (Hu : (0 <= uid)%Z) (Ht : ev_Type ev = "network") :
  let name := map_get (ev_Attributes ev) "name" in
  let shown := eventBelongsToUser st (Some ev) uid sudoCtx in
  (∀ other, (0 <= other)%Z → name = UserBridgeName other → shown = (uid =? other)%Z) ∧
  (∀ a b, (0 <= a)%Z → (0 <= b)%Z → name = PeerNetworkName a b →
     shown = (uid =? a)%Z || (uid =? b)%Z) ∧
  (∀ id x, (0 <= RealUID id)%Z → name = UserResourcePrefix id +:+ x →
     str_forallb (λ d, negb (Ascii.eqb "_" d)) (RealUsername id) = true →
     HasPrefix (RealUsername id) "user-" = false → HasPrefix (RealUsername id) "peer-" = false →
     shown = (uid =? RealUID id)%Z &&
             negb (negb sudoCtx && db_priv (GetNetworkPrivCtxByName name) (es_db st))).
Proof.
  cbv zeta. rewrite event_network by done. unfold network_event. cbv zeta.
  set (name := map_get (ev_Attributes ev) "name"). split_and!.
  - intros other Ho ->. destruct (uid =? other)%Z eqn:E; bool_hyps; [subst; by rewrite eqb_str_refl|].
    destruct (_ ==s _) eqn:E1; bool_hyps.
    + unfold UserBridgeName in E1. apply app_inj_l in E1.
      destruct (run_unique is_digit (Itoa other) (Itoa uid) "-" "-" "bridge" "bridge") as [Heq _];
        auto using Itoa_digits. by apply Itoa_inj in Heq.
    + unfold UserBridgeName. rewrite HasPrefix_app. rewrite app_assoc_str, HasSuffix_app. done.
  - intros a b Ha Hb ->. unfold PeerNetworkName.
    assert (∀ a b, (0 <= a)%Z → (0 <= b)%Z →
      (if ("peer-" +:+ Itoa a +:+ "-" +:+ Itoa b) ==s UserBridgeName uid then true
       else if HasPrefix ("peer-" +:+ Itoa a +:+ "-" +:+ Itoa b) "user-" && HasSuffix ("peer-" +:+ Itoa a +:+ "-" +:+ Itoa b) "-bridge" then false
       else existsb (λ seg, seg ==s Itoa uid) (Split1 "-" (Itoa a +:+ "-" +:+ Itoa b)))
      = (uid =? a)%Z || (uid =? b)%Z) as Hgen.
    { clear a b Ha Hb. intros a b Ha Hb. rewrite peer_segments by done.
      simpl. by rewrite !Itoa_eqb, orb_false_r. }
    destruct (b <? a)%Z; [rewrite (orb_comm (uid =? a)%Z)|]; rewrite HasPrefix_app, str_drop_app; auto.
  - intros id x Hid Hname Hus Hp1 Hp2.
    assert (name = RealUsername id +:+ "_u" +:+ Itoa (RealUID id) +:+ String "_" x) as Hn
      by (rewrite Hname; unfold UserResourcePrefix; by rewrite <- !app_assoc_str).
    assert (HasPrefix name "user-" = false) as Hn1
      by (rewrite Hn; etrans; [by apply (HasPrefix_stop _ "_")|exact Hp1]).
    assert (HasPrefix name "peer-" = false) as Hn2
      by (rewrite Hn; etrans; [by apply (HasPrefix_stop _ "_")|exact Hp2]).
    assert ((name ==s UserBridgeName uid) = false) as Hn3.
    { apply String.eqb_neq. intros Heq. rewrite Heq in Hn1. unfold UserBridgeName in Hn1.
      by rewrite HasPrefix_app in Hn1. }
    rewrite Hn1, Hn2, Hn3. cbn [andb]. rewrite Hn at 1. rewrite uid_segment_user by done.
    rewrite Itoa_eqb. destruct (uid =? RealUID id)%Z; cbn [negb andb]; [by case_match|done].
Qed.

Lemma HasImageAccess_iff id uid d :
  HasImageAccess id uid d = true ↔
  db_down d = false ∧ normalizeImageID id ≠ "" ∧
  ∃ a, a ∈ image_access d ∧ a_image_id a = normalizeImageID id ∧ a_user_uid a = uid ∧
       a_privileged_context a = 0%Z.
Proof.
  unfold HasImageAccess. destruct (normalizeImageID id ==s "") eqn:E; bool_hyps; [naive_solver|].
  unfold Query. destruct (db_down d); simpl; [naive_solver|].
  rewrite Nat.ltb_lt, tbl_count_pos. unfold refs_image_uid.
  setoid_rewrite andb_true_iff. setoid_rewrite andb_true_iff.
  setoid_rewrite String.eqb_eq. setoid_rewrite Z.eqb_eq. naive_solver.
Qed.

(** An image event outside the build and pull windows is shown only for an
    image the user can use; and, unless the image is public, in a view without
    sudo only for an image the user can also see in listings.  Public images are
    always shown, private images of others only with an unprivileged
    reference. *)
Theorem image_events_follow_ownership st ev uid sudoCtx d r
    (Ht : ev_Type ev = "image") (Hid : ev_ID ev ≠ "") (Hwin : window_entry st ev = None)
    (Hdb : es_db st = Some d) (Hup : db_down d = false) (Hwf : image_wf d)
    (Hr : tbl_lookup (normalizeImageID (ev_ID ev)) (images d) = Some r)
    (Hn : normalizeImageID (ev_ID ev) ≠ "") :
  let shown := eventBelongsToUser st (Some ev) uid sudoCtx in
  (shown = true → CanUseImage uid (ev_ID ev) d = true) ∧
  (shown = true → sudoCtx = false → i_is_public r = 0%Z → CanSeeImage uid (ev_ID ev) d = true) ∧
  (i_is_public r ≠ 0%Z → shown = true) ∧
  (i_is_public r = 0%Z → i_owner_uid r ≠ uid → shown = HasImageAccess (ev_ID ev) uid d).
Proof.
  cbv zeta. rewrite event_image by done. unfold image_event. rewrite Hwin, Hdb.
  rewrite (proj2 (String.eqb_neq _ _) Hid). cbv zeta iota.
  rewrite (proj2 (String.eqb_neq _ _) Hid).
  pose proof (resolve_exact _ _ _ Hup Hr) as Hres.
  unfold GetImageOwner. rewrite Hres, (proj2 (String.eqb_neq _ _) Hn). unfold QueryRow. rewrite Hup, Hr.
  cbn [row_owner oi_UID]. split_and!.
  - intros Hs. apply CanUseImage_iff. right. rewrite Hres. split; [done|]. exists r. split; [done|].
    destruct (i_is_public r !=z 0) eqn:Ep; bool_hyps; [by left|]. right.
    destruct (i_owner_uid r ==z uid) eqn:Eo; bool_hyps; [by left|]. right.
    apply HasImageAccess_iff in Hs as (_ & _ & a & ? & ? & ? & _). eauto.
  - intros Hs -> Hp. rewrite Hp in Hs. cbn in Hs. apply CanSeeImage_iff; [apply Hwf|]. rewrite Hres.
    split; [done|]. destruct (i_owner_uid r ==z uid) eqn:Eo; bool_hyps.
    + left. exists r. split; [done|]. apply tbl_lookup_Some in Hr as [Hin _].
      destruct (wf_images_flags _ Hwf _ Hin) as [_ [Hpc|Hpc]]; [auto|].
      unfold hidden in Hs. by rewrite Hpc in Hs.
    + right. apply HasImageAccess_iff in Hs as (_ & _ & ?). done.
  - intros Hp. by rewrite (proj2 (Z.eqb_neq _ _) Hp).
  - intros -> Ho. cbn. by rewrite (proj2 (Z.eqb_neq _ _) Ho).
Qed.

Lemma appendLabel_lookup labels k v :
  appendLabel labels k v !! k = Some (match labels !! k with Some e => e +:+ "," +:+ v | None => v end).
Proof. unfold appendLabel. destruct (labels !! k); by rewrite lookup_insert_eq. Qed.

Lemma appendLabel_lookup_ne labels k k' v : k ≠ k' → appendLabel labels k v !! k' = labels !! k'.
Proof. intros. unfold appendLabel. destruct (labels !! k); by rewrite lookup_insert_ne. Qed.

Lemma system_labels_owner_uid labels id :
  ∃ pre, system_labels labels id !! LabelOwnerUID = Some (pre +:+ Itoa (RealUID id)) ∧
         (pre = "" ∨ ∃ e, pre = e +:+ ",").
Proof.
  unfold system_labels, setLabel.
  repeat first [rewrite appendLabel_lookup_ne by discriminate | rewrite lookup_insert_ne by discriminate].
  rewrite appendLabel_lookup. destruct (_ !! _) as [e|]; [exists (e +:+ ",")|exists ""]; (split; [|eauto]); [|done].
  f_equal. apply app_assoc_str.
Qed.

Lemma no_comma_app_comma e s : str_forallb (λ d, negb (Ascii.eqb "," d)) (e +:+ "," +:+ s) = false.
Proof. rewrite str_forallb_app. cbn [String.append str_forallb]. by rewrite Ascii.eqb_refl, andb_false_r. Qed.

(** Container events are isolated.  Events of a container that was created
    through the proxy carry its labels; whatever labels the creator asked for,
    they are shown to no user but the creator, and to a view without sudo only
    if the creator did not use sudo. *)
Theorem container_events_isolated st ev labels id uid sudoCtx
    (Ht : ev_Type ev = "container")
    (Hl : ∀ k, k ∈ [LabelOwnerUID; LabelCallerType] → ev_Attributes ev !! k = system_labels labels id !! k)
    (Hshown : eventBelongsToUser st (Some ev) uid sudoCtx = true) :
  uid = RealUID id ∧ (sudoCtx = false → id_UserType id ≠ UserTypeSudo).
Proof.
  rewrite event_container in Hshown by done. unfold labelled_event in Hshown. cbv zeta in Hshown.
  destruct (system_labels_owner_uid labels id) as (pre & Hlk & Hpre).
  rewrite (Hl LabelOwnerUID), Hlk in Hshown by by left.
  destruct (_ !=s Itoa uid) eqn:E; [done|]. bool_hyps.
  assert (uid = RealUID id) as ->.
  { destruct Hpre as [->|[e ->]].
    - by apply Itoa_inj in E.
    - rewrite <- app_assoc_str in E. pose proof (no_comma_app_comma e (Itoa (RealUID id))) as Hc.
      rewrite E, Itoa_no_comma in Hc. done. }
  split; [done|]. intros -> Hsudo.
  assert (map_get (ev_Attributes ev) LabelCallerType = "sudo") as Hct.
  { unfold map_get. rewrite Hl by (right; left). unfold system_labels, setLabel.
    repeat first [rewrite appendLabel_lookup_ne by discriminate | rewrite lookup_insert_ne by discriminate].
    rewrite lookup_insert_eq. by rewrite Hsudo. }
  by rewrite Hct, GetLastLabelValue_self in Hshown by done.
Qed.

(** A user name that itself holds a [_u{digits}_] segment defeats the network
    filter: "the first segment is the UID" fails, so the events of the network
    [svc_u1002] owns go to user 1002 and are hidden from their owner. *)
Theorem underscore_username_misroutes st ev x uid other
    (Hu : (0 <= uid)%Z) (Ho : (0 <= other)%Z) (Hne : uid ≠ other) (Ht : ev_Type ev = "network")
    (Hdb : es_db st = None)
    (Hname : map_get (ev_Attributes ev) "name" =
             UserResourcePrefix (tcp_identity ("svc_u" +:+ Itoa other) uid uid AuthSourceOS) +:+ x) :
  eventBelongsToUser st (Some ev) other false = true ∧
  eventBelongsToUser st (Some ev) uid false = false.
Proof.
  assert (map_get (ev_Attributes ev) "name" =
          "svc" +:+ "_u" +:+ Itoa other +:+ String "_" ("u" +:+ Itoa uid +:+ "_" +:+ x)) as Hn.
  { rewrite Hname. unfold UserResourcePrefix. simpl RealUsername. by rewrite <- !app_assoc_str. }
  assert (∀ z, (map_get (ev_Attributes ev) "name" ==s UserBridgeName z) = false) as Hb.
  { intros z. by rewrite Hn. }
  rewrite !event_network by done. unfold network_event. cbv zeta. rewrite !Hb, Hn.
  assert (∀ s, HasPrefix ("svc" +:+ s) "user-" = false) as -> by done.
  assert (∀ s, HasPrefix ("svc" +:+ s) "peer-" = false) as -> by done. cbn [andb].
  rewrite uid_segment_user by done. rewrite Hdb. unfold db_priv. rewrite !Itoa_eqb.
  rewrite Z.eqb_refl. rewrite (proj2 (Z.eqb_neq uid other) Hne). done.
Qed.

(** ** Witnesses *)

Module EventDemo.
Definition st : EventState := mkEventState ∅ ∅ ∅ ∅ ∅ (Some ImageDemo.db).
Definition st_nodb : EventState := mkEventState ∅ ∅ ∅ ∅ ∅ None.
Definition alice : CallerIdentity := ImageDemo.alice.
Definition volume_ev : Event := mkEvent "volume" "create" "user-1002-volume-data" ∅.
Definition net_ev (name : string) : Event := mkEvent "network" "connect" "n1" {["name" := name]}.
Definition image_ev : Event := mkEvent "image" "delete" ImageDemo.digest ∅.
Definition ctn_ev : Event := mkEvent "container" "start" "c1" (system_labels {[LabelOwnerUID := "1002"]} alice).
End EventDemo.

Lemma volume_events_isolated_witness :
  eventBelongsToUser EventDemo.st (Some EventDemo.volume_ev) 1001 false = false.
Proof.
  rewrite (volume_events_isolated EventDemo.st EventDemo.volume_ev 1001 1002 "data" false);
    [vm_compute; reflexivity|lia|lia|reflexivity|vm_compute; reflexivity].
Defined.

Lemma network_events_isolated_witness :
  eventBelongsToUser EventDemo.st (Some (EventDemo.net_ev "user-1002-bridge")) 1001 false = false ∧
  eventBelongsToUser EventDemo.st (Some (EventDemo.net_ev "peer-1001-1002")) 1001 false = true.
Proof.
  split.
  - destruct (network_events_isolated EventDemo.st (EventDemo.net_ev "user-1002-bridge") 1001 false)
      as [H _]; [lia|reflexivity|].
    rewrite (H 1002%Z); [reflexivity|lia|vm_compute; reflexivity].
  - destruct (network_events_isolated EventDemo.st (EventDemo.net_ev "peer-1001-1002") 1001 false)
      as (_ & H & _); [lia|reflexivity|].
    rewrite (H 1001%Z 1002%Z); [reflexivity|lia|lia|vm_compute; reflexivity].
Defined.

Lemma image_events_follow_ownership_witness :
  eventBelongsToUser EventDemo.st (Some EventDemo.image_ev) 1001 false = true ∧
  CanUseImage 1001 ImageDemo.digest ImageDemo.db = true.
Proof.
  split; [vm_compute; reflexivity|].
  destruct (image_events_follow_ownership EventDemo.st EventDemo.image_ev 1001 false ImageDemo.db
    (mkImageRow ImageDemo.long "bob" 1002 1002 0 0 "build" 7)) as [H _];
    [reflexivity|discriminate|vm_compute; reflexivity|reflexivity|reflexivity|exact demo_db_wf
    |vm_compute; reflexivity|discriminate|].
  apply H. vm_compute. reflexivity.
Defined.

Lemma container_events_isolated_witness : ∃ uid, uid = RealUID EventDemo.alice ∧
  eventBelongsToUser EventDemo.st (Some (mkEvent "container" "start" "c1" (system_labels ∅ EventDemo.alice)))
    uid false = true.
Proof.
  exists 1001%Z. split; [|vm_compute; reflexivity].
  destruct (container_events_isolated EventDemo.st
    (mkEvent "container" "start" "c1" (system_labels ∅ EventDemo.alice)) ∅ EventDemo.alice 1001 false)
    as [H _]; [reflexivity|intros k _; reflexivity|vm_compute; reflexivity|exact H].
Defined.

Lemma underscore_username_misroutes_witness :
  eventBelongsToUser EventDemo.st_nodb (Some (EventDemo.net_ev "svc_u1002_u1001_web")) 1002 false = true.
Proof.
  apply (underscore_username_misroutes EventDemo.st_nodb (EventDemo.net_ev "svc_u1002_u1001_web") "web" 1001 1002);
    [lia|lia|discriminate|reflexivity|reflexivity|vm_compute; reflexivity].
Defined.
