(* ===== verification/GoJson.v ===== *)
(** * GoJson: JSON documents as encoding/json reads and writes them

    A document is its value tree; an object keeps its members in the order and
    with the repetitions of the text.  Decoding into a struct matches a member
    to a field without regard to case and decodes repeated members one after the
    other into the same field; decoding into a map keeps the last member of each
    exact name; encoding a map writes the members in the byte order of their
    names.  An integer literal is [JInt]; a number with a fraction or an exponent
    is [JNum] (no integer field accepts it). *)

From stdpp Require Export sorting.
From S2P Require Import Prelude GoStrings.

Inductive json :=
  | JNull
  | JBool (b : bool)
  | JInt (z : Z)
  | JNum (literal : string)
  | JStr (s : string)
  | JArr (l : list json)
  | JObj (kvs : list (string * json)).

(** A request body: empty, not JSON, or a document. *)
Inductive body := EmptyBody | InvalidBody | Doc (j : json).

(** ** Member names *)

(** The case folding of names: the ASCII letters, U+212A as [k], U+017F as [s]. *)
Fixpoint fold_key (s : string) : string :=
  match s with
  | String "226" (String "132" (String "170" r)) => String "k" (fold_key r)
  | String "197" (String "191" r) => String "s" (fold_key r)
  | String c r => String (ascii_lower c) (fold_key r)
  | "" => ""
  end.

Definition key_is (field key : string) : bool := fold_key key ==s fold_key field.

(** ** Decoding into a struct field *)

(** A decoder updates the current value and tells whether the types fit. *)
Definition decode_int64 (cur : Z) (v : json) : Z * bool :=
  match v with
  | JNull => (cur, true)
  | JInt z => if bool_decide (in_int64 z) then (z, true) else (cur, false)
  | _ => (cur, false)
  end.

Definition decode_string (cur : string) (v : json) : string * bool :=
  match v with
  | JNull => (cur, true)
  | JStr s => (s, true)
  | _ => (cur, false)
  end.

Definition decode_bool (cur : bool) (v : json) : bool * bool :=
  match v with
  | JNull => (cur, true)
  | JBool b => (b, true)
  | _ => (cur, false)
  end.

(** [map[string]string]: [null] makes it nil, an object adds its members. *)
Definition decode_string_map (cur : option (gmap string string)) (v : json)
    : option (gmap string string) * bool :=
  match v with
  | JNull => (None, true)
  | JObj kvs =>
    foldl (λ '(m, ok) kv,
      let '(s, ok') := decode_string "" kv.2 in
      (Some (<[kv.1 := s]> (default ∅ m)), ok && ok')) (Some (default ∅ cur), true) kvs
  | _ => (cur, false)
  end.

(** The field of a struct after the members of an object. *)
Definition field {A} (dec : A → json → A * bool) (name : string) (kvs : list (string * json)) (init : A) : A :=
  foldl (λ a kv, if key_is name kv.1 then (dec a kv.2).1 else a) init kvs.

(** Whether every member for the field has the field's type; whether it has
    does not depend on the value the field holds. *)
Definition field_ok {A} (dec : A → json → A * bool) (name : string) (kvs : list (string * json)) (init : A) : bool :=
  forallb (λ kv, if key_is name kv.1 then (dec init kv.2).2 else true) kvs.

(** A slice: [null] makes it nil, an array decodes its elements afresh.  (Go
    decodes the elements of a repeated array member over those of the earlier
    one; the model starts each from the zero value.) *)
Definition decode_list {A} (dec : A → json → A * bool) (zero : A) (cur : list A) (v : json)
    : list A * bool :=
  match v with
  | JNull => ([], true)
  | JArr l => ((λ v, (dec zero v).1) <$> l, forallb (λ v, (dec zero v).2) l)
  | _ => (cur, false)
  end.

(** A struct, given how its fields read the members of an object. *)
Definition decode_struct {A} (fields : list (string * json) → A → A) (ok : list (string * json) → bool)
    (cur : A) (v : json) : A * bool :=
  match v with
  | JNull => (cur, true)
  | JObj kvs => (fields kvs cur, ok kvs)
  | _ => (cur, false)
  end.

(** A struct with the one string field [name]. *)
Definition decode_id (name : string) : string → json → string * bool :=
  decode_struct (λ kvs s, field decode_string name kvs s) (λ kvs, field_ok decode_string name kvs "").
(** [[]string]. *)
Definition decode_strings : list string → json → list string * bool := decode_list decode_string "".

(** [json.Unmarshal] of a document into a zero value: [None] is a type error. *)
Definition unmarshal_as {A} (dec : A → json → A * bool) (zero : A) (j : json) : option A :=
  let '(a, ok) := dec zero j in if ok : bool then Some a else None.

(** [strings.EqualFold] against an ASCII string. *)
Definition EqualFold (s ascii_str : string) : bool := fold_key s ==s fold_key ascii_str.

(** ** Maps *)

Definition obj_map (kvs : list (string * json)) : gmap string json :=
  foldl (λ m kv, <[kv.1 := kv.2]> m) ∅ kvs.

Definition key_le (a b : string * json) : Prop := String.leb a.1 b.1 = true.
#[export] Instance key_le_dec : RelDecision key_le.
Proof. intros a b. unfold key_le. apply _. Defined.

(** [json.Marshal] of a map. *)
Definition marshal_map (m : gmap string json) : json :=
  JObj (merge_sort key_le (map_to_list m)).

(** [json.Unmarshal] into a [map[string]json.RawMessage] that is nil: [None] is
    an error, [Some None] a map still nil. *)
Definition unmarshal_map (j : json) : option (option (gmap string json)) :=
  match j with
  | JNull => Some None
  | JObj kvs => Some (Some (obj_map kvs))
  | _ => None
  end.

(** ** Lemmas *)

Lemma marshal_members m kv :
  kv ∈ merge_sort key_le (map_to_list m) ↔ m !! kv.1 = Some kv.2.
Proof.
  rewrite (merge_sort_Permutation key_le (map_to_list m)). destruct kv. apply elem_of_map_to_list.
Qed.

Lemma marshal_NoDup m : NoDup (merge_sort key_le (map_to_list m)).*1.
Proof.
  rewrite (merge_sort_Permutation key_le (map_to_list m)). apply NoDup_fst_map_to_list.
Qed.

(** A field no member is for keeps its value. *)
Lemma field_absent {A} (dec : A → json → A * bool) name kvs init :
  (∀ kv, kv ∈ kvs → key_is name kv.1 = false) → field dec name kvs init = init.
Proof.
  unfold field. revert init. induction kvs as [|kv kvs IH]; intros init H; [done|]. simpl.
  rewrite (H kv) by left. apply IH. intros kv' Hin. apply H. by right.
Qed.

(** A field that exactly one member is for is decoded from it. *)
Lemma field_unique {A} (dec : A → json → A * bool) name k v kvs init :
  NoDup kvs.*1 → (k, v) ∈ kvs → key_is name k = true →
  (∀ kv, kv ∈ kvs → key_is name kv.1 = true → kv.1 = k) →
  field dec name kvs init = (dec init v).1.
Proof.
  unfold field. revert init. induction kvs as [|[k' v'] kvs IH]; intros init Hnd Hin Hk Hu;
    [by apply elem_of_nil in Hin|]. csimpl in Hnd. apply NoDup_cons in Hnd as [Hn Hnd]. simpl.
  apply elem_of_cons in Hin as [[= -> ->]|Hin].
  - rewrite Hk. apply field_absent. intros kv Hkv. destruct (key_is name kv.1) eqn:E; [exfalso|done].
    apply Hn. rewrite <- (Hu kv) by (done || by right). by apply list_elem_of_fmap_2.
  - destruct (key_is name k') eqn:E.
    + exfalso. apply Hn. assert (k' = k) as -> by (apply (Hu (k', v')); [left|done]).
      change k with (k, v).1. by apply list_elem_of_fmap_2.
    + apply IH; try done. intros kv Hkv. apply Hu. by right.
Qed.

(** Reading a field back from an encoded map whose names are not ambiguous. *)
Lemma field_marshal {A} (dec : A → json → A * bool) name (m : gmap string json) init :
  (∀ k v, m !! k = Some v → key_is name k = true → k = name) →
  field dec name (merge_sort key_le (map_to_list m)) init =
  match m !! name with Some v => (dec init v).1 | None => init end.
Proof.
  intros Hu. destruct (m !! name) as [v|] eqn:E.
  - apply (field_unique dec name name v).
    + apply marshal_NoDup.
    + by apply marshal_members.
    + unfold key_is. apply eqb_str_refl.
    + intros [k w] Hin%marshal_members. by apply (Hu k w).
  - apply field_absent. intros [k w] Hin%marshal_members. simpl in *.
    destruct (key_is name k) eqn:F; [|done]. rewrite (Hu k w Hin F) in Hin. congruence.
Qed.

Lemma field_ok_marshal {A} (dec : A → json → A * bool) name (m : gmap string json) init :
  (∀ k v, m !! k = Some v → key_is name k = true → k = name) →
  (∀ v, m !! name = Some v → (dec init v).2 = true) →
  field_ok dec name (merge_sort key_le (map_to_list m)) init = true.
Proof.
  intros Hu Hd. unfold field_ok. apply forallb_forall. intros [k w] Hin%list_elem_of_In%marshal_members.
  simpl in *. destruct (key_is name k) eqn:F; [|done]. apply Hd. by rewrite <- (Hu k w Hin F).
Qed.

Lemma obj_map_lookup_app kvs k v :
  obj_map (kvs ++ [(k, v)]) = <[k := v]> (obj_map kvs).
Proof. unfold obj_map. by rewrite foldl_app. Qed.

(** In a document without ambiguous names the map and the struct agree. *)
Lemma obj_map_unique kvs k v : NoDup kvs.*1 → obj_map kvs !! k = Some v ↔ (k, v) ∈ kvs.
Proof.
  induction kvs as [|[k' v'] kvs IH] using rev_ind; intros Hnd.
  { unfold obj_map. simpl. rewrite lookup_empty, elem_of_nil. naive_solver. }
  rewrite fmap_app, NoDup_app in Hnd. destruct Hnd as (Hnd & Hdis & _).
  rewrite obj_map_lookup_app, elem_of_app, list_elem_of_singleton.
  destruct (decide (k' = k)) as [->|Hne].
  - rewrite lookup_insert_eq. split; [intros [= ->]; by right|]. intros [Hin|[= ->]]; [exfalso|done].
    apply (Hdis k); [change k with (k, v).1; by apply list_elem_of_fmap_2|left].
  - rewrite lookup_insert_ne, IH by done. naive_solver.
Qed.

Lemma obj_map_Some kvs k v : obj_map kvs !! k = Some v → (k, v) ∈ kvs.
Proof.
  induction kvs as [|[k' v'] kvs IH] using rev_ind; [done|].
  rewrite obj_map_lookup_app, elem_of_app, list_elem_of_singleton.
  destruct (decide (k' = k)) as [->|Hne]; [rewrite lookup_insert_eq; intros [= ->]; by right|].
  rewrite lookup_insert_ne by done. intros H. left. auto.
Qed.

(** ** Unambiguous objects *)

(** No member is repeated and none is named like a field in another case. *)
Definition unambiguous (fields : list string) (kvs : list (string * json)) : Prop :=
  NoDup kvs.*1 ∧ ∀ kv f, kv ∈ kvs → f ∈ fields → key_is f kv.1 = true → kv.1 = f.

Lemma field_obj_map {A} (dec : A → json → A * bool) fields name kvs init :
  unambiguous fields kvs → name ∈ fields →
  field dec name kvs init = match obj_map kvs !! name with Some v => (dec init v).1 | None => init end.
Proof.
  intros [Hnd Hu] Hf. destruct (obj_map kvs !! name) as [v|] eqn:E.
  - apply obj_map_unique in E; [|done]. apply (field_unique dec name name v); [done..| |].
    + unfold key_is. apply eqb_str_refl.
    + intros kv Hin Hk. by apply (Hu kv name).
  - apply field_absent. intros kv Hin. destruct (key_is name kv.1) eqn:F; [exfalso|done].
    rewrite (proj2 (obj_map_unique kvs name kv.2 Hnd)) in E; [done|].
    rewrite <- (Hu kv name Hin Hf F). by destruct kv.
Qed.

Lemma field_ok_obj_map {A} (dec : A → json → A * bool) fields name kvs init :
  unambiguous fields kvs → name ∈ fields →
  field_ok dec name kvs init = match obj_map kvs !! name with Some v => (dec init v).2 | None => true end.
Proof.
  intros [Hnd Hu] Hf. unfold field_ok. apply eq_true_iff_eq. rewrite forallb_forall. split.
  - intros H. destruct (obj_map kvs !! name) as [v|] eqn:E; [|done].
    apply obj_map_unique in E; [|done]. specialize (H _ (proj1 (list_elem_of_In _ _) E)).
    cbn [fst snd] in H. unfold key_is in H. by rewrite eqb_str_refl in H.
  - intros H [k v] Hin%list_elem_of_In. cbn [fst snd]. destruct (key_is name k) eqn:F; [|done].
    assert (k = name) as -> by (by apply (Hu (k, v))).
    rewrite (proj2 (obj_map_unique kvs name v Hnd) Hin) in H. done.
Qed.

(** Deciding it. *)
Definition unambiguousb (fields : list string) (kvs : list (string * json)) : bool :=
  bool_decide (NoDup kvs.*1) && forallb (λ k, forallb (λ f, implb (key_is f k) (k ==s f)) fields) kvs.*1.
Lemma unambiguousb_spec fields kvs : unambiguousb fields kvs = true → unambiguous fields kvs.
Proof.
  unfold unambiguousb. rewrite andb_true_iff, bool_decide_eq_true, forallb_forall. intros [Hnd H].
  split; [done|]. intros kv f Hkv Hf Hk.
  specialize (H kv.1 ltac:(apply list_elem_of_In; by apply list_elem_of_fmap_2)).
  rewrite forallb_forall in H. specialize (H f ltac:(by apply list_elem_of_In)).
  rewrite Hk in H. by apply String.eqb_eq in H.
Qed.
Lemma unambiguous_marshal fields kvs (m : gmap string json) :
  (∀ k, is_Some (m !! k) → k ∈ fields ∨ k ∈ kvs.*1) →
  (∀ f g, f ∈ fields → g ∈ fields → key_is f g = true → g = f) →
  unambiguous fields kvs → unambiguous fields (merge_sort key_le (map_to_list m)).
Proof.
  intros Hm Hff [_ Hu]. split; [apply marshal_NoDup|].
  intros [k v] f Hin%marshal_members Hf Hk. simpl in *.
  destruct (Hm k) as [Hkf|Hkk]; [eauto|by apply Hff|].
  apply list_elem_of_fmap in Hkk as (kv & -> & Hkv). by apply (Hu kv f).
Qed.

Lemma obj_map_marshal m : obj_map (merge_sort key_le (map_to_list m)) = m.
Proof.
  apply map_eq. intros k. apply option_eq. intros v.
  rewrite obj_map_unique by apply marshal_NoDup. apply marshal_members.
Qed.

(** The members of an encoded map, under names that stay unambiguous. *)
Lemma unambiguous_encoded fields kvs (m : gmap string json) :
  (∀ f g, f ∈ fields → g ∈ fields → key_is f g = true → g = f) →
  unambiguous fields kvs → (∀ k, is_Some (m !! k) → k ∈ fields ∨ k ∈ kvs.*1) →
  unambiguous fields (merge_sort key_le (map_to_list m)).
Proof. intros Hd Hu Hm. by apply (unambiguous_marshal fields kvs). Qed.

Lemma obj_map_key kvs k : is_Some (obj_map kvs !! k) → k ∈ kvs.*1.
Proof. intros [v Hv%obj_map_Some]. change k with (k, v).1. by apply list_elem_of_fmap_2. Qed.

(** Reading a field of an object of which some members were written. *)
Lemma field_encoded {A} (dec : A → json → A * bool) fields kvs (m : gmap string json) name init :
  (∀ f g, f ∈ fields → g ∈ fields → key_is f g = true → g = f) →
  unambiguous fields kvs → (∀ k, is_Some (m !! k) → k ∈ fields ∨ k ∈ kvs.*1) → name ∈ fields →
  field dec name (merge_sort key_le (map_to_list m)) init =
    match m !! name with Some v => (dec init v).1 | None => init end ∧
  field_ok dec name (merge_sort key_le (map_to_list m)) init =
    match m !! name with Some v => (dec init v).2 | None => true end.
Proof.
  intros Hd Hu Hm Hn. pose proof (unambiguous_encoded fields kvs m Hd Hu Hm) as Hu'.
  split; [rewrite (field_obj_map dec fields) by done|rewrite (field_ok_obj_map dec fields) by done];
    by rewrite obj_map_marshal.
Qed.

(** Field names that are told apart even without regard to case. *)
Definition distinct_fields (fields : list string) : bool :=
  forallb (λ f, forallb (λ g, implb (key_is f g) (g ==s f)) fields) fields.
Lemma distinct_fields_spec fields f g :
  distinct_fields fields = true → f ∈ fields → g ∈ fields → key_is f g = true → g = f.
Proof.
  unfold distinct_fields. rewrite forallb_forall. intros H Hf Hg Hk.
  specialize (H f ltac:(by apply list_elem_of_In)). rewrite forallb_forall in H.
  specialize (H g ltac:(by apply list_elem_of_In)). rewrite Hk in H. by apply String.eqb_eq in H.
Qed.
