(* ===== verification/GoJsonText.v ===== *)
(** * GoJsonText: the text of JSON documents

    GoJson has documents as value trees; here is how [encoding/json] writes them
    ([json.Marshal], with its escapes for HTML) and reads them ([json.Unmarshal] into
    a value), byte by byte: UTF-8, escapes and surrogates, numbers, nesting up to
    10000.  What is written is read back, but that bytes which are no UTF-8 are read
    as U+FFFD. *)

From S2P Require Import Prelude GoStrings GoJson.

(** ** UTF-8 *)

Definition code (c : ascii) : N := N_of_ascii c.
Definition in_range (lo hi : N) (c : ascii) : bool := (lo <=? code c)%N && (code c <=? hi)%N.
Definition cont : ascii → bool := in_range 128 191.
Definition byte (n : N) : ascii := ascii_of_N n.

(** [utf8.DecodeRuneInString]: the length of the encoding a string starts with; 0 when
    there is none. *)
Definition rune_len (s : string) : nat :=
  match s with
  | "" => 0
  | String c0 r =>
    if (code c0 <? 128)%N then 1 else
    if in_range 194 223 c0 then
      match r with String c1 _ => if cont c1 then 2 else 0 | _ => 0 end else
    if in_range 224 239 c0 then
      match r with
      | String c1 (String c2 _) =>
        if in_range (if (code c0 =? 224)%N then 160 else 128) (if (code c0 =? 237)%N then 159 else 191) c1 && cont c2 then 3 else 0
      | _ => 0
      end else
    if in_range 240 244 c0 then
      match r with
      | String c1 (String c2 (String c3 _)) =>
        if in_range (if (code c0 =? 240)%N then 144 else 128) (if (code c0 =? 244)%N then 143 else 191) c1 && cont c2 && cont c3
        then 4 else 0
      | _ => 0
      end else 0
  end.

(** A string rune by rune: an ASCII byte, a longer encoding, a byte of none. *)
Inductive rune := Single (c : ascii) | Multi (s : string) | Invalid.
Definition next_rune (s : string) : option (rune * string) :=
  match s with
  | "" => None
  | String c r =>
    if (code c <? 128)%N then Some (Single c, r) else
    match rune_len s with 0 => Some (Invalid, r) | k => Some (Multi (str_take k s), str_drop k s) end
  end.
Fixpoint runes_go (fuel : nat) (s : string) : list rune :=
  match fuel with
  | 0 => []
  | S n => match next_rune s with None => [] | Some (x, r) => x :: runes_go n r end
  end.
Definition runes (s : string) : list rune := runes_go (slen s) s.

(** [utf8.EncodeRune]. *)
Definition encode_rune (n : N) : string :=
  if (n <? 128)%N then String (byte n) "" else
  if (n <? 2048)%N then String (byte (192 + n / 64)) (String (byte (128 + n mod 64)) "") else
  if (n <? 65536)%N then
    String (byte (224 + n / 4096)) (String (byte (128 + n / 64 mod 64)) (String (byte (128 + n mod 64)) "")) else
  String (byte (240 + n / 262144)) (String (byte (128 + n / 4096 mod 64))
    (String (byte (128 + n / 64 mod 64)) (String (byte (128 + n mod 64)) ""))).
Definition replacement : string := encode_rune 65533.

Definition rune_bytes (x : rune) : string :=
  match x with Single c => String c "" | Multi s => s | Invalid => replacement end.
Definition concat_str (l : list string) : string := foldr String.append "" l.
(** A string with every byte that is no UTF-8 replaced. *)
Definition sanitize (s : string) : string := concat_str (rune_bytes <$> runes s).

(** ** Writing *)

Definition hex_char (n : N) : ascii := byte (if (n <? 10)%N then 48 + n else 87 + n).
Definition html_safe (c : ascii) : bool :=
  in_range 32 127 c && negb (existsb (λ n, (code c =? n)%N) [34; 38; 60; 62; 92]%N).
Definition escaped_byte (c : ascii) : string :=
  if html_safe c then String c "" else
  match code c with
  | 34%N | 92%N => String "\" (String c "")
  | 10%N => "\n"
  | 13%N => "\r"
  | 9%N => "\t"
  | n => "\u00" +:+ String (hex_char (n / 16)) (String (hex_char (n mod 16)) "")
  end.
Definition line_separator : string := encode_rune 8232.
Definition paragraph_separator : string := encode_rune 8233.
Definition escaped (x : rune) : string :=
  match x with
  | Single c => escaped_byte c
  | Invalid => "\ufffd"
  | Multi s => if s ==s line_separator then "\u2028" else if s ==s paragraph_separator then "\u2029" else s
  end.
Definition quote_char : ascii := "034".
Definition encode_string (s : string) : string :=
  String quote_char (concat_str (escaped <$> runes s) +:+ String quote_char "").

(** [json.Marshal]: the text of a document. *)
Fixpoint json_text (j : json) : string :=
  match j with
  | JNull => "null"
  | JBool true => "true"
  | JBool false => "false"
  | JInt z => Itoa z
  | JNum literal => literal
  | JStr s => encode_string s
  | JArr l => "[" +:+ GoStrings.Join (List.map json_text l) "," +:+ "]"
  | JObj kvs => "{" +:+ GoStrings.Join (List.map (λ '(k, v), encode_string k +:+ ":" +:+ json_text v) kvs) "," +:+ "}"
  end.

(** ** Reading strings *)

Definition hex_value (c : ascii) : option N :=
  if in_range 48 57 c then Some (code c - 48)%N else
  if in_range 97 102 c then Some (code c - 87)%N else
  if in_range 65 70 c then Some (code c - 55)%N else None.
(** [getu4], behind the backslash and the [u]. *)
Definition hex4 (s : string) : option (N * string) :=
  match s with
  | String a (String b (String c (String d r))) =>
    match hex_value a, hex_value b, hex_value c, hex_value d with
    | Some a, Some b, Some c, Some d => Some (4096 * a + 256 * b + 16 * c + d, r)%N
    | _, _, _, _ => None
    end
  | _ => None
  end.
Definition eat (c : ascii) (s : string) : option string :=
  match s with String x r => if Ascii.eqb x c then Some r else None | "" => None end.
Definition is_surrogate (n : N) : bool := (55296 <=? n)%N && (n <? 57344)%N.
Definition next_u (s : string) : option (N * string) := s ← eat "\" s; s ← eat "u" s; hex4 s.
(** An escape [\uXXXX], together with the second one of a surrogate pair. *)
Definition unescape_u (s : string) : option (string * string) :=
  '(n, r) ← hex4 s;
  if negb (is_surrogate n) then Some (encode_rune n, r) else
  match next_u r with
  | Some (m, r') =>
    if (n <? 56320)%N && (56320 <=? m)%N && (m <? 57344)%N
    then Some (encode_rune (65536 + (n - 55296) * 1024 + (m - 56320)), r') else Some (replacement, r)
  | None => Some (replacement, r)
  end.
Definition unescape (s : string) : option (string * string) :=
  match s with
  | "" => None
  | String c r =>
    match code c with
    | 34%N | 47%N | 92%N => Some (String c "", r)
    | 98%N => Some (String "008" "", r)
    | 102%N => Some (String "012" "", r)
    | 110%N => Some (String "010" "", r)
    | 114%N => Some (String "013" "", r)
    | 116%N => Some (String "009" "", r)
    | 117%N => unescape_u r
    | _ => None
    end
  end.
(** One character of a string, and what is behind it. *)
Definition unquote_char (s : string) : option (string * string) :=
  match next_rune s with
  | None => None
  | Some (Single c, r) =>
    if Ascii.eqb c "\" then unescape r else if (code c <? 32)%N then None else Some (String c "", r)
  | Some (x, r) => Some (rune_bytes x, r)
  end.
(** A string behind its first quotation mark. *)
Fixpoint unquote (fuel : nat) (s : string) : option (string * string) :=
  match fuel with
  | 0 => None
  | S n =>
    match eat quote_char s with
    | Some r => Some ("", r)
    | None => '(b, r) ← unquote_char s; '(t, r) ← unquote n r; Some (b +:+ t, r)
    end
  end.
Definition parse_string (s : string) : option (string * string) :=
  r ← eat quote_char s; unquote (slen r) r.

(** ** Reading numbers *)

Fixpoint decimal (acc : Z) (s : string) : Z :=
  match s with "" => acc | String c r => decimal (acc * 10 + digit_val c) r end.
Definition is_num_char (c : ascii) : bool :=
  is_digit c || existsb (Ascii.eqb c) ["-"; "+"; "."; "e"; "E"]%char.
Definition exponent_ok (s : string) : bool :=
  match s with
  | "" => true
  | String c r =>
    let digits := match r with String d r' => if Ascii.eqb d "+" || Ascii.eqb d "-" then r' else r | "" => r end in
    (Ascii.eqb c "e" || Ascii.eqb c "E") && negb (digits ==s "") && str_forallb is_digit digits
  end.
Definition fraction_ok (s : string) : bool :=
  match eat "." s with
  | Some r => let '(ds, r') := span is_digit r in negb (ds ==s "") && exponent_ok r'
  | None => exponent_ok s
  end.
Definition number_of (lit : string) : option json :=
  let '(neg, s) := match eat "-" lit with Some r => (true, r) | None => (false, lit) end in
  let '(int, r) := span is_digit s in
  if (int ==s "") || (HasPrefix int "0" && negb (int ==s "0")) then None else
  if r ==s "" then Some (JInt (if neg : bool then - decimal 0 int else decimal 0 int)) else
  if fraction_ok r then Some (JNum lit) else None.
Definition parse_number (s : string) : option (json * string) :=
  let '(lit, r) := span is_num_char s in (λ j, (j, r)) <$> number_of lit.

(** ** Reading documents *)

Definition is_json_space (c : ascii) : bool := existsb (Ascii.eqb c) [" "; "009"; "010"; "013"]%char.
Definition skip_ws (s : string) : string := (span is_json_space s).2.
Definition token (c : ascii) (s : string) : option string := eat c (skip_ws s).
Definition literal (word : string) (j : json) (s : string) : option (json * string) :=
  if HasPrefix s word then Some (j, str_drop (slen word) s) else None.
Definition maxNestingDepth : N := 10000.

(** [d] objects and arrays are open. *)
Fixpoint parse_value (fuel : nat) (d : N) (s : string) : option (json * string) :=
  match fuel with
  | 0 => None
  | S n =>
    let s := skip_ws s in
    match eat "{" s with
    | Some r =>
      if (maxNestingDepth <=? d)%N then None else
      match token "}" r with
      | Some r => Some (JObj [], r)
      | None => '(kvs, r) ← parse_members n (d + 1) r; Some (JObj kvs, r)
      end
    | None =>
      match eat "[" s with
      | Some r =>
        if (maxNestingDepth <=? d)%N then None else
        match token "]" r with
        | Some r => Some (JArr [], r)
        | None => '(l, r) ← parse_elements n (d + 1) r; Some (JArr l, r)
        end
      | None =>
        match eat quote_char s with
        | Some _ => '(t, r) ← parse_string s; Some (JStr t, r)
        | None =>
          match literal "null" JNull s, literal "true" (JBool true) s, literal "false" (JBool false) s with
          | Some x, _, _ | None, Some x, _ | None, None, Some x => Some x
          | None, None, None => parse_number s
          end
        end
      end
    end
  end
with parse_members (fuel : nat) (d : N) (s : string) : option (list (string * json) * string) :=
  match fuel with
  | 0 => None
  | S n =>
    '(k, r) ← parse_string (skip_ws s);
    r ← token ":" r;
    '(v, r) ← parse_value n d r;
    match token "," r with
    | Some r => '(kvs, r) ← parse_members n d r; Some ((k, v) :: kvs, r)
    | None => r ← token "}" r; Some ([(k, v)], r)
    end
  end
with parse_elements (fuel : nat) (d : N) (s : string) : option (list json * string) :=
  match fuel with
  | 0 => None
  | S n =>
    '(v, r) ← parse_value n d s;
    match token "," r with
    | Some r => '(l, r) ← parse_elements n d r; Some (v :: l, r)
    | None => r ← token "]" r; Some ([v], r)
    end
  end.

(** [json.Unmarshal] into a value: the document of a text. *)
Definition json_of_text (s : string) : option json :=
  match parse_value (2 * slen s + 1) 0 s with
  | Some (j, r) => if skip_ws r ==s "" then Some j else None
  | None => None
  end.
(** The body of a message. *)
Definition body_of_text (s : string) : body :=
  if s ==s "" then EmptyBody else match json_of_text s with Some j => Doc j | None => InvalidBody end.

(** ** Lemmas: runes *)

Lemma slen_str_drop_lt k s : k ≠ 0 → s ≠ "" → slen (str_drop k s) < slen s.
Proof. intros Hk Hs. rewrite slen_drop. destruct s; [done|]. cbn. destruct k; [done|]. lia. Qed.

Lemma rune_len_app m t : rune_len m = slen m → m ≠ "" → rune_len (m +:+ t) = slen m.
Proof.
  destruct m as [|c0 [|c1 [|c2 [|c3 m]]]]; [done|..]; intros Hm _; cbn [String.append rune_len slen] in *;
    repeat case_match; try done; try (destruct m; cbn in *; congruence); cbn in *; congruence.
Qed.
Lemma rune_len_le s : rune_len s <= slen s.
Proof. destruct s as [|c0 [|c1 [|c2 [|c3 s]]]]; cbn; repeat case_match; lia. Qed.
Lemma rune_len_take s k : rune_len s = S k → rune_len (str_take (S k) s) = S k.
Proof.
  destruct s as [|c0 [|c1 [|c2 [|c3 s]]]]; cbn [rune_len]; intros H; repeat case_match; try done; injection H as <-;
    cbn [str_take rune_len]; repeat match goal with E : ?x = _ |- context [?x] => rewrite E end; done.
Qed.

Definition rune_ok (x : rune) : Prop :=
  match x with
  | Single c => (code c < 128)%N
  | Multi s => rune_len s = slen s ∧ s ≠ "" ∧ ∀ c r, s = String c r → (code c <? 128)%N = false
  | Invalid => True
  end.
Lemma next_rune_spec s x r : next_rune s = Some (x, r) → rune_ok x ∧ slen r < slen s.
Proof.
  unfold next_rune. destruct s as [|c s]; [done|]. destruct (code c <? 128)%N eqn:Hc.
  { intros [= <- <-]. apply N.ltb_lt in Hc. split; [done|]. cbn. lia. }
  destruct (rune_len (String c s)) as [|k] eqn:Hk; intros H; injection H as <- <-; [split; [done|cbn; lia]|].
  change (str_drop k s) with (str_drop (S k) (String c s)). change (String c (str_take k s)) with (str_take (S k) (String c s)).
  split; [|by apply slen_str_drop_lt]. split_and!; [|done|by intros ? ? [= <- _]].
  pose proof (rune_len_le (String c s)) as Hle. rewrite rune_len_take by done. rewrite slen_take, Hk in *. lia.
Qed.
Lemma next_rune_bytes x t : rune_ok x →
  next_rune (rune_bytes x +:+ t) = Some (match x with Invalid => Multi replacement | _ => x end, t).
Proof.
  destruct x as [c|m|]; cbn [rune_ok rune_bytes]; intros H; [|destruct H as (Hl & Hne & Hc)|done].
  - cbn. by rewrite (proj2 (N.ltb_lt _ _) H).
  - pose proof (rune_len_app m t Hl Hne) as Ha. destruct m as [|c m]; [done|]. cbn [String.append] in *. unfold next_rune.
    rewrite (Hc c m eq_refl), Ha. change (String c (m +:+ t)) with (String c m +:+ t).
    change (slen (String c m)) with (S (slen m)). cbv iota. f_equal. f_equal.
    + f_equal. apply (str_take_app (String c m)).
    + apply (str_drop_app (String c m)).
Qed.
Lemma next_rune_None s : next_rune s = None → s = "".
Proof. unfold next_rune. destruct s; [done|]. by repeat case_match. Qed.

Lemma runes_go_ok n s : Forall rune_ok (runes_go n s).
Proof.
  revert s. induction n as [|n IH]; intros s; cbn; [constructor|].
  destruct (next_rune s) as [[x r]|] eqn:E; constructor; [by apply next_rune_spec in E as []|apply IH].
Qed.
Lemma runes_ok s : Forall rune_ok (runes s).
Proof. apply runes_go_ok. Qed.

Lemma runes_go_fuel n m s : slen s <= n → slen s <= m → runes_go n s = runes_go m s.
Proof.
  revert m s. induction n as [|n IH]; intros [|m] s Hn Hm; [done|destruct s; [done|cbn in Hn; lia]|destruct s; [done|cbn in Hm; lia]|]. cbn [runes_go].
  destruct (next_rune s) as [[x r]|] eqn:E; [|done]. apply next_rune_spec in E as [_ Hlt]. f_equal. apply IH; lia.
Qed.
Lemma runes_step s : runes s = match next_rune s with None => [] | Some (x, r) => x :: runes r end.
Proof.
  unfold runes. destruct s as [|c s]; [done|]. change (slen (String c s)) with (S (slen s)). cbn [runes_go].
  destruct (next_rune (String c s)) as [[x r]|] eqn:E; [|done]. apply next_rune_spec in E as [_ Hlt]. cbn in Hlt.
  f_equal. apply runes_go_fuel; lia.
Qed.

(** Strings of ASCII are what they are. *)
Definition ascii_only (s : string) : bool := str_forallb (λ c, (code c <? 128)%N) s.
Lemma sanitize_ascii s : ascii_only s = true → sanitize s = s.
Proof.
  unfold sanitize, ascii_only. induction s as [|c s IH]; [done|]. cbn [str_forallb]. intros H. bool_hyps.
  rewrite runes_step. unfold next_rune. rewrite H. cbn [fmap list_fmap concat_str foldr rune_bytes String.append]. f_equal. by apply IH.
Qed.

(** ** Lemmas: strings are read back *)

Lemma escaped_ne x : rune_ok x → ∃ c r, escaped x = String c r.
Proof.
  destruct x as [c|m|]; cbn; [|intros (_ & Hm & _)|eauto].
  - unfold escaped_byte. intros _. repeat case_match; eauto.
  - destruct m as [|c m]; [done|]. repeat case_match; eauto.
Qed.

Lemma unquote_escaped_byte c t : (code c < 128)%N →
  eat quote_char (escaped_byte c +:+ t) = None ∧ unquote_char (escaped_byte c +:+ t) = Some (String c "", t).
Proof.
  intros Hc. destruct c as [[] [] [] [] [] [] [] []]; try (exfalso; vm_compute in Hc; discriminate); split; reflexivity.
Qed.
Lemma unquote_escaped x t : rune_ok x →
  eat quote_char (escaped x +:+ t) = None ∧ unquote_char (escaped x +:+ t) = Some (rune_bytes x, t).
Proof.
  destruct x as [c|m|]; intros Hx; [by apply unquote_escaped_byte| |split; reflexivity].
  pose proof (next_rune_bytes (Multi m) t Hx) as Hn. destruct Hx as (Hl & Hne & Hc). cbn [escaped rune_bytes] in *.
  destruct (m ==s line_separator) eqn:E1; [apply String.eqb_eq in E1 as ->; split; reflexivity|].
  destruct (m ==s paragraph_separator) eqn:E2; [apply String.eqb_eq in E2 as ->; split; reflexivity|].
  split; [|unfold unquote_char; by rewrite Hn].
  destruct m as [|c m]; [done|]. cbn. destruct (Ascii.eqb c quote_char) eqn:Eq; [|done].
  apply Ascii.eqb_eq in Eq as ->. by specialize (Hc _ _ eq_refl).
Qed.

Lemma concat_str_cons x l : concat_str (x :: l) = x +:+ concat_str l.
Proof. done. Qed.
Lemma unquote_concat n xs t : length xs < n → Forall rune_ok xs →
  unquote n (concat_str (escaped <$> xs) +:+ String quote_char t) = Some (concat_str (rune_bytes <$> xs), t).
Proof.
  revert n. induction xs as [|x xs IH]; intros [|n] Hn Hok; cbn in Hn; try lia; [done|].
  apply Forall_cons in Hok as [Hx Hok]. rewrite !fmap_cons, !concat_str_cons, <- app_assoc_str. cbn [unquote].
  destruct (unquote_escaped x (concat_str (escaped <$> xs) +:+ String quote_char t) Hx) as [-> ->]. cbn.
  rewrite IH by (done || lia). done.
Qed.
Lemma concat_escaped_length xs : Forall rune_ok xs → length xs <= slen (concat_str (escaped <$> xs)).
Proof.
  induction 1 as [|x xs Hx _ IH]; [done|]. rewrite fmap_cons, concat_str_cons, slen_app.
  destruct (escaped_ne x Hx) as (c & r & ->). cbn [slen String.length length]. lia.
Qed.
Lemma encode_string_app s t :
  encode_string s +:+ t = String quote_char (concat_str (escaped <$> runes s) +:+ String quote_char t).
Proof. unfold encode_string. cbn. by rewrite <- app_assoc_str. Qed.
Lemma parse_encode_string s t : parse_string (encode_string s +:+ t) = Some (sanitize s, t).
Proof.
  rewrite encode_string_app. unfold parse_string. cbn [eat]. rewrite Ascii.eqb_refl. cbn [mbind option_bind].
  apply unquote_concat; [|apply runes_ok]. rewrite slen_app. pose proof (concat_escaped_length (runes s) (runes_ok s)). cbn. lia.
Qed.

(** ** Lemmas: numbers are read back *)

Lemma decimal_go x s : decimal 0 (pretty_N_go x s) = decimal (Z.of_N x) s.
Proof.
  revert s. induction (N.lt_wf_0 x) as [x _ IH]; intros s.
  destruct (decide (0 < x)%N) as [Hpos|Hpos]; [|by replace x with 0%N by lia].
  rewrite pretty_N_go_step by done. pose proof (N.div_mod x 10 ltac:(done)) as Hdm.
  pose proof (N.mod_lt x 10 ltac:(done)) as Hm. rewrite IH by (by apply N.div_lt). cbn [decimal].
  rewrite digit_val_pretty by done. f_equal. lia.
Qed.
Lemma decimal_Itoa z : (0 <= z)%Z → decimal 0 (Itoa z) = z.
Proof.
  destruct z as [|p|p]; [done|intros _|lia]. unfold Itoa, pretty, pretty_Z, pretty, pretty_positive, pretty, pretty_N.
  case_decide; [done|]. by rewrite decimal_go.
Qed.
Lemma pretty_N_go_head x s : (0 < x)%N → HasPrefix (pretty_N_go x s) "0" = false.
Proof.
  revert s. induction (N.lt_wf_0 x) as [x _ IH]; intros s Hpos. rewrite pretty_N_go_step by done.
  destruct (decide (x < 10)%N) as [Hx|Hx].
  - rewrite N.div_small, N.mod_small by done.
    assert (x = 1 ∨ x = 2 ∨ x = 3 ∨ x = 4 ∨ x = 5 ∨ x = 6 ∨ x = 7 ∨ x = 8 ∨ x = 9)%N as Hd by lia.
    destruct_or! Hd; by subst.
  - apply IH; [by apply N.div_lt|]. apply N.div_str_pos. lia.
Qed.
Lemma Itoa_head z : (0 < z)%Z → HasPrefix (Itoa z) "0" = false.
Proof.
  destruct z as [|p|p]; try lia. intros _. unfold Itoa, pretty, pretty_Z, pretty, pretty_positive, pretty, pretty_N.
  case_decide; [done|]. by apply pretty_N_go_head.
Qed.
Lemma number_of_Itoa_pos z : (0 <= z)%Z → eat "-" (Itoa z) = None ∧ number_of (Itoa z) = Some (JInt z).
Proof.
  intros Hz. pose proof (Itoa_digits z Hz) as Hd. pose proof (Itoa_ne z) as Hne.
  assert (eat "-" (Itoa z) = None) as He.
  { destruct (Itoa z) as [|c r]; [done|]. cbn in *. bool_hyps. destruct (Ascii.eqb c "-") eqn:E; [|done].
    by apply Ascii.eqb_eq in E as ->. }
  split; [done|]. unfold number_of. rewrite He, (span_all _ _ Hd).
  apply String.eqb_neq in Hne as ->. cbn [orb]. rewrite (decimal_Itoa z Hz).
  destruct (decide (z = 0%Z)) as [->|]; [done|]. by rewrite Itoa_head by lia.
Qed.
Lemma number_of_Itoa z : number_of (Itoa z) = Some (JInt z).
Proof.
  destruct (decide (0 <= z)%Z) as [Hz|Hz]; [by apply number_of_Itoa_pos|]. destruct z as [|p|p]; try lia.
  change (Itoa (Z.neg p)) with (String "-" (Itoa (Z.pos p))). destruct (number_of_Itoa_pos (Z.pos p) ltac:(lia)) as [He Hn].
  unfold number_of in *. rewrite He in Hn. cbn [eat]. rewrite Ascii.eqb_refl.
  destruct (span is_digit (Itoa (Z.pos p))) as [int r]. repeat case_match; try done. by injection Hn as ->.
Qed.

(** ** Documents *)

Section json_ind.
Context (P : json → Prop).
Context (Hnull : P JNull) (Hbool : ∀ b, P (JBool b)) (Hint : ∀ z, P (JInt z)) (Hnum : ∀ l, P (JNum l)) (Hstr : ∀ s, P (JStr s)).
Context (Harr : ∀ l, Forall P l → P (JArr l)) (Hobj : ∀ kvs, Forall (λ kv, P kv.2) kvs → P (JObj kvs)).
Fixpoint json_nested_ind (j : json) : P j :=
  match j with
  | JNull => Hnull | JBool b => Hbool b | JInt z => Hint z | JNum l => Hnum l | JStr s => Hstr s
  | JArr l => Harr l ((fix go l : Forall P l :=
      match l with [] => Forall_nil_2 P | v :: l => Forall_cons_2 P v l (json_nested_ind v) (go l) end) l)
  | JObj kvs => Hobj kvs ((fix go l : Forall (λ kv, P kv.2) l :=
      match l with [] => Forall_nil_2 _ | kv :: l => Forall_cons_2 _ kv l (json_nested_ind kv.2) (go l) end) kvs)
  end.
End json_ind.

Fixpoint forall_json (p : json → bool) (j : json) : bool :=
  p j && match j with
         | JArr l => forallb (forall_json p) l
         | JObj kvs => forallb (λ kv, forall_json p kv.2) kvs
         | _ => true
         end.
(** The literals are numbers with a fraction or an exponent. *)
Definition literal_ok (j : json) : bool :=
  match j with
  | JNum l => str_forallb is_num_char l && match number_of l with Some (JNum _) => true | _ => false end
  | _ => true
  end.
Definition literals_ok : json → bool := forall_json literal_ok.
Fixpoint height (j : json) : N :=
  match j with
  | JArr l => 1 + foldr (λ v m, N.max (height v) m) 0%N l
  | JObj kvs => 1 + foldr (λ kv m, N.max (height kv.2) m) 0%N kvs
  | _ => 0
  end.
(** The document as it is read back. *)
Fixpoint sanitized (j : json) : json :=
  match j with
  | JStr s => JStr (sanitize s)
  | JArr l => JArr (List.map sanitized l)
  | JObj kvs => JObj (List.map (λ '(k, v), (sanitize k, sanitized v)) kvs)
  | _ => j
  end.

(** What can stand behind a value without being read as a part of it. *)
Definition stops (s : string) : Prop := match s with String c _ => is_num_char c = false | "" => True end.

Lemma span_stops l t : str_forallb is_num_char l = true → stops t → span is_num_char (l +:+ t) = (l, t).
Proof.
  intros Hl Ht. destruct t as [|c t]; [rewrite app_nil_r_str; by apply span_all|]. by apply span_run.
Qed.
Lemma num_char_value n d c r :
  is_num_char c = true → parse_value (S n) d (String c r) = parse_number (String c r).
Proof.
  intros Hc. destruct c as [[] [] [] [] [] [] [] []]; try (vm_compute in Hc; discriminate); reflexivity.
Qed.
Lemma parse_number_text n d l t j :
  str_forallb is_num_char l = true → number_of l = Some j → stops t → parse_value (S n) d (l +:+ t) = Some (j, t).
Proof.
  intros Hl Hn Ht. destruct l as [|c l]; [done|]. pose proof Hl as Hl'. cbn in Hl'. bool_hyps. cbn [String.append].
  rewrite num_char_value by done. change (String c (l +:+ t)) with (String c l +:+ t).
  unfold parse_number. by rewrite span_stops, Hn by done.
Qed.
Lemma Itoa_num_chars z : str_forallb is_num_char (Itoa z) = true.
Proof.
  assert (∀ z, (0 <= z)%Z → str_forallb is_num_char (Itoa z) = true) as Hpos.
  { intros x Hx. eapply str_forallb_impl, (Itoa_digits x Hx). intros c Hc. unfold is_num_char. by rewrite Hc. }
  destruct (decide (0 <= z)%Z); [by apply Hpos|]. destruct z as [|p|p]; try lia.
  change (Itoa (Z.neg p)) with (String "-" (Itoa (Z.pos p))). cbn [str_forallb]. by rewrite Hpos by lia.
Qed.
Lemma number_of_JNum l x : number_of l = Some (JNum x) → x = l.
Proof. unfold number_of. intros H. repeat case_match; try done; by injection H as <-. Qed.

(** How the text of a value begins. *)
Definition is_start (c : ascii) : bool := is_num_char c || existsb (Ascii.eqb c) [quote_char; "{"; "["; "t"; "f"; "n"]%char.
Lemma num_start l : str_forallb is_num_char l = true → l ≠ "" → ∃ c r, l = String c r ∧ is_start c = true.
Proof. destruct l as [|c r]; [done|]. cbn. intros H _. bool_hyps. exists c, r. split; [done|]. unfold is_start. by rewrite H. Qed.
Lemma json_text_start j : literals_ok j = true → ∃ c r, json_text j = String c r ∧ is_start c = true.
Proof.
  destruct j as [|[]|z|l|s|l|kvs]; cbn [json_text]; intros H; try by eexists _, _.
  - apply num_start; [apply Itoa_num_chars|apply Itoa_ne].
  - unfold literals_ok in H. cbn in H. bool_hyps. apply num_start; [done|]. by intros ->.
Qed.
Lemma start_not_space c r x : is_start c = true → x ∈ ["}"; "]"; ","; ":"]%char →
  skip_ws (String c r) = String c r ∧ token x (String c r) = None.
Proof.
  intros Hc Hx. destruct c as [[] [] [] [] [] [] [] []]; try (vm_compute in Hc; discriminate);
    (split; [reflexivity|]); repeat (apply elem_of_cons in Hx as [->|Hx]; [reflexivity|]); by apply elem_of_nil in Hx.
Qed.

(** [j] is read back, whatever stands behind it. *)
Definition reads_back (j : json) : Prop := ∀ n d t,
  literals_ok j = true → (d + height j <= maxNestingDepth)%N → stops t → slen (json_text j) <= n →
  parse_value n d (json_text j +:+ t) = Some (sanitized j, t).

Lemma parse_elements_text l : l ≠ [] → Forall reads_back l → ∀ n d t,
  forallb literals_ok l = true → (d + foldr (λ v m, N.max (height v) m) 0 l <= maxNestingDepth)%N →
  slen (GoStrings.Join (List.map json_text l) ",") < n →
  parse_elements n d (GoStrings.Join (List.map json_text l) "," +:+ String "]" t) = Some (List.map sanitized l, t).
Proof.
  intros Hne Hl. induction Hl as [|j l Hj Hl IH]; [done|]. intros [|n] d t Hok Hd Hn; [lia|]. cbn in Hok, Hd. bool_hyps.
  destruct l as [|j' l].
  { cbn [List.map GoStrings.Join parse_elements] in *. rewrite Hj by (done || lia). reflexivity. }
  change (GoStrings.Join (List.map json_text (j :: j' :: l)) ",") with
    (json_text j +:+ "," +:+ GoStrings.Join (List.map json_text (j' :: l)) ",") in *.
  rewrite !slen_app in Hn. change (slen ",") with 1 in Hn. rewrite <- !app_assoc_str. cbn [parse_elements].
  rewrite Hj by (done || lia). cbn [mbind option_bind]. change (token "," ("," +:+ ?x)) with (Some x). cbn [mbind option_bind].
  rewrite IH by (done || lia). reflexivity.
Qed.

Definition member_text (kv : string * json) : string := encode_string kv.1 +:+ ":" +:+ json_text kv.2.
Lemma parse_key kv t :
  parse_string (skip_ws (member_text kv +:+ t)) = Some (sanitize kv.1, ":" +:+ json_text kv.2 +:+ t).
Proof.
  unfold member_text. rewrite <- !app_assoc_str. change (skip_ws (encode_string ?k +:+ ?x)) with (encode_string k +:+ x).
  apply parse_encode_string.
Qed.
Lemma parse_members_text kvs : kvs ≠ [] → Forall (λ kv, reads_back kv.2) kvs → ∀ n d t,
  forallb (λ kv, literals_ok kv.2) kvs = true →
  (d + foldr (λ kv m, N.max (height kv.2) m) 0 kvs <= maxNestingDepth)%N →
  slen (GoStrings.Join (List.map member_text kvs) ",") < n →
  parse_members n d (GoStrings.Join (List.map member_text kvs) "," +:+ String "}" t) =
    Some (List.map (λ '(k, v), (sanitize k, sanitized v)) kvs, t).
Proof.
  intros Hne Hl. induction Hl as [|[k v] l Hj Hl IH]; [done|]. intros [|n] d t Hok Hd Hn; [lia|]. cbn in Hok, Hd, Hj. bool_hyps.
  destruct l as [|kv' l].
  { cbn [List.map GoStrings.Join parse_members] in *. rewrite parse_key. cbn [mbind option_bind fst snd].
    change (token ":" (":" +:+ ?x)) with (Some x). cbn [mbind option_bind]. unfold member_text in Hn. rewrite !slen_app in Hn.
    cbn [fst snd] in Hn. rewrite Hj by (done || lia). reflexivity. }
  change (GoStrings.Join (List.map member_text ((k, v) :: kv' :: l)) ",") with
    (member_text (k, v) +:+ "," +:+ GoStrings.Join (List.map member_text (kv' :: l)) ",") in *.
  rewrite !slen_app in Hn. change (slen ",") with 1 in Hn. rewrite <- !app_assoc_str. cbn [parse_members].
  rewrite parse_key. cbn [mbind option_bind fst snd]. change (token ":" (":" +:+ ?x)) with (Some x). cbn [mbind option_bind].
  unfold member_text in Hn at 1. rewrite !slen_app in Hn. cbn [fst snd] in Hn.
  rewrite Hj by (done || lia). cbn [mbind option_bind]. change (token "," ("," +:+ ?x)) with (Some x). cbn [mbind option_bind].
  rewrite IH by (done || lia). reflexivity.
Qed.

Lemma json_text_obj kvs : json_text (JObj kvs) = "{" +:+ GoStrings.Join (List.map member_text kvs) "," +:+ "}".
Proof. cbn [json_text]. do 3 f_equal. apply map_ext. by intros []. Qed.

Lemma Join_start w ws c r : w = String c r → ∃ r', GoStrings.Join (w :: ws) "," = String c r'.
Proof. intros ->. destruct ws; cbn; eauto. Qed.

Lemma literal_app word j t : literal word j (word +:+ t) = Some (j, t).
Proof. unfold literal. by rewrite HasPrefix_app, str_drop_app. Qed.
Lemma literal_other word j s : HasPrefix s word = false → literal word j s = None.
Proof. unfold literal. by intros ->. Qed.

Lemma array_reads_back l : Forall reads_back l → reads_back (JArr l).
Proof.
  intros IH [|n] d t Hok Hd Ht Hn; [cbn in Hn; lia|].
  destruct l as [|v l]; [cbn [parse_value json_text sanitized List.map GoStrings.Join String.append]|].
  { change (skip_ws ("[" +:+ ?x)) with ("[" +:+ x).
    cbn. destruct (N.leb_spec maxNestingDepth d); [cbn in Hd; lia|]. reflexivity. }
  cbn [height] in Hd. change (json_text (JArr (v :: l))) with ("[" +:+ GoStrings.Join (List.map json_text (v :: l)) "," +:+ "]") in *.
  rewrite !slen_app in Hn. change (slen "[") with 1 in Hn. change (slen "]") with 1 in Hn. rewrite <- !app_assoc_str. cbn [parse_value].
  change (skip_ws ("[" +:+ ?x)) with ("[" +:+ x). change (eat "{" ("[" +:+ ?x)) with (@None string).
  change (eat "[" ("[" +:+ ?x)) with (Some x). cbv iota. destruct (N.leb_spec maxNestingDepth d); [lia|].
  unfold literals_ok in Hok. cbn [forall_json literal_ok andb] in Hok.
  assert (literals_ok v = true) as Hv by (cbn in Hok; by bool_hyps).
  destruct (json_text_start v Hv) as (c & r & Hc & Hs).
  destruct (Join_start (json_text v) (List.map json_text l) c r Hc) as [r' Hj]. cbn [List.map] in *. rewrite Hj in *.
  change (String c r' +:+ ?x) with (String c (r' +:+ x)). rewrite (proj2 (start_not_space c _ "]" Hs ltac:(set_solver))).
  change (String c (r' +:+ ?x)) with (String c r' +:+ x). rewrite <- Hj in *. change ("]" +:+ t) with (String "]" t).
  rewrite (parse_elements_text (v :: l)); [reflexivity|done|done|done|cbn in *; lia|cbn [List.map]; lia].
Qed.
Lemma object_reads_back kvs : Forall (λ kv, reads_back kv.2) kvs → reads_back (JObj kvs).
Proof.
  intros IH [|n] d t Hok Hd Ht Hn; [cbn in Hn; lia|].
  destruct kvs as [|[k v] kvs]; [cbn [parse_value json_text sanitized List.map GoStrings.Join String.append]|].
  { change (skip_ws ("{" +:+ ?x)) with ("{" +:+ x).
    cbn. destruct (N.leb_spec maxNestingDepth d); [cbn in Hd; lia|]. reflexivity. }
  rewrite json_text_obj in *. cbn [height] in Hd.
  rewrite !slen_app in Hn. change (slen "{") with 1 in Hn. change (slen "}") with 1 in Hn. rewrite <- !app_assoc_str. cbn [parse_value].
  change (skip_ws ("{" +:+ ?x)) with ("{" +:+ x). change (eat "{" ("{" +:+ ?x)) with (Some x).
  cbv iota. destruct (N.leb_spec maxNestingDepth d); [lia|].
  destruct (Join_start (member_text (k, v)) (List.map member_text kvs) quote_char _ eq_refl) as [r' Hj].
  cbn [List.map] in *. rewrite Hj in *. change (token "}" (String quote_char r' +:+ ?x)) with (@None string). rewrite <- Hj in *.
  change ("}" +:+ t) with (String "}" t).
  rewrite (parse_members_text ((k, v) :: kvs)); [reflexivity|done|done|done|cbn in *; lia|cbn [List.map]; lia].
Qed.

(** What [json.Marshal] writes, [json.Unmarshal] reads. *)
Lemma all_read_back j : reads_back j.
Proof.
  induction j as [|b|z|l|s|l IH|kvs IH] using json_nested_ind;
    [..|by apply array_reads_back|by apply object_reads_back]; intros [|n] d t Hok Hd Ht Hn;
    try (destruct (json_text_start _ Hok) as (c & r & Hc & _); rewrite Hc in Hn; cbn in Hn; lia).
  - cbn [parse_value json_text]. change (skip_ws ("null" +:+ t)) with ("null" +:+ t). by rewrite literal_app.
  - destruct b; cbn [parse_value json_text].
    + change (skip_ws ("true" +:+ t)) with ("true" +:+ t). by rewrite (literal_other "null"), (literal_app "true").
    + change (skip_ws ("false" +:+ t)) with ("false" +:+ t). by rewrite (literal_other "null"), (literal_other "true"), (literal_app "false").
  - apply parse_number_text; [apply Itoa_num_chars|apply number_of_Itoa|done].
  - unfold literals_ok in Hok. cbn in Hok. bool_hyps. apply parse_number_text; [done| |done].
    destruct (number_of l) as [[| | |x| | |]|] eqn:E; try done. apply number_of_JNum in E as Hx. by subst x.
  - cbn [json_text sanitized]. pose proof (parse_encode_string s t) as Hp. rewrite encode_string_app in *.
    cbn [parse_value]. change (skip_ws (String quote_char ?x)) with (String quote_char x).
    change (eat "{" (String quote_char ?x)) with (@None string). change (eat "[" (String quote_char ?x)) with (@None string).
    change (eat quote_char (String quote_char ?x)) with (Some x). cbv iota. by rewrite Hp.
Qed.

Lemma json_of_text_of j : literals_ok j = true → (height j <= maxNestingDepth)%N → json_of_text (json_text j) = Some (sanitized j).
Proof.
  intros Hok Hd. unfold json_of_text. rewrite <- (app_nil_r_str (json_text j)) at 2.
  rewrite all_read_back by (done || lia). done.
Qed.

(** ** Lemmas: no text holds a control character *)

Definition printable (c : ascii) : bool := (32 <=? code c)%N.
Lemma multi_printable m : rune_ok (Multi m) → str_forallb printable m = true.
Proof.
  assert (∀ lo hi c, (32 <= lo)%N → in_range lo hi c = true → printable c = true) as Hr.
  { intros lo hi c Hlo. unfold in_range, printable. intros H. bool_hyps. apply N.leb_le in H. apply N.leb_le. lia. }
  intros (Hl & Hne & Hc). destruct m as [|c0 m]; [done|]. specialize (Hc _ _ eq_refl).
  assert (printable c0 = true) as Hp by (unfold printable; apply N.ltb_ge in Hc; apply N.leb_le; lia).
  cbn [str_forallb]. rewrite Hp. cbn [andb]. clear Hne.
  destruct m as [|c1 [|c2 [|c3 [|c4 m]]]]; cbn [rune_len slen String.length] in Hl; rewrite Hc in Hl; repeat case_match; try done; bool_hyps;
    cbn [str_forallb]; repeat match goal with H : in_range _ _ ?c = true |- _ => apply Hr in H; [rewrite H|by repeat case_match] | H : cont ?c = true |- _ => apply Hr in H; [rewrite H|done] end; done.
Qed.
Lemma escaped_printable x : rune_ok x → str_forallb printable (escaped x) = true.
Proof.
  destruct x as [c|m|]; intros Hx; [|cbn [escaped]; destruct (_ ==s _); [done|]; destruct (_ ==s _); [done|by apply multi_printable]|done].
  cbn in *. destruct c as [[] [] [] [] [] [] [] []]; try (exfalso; vm_compute in Hx; discriminate); reflexivity.
Qed.
Lemma encode_string_printable s : str_forallb printable (encode_string s) = true.
Proof.
  unfold encode_string. cbn [str_forallb]. change (printable quote_char) with true. cbn [andb].
  rewrite str_forallb_app. change (str_forallb printable (String quote_char "")) with true. rewrite andb_true_r.
  induction (runes_ok s) as [|x xs Hx _ IH]; [done|]. by rewrite fmap_cons, concat_str_cons, str_forallb_app, escaped_printable, IH.
Qed.
Lemma Join_forallb p ws sep : str_forallb p sep = true → Forall (λ w, str_forallb p w = true) ws → str_forallb p (GoStrings.Join ws sep) = true.
Proof.
  intros Hs. induction 1 as [|w ws Hw Hws IH]; [done|]. destruct ws; [done|].
  change (GoStrings.Join (w :: s :: ws) sep) with (w +:+ sep +:+ GoStrings.Join (s :: ws) sep).
  by rewrite !str_forallb_app, Hw, Hs, IH.
Qed.
Lemma num_chars_printable l : str_forallb is_num_char l = true → str_forallb printable l = true.
Proof.
  apply str_forallb_impl. intros c Hc. destruct c as [[] [] [] [] [] [] [] []]; try (vm_compute in Hc; discriminate); reflexivity.
Qed.
Lemma json_text_printable j : literals_ok j = true → str_forallb printable (json_text j) = true.
Proof.
  induction j as [|[]|z|l|s|l IH|kvs IH] using json_nested_ind; intros Hok; unfold literals_ok in Hok; cbn in Hok; bool_hyps; try done.
  - apply num_chars_printable, Itoa_num_chars.
  - by apply num_chars_printable.
  - apply encode_string_printable.
  - cbn [json_text]. rewrite !str_forallb_app. change (str_forallb printable "[") with true.
    change (str_forallb printable "]") with true. rewrite andb_true_r. apply Join_forallb; [done|]. apply Forall_map.
    rewrite Forall_forall in *. rewrite forallb_forall in Hok. intros v Hv. apply IH; [done|]. by apply Hok, list_elem_of_In.
  - rewrite json_text_obj, !str_forallb_app. change (str_forallb printable "{") with true.
    change (str_forallb printable "}") with true. rewrite andb_true_r. apply Join_forallb; [done|]. apply Forall_map.
    rewrite Forall_forall in *. rewrite forallb_forall in Hok. intros kv Hv. unfold member_text.
    rewrite !str_forallb_app, encode_string_printable, IH; [done..|]. by apply (Hok kv), list_elem_of_In.
Qed.

(** ** Lemmas: the fuel is enough *)

Lemma eat_shorter c s r : eat c s = Some r → slen r < slen s.
Proof. destruct s as [|x s]; cbn; [done|]. case_match; [|done]. intros [= <-]. lia. Qed.
Lemma skip_ws_le s : slen (skip_ws s) <= slen s.
Proof. unfold skip_ws. pose proof (span_app is_json_space s) as H. rewrite <- H at 2. rewrite slen_app. lia. Qed.
Lemma token_shorter c s r : token c s = Some r → slen r < slen s.
Proof. unfold token. intros H%eat_shorter. pose proof (skip_ws_le s). lia. Qed.
Lemma hex4_shorter s n r : hex4 s = Some (n, r) → slen r < slen s.
Proof. destruct s as [|a [|b [|c [|d s]]]]; cbn; try done. repeat case_match; try done. intros [= _ <-]. lia. Qed.
Lemma unescape_shorter s b r : unescape s = Some (b, r) → slen r < slen s.
Proof.
  destruct s as [|c s]; cbn [unescape]; [done|].
  assert (unescape_u s = Some (b, r) → slen r < slen (String c s)) as Hu.
  { unfold unescape_u. destruct (hex4 s) as [[n r1]|] eqn:E; [|done]. apply hex4_shorter in E. cbn [mbind option_bind].
    destruct (negb _); [intros [= _ <-]; cbn; lia|]. destruct (next_u r1) as [[m r2]|] eqn:E2; [|intros [= _ <-]; cbn; lia].
    unfold next_u in E2. destruct (eat "\" r1) as [r3|] eqn:E3; [|done]. apply eat_shorter in E3. cbn in E2.
    destruct (eat "u" r3) as [r4|] eqn:E4; [|done]. apply eat_shorter in E4. cbn in E2. apply hex4_shorter in E2.
    case_match; intros [= _ <-]; cbn; lia. }
  repeat case_match; try done; intros [= _ <-]; cbn; lia.
Qed.
Lemma unquote_shorter n s t r : unquote n s = Some (t, r) → slen r < slen s.
Proof.
  revert s t r. induction n as [|n IH]; intros s t r; [done|]. cbn [unquote]. destruct (eat quote_char s) as [r1|] eqn:E.
  { intros [= _ <-]. by apply eat_shorter in E. }
  destruct (unquote_char s) as [[b r1]|] eqn:E1; [|done]. cbn [mbind option_bind].
  destruct (unquote n r1) as [[t1 r2]|] eqn:E2; [|done]. intros [= _ <-]. apply IH in E2.
  unfold unquote_char in E1. destruct (next_rune s) as [[x r3]|] eqn:E3; [|done]. apply next_rune_spec in E3 as [_ H3].
  assert (slen r1 <= slen r3); [|lia]. destruct x as [c| |]; [|by injection E1 as _ <-..].
  destruct (Ascii.eqb c "\"); [apply unescape_shorter in E1; lia|]. destruct (code c <? 32)%N; [done|]. by injection E1 as _ <-.
Qed.
Lemma parse_string_shorter s t r : parse_string s = Some (t, r) → slen r < slen s.
Proof.
  unfold parse_string. destruct (eat quote_char s) as [r1|] eqn:E; [|done]. apply eat_shorter in E. cbn.
  intros H%unquote_shorter. lia.
Qed.
Lemma literal_shorter word j s x r : word ≠ "" → literal word j s = Some (x, r) → slen r < slen s.
Proof.
  unfold literal. intros Hw. destruct (HasPrefix s word) eqn:E; [|done]. apply HasPrefix_slen in E. intros [= _ <-].
  rewrite slen_drop. destruct word; [done|]. cbn in *. lia.
Qed.
Lemma parse_number_shorter s x r : parse_number s = Some (x, r) → slen r < slen s.
Proof.
  unfold parse_number. pose proof (span_app is_num_char s) as H. destruct (span is_num_char s) as [lit r1]. cbn in H. subst s.
  rewrite slen_app. destruct lit as [|c lit]; [done|]. destruct (number_of _); [|done]. intros [= _ <-]. cbn. lia.
Qed.

(** Take the first test of [H] apart and keep what it says of the lengths. *)
Ltac parse_step H :=
  match type of H with
  | context [match ?x with Some _ => _ | None => _ end] => destruct x as [[? ?]|] eqn:? || destruct x eqn:?
  | context [?x ≫= _] => destruct x as [[? ?]|] eqn:? || destruct x eqn:?
  | context [if ?b then _ else _] => destruct b eqn:?
  end; cbn [mbind option_bind] in H; try discriminate H.
Ltac shorter :=
  repeat match goal with
  | E : eat _ _ = Some _ |- _ => apply eat_shorter in E
  | E : token _ _ = Some _ |- _ => apply token_shorter in E
  | E : parse_string _ = Some _ |- _ => apply parse_string_shorter in E
  | E : literal _ _ _ = Some _ |- _ => apply literal_shorter in E; [|done]
  | E : parse_number _ = Some _ |- _ => apply parse_number_shorter in E
  end.

Lemma parse_shorter n :
  (∀ d s j r, parse_value n d s = Some (j, r) → slen r < slen s) ∧
  (∀ d s l r, parse_members n d s = Some (l, r) → slen r < slen s) ∧
  (∀ d s l r, parse_elements n d s = Some (l, r) → slen r < slen s).
Proof.
  induction n as [|n (IHv & IHm & IHe)]; [done|]. split_and!; intros d s x r H.
  - cbn [parse_value] in H. pose proof (skip_ws_le s). set (s' := skip_ws s) in *.
    repeat parse_step H; try (injection H as <- <-); shorter; try lia;
      try (match goal with E : parse_members _ _ _ = _ |- _ => apply IHm in E | E : parse_elements _ _ _ = _ |- _ => apply IHe in E end; lia).
  - cbn [parse_members] in H. pose proof (skip_ws_le s). repeat parse_step H; injection H as <- <-; shorter;
      repeat match goal with E : parse_value _ _ _ = _ |- _ => apply IHv in E | E : parse_members _ _ _ = _ |- _ => apply IHm in E end; lia.
  - cbn [parse_elements] in H. repeat parse_step H; injection H as <- <-; shorter;
      repeat match goal with E : parse_value _ _ _ = _ |- _ => apply IHv in E | E : parse_elements _ _ _ = _ |- _ => apply IHe in E end; lia.
Qed.

Lemma parse_fuel n : ∀ m,
  (∀ d s, 2 * slen s < n → 2 * slen s < m → parse_value n d s = parse_value m d s) ∧
  (∀ d s, 2 * slen s < n → 2 * slen s < m → parse_members n d s = parse_members m d s) ∧
  (∀ d s, 2 * slen s + 1 < n → 2 * slen s + 1 < m → parse_elements n d s = parse_elements m d s).
Proof.
  induction n as [|n IH]; intros [|m]; try (split_and!; intros; lia). destruct (IH m) as (IHv & IHm & IHe). split_and!; intros d s Hn Hm.
  - cbn [parse_value]. pose proof (skip_ws_le s). set (s' := skip_ws s) in *.
    destruct (eat "{" s') as [r|] eqn:E1; [shorter; case_match; [done|]; case_match; [done|]; by rewrite IHm by lia|].
    destruct (eat "[" s') as [r|] eqn:E2; [shorter; case_match; [done|]; case_match; [done|]; by rewrite IHe by lia|]. done.
  - cbn [parse_members]. pose proof (skip_ws_le s). destruct (parse_string (skip_ws s)) as [[k r]|] eqn:E1; [|done]. cbn.
    destruct (token ":" r) as [r1|] eqn:E2; [|done]. shorter. cbn. rewrite IHv by lia.
    destruct (parse_value m d r1) as [[v r2]|] eqn:E3; [|done]. apply (proj1 (parse_shorter m)) in E3. cbn.
    destruct (token "," r2) as [r3|] eqn:E4; [|done]. shorter. by rewrite IHm by lia.
  - cbn [parse_elements]. rewrite IHv by lia. destruct (parse_value m d s) as [[v r]|] eqn:E1; [|done].
    apply (proj1 (parse_shorter m)) in E1. cbn. destruct (token "," r) as [r1|] eqn:E2; [|done]. shorter. by rewrite IHe by lia.
Qed.
(** More fuel than [json_of_text] gives makes no difference. *)
Lemma parse_value_fuel n d s : 2 * slen s < n → parse_value n d s = parse_value (2 * slen s + 1) d s.
Proof. intros H. apply parse_fuel; lia. Qed.
