(* ===== verification/GoTime.v ===== *)
(** * GoTime: instants, and RFC 3339 as package time writes and reads it

    An instant is a number of nanoseconds since 1970, a [Z].  [FormatRFC3339] is
    [t.UTC().Format(time.RFC3339)], which leaves out the fraction of a second;
    [ParseRFC3339] is [time.Parse(time.RFC3339, s)] with what it accepts beyond the
    standard: an hour of one digit, a comma before the fraction. *)

From S2P Require Import Prelude GoStrings.
Open Scope Z_scope.

(** ** Dates *)

(** Years are counted from March, eras have 400 of them. *)
Definition civil_of_days (z : Z) : Z * Z * Z :=
  let z := z + 719468 in
  let era := z / 146097 in
  let doe := z mod 146097 in
  let yoe := (doe - doe / 1460 + doe / 36524 - doe / 146096) / 365 in
  let doy := doe - (365 * yoe + yoe / 4 - yoe / 100) in
  let mp := (5 * doy + 2) / 153 in
  let m := if mp <? 10 then mp + 3 else mp - 9 in
  (yoe + era * 400 + (if m <=? 2 then 1 else 0), m, doy - (153 * mp + 2) / 5 + 1).
Definition days_of_civil (y m d : Z) : Z :=
  let y := if m <=? 2 then y - 1 else y in
  let yoe := y mod 400 in
  let doy := (153 * (if 2 <? m then m - 3 else m + 9) + 2) / 5 + d - 1 in
  y / 400 * 146097 + (yoe * 365 + yoe / 4 - yoe / 100 + doy) - 719468.
Definition leap (y : Z) : bool := (y mod 4 =? 0) && (negb (y mod 100 =? 0) || (y mod 400 =? 0)).
(** [daysIn]. *)
Definition days_in (m y : Z) : Z :=
  if m =? 2 then if leap y then 29 else 28 else
  if (m =? 4) || (m =? 6) || (m =? 9) || (m =? 11) then 30 else 31.

(** ** Writing *)

Definition second : Z := 1000000000.
(** [appendInt]: digits with zeros in front. *)
Fixpoint zeros (n : nat) : string := match n with 0%nat => "" | S n => String "0" (zeros n) end.
Definition append_int (x : Z) (width : nat) : string :=
  let s := Itoa (Z.abs x) in
  (if x <? 0 then "-" else "") +:+ zeros (width - slen s) +:+ s.
Definition FormatRFC3339 (t : Z) : string :=
  let secs := t / second in
  let '(y, m, d) := civil_of_days (secs / 86400) in
  let s := secs mod 86400 in
  append_int y 4 +:+ "-" +:+ append_int m 2 +:+ "-" +:+ append_int d 2 +:+ "T" +:+
  append_int (s / 3600) 2 +:+ ":" +:+ append_int (s / 60 mod 60) 2 +:+ ":" +:+ append_int (s mod 60) 2 +:+ "Z".

(** ** Reading *)

Definition digit_of (c : ascii) : option Z := if is_digit c then Some (digit_val c) else None.
(** [getnum]: two digits; or one, unless [fixed]. *)
Definition getnum (fixed : bool) (s : string) : option (Z * string) :=
  match s with
  | String a r =>
    x ← digit_of a;
    match r with
    | String b r' =>
      match digit_of b with
      | Some y => Some (x * 10 + y, r')
      | None => if fixed then None else Some (x, r)
      end
    | "" => if fixed then None else Some (x, r)
    end
  | "" => None
  end.
Definition year_of (s : string) : option (Z * string) :=
  '(a, r) ← getnum true s; '(b, r) ← getnum true r; Some (a * 100 + b, r).
Definition skip (c : ascii) (s : string) : option string :=
  match s with String x r => if Ascii.eqb x c then Some r else None | "" => None end.
(** [parseNanoseconds], behind the point: at most nine digits count. *)
Definition nanoseconds (ds : string) : Z :=
  let ds := str_take 9 ds in
  foldl (λ acc c, acc * 10 + digit_val c) 0 (String.list_ascii_of_string ds) * 10 ^ Z.of_nat (9 - slen ds).
Definition fraction (s : string) : Z * string :=
  match s with
  | String p (String d r) =>
    if (Ascii.eqb p "." || Ascii.eqb p ",") && is_digit d
    then let '(ds, r) := span is_digit (String d r) in (nanoseconds ds, r) else (0, s)
  | _ => (0, s)
  end.
(** [Z07:00]: the offset in seconds. *)
Definition zone (s : string) : option (Z * string) :=
  match skip "Z" s with
  | Some r => Some (0, r)
  | None =>
    match s with
    | "" => None
    | String sign r =>
      '(hh, r) ← getnum true r; r ← skip ":" r; '(mm, r) ← getnum true r;
      if (24 <? hh) || (60 <? mm) then None else
      let off := (hh * 60 + mm) * 60 in
      if Ascii.eqb sign "+" then Some (off, r) else if Ascii.eqb sign "-" then Some (- off, r) else None
    end
  end.
Definition ParseRFC3339 (s : string) : option Z :=
  '(y, s) ← year_of s; s ← skip "-" s;
  '(m, s) ← getnum true s; if (m <? 1) || (12 <? m) then None else
  s ← skip "-" s; '(d, s) ← getnum true s; s ← skip "T" s;
  '(hh, s) ← getnum false s; if 24 <=? hh then None else
  s ← skip ":" s; '(mi, s) ← getnum true s; if 60 <=? mi then None else
  s ← skip ":" s; '(ss, s) ← getnum true s; if 60 <=? ss then None else
  let '(ns, s) := fraction s in
  '(off, s) ← zone s;
  if negb (s ==s "") || (d <? 1) || (days_in m y <? d) then None else
  Some ((days_of_civil y m d * 86400 + hh * 3600 + mi * 60 + ss - off) * second + ns).

(** The zero [time.Time], 1 January of year 1. *)
Definition zero_time : Z := days_of_civil 1 1 1 * 86400 * second.
Definition IsZero (t : Z) : bool := t =? zero_time.

(** ** Lemmas: dates *)

(** The day of an era lies in a year of 365 days, or 366 when the year it ends in is a leap year. *)
Lemma era_years doe : 0 <= doe < 146097 →
  let yoe := (doe - doe / 1460 + doe / 36524 - doe / 146096) / 365 in
  let doy := doe - (365 * yoe + yoe / 4 - yoe / 100) in
  0 <= yoe < 400 ∧ 0 <= doy <= (if leap (yoe + 1) then 365 else 364).
Proof.
  intros H yoe doy. assert (0 <= yoe < 400 ∧ 0 <= doy <= 365 ∧ (doy = 365 → (yoe + 1) mod 4 = 0 ∧ ((yoe + 1) mod 100 = 0 → (yoe + 1) mod 400 = 0))).
  { subst yoe doy. Z.to_euclidean_division_equations. split_and!; lia. }
  destruct H0 as (Hy & Hd & Hl). split; [done|]. destruct (decide (doy = 365)) as [E|].
  - destruct (Hl E) as [H4 H100]. unfold leap. rewrite H4. cbn. destruct (Z.eqb_spec ((yoe + 1) mod 100) 0) as [E1|]; cbn; [|lia].
    rewrite (H100 E1). cbn. lia.
  - destruct (leap _); lia.
Qed.
(** The months from March on: month [mp] begins at day [month_start mp]. *)
Definition month_start (mp : Z) : Z := (153 * mp + 2) / 5.
Definition month_number (mp : Z) : Z := if mp <? 10 then mp + 3 else mp - 9.
Lemma month_of_day doy : 0 <= doy <= 365 →
  let mp := (5 * doy + 2) / 153 in
  0 <= mp <= 11 ∧ month_start mp <= doy ∧ (mp < 11 → doy < month_start (mp + 1)).
Proof. intros H mp. subst mp. unfold month_start. Z.to_euclidean_division_equations. lia. Qed.
Lemma month_table mp : 0 <= mp <= 11 → let m := month_number mp in
  1 <= m <= 12 ∧ (if 2 <? m then m - 3 else m + 9) = mp ∧ (m <=? 2) = (10 <=? mp) ∧
  (∀ y, days_in m y = if mp =? 11 then if leap y then 29 else 28 else month_start (mp + 1) - month_start mp).
Proof.
  intros H m. subst m.
  assert (mp = 0 ∨ mp = 1 ∨ mp = 2 ∨ mp = 3 ∨ mp = 4 ∨ mp = 5 ∨ mp = 6 ∨ mp = 7 ∨ mp = 8 ∨ mp = 9 ∨ mp = 10 ∨ mp = 11) as Hc by lia.
  destruct_or! Hc; subst mp; (split_and!; [done|done|done|done|intros; reflexivity]).
Qed.
Lemma leap_era y era : leap (y + era * 400) = leap y.
Proof.
  unfold leap. replace (y + era * 400) with (y + (era * 100) * 4) at 1 by lia. rewrite Z_mod_plus_full.
  replace (y + era * 400) with (y + (era * 4) * 100) at 1 by lia. rewrite Z_mod_plus_full. by rewrite Z_mod_plus_full.
Qed.
Lemma civil_valid z : let '(y, m, d) := civil_of_days z in
  1 <= m <= 12 ∧ 1 <= d <= days_in m y ∧ days_of_civil y m d = z.
Proof.
  unfold civil_of_days. set (z' := z + 719468). pose proof (Z.mod_pos_bound z' 146097 ltac:(lia)) as Hdoe.
  pose proof (Z.div_mod z' 146097 ltac:(lia)) as Hz. set (doe := z' mod 146097) in *. set (era := z' / 146097) in *.
  pose proof (era_years doe Hdoe) as Hy. cbv zeta in *.
  set (yoe := (doe - doe / 1460 + doe / 36524 - doe / 146096) / 365) in *.
  set (doy := doe - (365 * yoe + yoe / 4 - yoe / 100)) in *.
  destruct Hy as [Hyoe Hdoy]. assert (0 <= doy <= 365) as Hdoy' by (destruct (leap _); lia).
  destruct (month_of_day doy Hdoy') as (Hmp & Hs & He). set (mp := (5 * doy + 2) / 153) in *.
  fold (month_number mp) (month_start mp). destruct (month_table mp Hmp) as (Hm & Hback & Hle & Hdays). cbv zeta in *.
  split; [done|]. split.
  - rewrite Hdays, Hle. destruct (Z.eqb_spec mp 11) as [->|]; [|lia]. cbn [Z.leb].
    replace (yoe + era * 400 + (if 10 <=? 11 then 1 else 0)) with (yoe + 1 + era * 400) by (cbn; lia).
    rewrite leap_era. change (month_start 11) with 337 in *. destruct (leap _); lia.
  - unfold days_of_civil. rewrite Hle, Hback. fold (month_start mp).
    assert ((if 10 <=? mp then yoe + era * 400 + (if 10 <=? mp then 1 else 0) - 1 else yoe + era * 400 + (if 10 <=? mp then 1 else 0)) = yoe + era * 400) as ->
      by (destruct (10 <=? mp); lia).
    rewrite Z_mod_plus_full, Z.div_add, Z.mod_small, (Z.div_small yoe) by lia. lia.
Qed.

(** ** Lemmas: what is written is read *)

Definition two (x : Z) : bool :=
  match append_int x 2 with
  | String a (String b "") => bool_decide (digit_of a = Some (x / 10)) && bool_decide (digit_of b = Some (x mod 10))
  | _ => false
  end.
Lemma upto_spec (p : Z → bool) n x : forallb p (seqZ 0 n) = true → 0 <= x < n → p x = true.
Proof. rewrite forallb_forall. intros H Hx. apply H, list_elem_of_In, elem_of_seqZ. lia. Qed.
Lemma getnum_two fixed x r : 0 <= x < 100 → getnum fixed (append_int x 2 +:+ r) = Some (x, r).
Proof.
  intros Hx. assert (forallb two (seqZ 0 100) = true) as Ht by (vm_compute; reflexivity). apply (upto_spec two _ x) in Ht; [|done].
  unfold two in Ht. destruct (append_int x 2) as [|a [|b [|c q]]]; try done. bool_hyps. cbn. rewrite H, H0. cbn.
  do 2 f_equal. pose proof (Z.div_mod x 10). lia.
Qed.
Definition four (y : Z) : bool := append_int y 4 ==s append_int (y / 100) 2 +:+ append_int (y mod 100) 2.
Lemma year_of_four y r : 0 <= y < 10000 → year_of (append_int y 4 +:+ r) = Some (y, r).
Proof.
  intros Hy. assert (forallb four (seqZ 0 10000) = true) as Ht by (vm_compute; reflexivity). apply (upto_spec four _ y) in Ht; [|done].
  apply String.eqb_eq in Ht. rewrite Ht, <- app_assoc_str. unfold year_of.
  rewrite getnum_two by (split; [apply Z.div_pos|apply Z.div_lt_upper_bound]; lia). cbn.
  rewrite getnum_two by (apply Z.mod_pos_bound; lia). cbn. do 2 f_equal. pose proof (Z.div_mod y 100). lia.
Qed.

(** The year of an instant has four digits. *)
Definition four_digit_year (t : Z) : Prop := 0 <= (civil_of_days (t / second / 86400)).1.1 < 10000.
#[export] Instance four_digit_year_dec t : Decision (four_digit_year t).
Proof. unfold four_digit_year. apply _. Defined.
Lemma Parse_Format t : four_digit_year t → ParseRFC3339 (FormatRFC3339 t) = Some (t / second * second).
Proof.
  unfold four_digit_year, FormatRFC3339. pose proof (civil_valid (t / second / 86400)) as Hc.
  destruct (civil_of_days (t / second / 86400)) as [[y m] d]. destruct Hc as (Hm & Hd & Hdays). cbn [fst]. intros Hy.
  set (secs := t / second) in *. pose proof (Z.mod_pos_bound secs 86400 ltac:(lia)) as Hs.
  set (s := secs mod 86400) in *.
  assert (d <= 31) as Hd31 by (unfold days_in in Hd; repeat case_match; lia).
  assert (0 <= s / 3600 < 24 ∧ 0 <= s / 60 mod 60 < 60 ∧ 0 <= s mod 60 < 60 ∧ s / 3600 * 3600 + s / 60 mod 60 * 60 + s mod 60 = s) as (Hh & Hmi & Hss & Hsum)
    by (Z.to_euclidean_division_equations; lia).
  unfold ParseRFC3339. rewrite year_of_four by done. cbn [mbind option_bind].
  change (skip "-" ("-" +:+ ?x)) with (Some x). cbn [mbind option_bind].
  rewrite getnum_two by lia. cbn [mbind option_bind]. destruct (Z.ltb_spec m 1); [lia|]. destruct (Z.ltb_spec 12 m); [lia|]. cbn [orb].
  change (skip "-" ("-" +:+ ?x)) with (Some x). cbn [mbind option_bind].
  rewrite getnum_two by lia. cbn [mbind option_bind]. change (skip "T" ("T" +:+ ?x)) with (Some x). cbn [mbind option_bind].
  rewrite getnum_two by lia. cbn [mbind option_bind]. destruct (Z.leb_spec 24 (s / 3600)); [lia|].
  change (skip ":" (":" +:+ ?x)) with (Some x). cbn [mbind option_bind].
  rewrite getnum_two by lia. cbn [mbind option_bind]. destruct (Z.leb_spec 60 (s / 60 mod 60)); [lia|].
  change (skip ":" (":" +:+ ?x)) with (Some x). cbn [mbind option_bind].
  rewrite getnum_two by lia. cbn [mbind option_bind]. destruct (Z.leb_spec 60 (s mod 60)); [lia|].
  change (fraction "Z") with (0, "Z"). cbv iota beta. change (zone "Z") with (Some (0, "")). cbn [mbind option_bind].
  destruct (Z.ltb_spec d 1); [lia|]. destruct (Z.ltb_spec (days_in m y) d); [lia|]. cbn [negb orb String.eqb].
  f_equal. pose proof (Z.div_mod secs 86400). rewrite Hdays. fold s in H6. nia.
Qed.
