(* ===== verification/Docker.v ===== *)
(** * Docker: what the proxy asks the daemon

    The queries [internal/forward/proxy.go] makes on its own account while it
    decides a request: the id behind an image or container name, the labels of a
    container, the tags of an image, the images of a repository, and the bridge
    network of a user ([internal/isolation/netbridge.go]).  The daemon is
    the parameter [Docker], the documents of its answers; an error or an answer
    other than 200 is no document. *)

From S2P Require Import Prelude GoStrings GoJson Identity Names.

Record Docker := mkDocker {
  (** GET of a path. *)
  docker_get : string → option json;
  (** GET of [/images/json] filtered by a reference pattern. *)
  docker_images : string → option json;
  (** POST of a network: the document of a 201 answer. *)
  docker_create_network : json → option json;
}.

Section queries.
Context (docker : Docker).

Definition image_path (ref : string) : string := "/images/" +:+ ref +:+ "/json".
Definition container_path (name : string) : string := "/containers/" +:+ name +:+ "/json".

Definition resolveImageIDByRef (imageRef : string) : string :=
  default "" (docker_get docker (image_path imageRef) ≫= unmarshal_as (decode_id "Id") "").

Definition resolveContainerDockerID (nameOrID : string) : string :=
  default "" (docker_get docker (container_path nameOrID) ≫= unmarshal_as (decode_id "Id") "").

Definition decode_repo_tags : list string → json → list string * bool :=
  decode_struct (λ kvs l, field decode_strings "RepoTags" kvs l) (λ kvs, field_ok decode_strings "RepoTags" kvs []).

Definition imageHasOtherTags (imageID excludeTag : string) : bool :=
  match docker_get docker (image_path imageID) ≫= unmarshal_as decode_repo_tags [] with
  | Some tags => existsb (λ tag, tag !=s excludeTag) tags
  | None => false
  end.

(** The ids that are not empty, each once, in the order of their first mention. *)
Fixpoint distinct_ids (seen ids : list string) : list string :=
  match ids with
  | [] => []
  | id :: ids =>
    if (id ==s "") || existsb (String.eqb id) seen then distinct_ids seen ids
    else id :: distinct_ids (id :: seen) ids
  end.

Definition listImageIDsByRepo (repo : string) : list string :=
  match docker_images docker (repo +:+ ":*") ≫= unmarshal_as (decode_list (decode_id "Id") "") [] with
  | Some ids => distinct_ids [] ids
  | None => []
  end.

Definition decode_labels : option (gmap string string) → json → option (gmap string string) * bool :=
  decode_struct (λ kvs l, field decode_string_map "Labels" kvs l) (λ kvs, field_ok decode_string_map "Labels" kvs None).
Definition decode_config_labels : option (gmap string string) → json → option (gmap string string) * bool :=
  decode_struct (λ kvs l, field decode_labels "Config" kvs l) (λ kvs, field_ok decode_labels "Config" kvs None).

(** [None] is Go's nil map: no answer, or one without labels. *)
Definition fetchContainerLabels (containerID : string) : option (gmap string string) :=
  match docker_get docker (container_path containerID) ≫= unmarshal_as decode_config_labels None with
  | Some labels => labels
  | None => None
  end.

(** ** The bridge of a user *)

Definition findNetworkByName (name : string) : string :=
  default "" (docker_get docker ("/networks/" +:+ name) ≫= unmarshal_as (decode_id "Id") "").

Definition bridge_request (uid : Z) (username : string) : json :=
  JObj [("Driver", JStr "bridge");
        ("Labels", JObj [("docker-authz-proxy.managed", JStr "true");
                         ("docker-authz-proxy.owner_uid", JStr (Itoa uid));
                         ("docker-authz-proxy.owner_username", JStr username)]);
        ("Name", JStr (UserBridgeName uid));
        ("Options", JObj [("com.docker.network.bridge.enable_icc", JStr "true");
                          ("com.docker.network.bridge.enable_ip_masquerade", JStr "true")])].

(** The network's id; [None] is an error.  The firewall rules are in Bridge. *)
Definition EnsureUserBridge (uid : Z) (username : string) : option string :=
  let id := findNetworkByName (UserBridgeName uid) in
  if id !=s "" then Some id
  else docker_create_network docker (bridge_request uid username) ≫= unmarshal_as (decode_id "Id") "".
End queries.

(** ** Lemmas *)

Lemma distinct_ids_spec seen ids id :
  id ∈ distinct_ids seen ids ↔ id ≠ "" ∧ id ∈ ids ∧ id ∉ seen.
Proof.
  revert seen. induction ids as [|i ids IH]; intros seen; simpl; [rewrite elem_of_nil; naive_solver|].
  destruct ((i ==s "") || existsb (String.eqb i) seen) eqn:E.
  - rewrite IH, elem_of_cons. apply orb_true_iff in E as [->%String.eqb_eq|(x & Hx & ->%String.eqb_eq)%existsb_elem];
      naive_solver.
  - apply orb_false_iff in E as [Hi Hs]. apply String.eqb_neq in Hi.
    assert (i ∉ seen) as Hns.
    { intros Hin. rewrite existsb_false_elem in Hs. specialize (Hs i Hin). by rewrite eqb_str_refl in Hs. }
    rewrite !elem_of_cons, IH. split; [|destruct (decide (id = i)); set_solver]. set_solver.
Qed.

Lemma distinct_ids_NoDup seen ids : NoDup (distinct_ids seen ids).
Proof.
  revert seen. induction ids as [|i ids IH]; intros seen; simpl; [constructor|].
  destruct (_ || _); [apply IH|]. constructor; [|apply IH]. rewrite distinct_ids_spec. set_solver.
Qed.
