(* ===== verification/GoUrl.v ===== *)
(** * GoUrl: URLs (net/url)

    What the code uses of Go's [net/url]: [ParseQuery] and [Values.Encode], and
    the two faces of a path: [Path], decoded, and [EscapedPath], which keeps the
    escapes of the request as long as they decode to the path.  A request target
    is parsed as the HTTP server does it. *)

From stdpp Require Import sorting.
From S2P Require Import Prelude GoStrings.

Definition hex_val (c : ascii) : option N :=
  let n := N_of_ascii c in
  if is_digit c then Some (n - 48)%N
  else if ((97 <=? n) && (n <=? 102))%N then Some (n - 87)%N
  else if ((65 <=? n) && (n <=? 70))%N then Some (n - 55)%N
  else None.

(** [url.QueryUnescape]: [None] is an invalid escape. *)
Fixpoint QueryUnescape (s : string) : option string :=
  match s with
  | "" => Some ""
  | String "%" (String a (String b r)) =>
    match hex_val a, hex_val b with
    | Some x, Some y => String (ascii_of_N (16 * x + y)) <$> QueryUnescape r
    | _, _ => None
    end
  | String "%" _ => None
  | String c r => String (if Ascii.eqb c "+" then " "%char else c) <$> QueryUnescape r
  end.

(** One [key=value] piece: [None] is an error, [Some None] an empty piece. *)
Definition parse_piece (piece : string) : option (option (string * string)) :=
  if Contains piece ";" then None
  else if piece ==s "" then Some None
  else
    let '(k, v) := match Cut1 "=" piece with Some kv => kv | None => (piece, "") end in
    match QueryUnescape k, QueryUnescape v with
    | Some k, Some v => Some (Some (k, v))
    | _, _ => None
    end.

(** [url.ParseQuery]: the pairs that parse, and whether every piece did. *)
Definition ParseQuery (query : string) : list (string * string) * bool :=
  let pieces := if query ==s "" then [] else parse_piece <$> Split1 "&" query in
  (omap (λ p, match p with Some (Some kv) => Some kv | _ => None end) pieces,
   forallb (λ p : option (option (string * string)), match p with Some _ => true | None => false end) pieces).

(** [Values.Get]: the first value of the key, the empty string without one. *)
Definition values_get (q : list (string * string)) (k : string) : string :=
  match find_first (λ kv, kv.1 ==s k) q with Some kv => kv.2 | None => "" end.

(** ** Escaping *)

Definition hex_digit (n : N) : ascii :=
  if (n <? 10)%N then ascii_of_N (48 + n) else ascii_of_N (55 + n).
Definition pct (c : ascii) : string :=
  String "%" (String (hex_digit (N_of_ascii c / 16)) (String (hex_digit (N_of_ascii c mod 16)) "")).

(** [A-Za-z0-9] and [-_.~], which no mode escapes. *)
Definition unreserved (c : ascii) : bool :=
  let n := N_of_ascii c in
  is_digit c || ((97 <=? n) && (n <=? 122))%N || ((65 <=? n) && (n <=? 90))%N
  || existsb (Ascii.eqb c) ["-"; "_"; "."; "~"]%char.
Definition path_reserved (c : ascii) : bool :=
  existsb (Ascii.eqb c) ["$"; "&"; "+"; ","; "/"; ":"; ";"; "="; "@"]%char.
(** [shouldEscape] in the mode of paths, negated. *)
Definition path_plain (c : ascii) : bool := unreserved c || path_reserved c.

Fixpoint escape_path (s : string) : string :=
  match s with
  | "" => ""
  | String c r => (if path_plain c then String c "" else pct c) +:+ escape_path r
  end.

(** [url.PathUnescape] in the mode of paths: a plus sign is itself. *)
Fixpoint unescape_path (s : string) : option string :=
  match s with
  | "" => Some ""
  | String "%" (String a (String b r)) =>
    match hex_val a, hex_val b with
    | Some x, Some y => String (ascii_of_N (16 * x + y)) <$> unescape_path r
    | _, _ => None
    end
  | String "%" _ => None
  | String c r => String c <$> unescape_path r
  end.

(** What [RawPath] may hold besides. *)
Definition validEncoded (s : string) : bool :=
  str_forallb (λ c, path_plain c ||
    existsb (Ascii.eqb c) ["!"; "'"; "("; ")"; "*"; "["; "]"; "%"]%char) s.

Fixpoint QueryEscape (s : string) : string :=
  match s with
  | "" => ""
  | String c r => (if unreserved c then String c "" else if Ascii.eqb c " " then "+" else pct c) +:+ QueryEscape r
  end.

Definition query_key_le (a b : string * string) : Prop := String.leb a.1 b.1 = true.
#[export] Instance query_key_le_dec : RelDecision query_key_le.
Proof. intros a b. unfold query_key_le. apply _. Defined.

(** [Values.Encode]: sorted by key, the values of a key in their order. *)
Definition Encode (q : list (string * string)) : string :=
  Join ((λ kv, QueryEscape kv.1 +:+ "=" +:+ QueryEscape kv.2) <$> merge_sort query_key_le q) "&".

(** ** URLs *)

Record HttpURL := mkHttpURL { url_Path : string; url_RawPath : string; url_RawQuery : string }.

(** [URL.EscapedPath]: the raw path while it is an encoding of the path. *)
Definition EscapedPath (u : HttpURL) : string :=
  if (url_RawPath u !=s "") && validEncoded (url_RawPath u)
     && bool_decide (unescape_path (url_RawPath u) = Some (url_Path u))
  then url_RawPath u
  else if url_Path u ==s "*" then "*" else escape_path (url_Path u).

(** The URL of a request target: [None] is refused by the server. *)
Definition parse_target (target : string) : option HttpURL :=
  let '(p, query) := match Cut1 "?" target with Some pq => pq | None => (target, "") end in
  match unescape_path p with
  | Some path => Some (mkHttpURL path (if escape_path path ==s p then "" else p) query)
  | None => None
  end.

(** [URL.RequestURI] and [URL.Query]. *)
Definition RequestURI (u : HttpURL) : string :=
  if url_RawQuery u ==s "" then EscapedPath u else EscapedPath u +:+ "?" +:+ url_RawQuery u.
Definition url_Query (u : HttpURL) : list (string * string) := (ParseQuery (url_RawQuery u)).1.

(** [newURL.Path = path]. *)
Definition set_path (path : string) (u : HttpURL) : HttpURL := mkHttpURL path (url_RawPath u) (url_RawQuery u).
Definition set_query (q : list (string * string)) (u : HttpURL) : HttpURL :=
  mkHttpURL (url_Path u) (url_RawPath u) (Encode q).

(** ** Lemmas *)

(** A byte that means itself in a query value. *)
Definition query_plain (c : ascii) : bool :=
  is_plain c && negb (existsb (Ascii.eqb c) ["%"; "+"; "&"; ";"; "="]%char).

Lemma QueryUnescape_plain s : str_forallb query_plain s = true → QueryUnescape s = Some s.
Proof.
  induction s as [|c s IH]; [done|]. cbn [str_forallb]. intros H. bool_hyps.
  assert (QueryUnescape (String c s) =
          String (if Ascii.eqb c "+" then " "%char else c) <$> QueryUnescape s) as ->.
  { destruct c as [[] [] [] [] [] [] [] []]; try reflexivity. by vm_compute in H. }
  rewrite IH by done. simpl. do 2 f_equal.
  destruct (Ascii.eqb_spec c "+") as [->|]; [by vm_compute in H|done].
Qed.

Lemma query_plain_not c s :
  query_plain c = false → str_forallb query_plain s = true → str_forallb (λ d, negb (Ascii.eqb c d)) s = true.
Proof.
  intros Hc Hs. eapply str_forallb_impl, Hs. intros d Hd. destruct (Ascii.eqb_spec c d) as [->|]; [congruence|done].
Qed.

Lemma Cut1_app c a b :
  str_forallb (λ d, negb (Ascii.eqb c d)) a = true → Cut1 c (a +:+ String c b) = Some (a, b).
Proof.
  induction a as [|d a IH]; cbn [str_forallb String.append Cut1]; [by rewrite Ascii.eqb_refl|].
  intros H. bool_hyps. rewrite Ascii.eqb_sym, H, IH by done. done.
Qed.

Lemma pair_ne k x : k +:+ "=" +:+ x ≠ "".
Proof. by destruct k. Qed.

(** A query of one plain pair, and one with more after it. *)
Lemma parse_piece_plain k v :
  str_forallb query_plain k = true → str_forallb query_plain v = true →
  parse_piece (k +:+ "=" +:+ v) = Some (Some (k, v)).
Proof.
  intros Hk Hv. unfold parse_piece.
  assert (Contains (k +:+ "=" +:+ v) ";" = false) as ->.
  { unfold Contains. rewrite (proj2 (Index1_None ";" (k +:+ "=" +:+ v))); [done|].
    rewrite !str_forallb_app, (query_plain_not ";" k), (query_plain_not ";" v) by done. done. }
  rewrite (proj2 (String.eqb_neq _ _) (pair_ne k v)).
  change (k +:+ "=" +:+ v) with (k +:+ String "=" v). rewrite Cut1_app by (by apply query_plain_not).
  by rewrite !QueryUnescape_plain.
Qed.

Lemma ParseQuery_pair k v :
  str_forallb query_plain k = true → str_forallb query_plain v = true →
  (ParseQuery (k +:+ "=" +:+ v)).1 = [(k, v)].
Proof.
  intros Hk Hv. unfold ParseQuery.
  rewrite (proj2 (String.eqb_neq _ _) (pair_ne k v)).
  rewrite Split1_no_sep by (rewrite !str_forallb_app, (query_plain_not "&" k), (query_plain_not "&" v) by done; done).
  cbn [fmap list_fmap]. by rewrite parse_piece_plain.
Qed.

Lemma ParseQuery_cons k v rest :
  str_forallb query_plain k = true → str_forallb query_plain v = true → rest ≠ "" →
  (ParseQuery (k +:+ "=" +:+ v +:+ "&" +:+ rest)).1 = (k, v) :: (ParseQuery rest).1.
Proof.
  intros Hk Hv Hr. unfold ParseQuery.
  rewrite (proj2 (String.eqb_neq _ _) (pair_ne k _)), (proj2 (String.eqb_neq _ _) Hr).
  replace (k +:+ "=" +:+ v +:+ "&" +:+ rest) with ((k +:+ "=" +:+ v) +:+ String "&" rest)
    by (rewrite <- !app_assoc_str; done).
  rewrite Split1_app by (rewrite !str_forallb_app, (query_plain_not "&" k), (query_plain_not "&" v) by done; done).
  cbn [fmap list_fmap omap list_omap fst]. by rewrite parse_piece_plain.
Qed.

(** ** Encoding and parsing a query *)

(** A byte of an escaped value. *)
Definition escaped_char (c : ascii) : bool := unreserved c || existsb (Ascii.eqb c) ["%"; "+"]%char.

Lemma QueryEscape_chars s : str_forallb escaped_char (QueryEscape s) = true.
Proof.
  induction s as [|c s IH]; [done|]. cbn [QueryEscape]. rewrite str_forallb_app, IH, andb_true_r.
  clear. by destruct c as [[] [] [] [] [] [] [] []].
Qed.

Lemma QueryUnescape_Escape s : QueryUnescape (QueryEscape s) = Some s.
Proof.
  induction s as [|c s IH]; [done|]. cbn [QueryEscape].
  assert (∀ r, QueryUnescape ((if unreserved c then String c "" else if Ascii.eqb c " " then "+" else pct c) +:+ r)
               = String c <$> QueryUnescape r) as ->.
  { intros r. clear. by destruct c as [[] [] [] [] [] [] [] []]. }
  by rewrite IH.
Qed.

Lemma QueryEscape_without c s :
  escaped_char c = false → str_forallb (λ d, negb (Ascii.eqb c d)) (QueryEscape s) = true.
Proof.
  intros Hc. eapply str_forallb_impl, QueryEscape_chars. intros d Hd.
  destruct (Ascii.eqb_spec c d) as [->|]; [congruence|done].
Qed.

Definition encode_pair (kv : string * string) : string := QueryEscape kv.1 +:+ "=" +:+ QueryEscape kv.2.

Lemma encode_pair_without c kv :
  escaped_char c = false → c ≠ "="%char → str_forallb (λ d, negb (Ascii.eqb c d)) (encode_pair kv) = true.
Proof.
  intros Hc Hne. unfold encode_pair. rewrite !str_forallb_app, !QueryEscape_without by done.
  cbn [str_forallb]. by rewrite (proj2 (Ascii.eqb_neq _ _) Hne).
Qed.

Lemma parse_piece_encoded kv : parse_piece (encode_pair kv) = Some (Some kv).
Proof.
  unfold parse_piece.
  assert (Contains (encode_pair kv) ";" = false) as ->.
  { unfold Contains. by rewrite (proj2 (Index1_None ";" (encode_pair kv))) by (by apply encode_pair_without). }
  unfold encode_pair. rewrite (proj2 (String.eqb_neq _ _) (pair_ne (QueryEscape kv.1) (QueryEscape kv.2))).
  change ("=" +:+ QueryEscape kv.2) with (String "=" (QueryEscape kv.2)).
  rewrite Cut1_app by (by apply QueryEscape_without). rewrite !QueryUnescape_Escape. by destruct kv.
Qed.

(** What is encoded is parsed as it was, sorted by key. *)
Lemma ParseQuery_Encode q : ParseQuery (Encode q) = (merge_sort query_key_le q, true).
Proof.
  unfold Encode. change (λ kv : string * string, QueryEscape kv.1 +:+ "=" +:+ QueryEscape kv.2) with encode_pair.
  generalize (merge_sort query_key_le q) as l. intros l. unfold ParseQuery.
  assert (omap (λ p, match p with Some (Some kv) => Some kv | _ => None end) (parse_piece <$> (encode_pair <$> l)) = l ∧
          forallb (λ p : option (option (string * string)), match p with Some _ => true | None => false end)
            (parse_piece <$> (encode_pair <$> l)) = true) as [H1 H2].
  { induction l as [|kv l [IH1 IH2]]; [done|]. split; cbn [fmap list_fmap omap list_omap forallb];
      rewrite parse_piece_encoded; [f_equal; apply IH1|apply IH2]. }
  destruct l as [|kv l]; [done|].
  assert (Join (encode_pair <$> kv :: l) "&" ≠ "") as Hne.
  { rewrite fmap_cons. unfold encode_pair at 1. destruct l; cbn [Join fmap list_fmap]; [apply pair_ne|].
    rewrite <- app_assoc_str. apply pair_ne. }
  rewrite (proj2 (String.eqb_neq _ _) Hne), Split1_of_Join; [by f_equal|done|].
  apply Forall_fmap, Forall_forall. intros x _. by apply encode_pair_without.
Qed.

Lemma url_Query_set_query q u : url_Query (set_query q u) = merge_sort query_key_le q.
Proof. unfold url_Query, set_query. cbn [url_RawQuery]. by rewrite ParseQuery_Encode. Qed.
