(* ===== verification/ImagePerm.v ===== *)
(** * ImagePerm: the image permission checks of the forward layer

    [internal/forward/proxy.go], lines 1483-1937: the checks made before a
    [docker rmi], [pull], [tag] or [push] is forwarded.  A check either lets the
    request through ([Forward]) or answers it itself.  What the checks ask the
    Docker daemon is in the environment [DaemonEnv]; the polling of the database
    while a BuildKit build is being recorded is the sequence of database states
    the polls read.  The log is left out. *)

From S2P Require Import Prelude GoStrings GoJson Docker GoUrl OsLookup Identity Routes Policy Database ImageDB ResourceDB.

(** ** Image references *)

(** [strings.ToLower], as far as the ASCII bytes of its result go: besides the
    ASCII letters, U+212A is lowered to [k] and U+0130 to [i]. *)
Fixpoint ToLowerGo (s : string) : string :=
  match s with
  | String "226" (String "132" (String "170" r)) => String "k" (ToLowerGo r)
  | String "196" (String "176" r) => String "i" (ToLowerGo r)
  | String c r => String (ascii_lower c) (ToLowerGo r)
  | "" => ""
  end.

Definition isBuildKitImage (imageRef : string) : bool :=
  let ref := ToLowerGo imageRef in
  Contains ref "moby/buildkit" || Contains ref "docker/buildkit".

Definition normalizeImageRef (ref : string) : string :=
  if HasPrefix ref "docker.io/library/" then str_drop (slen "docker.io/library/") ref else ref.

Definition parseImageRefFromURI (requestURI : string) : string :=
  match Index requestURI "?" with
  | None => ""
  | Some idx =>
    let '(params, ok) := ParseQuery (str_drop (S idx) requestURI) in
    if negb ok then "" else
    let fromImage := values_get params "fromImage" in
    if fromImage ==s "" then "" else
    let fromImage := normalizeImageRef fromImage in
    let tag := values_get params "tag" in
    if (tag !=s "") && (tag !=s "latest") then fromImage +:+ ":" +:+ tag else fromImage
  end.

Definition refImageDigest (imageRef : string) : string :=
  match LastIndex imageRef "@" with
  | Some i => if (S i <? slen imageRef)%nat then str_drop (S i) imageRef else ""
  | None => ""
  end.

Definition truncID (id : string) : string :=
  let id := TrimPrefix id "sha256:" in
  if (12 <? slen id)%nat then str_take 12 id else id.

Definition isValidHexID (id : string) : bool :=
  if (slen id =? 0)%nat || (64 <? slen id)%nat then false else str_forallb is_hex id.

(** ** Environment and answers *)

Record DaemonEnv := mkDaemonEnv {
  env_docker : Docker;
  (** a build of the user started less than 30 s ago ([pendingBuilds]). *)
  pending_build : Z → bool;
  (** the database as each poll of the 5 s wait finds it. *)
  polls : list OwnershipDB;
  env_os : OsFiles;
  env_policy : Policy;
}.

Inductive Response :=
  | DockerError (status : Z) (msg : string)
  | DockerNotFound (kind id : string)
  | PullComplete (id : string)
  | RemovedTag (untagged : string) (deleted : option string)
  | RemovedImage (deleted : string).

Inductive Verdict := Forward | Answer (r : Response).

(** The wait: the first poll that succeeds ends it, and the database is then
    the one that poll read; otherwise the last one read. *)
Fixpoint await {A} (q : OwnershipDB → option A) (ps : list OwnershipDB) (d : OwnershipDB)
    : option A * OwnershipDB :=
  match ps with
  | [] => (None, d)
  | d' :: ps' => match q d' with Some a => (Some a, d') | None => await q ps' d' end
  end.

Section checks.
Context (env : DaemonEnv).

(** ** rmi *)

(** The lookup of the owner with the wait for a pending build. *)
Definition find_image_owner (id : CallerIdentity) (resolvedID : string) (d : OwnershipDB)
    : option (OwnerInfo * bool * Z) * OwnershipDB :=
  match GetImageOwner resolvedID d with
  | Some o => (Some o, d)
  | None =>
    if negb (IsPrivileged id) && pending_build env (RealUID id)
    then await (GetImageOwner resolvedID) (polls env) d
    else (None, d)
  end.

Definition has_access (uid : Z) (resolvedID : string) (d : OwnershipDB) : bool :=
  match HasUserImageAccess resolvedID uid d with inr b => b | inl _ => false end.

(** The lookup of the user's reference, with the same wait. *)
Definition find_image_access (id : CallerIdentity) (resolvedID : string) (d : OwnershipDB)
    : bool * OwnershipDB :=
  if has_access (RealUID id) resolvedID d then (true, d)
  else if pending_build env (RealUID id) then
    match await (λ d, if has_access (RealUID id) resolvedID d then Some tt else None) (polls env) d with
    | (Some _, d') => (true, d')
    | (None, d') => (false, d')
    end
  else (false, d).

(** The answer of a virtual deletion. *)
Definition virtual_delete_answer (resolvedID imageRef : string) : Response :=
  if (imageRef !=s "") && Contains imageRef ":" && negb (HasPrefix imageRef "sha256:") then
    if imageHasOtherTags (env_docker env) resolvedID imageRef then RemovedTag imageRef None
    else RemovedTag imageRef (Some resolvedID)
  else RemovedImage resolvedID.

Definition force_param (u : HttpURL) : bool :=
  let f := values_get (url_Query u) "force" in (f ==s "1") || (f ==s "true").

(** The part after the ownership decision: own containers, then references. *)
Definition rmi_usage_checks (u : HttpURL) (id : CallerIdentity) (resolvedID : string)
    (owner : OwnerInfo) (isPublic : bool) (d : OwnershipDB) : Verdict :=
  match HasContainerUsingImage (RealUID id) resolvedID d with
  | inl _ | inr true =>
    Answer (DockerError 409 ("image '" +:+ truncID resolvedID +:+
      "' is still used by your containers, remove them first"))
  | inr false =>
    let isOwner := IsPrivileged id || (oi_UID owner ==z RealUID id) in
    let privilegedForceDelete := IsPrivileged id && force_param u in
    if isOwner && isPublic then
      if privilegedForceDelete then Forward
      else
        match GetImageRefCountExcluding resolvedID (RealUID id) d with
        | inl _ => Answer (DockerError 500 "internal error")
        | inr otherCount =>
          if (0 <? otherCount)%nat then
            Answer (DockerError 409 ("image '" +:+ truncID resolvedID +:+ "' is still referenced by " +:+
              Itoa (Z.of_nat otherCount) +:+
              " other user(s); cannot delete until all references are removed"))
          else Forward
        end
    else Forward
  end.

Definition checkImageRemovePermission (u : HttpURL) (id : CallerIdentity) (d : OwnershipDB)
    : Verdict * OwnershipDB :=
  let imageRef := ExtractImageID (url_Path u) in
  if imageRef ==s "" then (Forward, d) else
  let resolvedID := resolveImageIDByRef (env_docker env) imageRef in
  if resolvedID ==s "" then (Forward, d) else
  match find_image_owner id resolvedID d with
  | (None, d) =>
    if negb (IsPrivileged id) then (Answer (DockerNotFound "image" resolvedID), d) else (Forward, d)
  | (Some (owner, isPublic, _), d) =>
    if negb (IsPrivileged id) && (oi_UID owner !=z RealUID id) then
      match find_image_access id resolvedID d with
      | (true, d) =>
        let '(_, d) := RemoveUserImageAccess resolvedID (RealUID id) d in
        (Answer (virtual_delete_answer resolvedID imageRef), d)
      | (false, d) =>
        (Answer (DockerError 403
           (if isPublic : bool
            then "image '" +:+ truncID resolvedID +:+ "' is public and belongs to user '" +:+
                 oi_Username owner +:+ "', only the owner can remove it"
            else "image '" +:+ truncID resolvedID +:+ "' belongs to user '" +:+
                 oi_Username owner +:+ "', only the owner can remove it")), d)
      end
    else (rmi_usage_checks u id resolvedID owner isPublic d, d)
  end.

(** ** pull *)

Definition denied_message (id : CallerIdentity) (action : string) : string :=
  "user '" +:+ RealUsername id +:+ "'(uid=" +:+ Itoa (RealUID id) +:+ ") not permitted to perform: " +:+ action.

(** [EnsureImageAccess], then a simulated pull. *)
Definition grant_and_simulate (id : CallerIdentity) (resolvedID : string) (d : OwnershipDB)
    : Verdict * OwnershipDB :=
  match EnsureImageAccess resolvedID (RealUID id) d with
  | (Some _, d) => (Answer (DockerError 500 "internal error"), d)
  | (None, d) => (Answer (PullComplete (truncID resolvedID)), d)
  end.

Definition checkImagePullPermission (u : HttpURL) (id : CallerIdentity) (d : OwnershipDB)
    : Verdict * OwnershipDB :=
  if IsPrivileged id then (Forward, d) else
  if values_get (url_Query u) "authz.public" ==s "true" then
    (Answer (DockerError 403 "only root can mark images as public"), d) else
  let imageRef := parseImageRefFromURI (RequestURI u) in
  if imageRef ==s "" then (Forward, d) else
  if isBuildKitImage imageRef && IsDenied (env_os env) (env_policy env) id ActionBuild then
    (Answer (DockerError 403 (denied_message id ActionBuild)), d) else
  let resolvedID := resolveImageIDByRef (env_docker env) imageRef in
  if resolvedID ==s "" then (Forward, d) else
  match GetImageOwner resolvedID d with
  | None => (Forward, d)
  | Some (owner, isPublic, _) =>
    if isPublic : bool then
      if oi_UID owner !=z RealUID id then grant_and_simulate id resolvedID d else (Forward, d)
    else if oi_UID owner !=z RealUID id then
      if oi_Source owner ==s "build" then
        if negb (CanSeeImage (RealUID id) resolvedID d) then
          (Answer (DockerError 403 ("image '" +:+ imageRef +:+ "' is private (built by " +:+
             oi_Username owner +:+ "); request access from the owner")), d)
        else (Answer (PullComplete (truncID resolvedID)), d)
      else grant_and_simulate id resolvedID d
    else (Forward, d)
  end.

(** ** tag *)

Definition checkImageTagPermission (u : HttpURL) (id : CallerIdentity) (d : OwnershipDB) : Verdict :=
  if IsPrivileged id then Forward else
  let imageRef := ExtractImageID (url_Path u) in
  if imageRef ==s "" then Forward else
  let resolvedID := let r := resolveImageIDByRef (env_docker env) imageRef in if r ==s "" then imageRef else r in
  match GetImageOwner resolvedID d with
  | None => Forward
  | Some (owner, _, _) =>
    if oi_UID owner !=z RealUID id then
      if CanUseImage (RealUID id) resolvedID d then Forward
      else Answer (DockerNotFound "image" resolvedID)
    else Forward
  end.

(** ** push *)

(** The references tried in turn. *)
Definition push_candidates (imageRef tag : string) : list string :=
  (if tag !=s "" then [imageRef +:+ ":" +:+ tag] else []) ++ [imageRef] ++
  match Index imageRef "/" with
  | None => []
  | Some idx =>
    let shortRef := str_drop (S idx) imageRef in
    (if tag !=s "" then [shortRef +:+ ":" +:+ tag] else []) ++ [shortRef]
  end.

Definition first_resolved (refs : list string) : string :=
  match find_first (λ ref, resolveImageIDByRef (env_docker env) ref !=s "") refs with
  | Some ref => resolveImageIDByRef (env_docker env) ref
  | None => ""
  end.

Definition untracked_message (id : string) : string :=
  "image '" +:+ truncID id +:+ "' not tracked by proxy (only root can push untracked images)".

Definition push_tracked (id : CallerIdentity) (imageRef resolvedID : string) (d : OwnershipDB) : Verdict :=
  match GetImageOwner resolvedID d with
  | None => Answer (DockerError 403 (untracked_message resolvedID))
  | Some _ =>
    if negb (CanUseImage (RealUID id) resolvedID d) then Answer (DockerNotFound "image" imageRef)
    else Forward
  end.

Definition checkImagePushPermission (u : HttpURL) (id : CallerIdentity) (d : OwnershipDB) : Verdict :=
  if IsPrivileged id then Forward else
  let imageRef := ExtractImageID (url_Path u) in
  if imageRef ==s "" then Forward else
  let tag := values_get (url_Query u) "tag" in
  let resolvedID := first_resolved (push_candidates imageRef tag) in
  let imageIDs := if (resolvedID ==s "") && (tag ==s "") then listImageIDsByRepo (env_docker env) imageRef else [] in
  match imageIDs with
  | _ :: _ =>
    match find_first (λ imgID, negb (CanUseImage (RealUID id) imgID d)) imageIDs with
    | Some imgID => Answer (DockerError 403 (untracked_message imgID))
    | None => Forward
    end
  | [] => push_tracked id imageRef (if resolvedID ==s "" then imageRef else resolvedID) d
  end.

(** ** Access by digest *)

Definition bridgeImageAccessByRefDigest (now : Z) (id : CallerIdentity) (imageRef configID : string)
    (d : OwnershipDB) : bool * OwnershipDB :=
  let dg := refImageDigest imageRef in
  if (dg ==s "") || (configID ==s "") then (false, d)
  else if negb (CanUseImage (RealUID id) dg d) then (false, d)
  else
    let '(err, d') :=
      match GetImageOwner configID d with
      | None => SetImageOwner now configID id false "pull" d
      | Some _ => EnsureImageAccess configID (RealUID id) d
      end in
    match err with Some _ => (false, d') | None => (true, d') end.

End checks.

(** ** Lemmas *)

Lemma await_Some {A} (q : OwnershipDB → option A) ps d a d' :
  await q ps d = (Some a, d') → q d' = Some a.
Proof.
  revert d. induction ps as [|p ps IH]; simpl; intros d H; [done|].
  destruct (q p) eqn:E; [by simplify_eq|by apply (IH p)].
Qed.

Lemma find_image_owner_Some env id rid d o d' :
  find_image_owner env id rid d = (Some o, d') → GetImageOwner rid d' = Some o.
Proof.
  unfold find_image_owner. destruct (GetImageOwner rid d) eqn:E; [intros; by simplify_eq|].
  case_match; [apply await_Some|done].
Qed.

Lemma GetImageOwner_exact id r d :
  db_down d = false → normalizeImageID id ≠ "" → tbl_lookup (normalizeImageID id) (images d) = Some r →
  GetImageOwner id d = Some (row_owner r, i_is_public r !=z 0, i_privileged_context r).
Proof.
  intros Hd Hn Hr. unfold GetImageOwner. rewrite (resolve_exact id r d Hd Hr).
  rewrite (proj2 (String.eqb_neq _ _) Hn). unfold QueryRow. by rewrite Hd, Hr.
Qed.

Lemma GetImageOwner_up id d o : GetImageOwner id d = Some o → db_down d = false.
Proof.
  unfold GetImageOwner. destruct (db_down d) eqn:E; [|done]. by rewrite resolve_down.
Qed.

(** The owner can use the image. *)
Lemma owner_can_use id owner pub priv d uid :
  GetImageOwner id d = Some (owner, pub, priv) → oi_UID owner = uid → CanUseImage uid id d = true.
Proof.
  intros Ho <-. pose proof (GetImageOwner_up _ _ _ Ho) as Hd. unfold GetImageOwner in Ho.
  destruct (_ ==s "") eqn:E; [done|]. bool_hyps. unfold QueryRow in Ho. rewrite Hd in Ho.
  destruct (tbl_lookup _ (images d)) as [r|] eqn:Hr; [|done]. simplify_eq/=.
  apply CanUseImage_iff. right. split; [done|]. exists r. auto.
Qed.

Section perms.
Context (env : DaemonEnv).
Implicit Types (u : HttpURL) (id : CallerIdentity) (d : OwnershipDB).

(** The daemon's id of the image a path names. *)
Definition rid u : string := resolveImageIDByRef (env_docker env) (ExtractImageID (url_Path u)).

(** ** Properties *)

(** C18: A removal that an unprivileged user gets forwarded is safe, where the daemon resolves
    the name: the image is recorded, the user is its owner, no container of the user is
    recorded as using it, and, if the image is public, no other user references it.  In
    particular a non-owner's removal of it never reaches the daemon. *)
Theorem rmi_forwarded_is_safe u id d d'
    (Hcheck : checkImageRemovePermission env u id d = (Forward, d'))
    (Hpriv : IsPrivileged id = false)
    (Href : ExtractImageID (url_Path u) ≠ "") (Hres : rid u ≠ "") :
  ∃ owner isPublic priv,
    GetImageOwner (rid u) d' = Some (owner, isPublic, priv) ∧ oi_UID owner = RealUID id ∧
    HasContainerUsingImage (RealUID id) (rid u) d' = inr false ∧
    (isPublic = true → GetImageRefCountExcluding (rid u) (RealUID id) d' = inr 0%nat).
Proof.
  unfold checkImageRemovePermission in Hcheck.
  rewrite (proj2 (String.eqb_neq _ _) Href) in Hcheck. cbv zeta in Hcheck. fold (rid u) in Hcheck.
  rewrite (proj2 (String.eqb_neq _ _) Hres), Hpriv in Hcheck. simpl in Hcheck.
  destruct (find_image_owner env id (rid u) d) as [[[[owner pub] priv]|] d1] eqn:Eo; [|done].
  destruct (oi_UID owner !=z RealUID id) eqn:Ew; bool_hyps.
  { destruct (find_image_access env id (rid u) d1) as [[] d2]; [|by destruct pub].
    by destruct (RemoveUserImageAccess _ _ _). }
  injection Hcheck as Hc <-. exists owner, pub, priv.
  split; [by eapply find_image_owner_Some|]. split; [done|].
  unfold rmi_usage_checks in Hc. rewrite Hpriv, Ew, Z.eqb_refl in Hc. simpl in Hc.
  destruct (HasContainerUsingImage _ _ _) as [|[]]; try done. split; [done|]. intros ->.
  destruct (GetImageRefCountExcluding _ _ _) as [|[]]; done.
Qed.

(** A removal by a user who does not own the image but references it removes
    exactly that reference: the daemon is not asked, the records of all images
    and all other references are unchanged. *)
Theorem rmi_by_non_owner_drops_reference u id d owner isPublic priv
    (Hw : writes_left d = None) (Hwf : image_wf d)
    (Hpriv : IsPrivileged id = false)
    (Href : ExtractImageID (url_Path u) ≠ "") (Hres : rid u ≠ "")
    (Hown : GetImageOwner (rid u) d = Some (owner, isPublic, priv)) (Hne : oi_UID owner ≠ RealUID id)
    (Hacc : HasUserImageAccess (rid u) (RealUID id) d = inr true) :
  let '(v, d') := checkImageRemovePermission env u id d in
  v ≠ Forward ∧
  sp_images (image_abs d') = sp_images (image_abs d) ∧
  sp_access (image_abs d') = delete (normalizeImageID (rid u), RealUID id) (sp_access (image_abs d)).
Proof.
  unfold checkImageRemovePermission. rewrite (proj2 (String.eqb_neq _ _) Href). cbv zeta. fold (rid u).
  rewrite (proj2 (String.eqb_neq _ _) Hres). unfold find_image_owner. rewrite Hown, Hpriv.
  rewrite (proj2 (Z.eqb_neq _ _) Hne). cbn [negb andb]. unfold find_image_access, has_access. rewrite Hacc.
  destruct (image_step_refines (OpRemoveUserImageAccess (rid u) (RealUID id)) d Hw Hwf) as [Habs _].
  cbn [run_image_op] in Habs. destruct (RemoveUserImageAccess _ _ _) as [res d']. simpl in Habs.
  rewrite Habs. done.
Qed.

(** The reference count protects public images only: the owner's removal of a
    private image is forwarded whatever other users reference it. *)
Theorem private_image_removed_despite_references u id d owner priv
    (Href : ExtractImageID (url_Path u) ≠ "") (Hres : rid u ≠ "")
    (Hown : GetImageOwner (rid u) d = Some (owner, false, priv)) (Heq : oi_UID owner = RealUID id)
    (Hctn : HasContainerUsingImage (RealUID id) (rid u) d = inr false) :
  checkImageRemovePermission env u id d = (Forward, d).
Proof.
  unfold checkImageRemovePermission. rewrite (proj2 (String.eqb_neq _ _) Href). cbv zeta. fold (rid u).
  rewrite (proj2 (String.eqb_neq _ _) Hres). unfold find_image_owner.
  rewrite Hown, Heq, Z.eqb_refl, andb_false_r. unfold rmi_usage_checks. rewrite Hctn.
  by rewrite andb_false_r.
Qed.

Lemma EnsureImageAccess_usable img uid d r :
  writes_left d = None → normalizeImageID img ≠ "" →
  tbl_lookup (normalizeImageID img) (images d) = Some r →
  ∃ d', EnsureImageAccess img uid d = (None, d') ∧ CanUseImage uid img d' = true.
Proof.
  intros Hw Hn Hr. unfold EnsureImageAccess. rewrite Exec_healthy by done. eexists. split; [done|].
  set (acc := mkImageAccessRow _ _ _).
  assert (∃ a, a ∈ tbl_insert_ignore acc (image_access d) ∧ key_of a = key_of acc) as (a & Ha & Hk).
  { unfold tbl_insert_ignore. destruct (tbl_lookup (key_of acc) (image_access d)) as [a|] eqn:E.
    - apply tbl_lookup_Some in E as [Hin Hk]. exists a. by split.
    - exists acc. split; [|done]. apply elem_of_app. right. by apply list_elem_of_singleton. }
  cbv [key_of image_access_keyed] in Hk. unfold acc in Hk. simpl in Hk. injection Hk as Hk1 Hk2.
  apply CanUseImage_iff. right. rewrite (resolve_exact img r); [| |by destruct d].
  - split; [done|]. exists r. split; [by destruct d|]. right. right. exists a. by destruct d.
  - destruct d. simpl in *. by subst.
Qed.

(** What a pull does to somebody else's private image depends on how it was
    made.  A built image the user cannot see is refused and nothing changes; an
    image that was pulled, loaded, imported or committed is handed over: the
    pull is simulated and the user may use the image from then on. *)
Theorem pull_of_private_image u id d r
    (Hw : writes_left d = None) (Hpriv : IsPrivileged id = false)
    (Hpub : values_get (url_Query u) "authz.public" ≠ "true") (Href : parseImageRefFromURI (RequestURI u) ≠ "")
    (Hbk : isBuildKitImage (parseImageRefFromURI (RequestURI u)) = false)
    (Hn : normalizeImageID (resolveImageIDByRef (env_docker env) (parseImageRefFromURI (RequestURI u))) ≠ "")
    (Hr : tbl_lookup (normalizeImageID (resolveImageIDByRef (env_docker env) (parseImageRefFromURI (RequestURI u))))
            (images d) = Some r)
    (Hprivate : i_is_public r = 0%Z) (Hne : i_owner_uid r ≠ RealUID id) :
  let img := resolveImageIDByRef (env_docker env) (parseImageRefFromURI (RequestURI u)) in
  (i_source r = "build" → CanSeeImage (RealUID id) img d = false →
     ∃ msg, checkImagePullPermission env u id d = (Answer (DockerError 403 msg), d)) ∧
  (i_source r ≠ "build" →
     ∃ d', checkImagePullPermission env u id d = (Answer (PullComplete (truncID img)), d') ∧
           CanUseImage (RealUID id) img d' = true).
Proof.
  cbv zeta. set (ri := resolveImageIDByRef (env_docker env) _) in *.
  assert (ri ≠ "") as Hri by (intros E; by rewrite E in Hn).
  assert (Hchk : checkImagePullPermission env u id d =
    if i_source r ==s "build" then
      if negb (CanSeeImage (RealUID id) ri d) then
        (Answer (DockerError 403 ("image '" +:+ parseImageRefFromURI (RequestURI u) +:+ "' is private (built by "
           +:+ i_owner_username r +:+ "); request access from the owner")), d)
      else (Answer (PullComplete (truncID ri)), d)
    else grant_and_simulate id ri d).
  { unfold checkImagePullPermission. rewrite Hpriv, (proj2 (String.eqb_neq _ _) Hpub).
    cbv zeta. rewrite (proj2 (String.eqb_neq _ _) Href), Hbk. cbn [andb]. fold ri.
    rewrite (proj2 (String.eqb_neq _ _) Hri), (GetImageOwner_exact ri r) by auto with go.
    rewrite Hprivate. cbn. by rewrite (proj2 (Z.eqb_neq _ _) Hne). }
  rewrite Hchk. split.
  - intros -> ->. simpl. eauto.
  - intros Hb. rewrite (proj2 (String.eqb_neq _ _) Hb). unfold grant_and_simulate.
    destruct (EnsureImageAccess_usable ri (RealUID id) d r Hw Hn Hr) as (d' & -> & Hu). eauto.
Qed.

(** Pushing and tagging need access.  When an unprivileged user's push is
    forwarded, the image it resolves to is recorded and usable by the user, or
    the push is of all tags and every one of the repository's images is usable;
    when a tag is forwarded, the image is not recorded or is usable. *)
Theorem push_and_tag_need_access u id d
    (Hpriv : IsPrivileged id = false) (Href : ExtractImageID (url_Path u) ≠ "") :
  let ref := ExtractImageID (url_Path u) in
  (checkImagePushPermission env u id d = Forward →
     (∃ img, GetImageOwner img d ≠ None ∧ CanUseImage (RealUID id) img d = true ∧
        (img = first_resolved env (push_candidates ref (values_get (url_Query u) "tag")) ∨ img = ref)) ∨
     (listImageIDsByRepo (env_docker env) ref ≠ [] ∧
      ∀ img, img ∈ listImageIDsByRepo (env_docker env) ref → CanUseImage (RealUID id) img d = true)) ∧
  (checkImageTagPermission env u id d = Forward →
     ∃ img, (img = rid u ∨ img = ref) ∧
       (GetImageOwner img d = None ∨ CanUseImage (RealUID id) img d = true)).
Proof.
  cbv zeta. unfold rid. split.
  - unfold checkImagePushPermission. rewrite Hpriv, (proj2 (String.eqb_neq _ _) Href). cbv zeta.
    set (resolved := first_resolved _ _). intros Hf.
    destruct (if (_ : bool) then listImageIDsByRepo (env_docker env) _ else []) as [|x xs] eqn:El.
    + left. unfold push_tracked in Hf. destruct (GetImageOwner _ d) eqn:Eo; [|done].
      destruct (CanUseImage _ _ d) eqn:Ec; [|done].
      exists (if resolved ==s "" then ExtractImageID (url_Path u) else resolved).
      split; [congruence|]. split; [done|]. destruct (resolved ==s ""); [by right|by left].
    + right. destruct ((resolved ==s "") && _); [|done]. rewrite El. split; [done|]. intros img Hi.
      destruct (find_first _ (x :: xs)) eqn:Ef; [done|]. rewrite find_first_None in Ef.
      specialize (Ef img Hi). by apply negb_false_iff in Ef.
  - unfold checkImageTagPermission. rewrite Hpriv, (proj2 (String.eqb_neq _ _) Href). cbv zeta.
    set (img := if resolveImageIDByRef _ _ ==s "" then _ else _). intros Hf. exists img.
    split; [unfold img; destruct (_ ==s ""); [by right|by left]|].
    destruct (GetImageOwner img d) as [[[owner pub] priv]|] eqn:Eo; [right|by left].
    destruct (oi_UID owner !=z RealUID id) eqn:Ew; bool_hyps.
    + by destruct (CanUseImage _ _ d).
    + by eapply owner_can_use.
Qed.
End perms.

(** ** Witnesses *)

Module PermDemo.
(** The daemon knows one image, under the name [app]. *)
Definition env : DaemonEnv :=
  mkDaemonEnv (mkDocker (λ path, if path ==s "/images/app/json" then Some (JObj [("Id", JStr ImageDemo.digest)]) else None)
                        (λ _, None) (λ _, None)) (λ _, false) [] Demo.os demo_policy.
Definition rmi_url : HttpURL := mkHttpURL "/v1.41/images/app" "" "".
Definition pull_url : HttpURL :=
  mkHttpURL "/v1.41/images/create" "" "fromImage=docker.io%2Flibrary%2Fapp&tag=latest".
Definition push_url : HttpURL := mkHttpURL "/v1.41/images/app/push" "" "".
Definition carol : CallerIdentity := tcp_identity "carol" 1003 1003 AuthSourceJWT.
(** bob's image, committed from a container. *)
Definition committed : OwnershipDB :=
  run_image_ops [OpSetImageOwner 7 ImageDemo.digest ImageDemo.bob false "commit"] initSchema.
End PermDemo.

Example parse_ref_demo :
  parseImageRefFromURI (RequestURI PermDemo.pull_url) = "app" ∧
  parseImageRefFromURI "/images/create?fromImage=alpine&tag=3.18" = "alpine:3.18".
Proof. split; vm_compute; reflexivity. Qed.

Lemma committed_wf : image_wf PermDemo.committed.
Proof. apply image_run_refines; [done|apply initSchema_image_wf]. Qed.

Lemma rmi_forwarded_is_safe_witness :
  ∃ owner isPublic priv,
    GetImageOwner ImageDemo.digest PermDemo.committed = Some (owner, isPublic, priv) ∧ oi_UID owner = 1002%Z.
Proof.
  destruct (rmi_forwarded_is_safe PermDemo.env PermDemo.rmi_url ImageDemo.bob PermDemo.committed
    PermDemo.committed) as (owner & pub & priv & Ho & Hu & _);
    [vm_compute; reflexivity|reflexivity|vm_compute; discriminate|vm_compute; discriminate|].
  exists owner, pub, priv. split; [exact Ho|exact Hu].
Defined.

(** alice, who references bob's image, removes it. *)
Lemma rmi_by_non_owner_drops_reference_witness :
  sp_images (image_abs (checkImageRemovePermission PermDemo.env PermDemo.rmi_url ImageDemo.alice ImageDemo.db).2)
  = sp_images (image_abs ImageDemo.db).
Proof.
  pose proof (rmi_by_non_owner_drops_reference PermDemo.env PermDemo.rmi_url ImageDemo.alice ImageDemo.db
    (mkOwnerInfo "bob" 1002 1002 "build") false 0 eq_refl demo_db_wf eq_refl) as H.
  destruct (checkImageRemovePermission _ _ _ _) as [v d']. apply H; vm_compute; (reflexivity || discriminate).
Defined.

Lemma private_image_removed_despite_references_witness :
  checkImageRemovePermission PermDemo.env PermDemo.rmi_url ImageDemo.bob ImageDemo.db
    = (Forward, ImageDemo.db) ∧
  GetImageRefCountExcluding ImageDemo.digest 1002 ImageDemo.db = inr 1%nat.
Proof.
  split; [|vm_compute; reflexivity].
  apply (private_image_removed_despite_references PermDemo.env PermDemo.rmi_url ImageDemo.bob ImageDemo.db
    (mkOwnerInfo "bob" 1002 1002 "build") 0); vm_compute; (reflexivity || discriminate).
Defined.

Lemma pull_of_private_image_witness :
  (∃ msg, checkImagePullPermission PermDemo.env PermDemo.pull_url PermDemo.carol ImageDemo.db
          = (Answer (DockerError 403 msg), ImageDemo.db)) ∧
  (∃ d', checkImagePullPermission PermDemo.env PermDemo.pull_url PermDemo.carol PermDemo.committed
         = (Answer (PullComplete "ba6dc382fcdc"), d') ∧ CanUseImage 1003 ImageDemo.digest d' = true).
Proof.
  split.
  - apply (pull_of_private_image PermDemo.env PermDemo.pull_url PermDemo.carol ImageDemo.db
      (mkImageRow ImageDemo.long "bob" 1002 1002 0 0 "build" 7));
      vm_compute; (reflexivity || discriminate).
  - apply (pull_of_private_image PermDemo.env PermDemo.pull_url PermDemo.carol PermDemo.committed
      (mkImageRow ImageDemo.long "bob" 1002 1002 0 0 "commit" 7));
      vm_compute; (reflexivity || discriminate).
Defined.

Lemma push_and_tag_need_access_witness :
  checkImagePushPermission PermDemo.env PermDemo.push_url ImageDemo.alice ImageDemo.db = Forward ∧
  ((∃ img, GetImageOwner img ImageDemo.db ≠ None ∧ CanUseImage 1001 img ImageDemo.db = true) ∨
   listImageIDsByRepo (env_docker PermDemo.env) "app" ≠ []).
Proof.
  split; [vm_compute; reflexivity|].
  destruct (push_and_tag_need_access PermDemo.env PermDemo.push_url ImageDemo.alice ImageDemo.db)
    as [H _]; [reflexivity|vm_compute; discriminate|].
  destruct H as [(img & H1 & H2 & _)|[H _]]; [vm_compute; reflexivity| |].
  - left. exists img. split; [exact H1|exact H2].
  - right. vm_compute in H. contradict H. reflexivity.
Defined.
