(* ===== verification/Quota.v ===== *)
(** * Quota: per-user resource quotas

    [internal/isolation/quota.go]: the configuration and its inheritance
    ([GetQuota]), the run-time updates of the quota manager, the check of a
    container creation or update against the quota, and the injection of the
    limits into the forwarded body.  64-bit integers wrap as Go's do; the CPU
    quota, a [float64], is an IEEE 754 binary64 value ([spec_float]) and is
    multiplied and converted as the code does.  The body is the document the
    JSON layer reads ([GoJson]).  The readable strings of [QuotaCheckResult] and
    [QuotaExceededError] are reduced to the numbers they print. *)

From Stdlib Require Import Floats.SpecFloat.
From S2P Require Import Prelude GoStrings GoJson OsLookup Identity Database ResourceDB.

(** ** Floating point *)

Definition float64 : Type := spec_float.
Definition f64_mul (a b : float64) : float64 := SFmul 53 1024 a b.
(** The value of a small integer, exactly. *)
Definition f64_of_pos (p : positive) (e : Z) : float64 := binary_normalize 53 1024 (Zpos p) e false.
Definition f64_1e9 : float64 := f64_of_pos 1000000000 0.
Definition f64_zero : float64 := S754_zero false.
Definition f64_gt (a b : float64) : bool := SFltb b a.
Definition f64_is_zero (a : float64) : bool := SFeqb a f64_zero.

(** The integer part of a finite value. *)
Definition f64_trunc (f : float64) : option Z :=
  match f with
  | S754_zero _ => Some 0%Z
  | S754_finite s m e =>
    let n := if (0 <=? e)%Z then (Zpos m * 2 ^ e)%Z else (Zpos m / 2 ^ (- e))%Z in
    Some (if s then (- n)%Z else n)
  | _ => None
  end.

(** [int64(f)]: what does not fit becomes the least integer, as amd64 has it. *)
Definition int64_of_f64 (f : float64) : Z :=
  match f64_trunc f with
  | Some z => if bool_decide (in_int64 z) then z else int64_min
  | None => int64_min
  end.

(** [int64(cores * 1e9)]. *)
Definition nano_of_cores (cores : float64) : Z := int64_of_f64 (f64_mul cores f64_1e9).

(** [int64(mb) * 1024 * 1024]. *)
Definition mb_bytes (mb : Z) : Z := wrap64 (wrap64 (mb * 1024) * 1024).

(** ** Configuration *)

Record QuotaEntry := mkQuotaEntry {
  qe_CPUCores : float64; qe_MemMB : Z; qe_StorageGB : Z; qe_MaxContainers : Z;
  qe_TmpfsSizeMB : Z; qe_AllowedDevices : list string;
}.

Record quotaEntryRaw := mkQuotaEntryRaw {
  qr_CPUCores : option float64; qr_MemMB : option Z; qr_StorageGB : option Z;
  qr_MaxContainers : option Z; qr_TmpfsSizeMB : option Z; qr_AllowedDevices : list string;
}.

Definition UserQuota : Type := QuotaEntry.

Record QuotaManager := mkQuotaManager {
  qm_defaults : QuotaEntry;
  qm_users : gmap string quotaEntryRaw;
  qm_groups : gmap string quotaEntryRaw;
}.

(** The parsed quota.yaml. *)
Record QuotaConfig := mkQuotaConfig {
  qc_Defaults : QuotaEntry;
  qc_Users : gmap string quotaEntryRaw;
  qc_Groups : gmap string quotaEntryRaw;
}.

Definition builtinAllowedDevices : list string :=
  ["/dev/null"; "/dev/zero"; "/dev/urandom"; "/dev/random"; "/dev/full"; "/dev/tty"].

Definition derefFloat64 (p : option float64) (fallback : float64) : float64 := default fallback p.
Definition derefInt (p : option Z) (fallback : Z) : Z := default fallback p.

Definition rawToEntry (r : quotaEntryRaw) : QuotaEntry :=
  mkQuotaEntry (derefFloat64 (qr_CPUCores r) f64_zero) (derefInt (qr_MemMB r) 0)
    (derefInt (qr_StorageGB r) 0) (derefInt (qr_MaxContainers r) 0) (derefInt (qr_TmpfsSizeMB r) 0)
    (qr_AllowedDevices r).

Definition entryToRaw (e : QuotaEntry) : quotaEntryRaw :=
  mkQuotaEntryRaw (Some (qe_CPUCores e)) (Some (qe_MemMB e)) (Some (qe_StorageGB e))
    (Some (qe_MaxContainers e)) (Some (qe_TmpfsSizeMB e)) (qe_AllowedDevices e).

Definition zero_entry : QuotaEntry := mkQuotaEntry f64_zero 0 0 0 0 [].

Definition negative_entry (e : QuotaEntry) : bool :=
  SFltb (qe_CPUCores e) f64_zero || (qe_MemMB e <? 0)%Z || (qe_StorageGB e <? 0)%Z.
Definition negative_raw (e : quotaEntryRaw) : bool :=
  match qr_CPUCores e with Some c => SFltb c f64_zero | None => false end
  || match qr_MemMB e with Some m => (m <? 0)%Z | None => false end
  || match qr_StorageGB e with Some g => (g <? 0)%Z | None => false end.

(** [None] is an error: the file is unreadable or unparsable (the argument is
    [None]), or a default is negative. *)
Definition LoadQuotaManager (file : option QuotaConfig) : option QuotaManager :=
  cfg ← file;
  if negative_entry (qc_Defaults cfg) then None
  else Some (mkQuotaManager (qc_Defaults cfg) (qc_Users cfg) (qc_Groups cfg)).

Definition DefaultQuotaManager : QuotaManager := mkQuotaManager zero_entry ∅ ∅.

(** The new state and whether the reload succeeded. *)
Definition Reload (path : string) (file : option QuotaConfig) (m : QuotaManager) : QuotaManager * bool :=
  if path ==s "" then (m, false) else
  match file with
  | None => (m, false)
  | Some cfg =>
    if negative_entry (qc_Defaults cfg) then (m, false)
    else if existsb (λ kv, negative_raw kv.2) (map_to_list (qc_Users cfg)) then (m, false)
    else (mkQuotaManager (qc_Defaults cfg) (qc_Users cfg) (qc_Groups cfg), true)
  end.

Definition SetUserQuota (username : string) (entry : QuotaEntry) (m : QuotaManager) : QuotaManager :=
  mkQuotaManager (qm_defaults m) (<[username := entryToRaw entry]> (qm_users m)) (qm_groups m).
Definition DeleteUserQuota (username : string) (m : QuotaManager) : QuotaManager :=
  mkQuotaManager (qm_defaults m) (delete username (qm_users m)) (qm_groups m).
Definition GetUserQuota (username : string) (m : QuotaManager) : option QuotaEntry :=
  rawToEntry <$> qm_users m !! username.
Definition SetGroupQuota (groupname : string) (entry : QuotaEntry) (m : QuotaManager) : QuotaManager :=
  mkQuotaManager (qm_defaults m) (qm_users m) (<[groupname := entryToRaw entry]> (qm_groups m)).
Definition DeleteGroupQuota (groupname : string) (m : QuotaManager) : QuotaManager :=
  mkQuotaManager (qm_defaults m) (qm_users m) (delete groupname (qm_groups m)).
Definition SetDefaultQuota (entry : QuotaEntry) (m : QuotaManager) : QuotaManager :=
  mkQuotaManager entry (qm_users m) (qm_groups m).
Definition GetDefaultQuota (m : QuotaManager) : QuotaEntry := qm_defaults m.

(** ** Inheritance *)

(** A group's value replaces the current one when it is 0 or larger. *)
Definition group_int (cur : Z) (g : option Z) : Z :=
  match g with
  | Some v => if (v =? 0)%Z || (cur <? v)%Z then v else cur
  | None => cur
  end.
Definition group_cpu (cur : float64) (g : option float64) : float64 :=
  match g with
  | Some v => if f64_is_zero v || f64_gt v cur then v else cur
  | None => cur
  end.

Definition apply_group (q : QuotaEntry) (g : quotaEntryRaw) : QuotaEntry :=
  mkQuotaEntry (group_cpu (qe_CPUCores q) (qr_CPUCores g))
    (group_int (qe_MemMB q) (qr_MemMB g)) (group_int (qe_StorageGB q) (qr_StorageGB g))
    (group_int (qe_MaxContainers q) (qr_MaxContainers g))
    (group_int (qe_TmpfsSizeMB q) (qr_TmpfsSizeMB g))
    (qe_AllowedDevices q ++ qr_AllowedDevices g).

Definition apply_user (q : QuotaEntry) (u : quotaEntryRaw) : QuotaEntry :=
  mkQuotaEntry (default (qe_CPUCores q) (qr_CPUCores u)) (default (qe_MemMB q) (qr_MemMB u))
    (default (qe_StorageGB q) (qr_StorageGB u)) (default (qe_MaxContainers q) (qr_MaxContainers u))
    (default (qe_TmpfsSizeMB q) (qr_TmpfsSizeMB u)) (qe_AllowedDevices q ++ qr_AllowedDevices u).

(** The configured groups of a user, in the order of [GetUserGroups]. *)
Definition user_group_entries (os : OsFiles) (uid : Z) (m : QuotaManager) : list quotaEntryRaw :=
  omap (λ gid, let name := LookupGroupName os gid in
               if name ==s "" then None else qm_groups m !! name) (GetUserGroups os uid).

Definition GetQuota (os : OsFiles) (identity : CallerIdentity) (m : QuotaManager) : UserQuota :=
  let q := foldl apply_group (qm_defaults m) (user_group_entries os (RealUID identity) m) in
  let q := match qm_users m !! RealUsername identity with Some u => apply_user q u | None => q end in
  mkQuotaEntry (qe_CPUCores q) (qe_MemMB q) (qe_StorageGB q) (qe_MaxContainers q)
    (if (qe_TmpfsSizeMB q =? 0)%Z then 512 else qe_TmpfsSizeMB q)
    (builtinAllowedDevices ++ qe_AllowedDevices q).

(** ** The requests *)

(** [containerCreateRequest.HostConfig]. *)
Record HostResources := mkHostResources {
  NanoCPUs : Z; CpuQuota : Z; CpuPeriod : Z; CpuShares : Z; CpusetCpus : string;
  Memory : Z; MemorySwap : Z; MemorySwappiness : Z; MemoryReservation : Z;
  StorageOpt : option (gmap string string);
}.

Definition no_resources : HostResources := mkHostResources 0 0 0 0 "" 0 0 0 0 None.

(** Decoding an object into the struct, member after member. *)
Definition decode_resources (h : HostResources) (kvs : list (string * json)) : HostResources :=
  mkHostResources
    (field decode_int64 "NanoCpus" kvs (NanoCPUs h)) (field decode_int64 "CpuQuota" kvs (CpuQuota h))
    (field decode_int64 "CpuPeriod" kvs (CpuPeriod h)) (field decode_int64 "CpuShares" kvs (CpuShares h))
    (field decode_string "CpusetCpus" kvs (CpusetCpus h))
    (field decode_int64 "Memory" kvs (Memory h)) (field decode_int64 "MemorySwap" kvs (MemorySwap h))
    (field decode_int64 "MemorySwappiness" kvs (MemorySwappiness h))
    (field decode_int64 "MemoryReservation" kvs (MemoryReservation h))
    (field decode_string_map "StorageOpt" kvs (StorageOpt h)).

Definition resources_ok (kvs : list (string * json)) : bool :=
  forallb (λ name, field_ok decode_int64 name kvs 0%Z)
    ["NanoCpus"; "CpuQuota"; "CpuPeriod"; "CpuShares"; "Memory"; "MemorySwap"; "MemorySwappiness";
     "MemoryReservation"]
  && field_ok decode_string "CpusetCpus" kvs "" && field_ok decode_string_map "StorageOpt" kvs None.

Definition decode_host (h : HostResources) (v : json) : HostResources * bool :=
  match v with
  | JNull => (h, true)
  | JObj kvs => (decode_resources h kvs, resources_ok kvs)
  | _ => (h, false)
  end.

(** [parseContainerRequest] on a document: [None] is a type error. *)
Definition parseContainerRequest (j : json) : option HostResources :=
  match j with
  | JNull => Some no_resources
  | JObj kvs =>
    if field_ok decode_host "HostConfig" kvs no_resources
    then Some (field decode_host "HostConfig" kvs no_resources) else None
  | _ => None
  end.

Definition cpu_nanos (nano quota period : Z) : Z :=
  if (0 <? nano)%Z then nano
  else if (0 <? quota)%Z then
    Z.quot (wrap64 (quota * 1000000000)) (if (period <=? 0)%Z then 100000 else period)
  else 0.

Definition effectiveCPUNanos (req : HostResources) : Z :=
  cpu_nanos (NanoCPUs req) (CpuQuota req) (CpuPeriod req).

(** ** Storage sizes *)

(** [fmt.Sscanf(s, "%d", &n)]: leading blanks (a line end stops the scan), a
    sign, digits; [None], [n] left as it was, when there is no number or it does
    not fit. *)
Fixpoint skip_blanks (fuel : nat) (s : string) : string :=
  match fuel with
  | O => s
  | S f =>
    match s with
    | String "010" _ => s
    | _ => match space_prefix s with Some n => skip_blanks f (str_drop n s) | None => s end
    end
  end.

Definition scan_opt (s : string) : option Z :=
  let s := skip_blanks (slen s) s in
  let '(neg, ds) :=
    match s with
    | String "-" r => (true, r)
    | String "+" r => (false, r)
    | _ => (false, s)
    end in
  let digits := (span is_digit ds).1 in
  if digits ==s "" then None else
  match digits_val 0 digits with
  | Some n =>
    let z := if neg : bool then (- n)%Z else n in
    if bool_decide (in_int64 z) then Some z else None
  | None => None
  end.

(** With [n] zero before. *)
Definition scan_int (s : string) : Z := default 0%Z (scan_opt s).

Definition parseStorageGB (s : string) : Z :=
  if (slen s <? 2)%nat then 0 else
  let unit := str_drop (slen s - 1) s in
  let n := scan_int (str_take (slen s - 1) s) in
  if (unit ==s "G") || (unit ==s "g") then n
  else if (unit ==s "T") || (unit ==s "t") then wrap64 (n * 1024)
  else if (unit ==s "M") || (unit ==s "m") then (if (1024 <=? n)%Z then Z.quot n 1024 else 0)
  else 0.

(** ** Injection *)

Record injectionResult := mkInjectionResult { inj_nanos : Z; inj_memMB : Z; inj_storageGB : Z }.

(** The members of [HostConfig] that [json.Unmarshal] puts into the map. *)
Definition host_config_map (raw : gmap string json) : gmap string json :=
  match raw !! "HostConfig" with
  | Some (JObj kvs) => obj_map kvs
  | _ => ∅
  end.

Definition inject_cpu (req : HostResources) (quota : UserQuota) (defaultCPUCores : float64)
    (hc : gmap string json) : gmap string json * Z :=
  if f64_gt (qe_CPUCores quota) f64_zero then
    let quotaNano := nano_of_cores (qe_CPUCores quota) in
    let currentNano := effectiveCPUNanos req in
    if (currentNano =? 0)%Z then
      let defaultNano := nano_of_cores defaultCPUCores in
      let injectedNano := if (0 <? defaultNano)%Z then Z.min defaultNano quotaNano else quotaNano in
      (<["NanoCpus" := JInt injectedNano]> hc, injectedNano)
    else (hc, if (0 <? NanoCPUs req)%Z then NanoCPUs req else currentNano)
  else (hc, 0%Z).

Definition inject_memory (req : HostResources) (quota : UserQuota) (defaultMemMB : Z)
    (hc : gmap string json) : gmap string json * Z :=
  if (0 <? qe_MemMB quota)%Z then
    let quotaBytes := mb_bytes (qe_MemMB quota) in
    let finalMemBytes :=
      if (Memory req =? 0)%Z then
        let defaultMemBytes := mb_bytes defaultMemMB in
        if (0 <? defaultMemBytes)%Z then Z.min defaultMemBytes quotaBytes else quotaBytes
      else Memory req in
    let b := JInt finalMemBytes in
    let hc := <["MemorySwappiness" := JInt 0]> (<["MemorySwap" := b]> (<["Memory" := b]> hc)) in
    (if (finalMemBytes <? MemoryReservation req)%Z then <["MemoryReservation" := b]> hc else hc,
     Z.quot (Z.quot finalMemBytes 1024) 1024)
  else (hc, 0%Z).

Definition marshal_strings (m : gmap string string) : json := marshal_map (JStr <$> m).

Definition inject_storage (req : HostResources) (quota : UserQuota) (hc : gmap string json)
    : gmap string json * Z :=
  if (0 <? qe_StorageGB quota)%Z then
    let storageOpt := default ∅ (StorageOpt req) in
    if default "" (storageOpt !! "size") ==s "" then
      (<["StorageOpt" := marshal_strings (<["size" := Itoa (qe_StorageGB quota) +:+ "G"]> storageOpt)]> hc,
       qe_StorageGB quota)
    else
      (<["StorageOpt" := marshal_strings storageOpt]> hc,
       parseStorageGB (default "" (storageOpt !! "size")))
  else (hc, 0%Z).

(** The run of a handler: it may panic (a write to a nil map). *)
Inductive run A := Returns (a : A) | Panics.
Arguments Returns {A} a.
Arguments Panics {A}.

Definition injectQuotaLimits (j : json) (req : HostResources) (quota : UserQuota)
    (defaultCPUCores : float64) (defaultMemMB : Z) : run (json * injectionResult) :=
  match unmarshal_map j with
  | None => Returns (j, mkInjectionResult 0 0 0)
  | Some None => Panics
  | Some (Some raw) =>
    let '(hc, nanos) := inject_cpu req quota defaultCPUCores (host_config_map raw) in
    let '(hc, memMB) := inject_memory req quota defaultMemMB hc in
    let '(hc, storageGB) := inject_storage req quota hc in
    Returns (marshal_map (<["HostConfig" := marshal_map hc]> raw), mkInjectionResult nanos memMB storageGB)
  end.

(** ** The checks *)

(** What the check needs of the ownership database. *)
Class ContainerCounter (D : Type) := container_count : Z → D → result nat.
#[export] Instance OwnershipDB_counter : ContainerCounter OwnershipDB := CountContainersByOwner.

(** A refusal: the resource, what was asked for and the limit (nano-CPUs, bytes,
    gigabytes or containers). *)
Record QuotaExceeded := mkQuotaExceeded { qx_Resource : string; qx_Requested : Z; qx_Limit : Z }.

(** The CPU and memory checks common to creation and update. *)
Definition check_cpu (numCPU nano cpuQuota reqNano : Z) (quota : UserQuota) : option QuotaExceeded :=
  if f64_gt (qe_CPUCores quota) f64_zero && (0 <? reqNano)%Z
     && (nano_of_cores (qe_CPUCores quota) <? reqNano)%Z
  then Some (mkQuotaExceeded "cpu" reqNano (nano_of_cores (qe_CPUCores quota)))
  else if (nano =? 0)%Z && (0 <? cpuQuota)%Z && (0 <? reqNano)%Z
          && (wrap64 (numCPU * 1000000000) <? reqNano)%Z
  then Some (mkQuotaExceeded "cpu" reqNano (wrap64 (numCPU * 1000000000)))
  else None.

Definition check_memory (mem : Z) (quota : UserQuota) : option QuotaExceeded :=
  if (0 <? qe_MemMB quota)%Z && (0 <? mem)%Z && (mb_bytes (qe_MemMB quota) <? mem)%Z
  then Some (mkQuotaExceeded "memory" mem (mb_bytes (qe_MemMB quota)))
  else None.

Definition check_storage (opts : option (gmap string string)) (quota : UserQuota) : option QuotaExceeded :=
  if (0 <? qe_StorageGB quota)%Z then
    match default ∅ opts !! "size" with
    | Some sizeStr =>
      let requestedGB := parseStorageGB sizeStr in
      if (sizeStr !=s "") && (0 <? requestedGB)%Z && (qe_StorageGB quota <? requestedGB)%Z
      then Some (mkQuotaExceeded "storage" requestedGB (qe_StorageGB quota)) else None
    | None => None
    end
  else None.

Definition check_containers {D} `{ContainerCounter D} (quota : UserQuota) (uid : Z) (db : option D)
    : option QuotaExceeded :=
  if (0 <? qe_MaxContainers quota)%Z then
    match db with
    | Some d =>
      match container_count uid d with
      | inr count =>
        if (qe_MaxContainers quota <=? Z.of_nat count)%Z
        then Some (mkQuotaExceeded "containers" (Z.of_nat count + 1) (qe_MaxContainers quota)) else None
      | inl _ => None
      end
    | None => None
    end
  else None.

(** Refused, or forwarded with this body. *)
Inductive quota_outcome :=
  | Refused (e : QuotaExceeded)
  | Allowed (b : body).

Definition CheckAndInjectQuota {D} `{ContainerCounter D} (numCPU : Z) (b : body) (quota : UserQuota)
    (uid : Z) (db : option D) (defaultCPUCores : float64) (defaultMemMB : Z) : run quota_outcome :=
  match check_containers quota uid db with
  | Some e => Returns (Refused e)
  | None =>
    match b with
    | Doc j =>
      match parseContainerRequest j with
      | None => Returns (Allowed b)
      | Some req =>
        match check_cpu numCPU (NanoCPUs req) (CpuQuota req) (effectiveCPUNanos req) quota with
        | Some e => Returns (Refused e)
        | None =>
          match check_memory (Memory req) quota with
          | Some e => Returns (Refused e)
          | None =>
            match check_storage (StorageOpt req) quota with
            | Some e => Returns (Refused e)
            | None =>
              match injectQuotaLimits j req quota defaultCPUCores defaultMemMB with
              | Panics => Panics
              | Returns (j', _) => Returns (Allowed (Doc j'))
              end
            end
          end
        end
      end
    | _ => Returns (Allowed b)
    end
  end.

(** [containerUpdateRequest]: the fields are at the top level. *)
Definition parse_update (j : json) : option (Z * Z * Z * Z) :=
  match j with
  | JNull => Some (0, 0, 0, 0)%Z
  | JObj kvs =>
    if forallb (λ name, field_ok decode_int64 name kvs 0%Z) ["NanoCpus"; "CpuQuota"; "CpuPeriod"; "Memory"]
    then Some (field decode_int64 "NanoCpus" kvs 0, field decode_int64 "CpuQuota" kvs 0,
               field decode_int64 "CpuPeriod" kvs 0, field decode_int64 "Memory" kvs 0)%Z
    else None
  | _ => None
  end.

(** [None]: the update may go on. *)
Definition CheckUpdateQuota (numCPU : Z) (b : body) (quota : UserQuota) : option QuotaExceeded :=
  match b with
  | Doc j =>
    match parse_update j with
    | None => None
    | Some (nano, cpuQuota, period, mem) =>
      match check_cpu numCPU nano cpuQuota (cpu_nanos nano cpuQuota period) quota with
      | Some e => Some e
      | None => check_memory mem quota
      end
    end
  | _ => None
  end.

(** The compatibility wrapper that only injects. *)
Definition InjectResourceLimits (j : json) (quota : UserQuota) (defaultCPUCores : float64)
    (defaultMemMB : Z) : run json :=
  if f64_is_zero (qe_CPUCores quota) && (qe_MemMB quota =? 0)%Z && (qe_StorageGB quota =? 0)%Z
  then Returns j
  else
    match parseContainerRequest j with
    | None => Returns j
    | Some req =>
      match injectQuotaLimits j req quota defaultCPUCores defaultMemMB with
      | Returns (j', _) => Returns j'
      | Panics => Panics
      end
    end.

(** ** Inheritance of an integer resource *)

Inductive int_resource := RMemMB | RStorageGB | RMaxContainers.
Definition entry_int (r : int_resource) (e : QuotaEntry) : Z :=
  match r with RMemMB => qe_MemMB e | RStorageGB => qe_StorageGB e | RMaxContainers => qe_MaxContainers e end.
Definition raw_int (r : int_resource) (e : quotaEntryRaw) : option Z :=
  match r with RMemMB => qr_MemMB e | RStorageGB => qr_StorageGB e | RMaxContainers => qr_MaxContainers e end.

Lemma entry_int_groups r q gs :
  entry_int r (foldl apply_group q gs) = foldl group_int (entry_int r q) (raw_int r <$> gs).
Proof. revert q. induction gs as [|g gs IH]; intros q; [done|]. cbn [foldl fmap list_fmap]. rewrite IH. by destruct r. Qed.

Lemma group_ints_omap d vs :
  foldl group_int d vs = foldl (λ cur v, if (v =? 0)%Z || (cur <? v)%Z then v else cur) d (omap id vs).
Proof. revert d. induction vs as [|[v|] vs IH]; intros d; [done|..]; csimpl; rewrite IH; by cbn. Qed.

Lemma omap_fmap_id {A B} (f : A → option B) (l : list A) : omap id (f <$> l) = omap f l.
Proof. induction l as [|a l IH]; [done|]. csimpl. rewrite IH. by destruct (f a). Qed.

Lemma group_ints_max d vs :
  Forall (λ v, 0 < v)%Z vs →
  foldl (λ cur v, if (v =? 0)%Z || (cur <? v)%Z then v else cur) d vs = foldr Z.max d vs.
Proof.
  intros Hv. revert d. induction Hv as [|v vs Hv _ IH]; intros d; [done|]. cbn [foldl foldr].
  replace (if (v =? 0)%Z || (d <? v)%Z then v else d) with (Z.max v d)
    by (destruct (v =? 0)%Z eqn:E, (d <? v)%Z eqn:F; cbn [orb]; lia).
  rewrite IH. clear. induction vs as [|w vs IH]; [done|]. cbn [foldr]. rewrite IH. lia.
Qed.

Lemma entry_int_GetQuota r os identity m :
  entry_int r (GetQuota os identity m) =
  default (foldl group_int (entry_int r (qm_defaults m))
             (raw_int r <$> user_group_entries os (RealUID identity) m))
    (qm_users m !! RealUsername identity ≫= raw_int r).
Proof.
  unfold GetQuota. cbv zeta. rewrite <- entry_int_groups.
  destruct (qm_users m !! RealUsername identity) as [u|]; destruct r; reflexivity.
Qed.

(** ** Unambiguous bodies *)

(** The members the checks look at. *)
Definition resource_fields : list string :=
  ["NanoCpus"; "CpuQuota"; "CpuPeriod"; "CpuShares"; "CpusetCpus"; "Memory"; "MemorySwap";
   "MemorySwappiness"; "MemoryReservation"; "StorageOpt"].

Definition canonical (j : json) : Prop :=
  match j with
  | JObj kvs =>
    unambiguous ["HostConfig"] kvs ∧
    match obj_map kvs !! "HostConfig" with
    | Some (JObj hkvs) => unambiguous resource_fields hkvs
    | _ => True
    end
  | _ => True
  end.

(** Deciding it. *)
Definition canonicalb (j : json) : bool :=
  match j with
  | JObj kvs =>
    unambiguousb ["HostConfig"] kvs &&
    match obj_map kvs !! "HostConfig" with Some (JObj hkvs) => unambiguousb resource_fields hkvs | _ => true end
  | _ => true
  end.

Lemma canonicalb_spec j : canonicalb j = true → canonical j.
Proof.
  destruct j as [| | | | | |kvs]; [done..|]. cbn [canonicalb canonical]. rewrite andb_true_iff.
  intros [H1 H2]. split; [by apply unambiguousb_spec|].
  destruct (obj_map kvs !! "HostConfig") as [[]|]; try done. by apply unambiguousb_spec.
Qed.

(** A member of a map, as its decoder reads it, and whether it has the type. *)
Definition get {A} (dec : A → json → A * bool) (init : A) (m : gmap string json) (name : string) : A :=
  match m !! name with Some v => (dec init v).1 | None => init end.
Definition get_ok {A} (dec : A → json → A * bool) (init : A) (m : gmap string json) (name : string) : bool :=
  match m !! name with Some v => (dec init v).2 | None => true end.

Definition host_of (m : gmap string json) : HostResources :=
  mkHostResources (get decode_int64 0%Z m "NanoCpus") (get decode_int64 0%Z m "CpuQuota")
    (get decode_int64 0%Z m "CpuPeriod") (get decode_int64 0%Z m "CpuShares")
    (get decode_string "" m "CpusetCpus") (get decode_int64 0%Z m "Memory")
    (get decode_int64 0%Z m "MemorySwap") (get decode_int64 0%Z m "MemorySwappiness")
    (get decode_int64 0%Z m "MemoryReservation") (get decode_string_map None m "StorageOpt").

Definition int_fields : list string :=
  ["NanoCpus"; "CpuQuota"; "CpuPeriod"; "CpuShares"; "Memory"; "MemorySwap"; "MemorySwappiness";
   "MemoryReservation"].
Definition host_ok (m : gmap string json) : bool :=
  forallb (get_ok decode_int64 0%Z m) int_fields
  && get_ok decode_string "" m "CpusetCpus" && get_ok decode_string_map None m "StorageOpt".

Lemma decode_host_of kvs :
  unambiguous resource_fields kvs →
  decode_resources no_resources kvs = host_of (obj_map kvs) ∧ resources_ok kvs = host_ok (obj_map kvs).
Proof.
  intros Hu. split.
  - unfold decode_resources, host_of, get, no_resources.
    cbn [NanoCPUs CpuQuota CpuPeriod CpuShares CpusetCpus Memory MemorySwap MemorySwappiness
         MemoryReservation StorageOpt].
    f_equal; apply (field_obj_map _ resource_fields); try done; unfold resource_fields; set_solver.
  - unfold resources_ok, host_ok.
    assert (∀ A (dec : A → json → A * bool) name init, name ∈ resource_fields →
              field_ok dec name kvs init = get_ok dec init (obj_map kvs) name) as E
      by (intros; by apply (field_ok_obj_map _ resource_fields)).
    unfold int_fields. cbn [forallb].
    by rewrite !E by (unfold resource_fields; set_solver).
Qed.

Lemma resource_fields_distinct f g :
  f ∈ resource_fields → g ∈ resource_fields → key_is f g = true → g = f.
Proof. apply distinct_fields_spec. by vm_compute. Qed.

(** The keys the injection may add. *)
Definition extends (hc hc' : gmap string json) : Prop :=
  ∀ k, is_Some (hc' !! k) → k ∈ resource_fields ∨ is_Some (hc !! k).

Lemma extends_refl hc : extends hc hc.
Proof. intros k. auto. Qed.
Lemma extends_insert hc hc' k v : k ∈ resource_fields → extends hc hc' → extends hc (<[k := v]> hc').
Proof. intros Hk He k'. rewrite lookup_insert_is_Some. intros [->|[_ ?]]; auto. Qed.

Lemma inject_extends req quota dc dm raw :
  let hc := host_config_map raw in
  let hc1 := (inject_cpu req quota dc hc).1 in
  let hc2 := (inject_memory req quota dm hc1).1 in
  extends hc (inject_storage req quota hc2).1.
Proof.
  cbv zeta. set (hc := host_config_map raw).
  assert (extends hc (inject_cpu req quota dc hc).1) as H1.
  { unfold inject_cpu. cbv zeta. destruct (f64_gt _ _); [|apply extends_refl].
    destruct (effectiveCPUNanos req =? 0)%Z; [|apply extends_refl].
    cbn [fst]. apply extends_insert; [|apply extends_refl]. unfold resource_fields. set_solver. }
  revert H1. generalize (inject_cpu req quota dc hc).1 as hc1. intros hc1 H1.
  assert (extends hc (inject_memory req quota dm hc1).1) as H2.
  { unfold inject_memory. cbv zeta. destruct (0 <? qe_MemMB quota)%Z; [|done].
    cbn [fst]. case_match; repeat (apply extends_insert; [unfold resource_fields; set_solver|]); done. }
  revert H2. generalize (inject_memory req quota dm hc1).1 as hc2. intros hc2 H2.
  unfold inject_storage. cbv zeta. destruct (0 <? qe_StorageGB quota)%Z; [|done].
  destruct (_ ==s ""); cbn [fst]; (apply extends_insert; [unfold resource_fields; set_solver|done]).
Qed.

(** ** What the daemon decodes from the forwarded body *)

Definition set_nano (z : Z) (h : HostResources) : HostResources :=
  mkHostResources z (CpuQuota h) (CpuPeriod h) (CpuShares h) (CpusetCpus h) (Memory h) (MemorySwap h)
    (MemorySwappiness h) (MemoryReservation h) (StorageOpt h).
Definition set_memory (mem reservation : Z) (h : HostResources) : HostResources :=
  mkHostResources (NanoCPUs h) (CpuQuota h) (CpuPeriod h) (CpuShares h) (CpusetCpus h) mem mem 0
    reservation (StorageOpt h).
Definition set_storage (o : gmap string string) (h : HostResources) : HostResources :=
  mkHostResources (NanoCPUs h) (CpuQuota h) (CpuPeriod h) (CpuShares h) (CpusetCpus h) (Memory h)
    (MemorySwap h) (MemorySwappiness h) (MemoryReservation h) (Some o).

(** The limits: a value asked for is kept, one not asked for becomes the
    smaller of the default (if any) and the quota. *)
Definition or_default (dflt limit : Z) : Z := if (0 <? dflt)%Z then Z.min dflt limit else limit.

Definition limit_cpu (q : UserQuota) (dc : float64) (h : HostResources) : HostResources :=
  if f64_gt (qe_CPUCores q) f64_zero && (effectiveCPUNanos h =? 0)%Z
  then set_nano (or_default (nano_of_cores dc) (nano_of_cores (qe_CPUCores q))) h else h.
Definition limit_memory (q : UserQuota) (dm : Z) (h : HostResources) : HostResources :=
  if (0 <? qe_MemMB q)%Z then
    let mem := if (Memory h =? 0)%Z then or_default (mb_bytes dm) (mb_bytes (qe_MemMB q)) else Memory h in
    set_memory mem (Z.min (MemoryReservation h) mem) h
  else h.
Definition limit_storage (q : UserQuota) (h : HostResources) : HostResources :=
  if (0 <? qe_StorageGB q)%Z then
    let o := default ∅ (StorageOpt h) in
    set_storage (if default "" (o !! "size") ==s "" then <["size" := Itoa (qe_StorageGB q) +:+ "G"]> o else o) h
  else h.
Definition limited (q : UserQuota) (dc : float64) (dm : Z) (h : HostResources) : HostResources :=
  limit_storage q (limit_memory q dm (limit_cpu q dc h)).

Lemma int64_min_in : in_int64 int64_min.
Proof. unfold in_int64, int64_min, int64_max. lia. Qed.
Lemma zero_in_int64 : in_int64 0.
Proof. unfold in_int64, int64_min, int64_max. lia. Qed.
Lemma nano_of_cores_in c : in_int64 (nano_of_cores c).
Proof.
  unfold nano_of_cores, int64_of_f64. generalize (f64_mul c f64_1e9) as f. intros f.
  destruct (f64_trunc f) as [z|]; [|apply int64_min_in].
  destruct (bool_decide (in_int64 z)) eqn:E; [by apply bool_decide_eq_true in E|apply int64_min_in].
Qed.
Lemma mb_bytes_in m : in_int64 (mb_bytes m).
Proof. apply wrap64_range. Qed.
Lemma or_default_in a b : in_int64 a → in_int64 b → in_int64 (or_default a b).
Proof. unfold or_default. destruct (0 <? a)%Z; [|done]. unfold in_int64. lia. Qed.
Lemma get_int64_in m name : in_int64 (get decode_int64 0%Z m name).
Proof.
  unfold get, decode_int64. destruct (m !! name) as [[]|]; try apply zero_in_int64.
  case_bool_decide; [done|apply zero_in_int64].
Qed.
Lemma decode_JInt z : in_int64 z → decode_int64 0 (JInt z) = (z, true).
Proof. intros H. unfold decode_int64. by rewrite bool_decide_eq_true_2. Qed.

(** Encoding a map of strings and decoding it again. *)
Lemma decode_string_members l :
  NoDup l.*1 → (∀ kv, kv ∈ l → ∃ s, kv.2 = JStr s) →
  ∃ m, decode_string_map None (JObj l) = (Some m, true) ∧ ∀ k s, m !! k = Some s ↔ (k, JStr s) ∈ l.
Proof.
  cbn [decode_string_map default]. induction l as [|[k v] l IH] using rev_ind; intros Hnd Hs.
  { exists ∅. split; [done|]. intros k s. rewrite lookup_empty, elem_of_nil. naive_solver. }
  rewrite fmap_app, NoDup_app in Hnd. destruct Hnd as (Hnd & Hdis & _).
  destruct IH as (m & Hf & Hm); [done|intros kv Hin; apply Hs; set_solver|].
  destruct (Hs (k, v)) as [s Hv]; [set_solver|]. cbn [snd] in Hv. subst v.
  rewrite foldl_app, Hf. cbn. eexists. split; [reflexivity|]. intros k' s'.
  rewrite elem_of_app, list_elem_of_singleton, <- Hm.
  destruct (decide (k = k')) as [->|Hne].
  - rewrite lookup_insert_eq. split; [intros [= ->]; by right|]. intros [Hin|[= ->]]; [exfalso|done].
    apply Hm in Hin. apply (Hdis k'); [change k' with (k', JStr s').1; by apply list_elem_of_fmap_2|left].
  - rewrite lookup_insert_ne by done. naive_solver.
Qed.

Lemma decode_marshal_strings o : decode_string_map None (marshal_strings o) = (Some o, true).
Proof.
  unfold marshal_strings, marshal_map.
  destruct (decode_string_members (merge_sort key_le (map_to_list (JStr <$> o)))) as (m & -> & Hm).
  - apply marshal_NoDup.
  - intros [k v] Hin%marshal_members. cbn [fst snd] in *. rewrite lookup_fmap in Hin.
    destruct (o !! k) as [s|]; [|done]. injection Hin as <-. by exists s.
  - do 2 f_equal. apply map_eq. intros k. apply option_eq. intros s.
    rewrite Hm, marshal_members. cbn [fst snd]. rewrite lookup_fmap.
    destruct (o !! k); cbn; naive_solver.
Qed.

(** *** The injection, member by member *)

Lemma get_insert {A} (dec : A → json → A * bool) init m name v :
  get dec init (<[name := v]> m) name = (dec init v).1.
Proof. unfold get. by rewrite lookup_insert_eq. Qed.
Lemma get_insert_ne {A} (dec : A → json → A * bool) init m name k v :
  k ≠ name → get dec init (<[k := v]> m) name = get dec init m name.
Proof. intros. unfold get. by rewrite lookup_insert_ne. Qed.
Lemma get_ok_insert_ne {A} (dec : A → json → A * bool) init m name k v :
  k ≠ name → get_ok dec init (<[k := v]> m) name = get_ok dec init m name.
Proof. intros. unfold get_ok. by rewrite lookup_insert_ne. Qed.

Lemma host_ok_insert_int m name z :
  name ∈ int_fields → in_int64 z → host_ok m = true → host_ok (<[name := JInt z]> m) = true.
Proof.
  intros Hn Hz Hm. unfold host_ok in *. rewrite !andb_true_iff in *. destruct Hm as [[Hi Hc] Hs].
  split_and!.
  - apply forallb_forall. intros f Hf. destruct (decide (name = f)) as [->|Hne].
    + unfold get_ok. rewrite lookup_insert_eq, decode_JInt by done. done.
    + rewrite get_ok_insert_ne by done. rewrite forallb_forall in Hi. by apply Hi.
  - rewrite get_ok_insert_ne; [done|]. intros ->. unfold int_fields in Hn. set_solver.
  - rewrite get_ok_insert_ne; [done|]. intros ->. unfold int_fields in Hn. set_solver.
Qed.

Lemma host_ok_insert_strings m o :
  host_ok m = true → host_ok (<["StorageOpt" := marshal_strings o]> m) = true.
Proof.
  intros Hm. unfold host_ok in *. rewrite !andb_true_iff in *. destruct Hm as [[Hi Hc] Hs].
  split_and!.
  - apply forallb_forall. intros f Hf. rewrite get_ok_insert_ne;
      [rewrite forallb_forall in Hi; by apply Hi|].
    intros <-. apply list_elem_of_In in Hf. unfold int_fields in Hf. set_solver.
  - by rewrite get_ok_insert_ne.
  - unfold get_ok. by rewrite lookup_insert_eq, decode_marshal_strings.
Qed.

Ltac solve_get :=
  repeat first [rewrite get_insert | rewrite get_insert_ne by discriminate];
  rewrite ?decode_JInt by done.

Lemma host_insert_nano m z :
  in_int64 z → host_of (<["NanoCpus" := JInt z]> m) = set_nano z (host_of m).
Proof. intros Hz. unfold host_of at 1. solve_get. reflexivity. Qed.

Lemma host_insert_memory m z :
  in_int64 z →
  host_of (<["MemorySwappiness" := JInt 0]> (<["MemorySwap" := JInt z]> (<["Memory" := JInt z]> m)))
  = set_memory z (MemoryReservation (host_of m)) (host_of m).
Proof. intros Hz. pose proof zero_in_int64. unfold host_of at 1. solve_get. reflexivity. Qed.

Lemma host_insert_reservation m z :
  in_int64 z → host_of (<["MemoryReservation" := JInt z]> m) =
  let h := host_of m in
  mkHostResources (NanoCPUs h) (CpuQuota h) (CpuPeriod h) (CpuShares h) (CpusetCpus h) (Memory h)
    (MemorySwap h) (MemorySwappiness h) z (StorageOpt h).
Proof. intros Hz. unfold host_of at 1. solve_get. reflexivity. Qed.

Lemma host_insert_storage m o :
  host_of (<["StorageOpt" := marshal_strings o]> m) = set_storage o (host_of m).
Proof. unfold host_of at 1. solve_get. rewrite decode_marshal_strings. reflexivity. Qed.

Definition good (m : gmap string json) (h : HostResources) : Prop := host_ok m = true ∧ host_of m = h.

Lemma inject_cpu_good req q dc hc :
  good hc req → good (inject_cpu req q dc hc).1 (limit_cpu q dc req).
Proof.
  intros [Hok <-]. unfold inject_cpu, limit_cpu. cbv zeta.
  destruct (f64_gt _ _); [|done]. cbn [andb]. destruct (effectiveCPUNanos (host_of hc) =? 0)%Z; [|done].
  cbn [fst]. set (z := if (0 <? _)%Z then _ else _).
  assert (in_int64 z) by (apply (or_default_in); apply nano_of_cores_in).
  split; [|by apply host_insert_nano]. apply host_ok_insert_int; try done. unfold int_fields. set_solver.
Qed.

Lemma inject_memory_good req q dm hc h :
  good hc h → Memory h = Memory req → MemoryReservation h = MemoryReservation req →
  good (inject_memory req q dm hc).1 (limit_memory q dm h).
Proof.
  intros [Hok <-] HM HR. unfold inject_memory, limit_memory. cbv zeta.
  destruct (0 <? qe_MemMB q)%Z; [|done]. rewrite <- HM, <- HR.
  set (z := if (Memory (host_of hc) =? 0)%Z then _ else _).
  assert (in_int64 z) as Hz.
  { subst z. destruct (_ =? 0)%Z; [apply or_default_in; apply mb_bytes_in|apply get_int64_in]. }
  change (if (Memory (host_of hc) =? 0)%Z then or_default (mb_bytes dm) (mb_bytes (qe_MemMB q))
          else Memory (host_of hc)) with z.
  assert (∀ m name v, host_ok m = true → name ∈ int_fields → in_int64 v →
            host_ok (<[name := JInt v]> m) = true) as Hins by (intros; by apply host_ok_insert_int).
  pose proof zero_in_int64 as H0. cbn [fst]. destruct (z <? MemoryReservation (host_of hc))%Z eqn:E; split.
  - repeat (apply Hins; [|unfold int_fields; set_solver|done]). done.
  - rewrite host_insert_reservation, host_insert_memory by done.
    rewrite Z.min_r by (apply Z.ltb_lt in E; lia). reflexivity.
  - repeat (apply Hins; [|unfold int_fields; set_solver|done]). done.
  - rewrite host_insert_memory by done. rewrite Z.min_l by (apply Z.ltb_ge in E; lia). reflexivity.
Qed.

Lemma inject_storage_good req q hc h :
  good hc h → StorageOpt h = StorageOpt req →
  good (inject_storage req q hc).1 (limit_storage q h).
Proof.
  intros [Hok <-] HS. unfold inject_storage, limit_storage. cbv zeta. rewrite <- HS.
  destruct (0 <? qe_StorageGB q)%Z; [|done].
  destruct (_ ==s ""); cbn [fst]; (split; [by apply host_ok_insert_strings|apply host_insert_storage]).
Qed.

Lemma canonical_good kvs req :
  canonical (JObj kvs) → parseContainerRequest (JObj kvs) = Some req →
  good (host_config_map (obj_map kvs)) req.
Proof.
  intros [Hu Hh] Hp. cbn [parseContainerRequest] in Hp.
  rewrite (field_ok_obj_map _ ["HostConfig"]) in Hp by (done || set_solver).
  rewrite (field_obj_map _ ["HostConfig"]) in Hp by (done || set_solver).
  unfold host_config_map. destruct (obj_map kvs !! "HostConfig") as [[| | | | | |hkvs]|];
    cbn [decode_host fst snd] in Hp; try done; try (injection Hp as <-; by split).
  destruct (decode_host_of hkvs Hh) as [E1 E2].
  destruct (resources_ok hkvs) eqn:F; [|done]. injection Hp as <-. split; [by rewrite <- E2|done].
Qed.

(** The object the injection encodes has no ambiguous member... *)
Lemma injected_unambiguous raw hc :
  match raw !! "HostConfig" with Some (JObj hkvs) => unambiguous resource_fields hkvs | _ => True end →
  extends (host_config_map raw) hc →
  unambiguous resource_fields (merge_sort key_le (map_to_list hc)).
Proof.
  intros Hh Hext. unfold host_config_map in Hext. destruct (raw !! "HostConfig") as [[| | | | | |hkvs]|];
    try (apply (unambiguous_marshal _ []);
         [intros k Hk; destruct (Hext k Hk) as [|[v Hv]]; [by left|by rewrite lookup_empty in Hv]
         |apply resource_fields_distinct|split; [constructor|set_solver]]).
  apply (unambiguous_marshal _ hkvs); [|apply resource_fields_distinct|done].
  intros k Hk. destruct (Hext k Hk) as [|[v Hv]]; [by left|right].
  apply obj_map_Some in Hv. change k with (k, v).1. by apply list_elem_of_fmap_2.
Qed.

(** ... and put back under ["HostConfig"] it is what the daemon decodes. *)
Lemma reencoded_decodes kvs hc h :
  unambiguous ["HostConfig"] kvs → good hc h →
  unambiguous resource_fields (merge_sort key_le (map_to_list hc)) →
  parseContainerRequest (marshal_map (<["HostConfig" := marshal_map hc]> (obj_map kvs))) = Some h.
Proof.
  intros Hu [Hok Hof] Hu'. destruct (decode_host_of _ Hu') as [G1 G2].
  rewrite obj_map_marshal in G1, G2. unfold marshal_map at 1. cbn [parseContainerRequest].
  assert (∀ k v, <["HostConfig" := marshal_map hc]> (obj_map kvs) !! k = Some v →
            key_is "HostConfig" k = true → k = "HostConfig") as Htop.
  { intros k v Hk Hkey. destruct (decide (k = "HostConfig")) as [|Hne]; [done|].
    rewrite lookup_insert_ne in Hk by done. apply obj_map_Some in Hk.
    by apply (proj2 Hu (k, v) "HostConfig"); [|set_solver|]. }
  rewrite field_ok_marshal; [|done|].
  - rewrite field_marshal by done. rewrite lookup_insert_eq. unfold marshal_map. cbn [decode_host fst].
    by rewrite <- Hof, <- G1.
  - intros v. rewrite lookup_insert_eq. intros [= <-]. unfold marshal_map. cbn [decode_host snd].
    by rewrite G2.
Qed.

(** The limits of one resource leave the other members alone. *)
Lemma limit_cpu_memory q dc h :
  Memory (limit_cpu q dc h) = Memory h ∧ MemoryReservation (limit_cpu q dc h) = MemoryReservation h
  ∧ StorageOpt (limit_cpu q dc h) = StorageOpt h.
Proof. unfold limit_cpu. by destruct (_ && _). Qed.
Lemma limit_memory_storage q dm h : StorageOpt (limit_memory q dm h) = StorageOpt h.
Proof. unfold limit_memory. by destruct (0 <? qe_MemMB q)%Z. Qed.
Lemma limit_memory_cpu q dm h : effectiveCPUNanos (limit_memory q dm h) = effectiveCPUNanos h.
Proof. unfold limit_memory. by destruct (0 <? qe_MemMB q)%Z. Qed.
Lemma limit_storage_rest q h :
  effectiveCPUNanos (limit_storage q h) = effectiveCPUNanos h ∧ Memory (limit_storage q h) = Memory h
  ∧ MemorySwap (limit_storage q h) = MemorySwap h ∧ MemorySwappiness (limit_storage q h) = MemorySwappiness h
  ∧ MemoryReservation (limit_storage q h) = MemoryReservation h.
Proof. unfold limit_storage. by destruct (0 <? qe_StorageGB q)%Z. Qed.

(** The body the injection produces decodes to the limited request. *)
Lemma injected_decodes j j' req q dc dm r :
  canonical j → parseContainerRequest j = Some req → injectQuotaLimits j req q dc dm = Returns (j', r) →
  parseContainerRequest j' = Some (limited q dc dm req).
Proof.
  intros Hc Hp Hi. unfold injectQuotaLimits in Hi.
  destruct j as [| | | | | |kvs]; cbn [unmarshal_map] in Hi; try done.
  pose proof (inject_cpu_good req q dc _ (canonical_good kvs req Hc Hp)) as H1.
  pose proof (inject_extends req q dc dm (obj_map kvs)) as Hext. cbv zeta in Hext.
  destruct (inject_cpu req q dc (host_config_map (obj_map kvs))) as [hc1 n] eqn:E1. cbn [fst] in *.
  destruct (limit_cpu_memory q dc req) as (F1 & F2 & F3).
  pose proof (inject_memory_good req q dm _ _ H1 F1 F2) as H2.
  destruct (inject_memory req q dm hc1) as [hc2 mb] eqn:E2. cbn [fst] in *.
  assert (StorageOpt (limit_memory q dm (limit_cpu q dc req)) = StorageOpt req) as F4
    by (by rewrite limit_memory_storage).
  pose proof (inject_storage_good req q _ _ H2 F4) as H3.
  destruct (inject_storage req q hc2) as [hc3 gb] eqn:E3. cbn [fst] in *.
  injection Hi as <- <-. destruct Hc as [Hu Hh].
  apply reencoded_decodes; [done|done|]. by apply (injected_unambiguous (obj_map kvs)).
Qed.

Lemma cpu_nanos_nonneg nano quota period :
  (0 <= quota)%Z → in_int64 (quota * 1000000000) → (0 <= cpu_nanos nano quota period)%Z.
Proof.
  intros Hq Hin. unfold cpu_nanos. destruct (0 <? nano)%Z eqn:E1; [lia|].
  destruct (0 <? quota)%Z eqn:E2; [|lia]. rewrite wrap64_id by done.
  apply Z.quot_pos; [lia|]. destruct (period <=? 0)%Z eqn:E3; lia.
Qed.

Lemma mb_bytes_exact m : (0 < m < 2 ^ 43)%Z → mb_bytes m = (m * 1048576)%Z.
Proof.
  intros Hm. unfold mb_bytes. rewrite (wrap64_id (m * 1024)).
  - rewrite wrap64_id; unfold in_int64, int64_min, int64_max; lia.
  - unfold in_int64, int64_min, int64_max; lia.
Qed.

(** What an accepted creation went through. *)
Lemma accepted_checks {D} `{ContainerCounter D} numCPU j j' q uid (db : option D) dc dm req :
  CheckAndInjectQuota numCPU (Doc j) q uid db dc dm = Returns (Allowed (Doc j')) →
  parseContainerRequest j = Some req →
  check_containers q uid db = None ∧
  check_cpu numCPU (NanoCPUs req) (CpuQuota req) (effectiveCPUNanos req) q = None ∧
  check_memory (Memory req) q = None ∧ check_storage (StorageOpt req) q = None ∧
  ∃ r, injectQuotaLimits j req q dc dm = Returns (j', r).
Proof.
  unfold CheckAndInjectQuota. intros Ha Hp. rewrite Hp in Ha.
  destruct (check_containers q uid db); [done|].
  destruct (check_cpu _ _ _ _ _); [done|]. destruct (check_memory _ _); [done|].
  destruct (check_storage _ _); [done|].
  destruct (injectQuotaLimits j req q dc dm) as [[j0 r]|]; [|done].
  injection Ha as <-. repeat split. by exists r.
Qed.

Lemma or_default_bounds d l : (0 < l)%Z → (0 < or_default d l <= l)%Z.
Proof. intros Hl. unfold or_default. destruct (0 <? d)%Z eqn:E; lia. Qed.

(** A request that passed a check stays within the quota once limited. *)
Lemma limit_cpu_bounds numCPU q dc req :
  (0 <= effectiveCPUNanos req)%Z → f64_gt (qe_CPUCores q) f64_zero = true →
  (0 < nano_of_cores (qe_CPUCores q))%Z →
  check_cpu numCPU (NanoCPUs req) (CpuQuota req) (effectiveCPUNanos req) q = None →
  (0 < effectiveCPUNanos (limit_cpu q dc req) <= nano_of_cores (qe_CPUCores q))%Z.
Proof.
  intros Hn Hgt Hq Kc. unfold limit_cpu, check_cpu in *. rewrite Hgt in *. cbn [andb] in *.
  destruct (effectiveCPUNanos req =? 0)%Z eqn:E.
  - pose proof (or_default_bounds (nano_of_cores dc) _ Hq) as Hd.
    unfold effectiveCPUNanos, set_nano, cpu_nanos. cbn [NanoCPUs].
    replace (0 <? or_default _ _)%Z with true by lia. exact Hd.
  - destruct (0 <? effectiveCPUNanos req)%Z eqn:F; [|lia]. cbn [andb] in Kc.
    destruct (nano_of_cores (qe_CPUCores q) <? effectiveCPUNanos req)%Z eqn:G; [done|lia].
Qed.

Lemma limit_memory_bounds q dm h :
  (0 <= Memory h)%Z → (0 < qe_MemMB q < 2 ^ 43)%Z → check_memory (Memory h) q = None →
  let h' := limit_memory q dm h in
  (0 < Memory h' <= qe_MemMB q * 1048576)%Z ∧ MemorySwap h' = Memory h' ∧ MemorySwappiness h' = 0%Z ∧
  (MemoryReservation h' <= Memory h')%Z.
Proof.
  intros HM Hq Km. unfold limit_memory, check_memory in *. rewrite <- (mb_bytes_exact _ Hq).
  replace (0 <? qe_MemMB q)%Z with true in * by lia. cbv zeta. unfold set_memory.
  cbn [Memory MemorySwap MemorySwappiness MemoryReservation andb] in *.
  assert (0 < mb_bytes (qe_MemMB q))%Z as Hpos by (rewrite mb_bytes_exact; lia).
  split; [|split_and!; [done..|apply Z.le_min_r]].
  destruct (Memory h =? 0)%Z eqn:E; [by apply or_default_bounds|].
  replace (0 <? Memory h)%Z with true in Km by lia. cbn [andb] in Km.
  destruct (mb_bytes (qe_MemMB q) <? Memory h)%Z eqn:F; [done|lia].
Qed.

(** ** Concrete configuration and bodies *)

Module QuotaDemo.

Definition cores (n : positive) : float64 := f64_of_pos n 0.
Definition quota : UserQuota := mkQuotaEntry (cores 2) 1024 10 3 512 builtinAllowedDevices.
(** A database that counts one container for everyone. *)
#[export] Instance one_container : ContainerCounter unit := λ _ _, inr 1.

Definition host (kvs : list (string * json)) : json := JObj [("Image", JStr "alpine"); ("HostConfig", JObj kvs)].
Definition create (j : json) : run quota_outcome :=
  CheckAndInjectQuota 8 (Doc j) quota 1001 (Some ()) (cores 1) 0.

Definition plain : json := host [("Memory", JInt 268435456); ("MemoryReservation", JInt 536870912);
                                 ("Binds", JArr [])].
Definition plain_request : HostResources := mkHostResources 0 0 0 0 "" 268435456 0 0 536870912 None.

(** What is forwarded for it. *)
Definition plain_forwarded : json :=
  JObj [("HostConfig", JObj [("Binds", JArr []); ("Memory", JInt 268435456); ("MemoryReservation", JInt 268435456);
                             ("MemorySwap", JInt 268435456); ("MemorySwappiness", JInt 0);
                             ("NanoCpus", JInt 1000000000);
                             ("StorageOpt", JObj [("size", JStr "10G")])]);
        ("Image", JStr "alpine")].

Lemma plain_canonical : canonical plain.
Proof. by apply canonicalb_spec. Qed.

(** Memory -1: no limit for the daemon. *)
Definition negative : json := host [("Memory", JInt (-1))].
Definition negative_request : HostResources := mkHostResources 0 0 0 0 "" (-1) 0 0 0 None.
Definition negative_forwarded : json :=
  JObj [("HostConfig", JObj [("Memory", JInt (-1)); ("MemoryReservation", JInt (-1)); ("MemorySwap", JInt (-1));
                             ("MemorySwappiness", JInt 0); ("NanoCpus", JInt 1000000000);
                             ("StorageOpt", JObj [("size", JStr "10G")])]);
        ("Image", JStr "alpine")].

(** 100 gigabytes, with the unit written out. *)
Definition big_storage : json := host [("StorageOpt", JObj [("size", JStr "100GB")])].
Definition big_storage_request : HostResources :=
  mkHostResources 0 0 0 0 "" 0 0 0 0 (Some {["size" := "100GB"]}).

(** 18446744074 microseconds of CPU time in every 100000: 184467 CPUs. *)
Definition overflowing : json := host [("CpuQuota", JInt 18446744074); ("CpuPeriod", JInt 100000)].

(** A large and a small object under two spellings of the same member. *)
Definition two_spellings : json :=
  JObj [("hostconfig", JObj [("Memory", JInt 1099511627776); ("NanoCpus", JInt 64000000000)]);
        ("HostConfig", JObj [("Memory", JInt 1048576); ("NanoCpus", JInt 1000000000)])].

(** Two groups of alice: research without a memory limit, then staff with one. *)
Definition os : OsFiles :=
  mkOsFiles (Some (GoStrings.Join ["alice:x:1001:100::/home/alice:/bin/sh"; ""] (String NL "")))
    (Some (GoStrings.Join ["research:x:200:alice"; "staff:x:300:alice"; ""] (String NL ""))).
Definition alice : CallerIdentity :=
  tcp_identity "alice" 1001 100 AuthSourceOS.
Definition group_mem (mb : Z) : quotaEntryRaw := mkQuotaEntryRaw None (Some mb) None None None [].
Definition manager : QuotaManager :=
  mkQuotaManager quota ∅ {["research" := group_mem 0; "staff" := group_mem 2048]}.

End QuotaDemo.

(** ** Properties *)

(** A container creation let through with an unambiguous body is forwarded
    as a body that the daemon decodes to the limited request: every resource
    asked for is kept, every one not asked for is the smaller of the system
    default and the quota, swap equals memory, swappiness is 0, and every other
    member of the request reads as before. *)
Theorem forwarded_body_carries_limits {D} `{ContainerCounter D} numCPU j j' q uid (db : option D) dc dm req :
  canonical j →
  parseContainerRequest j = Some req →
  CheckAndInjectQuota numCPU (Doc j) q uid db dc dm = Returns (Allowed (Doc j')) →
  parseContainerRequest j' = Some (limited q dc dm req).
Proof.
  intros Hc Hp Ha. destruct (accepted_checks _ _ _ _ _ _ _ _ _ Ha Hp) as (_ & _ & _ & _ & r & Hi).
  by apply (injected_decodes j j' req q dc dm r).
Qed.

Lemma forwarded_body_carries_limits_witness :
  QuotaDemo.create QuotaDemo.plain = Returns (Allowed (Doc QuotaDemo.plain_forwarded)) ∧
  parseContainerRequest QuotaDemo.plain_forwarded =
    Some (limited QuotaDemo.quota (QuotaDemo.cores 1) 0 QuotaDemo.plain_request).
Proof.
  split; [vm_compute; reflexivity|].
  refine (@forwarded_body_carries_limits unit QuotaDemo.one_container 8 QuotaDemo.plain _ QuotaDemo.quota 1001 (Some ())
            (QuotaDemo.cores 1) 0 QuotaDemo.plain_request QuotaDemo.plain_canonical _ _);
    vm_compute; reflexivity.
Defined.

(** C6: The quota bounds every accepted creation.  With an unambiguous body, a
    memory limit that is not negative, a [CpuQuota] whose nano-CPUs do not overflow and
    positive limits in the quota, an accepted creation is forwarded as a body that decodes
    to a positive memory limit within the quota, no swap beyond it and no swapping,
    a reservation within the limit, and a positive number of CPUs within the
    quota; and the user had fewer containers than allowed, if a number is and the database
    could tell.  What happens otherwise is in [negative_memory_is_forwarded],
    [cpu_quota_overflow_is_forwarded] and [reordered_spellings_bypass_quota]. *)
Theorem accepted_create_within_quota {D} `{ContainerCounter D} numCPU j j' q uid (db : option D) dc dm req :
  canonical j →
  parseContainerRequest j = Some req →
  (0 <= Memory req)%Z →
  (0 <= CpuQuota req)%Z → in_int64 (CpuQuota req * 1000000000) →
  (0 < qe_MemMB q < 2 ^ 43)%Z →
  f64_gt (qe_CPUCores q) f64_zero = true → (0 < nano_of_cores (qe_CPUCores q))%Z →
  CheckAndInjectQuota numCPU (Doc j) q uid db dc dm = Returns (Allowed (Doc j')) →
  ∃ req', parseContainerRequest j' = Some req' ∧
    (0 < Memory req' <= qe_MemMB q * 1048576)%Z ∧
    MemorySwap req' = Memory req' ∧ MemorySwappiness req' = 0%Z ∧
    (MemoryReservation req' <= Memory req')%Z ∧
    (0 < effectiveCPUNanos req' <= nano_of_cores (qe_CPUCores q))%Z ∧
    ∀ d n, db = Some d → container_count uid d = inr n → (0 < qe_MaxContainers q)%Z →
      (Z.of_nat n < qe_MaxContainers q)%Z.
Proof.
  intros Hc Hp HM HQ HQ64 Hmb Hgt Hnano Ha.
  destruct (accepted_checks _ _ _ _ _ _ _ _ _ Ha Hp) as (Kn & Kc & Km & _ & r & Hi).
  exists (limited q dc dm req). split; [by apply (injected_decodes j j' req q dc dm r)|].
  unfold limited. destruct (limit_storage_rest q (limit_memory q dm (limit_cpu q dc req)))
    as (-> & -> & -> & -> & ->). rewrite limit_memory_cpu.
  destruct (limit_cpu_memory q dc req) as (F1 & _ & _).
  destruct (limit_memory_bounds q dm (limit_cpu q dc req)) as (B1 & B2 & B3 & B4); rewrite ?F1; try done.
  destruct (limit_cpu_bounds numCPU q dc req) as [C1 C2]; try done.
  { by apply cpu_nanos_nonneg. }
  split_and!; try done; try lia.
  intros d n -> Hn Hmax. unfold check_containers in Kn.
  replace (0 <? qe_MaxContainers q)%Z with true in Kn by lia. rewrite Hn in Kn.
  destruct (qe_MaxContainers q <=? Z.of_nat n)%Z eqn:E; [done|lia].
Qed.

Lemma accepted_create_within_quota_witness :
  QuotaDemo.create QuotaDemo.plain = Returns (Allowed (Doc QuotaDemo.plain_forwarded)) ∧
  ∃ req', parseContainerRequest QuotaDemo.plain_forwarded = Some req' ∧
    (0 < Memory req' <= 1073741824)%Z.
Proof.
  split; [vm_compute; reflexivity|].
  destruct (@accepted_create_within_quota unit QuotaDemo.one_container 8 QuotaDemo.plain QuotaDemo.plain_forwarded
    QuotaDemo.quota 1001 (Some ()) (QuotaDemo.cores 1) 0 QuotaDemo.plain_request
    QuotaDemo.plain_canonical) as (req' & H1 & H2 & _);
    [vm_compute; reflexivity|by vm_compute|by vm_compute|by vm_compute|by vm_compute
    |vm_compute; reflexivity|by vm_compute|vm_compute; reflexivity|].
  exists req'. split; [exact H1|exact H2].
Defined.

(** A negative memory limit passes the check of every quota and is
    forwarded as it came (swap made equal to it): such a container has no memory
    limit within the quota. *)
Theorem negative_memory_is_forwarded {D} `{ContainerCounter D} numCPU j j' q uid (db : option D) dc dm req :
  canonical j →
  parseContainerRequest j = Some req →
  (Memory req < 0)%Z →
  check_memory (Memory req) q = None ∧
  (CheckAndInjectQuota numCPU (Doc j) q uid db dc dm = Returns (Allowed (Doc j')) →
   Memory <$> parseContainerRequest j' = Some (Memory req)).
Proof.
  intros Hc Hp Hneg. split.
  { unfold check_memory. replace (0 <? Memory req)%Z with false by lia. by rewrite andb_false_r. }
  intros Ha. destruct (accepted_checks _ _ _ _ _ _ _ _ _ Ha Hp) as (_ & _ & _ & _ & r & Hi).
  rewrite (injected_decodes j j' req q dc dm r) by done. cbn [fmap option_fmap option_map].
  unfold limited. destruct (limit_storage_rest q (limit_memory q dm (limit_cpu q dc req)))
    as (_ & -> & _). f_equal. destruct (limit_cpu_memory q dc req) as (F1 & _ & _).
  unfold limit_memory. destruct (0 <? qe_MemMB q)%Z; [|done]. cbv zeta. unfold set_memory. cbn [Memory].
  rewrite F1. by replace (Memory req =? 0)%Z with false by lia.
Qed.

Lemma negative_memory_is_forwarded_witness :
  QuotaDemo.create QuotaDemo.negative = Returns (Allowed (Doc QuotaDemo.negative_forwarded)) ∧
  Memory <$> parseContainerRequest QuotaDemo.negative_forwarded = Some (-1)%Z.
Proof.
  split; [vm_compute; reflexivity|].
  refine (proj2 (@negative_memory_is_forwarded unit QuotaDemo.one_container 8 QuotaDemo.negative _
            QuotaDemo.quota 1001 (Some ()) (QuotaDemo.cores 1) 0 QuotaDemo.negative_request _ _ _) _).
  - by apply canonicalb_spec.
  - vm_compute; reflexivity.
  - by vm_compute.
  - vm_compute; reflexivity.
Defined.

(** A storage size whose unit is not one of G, T and M (["100GB"],
    ["900000K"], a number of bytes) passes the check of every quota, and is
    forwarded as it came. *)
Theorem other_storage_units_are_forwarded {D} `{ContainerCounter D} numCPU j j' q uid (db : option D) dc dm req o size :
  canonical j →
  parseContainerRequest j = Some req →
  StorageOpt req = Some o → o !! "size" = Some size → size ≠ "" →
  str_drop (slen size - 1) size ∉ ["G"; "g"; "T"; "t"; "M"; "m"] →
  check_storage (StorageOpt req) q = None ∧
  (CheckAndInjectQuota numCPU (Doc j) q uid db dc dm = Returns (Allowed (Doc j')) →
   StorageOpt <$> parseContainerRequest j' = Some (Some o)).
Proof.
  intros Hc Hp Ho Hs Hne Hu. split.
  - unfold check_storage. destruct (0 <? qe_StorageGB q)%Z; [|done]. rewrite Ho.
    change (default ∅ (Some o)) with o. rewrite Hs. assert (parseStorageGB size = 0%Z) as ->; [|by rewrite andb_false_r].
    unfold parseStorageGB. destruct (slen size <? 2)%nat; [done|]. cbv zeta.
    assert (∀ u, u ∈ ["G"; "g"; "T"; "t"; "M"; "m"] → (str_drop (slen size - 1) size ==s u) = false) as E.
    { intros u Hin. apply String.eqb_neq. intros Heq. apply Hu. by rewrite Heq. }
    by rewrite !E by set_solver.
  - intros Ha. destruct (accepted_checks _ _ _ _ _ _ _ _ _ Ha Hp) as (_ & _ & _ & _ & r & Hi).
    rewrite (injected_decodes j j' req q dc dm r) by done. cbn [fmap option_fmap option_map]. f_equal.
    unfold limited, limit_storage. rewrite limit_memory_storage.
    destruct (limit_cpu_memory q dc req) as (_ & _ & ->). rewrite Ho. cbv zeta.
    change (default ∅ (Some o)) with o. rewrite Hs. change (default "" (Some size)) with size.
    apply String.eqb_neq in Hne. rewrite Hne.
    destruct (0 <? qe_StorageGB q)%Z; [done|]. rewrite limit_memory_storage.
    by destruct (limit_cpu_memory q dc req) as (_ & _ & ->).
Qed.

Lemma other_storage_units_are_forwarded_witness :
  check_storage (StorageOpt QuotaDemo.big_storage_request) QuotaDemo.quota = None.
Proof.
  refine (proj1 (@other_storage_units_are_forwarded unit QuotaDemo.one_container 8 QuotaDemo.big_storage
            JNull QuotaDemo.quota 1001 (Some ()) (QuotaDemo.cores 1) 0 QuotaDemo.big_storage_request
            {["size" := "100GB"]} "100GB" _ _ _ _ _ _)).
  - by apply canonicalb_spec.
  - vm_compute; reflexivity.
  - reflexivity.
  - reflexivity.
  - done.
  - apply (bool_decide_unpack _). by vm_compute.
Defined.

(** The product of a [CpuQuota] and 10^9 wraps: a request for more than
    90000 times the quota passes the check and is forwarded with its [CpuQuota]
    and [CpuPeriod] unchanged. *)
Theorem cpu_quota_overflow_is_forwarded :
  canonical QuotaDemo.overflowing ∧
  ∃ j' req', QuotaDemo.create QuotaDemo.overflowing = Returns (Allowed (Doc j')) ∧
    parseContainerRequest j' = Some req' ∧ NanoCPUs req' = 0%Z ∧
    (90000 * nano_of_cores (qe_CPUCores QuotaDemo.quota)
     < Z.quot (CpuQuota req' * 1000000000) (CpuPeriod req'))%Z.
Proof.
  split; [by apply canonicalb_spec|].
  eexists. eexists. split; [vm_compute; reflexivity|]. split; [vm_compute; reflexivity|].
  split; by vm_compute.
Qed.

(** The check decodes a body with two spellings of [HostConfig] in its own
    order, the injection re-encodes them in byte order: a small ["HostConfig"]
    after a large ["hostconfig"] passes the check, and the forwarded body decodes
    to the large one. *)
Theorem reordered_spellings_bypass_quota :
  ∃ j' req', QuotaDemo.create QuotaDemo.two_spellings = Returns (Allowed (Doc j')) ∧
    parseContainerRequest j' = Some req' ∧
    (nano_of_cores (qe_CPUCores QuotaDemo.quota) < effectiveCPUNanos req')%Z ∧
    (mb_bytes (qe_MemMB QuotaDemo.quota) < Memory req')%Z.
Proof.
  eexists. eexists. split; [vm_compute; reflexivity|]. split; [vm_compute; reflexivity|].
  split; by vm_compute.
Qed.

(** Who sets a limit.  For memory, storage and the number of containers: a
    value in the user's own entry decides, whatever the groups and the defaults
    say; without one, when no group sets the resource to 0, the largest of the
    default and the values of the user's groups. *)
Theorem quota_inheritance r os identity m :
  let own := qm_users m !! RealUsername identity ≫= raw_int r in
  let groups := omap (raw_int r) (user_group_entries os (RealUID identity) m) in
  (∀ v, own = Some v → entry_int r (GetQuota os identity m) = v) ∧
  (own = None → Forall (λ v, 0 < v)%Z groups →
   entry_int r (GetQuota os identity m) = foldr Z.max (entry_int r (qm_defaults m)) groups).
Proof.
  cbv zeta. rewrite entry_int_GetQuota. split; [by intros v ->|].
  intros -> Hv. cbn [default]. unfold default. rewrite group_ints_omap, omap_fmap_id. by apply group_ints_max.
Qed.

(** A group that sets a resource to 0 (no limit) decides only over the
    groups before it: with groups of positive values after it, the limit is the
    largest of those, not "no limit". *)
Theorem unlimited_group_is_overridden r os identity m before after :
  qm_users m !! RealUsername identity ≫= raw_int r = None →
  omap (raw_int r) (user_group_entries os (RealUID identity) m) = before ++ 0%Z :: after →
  Forall (λ v, 0 < v)%Z after →
  entry_int r (GetQuota os identity m) = foldr Z.max 0%Z after.
Proof.
  intros Hu Hg Ha. rewrite entry_int_GetQuota, Hu. unfold default.
  rewrite group_ints_omap, omap_fmap_id, Hg, foldl_app. cbn [foldl]. by apply group_ints_max.
Qed.

Lemma unlimited_group_is_overridden_witness :
  entry_int RMemMB (GetQuota QuotaDemo.os QuotaDemo.alice QuotaDemo.manager) = 2048%Z.
Proof.
  apply (unlimited_group_is_overridden RMemMB QuotaDemo.os QuotaDemo.alice QuotaDemo.manager [] [2048%Z]).
  - vm_compute; reflexivity.
  - vm_compute; reflexivity.
  - apply (bool_decide_unpack _). by vm_compute.
Defined.

Lemma quota_inheritance_witness :
  entry_int RStorageGB (GetQuota QuotaDemo.os QuotaDemo.alice QuotaDemo.manager) = 10%Z.
Proof.
  apply (proj2 (quota_inheritance RStorageGB QuotaDemo.os QuotaDemo.alice QuotaDemo.manager)).
  - vm_compute; reflexivity.
  - apply (bool_decide_unpack _). by vm_compute.
Defined.
