(* ===== verification/GoPath.v ===== *)
(** * GoPath: slash-separated paths

    [path/filepath] on Unix: [Clean], [Join] of two elements and [Match], and
    what a rooted path denotes (the directory it leads to from the root, symbolic
    links aside), as a step relation over directories that knows nothing of
    [Clean]. *)

From S2P Require Import Prelude GoStrings.

(** ** Cleaning *)

(** The segments kept so far, the last one first. *)
Definition clean_step (rooted : bool) (stack : list string) (seg : string) : list string :=
  if (seg ==s "") || (seg ==s ".") then stack
  else if seg ==s ".." then
    match stack with
    | top :: rest => if top ==s ".." then ".." :: stack else rest
    | [] => if rooted then [] else [".."]
    end
  else seg :: stack.

Definition is_rooted (p : string) : bool := HasPrefix p "/".

Definition clean_segs (p : string) : list string :=
  reverse (foldl (clean_step (is_rooted p)) [] (Split1 "/" p)).

(** [filepath.Clean]. *)
Definition Clean (p : string) : string :=
  if is_rooted p then "/" +:+ GoStrings.Join (clean_segs p) "/"
  else match clean_segs p with [] => "." | segs => GoStrings.Join segs "/" end.

(** [filepath.Join(a, b)] with a non-empty [b]. *)
Definition PathJoin (a b : string) : string :=
  if a ==s "" then Clean b else Clean (a +:+ "/" +:+ b).

(** ** Denotation *)

(** One step of path resolution from a directory (the names from the root). *)
Inductive cd : list string → string → list string → Prop :=
  | cd_stay d seg : seg = "" ∨ seg = "." → cd d seg d
  | cd_root : cd [] ".." []
  | cd_up d name : cd (d ++ [name]) ".." d
  | cd_down d name : name ≠ "" → name ≠ "." → name ≠ ".." → cd d name (d ++ [name]).

Inductive cds : list string → list string → list string → Prop :=
  | cds_nil d : cds d [] d
  | cds_cons d seg segs d' d'' : cd d seg d' → cds d' segs d'' → cds d (seg :: segs) d''.

(** The directory or file a rooted path leads to. *)
Definition leads_to (p : string) (d : list string) : Prop :=
  is_rooted p = true ∧ cds [] (Split1 "/" p) d.

(** ** Lemmas *)

Definition plain_name (s : string) : Prop := s ≠ "" ∧ s ≠ "." ∧ s ≠ "..".

Lemma clean_step_cd stack seg :
  Forall plain_name stack → cd (reverse stack) seg (reverse (clean_step true stack seg)).
Proof.
  intros Hs. unfold clean_step.
  destruct (String.eqb_spec seg "") as [->|H1]; [by apply cd_stay; left|].
  destruct (String.eqb_spec seg ".") as [->|H2]; [by apply cd_stay; right|]. cbn [orb].
  destruct (String.eqb_spec seg "..") as [->|H3].
  - destruct stack as [|top rest]; [apply cd_root|].
    apply Forall_cons in Hs as [(_ & _ & Ht) _]. apply String.eqb_neq in Ht. rewrite Ht.
    rewrite reverse_cons. apply cd_up.
  - rewrite reverse_cons. by apply cd_down.
Qed.

Lemma clean_step_plain stack seg :
  Forall plain_name stack → Forall plain_name (clean_step true stack seg).
Proof.
  intros Hs. unfold clean_step.
  destruct (String.eqb_spec seg "") as [->|H1]; [done|].
  destruct (String.eqb_spec seg ".") as [->|H2]; [done|]. cbn [orb].
  destruct (String.eqb_spec seg "..") as [->|H3]; [|by constructor].
  destruct stack as [|top rest]; [done|]. apply Forall_cons in Hs as [(_ & _ & Ht) Hr].
  apply String.eqb_neq in Ht. by rewrite Ht.
Qed.

Lemma cd_det d seg d1 d2 : cd d seg d1 → cd d seg d2 → d1 = d2.
Proof.
  intros H1 H2. inversion H1; subst; inversion H2; subst; destruct_or?; try done;
    match goal with
    | H : _ ++ [_] = [] |- _ => by apply app_nil in H as [_ ?]
    | H : [] = _ ++ [_] |- _ => by symmetry in H; apply app_nil in H as [_ ?]
    | H : _ ++ [_] = _ ++ [_] |- _ => by apply app_inj_2 in H as [? _]
    end.
Qed.
Lemma cds_det d segs d1 d2 : cds d segs d1 → cds d segs d2 → d1 = d2.
Proof.
  intros H1. revert d2. induction H1 as [|d seg segs d' d'' Hc _ IH]; intros d2 H2; inversion H2; subst; [done|].
  match goal with H : cd _ _ ?x |- _ => by pose proof (cd_det _ _ _ _ Hc H); subst; auto end.
Qed.

Lemma clean_cds segs stack :
  Forall plain_name stack →
  cds (reverse stack) segs (reverse (foldl (clean_step true) stack segs)) ∧
  Forall plain_name (foldl (clean_step true) stack segs).
Proof.
  revert stack. induction segs as [|seg segs IH]; intros stack Hs; cbn [foldl]; [split; [constructor|done]|].
  destruct (IH (clean_step true stack seg)) as [H1 H2]; [by apply clean_step_plain|].
  split; [|done]. econstructor; [by apply clean_step_cd|done].
Qed.

(** A rooted path leads exactly to the segments [Clean] keeps. *)
Lemma leads_to_clean p d : is_rooted p = true → leads_to p d ↔ d = clean_segs p.
Proof.
  intros Hr. unfold leads_to, clean_segs. rewrite Hr.
  destruct (clean_cds (Split1 "/" p) []) as [H _]; [constructor|].
  split.
  - intros [_ Hd]. by apply (cds_det _ _ _ _ Hd).
  - intros ->. by split.
Qed.

Definition no_slash (s : string) : bool := str_forallb (λ d, negb (Ascii.eqb "/" d)) s.

Lemma Split1_pieces c s w :
  w ∈ Split1 c s → str_forallb (λ d, negb (Ascii.eqb c d)) w = true.
Proof.
  revert w. induction s as [|d s IH]; intros w; cbn [Split1]; [intros ->%list_elem_of_singleton; done|].
  destruct (Ascii.eqb_spec d c) as [->|Hne]; [intros [->|H]%elem_of_cons; [done|auto]|].
  pose proof (Split1_ne c s). destruct (Split1 c s) as [|w' ws]; [done|].
  intros [->|Hin]%elem_of_cons; [|apply IH; by right].
  cbn [str_forallb]. rewrite Ascii.eqb_sym. apply Ascii.eqb_neq in Hne. rewrite Hne.
  apply IH. left.
Qed.

Lemma clean_step_from rooted stack seg (Q : string → Prop) :
  Q ".." → Q seg → Forall Q stack → Forall Q (clean_step rooted stack seg).
Proof.
  intros Hdd Hseg Hst. unfold clean_step. destruct (_ || _); [done|].
  destruct (seg ==s ".."); [|by constructor].
  destruct stack as [|top rest]; [destruct rooted; by repeat constructor|].
  apply Forall_cons in Hst as [? ?]. destruct (top ==s ".."); by repeat constructor.
Qed.

Lemma clean_segs_no_slash p : Forall (λ s, no_slash s = true) (clean_segs p).
Proof.
  unfold clean_segs. apply Forall_reverse.
  assert (∀ segs stack, Forall (λ s, no_slash s = true) segs → Forall (λ s, no_slash s = true) stack →
            Forall (λ s, no_slash s = true) (foldl (clean_step (is_rooted p)) stack segs)) as H.
  { induction segs as [|seg segs IH]; intros stack Hs Hst; cbn [foldl]; [done|].
    apply Forall_cons in Hs as [? ?]. apply IH; [done|]. by apply clean_step_from. }
  apply H; [|constructor]. apply Forall_forall. intros w. apply Split1_pieces.
Qed.

Lemma clean_segs_plain p : is_rooted p = true → Forall plain_name (clean_segs p).
Proof.
  intros Hr. unfold clean_segs. rewrite Hr. apply Forall_reverse.
  apply (clean_cds (Split1 "/" p) []). constructor.
Qed.

Lemma Split1_app_gen c a b : Split1 c (a +:+ String c b) = Split1 c a ++ Split1 c b.
Proof.
  induction a as [|d a IH]; cbn [String.append Split1]; [by rewrite Ascii.eqb_refl|].
  destruct (Ascii.eqb d c); [by rewrite IH|]. rewrite IH.
  pose proof (Split1_ne c a). by destruct (Split1 c a).
Qed.

(** The cleaned form of a rooted path, split again. *)
Lemma Clean_rooted p :
  is_rooted p = true → Clean p = "/" +:+ GoStrings.Join (clean_segs p) "/" ∧
  Split1 "/" (Clean p) = "" :: match clean_segs p with [] => [""] | segs => segs end.
Proof.
  intros Hr. unfold Clean. rewrite Hr. split; [done|].
  change ("/" +:+ GoStrings.Join (clean_segs p) "/") with (String "/" (GoStrings.Join (clean_segs p) "/")).
  cbn [Split1]. rewrite Ascii.eqb_refl. f_equal.
  pose proof (clean_segs_no_slash p) as Hs. destruct (clean_segs p) as [|w ws]; [done|].
  by apply (Split1_of_Join "/").
Qed.

Lemma foldl_clean_plain stack segs :
  Forall plain_name segs → foldl (clean_step true) stack segs = reverse segs ++ stack.
Proof.
  intros Hs. revert stack. induction Hs as [|w segs (H1 & H2 & H3) _ IH]; intros stack; [done|]. cbn [foldl].
  unfold clean_step at 2. apply String.eqb_neq in H1, H2, H3. rewrite H1, H2, H3. cbn [orb].
  by rewrite IH, reverse_cons, <- app_assoc.
Qed.

(** Cleaning does not change where a path leads. *)
Lemma clean_segs_Clean p : is_rooted p = true → clean_segs (Clean p) = clean_segs p.
Proof.
  intros Hr. destruct (Clean_rooted p Hr) as [E1 E2]. pose proof (clean_segs_plain p Hr) as Hp.
  unfold clean_segs at 1. rewrite E2. replace (is_rooted (Clean p)) with true
    by (rewrite E1; symmetry; apply HasPrefix_app).
  destruct (clean_segs p) as [|w ws] eqn:E; [done|].
  change (foldl (clean_step true) [] ("" :: w :: ws)) with (foldl (clean_step true) [] (w :: ws)).
  rewrite foldl_clean_plain by done. by rewrite app_nil_r, reverse_involutive.
Qed.

Lemma is_rooted_Clean p : is_rooted p = true → is_rooted (Clean p) = true.
Proof. intros Hr. rewrite (proj1 (Clean_rooted p Hr)). apply HasPrefix_app. Qed.

(** Being equal to a root or having it with a slash as a prefix means being at
    or below it. *)
Lemma under_root_prefix p r :
  is_rooted p = true → is_rooted r = true →
  Clean p = Clean r ∨ HasPrefix (Clean p) (Clean r +:+ "/") = true →
  clean_segs r `prefix_of` clean_segs p.
Proof.
  intros Hp Hr [E|E].
  - rewrite <- (clean_segs_Clean p), <- (clean_segs_Clean r), E by done. done.
  - apply HasPrefix_spec in E as [rest E]. rewrite <- app_assoc_str in E.
    destruct (Clean_rooted p Hp) as [_ Sp], (Clean_rooted r Hr) as [_ Sr].
    rewrite E in Sp. change ("/" +:+ rest) with (String "/" rest) in Sp.
    rewrite Split1_app_gen, Sr in Sp. cbn [app] in Sp. injection Sp as Sp.
    destruct (clean_segs r) as [|w ws]; [apply prefix_nil|].
    pose proof (clean_segs_plain p Hp) as Hpl.
    destruct (clean_segs p) as [|w' ws']; [|by exists (Split1 "/" rest)].
    exfalso. injection Sp as _ Sp. destruct ws; [|done]. by apply Split1_ne in Sp.
Qed.

(** ** Shell patterns: [filepath.Match] *)

Definition byte_val (c : ascii) : Z := Z.of_N (N_of_ascii c).
Definition cont_byte (lo hi : Z) (c : ascii) : bool := (lo <=? byte_val c)%Z && (byte_val c <=? hi)%Z.
Definition low6 (c : ascii) : Z := (byte_val c mod 64)%Z.

(** [utf8.DecodeRuneInString]: the rune and its length in bytes; an invalid
    sequence is U+FFFD of length 1. *)
Definition decode_rune (s : string) : Z * nat :=
  match s with
  | "" => (65533%Z, 0)
  | String a r =>
    let x := byte_val a in
    if (x <? 128)%Z then (x, 1) else
    let lo2 := if (x =? 224)%Z then 160%Z else if (x =? 240)%Z then 144%Z else 128%Z in
    let hi2 := if (x =? 237)%Z then 159%Z else if (x =? 244)%Z then 143%Z else 191%Z in
    match r with
    | String b r =>
      if negb (cont_byte lo2 hi2 b) then (65533%Z, 1) else
      if (194 <=? x)%Z && (x <=? 223)%Z then (((x mod 32) * 64 + low6 b)%Z, 2) else
      match r with
      | String c r =>
        if negb (cont_byte 128 191 c) then (65533%Z, 1) else
        if (224 <=? x)%Z && (x <=? 239)%Z then ((((x mod 16) * 64 + low6 b) * 64 + low6 c)%Z, 3) else
        match r with
        | String d _ =>
          if cont_byte 128 191 d && (240 <=? x)%Z && (x <=? 244)%Z
          then (((((x mod 8) * 64 + low6 b) * 64 + low6 c) * 64 + low6 d)%Z, 4) else (65533%Z, 1)
        | "" => (65533%Z, 1)
        end
      | "" => (65533%Z, 1)
      end
    | "" => (65533%Z, 1)
    end
  end.

(** The leading stars, the chunk up to the next star outside brackets, the rest. *)
Fixpoint skip_stars (p : string) : bool * string :=
  match p with String "*" r => (true, (skip_stars r).2) | _ => (false, p) end.

Fixpoint chunk_len (inrange : bool) (p : string) : nat :=
  match p with
  | "" => 0
  | String "\" r => match r with String _ r' => 2 + chunk_len inrange r' | "" => 1 end
  | String "[" r => S (chunk_len true r)
  | String "]" r => S (chunk_len false r)
  | String "*" r => if inrange then S (chunk_len inrange r) else 0
  | String _ r => S (chunk_len inrange r)
  end.

Definition scanChunk (pattern : string) : bool * string * string :=
  let '(star, p) := skip_stars pattern in
  let i := chunk_len false p in (star, str_take i p, str_drop i p).

(** [None]: a malformed pattern. *)
Definition getEsc (chunk : string) : option (Z * string) :=
  match chunk with
  | "" | String "-" _ | String "]" _ => None
  | _ =>
    let chunk := match chunk with String "\" r => r | _ => chunk end in
    if chunk ==s "" then None else
    let '(r, n) := decode_rune chunk in
    if (r =? 65533)%Z && (n =? 1) then None else
    let rest := str_drop n chunk in
    if rest ==s "" then None else Some (r, rest)
  end.

(** The ranges of a class up to its bracket: whether [r] is in one of them. *)
Fixpoint class_ranges (fuel : nat) (chunk : string) (r : Z) (nrange : nat) (matched : bool)
    : option (bool * string) :=
  match fuel with
  | O => None
  | S f =>
    match chunk, nrange with
    | String "]" rest, S _ => Some (matched, rest)
    | _, _ =>
      '(lo, rest) ← getEsc chunk;
      '(hi, rest) ← match rest with String "-" rest' => getEsc rest' | _ => Some (lo, rest) end;
      class_ranges f rest r (S nrange) (matched || (lo <=? r)%Z && (r <=? hi)%Z)
    end
  end.

(** [None]: malformed; [Some None]: no match; [Some (Some t)]: [t] is left. *)
Fixpoint matchChunk (fuel : nat) (chunk s : string) (failed : bool) : option (option string) :=
  match fuel with
  | O => None
  | S f =>
    match chunk with
    | "" => Some (if failed then None else Some s)
    | String c crest =>
      let failed := failed || (s ==s "") in
      if Ascii.eqb c "[" then
        let '(r, n) := if failed then (0%Z, 0) else decode_rune s in
        let s := str_drop n s in
        let '(negated, ranges) := match crest with String "^" r' => (true, r') | _ => (false, crest) end in
        '(matched, rest) ← class_ranges (S (slen ranges)) ranges r 0 false;
        matchChunk f rest s (failed || Bool.eqb matched negated)
      else if Ascii.eqb c "?" then
        let failed' := failed || HasPrefix s "/" in
        let s := if failed then s else str_drop (decode_rune s).2 s in
        matchChunk f crest s failed'
      else
        let chunk := if Ascii.eqb c "\" then crest else chunk in
        match chunk with
        | "" => None
        | String c' crest' =>
          let failed' := failed || negb (HasPrefix s (String c' "")) in
          let s := if failed then s else str_drop 1 s in
          matchChunk f crest' s failed'
        end
    end
  end.

Definition match_chunk (chunk s : string) : option (option string) :=
  matchChunk (S (slen chunk)) chunk s false.

(** The loop over the places a star may end: [n] more bytes of [name] may be
    skipped. *)
Fixpoint after_star (chunk rest name : string) : option (option string) :=
  match name with
  | "" => Some None
  | String c name' =>
    if Ascii.eqb c "/" then Some None else
    match match_chunk chunk name' with
    | None => None
    | Some (Some t) =>
      if (rest ==s "") && (t !=s "") then after_star chunk rest name' else Some (Some t)
    | Some None => after_star chunk rest name'
    end
  end.

(** Whether the remaining chunks are well formed. *)
Fixpoint wellformed_rest (fuel : nat) (pattern : string) : bool :=
  match fuel with
  | O => false
  | S f =>
    if pattern ==s "" then true else
    let '(_, chunk, rest) := scanChunk pattern in
    match match_chunk chunk "" with None => false | Some _ => wellformed_rest f rest end
  end.

Fixpoint match_loop (fuel : nat) (pattern name : string) : option bool :=
  match fuel with
  | O => None
  | S f =>
    if pattern ==s "" then Some (name ==s "") else
    let '(star, chunk, rest) := scanChunk pattern in
    if star && (chunk ==s "") then Some (negb (Contains name "/")) else
    match match_chunk chunk name with
    | None => None
    | Some o =>
      let direct :=
        match o with
        | Some t => if (t ==s "") || (rest !=s "") then Some t else None
        | None => None
        end in
      match direct with
      | Some t => match_loop f rest t
      | None =>
        match (if star then after_star chunk rest name else Some None) with
        | None => None
        | Some (Some t) => match_loop f rest t
        | Some None => if wellformed_rest (S (slen rest)) rest then Some false else None
        end
      end
    end
  end.

(** [filepath.Match]: [None] is [ErrBadPattern]. *)
Definition Match (pattern name : string) : option bool := match_loop (S (slen pattern)) pattern name.

Example match_star : Match "/dev/nvidia*" "/dev/nvidia0" = Some true. Proof. reflexivity. Qed.
Example match_star_slash : Match "/dev/*" "/dev/dri/card0" = Some false. Proof. reflexivity. Qed.
Example match_class : Match "/dev/tty[0-3]" "/dev/tty2" = Some true. Proof. reflexivity. Qed.
Example match_class_neg : Match "/dev/tty[^0-3]" "/dev/tty2" = Some false. Proof. reflexivity. Qed.
Example match_bad : Match "/dev/tty[" "/dev/tty2" = None. Proof. reflexivity. Qed.
Example match_mid : Match "/dev/*a?b" "/dev/xxaab" = Some true. Proof. reflexivity. Qed.
Example match_esc : Match "/dev/\*" "/dev/*" = Some true. Proof. reflexivity. Qed.

(** A pattern without special characters matches itself only. *)
Definition literal_char (c : ascii) : bool :=
  negb (Ascii.eqb c "*" || Ascii.eqb c "?" || Ascii.eqb c "[" || Ascii.eqb c "]" || Ascii.eqb c "\").

Lemma literal_char_spec c :
  literal_char c = true → c ≠ "*"%char ∧ c ≠ "?"%char ∧ c ≠ "["%char ∧ c ≠ "]"%char ∧ c ≠ "\"%char.
Proof.
  unfold literal_char. intros H%negb_true_iff. repeat (apply orb_false_iff in H as [H ?]).
  by repeat match goal with H : Ascii.eqb _ _ = false |- _ => apply Ascii.eqb_neq in H end.
Qed.

Lemma chunk_len_literal p : str_forallb literal_char p = true → chunk_len false p = slen p.
Proof.
  induction p as [|c p IH]; [done|]. cbn [str_forallb]. intros [Hc Hp]%andb_true_iff.
  transitivity (S (chunk_len false p)); [|cbn; by rewrite IH].
  clear IH Hp. destruct c as [[] [] [] [] [] [] [] []]; try reflexivity; by vm_compute in Hc.
Qed.

Lemma matchChunk_literal p fuel s failed :
  slen p < fuel → str_forallb literal_char p = true →
  matchChunk fuel p s failed =
  Some (if failed then None else if HasPrefix s p then Some (str_drop (slen p) s) else None).
Proof.
  revert fuel s failed. induction p as [|c p IH]; intros fuel s failed Hf Hp.
  { destruct fuel; [cbn in Hf; lia|]. cbn. destruct failed; [done|]. by rewrite HasPrefix_empty. }
  destruct fuel as [|fuel]; [cbn in Hf; lia|]. cbn [str_forallb] in Hp. apply andb_true_iff in Hp as [Hc Hp].
  assert (Ascii.eqb c "[" = false ∧ Ascii.eqb c "?" = false ∧ Ascii.eqb c "\" = false) as (H1 & H2 & H3).
  { apply literal_char_spec in Hc as (? & ? & ? & ? & ?). by rewrite !Ascii.eqb_neq. }
  cbn [matchChunk]. rewrite H1, H2, H3. rewrite IH by (cbn in Hf; lia || done).
  destruct failed; [done|]. cbn [orb]. destruct s as [|d s]; [done|].
  cbn [String.eqb]. rewrite !HasPrefix_cons, HasPrefix_empty.
  destruct (Ascii.eqb_spec d c) as [->|Hne]; rewrite ?Ascii.eqb_refl; cbn; [done|].
  replace (Ascii.eqb c d) with false by (symmetry; by apply Ascii.eqb_neq). done.
Qed.

Lemma Match_literal p name :
  str_forallb literal_char p = true → Match p name = Some (name ==s p).
Proof.
  intros Hp. unfold Match. destruct p as [|c p]; [done|].
  assert (Ascii.eqb c "*" = false) as Hstar.
  { cbn [str_forallb] in Hp. apply andb_true_iff in Hp as [Hc _].
    by apply literal_char_spec in Hc as (?%Ascii.eqb_neq & _). }
  set (q := String c p) in *. assert (q ≠ "") as Hq by done.
  cbn [match_loop]. apply String.eqb_neq in Hq. rewrite Hq.
  assert (scanChunk q = (false, q, "")) as ->.
  { unfold scanChunk. replace (skip_stars q) with (false, q).
    - rewrite chunk_len_literal by done. rewrite str_take_all by lia.
      f_equal. rewrite <- (app_nil_r_str q) at 2. apply str_drop_app.
    - subst q. apply Ascii.eqb_neq in Hstar. clear -Hstar.
      destruct c as [[] [] [] [] [] [] [] []]; try reflexivity; by destruct Hstar. }
  cbn [andb]. unfold match_chunk. rewrite (matchChunk_literal q); [|apply Nat.lt_succ_diag_r|exact Hp].
  destruct (HasPrefix name q) eqn:E.
  - apply HasPrefix_spec in E as [r ->]. rewrite str_drop_app.
    destruct r as [|x r].
    + rewrite app_nil_r_str, (eqb_str_refl q). reflexivity.
    + assert ((q +:+ String x r ==s q) = false) as ->; [|reflexivity].
      apply String.eqb_neq. intros Heq. apply (f_equal slen) in Heq. rewrite slen_app in Heq. cbn in Heq. lia.
  - assert ((name ==s q) = false) as ->; [|reflexivity].
    apply String.eqb_neq. intros ->. by rewrite HasPrefix_refl in E.
Qed.

(** ** Lemmas: joining *)

Lemma is_rooted_app a b : is_rooted a = true → is_rooted (a +:+ b) = true.
Proof. unfold is_rooted. intros [r ->]%HasPrefix_spec. rewrite <- app_assoc_str. apply HasPrefix_app. Qed.

Lemma foldl_clean_app stack a b : foldl (clean_step true) stack (a ++ b) = foldl (clean_step true) (foldl (clean_step true) stack a) b.
Proof. apply foldl_app. Qed.

Lemma clean_segs_below dir name :
  is_rooted dir = true → no_slash name = true → plain_name name →
  clean_segs (PathJoin dir name) = clean_segs dir ++ [name] ∧ is_rooted (PathJoin dir name) = true.
Proof.
  intros Hr Hs (H1 & H2 & H3). unfold PathJoin. destruct (dir ==s "") eqn:E; [by apply String.eqb_eq in E as ->|].
  assert (is_rooted (dir +:+ "/" +:+ name) = true) as Hr' by (by apply is_rooted_app). split; [|by apply is_rooted_Clean].
  rewrite clean_segs_Clean by done. unfold clean_segs. rewrite Hr, Hr'.
  change (dir +:+ "/" +:+ name) with (dir +:+ String "/" name). rewrite Split1_app_gen, (Split1_no_sep "/" name) by done.
  rewrite foldl_app. cbn [foldl]. unfold clean_step at 1. apply String.eqb_neq in H1, H2, H3. rewrite H1, H2, H3. cbn [orb].
  by rewrite reverse_cons.
Qed.

Lemma PathJoin_ne dir name : is_rooted dir = true → no_slash name = true → plain_name name → PathJoin dir name ≠ dir.
Proof.
  intros Hr Hs Hp E. destruct (clean_segs_below dir name Hr Hs Hp) as [H _]. rewrite E in H.
  apply (f_equal length) in H. rewrite length_app in H. cbn in H. lia.
Qed.

Lemma PathJoin_inj dir a b :
  is_rooted dir = true → no_slash a = true → plain_name a → no_slash b = true → plain_name b →
  PathJoin dir a = PathJoin dir b → a = b.
Proof.
  intros Hr Ha Hpa Hb Hpb E. destruct (clean_segs_below dir a Hr Ha Hpa) as [H1 _], (clean_segs_below dir b Hr Hb Hpb) as [H2 _].
  rewrite E, H2 in H1. apply app_inj_tail in H1 as [_ H]. done.
Qed.
