(* ===== verification/Storage.v ===== *)
(** * Storage: what a container may mount

    [internal/isolation/storage.go]: the check of bind-mount sources against the
    directories of the user, the size limits of tmpfs mounts, the device
    white-list, the ownership check of [VolumesFrom] and the periodic clean-up of
    orphaned volumes and empty directories.  The checks read the request body as
    the JSON layer gives it ([GoJson]); paths are those of [GoPath]. *)

From S2P Require Import Prelude GoStrings GoJson GoPath Identity Tables Database ImageDB ResourceDB Names Quota.

(** ** Bind mounts *)

Definition UserStorageRoot (base : string) (uid : Z) : string := PathJoin base ("user-" +:+ Itoa uid).

Record Mount := mkMount { m_Type : string; m_Source : string }.
Record HostMounts := mkHostMounts { Binds : list string; Mounts : list Mount }.

Definition decode_mount : Mount → json → Mount * bool :=
  decode_struct (λ kvs m, mkMount (field decode_string "Type" kvs (m_Type m))
                            (field decode_string "Source" kvs (m_Source m)))
    (λ kvs, field_ok decode_string "Type" kvs "" && field_ok decode_string "Source" kvs "").

Definition decode_mounts : list Mount → json → list Mount * bool := decode_list decode_mount (mkMount "" "").

Definition decode_host_mounts : HostMounts → json → HostMounts * bool :=
  decode_struct (λ kvs h, mkHostMounts (field decode_strings "Binds" kvs (Binds h))
                            (field decode_mounts "Mounts" kvs (Mounts h)))
    (λ kvs, field_ok decode_strings "Binds" kvs [] && field_ok decode_mounts "Mounts" kvs []).

(** A body whose only field is [HostConfig]: the struct the checks decode. *)
Definition decode_host_config {A} (dec : A → json → A * bool) (zero : A) : A → json → A * bool :=
  decode_struct (λ kvs a, field dec "HostConfig" kvs a) (λ kvs, field_ok dec "HostConfig" kvs zero).

Definition unmarshal_body {A} (dec : A → json → A * bool) (zero : A) (b : body) : option A :=
  match b with Doc j => unmarshal_as dec zero j | _ => None end.

Definition host_mounts (b : body) : option HostMounts :=
  unmarshal_body (decode_host_config decode_host_mounts (mkHostMounts [] [])) (mkHostMounts [] []) b.

Definition bind_source (b : string) : string :=
  match Index b ":" with Some idx => str_take idx b | None => b end.

Definition parseBindMounts (b : body) : list string :=
  match host_mounts b with
  | None => []
  | Some h => (bind_source <$> Binds h) ++
              (m_Source <$> List.filter (λ m, EqualFold (m_Type m) "bind" && (m_Source m !=s "")) (Mounts h))
  end.

Definition underAnyRoot (cleanSrc : string) (roots : list string) : bool :=
  existsb (λ r, (r !=s "") && ((cleanSrc ==s r) || HasPrefix cleanSrc (r +:+ "/"))) roots.

(** The first violating source and the roots allowed, if any. *)
Definition ValidateBindMounts (b : body) (storageBase : string) (uid : Z) (homeDir : string)
    : option (string * list string) :=
  if uid ==z 0 then None else
  let entries := parseBindMounts b in
  let roots := Clean (UserStorageRoot storageBase uid) :: (if homeDir !=s "" then [Clean homeDir] else []) in
  match find_first (λ src, HasPrefix src "/" && negb (underAnyRoot (Clean src) roots)) entries with
  | Some src => Some (src, roots)
  | None => None
  end.

(** ** Tmpfs mounts *)

(** The number of a [size=] option, by its unit; the scans leave [n] as it was
    when they read no number. *)
Definition tmpfs_size_value (val : string) : Z :=
  if val ==s "" then 0 else
  let unit := str_drop (slen val - 1) val in
  let n := scan_int (str_take (slen val - 1) val) in
  if (unit ==s "k") || (unit ==s "K") then wrap64 (n * 1024)
  else if (unit ==s "m") || (unit ==s "M") then wrap64 (wrap64 (n * 1024) * 1024)
  else if (unit ==s "g") || (unit ==s "G") then wrap64 (wrap64 (wrap64 (n * 1024) * 1024) * 1024)
  else default n (scan_opt val).

(** The first option that starts with [size=]. *)
Definition parseTmpfsSize (opts : string) : Z :=
  match find_first (λ part, HasPrefix part "size=") (TrimSpace <$> Split1 "," opts) with
  | Some part => tmpfs_size_value (str_drop (slen "size=") part)
  | None => 0
  end.

Inductive tmpfs_outcome :=
  | TmpfsViolation (requestedMB limitMB : Z)
  | TmpfsBody (b : body).

(** [json.Unmarshal] of a map member into a variable; type errors are ignored
    ([_ =]), and the decoder then leaves what it could decode. *)
Definition unmarshal_ignored {A} (dec : A → json → A * bool) (zero : A) (o : option json) : A :=
  match o with Some v => (dec zero v).1 | None => zero end.

(** A JSON object read into a map; empty when it is none (Go reads an absent
    member of a nil map alike). *)
Definition obj_of (v : json) : gmap string json :=
  match unmarshal_map v with Some (Some m) => m | _ => ∅ end.

(** A mount of the new API: its type, its options and the size they give. *)
Definition mount_is_tmpfs (m : json) : bool :=
  EqualFold (unmarshal_ignored decode_string "" (obj_of m !! "Type")) "tmpfs".
Definition mount_opts (m : json) : gmap string json :=
  match obj_of m !! "TmpfsOptions" with Some v => obj_of v | None => ∅ end.
Definition mount_size (m : json) : Z := unmarshal_ignored decode_int64 0%Z (mount_opts m !! "SizeBytes").

(** A violating size, or the mount and whether it was changed. *)
Definition tmpfs_mount (limitBytes : Z) (m : json) : Z + json * bool :=
  if negb (mount_is_tmpfs m) then inr (m, false)
  else if (limitBytes <? mount_size m)%Z then inl (mount_size m)
  else if (mount_size m =? 0)%Z then
    inr (marshal_map (<["TmpfsOptions" := marshal_map (<["SizeBytes" := JInt limitBytes]> (mount_opts m))]>
                        (obj_of m)), true)
  else inr (m, false).

Fixpoint tmpfs_mounts (limitBytes : Z) (ms : list json) : Z + list json * bool :=
  match ms with
  | [] => inr ([], false)
  | m :: ms =>
    match tmpfs_mount limitBytes m with
    | inl v => inl v
    | inr (m', ch) =>
      match tmpfs_mounts limitBytes ms with
      | inl v => inl v
      | inr (ms', ch') => inr (m' :: ms', ch || ch')
      end
    end
  end.

(** The old API, one target at a time. *)
Definition tmpfs_opts (limitBytes : Z) (opts : string) : Z + string * bool :=
  let reqBytes := parseTmpfsSize opts in
  if (limitBytes <? reqBytes)%Z then inl reqBytes
  else if (reqBytes =? 0)%Z then
    let sizeOpt := "size=" +:+ Itoa limitBytes in
    inr (if opts ==s "" then sizeOpt else opts +:+ "," +:+ sizeOpt, true)
  else inr (opts, false).

Definition legacy_tmpfs (limitBytes : Z) (m : gmap string string) : Z + gmap string string * bool :=
  match omap (λ kv, match tmpfs_opts limitBytes kv.2 with inl v => Some v | inr _ => None end) (map_to_list m) with
  | v :: _ => inl v
  | [] =>
    inr ((λ opts, match tmpfs_opts limitBytes opts with inr (o, _) => o | inl _ => opts end) <$> m,
         existsb (λ kv, match tmpfs_opts limitBytes kv.2 with inr (_, ch) => ch | inl _ => false end) (map_to_list m))
  end.

(** The [Mounts] part: what the host configuration becomes. *)
Definition tmpfs_host_mounts (limitBytes : Z) (hc : gmap string json) : Z + gmap string json * bool :=
  match hc !! "Mounts" with
  | Some (JArr ms) =>
    match tmpfs_mounts limitBytes ms with
    | inl v => inl v
    | inr (ms', ch) => inr (if ch : bool then <["Mounts" := JArr ms']> hc else hc, ch)
    end
  | _ => inr (hc, false)
  end.

Definition tmpfs_host_legacy (limitBytes : Z) (hc : gmap string json) : Z + gmap string json * bool :=
  match unmarshal_as decode_string_map None <$> hc !! "Tmpfs" with
  | Some (Some (Some m)) =>
    match legacy_tmpfs limitBytes m with
    | inl v => inl v
    | inr (m', ch) => inr (if ch : bool then <["Tmpfs" := marshal_strings m']> hc else hc, ch)
    end
  | _ => inr (hc, false)
  end.

(** Of several violating targets of the old API Go reports the one its map
    iteration meets first; here the first in the order of [map_to_list]. *)
Definition ValidateAndInjectTmpfs (b : body) (limitMB : Z) : tmpfs_outcome :=
  if limitMB ==z 0 then TmpfsBody b else
  let limitBytes := mb_bytes limitMB in
  let violation bytes := TmpfsViolation (Z.quot (Z.quot bytes 1024) 1024) limitMB in
  match b with
  | Doc j =>
    match unmarshal_map j with
    | Some (Some raw) =>
      match unmarshal_map <$> raw !! "HostConfig" with
      | Some (Some (Some hc)) =>
        match tmpfs_host_mounts limitBytes hc with
        | inl v => violation v
        | inr (hc, ch) =>
          match tmpfs_host_legacy limitBytes hc with
          | inl v => violation v
          | inr (hc, ch') =>
            if ch || ch' then TmpfsBody (Doc (marshal_map (<["HostConfig" := marshal_map hc]> raw)))
            else TmpfsBody b
          end
        end
      | _ => TmpfsBody b
      end
    | _ => TmpfsBody b
    end
  | _ => TmpfsBody b
  end.

(** ** Devices *)

Definition decode_device : string → json → string * bool :=
  decode_struct (λ kvs p, field decode_string "PathOnHost" kvs p) (λ kvs, field_ok decode_string "PathOnHost" kvs "").
Definition decode_devices : list string → json → list string * bool := decode_list decode_device "".
Definition decode_host_devices : list string → json → list string * bool :=
  decode_struct (λ kvs d, field decode_devices "Devices" kvs d) (λ kvs, field_ok decode_devices "Devices" kvs []).

Definition host_devices (b : body) : option (list string) :=
  unmarshal_body (decode_host_config decode_host_devices []) [] b.

Definition deviceAllowed (path : string) (patterns : list string) : bool :=
  existsb (λ pattern, match Match pattern path with Some matched => matched | None => false end) patterns.

(** The device refused, if any. *)
Definition ValidateDeviceMounts (b : body) (allowedPatterns : list string) (uid : Z) : option string :=
  if uid ==z 0 then None else
  match host_devices b with
  | None => None
  | Some devices => find_first (λ path, (path !=s "") && negb (deviceAllowed path allowedPatterns)) devices
  end.

(** ** Volumes of other containers *)

Definition decode_host_volumes_from : list string → json → list string * bool :=
  decode_struct (λ kvs d, field decode_strings "VolumesFrom" kvs d) (λ kvs, field_ok decode_strings "VolumesFrom" kvs []).

Definition host_volumes_from (b : body) : option (list string) :=
  unmarshal_body (decode_host_config decode_host_volumes_from []) [] b.

(** What the check promises to be told about containers. *)
Class ContainerOwnerReader (D : Type) := {
  cor_GetContainerOwner : string → D → option OwnerInfo;
  cor_CanVolumesFrom : string → Z → D → result bool;
}.
#[export] Instance OwnershipDB_owners : ContainerOwnerReader OwnershipDB := {
  cor_GetContainerOwner := GetContainerOwner;
  cor_CanVolumesFrom := CanVolumesFrom;
}.

Definition volumes_from_ref (ref : string) : string :=
  match LastIndex ref ":" with
  | Some idx =>
    let mode := str_drop (S idx) ref in
    if (mode ==s "ro") || (mode ==s "rw") then str_take idx ref else ref
  | None => ref
  end.

Section volumes_from.
Context {D : Type} `{ContainerOwnerReader D}.
(** [resolveContainerDockerID]: the daemon's id of a name, or "". *)
Variable resolver : string → string.

Definition resolve_ref (containerRef : string) : string :=
  let id := resolver containerRef in if id !=s "" then id else containerRef.

Definition volumes_from_allowed (uid : Z) (db : D) (ref : string) : bool :=
  let resolvedID := resolve_ref (volumes_from_ref ref) in
  match cor_GetContainerOwner resolvedID db with
  | None => false
  | Some owner =>
    if oi_UID owner ==z uid then true
    else match cor_CanVolumesFrom resolvedID uid db with inr granted => granted | inl _ => false end
  end.

(** The reference refused, if any. *)
Definition ValidateVolumesFrom (b : body) (uid : Z) (privileged : bool) (db : D) : option string :=
  if (uid ==z 0) || privileged then None else
  match host_volumes_from b with
  | None => None
  | Some refs => volumes_from_ref <$> find_first (λ ref, negb (volumes_from_allowed uid db ref)) refs
  end.
End volumes_from.

(** ** Clean-up *)

Section cleanup.
(** [listDanglingVolumes]; [None] is an error. *)
Variable dangling : option (list string).
(** Whether [removeVolume] succeeds. *)
Variable removeVolume : string → bool.
(** What other requests do to the database before the re-check of the [i]-th
    volume, and between that re-check and its deletion. *)
Variable before_check after_check : nat → OwnershipDB → OwnershipDB.

(** The removed volumes, each with the database its re-check saw. *)
Fixpoint clean_volumes (i : nat) (owned : list string) (vs : list string) (d : OwnershipDB)
    : list (string * OwnershipDB) * OwnershipDB :=
  match vs with
  | [] => ([], d)
  | v :: vs =>
    if negb (isUserVolumePrefix v) then clean_volumes (S i) owned vs d
    else if existsb (String.eqb v) owned then clean_volumes (S i) owned vs d
    else
      let dc := before_check i d in
      match GetVolumeOwner v dc with
      | Some _ => clean_volumes (S i) owned vs dc
      | None =>
        let d := after_check i dc in
        if removeVolume v then
          let '(removed, d) := clean_volumes (S i) owned vs (DeleteVolume v d).2 in ((v, dc) :: removed, d)
        else clean_volumes (S i) owned vs d
      end
  end.

Definition cleanup_volumes (d : OwnershipDB) : list (string * OwnershipDB) * OwnershipDB :=
  match GetAllVolumeNames d with
  | inl _ => ([], d)
  | inr owned => match dangling with None => ([], d) | Some vs => clean_volumes 0 owned vs d end
  end.

(** [os.ReadDir] (names and whether each is a directory) and [os.Remove]. *)
Variable readDir : string → option (list (string * bool)).
Variable remove : string → bool.

Definition removeEmptySubDirs (dir : string) : list string :=
  match readDir dir with
  | None => []
  | Some entries =>
    List.filter (λ sub, match readDir sub with Some [] => remove sub | _ => false end)
      ((λ e, PathJoin dir e.1) <$> List.filter (λ e, e.2) entries)
  end.

Definition cleanup_dirs (storageBase : string) : list string :=
  if storageBase ==s "" then [] else
  default [] (readDir storageBase) ≫= (λ entry,
    if negb entry.2 || negb (HasPrefix entry.1 "user-") then []
    else removeEmptySubDirs (PathJoin storageBase entry.1)).

Definition runCleanup (storageBase : string) (d : OwnershipDB) : list string * list string * OwnershipDB :=
  let '(volumesRemoved, d) := cleanup_volumes d in
  (volumesRemoved.*1, cleanup_dirs storageBase, d).

(** A volume is removed only when it is named as a user's, was listed as unused,
    was not recorded when the clean-up began and was found unrecorded again, and the
    daemon removed it. *)
Lemma clean_volumes_removed i owned vs d v dc :
  (v, dc) ∈ (clean_volumes i owned vs d).1 →
  v ∈ vs ∧ isUserVolumePrefix v = true ∧ (v ∉ owned) ∧ GetVolumeOwner v dc = None ∧ removeVolume v = true.
Proof.
  revert i d. induction vs as [|w vs IH]; intros i d; cbn [clean_volumes]; [intros H; by apply elem_of_nil in H|].
  assert (∀ i d, (v, dc) ∈ (clean_volumes i owned vs d).1 →
    v ∈ w :: vs ∧ isUserVolumePrefix v = true ∧ (v ∉ owned) ∧ GetVolumeOwner v dc = None ∧ removeVolume v = true) as IH'.
  { intros i' d' Hin. destruct (IH _ _ Hin) as (? & ? & ? & ? & ?). split_and!; [by right|done..]. }
  destruct (isUserVolumePrefix w) eqn:E1; [|apply IH']. cbn [negb].
  destruct (existsb (String.eqb w) owned) eqn:E2; [apply IH'|].
  destruct (GetVolumeOwner w (before_check i d)) eqn:E3; [apply IH'|].
  destruct (removeVolume w) eqn:E5; [|apply IH'].
  destruct (clean_volumes (S i) owned vs _) as [removed d'] eqn:E4. cbn [fst].
  intros [[= -> ->]|Hin]%elem_of_cons; [|apply (IH' (S i) (DeleteVolume w (after_check i (before_check i d))).2);
    by rewrite E4].
  split_and!; [left|done| |done..]. intros Hin. apply existsb_false_elem with (x := w) in E2; [|done].
  by rewrite eqb_str_refl in E2.
Qed.
End cleanup.

(** ** Lemmas *)

Lemma underAnyRoot_spec p roots :
  underAnyRoot p roots = true ↔ ∃ r, r ∈ roots ∧ r ≠ "" ∧ (p = r ∨ HasPrefix p (r +:+ "/") = true).
Proof.
  unfold underAnyRoot. rewrite existsb_elem. split.
  - intros (r & Hr & H). exists r. rewrite andb_true_iff, orb_true_iff, negb_true_iff in H.
    destruct H as [H1 [H2|H2]]; bool_hyps; auto.
  - intros (r & Hr & Hne & H). exists r. split; [done|].
    rewrite andb_true_iff, orb_true_iff, negb_true_iff. split; [by apply String.eqb_neq|].
    destruct H as [->|H]; [left; apply eqb_str_refl|by right].
Qed.

(** The storage directory of a user, and where its cleaned name leads. *)
Lemma storage_root_rooted base uid : is_rooted base = true → is_rooted (UserStorageRoot base uid) = true.
Proof.
  intros Hr. unfold UserStorageRoot, PathJoin. destruct (base ==s "") eqn:E.
  - apply String.eqb_eq in E as ->. done.
  - apply is_rooted_Clean. by apply is_rooted_app.
Qed.

(** An accepted absolute source lies at or below one of the roots. *)
Lemma accepted_source_under b base uid home src :
  uid ≠ 0%Z → is_rooted base = true → (home ≠ "" → is_rooted home = true) →
  ValidateBindMounts b base uid home = None → src ∈ parseBindMounts b → is_rooted src = true →
  ∃ root, (root = UserStorageRoot base uid ∨ root = home ∧ home ≠ "") ∧ is_rooted root = true ∧
    clean_segs root `prefix_of` clean_segs src.
Proof.
  intros Hu Hb Hh Hv Hin Hs. unfold ValidateBindMounts in Hv. apply Z.eqb_neq in Hu. rewrite Hu in Hv.
  destruct (find_first _ _) eqn:E; [done|]. rewrite find_first_None in E. specialize (E src Hin).
  fold (is_rooted src) in E. rewrite Hs in E. cbn [andb] in E. apply negb_false_iff in E.
  apply underAnyRoot_spec in E as (r & Hr & _ & Hp). apply elem_of_cons in Hr as [->|Hr].
  - exists (UserStorageRoot base uid). pose proof (storage_root_rooted base uid Hb).
    split_and!; [by left|done|]. by apply under_root_prefix.
  - destruct (home !=s "") eqn:F; [|by apply elem_of_nil in Hr].
    apply negb_true_iff, String.eqb_neq in F. apply list_elem_of_singleton in Hr as ->.
    exists home. split_and!; [by right|by apply Hh|]. apply under_root_prefix; auto.
Qed.

Lemma tmpfs_size_first rest : parseTmpfsSize ("size=1m," +:+ rest) = 1048576%Z.
Proof.
  unfold parseTmpfsSize. change ("size=1m," +:+ rest) with ("size=1m" +:+ String "," rest).
  rewrite Split1_app by done. reflexivity.
Qed.

(** ** Properties *)

(** ** Bind sources in a document *)

(** The one member of an object that is called [name] in whatever case. *)
Inductive member (name : string) (v : json) : json → Prop :=
  | member_of kvs : (name, v) ∈ kvs → unambiguous [name] kvs → member name v (JObj kvs).

(** A document for a creation asks for a bind of [src]: by an entry of [HostConfig.Binds]
    that has it before the first colon, or by a mount of type bind. *)
Inductive asks_for_bind (j : json) (src : string) : Prop :=
  | bind_entry host entries rest :
      member "HostConfig" host j → member "Binds" (JArr entries) host → JStr (src +:+ rest) ∈ entries →
      str_forallb (λ c, negb (Ascii.eqb ":" c)) src = true → rest = "" ∨ HasPrefix rest ":" = true → asks_for_bind j src
  | bind_mount host mounts m t :
      member "HostConfig" host j → member "Mounts" (JArr mounts) host → m ∈ mounts →
      member "Type" (JStr t) m → EqualFold t "bind" = true → member "Source" (JStr src) m → asks_for_bind j src.

Lemma member_field {A} (dec : A → json → A * bool) name v kvs init : member name v (JObj kvs) → field dec name kvs init = (dec init v).1.
Proof.
  intros H. inversion H as [kvs' Hin [Hnd Hu]]; subst. apply (field_unique dec name name v); [done..|apply eqb_str_refl|].
  intros kv Hkv Hk. apply (Hu kv name Hkv); [left|done].
Qed.
Lemma bind_source_colon src rest :
  str_forallb (λ c, negb (Ascii.eqb ":" c)) src = true → rest = "" ∨ HasPrefix rest ":" = true → bind_source (src +:+ rest) = src.
Proof.
  unfold bind_source. intros Hs [->|[r ->]%HasPrefix_spec].
  - rewrite app_nil_r_str. by rewrite (proj2 (Index1_None ":" src) Hs).
  - change (":" +:+ r) with (String ":" r). rewrite Index1_app by done. apply str_take_app.
Qed.

Lemma asked_bind_parsed j src h : host_mounts (Doc j) = Some h → asks_for_bind j src → src ≠ "" → src ∈ parseBindMounts (Doc j).
Proof.
  intros Hh Hb Hne. unfold parseBindMounts. rewrite Hh. unfold host_mounts, unmarshal_body, unmarshal_as in Hh.
  destruct (decode_host_config _ _ _ j) as [h' []] eqn:E; [|done]. injection Hh as ->. apply (f_equal fst) in E. cbn [fst] in E. subst h.
  rewrite elem_of_app. destruct Hb as [host entries rest Hhost Hbinds He Hs Hrest|host mounts m t Hhost Hmounts Hm Ht Hf Hsrc];
    inversion Hhost as [kvs _ _]; subst j; cbn [decode_host_config decode_struct fst]; rewrite (member_field _ _ _ _ _ Hhost).
  - left. inversion Hbinds as [hkvs _ _]; subst host. cbn [decode_host_mounts decode_struct fst Binds].
    rewrite (member_field _ _ _ _ _ Hbinds). cbn [decode_strings decode_list fst]. rewrite <- (bind_source_colon src rest) by done.
    apply list_elem_of_fmap_2. apply list_elem_of_fmap. by exists (JStr (src +:+ rest)).
  - right. inversion Hmounts as [hkvs _ _]; subst host. cbn [decode_host_mounts decode_struct fst Mounts].
    rewrite (member_field _ _ _ _ _ Hmounts). cbn [decode_mounts decode_list fst]. apply list_elem_of_fmap.
    exists (mkMount t src). split; [done|]. apply list_elem_of_In, List.filter_In. split.
    + apply list_elem_of_In, list_elem_of_fmap. exists m. split; [|done]. inversion Ht as [mkvs _ _]; subst m.
      cbn [decode_mount decode_struct fst]. by rewrite (member_field _ _ _ _ _ Ht), (member_field _ _ _ _ _ Hsrc).
    + cbn [m_Type m_Source]. rewrite Hf. by apply negb_true_iff, String.eqb_neq.
Qed.

(** C10: Bind mounts are confined.  When the check accepts the creation of a container by a
    user other than root, in a document the daemon can decode, every absolute path it asks
    to have bound, in [Binds] or as a mount of type bind, leads ([..] included; symbolic
    links are not followed) to a place at or below the storage directory of the user or,
    when that is allowed, the user's home directory. *)
Theorem bind_mounts_confined j base uid home src place :
  uid ≠ 0%Z → is_rooted base = true → (home ≠ "" → is_rooted home = true) →
  is_Some (host_mounts (Doc j)) → ValidateBindMounts (Doc j) base uid home = None →
  asks_for_bind j src → leads_to src place →
  ∃ root dir, (root = UserStorageRoot base uid ∨ root = home ∧ home ≠ "") ∧
    leads_to root dir ∧ dir `prefix_of` place.
Proof.
  intros Hu Hb Hh [h Hd] Hv Hin Hl. pose proof (proj1 Hl) as Hr.
  assert (src ∈ parseBindMounts (Doc j)) as Hp by (apply (asked_bind_parsed j src h Hd Hin); by intros ->).
  destruct (accepted_source_under (Doc j) base uid home src) as (root & Hroot & Hrr & Hpre); try done.
  apply leads_to_clean in Hl; [|done]. subst place.
  exists root, (clean_segs root). split_and!; try done. by apply leads_to_clean.
Qed.

(** Devices are white-listed.  When the check accepts a request of a user
    other than root, every device the request names matches one of the patterns;
    with a list of literal paths, as the built-in one, it is one of them. *)
Theorem devices_whitelisted b patterns uid devices path :
  uid ≠ 0%Z → ValidateDeviceMounts b patterns uid = None →
  host_devices b = Some devices → path ∈ devices → path ≠ "" →
  (∃ pattern, pattern ∈ patterns ∧ Match pattern path = Some true) ∧
  (forallb (str_forallb literal_char) patterns = true → path ∈ patterns).
Proof.
  intros Hu Hv Hd Hin Hne. unfold ValidateDeviceMounts in Hv. apply Z.eqb_neq in Hu. rewrite Hu, Hd in Hv.
  rewrite find_first_None in Hv. specialize (Hv path Hin). apply String.eqb_neq in Hne.
  rewrite Hne in Hv. cbn [negb andb] in Hv. apply negb_false_iff in Hv.
  apply existsb_elem in Hv as (pattern & Hp & Hm).
  assert (Match pattern path = Some true) as Hm' by (by destruct (Match pattern path) as [[]|]).
  split; [by exists pattern|]. intros Hlit. rewrite forallb_forall in Hlit.
  rewrite Match_literal in Hm' by (apply Hlit; by apply list_elem_of_In).
  injection Hm' as ->%String.eqb_eq. done.
Qed.

(** [VolumesFrom] reaches only containers of the user or granted to the user:
    when the check accepts a request of an unprivileged user, every container it
    refers to (by what the daemon resolves the reference to) is recorded as the
    user's, or as another's with a grant for the user or for everyone. *)
Theorem volumes_from_owned_or_granted resolver b uid d refs ref :
  uid ≠ 0%Z → ValidateVolumesFrom resolver b uid false d = None →
  host_volumes_from b = Some refs → ref ∈ refs →
  let id := resolve_ref resolver (volumes_from_ref ref) in
  ∃ r, tbl_lookup id (containers d) = Some r ∧
    (c_owner_uid r = uid ∨
     ∃ g, g ∈ volumes_from_access d ∧ vf_container_id g = id ∧
          (vf_grantee_uid g = uid ∨ vf_grantee_uid g = all_users)).
Proof.
  intros Hu Hv Hd Hin id. unfold ValidateVolumesFrom in Hv. apply Z.eqb_neq in Hu. rewrite Hu, Hd in Hv.
  cbn [orb] in Hv. destruct (find_first _ refs) eqn:E; [done|].
  rewrite find_first_None in E. specialize (E ref Hin). apply negb_false_iff in E.
  unfold volumes_from_allowed in E. fold id in E. cbn [cor_GetContainerOwner cor_CanVolumesFrom OwnershipDB_owners] in E.
  unfold GetContainerOwner, QueryRow in E. destruct (db_down d) eqn:Hdown; [done|].
  destruct (tbl_lookup id (containers d)) as [r|]; [|done]. exists r. split; [done|]. cbn in E.
  destruct (c_owner_uid r ==z uid) eqn:Ho; [left; by apply Z.eqb_eq|right].
  unfold CanVolumesFrom, Query in E. rewrite Hdown in E. apply Nat.ltb_lt in E.
  unfold tbl_count, tbl_select in E. destruct (List.filter _ _) as [|g gs] eqn:F; [cbn in E; lia|].
  assert (g ∈ g :: gs) as Hg by left. rewrite <- F in Hg. apply list_elem_of_In, filter_In in Hg as [Hg1 Hg2].
  exists g. apply andb_true_iff in Hg2 as [H1%String.eqb_eq H2%orb_true_iff].
  split_and!; [by apply list_elem_of_In|done|]. destruct H2 as [?%Z.eqb_eq|?%Z.eqb_eq]; auto.
Qed.

(** The clean-up spares what is recorded: every volume it removes is named as
    a user's volume, was reported unused, had no row when the clean-up began and
    none at its own re-check, whatever other requests did in between; with the
    database unavailable at the start nothing is removed. *)
Theorem cleanup_spares_recorded_volumes dangling removeVolume before after d v dc :
  (v, dc) ∈ (cleanup_volumes dangling removeVolume before after d).1 →
  db_down d = false ∧ (∃ vs, dangling = Some vs ∧ v ∈ vs) ∧ isUserVolumePrefix v = true ∧
  tbl_lookup v (volumes d) = None ∧ GetVolumeOwner v dc = None.
Proof.
  unfold cleanup_volumes, GetAllVolumeNames, Query. intros Hin.
  destruct (db_down d); [by apply elem_of_nil in Hin|].
  destruct dangling as [vs|]; [|by apply elem_of_nil in Hin].
  apply clean_volumes_removed in Hin as (H1 & H2 & H3 & H4 & _).
  split_and!; [done|by exists vs|done| |done].
  destruct (tbl_lookup v (volumes d)) as [r|] eqn:E; [|done]. destruct H3.
  apply tbl_lookup_Some in E as [Hr Hk]. rewrite <- Hk. change (key_of r) with (v_name r).
  by apply list_elem_of_fmap_2.
Qed.

(** ** Tmpfs: lemmas *)

Lemma obj_of_marshal m : obj_of (marshal_map m) = m.
Proof. unfold obj_of, marshal_map. cbn [unmarshal_map]. apply obj_map_marshal. Qed.

Lemma tmpfs_mount_limited L m m' ch :
  (0 < L)%Z → in_int64 L → tmpfs_mount L m = inr (m', ch) → mount_is_tmpfs m' = true →
  (mount_size m' <= L)%Z ∧ mount_size m' ≠ 0%Z.
Proof.
  intros HL Hin. unfold tmpfs_mount. destruct (mount_is_tmpfs m) eqn:E; cbn [negb].
  - destruct (L <? mount_size m)%Z eqn:E1; [done|]. destruct (mount_size m =? 0)%Z eqn:E2.
    + intros [= <- _] _. unfold mount_size, mount_opts. rewrite obj_of_marshal, lookup_insert_eq, obj_of_marshal,
        lookup_insert_eq. unfold unmarshal_ignored. rewrite decode_JInt by done. cbn. lia.
    + intros [= <- _] _. lia.
  - intros [= <- _] H. by rewrite E in H.
Qed.

Lemma tmpfs_mounts_limited L ms ms' ch m' :
  (0 < L)%Z → in_int64 L → tmpfs_mounts L ms = inr (ms', ch) → m' ∈ ms' → mount_is_tmpfs m' = true →
  (mount_size m' <= L)%Z ∧ mount_size m' ≠ 0%Z.
Proof.
  intros HL Hin. revert ms' ch. induction ms as [|m ms IH]; intros ms' ch; cbn [tmpfs_mounts].
  { intros [= <- _] H. by apply elem_of_nil in H. }
  destruct (tmpfs_mount L m) as [|[m0 ch0]] eqn:E; [done|].
  destruct (tmpfs_mounts L ms) as [|[ms0 ch1]] eqn:F; [done|]. intros [= <- _] [->|H]%elem_of_cons.
  - by apply (tmpfs_mount_limited L m m0 ch0).
  - by apply (IH ms0 ch1).
Qed.

Lemma tmpfs_mounts_unchanged L ms ms' : tmpfs_mounts L ms = inr (ms', false) → ms' = ms.
Proof.
  revert ms'. induction ms as [|m ms IH]; intros ms'; cbn [tmpfs_mounts]; [by intros [= <-]|].
  destruct (tmpfs_mount L m) as [|[m0 ch0]] eqn:E; [done|].
  destruct (tmpfs_mounts L ms) as [|[ms0 ch1]] eqn:F; [done|].
  intros [= <- [H1 H2]%orb_false_iff]. subst. f_equal; [|by apply IH].
  unfold tmpfs_mount in E. destruct (negb _); [by injection E|]. destruct (_ <? _)%Z; [done|].
  destruct (_ =? _)%Z; [done|by injection E].
Qed.

Lemma skip_blanks_digits fuel s : str_forallb is_digit s = true → s ≠ "" → skip_blanks fuel s = s.
Proof.
  intros Hs Hne. destruct fuel as [|f]; [done|]. destruct s as [|c s]; [done|].
  cbn [str_forallb] in Hs. apply andb_true_iff in Hs as [Hc _].
  destruct c as [[] [] [] [] [] [] [] []]; try (by vm_compute in Hc); reflexivity.
Qed.


Lemma scan_opt_digits ds z :
  str_forallb is_digit ds = true → ds ≠ "" → digits_val 0 ds = Some z → in_int64 z → scan_opt ds = Some z.
Proof.
  intros Hd Hne Hz Hin. unfold scan_opt. rewrite skip_blanks_digits by done.
  assert (match ds with String "-" r => (true, r) | String "+" r => (false, r) | _ => (false, ds) end = (false, ds)) as ->.
  { destruct ds as [|c ds]; [done|]. cbn [str_forallb] in Hd. apply andb_true_iff in Hd as [Hc _].
    destruct c as [[] [] [] [] [] [] [] []]; try (by vm_compute in Hc); reflexivity. }
  rewrite span_all by done. cbn [fst]. apply String.eqb_neq in Hne. rewrite Hne, Hz.
  by rewrite bool_decide_eq_true_2.
Qed.

Lemma last_unit p s :
  str_forallb p s = true → s ≠ "" → ∃ c, str_drop (slen s - 1) s = String c "" ∧ p c = true.
Proof.
  intros Hs Hne. assert (0 < slen s) by (destruct s; [done|cbn; lia]).
  pose proof (slen_drop (slen s - 1) s) as Hl. rewrite <- (str_take_drop (slen s - 1) s), str_forallb_app in Hs.
  apply andb_true_iff in Hs as [_ Hs].
  destruct (str_drop (slen s - 1) s) as [|c [|c' r]]; cbn in Hl; try lia.
  exists c. split; [done|]. cbn in Hs. by apply andb_true_iff in Hs as [? _].
Qed.

Lemma tmpfs_size_value_Itoa z : (0 <= z <= int64_max)%Z → tmpfs_size_value (Itoa z) = z.
Proof.
  intros Hz. unfold tmpfs_size_value. pose proof (Itoa_ne z) as Hne. apply String.eqb_neq in Hne. rewrite Hne.
  destruct (last_unit is_digit (Itoa z)) as (c & -> & Hc); [apply Itoa_digits; lia|apply Itoa_ne|].
  assert (∀ u, is_digit u = false → (String c "" ==s String u "") = false) as E.
  { intros u Hu. apply String.eqb_neq. intros [= ->]. by rewrite Hc in Hu. }
  cbv zeta. rewrite !E by done. cbn [orb].
  rewrite (scan_opt_digits (Itoa z) z); [done|apply Itoa_digits; lia|apply Itoa_ne|by apply digits_val_Itoa|].
  unfold in_int64, int64_min, int64_max in *. lia.
Qed.

(** The injected option gives the limit unless an earlier [size=] decides. *)
Lemma parse_injected L opts :
  (0 < L <= int64_max)%Z → parseTmpfsSize opts = 0%Z →
  let o := if opts ==s "" then "size=" +:+ Itoa L else opts +:+ "," +:+ "size=" +:+ Itoa L in
  parseTmpfsSize o = 0%Z ∨ parseTmpfsSize o = L.
Proof.
  intros HL H0 o. set (w := "size=" +:+ Itoa L) in *.
  assert (TrimSpace w = w) as Ht.
  { apply TrimSpace_plain. unfold w. rewrite str_forallb_app, Itoa_plain. done. }
  assert (str_forallb (λ d, negb (Ascii.eqb "," d)) w = true) as Hw.
  { unfold w. rewrite str_forallb_app. apply andb_true_iff. split; [done|].
    eapply str_forallb_impl, Itoa_digits; [|lia]. intros c Hc.
    destruct (Ascii.eqb_spec "," c) as [<-|]; [by vm_compute in Hc|done]. }
  assert (HasPrefix w "size=" = true) as Hp by apply HasPrefix_app.
  assert (tmpfs_size_value (str_drop (slen "size=") w) = L) as Hv.
  { unfold w. rewrite str_drop_app. apply tmpfs_size_value_Itoa. lia. }
  unfold parseTmpfsSize in *. subst o. destruct (String.eqb_spec opts "") as [->|Hne].
  - rewrite Split1_no_sep by done. csimpl. rewrite Ht, Hp. by right.
  - change (opts +:+ "," +:+ w) with (opts +:+ String "," w).
    rewrite Split1_app_gen, (Split1_no_sep _ w Hw), fmap_app. csimpl. rewrite Ht.
    revert H0. induction (TrimSpace <$> Split1 "," opts) as [|x l IH]; csimpl; [rewrite Hp; by right|].
    destruct (HasPrefix x "size="); [by left|done].
Qed.

Lemma tmpfs_opts_limited L opts o ch :
  (0 < L <= int64_max)%Z → tmpfs_opts L opts = inr (o, ch) → (parseTmpfsSize o <= L)%Z.
Proof.
  intros HL. unfold tmpfs_opts. cbv zeta. destruct (L <? parseTmpfsSize opts)%Z eqn:E; [done|].
  destruct (parseTmpfsSize opts =? 0)%Z eqn:E0; [|intros [= <- _]; lia].
  intros [= <- _]. apply Z.eqb_eq in E0.
  pose proof (parse_injected L opts HL E0) as H. cbv zeta in H. destruct H as [H|H]; simpl in H; rewrite H; lia.
Qed.

Lemma legacy_tmpfs_limited L m m' ch k o :
  (0 < L <= int64_max)%Z → legacy_tmpfs L m = inr (m', ch) → m' !! k = Some o → (parseTmpfsSize o <= L)%Z.
Proof.
  intros HL. unfold legacy_tmpfs. destruct (omap _ _) as [|v l] eqn:E; [|done].
  intros [= <- _]. rewrite lookup_fmap. intros (o' & Hm & ->)%fmap_Some.
  destruct (tmpfs_opts L o') as [v|[o ch']] eqn:F; [exfalso|by apply (tmpfs_opts_limited L o' o ch')].
  assert (v ∈ omap (λ kv : string * string, match tmpfs_opts L kv.2 with inl v => Some v | inr _ => None end)
                (map_to_list m)) as Hin; [|rewrite E in Hin; by apply elem_of_nil in Hin].
  apply list_elem_of_omap. exists (k, o'). split; [by apply elem_of_map_to_list|]. cbn [snd]. by rewrite F.
Qed.

Lemma host_mounts_other L hc hc' ch :
  tmpfs_host_mounts L hc = inr (hc', ch) → hc' !! "Tmpfs" = hc !! "Tmpfs".
Proof.
  unfold tmpfs_host_mounts. destruct (hc !! "Mounts") as [[]|]; try (by intros [= <- _]).
  destruct (tmpfs_mounts L l) as [|[ms' c]]; [done|]. intros [= <- _].
  destruct c; [by rewrite lookup_insert_ne|done].
Qed.

Lemma host_legacy_other L hc hc' ch :
  tmpfs_host_legacy L hc = inr (hc', ch) → hc' !! "Mounts" = hc !! "Mounts".
Proof.
  unfold tmpfs_host_legacy. destruct (_ <$> _) as [[[m|]|]|]; try (by intros [= <- _]).
  destruct (legacy_tmpfs L m) as [|[m' c]]; [done|]. intros [= <- _].
  destruct c; [by rewrite lookup_insert_ne|done].
Qed.

(** What is not changed stays as it was. *)
Lemma legacy_tmpfs_same L m m' : legacy_tmpfs L m = inr (m', false) → m' = m.
Proof.
  unfold legacy_tmpfs. destruct (omap _ _); [|done]. intros [= <- Hex].
  rewrite existsb_false_elem in Hex. apply map_eq. intros k. rewrite lookup_fmap.
  destruct (m !! k) as [o|] eqn:E; [|done]. cbn. f_equal.
  specialize (Hex (k, o) (proj2 (elem_of_map_to_list m k o) E)). cbn [snd] in Hex.
  unfold tmpfs_opts in *. cbv zeta in *. destruct (L <? _)%Z; [done|].
  by destruct (parseTmpfsSize o =? 0)%Z.
Qed.
Lemma host_mounts_same L hc hc' : tmpfs_host_mounts L hc = inr (hc', false) → hc' = hc.
Proof.
  unfold tmpfs_host_mounts. destruct (hc !! "Mounts") as [[]|]; try (by intros [= <-]).
  destruct (tmpfs_mounts L l) as [|[ms' c]]; [done|]. by intros [= <- ->].
Qed.
Lemma host_legacy_same L hc hc' : tmpfs_host_legacy L hc = inr (hc', false) → hc' = hc.
Proof.
  unfold tmpfs_host_legacy. destruct (_ <$> _) as [[[m|]|]|]; try (by intros [= <-]).
  destruct (legacy_tmpfs L m) as [|[m' c]]; [done|]. by intros [= <- ->].
Qed.

(** The host configuration of a body let through went through both parts. *)
Lemma accepted_tmpfs b limitMB j' hc' :
  limitMB ≠ 0%Z →
  ValidateAndInjectTmpfs b limitMB = TmpfsBody (Doc j') →
  unmarshal_map <$> obj_of j' !! "HostConfig" = Some (Some (Some hc')) →
  ∃ hc hc1 ch ch', tmpfs_host_mounts (mb_bytes limitMB) hc = inr (hc1, ch) ∧
    tmpfs_host_legacy (mb_bytes limitMB) hc1 = inr (hc', ch').
Proof.
  intros Hne Hv Hhc. unfold ValidateAndInjectTmpfs in Hv. apply Z.eqb_neq in Hne. rewrite Hne in Hv.
  cbv zeta in Hv. destruct b as [| |j]; [done..|].
  destruct (unmarshal_map j) as [[raw|]|] eqn:Ej.
  - destruct (unmarshal_map <$> raw !! "HostConfig") as [[[hc|]|]|] eqn:Eh.
    2,3,4: injection Hv as ->; unfold obj_of in Hhc; by rewrite Ej, Eh in Hhc.
    destruct (tmpfs_host_mounts (mb_bytes limitMB) hc) as [v|[hc1 ch]] eqn:E1; [done|].
    destruct (tmpfs_host_legacy (mb_bytes limitMB) hc1) as [v|[hc2 ch']] eqn:E2; [done|].
    exists hc, hc1, ch, ch'. split; [done|]. destruct (ch || ch') eqn:Ec.
    + injection Hv as <-. rewrite obj_of_marshal, lookup_insert_eq in Hhc. cbn in Hhc.
      rewrite obj_map_marshal in Hhc. by injection Hhc as <-.
    + injection Hv as ->. unfold obj_of in Hhc. rewrite Ej, Eh in Hhc. injection Hhc as <-.
      apply orb_false_iff in Ec as [-> ->].
      assert (hc2 = hc1) as -> by (by apply (host_legacy_same (mb_bytes limitMB))).
      assert (hc1 = hc) as -> by (by apply (host_mounts_same (mb_bytes limitMB))). done.
  - injection Hv as ->. unfold obj_of in Hhc. rewrite Ej in Hhc. by rewrite lookup_empty in Hhc.
  - injection Hv as ->. unfold obj_of in Hhc. rewrite Ej in Hhc. by rewrite lookup_empty in Hhc.
Qed.

Lemma forwarded_mounts_limited L hc hc1 hc' ch ch' ms m :
  (0 < L)%Z → in_int64 L → tmpfs_host_mounts L hc = inr (hc1, ch) → tmpfs_host_legacy L hc1 = inr (hc', ch') →
  hc' !! "Mounts" = Some (JArr ms) → m ∈ ms → mount_is_tmpfs m = true →
  (mount_size m <= L)%Z ∧ mount_size m ≠ 0%Z.
Proof.
  intros HL Hin E1 E2 Hms Hm Ht. rewrite (host_legacy_other _ _ _ _ E2) in Hms.
  unfold tmpfs_host_mounts in E1. destruct (hc !! "Mounts") as [[| | | | |l|]|] eqn:E;
    try (injection E1 as <- _; by rewrite E in Hms).
  destruct (tmpfs_mounts L l) as [|[ms' c]] eqn:F; [done|]. injection E1 as <- <-.
  assert (ms = ms') as ->.
  { destruct c; [rewrite lookup_insert_eq in Hms; by injection Hms|].
    rewrite E in Hms. injection Hms as <-. symmetry. by apply (tmpfs_mounts_unchanged L). }
  by apply (tmpfs_mounts_limited L l ms' c).
Qed.

Lemma forwarded_legacy_limited L hc1 hc' ch' v t target opts :
  (0 < L <= int64_max)%Z → tmpfs_host_legacy L hc1 = inr (hc', ch') →
  hc' !! "Tmpfs" = Some v → unmarshal_as decode_string_map None v = Some (Some t) →
  t !! target = Some opts → (parseTmpfsSize opts <= L)%Z.
Proof.
  intros HL E2 Hv Ht Hk. unfold tmpfs_host_legacy in E2.
  destruct (unmarshal_as decode_string_map None <$> hc1 !! "Tmpfs") as [[[m|]|]|] eqn:E.
  2,3,4: injection E2 as <- _; rewrite Hv in E; cbn in E; by rewrite Ht in E.
  destruct (legacy_tmpfs L m) as [|[m' c]] eqn:F; [done|]. injection E2 as <- _.
  destruct c.
  - rewrite lookup_insert_eq in Hv. injection Hv as <-. unfold unmarshal_as in Ht.
    rewrite decode_marshal_strings in Ht. injection Ht as ->. by apply (legacy_tmpfs_limited L m t true target).
  - rewrite Hv in E. cbn in E. rewrite Ht in E. injection E as ->.
    assert (m' = m) as -> by (by apply (legacy_tmpfs_same L)). by apply (legacy_tmpfs_limited L m m false target).
Qed.

(** Tmpfs mounts are bounded.  When a request with a limit in force is
    accepted, the forwarded body gives every tmpfs mount of the new API a size
    that is not 0 and within the limit, and every target of the old API options
    whose (first) size is within the limit. *)
Theorem tmpfs_within_limit b limitMB j' hc' :
  (0 < limitMB < 2 ^ 43)%Z →
  ValidateAndInjectTmpfs b limitMB = TmpfsBody (Doc j') →
  unmarshal_map <$> obj_of j' !! "HostConfig" = Some (Some (Some hc')) →
  (∀ ms m, hc' !! "Mounts" = Some (JArr ms) → m ∈ ms → mount_is_tmpfs m = true →
     (mount_size m <= limitMB * 1048576)%Z ∧ mount_size m ≠ 0%Z) ∧
  (∀ v t target opts, hc' !! "Tmpfs" = Some v → unmarshal_as decode_string_map None v = Some (Some t) →
     t !! target = Some opts → (parseTmpfsSize opts <= limitMB * 1048576)%Z).
Proof.
  intros Hl Hv Hhc. rewrite <- (mb_bytes_exact limitMB Hl).
  assert (0 < mb_bytes limitMB)%Z as HL by (rewrite mb_bytes_exact; lia).
  assert (in_int64 (mb_bytes limitMB)) as Hin by apply mb_bytes_in.
  destruct (accepted_tmpfs b limitMB j' hc') as (hc0 & hc1 & ch & ch' & E1 & E2); [lia|done..|].
  split.
  - intros ms m Hms Hm Ht. eapply (forwarded_mounts_limited (mb_bytes limitMB) hc0 hc1); eauto.
  - intros v t target opts Hv' Ht Hk. eapply (forwarded_legacy_limited (mb_bytes limitMB) hc1); eauto.
    unfold in_int64, int64_max in *. lia.
Qed.

(** Of the options of a tmpfs target only the first [size=] is checked: with
    one of 1 MB first, whatever follows (a second, larger [size=], which is the
    one a mount uses) passes every limit and is forwarded as it came. *)
Theorem tmpfs_first_size_decides target rest limitMB :
  (0 < limitMB < 2 ^ 43)%Z →
  let j := JObj [("HostConfig", JObj [("Tmpfs", JObj [(target, JStr ("size=1m," +:+ rest))])])] in
  ValidateAndInjectTmpfs (Doc j) limitMB = TmpfsBody (Doc j).
Proof.
  intros Hl j. subst j. unfold ValidateAndInjectTmpfs. replace (limitMB =? 0)%Z with false by lia. cbv zeta.
  set (o := "size=1m," +:+ rest). set (L := mb_bytes limitMB).
  assert (tmpfs_opts L o = inr (o, false)) as Ho.
  { unfold tmpfs_opts, o. rewrite tmpfs_size_first. unfold L. rewrite mb_bytes_exact by done. cbv zeta.
    replace (limitMB * 1048576 <? 1048576)%Z with false by lia. done. }
  cbn [unmarshal_map]. unfold obj_map at 1. cbn [foldl fst snd]. rewrite lookup_insert_eq.
  cbn [fmap option_fmap option_map unmarshal_map]. unfold obj_map at 1. cbn [foldl fst snd].
  unfold tmpfs_host_mounts. rewrite lookup_insert_ne, lookup_empty by done.
  unfold tmpfs_host_legacy. rewrite lookup_insert_eq. cbn [fmap option_fmap option_map].
  assert (unmarshal_as decode_string_map None (JObj [(target, JStr o)]) = Some (Some {[target := o]})) as ->
    by reflexivity.
  unfold legacy_tmpfs. rewrite map_to_list_singleton. csimpl. rewrite Ho. reflexivity.
Qed.

(** ** Witnesses *)

Module StorageDemo.

Definition base : string := "/var/docker/user-storage".
Definition request (kvs : list (string * json)) : body := Doc (JObj [("HostConfig", JObj kvs)]).

Definition bind_document : json :=
  JObj [("HostConfig", JObj [("Binds", JArr [JStr "cache:/cache"]);
    ("Mounts", JArr [JObj [("Type", JStr "Bind"); ("Source", JStr "/var/docker/user-storage/user-1001/../user-1001/data")]])])].
Definition bind_src : string := "/var/docker/user-storage/user-1001/../user-1001/data".
Definition bind_place : list string := ["var"; "docker"; "user-storage"; "user-1001"; "data"].
Definition escape_body : body := request [("Binds", JArr [JStr "/var/docker/user-storage/user-1001/../user-1002:/x"])].

Example escape_refused : ValidateBindMounts escape_body base 1001 "" ≠ None.
Proof. by vm_compute. Qed.

Definition device_body : body := request [("Devices", JArr [JObj [("PathOnHost", JStr "/dev/null")]])].

Definition tmpfs_body : body :=
  request [("Mounts", JArr [JObj [("Type", JStr "tmpfs"); ("Target", JStr "/scratch")]]);
           ("Tmpfs", JObj [("/tmp", JStr "rw,size=64m")])].
Definition tmpfs_mount_forwarded : json :=
  JObj [("Target", JStr "/scratch"); ("TmpfsOptions", JObj [("SizeBytes", JInt 536870912)]); ("Type", JStr "tmpfs")].
Definition tmpfs_forwarded : json :=
  JObj [("HostConfig", JObj [("Mounts", JArr [tmpfs_mount_forwarded]); ("Tmpfs", JObj [("/tmp", JStr "rw,size=64m")])])].

(** bob's container, granted to alice. *)
Definition db : OwnershipDB :=
  (GrantVolumesFrom 5 "c2" 1001 0 (SetContainerOwner 4 "c2" ImageDemo.bob "" initSchema).2).2.
Definition vf_body : body := request [("VolumesFrom", JArr [JStr "c2:ro"])].

End StorageDemo.

Lemma bind_mounts_confined_witness :
  ∃ root dir, (root = UserStorageRoot StorageDemo.base 1001 ∨ root = "" ∧ "" ≠ "") ∧
    leads_to root dir ∧ dir `prefix_of` StorageDemo.bind_place.
Proof.
  apply (bind_mounts_confined StorageDemo.bind_document StorageDemo.base 1001 "" StorageDemo.bind_src);
    [done|reflexivity|done|vm_compute; eauto|vm_compute; reflexivity| |].
  - eapply (bind_mount _ _ _ _ _ "Bind"); [constructor; [left|]|constructor; [right; left|]|left|constructor; [left|]|reflexivity|
      constructor; [right; left|]]; by apply unambiguousb_spec; vm_compute.
  - apply leads_to_clean; [reflexivity|]. vm_compute. reflexivity.
Defined.

Lemma devices_whitelisted_witness : "/dev/null" ∈ builtinAllowedDevices.
Proof.
  refine (proj2 (devices_whitelisted StorageDemo.device_body builtinAllowedDevices 1001 ["/dev/null"] "/dev/null"
                   _ _ _ _ _) _); [done|vm_compute; reflexivity|vm_compute; reflexivity|left|done|vm_compute; reflexivity].
Defined.

Lemma volumes_from_owned_or_granted_witness :
  ∃ r, tbl_lookup "c2" (containers StorageDemo.db) = Some r ∧
    (c_owner_uid r = 1001%Z ∨
     ∃ g, g ∈ volumes_from_access StorageDemo.db ∧ vf_container_id g = "c2" ∧
          (vf_grantee_uid g = 1001%Z ∨ vf_grantee_uid g = all_users)).
Proof.
  refine (volumes_from_owned_or_granted (λ _, "") StorageDemo.vf_body 1001 StorageDemo.db ["c2:ro"] "c2:ro" _ _ _ _);
    [done|vm_compute; reflexivity|vm_compute; reflexivity|left].
Defined.

Lemma cleanup_spares_recorded_volumes_witness :
  tbl_lookup "user-1001-volume-old" (volumes initSchema) = None ∧
  GetVolumeOwner "user-1001-volume-old" initSchema = None.
Proof.
  destruct (cleanup_spares_recorded_volumes (Some ["user-1001-volume-old"; "data"]) (λ _, true) (λ _ d, d) (λ _ d, d)
              initSchema "user-1001-volume-old" initSchema) as (_ & _ & _ & H1 & H2); [left|].
  split; [exact H1|exact H2].
Defined.

Lemma tmpfs_within_limit_witness :
  ValidateAndInjectTmpfs StorageDemo.tmpfs_body 512 = TmpfsBody (Doc StorageDemo.tmpfs_forwarded) ∧
  (mount_size StorageDemo.tmpfs_mount_forwarded <= 512 * 1048576)%Z ∧
  mount_size StorageDemo.tmpfs_mount_forwarded ≠ 0%Z.
Proof.
  split; [vm_compute; reflexivity|].
  refine (proj1 (tmpfs_within_limit StorageDemo.tmpfs_body 512 StorageDemo.tmpfs_forwarded
            (obj_of (JObj [("Mounts", JArr [StorageDemo.tmpfs_mount_forwarded]); ("Tmpfs", JObj [("/tmp", JStr "rw,size=64m")])]))
            _ _ _) [StorageDemo.tmpfs_mount_forwarded] StorageDemo.tmpfs_mount_forwarded _ _ _);
    [lia|vm_compute; reflexivity|vm_compute; reflexivity|vm_compute; reflexivity|left|vm_compute; reflexivity].
Defined.

Lemma tmpfs_first_size_decides_witness :
  ValidateAndInjectTmpfs (Doc (JObj [("HostConfig", JObj [("Tmpfs", JObj [("/tmp", JStr "size=1m,size=100g")])])])) 512 =
  TmpfsBody (Doc (JObj [("HostConfig", JObj [("Tmpfs", JObj [("/tmp", JStr "size=1m,size=100g")])])])).
Proof. apply (tmpfs_first_size_decides "/tmp" "size=100g" 512). lia. Defined.
