(* ===== verification/Bodies.v ===== *)
(** * Bodies: rewriting requests and responses

    The functions of [internal/isolation] (labels.go, network.go, volume.go,
    netbridge.go) and of proxy.go that decode a JSON body, change some of its
    members and encode it again: ownership labels, name prefixes, named volumes,
    the network of the user, port mappings, and the way back in inspect responses.
    A body that is the JSON value [null] decodes to a nil map, and a write to it
    panics ([Panics]); what is not JSON is passed on unchanged. *)

From S2P Require Import Prelude GoStrings GoJson Identity Tables Database ImageDB ResourceDB Names Quota Storage.

(** What a rewriter needs of the volumes table. *)
Class VolumeReader (D : Type) := volume_names_of : Z → D → result (list string).
#[export] Instance OwnershipDB_volumes : VolumeReader OwnershipDB := GetVolumeNamesByOwner.

(** ** The common shape *)

(** Decode the body into a map, let [f] change it ([None]: leave the body as it
    is), encode it.  [f] writes to the map, so a nil map panics. *)
Definition rewrite_object (f : gmap string json → option (gmap string json)) (b : body) : run body :=
  match b with
  | Doc j =>
    match unmarshal_map j with
    | None => Returns b
    | Some None => match f ∅ with None => Returns b | Some _ => Panics end
    | Some (Some req) =>
      match f req with None => Returns b | Some req' => Returns (Doc (marshal_map req')) end
    end
  | _ => Returns b
  end.

Definition string_member (req : gmap string json) (name : string) : string :=
  unmarshal_ignored decode_string "" (req !! name).

(** ** Labels *)

(** The labels of the request as the function decodes them ([null] and what is
    no object leave the map empty; a value of another type reads as ""). *)
Definition request_labels (req : gmap string json) : gmap string string :=
  match req !! "Labels" with
  | Some JNull | None => ∅
  | Some v => default ∅ (decode_string_map (Some ∅) v).1
  end.

Definition InjectSystemLabels (b : body) (id : CallerIdentity) : run body :=
  rewrite_object (λ req, Some (<["Labels" := marshal_strings (system_labels (request_labels req) id)]> req)) b.

(** ** Container names *)

Definition InjectContainerNamePrefix (b : body) (identity : CallerIdentity) : run (body * string) :=
  let prefix := UserContainerPrefix (RealUID identity) in
  match b with
  | Doc j =>
    match unmarshal_map j with
    | None => Returns (b, "")
    | Some o =>
      let name := string_member (default ∅ o) "Name" in
      if (name ==s "") || HasPrefix name prefix then Returns (b, name)
      else Returns (Doc (marshal_map (<["Name" := JStr (prefix +:+ name)]> (default ∅ o))), prefix +:+ name)
    end
  | _ => Returns (b, "")
  end.

Definition RewriteContainerInNetworkBody (b : body) (uid : Z) : run body :=
  rewrite_object (λ req,
    match req !! "Container" with
    | Some v =>
      let '(name, ok) := decode_string "" v in
      if negb ok || (name ==s "") then None
      else if HasPrefix name (UserContainerPrefix uid) || isHexID name then None
      else Some (<["Container" := JStr (UserContainerPrefix uid +:+ name)]> req)
    | None => None
    end) b.

(** ** Networks *)

Definition add_prefix (prefix name : string) : string :=
  if HasPrefix name prefix then name else prefix +:+ name.

(** [ConfigFrom.Network], the network a configuration is copied from. *)
Definition prefix_config_from (prefix : string) (req : gmap string json) : gmap string json :=
  match req !! "ConfigFrom" with
  | Some v =>
    match unmarshal_map v with
    | Some o =>
      let configFrom := default ∅ o in
      let cfNetwork := string_member configFrom "Network" in
      if (cfNetwork !=s "") && negb (HasPrefix cfNetwork prefix)
      then <["ConfigFrom" := marshal_map (<["Network" := JStr (prefix +:+ cfNetwork)]> configFrom)]> req
      else req
    | None => req
    end
  | None => req
  end.

Definition bridgeNameOpt : string := "com.docker.network.bridge.name".

Definition decode_network_struct : string → json → string * bool :=
  decode_struct (λ kvs n, field decode_string "Network" kvs n) (λ kvs, field_ok decode_string "Network" kvs "").

Definition skip_bridge_name (req : gmap string json) : bool :=
  match req !! "ConfigOnly" with
  | Some v => match unmarshal_as decode_bool false v with Some co => co | None => false end
  | None => false
  end ||
  match req !! "ConfigFrom" with
  | Some v => match unmarshal_as decode_network_struct "" v with Some n => n !=s "" | None => false end
  | None => false
  end.

Definition inject_bridge_name (userVisibleName : string) (req : gmap string json) : gmap string json :=
  if skip_bridge_name req || (userVisibleName ==s "") || (15 <? slen userVisibleName)%nat then req else
  let driver := string_member req "Driver" in
  if (driver ==s "") || (driver ==s "bridge") then
    let opts := match req !! "Options" with Some v => obj_of v | None => ∅ end in
    match opts !! bridgeNameOpt with
    | Some _ => req
    | None => <["Options" := marshal_map (<[bridgeNameOpt := JStr userVisibleName]> opts)]> req
    end
  else req.

Definition network_create_members (identity : CallerIdentity) (req : gmap string json)
    : gmap string json * string :=
  let prefix := UserResourcePrefix identity in
  let name := string_member req "Name" in
  let actualName := add_prefix prefix name in
  let req := if HasPrefix name prefix then req else <["Name" := JStr actualName]> req in
  (inject_bridge_name (TrimPrefix name prefix) (prefix_config_from prefix req), actualName).

(** The body and the name the network gets; a nil map has no name, so writing
    the prefixed one panics. *)
Definition InjectNetworkNamePrefixWithName (b : body) (identity : CallerIdentity) : run (body * string) :=
  match b with
  | Doc j =>
    match unmarshal_map j with
    | None => Returns (b, "")
    | Some None => Panics
    | Some (Some req) =>
      let '(req', actualName) := network_create_members identity req in
      Returns (Doc (marshal_map req'), actualName)
    end
  | _ => Returns (b, "")
  end.

Definition InjectNetworkNamePrefix (b : body) (identity : CallerIdentity) : run body :=
  match InjectNetworkNamePrefixWithName b identity with Returns (b', _) => Returns b' | Panics => Panics end.

(** The networks a creation names: the network mode, then the end points (in an
    order Go leaves open; here that of [map_to_list]). *)
Record CreateNetworks := mkCreateNetworks { cn_mode : string; cn_endpoints : option (gmap string json) }.

Definition decode_raw_map (cur : option (gmap string json)) (v : json) : option (gmap string json) * bool :=
  match v with
  | JNull => (None, true)
  | JObj kvs => (Some (foldl (λ m kv, <[kv.1 := kv.2]> m) (default ∅ cur) kvs), true)
  | _ => (cur, false)
  end.
Definition decode_network_mode : string → json → string * bool :=
  decode_struct (λ kvs n, field decode_string "NetworkMode" kvs n) (λ kvs, field_ok decode_string "NetworkMode" kvs "").
Definition decode_endpoints : option (gmap string json) → json → option (gmap string json) * bool :=
  decode_struct (λ kvs e, field decode_raw_map "EndpointsConfig" kvs e)
    (λ kvs, field_ok decode_raw_map "EndpointsConfig" kvs None).
Definition decode_create_networks : CreateNetworks → json → CreateNetworks * bool :=
  decode_struct (λ kvs c, mkCreateNetworks (field decode_network_mode "HostConfig" kvs (cn_mode c))
                            (field decode_endpoints "NetworkingConfig" kvs (cn_endpoints c)))
    (λ kvs, field_ok decode_network_mode "HostConfig" kvs "" && field_ok decode_endpoints "NetworkingConfig" kvs None).

Definition ExtractRequestedNetworks (b : body) : list string :=
  match unmarshal_body decode_create_networks (mkCreateNetworks "" None) b with
  | None => []
  | Some c =>
    (if cn_mode c !=s "" then [cn_mode c] else []) ++
    List.filter (λ name, (cn_mode c ==s "") || (name !=s cn_mode c)) (map_to_list (default ∅ (cn_endpoints c))).*1
  end.

(** The end points of the request whose settings are kept. *)
Definition orig_endpoints (req : gmap string json) : gmap string json :=
  match req !! "NetworkingConfig" with
  | Some JNull | None => ∅
  | Some v => match unmarshal_as decode_endpoints None v with Some e => default ∅ e | None => ∅ end
  end.

Definition empty_object : json := JObj [].

Definition user_endpoints (b : body) (bridgeName : string) (origEndpoints : gmap string json)
    (requested : list string) : gmap string json :=
  foldl (λ endpoints '(i, netName),
    if (netName ==s "") || (netName ==s bridgeName) then endpoints else
    let origName := default netName (ExtractRequestedNetworks b !! i) in
    let cfg := match origEndpoints !! origName with
               | Some cfg => cfg
               | None => default empty_object (origEndpoints !! netName)
               end in
    <[netName := cfg]> endpoints) {[bridgeName := empty_object]} (imap pair requested).

Definition add_peers (peerNetworkIDs : list string) (endpoints : gmap string json) : gmap string json :=
  foldl (λ e netID, if netID ==s "" then e
                    else match e !! netID with Some _ => e | None => <[netID := empty_object]> e end)
    endpoints peerNetworkIDs.

Definition primary_network (uid : Z) (requested : list string) : string :=
  match requested with n :: _ => if n !=s "" then n else UserBridgeName uid | [] => UserBridgeName uid end.

Definition InjectUserNetwork (b : body) (uid : Z) (peerNetworkIDs requested : list string) : run body :=
  rewrite_object (λ req,
    let hostConfig := <["NetworkMode" := JStr (primary_network uid requested)]> (host_config_map req) in
    let endpoints := add_peers peerNetworkIDs
                       (user_endpoints b (UserBridgeName uid) (orig_endpoints req) requested) in
    Some (<["HostConfig" := marshal_map hostConfig]>
           (<["NetworkingConfig" := marshal_map {["EndpointsConfig" := marshal_map endpoints]}]> req))) b.

(** ** Port mappings *)

Record PortMapping := mkPortMapping { HostPort : Z; ContainerPort : Z; Protocol : string }.

Definition decode_binding : string → json → string * bool :=
  decode_struct (λ kvs p, field decode_string "HostPort" kvs p) (λ kvs, field_ok decode_string "HostPort" kvs "").
Definition decode_bindings : list string → json → list string * bool := decode_list decode_binding "".

(** [map[string][]struct{...}]: an object adds its members. *)
Definition decode_port_map (cur : option (gmap string (list string))) (v : json)
    : option (gmap string (list string)) * bool :=
  match v with
  | JNull => (None, true)
  | JObj kvs =>
    foldl (λ '(m, ok) kv, let '(l, ok') := decode_bindings [] kv.2 in
                          (Some (<[kv.1 := l]> (default ∅ m)), ok && ok')) (Some (default ∅ cur), true) kvs
  | _ => (cur, false)
  end.
Definition decode_host_ports : option (gmap string (list string)) → json → option (gmap string (list string)) * bool :=
  decode_struct (λ kvs p, field decode_port_map "PortBindings" kvs p)
    (λ kvs, field_ok decode_port_map "PortBindings" kvs None).

Definition port_mappings_of (portProto : string) (bindings : list string) : list PortMapping :=
  match Cut1 "/" portProto with
  | None => []
  | Some (port, proto) =>
    omap (λ hp, if hp ==s "" then None else
                let hostPort := scan_int hp in
                if (0 <? hostPort)%Z then Some (mkPortMapping hostPort (scan_int port) proto) else None) bindings
  end.

(** In an order Go leaves open; here that of [map_to_list]. *)
Definition ExtractPortMappings (b : body) : list PortMapping :=
  match unmarshal_body (decode_host_config decode_host_ports None) None b with
  | None => []
  | Some m => map_to_list (default ∅ m) ≫= λ kv, port_mappings_of kv.1 kv.2
  end.

(** The first mapping whose host port is recorded for a container. *)
Definition port_conflict (b : body) (d : OwnershipDB) : option (PortMapping * PortMappingInfo) :=
  match find_first (λ m, match GetPortMapping (HostPort m) (Protocol m) d with Some _ => true | None => false end)
          (ExtractPortMappings b) with
  | Some m => (λ info, (m, info)) <$> GetPortMapping (HostPort m) (Protocol m) d
  | None => None
  end.

(** ** Volumes *)

Definition InjectVolumeNamePrefix (b : body) (identity : CallerIdentity) : run body :=
  let prefix := UserVolumePrefix (RealUID identity) in
  match b with
  | Doc j =>
    match unmarshal_map j with
    | None => Returns b
    | Some None => Panics
    | Some (Some req) =>
      let name := string_member req "Name" in
      Returns (Doc (marshal_map (if HasPrefix name prefix then req else <["Name" := JStr (prefix +:+ name)]> req)))
    end
  | _ => Returns b
  end.

(** A volume the user may not name. *)
Definition NamedVolumeViolation : Type := string.

Definition map_inr {E A B} (f : A → B) (x : E + A) : E + B :=
  match x with inl e => inl e | inr a => inr (f a) end.

Definition volume_binds (prefix : string) (owned : list string) (binds : list string)
    : NamedVolumeViolation + list string :=
  foldr (λ b acc,
    let '(src, rest) := splitBindSrc b in
    if HasPrefix src "/" || HasPrefix src prefix then map_inr (cons b) acc
    else if negb (existsb (String.eqb (prefix +:+ src)) owned) then inl src
    else map_inr (cons (prefix +:+ src +:+ rest)) acc) (inr []) binds.

Record VolMount := mkVolMount { vm_Type : string; vm_Source : string; vm_Target : string }.
Definition decode_vol_mount : VolMount → json → VolMount * bool :=
  decode_struct (λ kvs m, mkVolMount (field decode_string "Type" kvs (vm_Type m))
                            (field decode_string "Source" kvs (vm_Source m))
                            (field decode_string "Target" kvs (vm_Target m)))
    (λ kvs, forallb (λ n, field_ok decode_string n kvs "") ["Type"; "Source"; "Target"]).
Record HostVolumes := mkHostVolumes { hv_Binds : list string; hv_Mounts : list VolMount }.
Definition decode_vol_mounts : list VolMount → json → list VolMount * bool := decode_list decode_vol_mount (mkVolMount "" "" "").
Definition decode_host_volumes : HostVolumes → json → HostVolumes * bool :=
  decode_struct (λ kvs h, mkHostVolumes (field decode_strings "Binds" kvs (hv_Binds h))
                            (field decode_vol_mounts "Mounts" kvs (hv_Mounts h)))
    (λ kvs, field_ok decode_strings "Binds" kvs [] && field_ok decode_vol_mounts "Mounts" kvs []).

(** The new source of a mount, if it gets one. *)
Definition volume_mount_source (prefix : string) (owned : list string) (m : VolMount)
    : NamedVolumeViolation + option string :=
  if negb (EqualFold (vm_Type m) "volume") || (vm_Source m ==s "") then inr None
  else if HasPrefix (vm_Source m) prefix then inr None
  else if negb (existsb (String.eqb (prefix +:+ vm_Source m)) owned) then inl (vm_Source m)
  else inr (Some (prefix +:+ vm_Source m)).

Definition set_source (src : string) (raw : json) : json :=
  match unmarshal_map raw with
  | Some (Some item) => marshal_map (<["Source" := JStr src]> item)
  | _ => raw
  end.

(** The raw mounts rewritten after the decoded ones: a decoded mount without a
    raw one is only checked. *)
Fixpoint volume_mounts (prefix : string) (owned : list string) (ms : list VolMount) (raws : list json)
    : NamedVolumeViolation + list json :=
  match ms with
  | [] => inr raws
  | m :: ms =>
    match volume_mount_source prefix owned m with
    | inl v => inl v
    | inr src =>
      match raws with
      | [] => volume_mounts prefix owned ms []
      | raw :: raws =>
        map_inr (cons (match src with Some s => set_source s raw | None => raw end))
          (volume_mounts prefix owned ms raws)
      end
    end
  end.

(** The [Mounts] member under its exact name, if it is an array (or [null]). *)
Definition rewrite_mounts (prefix : string) (owned : list string) (ms : list VolMount) (raw : option json)
    (hc : gmap string json) : NamedVolumeViolation + gmap string json :=
  match ms, raw with
  | _ :: _, Some (JArr raws) =>
    map_inr (λ raws', <["Mounts" := JArr raws']> hc) (volume_mounts prefix owned ms raws)
  | _ :: _, Some JNull =>
    map_inr (λ _, <["Mounts" := JNull]> hc) (volume_mounts prefix owned ms [])
  | _, _ => inr hc
  end.

(** Binds before mounts: the first violation is the one reported. *)
Definition rewrite_volumes (prefix : string) (owned : list string) (h : HostVolumes)
    (hc : gmap string json) : NamedVolumeViolation + gmap string json :=
  match volume_binds prefix owned (hv_Binds h) with
  | inl v => inl v
  | inr newBinds =>
    let hc := match hv_Binds h with [] => hc | _ => <["Binds" := JArr (JStr <$> newBinds)]> hc end in
    rewrite_mounts prefix owned (hv_Mounts h) (hc !! "Mounts") hc
  end.

Section named_volumes.
Context {D : Type} `{VolumeReader D}.

(** The violation, or the body to go on with. *)
Definition ValidateAndRewriteNamedVolumes (b : body) (uid : Z) (db : D) : run (NamedVolumeViolation + body) :=
  if uid ==z 0 then Returns (inr b) else
  let prefix := UserVolumePrefix uid in
  match volume_names_of uid db, b with
  | inr owned, Doc j =>
    match unmarshal_map j, unmarshal_as (decode_host_config decode_host_volumes (mkHostVolumes [] [])) (mkHostVolumes [] []) j with
    | Some raw, Some h =>
      let raw := default ∅ raw in
      match unmarshal_map <$> raw !! "HostConfig" with
      | Some (Some (Some hc)) =>
        match rewrite_volumes prefix owned h hc with
        | inl v => Returns (inl v)
        | inr hc' => Returns (inr (Doc (marshal_map (<["HostConfig" := marshal_map hc']> raw))))
        end
      | Some (Some None) =>
        match volume_binds prefix owned (hv_Binds h), hv_Binds h with
        | inl v, _ => Returns (inl v)
        | inr _, [] => Returns (inr (Doc (marshal_map (<["HostConfig" := JNull]> raw))))
        | inr _, _ => Panics
        end
      | _ => match volume_binds prefix owned (hv_Binds h) with inl v => Returns (inl v) | inr _ => Returns (inr b) end
      end
    | _, _ => Returns (inr b)
    end
  | _, _ => Returns (inr b)
  end.
End named_volumes.

(** ** Inspect responses *)

(** Go's [resp["Mountpoint"]] with the name replaced once. *)
Definition strip_mountpoint (name stripped : string) (resp : gmap string json) : gmap string json :=
  match resp !! "Mountpoint" with
  | Some v =>
    let '(mp, ok) := decode_string "" v in
    if (ok : bool) && Contains mp name then <["Mountpoint" := JStr (Replace1 mp name stripped)]> resp else resp
  | None => resp
  end.

Definition StripVolumeInspectPrefix (b : body) (uid : Z) : run body :=
  let prefix := UserVolumePrefix uid in
  rewrite_object (λ resp,
    let name := string_member resp "Name" in
    if negb (HasPrefix name prefix) then None
    else let stripped := TrimPrefix name prefix in
         Some (strip_mountpoint name stripped (<["Name" := JStr stripped]> resp))) b.

Definition StripVolumeNamePrefix (b : body) (uid : Z) : run body :=
  let prefix := UserVolumePrefix uid in
  rewrite_object (λ resp,
    let name := string_member resp "Name" in
    if negb (HasPrefix name prefix) then None
    else Some (<["Name" := JStr (TrimPrefix name prefix)]> resp)) b.

(** ** Updates *)

(** A [Memory] of the update also becomes its [MemorySwap]. *)
Definition syncMemorySwapForUpdate (b : body) : run body :=
  rewrite_object (λ obj,
    match obj !! "Memory" with
    | Some v =>
      let '(mem, ok) := decode_int64 0 v in
      if negb ok || (mem <=? 0)%Z then None else Some (<["MemorySwap" := v]> obj)
    | None => None
    end) b.

(** ** Lemmas: one member rewritten *)

(** What the daemon reads of a field of a struct at the top of a document. *)
Definition top_field {A} (dec : A → json → A * bool) (name : string) (init : A) (j : json) : A :=
  match j with JObj kvs => field dec name kvs init | _ => init end.

Lemma top_field_insert {A} (dec : A → json → A * bool) kvs name v init :
  unambiguous [name] kvs →
  top_field dec name init (marshal_map (<[name := v]> (obj_map kvs))) = (dec init v).1.
Proof.
  intros Hu. unfold top_field, marshal_map.
  destruct (field_encoded dec [name] kvs (<[name := v]> (obj_map kvs)) name init) as [E _]; [|done| |left|].
  - intros f g ->%list_elem_of_singleton ->%list_elem_of_singleton. done.
  - intros k. rewrite lookup_insert_is_Some. intros [->|[_ Hk]]; [by left; left|right; by apply obj_map_key].
  - rewrite E. by rewrite lookup_insert_eq.
Qed.

Lemma top_field_same {A} (dec : A → json → A * bool) kvs name init :
  unambiguous [name] kvs →
  top_field dec name init (marshal_map (obj_map kvs)) =
  match obj_map kvs !! name with Some v => (dec init v).1 | None => init end.
Proof.
  intros Hu. unfold top_field, marshal_map.
  apply (field_encoded dec [name] kvs (obj_map kvs) name init); [|done| |left].
  - intros f g ->%list_elem_of_singleton ->%list_elem_of_singleton. done.
  - intros k Hk. right. by apply obj_map_key.
Qed.

(** A name that is not ambiguous is the member's. *)
Lemma string_member_top kvs name :
  unambiguous [name] kvs → top_field decode_string name "" (JObj kvs) = string_member (obj_map kvs) name.
Proof.
  intros Hu. unfold top_field, string_member, unmarshal_ignored.
  apply (field_obj_map _ [name]); [done|left].
Qed.

Lemma add_prefix_has prefix name : HasPrefix (add_prefix prefix name) prefix = true.
Proof. unfold add_prefix. destruct (HasPrefix name prefix) eqn:E; [done|apply HasPrefix_app]. Qed.

(** ** Properties: labels and names *)

(** C11: A created container carries the labels of its owner.  From a document that has no
    member spelt like [Labels] in another case, and no name twice, the daemon decodes
    labels whose last owner UID and owner name are the caller's (for a user name without
    comma or blanks), whose caller type is the caller's, and which keep every label the
    proxy does not own.  For other spellings see [labels_forged_in_other_case]. *)
Theorem created_container_is_labelled kvs id j' :
  unambiguous ["Labels"] kvs →
  str_forallb (λ d, negb (Ascii.eqb "," d)) (RealUsername id) = true →
  str_forallb is_plain (RealUsername id) = true →
  InjectSystemLabels (Doc (JObj kvs)) id = Returns (Doc j') →
  ∃ l, top_field decode_string_map "Labels" None j' = Some l ∧
    GetLastLabelValue (map_get l LabelOwnerUID) = Itoa (RealUID id) ∧
    GetLastLabelValue (map_get l LabelOwnerID) = Itoa (RealUID id) ∧
    GetLastLabelValue (map_get l LabelOwnerUsername) = RealUsername id ∧
    GetLastLabelValue (map_get l LabelOwner) = RealUsername id ∧
    GetLastLabelValue (map_get l LabelCallerType) = UserType_String (id_UserType id) ∧
    ∀ k, k ∉ [LabelOwnerUsername; LabelOwnerUID; LabelOwnerGID; LabelCallerType; LabelEffectiveUID;
              LabelOwner; LabelOwnerID] → map_get l k = map_get (request_labels (obj_map kvs)) k.
Proof.
  intros Hu Hc Hp Hj. unfold InjectSystemLabels in Hj. cbn [rewrite_object unmarshal_map] in Hj.
  injection Hj as <-. exists (system_labels (request_labels (obj_map kvs)) id).
  rewrite top_field_insert, decode_marshal_strings by done. split; [done|].
  destruct (system_labels_values (request_labels (obj_map kvs)) id Hc Hp) as (H1 & H2 & H3 & H4 & H5 & _ & _ & H8).
  split_and!; assumption.
Qed.

(** A second member that names the labels in another case defeats this: the
    injected ["Labels"] is encoded before it and the daemon decodes it last, so
    the owner UID label is whatever the client put there. *)
Theorem labels_forged_in_other_case id x :
  ∃ j' l, InjectSystemLabels (Doc (JObj [("labels", JObj [(LabelOwnerUID, JStr x)])])) id = Returns (Doc j') ∧
    top_field decode_string_map "Labels" None j' = Some l ∧ map_get l LabelOwnerUID = x.
Proof.
  unfold InjectSystemLabels. cbn [rewrite_object unmarshal_map].
  assert (∀ v w : json, marshal_map (<["Labels" := v]> (obj_map [("labels", w)])) =
            JObj [("Labels", v); ("labels", w)]) as E.
  { intros v w. vm_compute. reflexivity. }
  rewrite E. eexists _, (<[LabelOwnerUID := x]> (system_labels (request_labels _) id)).
  split; [reflexivity|]. split.
  - unfold top_field, field. cbn [foldl fst snd].
    replace (key_is "Labels" "Labels") with true by (by vm_compute).
    replace (key_is "Labels" "labels") with true by (by vm_compute).
    rewrite decode_marshal_strings. cbn [fst snd decode_string_map foldl decode_string default].
    reflexivity.
  - unfold map_get. by rewrite lookup_insert_eq.
Qed.

Lemma prefix_config_from_key prefix req k v :
  prefix_config_from prefix req !! k = Some v → k = "ConfigFrom" ∨ req !! k = Some v.
Proof.
  unfold prefix_config_from. intros H. destruct (decide (k = "ConfigFrom")) as [|Hne]; [by left|right].
  destruct (req !! "ConfigFrom") as [c|]; [|done]. destruct (unmarshal_map c); [|done]. cbv zeta in H.
  destruct (_ && _); [|done]. by rewrite lookup_insert_ne in H.
Qed.
Lemma prefix_config_from_other prefix req k :
  k ≠ "ConfigFrom" → prefix_config_from prefix req !! k = req !! k.
Proof.
  intros Hne. unfold prefix_config_from. destruct (req !! "ConfigFrom") as [c|]; [|done].
  destruct (unmarshal_map c); [|done]. cbv zeta. destruct (_ && _); [|done]. by rewrite lookup_insert_ne.
Qed.
Lemma inject_bridge_name_other name req k :
  k ≠ "Options" → inject_bridge_name name req !! k = req !! k.
Proof.
  intros Hne. unfold inject_bridge_name. destruct (_ || _); [done|]. cbv zeta.
  destruct (_ || _); [|done]. destruct (_ !! bridgeNameOpt); [done|]. by rewrite lookup_insert_ne.
Qed.

(** The [Name] the daemon reads of a network creation. *)
Lemma network_create_name kvs id :
  unambiguous ["Name"] kvs →
  let '(req', actualName) := network_create_members id (obj_map kvs) in
  top_field decode_string "Name" "" (marshal_map req') = actualName.
Proof.
  intros [Hnd Hu]. unfold network_create_members. cbv zeta.
  set (prefix := UserResourcePrefix id). set (name := string_member (obj_map kvs) "Name").
  set (req1 := if HasPrefix name prefix then _ else _).
  set (req' := inject_bridge_name _ _). unfold top_field, marshal_map.
  assert (∀ k, k ≠ "Options" → k ≠ "ConfigFrom" → req' !! k = req1 !! k) as Hother.
  { intros k H1 H2. unfold req'. by rewrite inject_bridge_name_other, prefix_config_from_other. }
  assert (∀ k v, req1 !! k = Some v → key_is "Name" k = true → k = "Name") as Hreq1.
  { intros k v Hk Hkey. destruct (decide (k = "Name")) as [|Hne]; [done|].
    assert (obj_map kvs !! k = Some v) as Hk'
      by (unfold req1 in Hk; destruct (HasPrefix name prefix); by rewrite ?lookup_insert_ne in Hk).
    apply obj_map_Some in Hk'. by apply (Hu (k, v) "Name" Hk'); [left|]. }
  rewrite field_marshal.
  - rewrite Hother by done. unfold req1, add_prefix. destruct (HasPrefix name prefix) eqn:E.
    + unfold name, string_member, unmarshal_ignored. by destruct (obj_map kvs !! "Name").
    + by rewrite lookup_insert_eq.
  - intros k v Hk Hkey. destruct (decide (k = "Options")) as [->|H1]; [by vm_compute in Hkey|].
    destruct (decide (k = "ConfigFrom")) as [->|H2]; [by vm_compute in Hkey|].
    rewrite Hother in Hk by done. by apply (Hreq1 k v).
Qed.

(** What a user creates carries the user's prefix.  From a body that names its
    [Name] once, the forwarded creation of a volume or a network is decoded by the
    daemon to a name with the prefix of the caller, for a network the name the
    proxy goes on to record; and every volume created without a name gets the
    same one, the bare prefix. *)
Theorem created_names_are_prefixed kvs id :
  unambiguous ["Name"] kvs →
  (∃ j', InjectVolumeNamePrefix (Doc (JObj kvs)) id = Returns (Doc j') ∧
     HasPrefix (top_field decode_string "Name" "" j') (UserVolumePrefix (RealUID id)) = true ∧
     (top_field decode_string "Name" "" (JObj kvs) = "" →
      top_field decode_string "Name" "" j' = UserVolumePrefix (RealUID id))) ∧
  (∃ j' n, InjectNetworkNamePrefixWithName (Doc (JObj kvs)) id = Returns (Doc j', n) ∧
     top_field decode_string "Name" "" j' = n ∧ HasPrefix n (UserResourcePrefix id) = true).
Proof.
  intros Hu. split.
  - eexists. split; [unfold InjectVolumeNamePrefix; cbn [unmarshal_map]; reflexivity|].
    rewrite (string_member_top kvs "Name" Hu).
    destruct (HasPrefix (string_member (obj_map kvs) "Name") (UserVolumePrefix (RealUID id))) eqn:E.
    + rewrite top_field_same by done.
      assert (match obj_map kvs !! "Name" with Some v => (decode_string "" v).1 | None => "" end
              = string_member (obj_map kvs) "Name") as -> by (unfold string_member; by destruct (obj_map kvs !! "Name")).
      split; [done|]. intros H0. by rewrite H0 in E.
    + rewrite top_field_insert by done. cbn [decode_string fst]. split; [apply HasPrefix_app|].
      intros ->. apply app_nil_r_str.
  - pose proof (network_create_name kvs id Hu) as Hn.
    destruct (network_create_members id (obj_map kvs)) as [req' n] eqn:E.
    exists (marshal_map req'), n. unfold InjectNetworkNamePrefixWithName. cbn [unmarshal_map]. rewrite E.
    split_and!; [done|done|]. unfold network_create_members in E. injection E as _ <-. apply add_prefix_has.
Qed.

(** ** Properties: the networks of a created container *)

Lemma user_endpoints_keys b bridgeName orig requested k :
  is_Some (user_endpoints b bridgeName orig requested !! k) → k = bridgeName ∨ k ∈ requested.
Proof.
  unfold user_endpoints. revert k.
  assert (∀ l (m : gmap string json), (∀ x, x ∈ l → x.2 ∈ requested) →
    (∀ k, is_Some (m !! k) → k = bridgeName ∨ k ∈ requested) → ∀ k, is_Some (foldl (λ endpoints '(i, netName),
    if (netName ==s "") || (netName ==s bridgeName) then endpoints else
    let origName := default netName (ExtractRequestedNetworks b !! i) in
    let cfg := match orig !! origName with
               | Some cfg => cfg
               | None => default empty_object (orig !! netName)
               end in
    <[netName := cfg]> endpoints) m l !! k) → k = bridgeName ∨ k ∈ requested) as Hf.
  { intros l. induction l as [|[i n] l IH]; intros m Hl Hm k; [apply Hm|]. simpl. apply IH.
    - intros x Hx. apply Hl. by right.
    - intros k'. destruct (_ || _); [apply Hm|]. rewrite lookup_insert_is_Some.
      intros [<-|[_ H]]; [right; apply (Hl (i, n)); left|by apply Hm]. }
  apply Hf.
  - intros [i n] (j & Hj)%list_elem_of_lookup. apply list_lookup_imap_Some in Hj as (y & Hy & [= _ ->]).
    by eapply list_elem_of_lookup_2.
  - intros k. rewrite lookup_singleton_is_Some. auto.
Qed.

Lemma add_peers_keys peers e k : is_Some (add_peers peers e !! k) → is_Some (e !! k) ∨ k ∈ peers.
Proof.
  unfold add_peers. revert e. induction peers as [|p peers IH]; intros e; [by left|]. simpl. intros H%IH.
  destruct (p ==s ""); [destruct H; auto; right; by right|].
  destruct (e !! p) eqn:E; [destruct H; auto; right; by right|]. rewrite lookup_insert_is_Some in H.
  destruct H as [[<-|[_ ?]]|?]; [right; left|by left|right; by right].
Qed.

(** End points are only added. *)
Lemma foldl_bridge {X} k (f : gmap string json → X → gmap string json) l m :
  (∀ m x, is_Some (m !! k) → is_Some (f m x !! k)) → is_Some (m !! k) → is_Some (foldl f m l !! k).
Proof. intros Hf. revert m. induction l as [|x l IH]; intros m Hm; [done|]. simpl. auto. Qed.
Lemma insert_grows (m : gmap string json) k n v : is_Some (m !! k) → is_Some (<[n := v]> m !! k).
Proof. rewrite lookup_insert_is_Some. destruct (decide (n = k)); auto. Qed.

(** Encoded end points are decoded as they were. *)
Lemma decode_encoded_endpoints (e : gmap string json) :
  decode_endpoints None (marshal_map {["EndpointsConfig" := marshal_map e]}) = (Some e, true).
Proof.
  unfold marshal_map at 1. rewrite map_to_list_singleton. cbn [merge_sort].
  change (merge_sort key_le [("EndpointsConfig", marshal_map e)]) with [("EndpointsConfig", marshal_map e)].
  unfold decode_endpoints, decode_struct, field, field_ok. cbn [foldl forallb fst snd].
  replace (key_is "EndpointsConfig" "EndpointsConfig") with true by (by vm_compute).
  unfold marshal_map, decode_raw_map. cbn [fst snd andb default].
  change (foldl (λ (m : gmap string json) (kv : string * json), <[kv.1:=kv.2]> m) ∅ (merge_sort key_le (map_to_list e)))
    with (obj_map (merge_sort key_le (map_to_list e))).
  by rewrite obj_map_marshal.
Qed.

Definition network_members : list string := ["HostConfig"; "NetworkingConfig"].

(** A created container joins the networks the proxy chose.  From a body that
    names its host and networking configurations once, the daemon decodes as the
    network mode the first requested network, or else the user's bridge, and every
    end point it decodes is the bridge, a requested network or a peering's. *)
Theorem injected_networks_are_chosen kvs uid peers requested j' :
  unambiguous network_members kvs →
  (∀ hkvs, obj_map kvs !! "HostConfig" = Some (JObj hkvs) → unambiguous ["NetworkMode"] hkvs) →
  InjectUserNetwork (Doc (JObj kvs)) uid peers requested = Returns (Doc j') →
  let c := (decode_create_networks (mkCreateNetworks "" None) j').1 in
  cn_mode c = primary_network uid requested ∧
  ∃ e, cn_endpoints c = Some e ∧ is_Some (e !! UserBridgeName uid) ∧
    ∀ k, is_Some (e !! k) → k = UserBridgeName uid ∨ k ∈ requested ∨ k ∈ peers.
Proof.
  intros Hu Hh. unfold InjectUserNetwork. cbn [rewrite_object unmarshal_map].
  set (hc := <["NetworkMode" := _]> (host_config_map (obj_map kvs))). set (e := add_peers _ _).
  set (m := <["HostConfig" := _]> _). intros [= <-]. cbv zeta.
  assert (∀ k, is_Some (m !! k) → k ∈ network_members ∨ k ∈ kvs.*1) as Hm.
  { intros k. unfold m. rewrite !lookup_insert_is_Some. intros [<-|[_ [<-|[_ Hk]]]]; [left; left|left; right; left|right; by apply obj_map_key]. }
  assert (∀ f g, f ∈ network_members → g ∈ network_members → key_is f g = true → g = f) as Hd
    by (intros f g; apply distinct_fields_spec; by vm_compute).
  assert (marshal_map m = JObj (merge_sort key_le (map_to_list m))) as -> by done.
  unfold decode_create_networks, decode_struct. cbn [fst cn_mode cn_endpoints].
  split.
  - destruct (field_encoded decode_network_mode network_members kvs m "HostConfig" "" Hd Hu Hm) as [-> _]; [left|].
    unfold m at 1. rewrite lookup_insert_eq. unfold marshal_map, decode_network_mode, decode_struct. cbn [fst].
    assert (∃ hkvs, host_config_map (obj_map kvs) = obj_map hkvs ∧ unambiguous ["NetworkMode"] hkvs) as (hkvs & Ehc & Hn).
    { unfold host_config_map. destruct (obj_map kvs !! "HostConfig") as [[| | | | | |hkvs]|]; [..|by exists hkvs; auto|];
        exists []; split; try done; (split; [constructor|by intros ? ? ?%elem_of_nil]). }
    destruct (field_encoded decode_string ["NetworkMode"] hkvs hc "NetworkMode" "") as [-> _]; [|done| |left|].
    + intros f g ->%list_elem_of_singleton ->%list_elem_of_singleton. done.
    + unfold hc. rewrite Ehc. intros k. rewrite lookup_insert_is_Some.
      intros [<-|[_ Hk]]; [left; left|right; by apply obj_map_key].
    + unfold hc. by rewrite lookup_insert_eq.
  - destruct (field_encoded decode_endpoints network_members kvs m "NetworkingConfig" None Hd Hu Hm) as [-> _]; [right; left|].
    unfold m at 1. rewrite lookup_insert_ne, lookup_insert_eq by done. rewrite decode_encoded_endpoints.
    exists e. split; [done|]. split.
    + unfold e. assert (is_Some (user_endpoints (Doc (JObj kvs)) (UserBridgeName uid) (orig_endpoints (obj_map kvs)) requested
        !! UserBridgeName uid)) as Hb.
      { unfold user_endpoints. apply foldl_bridge; [|by rewrite lookup_singleton_eq].
        intros m' [i n] Hm'. destruct (_ || _); [done|by apply insert_grows]. }
      unfold add_peers. apply foldl_bridge; [|done]. intros m' n Hm'. destruct (n ==s ""); [done|].
      destruct (m' !! n); [done|by apply insert_grows].
    + intros k [Hk|Hk]%add_peers_keys; [|by right; right]. apply user_endpoints_keys in Hk. tauto.
Qed.

(** ** Lemmas: named volumes *)

(** A bind that names a path or a volume with the prefix. *)
Definition own_bind (prefix b : string) : bool :=
  let src := (splitBindSrc b).1 in HasPrefix src "/" || HasPrefix src prefix.
Definition own_mount (prefix : string) (m : VolMount) : bool :=
  negb (EqualFold (vm_Type m) "volume") || (vm_Source m ==s "") || HasPrefix (vm_Source m) prefix.

Definition no_colon (s : string) : bool := str_forallb (λ d, negb (Ascii.eqb ":" d)) s.

Lemma splitBindSrc_spec b src rest :
  splitBindSrc b = (src, rest) →
  b = src +:+ rest ∧ no_colon src = true ∧ (rest = "" ∨ ∃ r, rest = String ":" r).
Proof.
  unfold splitBindSrc, no_colon. destruct (Index b ":") as [n|] eqn:E.
  - apply Index1_Some in E as (H1 & H2 & H3). intros [= <- <-].
    split_and!; [by rewrite str_take_drop|done|right; eauto].
  - apply Index1_None in E. intros [= <- <-]. split_and!; [by rewrite app_nil_r_str|done|by left].
Qed.

Lemma splitBindSrc_app src rest :
  no_colon src = true → rest = "" ∨ (∃ r, rest = String ":" r) → splitBindSrc (src +:+ rest) = (src, rest).
Proof.
  intros Hs [->|[r ->]]; unfold splitBindSrc.
  - rewrite app_nil_r_str, (proj2 (Index1_None ":" src) Hs). done.
  - rewrite (Index1_app ":" src r Hs). by rewrite str_take_app, str_drop_app.
Qed.

Lemma volume_prefix_no_colon uid : no_colon (UserVolumePrefix uid) = true.
Proof.
  unfold UserVolumePrefix, no_colon. rewrite !str_forallb_app.
  assert (str_forallb (λ d, negb (Ascii.eqb ":" d)) (Itoa uid) = true) as ->; [|done].
  destruct (decide (0 <= uid)%Z) as [Hz|Hz].
  - eapply str_forallb_impl, Itoa_digits, Hz. intros c Hc.
    destruct (Ascii.eqb_spec ":" c) as [<-|]; [by vm_compute in Hc|done].
  - destruct uid as [|p|p]; try lia. change (Itoa (Z.neg p)) with (String "-" (Itoa (Z.pos p))).
    cbn [str_forallb]. apply andb_true_iff. split; [done|].
    eapply str_forallb_impl, Itoa_digits; [|lia]. intros c Hc.
    destruct (Ascii.eqb_spec ":" c) as [<-|]; [by vm_compute in Hc|done].
Qed.

Lemma volume_binds_own uid owned binds bs :
  volume_binds (UserVolumePrefix uid) owned binds = inr bs →
  forallb (own_bind (UserVolumePrefix uid)) bs = true ∧ (binds = [] ↔ bs = []).
Proof.
  set (prefix := UserVolumePrefix uid). revert bs. induction binds as [|b binds IH]; intros bs.
  { intros [= <-]. done. }
  unfold volume_binds. cbn [foldr]. fold (volume_binds prefix owned binds).
  destruct (splitBindSrc b) as [src rest] eqn:E.
  destruct (HasPrefix src "/" || HasPrefix src prefix) eqn:F.
  - destruct (volume_binds prefix owned binds) as [|l]; [done|]. intros [= <-]. cbn [forallb].
    destruct (IH l eq_refl) as [-> _]. unfold own_bind at 1. rewrite E. cbn [fst]. by rewrite F.
  - destruct (negb _); [done|]. destruct (volume_binds prefix owned binds) as [|l]; [done|]. intros Hinj.
    assert (bs = (prefix +:+ src +:+ rest) :: l) as -> by (by injection Hinj).
    cbn [forallb]. destruct (IH l eq_refl) as [-> _]. split; [|done]. rewrite andb_true_r.
    apply splitBindSrc_spec in E as (_ & Hc & Hr). unfold own_bind.
    rewrite app_assoc_str, (splitBindSrc_app (prefix +:+ src) rest); [|unfold no_colon|done].
    + cbn [fst]. by rewrite HasPrefix_app, orb_true_r.
    + rewrite str_forallb_app. apply andb_true_iff. split; [apply volume_prefix_no_colon|done].
Qed.

(** A mount whose raw object names its source once. *)
Definition plain_mount (raw : json) : Prop :=
  match raw with JObj mkvs => unambiguous ["Source"] mkvs | _ => True end.

Definition vol_mount_of (raw : json) : VolMount := (decode_vol_mount (mkVolMount "" "" "") raw).1.

Lemma set_source_own prefix src raw :
  plain_mount raw → (∃ mkvs, raw = JObj mkvs) →
  vm_Source (vol_mount_of (set_source (prefix +:+ src) raw)) = prefix +:+ src.
Proof.
  intros Hp [mkvs ->]. unfold set_source. cbn [unmarshal_map].
  pose proof (top_field_insert decode_string mkvs "Source" (JStr (prefix +:+ src)) "" Hp) as H.
  unfold vol_mount_of. unfold marshal_map, top_field in *.
  cbn [decode_vol_mount decode_struct fst vm_Source]. by rewrite H.
Qed.

Lemma volume_mounts_own prefix owned raws raws' :
  Forall plain_mount raws →
  volume_mounts prefix owned (vol_mount_of <$> raws) raws = inr raws' →
  forallb (λ raw, own_mount prefix (vol_mount_of raw)) raws' = true.
Proof.
  intros Hp. revert raws'. induction Hp as [|raw raws Hraw _ IH]; intros raws'; [by intros [= <-]|].
  csimpl. unfold volume_mount_source. fold (vol_mount_of raw).
  assert (∀ l, volume_mounts prefix owned (vol_mount_of <$> raws) raws = inr l →
            forallb (λ raw, own_mount prefix (vol_mount_of raw)) l = true) as IH' by auto.
  destruct (negb (EqualFold (vm_Type (vol_mount_of raw)) "volume") || (vm_Source (vol_mount_of raw) ==s "")) eqn:E1.
  - destruct (volume_mounts _ _ _ raws) as [|l] eqn:F; [done|]. intros [= <-]. cbn [forallb]. rewrite IH by done.
    unfold own_mount. by rewrite E1.
  - destruct (HasPrefix (vm_Source (vol_mount_of raw)) prefix) eqn:E2.
    + destruct (volume_mounts _ _ _ raws) as [|l] eqn:F; [done|]. intros [= <-]. cbn [forallb]. rewrite IH by done.
      unfold own_mount. by rewrite E2, orb_true_r.
    + destruct (negb (existsb _ _)); [done|]. destruct (volume_mounts _ _ _ raws) as [|l] eqn:F; [done|]. intros Hinj.
      assert (raws' = set_source (prefix +:+ vm_Source (vol_mount_of raw)) raw :: l) as -> by (by injection Hinj).
      cbn [forallb]. rewrite IH by done. unfold own_mount. rewrite set_source_own; [|done|].
      * by rewrite HasPrefix_app, orb_true_r.
      * apply orb_false_iff in E1 as [_ E1]. destruct raw; [discriminate E1..|eauto].
Qed.

(** A creation whose host configuration names its volumes unambiguously. *)
Definition plain_volumes (kvs : list (string * json)) : Prop :=
  unambiguous ["HostConfig"] kvs ∧
  ∃ hkvs, obj_map kvs !! "HostConfig" = Some (JObj hkvs) ∧ unambiguous ["Binds"; "Mounts"] hkvs ∧
    ∀ raws, obj_map hkvs !! "Mounts" = Some (JArr raws) → Forall plain_mount raws.

Lemma decode_strings_JStr l cur : decode_strings cur (JArr (JStr <$> l)) = (l, true).
Proof.
  unfold decode_strings, decode_list. f_equal.
  - rewrite <- list_fmap_compose. induction l as [|x l IH]; [done|]. csimpl. by f_equal.
  - apply forallb_forall. intros v (s & -> & _)%list_elem_of_In%list_elem_of_fmap. done.
Qed.

Definition binds_and_mounts : list string := ["Binds"; "Mounts"].

(** What the daemon decodes of an encoded host configuration. *)
Lemma decode_volumes_encoded hkvs hc :
  unambiguous binds_and_mounts hkvs → (∀ k, is_Some (hc !! k) → k ∈ binds_and_mounts ∨ k ∈ hkvs.*1) →
  (decode_host_volumes (mkHostVolumes [] []) (marshal_map hc)).1 =
  mkHostVolumes (match hc !! "Binds" with Some v => (decode_strings [] v).1 | None => [] end)
    (match hc !! "Mounts" with Some v => (decode_vol_mounts [] v).1 | None => [] end).
Proof.
  intros Hu Hk. unfold marshal_map. cbn [decode_host_volumes decode_struct fst hv_Binds hv_Mounts].
  assert (∀ f g, f ∈ binds_and_mounts → g ∈ binds_and_mounts → key_is f g = true → g = f) as Hd
    by (intros f g; apply distinct_fields_spec; by vm_compute).
  f_equal; apply (field_encoded _ binds_and_mounts hkvs hc); try done; unfold binds_and_mounts; set_solver.
Qed.

Lemma decode_volumes_members hkvs :
  unambiguous binds_and_mounts hkvs →
  (decode_host_volumes (mkHostVolumes [] []) (JObj hkvs)).1 =
  mkHostVolumes (match obj_map hkvs !! "Binds" with Some v => (decode_strings [] v).1 | None => [] end)
    (match obj_map hkvs !! "Mounts" with Some v => (decode_vol_mounts [] v).1 | None => [] end).
Proof.
  intros Hu. cbn [decode_host_volumes decode_struct fst hv_Binds hv_Mounts].
  f_equal; apply (field_obj_map _ binds_and_mounts); try done; unfold binds_and_mounts; set_solver.
Qed.

Lemma rewritten_mounts prefix owned hc raw hc' :
  match raw with Some (JArr raws) => Forall plain_mount raws | _ => True end →
  hc !! "Mounts" = raw →
  rewrite_mounts prefix owned (match raw with Some v => (decode_vol_mounts [] v).1 | None => [] end) raw hc = inr hc' →
  hc' !! "Binds" = hc !! "Binds" ∧ (∀ k, k ≠ "Mounts" → hc' !! k = hc !! k) ∧
  forallb (own_mount prefix) (match hc' !! "Mounts" with Some v => (decode_vol_mounts [] v).1 | None => [] end) = true.
Proof.
  intros Hp Hraw Hr.
  assert (∀ l, forallb (own_mount prefix) (vol_mount_of <$> l) = forallb (λ raw, own_mount prefix (vol_mount_of raw)) l)
    as Hfm by (induction l as [|x l IH]; [done|]; csimpl; by rewrite IH).
  destruct raw as [[| | | | |raws|]|]; cbn [decode_vol_mounts decode_list fst rewrite_mounts] in Hr;
    try (injection Hr as <-; split_and!; [done|done|]; rewrite Hraw; reflexivity).
  destruct ((λ v, (decode_vol_mount (mkVolMount "" "" "") v).1) <$> raws) as [|m ms] eqn:E.
  - apply fmap_nil_inv in E as ->. injection Hr as <-. split_and!; [done|done|]. by rewrite Hraw.
  - cbn [rewrite_mounts] in Hr. destruct (volume_mounts prefix owned (m :: ms) raws) as [|raws'] eqn:F; [done|]. injection Hr as <-.
    rewrite <- E in F. fold vol_mount_of in F.
    split_and!; [by rewrite lookup_insert_ne|intros k Hk; by rewrite lookup_insert_ne|].
    rewrite lookup_insert_eq. cbn [decode_vol_mounts decode_list fst]. fold vol_mount_of. rewrite Hfm.
    by apply (volume_mounts_own prefix owned raws raws').
Qed.

(** The rewritten host configuration decodes to volumes of the user. *)
Lemma rewrite_volumes_own uid owned hkvs hc' :
  let prefix := UserVolumePrefix uid in
  unambiguous binds_and_mounts hkvs →
  (∀ raws, obj_map hkvs !! "Mounts" = Some (JArr raws) → Forall plain_mount raws) →
  rewrite_volumes prefix owned (decode_host_volumes (mkHostVolumes [] []) (JObj hkvs)).1 (obj_map hkvs) = inr hc' →
  let h' := (decode_host_volumes (mkHostVolumes [] []) (marshal_map hc')).1 in
  forallb (own_bind prefix) (hv_Binds h') = true ∧ forallb (own_mount prefix) (hv_Mounts h') = true.
Proof.
  intros prefix Hu Hraws. cbv zeta. rewrite (decode_volumes_members hkvs Hu).
  set (hc := obj_map hkvs) in *. unfold rewrite_volumes. cbn [hv_Binds hv_Mounts].
  set (binds := match hc !! "Binds" with Some v => (decode_strings [] v).1 | None => [] end).
  destruct (volume_binds prefix owned binds) as [|bs] eqn:Eb; [done|].
  apply volume_binds_own in Eb as [Hbs Hnil]. fold prefix in Hbs.
  set (hc1 := match binds with [] => hc | _ => _ end). intros Hm.
  assert (∀ k, k ≠ "Binds" → hc1 !! k = hc !! k) as Hhc1
    by (intros k Hk; unfold hc1; destruct binds; by rewrite ?lookup_insert_ne).
  assert (match hc1 !! "Binds" with Some v => (decode_strings [] v).1 | None => [] end = bs) as Hbinds.
  { unfold hc1. destruct binds eqn:E; [fold binds; rewrite E; symmetry; by apply Hnil|].
    by rewrite lookup_insert_eq, decode_strings_JStr. }
  assert (∀ k, is_Some (hc1 !! k) → k ∈ binds_and_mounts ∨ k ∈ hkvs.*1) as Hkeys.
  { intros k Hk. destruct (decide (k = "Binds")) as [->|Hne]; [left; left|].
    rewrite Hhc1 in Hk by done. right. by apply obj_map_key. }
  rewrite Hhc1 in Hm by done.
  destruct (rewritten_mounts prefix owned hc1 (hc !! "Mounts") hc') as (H1 & H2 & H3); [|by apply Hhc1|exact Hm|].
  - destruct (hc !! "Mounts") as [[| | | | |raws|]|] eqn:E; try done. by apply Hraws.
  - rewrite (decode_volumes_encoded hkvs hc' Hu).
    + cbn [hv_Binds hv_Mounts]. rewrite H1, Hbinds. split; [done|exact H3].
    + intros k Hk. destruct (decide (k = "Mounts")) as [->|Hne]; [left; right; left|].
      apply Hkeys. by rewrite <- H2.
Qed.

(** Named volumes are the user's.  From a body that names its host
    configuration, binds and mounts once, and with the database answering, an
    accepted creation of a user other than root is forwarded as a body in which
    (as the daemon decodes it) every bind names a path or a volume with the user's
    prefix, and every mount of type volume has a source with that prefix or none. *)
Theorem named_volumes_own {D} `{VolumeReader D} kvs uid (db : D) owned b' :
  uid ≠ 0%Z → plain_volumes kvs → volume_names_of uid db = inr owned →
  unmarshal_as (decode_host_config decode_host_volumes (mkHostVolumes [] [])) (mkHostVolumes [] []) (JObj kvs) ≠ None →
  ValidateAndRewriteNamedVolumes (Doc (JObj kvs)) uid db = Returns (inr b') →
  ∃ j', b' = Doc j' ∧
    let h' := top_field decode_host_volumes "HostConfig" (mkHostVolumes [] []) j' in
    forallb (own_bind (UserVolumePrefix uid)) (hv_Binds h') = true ∧
    forallb (own_mount (UserVolumePrefix uid)) (hv_Mounts h') = true.
Proof.
  intros Hu (Htop & hkvs & Hhc & Hh & Hraws) Hown Hdec Hv.
  unfold ValidateAndRewriteNamedVolumes in Hv. apply Z.eqb_neq in Hu. rewrite Hu, Hown in Hv.
  cbn [unmarshal_map] in Hv. unfold unmarshal_as in Hv, Hdec.
  unfold decode_host_config in Hv, Hdec. cbn [decode_struct] in Hv, Hdec.
  rewrite (field_obj_map _ ["HostConfig"]), Hhc in Hv by (done || left).
  destruct (field_ok _ _ _ _); [|done].
  change (default ∅ (Some (obj_map kvs))) with (obj_map kvs) in Hv. rewrite Hhc in Hv.
  cbn [fmap option_fmap option_map unmarshal_map] in Hv.
  destruct (rewrite_volumes _ _ _ _) as [|hc'] eqn:E; [done|]. injection Hv as <-.
  eexists. split; [reflexivity|]. cbv zeta. rewrite top_field_insert by done.
  by apply (rewrite_volumes_own uid owned hkvs hc').
Qed.

(** A mount listed under another spelling of [Mounts] is never looked at: a
    creation naming any volume there (another user's, say) is accepted and
    forwarded so that the daemon decodes that very source, whatever the database
    says the user owns. *)
Theorem misspelt_mounts_are_not_checked {D} `{VolumeReader D} uid (db : D) base home src target :
  uid ≠ 0%Z →
  let mount := JObj [("Type", JStr "volume"); ("Source", JStr src); ("Target", JStr target)] in
  let b := Doc (JObj [("HostConfig", JObj [("mounts", JArr [mount])])]) in
  ValidateBindMounts b base uid home = None ∧
  ∃ j', ValidateAndRewriteNamedVolumes b uid db = Returns (inr (Doc j')) ∧
    hv_Mounts (top_field decode_host_volumes "HostConfig" (mkHostVolumes [] []) j') =
      [mkVolMount "volume" src target].
Proof.
  intros Hu mount b. split.
  - unfold ValidateBindMounts. apply Z.eqb_neq in Hu. rewrite Hu.
    assert (parseBindMounts b = []) as -> by (vm_compute; reflexivity). reflexivity.
  - exists (JObj [("HostConfig", JObj [("mounts", JArr [mount])])]).
    split; [|vm_compute; reflexivity].
    unfold ValidateAndRewriteNamedVolumes. apply Z.eqb_neq in Hu. rewrite Hu.
    destruct (volume_names_of uid db) as [|owned]; [reflexivity|]. unfold b.
    vm_compute. reflexivity.
Qed.

(** The options of a volume mount are not looked at: a creation that mounts a
    new volume with the user's prefix and any driver options (those that make the
    local driver bind a host directory, say) passes the check of bind mounts and
    of named volumes, and is forwarded with these options. *)
Theorem volume_options_are_not_checked {D} `{VolumeReader D} uid (db : D) base home name target options :
  uid ≠ 0%Z →
  let source := UserVolumePrefix uid +:+ name in
  let mount := JObj [("Source", JStr source); ("Target", JStr target); ("Type", JStr "volume");
                     ("VolumeOptions", options)] in
  let b := Doc (JObj [("HostConfig", JObj [("Mounts", JArr [mount])])]) in
  ValidateBindMounts b base uid home = None ∧
  ValidateAndRewriteNamedVolumes b uid db = Returns (inr b).
Proof.
  intros Hu source mount b. split.
  - unfold ValidateBindMounts. apply Z.eqb_neq in Hu. rewrite Hu.
    assert (parseBindMounts b = []) as -> by (vm_compute; reflexivity). reflexivity.
  - unfold ValidateAndRewriteNamedVolumes. apply Z.eqb_neq in Hu. rewrite Hu.
    destruct (volume_names_of uid db) as [|owned]; [reflexivity|]. unfold b.
    assert (HasPrefix source (UserVolumePrefix uid) = true) as Hp by apply HasPrefix_app.
    set (p := UserVolumePrefix uid) in *. clearbody p source. subst mount.
    unfold unmarshal_as. cbn [unmarshal_map]. 
    assert (decode_host_config decode_host_volumes (mkHostVolumes [] []) (mkHostVolumes [] [])
      (JObj [("HostConfig", JObj [("Mounts", JArr [JObj [("Source", JStr source); ("Target", JStr target); ("Type", JStr "volume");
                     ("VolumeOptions", options)]])])]) = (mkHostVolumes [] [mkVolMount "volume" source target], true)) as ->
      by (vm_compute; reflexivity).
    unfold rewrite_volumes.
    assert (∀ x : json, obj_map [("HostConfig", x)] !! "HostConfig" = Some x) as Hh by (intros; by vm_compute).
    assert (∀ x : json, obj_map [("Mounts", x)] !! "Mounts" = Some x) as Hm by (intros; by vm_compute).
    change (default ∅ (Some ?m)) with m. rewrite Hh. cbn [fmap option_fmap option_map unmarshal_map hv_Binds hv_Mounts volume_binds foldr].
    rewrite Hm. cbn [rewrite_mounts volume_mounts]. unfold volume_mount_source. cbn [vm_Type vm_Source].
    replace (negb (EqualFold "volume" "volume")) with false by (by vm_compute). cbn [orb].
    destruct (source ==s ""); cbn [orb]; rewrite ?Hp; cbn [map_inr]; vm_compute; reflexivity.
Qed.

(** ** Examples *)

Module BodiesDemo.

Definition alice : CallerIdentity := ImageDemo.alice.

Definition create_members : list (string * json) :=
  [("Image", JStr "alpine"); ("Labels", JObj [("app", JStr "web"); (LabelOwnerUID, JStr "0")])].
Definition create_labelled : json :=
  match InjectSystemLabels (Doc (JObj create_members)) alice with Returns (Doc j) => j | _ => JNull end.

Definition volume_members : list (string * json) :=
  [("HostConfig",
    JObj [("Binds", JArr [JStr "data:/data:ro"; JStr "/srv/x:/x"]);
          ("Mounts", JArr [JObj [("Type", JStr "volume"); ("Source", JStr "cache"); ("Target", JStr "/c")]])])].
(** alice owns the volumes [data] and [cache]. *)
Definition volumes_db : OwnershipDB :=
  (SetVolumeOwner 2 "user-1001-volume-cache" alice (SetVolumeOwner 1 "user-1001-volume-data" alice initSchema).2).2.
Definition volumes_owned : list string :=
  match GetVolumeNamesByOwner 1001 volumes_db with inr l => l | inl _ => [] end.
Definition volumes_forwarded : body :=
  match ValidateAndRewriteNamedVolumes (Doc (JObj volume_members)) 1001 volumes_db with
  | Returns (inr b) => b
  | _ => InvalidBody
  end.

Example volumes_rewritten :
  volumes_forwarded =
  Doc (JObj [("HostConfig",
    JObj [("Binds", JArr [JStr "user-1001-volume-data:/data:ro"; JStr "/srv/x:/x"]);
          ("Mounts", JArr [JObj [("Source", JStr "user-1001-volume-cache"); ("Target", JStr "/c"); ("Type", JStr "volume")]])])]).
Proof. vm_compute. reflexivity. Qed.

(** bob may not mount them. *)
Example foreign_volume_refused :
  ValidateAndRewriteNamedVolumes (Doc (JObj volume_members)) 1002 volumes_db = Returns (inl "data").
Proof. vm_compute. reflexivity. Qed.

End BodiesDemo.

Lemma created_container_is_labelled_witness :
  ∃ l, top_field decode_string_map "Labels" None BodiesDemo.create_labelled = Some l ∧
    GetLastLabelValue (map_get l LabelOwnerUID) = "1001" ∧ map_get l "app" = "web".
Proof.
  destruct (created_container_is_labelled BodiesDemo.create_members BodiesDemo.alice BodiesDemo.create_labelled)
    as (l & Hl & H1 & _ & _ & _ & _ & H2);
    [by apply unambiguousb_spec; vm_compute|vm_compute; reflexivity|vm_compute; reflexivity|vm_compute; reflexivity|].
  exists l. split_and!; [exact Hl|exact H1|]. rewrite H2; [vm_compute; reflexivity|].
  apply (bool_decide_eq_true_1 _). vm_compute. reflexivity.
Defined.

Lemma created_names_are_prefixed_witness :
  ∃ j' n, InjectNetworkNamePrefixWithName (Doc (JObj [("Name", JStr "net")])) BodiesDemo.alice = Returns (Doc j', n) ∧
    top_field decode_string "Name" "" j' = n ∧ HasPrefix n "alice_u1001_" = true.
Proof.
  refine (proj2 (created_names_are_prefixed [("Name", JStr "net")] BodiesDemo.alice _)).
  by apply unambiguousb_spec; vm_compute.
Defined.

Lemma named_volumes_own_witness :
  ∃ j', BodiesDemo.volumes_forwarded = Doc j' ∧
    let h' := top_field decode_host_volumes "HostConfig" (mkHostVolumes [] []) j' in
    forallb (own_bind (UserVolumePrefix 1001)) (hv_Binds h') = true ∧
    forallb (own_mount (UserVolumePrefix 1001)) (hv_Mounts h') = true.
Proof.
  apply (named_volumes_own BodiesDemo.volume_members 1001 BodiesDemo.volumes_db BodiesDemo.volumes_owned);
    [done| |vm_compute; reflexivity|vm_compute; discriminate|vm_compute; reflexivity].
  split; [by apply unambiguousb_spec; vm_compute|]. eexists. split; [vm_compute; reflexivity|].
  split; [by apply unambiguousb_spec; vm_compute|]. intros raws.
  assert (∀ v w : json, obj_map [("Binds", v); ("Mounts", w)] !! "Mounts" = Some w) as -> by (intros; by vm_compute).
  intros [= <-]. apply Forall_singleton. by apply unambiguousb_spec; vm_compute.
Defined.

Lemma misspelt_mounts_are_not_checked_witness :
  ∃ j', ValidateAndRewriteNamedVolumes
          (Doc (JObj [("HostConfig", JObj [("mounts", JArr [JObj [("Type", JStr "volume");
             ("Source", JStr "user-1002-volume-data"); ("Target", JStr "/x")]])])])) 1001 BodiesDemo.volumes_db
        = Returns (inr (Doc j')) ∧
    hv_Mounts (top_field decode_host_volumes "HostConfig" (mkHostVolumes [] []) j') =
      [mkVolMount "volume" "user-1002-volume-data" "/x"].
Proof.
  refine (proj2 (misspelt_mounts_are_not_checked 1001 BodiesDemo.volumes_db StorageDemo.base ""
                   "user-1002-volume-data" "/x" _)). done.
Defined.

Lemma volume_options_are_not_checked_witness :
  let b := Doc (JObj [("HostConfig", JObj [("Mounts", JArr [JObj [("Source", JStr (UserVolumePrefix 1001 +:+ "v"));
     ("Target", JStr "/x"); ("Type", JStr "volume");
     ("VolumeOptions", JObj [("DriverConfig", JObj [("Options", JObj [("device", JStr "/etc"); ("o", JStr "bind")])])])]])])]) in
  ValidateAndRewriteNamedVolumes b 1001 BodiesDemo.volumes_db = Returns (inr b).
Proof.
  refine (proj2 (volume_options_are_not_checked 1001 BodiesDemo.volumes_db StorageDemo.base "" "v" "/x" _ _)). done.
Defined.
