(* ===== verification/Filter.v ===== *)
(** * Filter: what lists show to a user

    [internal/isolation/filter.go] with [FilterNetworkListResponse] of network.go
    and [FilterVolumeListResponse] of volume.go: the daemon's answers to list
    requests, reduced to what the user may see and shown under the names the user
    gave.  The filters read the ownership records through [OwnershipReader]; what
    the implementation promises to them is [OwnershipReaderSpec]. *)

From S2P Require Import Prelude GoStrings GoJson OsLookup Identity Routes Tables Database ImageDB ResourceDB Names Quota Storage Bodies.

(** ** The interface *)

Class OwnershipReader (D : Type) := {
  container_ids_of : Z → D → result (list string);
  accessible_networks_of : Z → D → result (list string);
  owned_volumes_of : Z → D → result (list string);
  can_see_image : Z → string → D → bool;
  image_ids_of : Z → D → result (list string);
  service_ids_of : Z → D → result (list string);
  secret_ids_of : Z → D → result (list string);
  config_ids_of : Z → D → result (list string);
}.

#[export] Instance OwnershipDB_reader : OwnershipReader OwnershipDB := {
  container_ids_of := GetContainerIDsByOwner;
  accessible_networks_of := GetAccessibleNetworkIDs;
  owned_volumes_of := GetVolumeNamesByOwner;
  can_see_image := CanSeeImage;
  image_ids_of := GetImageIDsByOwner;
  service_ids_of := GetServiceIDsByOwner;
  secret_ids_of := GetSecretIDsByOwner;
  config_ids_of := GetConfigIDsByOwner;
}.

(** ** Decoding *)

(** [json.Unmarshal] into a [[]json.RawMessage]. *)
Definition decode_raws (cur : list json) (v : json) : list json * bool :=
  match v with JNull => ([], true) | JArr l => (l, true) | _ => (cur, false) end.
Definition unmarshal_raws (b : body) : option (list json) := unmarshal_body decode_raws [] b.

(** [[]string], nil told apart from empty: [null] is encoded for the first. *)
Definition decode_nil_strings (cur : option (list string)) (v : json) : option (list string) * bool :=
  match v with
  | JNull => (None, true)
  | _ => let '(l, ok) := decode_strings [] v in (if ok then Some l else cur, ok)
  end.
Definition marshal_nil_strings (l : option (list string)) : json :=
  match l with None => JNull | Some l => JArr (JStr <$> l) end.
(** A map that may be nil. *)
Definition marshal_nil_map (o : option (gmap string json)) : json :=
  match o with None => JNull | Some m => marshal_map m end.

Definition CountJSONArray (b : body) : nat := match unmarshal_raws b with Some l => length l | None => 0 end.

Definition decode_volumes_field : list json → json → list json * bool :=
  decode_struct (λ kvs l, field decode_raws "Volumes" kvs l) (λ kvs, field_ok decode_raws "Volumes" kvs []).
Definition CountVolumeList (b : body) : nat :=
  match unmarshal_body decode_volumes_field [] b with Some l => length l | None => 0 end.

Definition emptyJSONArray : body := Doc (JArr []).

(** ** Ownership by id *)

(** The ids as the filters look them up: whole, and by their first 12 bytes. *)
Definition owned_set (ids : list string) : list string :=
  ids ≫= λ id, id :: (if (12 <=? slen id)%nat then [str_take 12 id] else []).
Definition elem (s : string) (l : list string) : bool := existsb (String.eqb s) l.
Definition id_matches (owned : list string) (id : string) : bool :=
  elem id owned || ((12 <=? slen id)%nat && elem (str_take 12 id) owned).

(** ** Containers *)

Record ContainerItem := mkContainerItem { ci_ID : string; ci_Labels : option (gmap string string) }.
Definition decode_container : ContainerItem → json → ContainerItem * bool :=
  decode_struct (λ kvs c, mkContainerItem (field decode_string "Id" kvs (ci_ID c))
                            (field decode_string_map "Labels" kvs (ci_Labels c)))
    (λ kvs, field_ok decode_string "Id" kvs "" && field_ok decode_string_map "Labels" kvs None).
Definition container_item (raw : json) : option ContainerItem :=
  unmarshal_as decode_container (mkContainerItem "" None) raw.

(** The number of a string of digits; it wraps around. *)
Fixpoint scan_uid (uid : Z) (s : string) : option Z :=
  match s with
  | "" => Some uid
  | String c r => if is_digit c then scan_uid (wrap64 (uid * 10 + digit_val c)) r else None
  end.
Definition parseUID (s : string) : Z := default (-1)%Z (scan_uid 0 s).

(** The labels of a container that is in no record. *)
Definition labels_match (labels : gmap string string) (realUID : Z) (realUsername : string) : bool :=
  if GetLastLabelValue (map_get labels LabelCallerType) ==s "sudo" then false else
  let uidStr := GetLastLabelValue (map_get labels LabelOwnerUID) in
  let by_uid := (uidStr !=s "") && (0 <=? parseUID uidStr)%Z && (parseUID uidStr =? realUID)%Z in
  let ownerName := GetLastLabelValue (map_get labels LabelOwner) in
  by_uid || ((ownerName !=s "") && (ownerName ==s realUsername)).

Definition container_visible (owned : list string) (realUID : Z) (realUsername : string) (raw : json) : bool :=
  match container_item raw with
  | None => false
  | Some item =>
    id_matches owned (ci_ID item) ||
    match ci_Labels item with None => false | Some labels => labels_match labels realUID realUsername end
  end.

(** [/user-{uid}-name] is shown as [/name]. *)
Definition strip_container_name (containerPrefix name : string) : string :=
  if HasPrefix name ("/" +:+ containerPrefix)
  then "/" +:+ str_drop (1 + slen containerPrefix) name else name.

Definition strip_container_names (containerPrefix : string) (raw : json) : json :=
  match unmarshal_map raw with
  | Some (Some item) =>
    match item !! "Names" with
    | Some namesRaw =>
      match unmarshal_as decode_strings [] namesRaw with
      | Some names =>
        if existsb (λ name, HasPrefix name ("/" +:+ containerPrefix)) names
        then marshal_map (<["Names" := JArr (JStr <$> (strip_container_name containerPrefix <$> names))]> item)
        else raw
      | None => raw
      end
    | None => raw
    end
  | _ => raw
  end.

Section filters.
Context {D : Type} `{OwnershipReader D} (db : D).

Definition FilterContainerListResponse (b : body) (realUID : Z) (realUsername : string) (privileged : bool)
    : body * error :=
  if privileged then (b, None) else
  match unmarshal_raws b with
  | None => (b, None)
  | Some containers =>
    match container_ids_of realUID db with
    | inl e => (emptyJSONArray, Some e)
    | inr ownedIDs =>
      let filtered := List.filter (container_visible (owned_set ownedIDs) realUID realUsername) containers in
      (Doc (JArr (strip_container_names (UserContainerPrefix realUID) <$> filtered)), None)
    end
  end.

(** ** Images *)

(** The images seen so far among those only seen, one entry for each id. *)
Fixpoint filter_images (realUID : Z) (ownedSet publicSeen : list string) (images : list json) : list json :=
  match images with
  | [] => []
  | raw :: images =>
    match unmarshal_as (decode_id "Id") "" raw with
    | None => filter_images realUID ownedSet publicSeen images
    | Some id =>
      if negb (can_see_image realUID id db) then filter_images realUID ownedSet publicSeen images
      else if elem (TrimPrefix id "sha256:") ownedSet then raw :: filter_images realUID ownedSet publicSeen images
      else if elem id publicSeen then filter_images realUID ownedSet publicSeen images
      else raw :: filter_images realUID ownedSet (id :: publicSeen) images
    end
  end.

(** The second component is set when the body is no array. *)
Definition FilterImageListResponse (b : body) (realUID : Z) (privileged : bool) : body * bool :=
  if privileged then (b, false) else
  match unmarshal_raws b with
  | None => (emptyJSONArray, true)
  | Some images =>
    let ownedIDs := match image_ids_of realUID db with inr ids => ids | inl _ => [] end in
    (Doc (JArr (filter_images realUID ownedIDs [] images)), false)
  end.

(** ** Swarm lists *)

Definition filter_swarm (owned : list string) (items : list json) : list json :=
  List.filter (λ raw, match unmarshal_as (decode_id "ID") "" raw with
                      | Some id => elem id owned
                      | None => false
                      end) items.
Definition filter_swarm_list (ids_of : Z → D → result (list string)) (b : body) (uid : Z) (privileged : bool)
    : body * bool :=
  if privileged then (b, false) else
  match unmarshal_raws b with
  | None => (emptyJSONArray, true)
  | Some items =>
    match ids_of uid db with
    | inl _ => (emptyJSONArray, true)
    | inr ownedIDs => (Doc (JArr (filter_swarm ownedIDs items)), false)
    end
  end.
Definition FilterServiceListResponse := filter_swarm_list service_ids_of.
Definition FilterSecretListResponse := filter_swarm_list secret_ids_of.
Definition FilterConfigListResponse := filter_swarm_list config_ids_of.

(** ** Networks and volumes *)

(** The item with its name stripped of the prefix, if it has it. *)
Definition strip_name (prefix name : string) (item : option (gmap string json)) : json :=
  if HasPrefix name prefix
  then marshal_nil_map ((<["Name" := JStr (TrimPrefix name prefix)]>) <$> item)
  else marshal_nil_map item.

(** The entry shown for an item that [own] holds of. *)
Definition named_entry (own : gmap string json → bool) (prefix : string) (raw : json) : option json :=
  match unmarshal_map raw with
  | None => None
  | Some item =>
    if own (default ∅ item) then Some (strip_name prefix (string_member (default ∅ item) "Name") item) else None
  end.

Definition network_entry (accessible : list string) (prefix : string) : json → option json :=
  named_entry (λ item, id_matches accessible (string_member item "Id") ||
                       HasPrefix (string_member item "Name") prefix) prefix.

(** The user name comes from the account database, not from the identity. *)
Definition network_list_prefix (os : OsFiles) (realUID : Z) : string :=
  LookupUsername os realUID +:+ "_u" +:+ Itoa realUID +:+ "_".

Definition FilterNetworkListResponse (os : OsFiles) (b : body) (realUID : Z) (privileged : bool) : body * bool :=
  if privileged then (b, false) else
  match unmarshal_raws b with
  | None => (emptyJSONArray, true)
  | Some networks =>
    match accessible_networks_of realUID db with
    | inl _ => (emptyJSONArray, true)
    | inr ids => (Doc (JArr (omap (network_entry (owned_set ids) (network_list_prefix os realUID)) networks)), false)
    end
  end.

Definition volume_entry (owned : list string) (prefix : string) : json → option json :=
  named_entry (λ item, elem (string_member item "Name") owned ||
                       HasPrefix (string_member item "Name") prefix) prefix.

Record VolumeList := mkVolumeList { vl_Volumes : list json; vl_Warnings : option (list string) }.
Definition decode_volume_list : VolumeList → json → VolumeList * bool :=
  decode_struct (λ kvs l, mkVolumeList (field decode_raws "Volumes" kvs (vl_Volumes l))
                            (field decode_nil_strings "Warnings" kvs (vl_Warnings l)))
    (λ kvs, field_ok decode_raws "Volumes" kvs [] && field_ok decode_nil_strings "Warnings" kvs None).
Definition volume_list_body (vs : list json) (warnings : option (list string)) : body :=
  Doc (JObj [("Volumes", JArr vs); ("Warnings", marshal_nil_strings warnings)]).

Definition FilterVolumeListResponse (b : body) (realUID : Z) (privileged : bool) : body :=
  if privileged then b else
  match unmarshal_body decode_volume_list (mkVolumeList [] None) b with
  | None => volume_list_body [] None
  | Some resp =>
    match owned_volumes_of realUID db with
    | inl _ => volume_list_body [] None
    | inr ownedNames =>
      volume_list_body (omap (volume_entry ownedNames (UserVolumePrefix realUID)) (vl_Volumes resp))
        (vl_Warnings resp)
    end
  end.
(** ** System usage *)

Definition decode_items : list json → json → list json * bool :=
  decode_struct (λ kvs l, field decode_raws "Items" kvs l) (λ kvs, field_ok decode_raws "Items" kvs []).
Definition extractItems (usageRaw : json) : list json := (decode_items [] usageRaw).1.

(** The array at the top, or the items of the usage field when it is empty. *)
Definition df_items (rawMap : gmap string json) (top usage : string) : list json :=
  match unmarshal_ignored decode_raws [] (rawMap !! top) with
  | [] => match rawMap !! usage with Some u => extractItems u | None => [] end
  | items => items
  end.

Definition rebuildUsageField (orig : option json) (items : list json) (kind : string) : option json :=
  (λ usage,
    let totalCount := JInt (Z.of_nat (length items)) in
    let m := <["Items" := JArr items]> (<["TotalCount" := totalCount]> (obj_of usage)) in
    let m := match m !! "ActiveCount" with Some _ => <["ActiveCount" := totalCount]> m | None => m end in
    let m := <["TotalSize" := JInt 0]> m in
    marshal_map (if kind ==s "container" then <["Reclaimable" := JInt 0]> m else m)) <$> orig.

Definition EmptySystemDFBody : body :=
  Doc (JObj [("LayersSize", JInt 0); ("Images", JArr []); ("Containers", JArr []); ("Volumes", JArr []);
             ("BuildCache", JArr [])]).

Definition df_containers (owned : list string) (items : list json) : list json :=
  List.filter (λ raw, match unmarshal_as (decode_id "Id") "" raw with
                      | Some id => id_matches owned id
                      | None => false
                      end) items.
Definition df_images (realUID : Z) (items : list json) : list json :=
  List.filter (λ raw, match unmarshal_as (decode_id "Id") "" raw with
                      | Some id => can_see_image realUID id db
                      | None => false
                      end) items.
Definition df_volume (owned : list string) (volPrefix : string) (raw : json) : option json :=
  match unmarshal_as (decode_id "Name") "" raw with
  | None => None
  | Some name =>
    if elem name owned || HasPrefix name volPrefix then
      Some (if HasPrefix name volPrefix then
              match unmarshal_map raw with
              | Some (Some item) => marshal_map (<["Name" := JStr (TrimPrefix name volPrefix)]> item)
              | _ => raw
              end
            else raw)
    else None
  end.

(** A member left out when there is nothing to say. *)
Definition omitempty (name : string) (v : option json) : list (string * json) :=
  match v with Some v => [(name, v)] | None => [] end.

(** The document the user gets for the items kept. *)
Definition df_document (rawMap : gmap string json) (images containers volumes : list json) : json :=
  let imageUsage := rebuildUsageField (rawMap !! "ImageUsage") images "image" in
  let containerUsage := rebuildUsageField (rawMap !! "ContainerUsage") containers "container" in
  let volumeUsage := rebuildUsageField (rawMap !! "VolumeUsage") volumes "volume" in
  let usages := omitempty "ImageUsage" imageUsage ++ omitempty "ContainerUsage" containerUsage ++
                omitempty "VolumeUsage" volumeUsage in
  match rawMap !! "Images", rawMap !! "ImageUsage" with
  | None, Some _ => marshal_map (list_to_map (usages ++ omitempty "BuildCacheUsage" (rawMap !! "BuildCacheUsage")))
  | _, _ =>
    JObj ([("LayersSize", JInt 0); ("Images", JArr images); ("Containers", JArr containers); ("Volumes", JArr volumes);
           ("BuildCache", JArr (unmarshal_ignored decode_raws [] (rawMap !! "BuildCache")))] ++ usages)
  end.

Definition FilterSystemDFResponse (b : body) (realUID : Z) (privileged : bool) : body * error :=
  if privileged then (b, None) else
  match b with
  | Doc j =>
    match unmarshal_map j with
    | None => (b, None)
    | Some o =>
      let rawMap := default ∅ o in
      match container_ids_of realUID db with
      | inl e => (EmptySystemDFBody, Some e)
      | inr ownedContainerIDs =>
        let containers := df_containers (owned_set ownedContainerIDs) (df_items rawMap "Containers" "ContainerUsage") in
        let images := df_images realUID (df_items rawMap "Images" "ImageUsage") in
        match owned_volumes_of realUID db with
        | inl e => (EmptySystemDFBody, Some e)
        | inr ownedVolNames =>
          let volumes := omap (df_volume ownedVolNames (UserVolumePrefix realUID))
                              (df_items rawMap "Volumes" "VolumeUsage") in
          (Doc (df_document rawMap images containers volumes), None)
        end
      end
    end
  | _ => (b, None)
  end.
End filters.

(** ** Swarm tokens *)

Definition token_mask : string := "****************************************".
Definition masked_tokens : json :=
  JObj [("Worker", JStr token_mask); ("Manager", JStr token_mask); ("_hint", JStr "如需加入集群，请联系管理员")].

Definition FilterSwarmInspectResponse (b : body) (privileged : bool) : run body :=
  if privileged then Returns b
  else rewrite_object (λ raw, Some (<["JoinTokens" := masked_tokens]> raw)) b.

(** ** What the records promise to the filters *)

(** The ownership relations behind the answers; a failing store answers no
    question and shows no image. *)
Class OwnershipReaderSpec (D : Type) `{OwnershipReader D} := {
  owns_container : Z → string → D → Prop;
  may_access_network : Z → string → D → Prop;
  owns_volume : Z → string → D → Prop;
  owns_service : Z → string → D → Prop;
  owns_secret : Z → string → D → Prop;
  owns_config : Z → string → D → Prop;
  store_down : D → Prop;
  container_ids_spec uid (db : D) ids : container_ids_of uid db = inr ids → ∀ id, id ∈ ids ↔ owns_container uid id db;
  networks_spec uid (db : D) ids : accessible_networks_of uid db = inr ids → ∀ id, id ∈ ids ↔ may_access_network uid id db;
  volumes_spec uid (db : D) ids : owned_volumes_of uid db = inr ids → ∀ id, id ∈ ids ↔ owns_volume uid id db;
  services_spec uid (db : D) ids : service_ids_of uid db = inr ids → ∀ id, id ∈ ids ↔ owns_service uid id db;
  secrets_spec uid (db : D) ids : secret_ids_of uid db = inr ids → ∀ id, id ∈ ids ↔ owns_secret uid id db;
  configs_spec uid (db : D) ids : config_ids_of uid db = inr ids → ∀ id, id ∈ ids ↔ owns_config uid id db;
  down_answers uid (db : D) : store_down db →
    (∃ e, container_ids_of uid db = inl e) ∧ (∃ e, accessible_networks_of uid db = inl e) ∧
    (∃ e, owned_volumes_of uid db = inl e) ∧ (∃ e, service_ids_of uid db = inl e) ∧
    (∃ e, secret_ids_of uid db = inl e) ∧ (∃ e, config_ids_of uid db = inl e) ∧
    ∀ id, can_see_image uid id db = false;
}.

Lemma Query_inr {A} (q : OwnershipDB → A) d x : Query q d = inr x → x = q d.
Proof. unfold Query. destruct (db_down d); [done|]. congruence. Qed.
Lemma Query_down {A} (q : OwnershipDB → A) d : db_down d = true → Query q d = inl ErrEngine.
Proof. unfold Query. by intros ->. Qed.

(** The rows of a table under a condition, by their id. *)
Lemma elem_of_selected {R} (t : list R) (p : R → bool) (key : R → string) id :
  id ∈ key <$> tbl_select p t ↔ ∃ r, r ∈ t ∧ key r = id ∧ p r = true.
Proof.
  rewrite list_elem_of_fmap. setoid_rewrite elem_of_tbl_select. split.
  - intros (r & -> & Hr & Hp). eauto.
  - intros (r & Hr & <- & Hp). eauto.
Qed.

Definition db_owns_container (uid : Z) (id : string) (d : OwnershipDB) : Prop :=
  ∃ r, r ∈ containers d ∧ c_id r = id ∧ c_owner_uid r = uid ∧ c_privileged_context r = 0%Z.
Definition db_may_access_network (uid : Z) (id : string) (d : OwnershipDB) : Prop :=
  (∃ r, r ∈ networks d ∧ n_network_id r = id ∧ n_owner_uid r = uid ∧ n_privileged_context r = 0%Z) ∨
  (∃ r, r ∈ network_access d ∧ na_network_id r = id ∧ na_user_uid r = uid).
Definition db_owns_volume (uid : Z) (id : string) (d : OwnershipDB) : Prop :=
  ∃ r, r ∈ volumes d ∧ v_name r = id ∧ v_owner_uid r = uid ∧ v_privileged_context r = 0%Z.
Definition db_owns_swarm (t : list SwarmRow) (uid : Z) (id : string) : Prop :=
  ∃ r, r ∈ t ∧ s_id r = id ∧ s_owner_uid r = uid.

Lemma CanSeeImage_down uid id d : db_down d = true → CanSeeImage uid id d = false.
Proof. intros Hd. unfold CanSeeImage. by rewrite (resolve_down id d Hd). Qed.

#[export] Program Instance OwnershipDB_reader_spec : OwnershipReaderSpec OwnershipDB := {
  owns_container := db_owns_container;
  may_access_network := db_may_access_network;
  owns_volume := db_owns_volume;
  owns_service uid id d := db_owns_swarm (swarm_services d) uid id;
  owns_secret uid id d := db_owns_swarm (swarm_secrets d) uid id;
  owns_config uid id d := db_owns_swarm (swarm_configs d) uid id;
  store_down d := db_down d = true;
}.
Next Obligation.
  intros uid db ids ->%Query_inr id. unfold db_owns_container. rewrite elem_of_selected.
  by setoid_rewrite andb_true_iff; setoid_rewrite Z.eqb_eq.
Qed.
Next Obligation.
  intros uid db ids ->%Query_inr id. unfold db_may_access_network.
  rewrite elem_of_remove_dups, elem_of_app, !elem_of_selected.
  by setoid_rewrite andb_true_iff; setoid_rewrite Z.eqb_eq.
Qed.
Next Obligation.
  intros uid db ids ->%Query_inr id. unfold db_owns_volume. rewrite elem_of_selected.
  by setoid_rewrite andb_true_iff; setoid_rewrite Z.eqb_eq.
Qed.
Next Obligation. intros uid db ids ->%Query_inr id. rewrite elem_of_selected. by setoid_rewrite Z.eqb_eq. Qed.
Next Obligation. intros uid db ids ->%Query_inr id. rewrite elem_of_selected. by setoid_rewrite Z.eqb_eq. Qed.
Next Obligation. intros uid db ids ->%Query_inr id. rewrite elem_of_selected. by setoid_rewrite Z.eqb_eq. Qed.
Next Obligation.
  intros uid db Hd. pose proof @Query_down as Hq. split_and!; [by eexists; apply Hq..|].
  intros id. by apply CanSeeImage_down.
Qed.

(** ** Lemmas: ids *)

(** Docker's ids: equal, or equal in their first 12 bytes. *)
Definition same_id (own id : string) : Prop :=
  id = own ∨ 12 ≤ slen own ∧ 12 ≤ slen id ∧ str_take 12 id = str_take 12 own.

Lemma elem_spec s l : elem s l = true ↔ s ∈ l.
Proof.
  unfold elem. rewrite existsb_elem. split; [intros (x & Hx & ->%String.eqb_eq); done|].
  intros Hs. exists s. by rewrite eqb_str_refl.
Qed.

Lemma elem_of_owned_set ids s :
  s ∈ owned_set ids ↔ ∃ id, id ∈ ids ∧ (s = id ∨ 12 ≤ slen id ∧ s = str_take 12 id).
Proof.
  unfold owned_set. rewrite list_elem_of_bind.
  assert (∀ id, s ∈ id :: (if (12 <=? slen id)%nat then [str_take 12 id] else []) ↔
            s = id ∨ 12 ≤ slen id ∧ s = str_take 12 id) as E.
  { intros id. rewrite elem_of_cons. destruct (Nat.leb_spec 12 (slen id)).
    - rewrite list_elem_of_singleton. naive_solver.
    - rewrite elem_of_nil. naive_solver lia. }
  split; intros (id & H1 & H2); exists id; [apply E in H1|rewrite E]; auto.
Qed.

Lemma take_12_take s : str_take 12 (str_take 12 s) = str_take 12 s.
Proof. apply str_take_all. rewrite slen_take. lia. Qed.

Lemma id_matches_spec ids id :
  id_matches (owned_set ids) id = true ↔ ∃ own, own ∈ ids ∧ same_id own id.
Proof.
  unfold id_matches, same_id. rewrite orb_true_iff, andb_true_iff, Nat.leb_le, !elem_spec, !elem_of_owned_set.
  split.
  - intros [(own & Ho & [->|[Hl ->]])|[Hl (own & Ho & [Hs|[Hl' Hs]])]]; exists own; (split; [done|]); auto.
    + right. rewrite slen_take, take_12_take. split_and!; [done|lia|done].
    + right. rewrite <- Hs. rewrite take_12_take. split_and!; [|done|done]. rewrite slen_take. lia.
  - intros (own & Ho & [->|(Hl & Hl' & Hs)]); [left; eauto|]. right. split; [done|]. exists own. auto.
Qed.

(** ** Properties: containers *)

(** A container the user may see: recorded for the user, or, carrying labels,
    labelled with the user as the last owner and not made under sudo. *)
Definition visible_container {D} `{OwnershipReaderSpec D} (db : D) (uid : Z) (username : string) (raw : json) : Prop :=
  ∃ item, container_item raw = Some item ∧
    ((∃ own, owns_container uid own db ∧ same_id own (ci_ID item)) ∨
     (∃ labels, ci_Labels item = Some labels ∧ labels_match labels uid username = true)).

(** C13: A container list shows an unprivileged user exactly the containers that
    are the user's by record or by label, in order, each changed at most in its
    [Names]; and when the records cannot be read it shows none. *)
Theorem container_list_is_own {D} `{OwnershipReaderSpec D} (db : D) l uid username out err :
  FilterContainerListResponse db (Doc (JArr l)) uid username false = (out, err) →
  (err = None ∧ ∃ kept, out = Doc (JArr (strip_container_names (UserContainerPrefix uid) <$> kept)) ∧
     kept `sublist_of` l ∧ (∀ raw, raw ∈ kept ↔ raw ∈ l ∧ visible_container db uid username raw) ∧
     ∀ raw k, raw ∈ kept → k ≠ "Names" →
       obj_of (strip_container_names (UserContainerPrefix uid) raw) !! k = obj_of raw !! k) ∨
  (err ≠ None ∧ out = emptyJSONArray).
Proof.
  unfold FilterContainerListResponse. cbn [unmarshal_raws unmarshal_body unmarshal_as decode_raws].
  destruct (container_ids_of uid db) as [e|ids] eqn:E; intros [= <- <-]; [by right|left]. split; [done|].
  exists (List.filter (container_visible (owned_set ids) uid username) l). split_and!; [done|..].
  - clear. induction l as [|x l IH]; [constructor|]. simpl. case_match; by constructor.
  - intros raw. rewrite !list_elem_of_In, filter_In. f_equiv.
    unfold container_visible, visible_container. destruct (container_item raw) as [item|];
      [|split; [done|by intros (? & ? & _)]].
    rewrite orb_true_iff, id_matches_spec. setoid_rewrite (container_ids_spec uid db ids E).
    split.
    + intros Hv. exists item. split; [done|]. destruct (ci_Labels item); [|by left; destruct Hv].
      destruct Hv; eauto.
    + intros (item' & [= <-] & Hv). destruct (ci_Labels item); [|left; destruct Hv as [|(? & ? & ?)]; done].
      destruct Hv as [|(? & [= ->] & ?)]; auto.
  - intros raw k _ Hk. unfold strip_container_names.
    destruct (unmarshal_map raw) as [[item|]|] eqn:Hm; [|done..].
    assert (obj_of raw = item) as Hitem by (unfold obj_of; by rewrite Hm).
    repeat case_match; try done. unfold obj_of, marshal_map. cbn [unmarshal_map].
    rewrite obj_map_marshal, lookup_insert_ne by done. by rewrite <- Hitem.
Qed.

(** ** Properties: images *)

Definition image_id (raw : json) : option string := unmarshal_as (decode_id "Id") "" raw.
Definition with_id (id : string) (raw : json) : bool :=
  match image_id raw with Some i => i ==s id | None => false end.

Section image_lists.
Context {D : Type} `{OwnershipReaderSpec D} (db : D) (uid : Z) (owned : list string).

Lemma filter_images_sublist seen l : filter_images db uid owned seen l `sublist_of` l.
Proof.
  revert seen. induction l as [|raw l IH]; intros seen; [constructor|]. simpl.
  repeat case_match; by constructor.
Qed.

Lemma filter_images_visible seen l raw :
  raw ∈ filter_images db uid owned seen l → ∃ id, image_id raw = Some id ∧ can_see_image uid id db = true.
Proof.
  revert seen. induction l as [|r l IH]; intros seen; [by intros ?%elem_of_nil|]. simpl. unfold image_id in *.
  repeat case_match; bool_hyps; eauto; intros [->|?]%elem_of_cons; eauto.
Qed.

Lemma filter_images_owned seen l raw id :
  raw ∈ l → image_id raw = Some id → can_see_image uid id db = true →
  elem (TrimPrefix id "sha256:") owned = true → raw ∈ filter_images db uid owned seen l.
Proof.
  intros Hin Hid Hsee Ho. revert seen. unfold image_id in *.
  induction l as [|r l IH]; intros seen; [by apply elem_of_nil in Hin|].
  apply elem_of_cons in Hin as [<-|Hin]; simpl.
  - rewrite Hid, Hsee. simpl. rewrite Ho. left.
  - specialize (IH Hin). repeat case_match; rewrite ?elem_of_cons; auto.
Qed.

Lemma filter_images_complete seen l raw id :
  raw ∈ l → image_id raw = Some id → can_see_image uid id db = true →
  id ∈ seen ∨ ∃ raw', raw' ∈ filter_images db uid owned seen l ∧ image_id raw' = Some id.
Proof.
  intros Hin Hid Hsee. revert seen. unfold image_id in *.
  induction l as [|r l IH]; intros seen; [by apply elem_of_nil in Hin|].
  apply elem_of_cons in Hin as [<-|Hin]; simpl.
  - rewrite Hid, Hsee. simpl. destruct (elem _ owned); [right; exists raw; split; [left|done]|].
    destruct (elem id seen) eqn:E; [left; by apply elem_spec|right; exists raw; split; [left|done]].
  - specialize (IH Hin). destruct (unmarshal_as (decode_id "Id") "" r) as [i|] eqn:Hr; [|done].
    destruct (negb _); [done|]. destruct (elem _ owned); [destruct (IH seen) as [|(x & ? & ?)]; [auto|right; exists x; split; [by right|done]]|].
    destruct (elem i seen); [done|]. destruct (IH (i :: seen)) as [[->|?]%elem_of_cons|(x & ? & ?)]; [|auto|].
    + right. exists r. split; [left|done].
    + right. exists x. split; [by right|done].
Qed.

Lemma filter_images_once seen l id :
  elem (TrimPrefix id "sha256:") owned = false →
  length (List.filter (with_id id) (filter_images db uid owned seen l)) ≤ if elem id seen then 0 else 1.
Proof.
  intros Ho. revert seen. induction l as [|r l IH]; intros seen; [simpl; case_match; lia|].
  simpl. destruct (unmarshal_as (decode_id "Id") "" r) as [i|] eqn:Hr; [|apply IH].
  assert (with_id id r = (i ==s id)) as Hw by (unfold with_id, image_id; by rewrite Hr).
  destruct (negb _); [apply IH|]. destruct (String.eqb_spec i id) as [->|Hne].
  - rewrite Ho. destruct (elem id seen) eqn:E; [by specialize (IH seen); rewrite E in IH|].
    simpl. rewrite Hw. specialize (IH (id :: seen)). unfold elem in IH. simpl in IH.
    rewrite eqb_str_refl in IH. simpl in *. lia.
  - destruct (elem (TrimPrefix i _) owned); [simpl; rewrite Hw; apply IH|].
    destruct (elem i seen); [apply IH|]. simpl. rewrite Hw. specialize (IH (i :: seen)).
    unfold elem in *. simpl in IH. destruct (String.eqb_spec id i); [congruence|]. apply IH.
Qed.
End image_lists.

(** C14: An image list shows an unprivileged user exactly the images the user can
    see, in order: every entry is of a visible image, every visible image has an
    entry, an image of the user's own keeps all its entries and any other has one. *)
Theorem image_list_is_visible {D} `{OwnershipReaderSpec D} (db : D) l uid :
  let owned := match image_ids_of uid db with inr ids => ids | inl _ => [] end in
  ∃ l', FilterImageListResponse db (Doc (JArr l)) uid false = (Doc (JArr l'), false) ∧ l' `sublist_of` l ∧
    (∀ raw, raw ∈ l' → ∃ id, image_id raw = Some id ∧ can_see_image uid id db = true) ∧
    ∀ raw id, raw ∈ l → image_id raw = Some id → can_see_image uid id db = true →
      if elem (TrimPrefix id "sha256:") owned then raw ∈ l' else length (List.filter (with_id id) l') = 1.
Proof.
  intros owned. exists (filter_images db uid owned [] l). split_and!; [done|apply filter_images_sublist|..].
  - intros raw. apply filter_images_visible.
  - intros raw id Hin Hid Hsee. destruct (elem _ owned) eqn:E; [by apply (filter_images_owned db uid owned [] l raw id)|].
    pose proof (filter_images_once db uid owned [] l id E) as Hle. simpl in Hle.
    destruct (filter_images_complete db uid owned [] l raw id Hin Hid Hsee) as [?%elem_of_nil|(raw' & Hr & Hi)]; [done|].
    destruct (List.filter _ _) as [|x xs] eqn:F; [|simpl in *; destruct xs; simpl in *; lia].
    exfalso. assert (raw' ∈ List.filter (with_id id) (filter_images db uid owned [] l)) as Hf.
    { apply list_elem_of_In, filter_In. split; [by apply list_elem_of_In|]. unfold with_id. rewrite Hi. apply eqb_str_refl. }
    rewrite F in Hf. by apply elem_of_nil in Hf.
Qed.

(** ** Properties: networks and volumes *)

(** [raw] shown under the name without the prefix. *)
Definition shown_as (prefix : string) (raw shown : json) : Prop :=
  let name := string_member (obj_of raw) "Name" in
  (∀ k, k ≠ "Name" → obj_of shown !! k = obj_of raw !! k) ∧
  obj_of shown !! "Name" =
    if HasPrefix name prefix then Some (JStr (TrimPrefix name prefix)) else obj_of raw !! "Name".

Lemma obj_of_unmarshal raw o : unmarshal_map raw = Some o → obj_of raw = default ∅ o.
Proof. unfold obj_of. intros ->. by destruct o. Qed.

Lemma strip_name_shown prefix raw o :
  prefix ≠ "" → unmarshal_map raw = Some o →
  shown_as prefix raw (strip_name prefix (string_member (default ∅ o) "Name") o).
Proof.
  intros Hp Ho. unfold shown_as, strip_name. rewrite (obj_of_unmarshal raw o Ho).
  set (name := string_member (default ∅ o) "Name"). destruct o as [item|].
  - simpl. destruct (HasPrefix name prefix); cbn [fmap option_fmap option_map marshal_nil_map];
      rewrite obj_of_marshal; split; intros; by rewrite ?lookup_insert_eq, ?lookup_insert_ne.
  - assert (name = "") as -> by done. simpl. destruct (HasPrefix "" prefix) eqn:E; [|done].
    apply HasPrefix_slen in E. destruct prefix; [done|]. simpl in E. lia.
Qed.

(** What a list of entries shows is the user's, and all of it. *)
Lemma named_entries_shown own (mine : json → Prop) prefix (l : list json) :
  prefix ≠ "" → (∀ raw, own (obj_of raw) = true ↔ mine raw) →
  (∀ o, o ∈ omap (named_entry own prefix) l → ∃ raw, raw ∈ l ∧ mine raw ∧ shown_as prefix raw o) ∧
  (∀ raw, raw ∈ l → unmarshal_map raw ≠ None → mine raw →
     ∃ o, o ∈ omap (named_entry own prefix) l ∧ shown_as prefix raw o).
Proof.
  intros Hp Hown. setoid_rewrite list_elem_of_omap. unfold named_entry. split.
  - intros o (raw & Hr & Hn). exists raw. destruct (unmarshal_map raw) as [item|] eqn:Hi; [|done].
    rewrite <- Hown, (obj_of_unmarshal raw item Hi). destruct (own (default ∅ item)); [|done].
    injection Hn as <-. split_and!; [done..|by apply strip_name_shown].
  - intros raw Hr Hm Hmine. destruct (unmarshal_map raw) as [item|] eqn:Hi; [|done].
    eexists. split; [|by apply (strip_name_shown _ _ _ Hp Hi)]. exists raw. split; [done|]. rewrite Hi.
    apply Hown in Hmine. rewrite (obj_of_unmarshal raw item Hi) in Hmine. by rewrite Hmine.
Qed.

Lemma network_list_prefix_ne os uid : network_list_prefix os uid ≠ "".
Proof.
  unfold network_list_prefix. intros H%(f_equal slen). rewrite !slen_app in H. simpl in H. lia.
Qed.

(** Network and volume lists show an unprivileged user only the user's own.
    Every network shown is one the records let the user access or one named with
    the user's prefix, every volume shown one recorded for the user or named with
    the user's prefix, each changed only in its name, which has lost the prefix;
    and what is the user's by record or by name is shown. *)
Theorem named_lists_are_own {D} `{OwnershipReaderSpec D} (db : D) os uid l b names :
  (∀ out, FilterNetworkListResponse db os (Doc (JArr l)) uid false = (Doc (JArr out), false) →
     let prefix := network_list_prefix os uid in
     let own raw := (∃ id, may_access_network uid id db ∧ same_id id (string_member (obj_of raw) "Id")) ∨
                    HasPrefix (string_member (obj_of raw) "Name") prefix = true in
     (∀ o, o ∈ out → ∃ raw, raw ∈ l ∧ own raw ∧ shown_as prefix raw o) ∧
     (∀ raw, raw ∈ l → unmarshal_map raw ≠ None → own raw → ∃ o, o ∈ out ∧ shown_as prefix raw o)) ∧
  (owned_volumes_of uid db = inr names →
   ∀ vs ws, unmarshal_body decode_volume_list (mkVolumeList [] None) b = Some (mkVolumeList vs ws) →
     let prefix := UserVolumePrefix uid in
     let own raw := owns_volume uid (string_member (obj_of raw) "Name") db ∨
                    HasPrefix (string_member (obj_of raw) "Name") prefix = true in
     ∃ out, FilterVolumeListResponse db b uid false = volume_list_body out ws ∧
       (∀ o, o ∈ out → ∃ raw, raw ∈ vs ∧ own raw ∧ shown_as prefix raw o) ∧
       (∀ raw, raw ∈ vs → unmarshal_map raw ≠ None → own raw → ∃ o, o ∈ out ∧ shown_as prefix raw o)).
Proof.
  split.
  - intros out Hf prefix own. unfold FilterNetworkListResponse in Hf.
    cbn [unmarshal_raws unmarshal_body unmarshal_as decode_raws] in Hf.
    destruct (accessible_networks_of uid db) as [|ids] eqn:E; [done|]. injection Hf as <-.
    apply named_entries_shown; [apply network_list_prefix_ne|]. intros raw. unfold own.
    rewrite orb_true_iff, id_matches_spec. by setoid_rewrite (networks_spec uid db ids E).
  - intros E vs ws Hb prefix own. unfold FilterVolumeListResponse. rewrite Hb, E. simpl.
    eexists. split; [reflexivity|]. apply named_entries_shown; [done|]. intros raw.
    by rewrite orb_true_iff, elem_spec, (volumes_spec uid db names E).
Qed.

(** ** Properties: names shown and typed back *)

Lemma RewriteContainerURL_segment path q uid :
  let n := path_segment "/containers/" path in
  n ≠ "" → containerSpecialIDs n = false → Contains n ":" = false → isHexID n = false →
  HasPrefix n (UserContainerPrefix uid) = false →
  path_segment "/containers/" (u_Path (RewriteContainerURL (mkReqURL path q) uid)) = UserContainerPrefix uid +:+ n.
Proof.
  intros n Hne Hsp Hc Hhex Hp. destruct (path_segment_split "/containers/" path Hne) as (rest & Hs & Hno & Hrest).
  assert (cutSlash (str_drop (slen "/containers/") (StripAPIVersion path)) = n) as Hcut
    by (rewrite Hs, str_drop_app; by apply cutSlash_app).
  assert (HasPrefix (StripAPIVersion path) "/containers/" = true) as Hpre by (rewrite Hs; apply HasPrefix_app).
  unfold RewriteContainerURL. cbn [u_Path u_Query].
  destruct (String.eqb_spec (StripAPIVersion path) "/commit") as [E|_]; [by rewrite E in Hpre|].
  rewrite Hpre. cbn [negb]. rewrite Hcut, Hsp, Hhex, Hc, Hp.
  assert (Contains n "/" = false) as ->.
  { unfold Contains. by rewrite (proj2 (Index1_None "/" n) Hno). }
  destruct (String.eqb_spec n "") as [|_]; [done|]. cbn [orb u_Path].
  apply path_segment_replaced; [apply rooted_containers|done|].
  unfold UserContainerPrefix. rewrite !str_forallb_app. by rewrite Itoa_no_slash.
Qed.

Lemma RewriteVolumeURL_segment path uid :
  let n := ExtractVolumeName path in
  n ∉ [""; "create"; "prune"] → isHexID n = false → HasPrefix n (UserVolumePrefix uid) = false →
  ExtractVolumeName (RewriteVolumeURL path uid) = UserVolumePrefix uid +:+ n.
Proof.
  intros n Hne Hhex Hp. rewrite !not_elem_of_cons in Hne. destruct Hne as (H1 & H2 & H3 & _).
  unfold RewriteVolumeURL. fold n. apply String.eqb_neq in H1 as E1, H2 as E2, H3 as E3.
  rewrite E1, E2, E3, Hhex, Hp. cbn [orb]. apply path_segment_replaced; [apply rooted_volumes|done|].
  unfold UserVolumePrefix. rewrite !str_forallb_app. by rewrite Itoa_no_slash.
Qed.

Lemma RewriteNetworkURL_segment path id :
  let n := ExtractNetworkID path in
  str_forallb (λ d, negb (Ascii.eqb "/" d)) (RealUsername id) = true →
  n ∉ [""; "create"; "prune"; UserBridgeName (RealUID id)] → isHexID n = false →
  own_peer (RealUID id) n = false → HasPrefix n (UserResourcePrefix id) = false →
  ExtractNetworkID (RewriteNetworkURL path id) = UserResourcePrefix id +:+ n.
Proof.
  intros n Hu Hne Hhex Hpeer Hp. rewrite !not_elem_of_cons in Hne. destruct Hne as (H1 & H2 & H3 & H4 & _).
  unfold RewriteNetworkURL. fold n. apply String.eqb_neq in H1 as E1, H2 as E2, H3 as E3, H4 as E4.
  rewrite E1, E2, E3, E4, Hhex, Hpeer, Hp. cbn [orb]. apply path_segment_replaced; [apply rooted_networks|done|].
  unfold UserResourcePrefix. by rewrite !str_forallb_app, Hu, Itoa_no_slash.
Qed.

(** What a list shows can be typed back.  A name in a path that is no id, no
    reserved word and not already prefixed is completed to the name the user's
    resource has, and that name is the one the list shows as the name typed (for
    networks when the account database and the identity agree on the user's
    name); but a name of 12 or 64 hexadecimal digits is shown stripped all the
    same and then taken for an id, so it is not completed. *)
Theorem shown_names_resolve os id path q :
  let uid := RealUID id in
  let c := path_segment "/containers/" path in
  let v := ExtractVolumeName path in
  let n := ExtractNetworkID path in
  (c ≠ "" → containerSpecialIDs c = false → Contains c ":" = false → isHexID c = false →
   HasPrefix c (UserContainerPrefix uid) = false →
   strip_container_name (UserContainerPrefix uid)
     ("/" +:+ path_segment "/containers/" (u_Path (RewriteContainerURL (mkReqURL path q) uid))) = "/" +:+ c) ∧
  (v ∉ [""; "create"; "prune"] → isHexID v = false → HasPrefix v (UserVolumePrefix uid) = false →
   let full := ExtractVolumeName (RewriteVolumeURL path uid) in
   strip_name (UserVolumePrefix uid) full (Some {["Name" := JStr full]}) = JObj [("Name", JStr v)]) ∧
  (str_forallb (λ d, negb (Ascii.eqb "/" d)) (RealUsername id) = true →
   LookupUsername os uid = RealUsername id →
   n ∉ [""; "create"; "prune"; UserBridgeName uid] → isHexID n = false → own_peer uid n = false →
   HasPrefix n (UserResourcePrefix id) = false →
   let full := ExtractNetworkID (RewriteNetworkURL path id) in
   strip_name (network_list_prefix os uid) full (Some {["Name" := JStr full]}) = JObj [("Name", JStr n)]) ∧
  (isHexID v = true →
   let full := UserVolumePrefix uid +:+ v in
   strip_name (UserVolumePrefix uid) full (Some {["Name" := JStr full]}) = JObj [("Name", JStr v)] ∧
   RewriteVolumeURL path uid = path).
Proof.
  assert (∀ prefix x, strip_name prefix (prefix +:+ x) (Some {["Name" := JStr (prefix +:+ x)]}) = JObj [("Name", JStr x)])
    as Hstrip.
  { intros prefix x. unfold strip_name. rewrite HasPrefix_app, TrimPrefix_app. cbn [fmap option_fmap option_map marshal_nil_map].
    unfold marshal_map. by rewrite insert_singleton_eq, map_to_list_singleton. }
  intros uid c v n. split_and!.
  - intros. unfold c. rewrite RewriteContainerURL_segment by done. fold c uid. unfold strip_container_name.
    set (p := UserContainerPrefix uid).
    assert (HasPrefix ("/" +:+ p +:+ c) ("/" +:+ p) = true) as -> by (rewrite app_assoc_str; apply HasPrefix_app).
    f_equal. change (1 + slen p) with (slen ("/" +:+ p)). rewrite app_assoc_str. apply str_drop_app.
  - intros ? ? ?. cbv zeta. unfold v. rewrite RewriteVolumeURL_segment by done. apply Hstrip.
  - intros Hu Hos ? ? ? ?. cbv zeta. unfold n. rewrite RewriteNetworkURL_segment by done.
    unfold network_list_prefix. rewrite Hos. apply Hstrip.
  - intros Hhex. split; [apply Hstrip|]. unfold RewriteVolumeURL. fold v. rewrite Hhex. by destruct (_ || _).
Qed.

(** ** Properties: failure *)

Lemma filter_images_down {D} `{OwnershipReaderSpec D} (db : D) uid owned seen l :
  store_down db → filter_images db uid owned seen l = [].
Proof.
  intros Hd. destruct (down_answers uid db Hd) as (_ & _ & _ & _ & _ & _ & Hsee).
  revert seen. induction l as [|raw l IH]; intros seen; [done|]. simpl.
  destruct (unmarshal_as (decode_id "Id") "" raw); [by rewrite Hsee; apply IH|apply IH].
Qed.

(** C15: With the records unreadable no list shows anything: whatever array of
    containers, images, networks, services, secrets or configs the daemon answered
    is replaced by the empty one, a volume list is emptied with its warnings, and
    the usage report is the empty one. *)
Theorem lists_fail_closed {D} `{OwnershipReaderSpec D} (db : D) os uid username l b j :
  store_down db →
  (FilterContainerListResponse db (Doc (JArr l)) uid username false).1 = emptyJSONArray ∧
  (FilterImageListResponse db (Doc (JArr l)) uid false).1 = emptyJSONArray ∧
  (FilterNetworkListResponse db os b uid false).1 = emptyJSONArray ∧
  (FilterServiceListResponse db b uid false).1 = emptyJSONArray ∧
  (FilterSecretListResponse db b uid false).1 = emptyJSONArray ∧
  (FilterConfigListResponse db b uid false).1 = emptyJSONArray ∧
  FilterVolumeListResponse db b uid false = volume_list_body [] None ∧
  (unmarshal_map j ≠ None → (FilterSystemDFResponse db (Doc j) uid false).1 = EmptySystemDFBody).
Proof.
  intros Hd. destruct (down_answers uid db Hd) as ((e1 & E1) & (e2 & E2) & (e3 & E3) & (e4 & E4) & (e5 & E5) & (e6 & E6) & _).
  unfold FilterContainerListResponse, FilterImageListResponse, FilterNetworkListResponse, FilterServiceListResponse,
    FilterSecretListResponse, FilterConfigListResponse, filter_swarm_list, FilterVolumeListResponse, FilterSystemDFResponse.
  rewrite E1, E2, E3, E4, E5, E6. split_and!; try (by destruct (unmarshal_raws b)).
  - cbn [unmarshal_raws unmarshal_body unmarshal_as decode_raws]. by rewrite filter_images_down.
  - by destruct (unmarshal_body _ _ b).
  - by destruct (unmarshal_map j).
Qed.

(** ** Properties: swarm *)

(** Service, secret and config lists show an unprivileged user exactly the
    items recorded for the user, and the swarm document shows the join tokens
    masked and everything else as it is. *)
Theorem swarm_is_masked {D} `{OwnershipReaderSpec D} (db : D) l uid :
  (∀ out, FilterServiceListResponse db (Doc (JArr l)) uid false = (Doc (JArr out), false) →
     ∀ raw, raw ∈ out ↔ raw ∈ l ∧ ∃ id, unmarshal_as (decode_id "ID") "" raw = Some id ∧ owns_service uid id db) ∧
  (∀ out, FilterSecretListResponse db (Doc (JArr l)) uid false = (Doc (JArr out), false) →
     ∀ raw, raw ∈ out ↔ raw ∈ l ∧ ∃ id, unmarshal_as (decode_id "ID") "" raw = Some id ∧ owns_secret uid id db) ∧
  (∀ out, FilterConfigListResponse db (Doc (JArr l)) uid false = (Doc (JArr out), false) →
     ∀ raw, raw ∈ out ↔ raw ∈ l ∧ ∃ id, unmarshal_as (decode_id "ID") "" raw = Some id ∧ owns_config uid id db) ∧
  (∀ kvs, ∃ j', FilterSwarmInspectResponse (Doc (JObj kvs)) false = Returns (Doc j') ∧
     obj_of j' !! "JoinTokens" = Some masked_tokens ∧
     ∀ k, k ≠ "JoinTokens" → obj_of j' !! k = obj_map kvs !! k).
Proof.
  assert (∀ (ids_of : Z → D → result (list string)) (owns : Z → string → D → Prop) out,
    (∀ ids, ids_of uid db = inr ids → ∀ id, id ∈ ids ↔ owns uid id db) →
    filter_swarm_list db ids_of (Doc (JArr l)) uid false = (Doc (JArr out), false) →
    ∀ raw, raw ∈ out ↔ raw ∈ l ∧ ∃ id, unmarshal_as (decode_id "ID") "" raw = Some id ∧ owns uid id db) as Hlist.
  { intros ids_of owns out Hown. unfold filter_swarm_list.
    cbn [unmarshal_raws unmarshal_body unmarshal_as decode_raws].
    destruct (ids_of uid db) as [|ids] eqn:E; [done|]. intros [= <-] raw. unfold filter_swarm.
    rewrite !list_elem_of_In, filter_In. f_equiv. specialize (Hown ids eq_refl).
    destruct (unmarshal_as _ _ raw) as [id|]; [|split; [done|by intros (? & ? & _)]].
    rewrite elem_spec, Hown. split; [eauto|]. by intros (? & [= <-] & ?). }
  split_and!.
  - intros out. apply Hlist. intros ids. apply services_spec.
  - intros out. apply Hlist. intros ids. apply secrets_spec.
  - intros out. apply Hlist. intros ids. apply configs_spec.
  - intros kvs. eexists. split; [reflexivity|]. rewrite obj_of_marshal. split; [apply lookup_insert_eq|].
    intros k Hk. by rewrite lookup_insert_ne.
Qed.

(** ** Properties: system usage *)

Lemma elem_of_omitempty name o k v : (k, v) ∈ omitempty name o ↔ k = name ∧ o = Some v.
Proof.
  unfold omitempty. destruct o; rewrite ?list_elem_of_singleton, ?elem_of_nil; [|naive_solver].
  split; [by intros [= -> ->]|by intros [-> [= ->]]].
Qed.

(** The members a report can have. *)
Definition df_members (rawMap : gmap string json) (images containers volumes : list json) : list (string * json) :=
  [("LayersSize", JInt 0); ("Images", JArr images); ("Containers", JArr containers); ("Volumes", JArr volumes);
   ("BuildCache", JArr (unmarshal_ignored decode_raws [] (rawMap !! "BuildCache")))] ++
  omitempty "ImageUsage" (rebuildUsageField (rawMap !! "ImageUsage") images "image") ++
  omitempty "ContainerUsage" (rebuildUsageField (rawMap !! "ContainerUsage") containers "container") ++
  omitempty "VolumeUsage" (rebuildUsageField (rawMap !! "VolumeUsage") volumes "volume") ++
  omitempty "BuildCacheUsage" (rawMap !! "BuildCacheUsage").

Lemma df_document_members rawMap images containers volumes k v :
  obj_of (df_document rawMap images containers volumes) !! k = Some v →
  (k, v) ∈ df_members rawMap images containers volumes.
Proof.
  unfold df_document, df_members. intros H.
  destruct (rawMap !! "Images"), (rawMap !! "ImageUsage"); cbv zeta in H;
    try (rewrite obj_of_marshal in H; apply elem_of_list_to_map_2 in H);
    try (apply obj_map_Some in H); rewrite !elem_of_app in *; tauto.
Qed.

Lemma rebuilt_usage orig items kind u :
  rebuildUsageField orig items kind = Some u →
  obj_of u !! "Items" = Some (JArr items) ∧ obj_of u !! "TotalCount" = Some (JInt (Z.of_nat (length items))) ∧
  obj_of u !! "TotalSize" = Some (JInt 0) ∧
  (∀ v, obj_of u !! "ActiveCount" = Some v → v = JInt (Z.of_nat (length items))).
Proof.
  destruct orig as [usage|]; [|done]. intros [= <-]. rewrite obj_of_marshal.
  set (m := <["Items" := JArr items]> (<["TotalCount" := _]> (obj_of usage))).
  set (m' := match m !! "ActiveCount" with Some _ => _ | None => m end).
  assert (∀ k, k ≠ "ActiveCount" → m' !! k = m !! k) as Hm'
    by (intros k Hk; unfold m'; case_match; by rewrite ?lookup_insert_ne).
  assert (∀ v, m' !! "ActiveCount" = Some v → v = JInt (Z.of_nat (length items))) as Ha.
  { intros v. unfold m'. destruct (m !! "ActiveCount") eqn:E; [rewrite lookup_insert_eq|rewrite E]; congruence. }
  destruct (kind ==s "container"); split_and!;
    repeat first [rewrite lookup_insert_ne by done|rewrite lookup_insert_eq|rewrite Hm' by done|done|apply Ha];
    unfold m; repeat first [rewrite lookup_insert_ne by done|rewrite lookup_insert_eq|done].
Qed.

(** The report shows [items] under [top] and [usage], and counts them. *)
Definition df_shows (report : gmap string json) (top usage : string) (items : list json) : Prop :=
  (∀ v, report !! top = Some v → v = JArr items) ∧
  (∀ u, report !! usage = Some u →
     obj_of u !! "Items" = Some (JArr items) ∧ obj_of u !! "TotalCount" = Some (JInt (Z.of_nat (length items))) ∧
     obj_of u !! "TotalSize" = Some (JInt 0)).

Ltac df_cases H :=
  apply df_document_members in H; unfold df_members in H;
  rewrite !elem_of_app, !elem_of_cons, elem_of_nil, !elem_of_omitempty in H; simplify_eq/=;
  destruct_or?; destruct_and?; simplify_eq.

Lemma df_document_shows rawMap images containers volumes :
  let report := obj_of (df_document rawMap images containers volumes) in
  df_shows report "Images" "ImageUsage" images ∧ df_shows report "Containers" "ContainerUsage" containers ∧
  df_shows report "Volumes" "VolumeUsage" volumes ∧
  (∀ v, report !! "LayersSize" = Some v → v = JInt 0) ∧
  ∀ k, is_Some (report !! k) →
    k ∈ ["LayersSize"; "Images"; "Containers"; "Volumes"; "BuildCache"; "ImageUsage"; "ContainerUsage"; "VolumeUsage"; "BuildCacheUsage"].
Proof.
  intros report. unfold df_shows.
  split_and!; [intros v Hv..|intros k [v Hv]]; df_cases Hv; try done; try set_solver.
  all: match goal with H : rebuildUsageField _ _ _ = Some _ |- _ => apply rebuilt_usage in H; tauto end.
Qed.

(** The usage report shows an unprivileged user the containers recorded for
    the user, the images the user can see and the user's volumes, under the same
    items whether at the top or in the usage fields, with counts that match and
    no global size; besides the build cache it has no other member. *)
Theorem system_df_is_own {D} `{OwnershipReaderSpec D} (db : D) kvs uid j' :
  FilterSystemDFResponse db (Doc (JObj kvs)) uid false = (Doc j', None) →
  ∃ images containers volumes,
    (∀ raw, raw ∈ images → ∃ id, image_id raw = Some id ∧ can_see_image uid id db = true) ∧
    (∀ raw, raw ∈ containers → ∃ id own, unmarshal_as (decode_id "Id") "" raw = Some id ∧
       owns_container uid own db ∧ same_id own id) ∧
    (∀ raw, raw ∈ volumes → ∃ orig name, unmarshal_as (decode_id "Name") "" orig = Some name ∧
       (owns_volume uid name db ∧ HasPrefix name (UserVolumePrefix uid) = false ∧ raw = orig ∨
        HasPrefix name (UserVolumePrefix uid) = true ∧
        obj_of raw !! "Name" = Some (JStr (TrimPrefix name (UserVolumePrefix uid))))) ∧
    let report := obj_of j' in
    df_shows report "Images" "ImageUsage" images ∧ df_shows report "Containers" "ContainerUsage" containers ∧
    df_shows report "Volumes" "VolumeUsage" volumes ∧
    (∀ v, report !! "LayersSize" = Some v → v = JInt 0) ∧
    ∀ k, is_Some (report !! k) →
      k ∈ ["LayersSize"; "Images"; "Containers"; "Volumes"; "BuildCache"; "ImageUsage"; "ContainerUsage"; "VolumeUsage"; "BuildCacheUsage"].
Proof.
  unfold FilterSystemDFResponse. cbn [unmarshal_map]. change (default ∅ (Some (obj_map kvs))) with (obj_map kvs).
  destruct (container_ids_of uid db) as [|ids] eqn:Ec; [done|].
  destruct (owned_volumes_of uid db) as [|names] eqn:Ev; [done|]. intros [= <-].
  eexists _, _, _. split; [|split; [|split; [|apply df_document_shows]]].
  - intros raw [_ Hp]%list_elem_of_In%filter_In. unfold image_id. destruct (unmarshal_as _ _ raw); [eauto|done].
  - intros raw [_ Hp]%list_elem_of_In%filter_In. destruct (unmarshal_as _ _ raw) as [id|]; [|done].
    apply id_matches_spec in Hp as (own & Ho & Hs). exists id, own. by rewrite <- (container_ids_spec uid db ids Ec).
  - intros raw (orig & _ & Hd)%list_elem_of_omap. unfold df_volume in Hd. exists orig.
    destruct (unmarshal_as _ _ orig) as [name|] eqn:En; [|done]. exists name. split; [done|].
    destruct (elem name names || _) eqn:Hc; [|done]. destruct (HasPrefix name (UserVolumePrefix uid)) eqn:Hp.
    + right. split; [done|]. destruct orig as [| | | | | |okvs]; try done; [by injection En as <-|].
      cbn [unmarshal_map] in Hd. injection Hd as <-. rewrite obj_of_marshal. apply lookup_insert_eq.
    + left. rewrite orb_false_r in Hc. apply elem_spec, (volumes_spec uid db names Ev) in Hc. by injection Hd as <-.
Qed.

(** ** Examples *)

Module FilterDemo.

Definition web_id : string := "0123456789abcdef0123456789abcdef".
(** alice owns one recorded container; bob owns another. *)
Definition db : OwnershipDB :=
  (SetContainerOwner 1 web_id ImageDemo.alice "" (SetContainerOwner 2 "bbbbbbbbbbbbbb" ImageDemo.bob ""
     (SetVolumeOwner 3 "user-1001-volume-data" ImageDemo.alice initSchema).2).2).2.
Definition web : json := JObj [("Id", JStr web_id); ("Names", JArr [JStr "/user-1001-web"])].
Definition web_shown : json := JObj [("Id", JStr web_id); ("Names", JArr [JStr "/web"])].
Definition foreign : json := JObj [("Id", JStr "bbbbbbbbbbbbbb"); ("Names", JArr [JStr "/user-1002-x"])].
(** In no record, but labelled with alice as the last owner. *)
Definition labelled : json :=
  JObj [("Id", JStr "cccccccccccccc"); ("Labels", JObj [(LabelOwnerUID, JStr "1002,1001")])].

Example own_containers :
  FilterContainerListResponse db (Doc (JArr [web; foreign; labelled])) 1001 "alice" false =
  (Doc (JArr [web_shown; labelled]), None).
Proof. vm_compute. reflexivity. Qed.

Definition report_members : list (string * json) :=
  [("Containers", JArr [web; foreign]); ("Volumes", JArr [JObj [("Name", JStr "user-1001-volume-data")];
     JObj [("Name", JStr "user-1002-volume-data")]]); ("LayersSize", JInt 12345); ("Images", JArr [])].
Definition df_report : json :=
  JObj [("LayersSize", JInt 0); ("Images", JArr []); ("Containers", JArr [web]);
        ("Volumes", JArr [JObj [("Name", JStr "data")]]); ("BuildCache", JArr [])].

Example own_report : FilterSystemDFResponse db (Doc (JObj report_members)) 1001 false = (Doc df_report, None).
Proof. vm_compute. reflexivity. Qed.

End FilterDemo.

Lemma container_list_is_own_witness :
  ∃ kept, Doc (JArr [FilterDemo.web_shown; FilterDemo.labelled]) =
            Doc (JArr (strip_container_names (UserContainerPrefix 1001) <$> kept)) ∧
    ∀ raw, raw ∈ kept ↔ raw ∈ [FilterDemo.web; FilterDemo.foreign; FilterDemo.labelled] ∧
                         visible_container FilterDemo.db 1001 "alice" raw.
Proof.
  destruct (container_list_is_own FilterDemo.db [FilterDemo.web; FilterDemo.foreign; FilterDemo.labelled] 1001 "alice"
              (Doc (JArr [FilterDemo.web_shown; FilterDemo.labelled])) None)
    as [(_ & kept & Hout & _ & Hk & _)|[? _]]; [vm_compute; reflexivity|by exists kept|done].
Defined.

Lemma lists_fail_closed_witness :
  (FilterContainerListResponse (set_writes_left (Some 0) FilterDemo.db) (Doc (JArr [FilterDemo.web])) 1001 "alice" false).1
  = emptyJSONArray.
Proof.
  refine (proj1 (lists_fail_closed (set_writes_left (Some 0) FilterDemo.db) (mkOsFiles None None) 1001 "alice"
                   [FilterDemo.web] EmptyBody JNull _)). vm_compute. reflexivity.
Defined.

Lemma system_df_is_own_witness :
  ∃ containers, (∀ raw, raw ∈ containers → ∃ id own, unmarshal_as (decode_id "Id") "" raw = Some id ∧
       owns_container 1001 own FilterDemo.db ∧ same_id own id) ∧
    df_shows (obj_of FilterDemo.df_report) "Containers" "ContainerUsage" containers.
Proof.
  destruct (system_df_is_own FilterDemo.db FilterDemo.report_members 1001 FilterDemo.df_report)
    as (images & containers & volumes & _ & Hc & _ & _ & Hs & _); [vm_compute; reflexivity|].
  exists containers. split; [exact Hc|exact Hs].
Defined.
