(* ===== verification/PreRequest.v ===== *)
(** * PreRequest: the ownership checks before a request is forwarded

    [checkOwnershipPreRequest] of [internal/forward/proxy.go] (lines 899-1476) with
    [checkContainerOwnershipByLabel], [checkCreateContainerNetworks],
    [bridgeImageAccessByRefDigest] and [checkPortConflict]: the sequence of checks
    that decides whether a request goes on, which also completes the body of a
    container creation.  A check runs on the ownership database and passes, answers
    the client itself, or crashes the handler (a write to a nil map). *)

From S2P Require Import Prelude GoStrings GoJson Docker GoUrl OsLookup Identity Routes Policy Tables Database ImageDB.
From S2P Require Import ResourceDB Names ImagePerm Quota GoPath Storage Bodies Filter.

(** ** Requests and answers *)

Record Request := mkRequest {
  rq_Method : string;
  rq_URL : HttpURL;
  rq_Header : list (string * string);
  rq_Body : body;
  (** the values the handlers leave in the context *)
  rq_rewrittenName : option string;
  rq_portMappings : list PortMapping;
}.
Definition set_body (b : body) (r : Request) : Request :=
  mkRequest (rq_Method r) (rq_URL r) (rq_Header r) b (rq_rewrittenName r) (rq_portMappings r).
Definition set_url (u : HttpURL) (r : Request) : Request :=
  mkRequest (rq_Method r) u (rq_Header r) (rq_Body r) (rq_rewrittenName r) (rq_portMappings r).
Definition set_ports (ps : list PortMapping) (r : Request) : Request :=
  mkRequest (rq_Method r) (rq_URL r) (rq_Header r) (rq_Body r) (rq_rewrittenName r) ps.
Definition set_name (n : option string) (r : Request) : Request :=
  mkRequest (rq_Method r) (rq_URL r) (rq_Header r) (rq_Body r) n (rq_portMappings r).

(** An answer given instead of forwarding. *)
Inductive Rejection :=
  | Respond (r : Response)
  | NotPermitted (action : string)
  | QuotaDenied (e : QuotaExceeded)
  | BindMountDenied (src : string) (roots : list string)
  | TmpfsDenied (requestedMB limitMB : Z)
  | DeviceDenied (device : string)
  | VolumesFromDenied (container : string)
  | VolumeDenied (volume : NamedVolumeViolation)
  | PortDenied (m : PortMapping) (existing : PortMappingInfo)
  | BridgeFailed.

Definition rejection_status (r : Rejection) : Z :=
  match r with
  | Respond (DockerError status _) => status
  | Respond (DockerNotFound _ _) => 404
  | Respond _ => 200
  | NotPermitted _ | QuotaDenied _ | BindMountDenied _ _ | TmpfsDenied _ _ | DeviceDenied _ | VolumesFromDenied _ => 403
  | VolumeDenied _ | BridgeFailed => 500
  | PortDenied _ _ => 409
  end.

Inductive outcome (A : Type) := Pass (a : A) | Reject (r : Rejection) | Crash.
Arguments Pass {A} a.
Arguments Reject {A} r.
Arguments Crash {A}.

(** ** Checks *)

Definition M (A : Type) : Type := OwnershipDB → outcome A * OwnershipDB.
#[export] Instance M_ret : MRet M := λ A a d, (Pass a, d).
#[export] Instance M_bind : MBind M := λ A B k m d,
  match m d with
  | (Pass a, d1) => k a d1
  | (Reject r, d1) => (Reject r, d1)
  | (Crash, d1) => (Crash, d1)
  end.

Definition reject {A} (r : Rejection) : M A := λ d, (Reject r, d).
Definition not_found {A} (kind id : string) : M A := reject (Respond (DockerNotFound kind id)).
Definition ask {A} (q : OwnershipDB → A) : M A := λ d, (Pass (q d), d).
Definition update {A} (q : OwnershipDB → A * OwnershipDB) : M A := λ d, let '(a, d1) := q d in (Pass a, d1).
Definition of_run {A} (x : run A) : M A := λ d, (match x with Returns a => Pass a | Panics => Crash end, d).
Definition of_verdict (v : Verdict) : M unit := match v with Forward => mret tt | Answer r => reject (Respond r) end.
Definition when (b : bool) (m : M unit) : M unit := if b then m else mret tt.

(** What the checks read besides the database. *)
Record ProxyEnv := mkProxyEnv {
  pe_env : DaemonEnv;
  (** the client of the bridge manager; without one it does nothing *)
  pe_bridge : option Docker;
  pe_quota : option QuotaManager;
  pe_numCPU : Z;
  pe_storageBase : string;
  pe_allowHomeBind : bool;
  pe_now : Z;
}.

Section checks.
Context (env : ProxyEnv).
Let docker : Docker := env_docker (pe_env env).
Let os : OsFiles := env_os (pe_env env).

(** ** Containers *)

Definition absent_passes (action : string) : bool :=
  (action ==s ActionRemoveContainer) || (action ==s ActionStop) || (action ==s ActionKill)
  || (action ==s ActionPause) || (action ==s ActionUnpause).

(** The last UID of the owner label is the caller's, or the last owner name. *)
Definition labels_own (id : CallerIdentity) (labels : gmap string string) : bool :=
  let uidStr := GetLastLabelValue (map_get labels LabelOwnerUID) in
  let ownerName := GetLastLabelValue (map_get labels LabelOwner) in
  ((uidStr !=s "") && bool_decide (scan_uid 0 uidStr = Some (RealUID id))) ||
  ((ownerName !=s "") && (ownerName ==s RealUsername id)).

Definition checkContainerOwnershipByLabel (id : CallerIdentity) (containerID action : string) : M unit :=
  match fetchContainerLabels docker containerID with
  | None =>
    if (action ==s ActionInspect) && (resolveImageIDByRef docker containerID !=s "") then mret tt
    else if absent_passes action then mret tt
    else not_found "container" (TrimPrefix containerID (UserContainerPrefix (RealUID id)))
  | Some labels => if labels_own id labels then mret tt else not_found "container" containerID
  end.

Definition check_container (id : CallerIdentity) (action : string) (r : Request) : M unit :=
  let containerID := ExtractContainerID (url_Path (rq_URL r)) in
  if (containerID ==s "") || containerSpecialIDs containerID then mret tt else
  owner ← ask (GetContainerOwner containerID);
  match owner with
  | None => if IsPrivileged id then mret tt else checkContainerOwnershipByLabel id containerID action
  | Some o =>
    if (oi_UID o !=z RealUID id) && negb (IsPrivileged id)
    then not_found "container" (TrimPrefix containerID (UserContainerPrefix (RealUID id)))
    else mret tt
  end.

Definition check_commit (id : CallerIdentity) (action : string) (r : Request) : M unit :=
  let qContainerID := values_get (url_Query (rq_URL r)) "container" in
  if qContainerID ==s "" then mret tt else
  let dockerID := let i := resolveContainerDockerID docker qContainerID in if i ==s "" then qContainerID else i in
  owner ← ask (GetContainerOwner dockerID);
  match owner with
  | None => if IsPrivileged id then mret tt else checkContainerOwnershipByLabel id qContainerID action
  | Some o =>
    if (oi_UID o !=z RealUID id) && negb (IsPrivileged id) then not_found "container" qContainerID else mret tt
  end.

(** ** The image of a creation *)

Definition extractImageRefFromBody (b : body) : string :=
  match b with Doc j => (decode_id "Image" "" j).1 | _ => "" end.

(** Whether the user's access to the digest of the reference was carried over to
    the image's id. *)
Definition bridgeImageAccessByRefDigest (id : CallerIdentity) (imageRef configID : string) : M bool :=
  let dg := refImageDigest imageRef in
  if (dg ==s "") || (configID ==s "") then mret false else
  usable ← ask (CanUseImage (RealUID id) dg);
  if negb usable then mret false else
  owner ← ask (GetImageOwner configID);
  err ← update (match owner with
                | None => SetImageOwner (pe_now env) configID id false "pull"
                | Some _ => EnsureImageAccess configID (RealUID id)
                end);
  mret (match err with None => true | Some _ => false end).

Definition no_such_image (imageRef : string) : Rejection :=
  Respond (DockerError 404 ("No such image: " +:+ imageRef)).

Definition check_create_image (id : CallerIdentity) (r : Request) : M unit :=
  let imageRef := extractImageRefFromBody (rq_Body r) in
  if imageRef ==s "" then mret tt else
  if negb (IsPrivileged id) && isBuildKitImage imageRef && IsDenied os (env_policy (pe_env env)) id ActionBuild
  then reject (NotPermitted ActionBuild) else
  let resolvedID := resolveImageIDByRef docker imageRef in
  if resolvedID ==s "" then mret tt else
  owner ← ask (GetImageOwner resolvedID);
  match owner with
  | None =>
    if IsPrivileged id then mret tt else
    ok ← bridgeImageAccessByRefDigest id imageRef resolvedID;
    if ok : bool then mret tt else reject (no_such_image imageRef)
  | Some (_, true, _) => _ ← update (EnsureImageAccess resolvedID (RealUID id)); mret tt
  | Some (_, false, _) =>
    usable ← ask (CanUseImage (RealUID id) resolvedID);
    if usable : bool then mret tt else
    ok ← bridgeImageAccessByRefDigest id imageRef resolvedID;
    if ok : bool then mret tt else reject (no_such_image imageRef)
  end.

(** ** The networks of a creation *)

Definition default_network (netName : string) : bool :=
  (netName ==s "default") || (netName ==s "bridge") || (netName ==s "host") || (netName ==s "none").

Definition create_network_ok (id : CallerIdentity) (netName : string) (d : OwnershipDB) : bool :=
  let prefix := UserResourcePrefix id in
  if default_network netName || (netName ==s UserBridgeName (RealUID id)) || HasPrefix netName prefix then true else
  let lookupID := default netName (GetNetworkIDByName (prefix +:+ netName) d) in
  match CanUserAccessNetwork lookupID (RealUID id) d with inr ok => ok | inl _ => false end.

Definition checkCreateContainerNetworks (id : CallerIdentity) (r : Request) : M unit :=
  bad ← ask (λ d, find_first (λ n, negb (create_network_ok id n d)) (ExtractRequestedNetworks (rq_Body r)));
  match bad with Some netName => not_found "network" netName | None => mret tt end.

(** ** The body of a creation *)

Definition check_create_quota (id : CallerIdentity) (b : body) : M body :=
  match pe_quota env with
  | None => mret b
  | Some qm =>
    d ← ask (λ d, d);
    let defaults := GetDefaultQuota qm in
    out ← of_run (CheckAndInjectQuota (pe_numCPU env) b (GetQuota os id qm) (RealUID id) (Some d)
                    (qe_CPUCores defaults) (qe_MemMB defaults));
    match out with Refused e => reject (QuotaDenied e) | Allowed b' => mret b' end
  end.

Definition check_bind_mounts (id : CallerIdentity) (b : body) : M unit :=
  let homeDir := if pe_allowHomeBind env then LookupHomeDir os (RealUID id) else "" in
  match ValidateBindMounts b (pe_storageBase env) (RealUID id) homeDir with
  | Some (src, roots) => reject (BindMountDenied src roots)
  | None => mret tt
  end.

Definition check_tmpfs (id : CallerIdentity) (b : body) : M body :=
  match pe_quota env with
  | None => mret b
  | Some qm =>
    match ValidateAndInjectTmpfs b (qe_TmpfsSizeMB (GetQuota os id qm)) with
    | TmpfsViolation req limit => reject (TmpfsDenied req limit)
    | TmpfsBody b' => mret b'
    end
  end.

Definition check_devices (id : CallerIdentity) (b : body) : M unit :=
  match pe_quota env with
  | None => mret tt
  | Some qm =>
    match ValidateDeviceMounts b (qe_AllowedDevices (GetQuota os id qm)) (RealUID id) with
    | Some device => reject (DeviceDenied device)
    | None => mret tt
    end
  end.

Definition check_volumes_from (id : CallerIdentity) (b : body) : M unit :=
  bad ← ask (ValidateVolumesFrom (resolveContainerDockerID docker) b (RealUID id) (IsPrivileged id));
  match bad with Some c => reject (VolumesFromDenied c) | None => mret tt end.

Definition check_named_volumes (id : CallerIdentity) (b : body) : M body :=
  d ← ask (λ d, d);
  out ← of_run (ValidateAndRewriteNamedVolumes b (RealUID id) d);
  match out with inl v => reject (VolumeDenied v) | inr b' => mret b' end.

Definition checkPortConflict (b : body) : M unit :=
  conflict ← ask (port_conflict b);
  match conflict with Some (m, existing) => reject (PortDenied m existing) | None => mret tt end.

Definition ensure_bridge (id : CallerIdentity) : M unit :=
  match (match pe_bridge env with None => Some "" | Some client => EnsureUserBridge client (RealUID id) (RealUsername id) end) with
  | None => reject BridgeFailed
  | Some networkID =>
    if networkID ==s "" then mret tt else
    _ ← update (SetManagedNetworkOwner (pe_now env) networkID (UserBridgeName (RealUID id)) (RealUID id) (RealUsername id));
    mret tt
  end.

(** The networks of the user's peerings, and the requested ones under their names. *)
Definition user_peer_networks (uid : Z) (d : OwnershipDB) : list string :=
  match GetNetworkPeersByUID uid d with
  | inr peers => PeerNetworkID <$> List.filter IsUserLevel peers
  | inl _ => []
  end.
Definition user_requested_networks (id : CallerIdentity) (b : body) : list string :=
  add_prefix (UserResourcePrefix id) <$>
    List.filter (λ n, negb (default_network n || (n ==s UserBridgeName (RealUID id)))) (ExtractRequestedNetworks b).

(** What follows the quota for an unprivileged user. *)
Definition create_body_checks (id : CallerIdentity) (r : Request) (b : body) : M Request :=
  _ ← check_bind_mounts id b;
  b ← check_tmpfs id b;
  _ ← check_devices id b;
  _ ← check_volumes_from id b;
  b ← check_named_volumes id b;
  _ ← checkPortConflict b;
  let r := match ExtractPortMappings b with [] => r | ps => set_ports ps r end in
  _ ← ensure_bridge id;
  peers ← ask (user_peer_networks (RealUID id));
  injected ← of_run (InjectUserNetwork b (RealUID id) peers (user_requested_networks id b));
  mret (set_body injected r).

Definition check_create (id : CallerIdentity) (r : Request) : M Request :=
  _ ← check_create_image id r;
  _ ← (if IsPrivileged id then mret tt else checkCreateContainerNetworks id r);
  b ← check_create_quota id (rq_Body r);
  if IsPrivileged id then mret (set_body b r) else create_body_checks id (set_body b r) b.

(** ** Images *)

Definition image_ref_of (action : string) (r : Request) : string :=
  let imageRef := ExtractImageID (url_Path (rq_URL r)) in
  if (action ==s ActionSave) && ((imageRef ==s "") || (imageRef ==s "get"))
  then values_get (url_Query (rq_URL r)) "names" else imageRef.

Definition image_usable (uid : Z) (resolvedRef imageRef : string) (d : OwnershipDB) : bool :=
  CanUseImage uid resolvedRef d || CanUseImage uid imageRef d || CanUseImage uid ("sha256:" +:+ imageRef) d.

Definition check_image_read (id : CallerIdentity) (action : string) (r : Request) : M unit :=
  let imageRef := image_ref_of action r in
  if imageRef ==s "" then mret tt else
  let resolvedRef := resolveImageIDByRef docker imageRef in
  if resolvedRef ==s "" then mret tt else
  usable ← ask (image_usable (RealUID id) resolvedRef imageRef);
  if usable : bool then mret tt else not_found "image" imageRef.

Definition check_image (id : CallerIdentity) (action : string) (r : Request) : M unit :=
  if (action ==s ActionInspect) || (action ==s ActionSave) || (action ==s ActionHistory) then check_image_read id action r
  else if action ==s ActionRemoveImage then
    v ← update (checkImageRemovePermission (pe_env env) (rq_URL r) id); of_verdict v
  else if action ==s ActionPull then
    v ← update (checkImagePullPermission (pe_env env) (rq_URL r) id); of_verdict v
  else if action ==s ActionTag then
    v ← ask (checkImageTagPermission (pe_env env) (rq_URL r) id); of_verdict v
  else if action ==s ActionPush then
    v ← ask (checkImagePushPermission (pe_env env) (rq_URL r) id); of_verdict v
  else mret tt.

Definition check_update (id : CallerIdentity) (r : Request) : M unit :=
  match pe_quota env with
  | None => mret tt
  | Some qm =>
    match CheckUpdateQuota (pe_numCPU env) (rq_Body r) (GetQuota os id qm) with
    | Some e => reject (QuotaDenied e)
    | None => mret tt
    end
  end.

(** ** Networks, volumes, swarm *)

Definition network_action (action : string) : bool :=
  (action ==s ActionNetworkInspect) || (action ==s ActionNetworkConnect) || (action ==s ActionNetworkDisconnect)
  || (action ==s ActionNetworkRemove).

(** The record a network name means, and whether the URL has to be corrected to
    its id: the name may be stored without the prefix the proxy added. *)
Definition lookup_network (id : CallerIdentity) (networkName : string) (d : OwnershipDB) : string * bool :=
  let userVisibleName := TrimPrefix networkName (UserResourcePrefix id) in
  match GetNetworkIDByName networkName d with
  | Some docID => (docID, false)
  | None =>
    if userVisibleName !=s networkName then
      match GetNetworkIDByName userVisibleName d with Some docID => (docID, true) | None => (networkName, false) end
    else (networkName, false)
  end.

Definition check_network (id : CallerIdentity) (r : Request) : M Request :=
  let networkName := ExtractNetworkID (url_Path (rq_URL r)) in
  if (networkName ==s "") || IsPrivileged id then mret r else
  lookup ← ask (lookup_network id networkName);
  let '(lookupID, needURLFix) := lookup in
  ok ← ask (CanUserAccessNetwork lookupID (RealUID id));
  match ok with
  | inr true =>
    mret (if needURLFix && (lookupID !=s networkName)
          then set_url (set_path (Replace1 (url_Path (rq_URL r)) ("/networks/" +:+ networkName) ("/networks/" +:+ lookupID))
                          (rq_URL r)) r
          else r)
  | _ => not_found "network" (TrimPrefix networkName (UserResourcePrefix id))
  end.

Definition check_volume_remove (id : CallerIdentity) (r : Request) : M unit :=
  let volName := ExtractVolumeName (url_Path (rq_URL r)) in
  if (volName ==s "") || IsPrivileged id then mret tt else
  let prefix := UserVolumePrefix (RealUID id) in
  let volName := add_prefix prefix volName in
  owner ← ask (GetVolumeOwner volName);
  match owner with
  | None => not_found "volume" (TrimPrefix volName prefix)
  | Some o => if oi_UID o !=z RealUID id then not_found "volume" (TrimPrefix volName prefix) else mret tt
  end.

Definition swarm_admin_action (action : string) : bool :=
  existsb (String.eqb action) [ActionSwarmInit; ActionSwarmJoin; ActionSwarmLeave; ActionSwarmUpdate;
    ActionSwarmUnlock; ActionNodeUpdate; ActionNodeRemove].

(** An object of the swarm: its kind, the actions on one, the id in the path and
    the record of its owner. *)
Definition check_swarm_object (kind : string) (actions : list string) (extract : string → string)
    (owner_of : string → OwnershipDB → option OwnerInfo) (id : CallerIdentity) (action : string) (r : Request) : M unit :=
  if negb (existsb (String.eqb action) actions) then mret tt else
  let objectID := extract (url_Path (rq_URL r)) in
  if (objectID ==s "") || IsPrivileged id then mret tt else
  owner ← ask (owner_of objectID);
  match owner with
  | None => not_found kind objectID
  | Some o => if oi_UID o !=z RealUID id then not_found kind objectID else mret tt
  end.

Definition check_service := check_swarm_object "service"
  [ActionServiceInspect; ActionServiceUpdate; ActionServiceRemove; ActionServiceLogs] ExtractServiceID GetServiceOwner.
Definition check_secret := check_swarm_object "secret"
  [ActionSecretInspect; ActionSecretUpdate; ActionSecretRemove] ExtractSecretID GetSecretOwner.
Definition check_config := check_swarm_object "config"
  [ActionConfigInspect; ActionConfigUpdate; ActionConfigRemove] ExtractConfigID GetConfigOwner.

(** ** The whole *)

Definition checkOwnershipPreRequest (id : CallerIdentity) (action : string) (r : Request) : M Request :=
  _ ← check_container id action r;
  _ ← when (action ==s ActionCommit) (check_commit id action r);
  r ← (if action ==s ActionCreateContainer then check_create id r else mret r);
  _ ← check_image id action r;
  _ ← when (action ==s ActionUpdate) (check_update id r);
  r ← (if network_action action then check_network id r else mret r);
  _ ← when (action ==s ActionVolumeRemove) (check_volume_remove id r);
  _ ← when (swarm_admin_action action && negb (IsPrivileged id)) (reject (NotPermitted action));
  _ ← check_service id action r;
  _ ← check_secret id action r;
  _ ← check_config id action r;
  mret r.
End checks.

(** ** Lemmas: running the checks *)

Lemma bind_Pass {A B} (m : M A) (k : A → M B) d b d' :
  (m ≫= k) d = (Pass b, d') → ∃ a d1, m d = (Pass a, d1) ∧ k a d1 = (Pass b, d').
Proof. unfold mbind, M_bind. destruct (m d) as [[a|r|] d1]; [eauto|done..]. Qed.

Lemma bind_run {A B} (m : M A) (k : A → M B) d a d1 : m d = (Pass a, d1) → (m ≫= k) d = k a d1.
Proof. unfold mbind, M_bind. by intros ->. Qed.

(** A check that only reads. *)
Definition reads {A} (m : M A) : Prop := ∀ d, (m d).2 = d.

Lemma reads_ret {A} (a : A) : reads (mret a).
Proof. done. Qed.
Lemma reads_reject {A} r : reads (@reject A r).
Proof. done. Qed.
Lemma reads_not_found {A} kind i : reads (@not_found A kind i).
Proof. done. Qed.
Lemma reads_ask {A} (q : OwnershipDB → A) : reads (ask q).
Proof. done. Qed.
Lemma reads_of_run {A} (x : run A) : reads (of_run x).
Proof. done. Qed.
Lemma reads_of_verdict v : reads (of_verdict v).
Proof. by destruct v. Qed.
Lemma reads_bind {A B} (m : M A) (k : A → M B) : reads m → (∀ a, reads (k a)) → reads (m ≫= k).
Proof.
  intros Hm Hk d. unfold mbind, M_bind. specialize (Hm d). destruct (m d) as [[a|r|] d1]; simpl in *; [|done..].
  rewrite Hk. done.
Qed.
Lemma reads_Pass {A} (m : M A) d a d' : reads m → m d = (Pass a, d') → d' = d.
Proof. intros Hm E. specialize (Hm d). by rewrite E in Hm. Qed.

Create HintDb checks.
#[export] Hint Resolve @reads_ret @reads_reject @reads_not_found @reads_ask @reads_of_run reads_of_verdict : checks.
#[export] Hint Resolve @reads_bind : checks.

(** Inverting a sequence of checks that passed. *)
Ltac bind_inv H :=
  let a := fresh "a" in let d1 := fresh "d" in let E := fresh "E" in
  apply bind_Pass in H; destruct H as (a & d1 & E & H).
Ltac reads_tac := repeat first [apply reads_bind; [|intros ?]|case_match|solve [auto with checks]].

Section laws.
Context (env : ProxyEnv).
Implicit Types (id : CallerIdentity) (r : Request) (d : OwnershipDB) (action : string).

Lemma reads_by_label id c action : reads (checkContainerOwnershipByLabel env id c action).
Proof. unfold checkContainerOwnershipByLabel. reads_tac. Qed.
Lemma reads_container id action r : reads (check_container env id action r).
Proof. unfold check_container. reads_tac; apply reads_by_label. Qed.
Lemma reads_commit id action r : reads (check_commit env id action r).
Proof. unfold check_commit. reads_tac; apply reads_by_label. Qed.
Lemma reads_network id r : reads (check_network id r).
Proof. unfold check_network. reads_tac. Qed.
Lemma reads_volume_remove id r : reads (check_volume_remove id r).
Proof. unfold check_volume_remove. reads_tac. Qed.
Lemma reads_update id r : reads (check_update env id r).
Proof. unfold check_update. reads_tac. Qed.
Lemma reads_swarm_object kind actions ex ow id action r : reads (check_swarm_object kind actions ex ow id action r).
Proof. unfold check_swarm_object. reads_tac. Qed.
Lemma reads_image_read id action r : reads (check_image_read env id action r).
Proof. unfold check_image_read. reads_tac. Qed.
Lemma reads_when b m : reads m → reads (when b m).
Proof. by destruct b. Qed.

(** Only removals and pulls of images write in the image checks. *)
Lemma reads_image id action r :
  action ≠ ActionRemoveImage → action ≠ ActionPull → reads (check_image env id action r).
Proof.
  intros H1%String.eqb_neq H2%String.eqb_neq. unfold check_image. rewrite H1, H2.
  repeat case_match; auto using reads_image_read with checks; reads_tac.
Qed.
End laws.
#[export] Hint Resolve reads_by_label reads_container reads_commit reads_network reads_volume_remove reads_update
  reads_swarm_object reads_image_read reads_when reads_image : checks.

(** An admitted request passed every part. *)
Lemma admitted_parts env id action r r' d d' :
  checkOwnershipPreRequest env id action r d = (Pass r', d') →
  ∃ r1 d1 d2,
    check_container env id action r d = (Pass tt, d) ∧
    (action = ActionCommit → check_commit env id action r d = (Pass tt, d)) ∧
    (if action ==s ActionCreateContainer then check_create env id r else mret r) d = (Pass r1, d1) ∧
    check_image env id action r1 d1 = (Pass tt, d2) ∧
    (action = ActionUpdate → check_update env id r1 d2 = (Pass tt, d2)) ∧
    (if network_action action then check_network id r1 else mret r1) d2 = (Pass r', d') ∧ d' = d2 ∧
    (action = ActionVolumeRemove → check_volume_remove id r' d' = (Pass tt, d')) ∧
    (swarm_admin_action action = true → IsPrivileged id = true) ∧
    check_service id action r' d' = (Pass tt, d') ∧ check_secret id action r' d' = (Pass tt, d') ∧
    check_config id action r' d' = (Pass tt, d').
Proof.
  unfold checkOwnershipPreRequest. intros H.
  bind_inv H. bind_inv H. bind_inv H. bind_inv H. bind_inv H. bind_inv H. bind_inv H. bind_inv H. bind_inv H.
  bind_inv H. bind_inv H. injection H as <- <-.
  repeat match goal with a : () |- _ => destruct a end.
  assert (∀ b m d d', reads m → when b m d = (Pass (), d') → d' = d ∧ (b = true → m d = (Pass (), d))) as Hwhen.
  { intros b m x x' Hm Hw. assert (x' = x) as -> by (by eapply reads_Pass, Hw; apply reads_when). split; [done|]. by intros ->. }
  assert (d0 = d) as -> by (by eapply reads_Pass, E; auto with checks).
  apply Hwhen in E0 as [-> E0]; [|auto with checks].
  apply Hwhen in E3 as [-> E3]; [|auto with checks].
  assert (d5 = d3) as -> by (eapply reads_Pass, E4; destruct (network_action action); auto with checks).
  apply Hwhen in E5 as [-> E5]; [|auto with checks].
  apply Hwhen in E6 as [-> E6]; [|auto with checks].
  assert (d8 = d3) as -> by (eapply reads_Pass, E7; apply reads_swarm_object).
  assert (d9 = d3) as -> by (eapply reads_Pass, E8; apply reads_swarm_object).
  assert (d10 = d3) as -> by (eapply reads_Pass, E9; apply reads_swarm_object).
  exists a1, d2, d3. split_and!; try done.
  - intros ->. by apply E0.
  - intros ->. by apply E3.
  - intros ->. by apply E5.
  - intros Hs. destruct (IsPrivileged id); [done|]. rewrite Hs in E6. by specialize (E6 eq_refl).
Qed.

(** ** Properties: admitted requests *)

Lemma check_create_url env id r r' d d' : check_create env id r d = (Pass r', d') → rq_URL r' = rq_URL r ∧ rq_Method r' = rq_Method r.
Proof.
  unfold check_create. intros H. bind_inv H. bind_inv H. bind_inv H. destruct (IsPrivileged id).
  { by injection H as <- _. }
  unfold create_body_checks in H. do 9 bind_inv H. injection H as <- _. by case_match.
Qed.

Lemma check_network_url id r r' d d' :
  check_network id r d = (Pass r', d') →
  rq_URL r' = rq_URL r ∨
  ∃ lookupID, GetNetworkIDByName (TrimPrefix (ExtractNetworkID (url_Path (rq_URL r))) (UserResourcePrefix id)) d = Some lookupID ∧
    rq_URL r' = set_path (Replace1 (url_Path (rq_URL r)) ("/networks/" +:+ ExtractNetworkID (url_Path (rq_URL r)))
                            ("/networks/" +:+ lookupID)) (rq_URL r).
Proof.
  unfold check_network. destruct (_ || _); [intros [= <- _]; by left|]. intros H. bind_inv H.
  destruct a as [lookupID fix_]. bind_inv H. destruct a as [|[]]; try done. injection H as <- _.
  destruct (fix_ && _) eqn:Ef; [right|by left]. exists lookupID. split; [|done].
  apply andb_true_iff in Ef as [-> _]. injection E as E _. unfold lookup_network in E.
  destruct (GetNetworkIDByName (ExtractNetworkID _) d); [done|].
  destruct (_ !=s _); [|done]. destruct (GetNetworkIDByName (TrimPrefix _ _) d); congruence.
Qed.

(** C3: An unprivileged user's request that addresses a container passes the checks only
    when its record names the user; or it has no record and the daemon's labels name the
    user last; or it has no record and its labels cannot be had (it does not exist, the
    daemon does not answer, or has none), and the action is one of those that pass then,
    or an inspection of what the daemon knows as an image. *)
Theorem admitted_container_is_own env id action r r' d d' :
  IsPrivileged id = false → checkOwnershipPreRequest env id action r d = (Pass r', d') →
  let docker := env_docker (pe_env env) in
  let c := ExtractContainerID (url_Path (rq_URL r)) in
  c ≠ "" → containerSpecialIDs c = false →
  (∃ o, GetContainerOwner c d = Some o ∧ oi_UID o = RealUID id) ∨
  (GetContainerOwner c d = None ∧
   match fetchContainerLabels docker c with
   | Some labels =>
     GetLastLabelValue (map_get labels LabelOwnerUID) ≠ "" ∧
       scan_uid 0 (GetLastLabelValue (map_get labels LabelOwnerUID)) = Some (RealUID id) ∨
     RealUsername id ≠ "" ∧ GetLastLabelValue (map_get labels LabelOwner) = RealUsername id
   | None =>
     action ∈ [ActionRemoveContainer; ActionStop; ActionKill; ActionPause; ActionUnpause] ∨
     action = ActionInspect ∧ resolveImageIDByRef docker c ≠ ""
   end).
Proof.
  intros Hp H docker c Hc Hs. apply admitted_parts in H as (r1 & d1 & d2 & H & _).
  unfold check_container in H. fold c in H. apply String.eqb_neq in Hc. rewrite Hc, Hs in H. cbn [orb] in H.
  bind_inv H. injection E as <- <-. destruct (GetContainerOwner c d) as [o|].
  - left. exists o. split; [done|]. rewrite Hp in H. destruct (oi_UID o ==z RealUID id) eqn:Eo; [by apply Z.eqb_eq|done].
  - right. split; [done|]. rewrite Hp in H. unfold checkContainerOwnershipByLabel in H. fold docker in H.
    destruct (fetchContainerLabels docker c) as [labels|].
    { destruct (labels_own id labels) eqn:El; [|done]. unfold labels_own in El.
      apply orb_true_iff in El as [[Hl%negb_true_iff%String.eqb_neq Hv%bool_decide_eq_true]%andb_true_iff|
        [Hl%negb_true_iff%String.eqb_neq Hv%String.eqb_eq]%andb_true_iff]; [by left|right]. by rewrite Hv in Hl. }
    destruct ((action ==s ActionInspect) && _) eqn:Ei.
    + right. apply andb_true_iff in Ei as [?%String.eqb_eq ?%negb_true_iff]. split; [done|]. by apply String.eqb_neq.
    + left. destruct (absent_passes action) eqn:Ea; [|done]. unfold absent_passes in Ea.
      rewrite !orb_true_iff, !String.eqb_eq in Ea. rewrite !elem_of_cons. tauto.
Qed.

(** A request about an object with a record: an unprivileged user's goes on only
    when the record names the user. *)
Lemma swarm_object_own kind actions ex ow id action r d d' :
  check_swarm_object kind actions ex ow id action r d = (Pass tt, d') →
  action ∈ actions → IsPrivileged id = false → ex (url_Path (rq_URL r)) ≠ "" →
  ∃ o, ow (ex (url_Path (rq_URL r))) d = Some o ∧ oi_UID o = RealUID id.
Proof.
  unfold check_swarm_object. intros H Ha Hp Hne%String.eqb_neq. apply elem_spec in Ha.
  unfold elem in Ha. rewrite Ha in H. cbn [negb] in H. rewrite Hne, Hp in H. cbn [orb] in H. bind_inv H.
  injection E as <- <-. destruct (ow _ d) as [o|]; [|done]. exists o. split; [done|].
  destruct (oi_UID o ==z RealUID id) eqn:E; [by apply Z.eqb_eq|done].
Qed.

Lemma RewriteVolumeURL_completed given uid :
  ExtractVolumeName given ∉ [""; "create"; "prune"] → isHexID (ExtractVolumeName given) = false →
  ExtractVolumeName (RewriteVolumeURL given uid) = add_prefix (UserVolumePrefix uid) (ExtractVolumeName given).
Proof.
  intros Hn Hx. unfold add_prefix. destruct (HasPrefix _ _) eqn:Ep.
  - unfold RewriteVolumeURL. rewrite Hx, Ep. by destruct (_ || _).
  - by apply RewriteVolumeURL_segment.
Qed.

(** C4: An unprivileged user's request for a network, a volume to be removed or an
    object of the swarm passes the checks only when the records give it to the user: the
    network, as far as its name is found, is one the user may access; the service, secret
    or config named is recorded as the user's; the volume whose name is that of the path
    completed with the user's prefix is recorded as the user's, and this is the volume of
    the path when the path is one the proxy has completed and the name given was no
    hexadecimal id (for those see [volume_removal_checks_another_name]); and no request
    for the administration of the swarm passes. *)
Theorem admitted_objects_are_own env id action r r' d d' :
  IsPrivileged id = false → checkOwnershipPreRequest env id action r d = (Pass r', d') →
  let path := url_Path (rq_URL r) in
  swarm_admin_action action = false ∧
  (network_action action = true → ExtractNetworkID path ≠ "" →
     CanUserAccessNetwork (lookup_network id (ExtractNetworkID path) d').1 (RealUID id) d' = inr true) ∧
  (action = ActionVolumeRemove → ExtractVolumeName path ≠ "" → ∃ o,
     GetVolumeOwner (add_prefix (UserVolumePrefix (RealUID id)) (ExtractVolumeName path)) d' = Some o ∧ oi_UID o = RealUID id ∧
     ∀ given, path = RewriteVolumeURL given (RealUID id) → ExtractVolumeName given ∉ [""; "create"; "prune"] →
       isHexID (ExtractVolumeName given) = false → GetVolumeOwner (ExtractVolumeName path) d' = Some o) ∧
  (action ∈ [ActionServiceInspect; ActionServiceUpdate; ActionServiceRemove; ActionServiceLogs] → ExtractServiceID path ≠ "" →
     ∃ o, GetServiceOwner (ExtractServiceID path) d' = Some o ∧ oi_UID o = RealUID id) ∧
  (action ∈ [ActionSecretInspect; ActionSecretUpdate; ActionSecretRemove] → ExtractSecretID path ≠ "" →
     ∃ o, GetSecretOwner (ExtractSecretID path) d' = Some o ∧ oi_UID o = RealUID id) ∧
  (action ∈ [ActionConfigInspect; ActionConfigUpdate; ActionConfigRemove] → ExtractConfigID path ≠ "" →
     ∃ o, GetConfigOwner (ExtractConfigID path) d' = Some o ∧ oi_UID o = RealUID id).
Proof.
  intros Hp H path.
  apply admitted_parts in H as (r1 & d1 & d2 & _ & _ & Hcr & _ & _ & Hnet & -> & Hvol & Hadm & Hsvc & Hsec & Hcfg).
  assert (rq_URL r1 = rq_URL r) as Hu1.
  { destruct (action ==s ActionCreateContainer); [by apply check_create_url in Hcr as []|by injection Hcr as <- _]. }
  assert (network_action action = false → rq_URL r' = rq_URL r) as Hu'.
  { intros Hn. rewrite Hn in Hnet. by injection Hnet as <-. }
  split_and!.
  4-6: (intros Ha Hne; unfold path in *; rewrite <- Hu' in Hne |- * by (set_unfold in Ha; by destruct_or! Ha; subst);
    by eapply swarm_object_own).
  - destruct (swarm_admin_action action); [by rewrite Hadm in Hp|done].
  - intros Hn Hne%String.eqb_neq. rewrite Hn in Hnet. unfold check_network in Hnet.
    rewrite Hu1 in Hnet. fold path in Hnet. rewrite Hne, Hp in Hnet. cbn [orb] in Hnet.
    bind_inv Hnet. injection E as <- <-. destruct (lookup_network id (ExtractNetworkID path) d2) as [l f]. bind_inv Hnet.
    injection E as <- <-. simpl. by destruct (CanUserAccessNetwork l (RealUID id) d2) as [|[]].
  - intros -> Hne%String.eqb_neq. specialize (Hvol eq_refl). unfold check_volume_remove in Hvol.
    rewrite Hu' in Hvol by done. fold path in Hvol. rewrite Hne, Hp in Hvol. cbn [orb] in Hvol. cbv zeta in Hvol.
    bind_inv Hvol. injection E as <- <-. destruct (GetVolumeOwner _ d2) as [o|] eqn:Eo; [|done]. exists o. split; [done|].
    destruct (oi_UID o ==z RealUID id) eqn:E; [split; [by apply Z.eqb_eq|]|done]. intros given Hg Hs Hx. rewrite <- Eo. f_equal.
    rewrite Hg. rewrite RewriteVolumeURL_completed by done. unfold add_prefix. destruct (HasPrefix _ _) eqn:Ep; [by rewrite Ep|].
    by rewrite HasPrefix_app.
Qed.

(** ** Properties: where a check and the daemon disagree *)

Definition plain_request (method path : string) (query : string) (b : body) : Request :=
  mkRequest method (mkHttpURL path "" query) [] b None [].

Lemma isHexID_no_slash v : isHexID v = true → str_forallb (λ d, negb (Ascii.eqb "/" d)) v = true ∧ v ≠ "".
Proof.
  unfold isHexID. destruct (negb _ && _) eqn:E; [done|]. intros H. split.
  - eapply str_forallb_impl, H. intros c Hc. destruct (Ascii.eqb_spec "/" c) as [<-|]; [by vm_compute in Hc|done].
  - by intros ->.
Qed.

Lemma ExtractVolumeName_hex v : isHexID v = true → ExtractVolumeName ("/volumes/" +:+ v) = v.
Proof.
  intros [Hs Hne]%isHexID_no_slash. unfold ExtractVolumeName, path_segment.
  rewrite (proj2 (proj2 rooted_volumes)), HasPrefix_app, str_drop_app. cbn [negb].
  rewrite <- (app_nil_r_str v) at 1. by apply cutSlash_app; [|left].
Qed.

(** The removal of a volume is decided for one name and done for another.  The
    name of a volume of 12 or 64 hexadecimal digits (the form of the daemon's
    anonymous volumes) is not completed in the URL, but the check looks up the
    completed name: a user who owns [user-UID-volume-NAME] has the removal of
    [NAME] itself, whoever's volume that is, admitted and forwarded as it came. *)
Theorem volume_removal_checks_another_name env id v o d :
  IsPrivileged id = false → isHexID v = true →
  GetVolumeOwner (UserVolumePrefix (RealUID id) +:+ v) d = Some o → oi_UID o = RealUID id →
  let r := plain_request "DELETE" ("/volumes/" +:+ v) "" EmptyBody in
  RewriteVolumeURL (url_Path (rq_URL r)) (RealUID id) = url_Path (rq_URL r) ∧
  checkOwnershipPreRequest env id ActionVolumeRemove r d = (Pass r, d).
Proof.
  intros Hp Hv Ho Hu r. pose proof (ExtractVolumeName_hex v Hv) as Hn.
  assert (ExtractContainerID ("/volumes/" +:+ v) = "") as Hc.
  { unfold ExtractContainerID. rewrite (proj2 (proj2 rooted_volumes)).
    unfold cutQuery. destruct (Index ("/volumes/" +:+ v) "?") as [n|] eqn:E; [|done].
    assert (HasPrefix (str_take n ("/volumes/" +:+ v)) "/containers/" = false) as Hf.
    { destruct n as [|[|n]]; done. }
    cbn [fst]. by rewrite Hf. }
  split.
  - unfold RewriteVolumeURL. cbn [rq_URL url_Path plain_request r]. rewrite Hn, Hv. by destruct (_ || _).
  - unfold checkOwnershipPreRequest, check_container. cbn [rq_URL url_Path plain_request r]. rewrite Hc.
    cbn [orb String.eqb]. 
    assert (HasPrefix v (UserVolumePrefix (RealUID id)) = false) as Hnp.
    { destruct (HasPrefix v (UserVolumePrefix (RealUID id))) eqn:E; [|done]. exfalso.
      apply HasPrefix_spec in E as [x ->]. unfold isHexID in Hv. destruct (negb _ && _); [done|]. by vm_compute in Hv. }
    assert (check_volume_remove id r d = (Pass tt, d)) as Hcv.
    { unfold check_volume_remove. cbn [rq_URL url_Path plain_request r]. rewrite Hn, Hp.
      destruct (v ==s "") eqn:E; [done|]. cbn [orb]. unfold add_prefix. rewrite Hnp.
      unfold mbind, M_bind, ask. rewrite Ho, Hu, Z.eqb_refl. done. }
    unfold mbind, M_bind, when in *. fold r. cbn -[check_volume_remove]. by rewrite Hcv.
Qed.

Lemma ExtractContainerID_other s :
  StripAPIVersion s = s → HasPrefix s "/containers/" = false → ExtractContainerID s = "".
Proof.
  intros Hs Hp. unfold ExtractContainerID. rewrite Hs. unfold cutQuery.
  destruct (Index s "?") as [n|]; cbn [fst]; [|by rewrite Hp].
  destruct (HasPrefix (str_take n s) "/containers/") eqn:E; [|done]. exfalso.
  assert (HasPrefix s (str_take n s) = true) as Ht by (rewrite <- (str_take_drop n s) at 1; apply HasPrefix_app).
  by rewrite (HasPrefix_trans s (str_take n s) "/containers/" Ht E) in Hp.
Qed.

(** Joining a network asks nothing about the container.  A user who may access
    a network has the request to connect (or disconnect) any container id to it
    admitted, and its body, which names the container, forwarded as it came,
    whoever's container that is. *)
Theorem network_connect_takes_any_container env id n netID c action d :
  IsPrivileged id = false → str_forallb (λ d, negb (Ascii.eqb "/" d)) n = true → n ≠ "" →
  GetNetworkIDByName n d = Some netID → CanUserAccessNetwork netID (RealUID id) d = inr true →
  isHexID c = true →
  action = ActionNetworkConnect ∨ action = ActionNetworkDisconnect →
  let b := Doc (JObj [("Container", JStr c)]) in
  let r := plain_request "POST" ("/networks/" +:+ n +:+ "/connect") "" b in
  checkOwnershipPreRequest env id action r d = (Pass r, d) ∧ RewriteContainerInNetworkBody b (RealUID id) = Returns b.
Proof.
  intros Hp Hs Hne Hid Hacc Hhex Ha b r. split.
  - assert (ExtractContainerID ("/networks/" +:+ n +:+ "/connect") = "") as Hc
      by (apply ExtractContainerID_other; [apply rooted_networks|done]).
    assert (ExtractNetworkID ("/networks/" +:+ n +:+ "/connect") = n) as Hn.
    { unfold ExtractNetworkID, path_segment.
      rewrite (proj2 (proj2 rooted_networks)), HasPrefix_app, str_drop_app. cbn [negb].
      apply cutSlash_app; [done|]. right. by eexists. }
    assert (check_network id r d = (Pass r, d)) as Hcn.
    { unfold check_network. cbn [rq_URL url_Path plain_request r]. rewrite Hn, Hp, (proj2 (String.eqb_neq _ _) Hne).
      cbn [orb]. unfold mbind, M_bind, ask, lookup_network. rewrite Hid, Hacc. done. }
    unfold checkOwnershipPreRequest, check_container. cbn [rq_URL url_Path plain_request r]. rewrite Hc.
    unfold mbind, M_bind, when in *. fold r. destruct Ha as [->| ->]; cbn -[check_network]; by rewrite Hcn.
  - unfold b, RewriteContainerInNetworkBody. cbn [rewrite_object unmarshal_map].
    assert (obj_map [("Container", JStr c)] !! "Container" = Some (JStr c)) as -> by (by vm_compute).
    cbn [decode_string]. destruct (c ==s "") eqn:E; [by apply String.eqb_eq in E as ->|].
    cbn [negb orb]. by rewrite Hhex, orb_true_r.
Qed.

Lemma admitted_save env id r d :
  url_Path (rq_URL r) = "/images/get" →
  checkOwnershipPreRequest env id ActionSave r d = (_ ← check_image_read env id ActionSave r; mret r) d.
Proof.
  intros Hp. unfold checkOwnershipPreRequest, check_container. rewrite Hp.
  replace (ExtractContainerID "/images/get") with "" by (by vm_compute). unfold mbind, M_bind, when.
  cbn -[check_image_read]. destruct (check_image_read env id ActionSave r d) as [[[]| |] d1]; done.
Qed.

(** [docker save] of several images is decided by the first.  With two names
    in the query the check gives the verdict of the first alone, whatever the
    second names, while the daemon is asked for both. *)
Theorem save_checks_the_first_name env id a b d :
  str_forallb query_plain a = true → str_forallb query_plain b = true →
  let both := plain_request "GET" "/images/get" ("names=" +:+ a +:+ "&names=" +:+ b) EmptyBody in
  let first := plain_request "GET" "/images/get" ("names=" +:+ a) EmptyBody in
  url_Query (rq_URL both) = [("names", a); ("names", b)] ∧
  (checkOwnershipPreRequest env id ActionSave both d).2 = (checkOwnershipPreRequest env id ActionSave first d).2 ∧
  match (checkOwnershipPreRequest env id ActionSave first d).1 with
  | Pass _ => (checkOwnershipPreRequest env id ActionSave both d).1 = Pass both
  | Reject r => (checkOwnershipPreRequest env id ActionSave both d).1 = Reject r
  | Crash => False
  end.
Proof.
  intros Ha Hb both first.
  assert (url_Query (rq_URL both) = [("names", a); ("names", b)]) as Hq.
  { unfold url_Query. cbn [rq_URL url_RawQuery plain_request both].
    change ("names=" +:+ a +:+ "&names=" +:+ b) with ("names" +:+ "=" +:+ a +:+ "&" +:+ "names" +:+ "=" +:+ b).
    rewrite ParseQuery_cons, ParseQuery_pair by done. done. }
  assert (url_Query (rq_URL first) = [("names", a)]) as Hq1.
  { unfold url_Query. cbn [rq_URL url_RawQuery plain_request first].
    change ("names=" +:+ a) with ("names" +:+ "=" +:+ a). by apply ParseQuery_pair. }
  assert (check_image_read env id ActionSave both d = check_image_read env id ActionSave first d) as Hr.
  { unfold check_image_read, image_ref_of. rewrite Hq, Hq1. done. }
  split; [done|]. rewrite !admitted_save by done. unfold mbind, M_bind. rewrite Hr.
  assert ((check_image_read env id ActionSave first d).1 ≠ Crash) as Hc.
  { unfold check_image_read, mbind, M_bind, ask. by repeat case_match. }
  destruct (check_image_read env id ActionSave first d) as [[[]|rj|] d1]; done.
Qed.

(** ** Properties: creations *)

(** The host network is reached by spelling the mode differently.  A creation
    whose host configuration has [networkMode] set to [host] requests no network
    that is refused, and the body with the user's own network injected is still
    decoded by the daemon, which reads that member last, as on the host network. *)
Theorem host_network_in_other_case id d uid peers requested :
  let b := Doc (JObj [("HostConfig", JObj [("networkMode", JStr "host")])]) in
  (∀ n, n ∈ ExtractRequestedNetworks b → create_network_ok id n d = true) ∧
  ∃ j', InjectUserNetwork b uid peers requested = Returns (Doc j') ∧
    cn_mode (decode_create_networks (mkCreateNetworks "" None) j').1 = "host".
Proof.
  intros b. split.
  - replace (ExtractRequestedNetworks b) with ["host"] by (by vm_compute).
    intros n ->%list_elem_of_singleton. done.
  - unfold InjectUserNetwork. unfold b at 1. cbn [rewrite_object unmarshal_map].
    eexists. split; [reflexivity|].
    generalize (marshal_map {["EndpointsConfig" := marshal_map (add_peers peers
      (user_endpoints b (UserBridgeName uid) (orig_endpoints (obj_map [("HostConfig", JObj [("networkMode", JStr "host")])]))
         requested))]}) as networking.
    generalize (primary_network uid requested) as mode. intros mode networking. vm_compute. reflexivity.
Qed.

Lemma check_create_image_usable env id r d d' :
  IsPrivileged id = false → check_create_image env id r d = (Pass tt, d') →
  let ref := extractImageRefFromBody (rq_Body r) in
  let img := resolveImageIDByRef (env_docker (pe_env env)) ref in
  ref ≠ "" → img ≠ "" →
  (CanUseImage (RealUID id) img d = true ∨ CanUseImage (RealUID id) (refImageDigest ref) d = true ∨
   ∃ owner priv, GetImageOwner img d = Some (owner, true, priv)) ∧
  (isBuildKitImage ref = true → IsDenied (env_os (pe_env env)) (env_policy (pe_env env)) id ActionBuild = false).
Proof.
  intros Hp H ref img Hr Hi. unfold check_create_image in H. fold ref img in H.
  rewrite (proj2 (String.eqb_neq _ _) Hr), (proj2 (String.eqb_neq _ _) Hi), Hp in H. cbn [negb andb] in H.
  assert (∀ d0 d1 b, bridgeImageAccessByRefDigest env id ref img d0 = (Pass b, d1) → b = true →
    CanUseImage (RealUID id) (refImageDigest ref) d0 = true) as Hbridge.
  { intros d0 d1 b Hb ->. unfold bridgeImageAccessByRefDigest in Hb. destruct (_ || _); [done|]. bind_inv Hb.
    injection E as <- <-. by destruct (CanUseImage (RealUID id) (refImageDigest ref) d0). }
  destruct (isBuildKitImage ref && _) eqn:Ebk; [done|].
  split; [|by intros Hb; rewrite Hb in Ebk].
  bind_inv H. injection E as <- <-. destruct (GetImageOwner img d) as [[[owner [|]] priv]|]; [by right; right; eauto|..].
  - bind_inv H. injection E as <- <-. destruct (CanUseImage (RealUID id) img d); [by left|]. bind_inv H.
    destruct a; [|done]. right; left. by eapply Hbridge.
  - bind_inv H. destruct a; [|done]. right; left. by eapply Hbridge.
Qed.

Lemma ask_Pass {A} (q : OwnershipDB → A) d a d' : ask q d = (Pass a, d') → a = q d ∧ d' = d.
Proof. by intros [= <- <-]. Qed.
Lemma of_run_Pass {A} (x : run A) d a d' : of_run x d = (Pass a, d') → x = Returns a ∧ d' = d.
Proof. unfold of_run. intros H. destruct x; [|done]. injection H as <- <-. done. Qed.

Lemma networks_Pass id r d d' :
  checkCreateContainerNetworks id r d = (Pass tt, d') →
  d' = d ∧ ∀ n, n ∈ ExtractRequestedNetworks (rq_Body r) → create_network_ok id n d = true.
Proof.
  unfold checkCreateContainerNetworks. intros H. bind_inv H. apply ask_Pass in E as [-> ->].
  destruct (find_first _ _) eqn:Hf; [done|]. injection H as <-. split; [done|]. intros n Hn.
  rewrite find_first_None in Hf. specialize (Hf n Hn). by apply negb_false_iff in Hf.
Qed.

Lemma quota_Pass env qm id b b' d d' :
  pe_quota env = Some qm → check_create_quota env id b d = (Pass b', d') →
  d' = d ∧ CheckAndInjectQuota (pe_numCPU env) b (GetQuota (env_os (pe_env env)) id qm) (RealUID id) (Some d)
             (qe_CPUCores (GetDefaultQuota qm)) (qe_MemMB (GetDefaultQuota qm)) = Returns (Allowed b').
Proof.
  intros Hq. unfold check_create_quota. rewrite Hq. intros H. bind_inv H. apply ask_Pass in E as [-> ->].
  cbv zeta in H. bind_inv H. apply of_run_Pass in E as [E ->]. destruct a; [done|]. injection H as <- <-. done.
Qed.

Lemma create_body_Pass env qm id r b r' d d' :
  IsPrivileged id = false → pe_quota env = Some qm → create_body_checks env id r b d = (Pass r', d') →
  let quota := GetQuota (env_os (pe_env env)) id qm in
  let uid := RealUID id in
  ∃ b2 b3,
    ValidateBindMounts b (pe_storageBase env) uid
      (if pe_allowHomeBind env then LookupHomeDir (env_os (pe_env env)) uid else "") = None ∧
    ValidateAndInjectTmpfs b (qe_TmpfsSizeMB quota) = TmpfsBody b2 ∧
    ValidateDeviceMounts b2 (qe_AllowedDevices quota) uid = None ∧
    ValidateVolumesFrom (resolveContainerDockerID (env_docker (pe_env env))) b2 uid false d = None ∧
    ValidateAndRewriteNamedVolumes b2 uid d = Returns (inr b3) ∧
    port_conflict b3 d = None ∧
    rq_portMappings r' = (match ExtractPortMappings b3 with [] => rq_portMappings r | ps => ps end) ∧
    InjectUserNetwork b3 uid (user_peer_networks uid d') (user_requested_networks id b3) = Returns (rq_Body r').
Proof.
  intros Hp Hq H quota uid. unfold create_body_checks in H.
  bind_inv H. unfold check_bind_mounts in E. destruct (ValidateBindMounts _ _ _ _) as [[]|] eqn:Hb; [done|]. injection E as _ <-.
  bind_inv H. unfold check_tmpfs in E. rewrite Hq in E. destruct (ValidateAndInjectTmpfs _ _) eqn:Ht; [done|]. injection E as <- <-.
  bind_inv H. unfold check_devices in E. rewrite Hq in E. destruct (ValidateDeviceMounts _ _ _) eqn:Hd; [done|]. injection E as _ <-.
  bind_inv H. unfold check_volumes_from in E. rewrite Hp in E. bind_inv E. apply ask_Pass in E0 as [-> ->].
  destruct (ValidateVolumesFrom _ _ _ _ _) eqn:Hv; [done|]. injection E as _ <-.
  bind_inv H. unfold check_named_volumes in E. bind_inv E. apply ask_Pass in E0 as [-> ->].
  bind_inv E. apply of_run_Pass in E0 as [Hn ->].
  match type of Hn with _ = Returns ?x => destruct x; [done|] end. injection E as <- <-.
  bind_inv H. unfold checkPortConflict in E. bind_inv E. apply ask_Pass in E0 as [-> ->].
  destruct (port_conflict _ _) as [[]|] eqn:Hpc; [done|]. injection E as _ <-.
  cbv zeta in H. bind_inv H. clear E. bind_inv H. apply ask_Pass in E as [-> ->].
  bind_inv H. apply of_run_Pass in E as [E ->]. injection H as <- <-.
  eexists _, _. split_and!; [done|reflexivity|done|done|exact Hn|done| |exact E].
  by destruct (ExtractPortMappings _).
Qed.

(** The networks a creation may ask for. *)
Definition may_join (id : CallerIdentity) (d : OwnershipDB) (n : string) : Prop :=
  n ∈ ["default"; "bridge"; "host"; "none"; UserBridgeName (RealUID id)] ∨ HasPrefix n (UserResourcePrefix id) = true ∨
  CanUserAccessNetwork (default n (GetNetworkIDByName (UserResourcePrefix id +:+ n) d)) (RealUID id) d = inr true.
Lemma create_network_ok_joins id n d : create_network_ok id n d = true → may_join id d n.
Proof.
  unfold create_network_ok, default_network, may_join. rewrite !elem_of_cons.
  destruct (_ || HasPrefix n _) eqn:E; [|by destruct (CanUserAccessNetwork _ _ _) as [|[]]; auto].
  intros _. rewrite !orb_true_iff, !String.eqb_eq in E. tauto.
Qed.

(** What the binds, devices, shared volumes, named volumes and host ports of an accepted
    creation are, [b1] being its body with the limits, [b2] with the sizes of its tmpfs
    mounts and [b3] with the names of its volumes completed. *)
Record reaches_own (env : ProxyEnv) (id : CallerIdentity) (patterns : list string) (b1 b2 b3 : body) (d : OwnershipDB) : Prop := {
  ro_binds j src : b1 = Doc j → is_Some (host_mounts b1) → asks_for_bind j src → is_rooted src = true →
    let home := if pe_allowHomeBind env then LookupHomeDir (env_os (pe_env env)) (RealUID id) else "" in
    is_rooted (pe_storageBase env) = true → (home ≠ "" → is_rooted home = true) →
    ∃ root, (root = UserStorageRoot (pe_storageBase env) (RealUID id) ∨ root = home ∧ home ≠ "") ∧ clean_segs root `prefix_of` clean_segs src;
  ro_devices paths path : host_devices b2 = Some paths → path ∈ paths → path ≠ "" →
    ∃ pattern, pattern ∈ patterns ∧ Match pattern path = Some true;
  ro_volumes_from refs ref : host_volumes_from b2 = Some refs → ref ∈ refs →
    let c := resolve_ref (resolveContainerDockerID (env_docker (pe_env env))) (volumes_from_ref ref) in
    ∃ row, tbl_lookup c (containers d) = Some row ∧
      (c_owner_uid row = RealUID id ∨
       ∃ g, g ∈ volumes_from_access d ∧ vf_container_id g = c ∧ (vf_grantee_uid g = RealUID id ∨ vf_grantee_uid g = all_users));
  ro_volumes kvs owned : b2 = Doc (JObj kvs) → plain_volumes kvs → volume_names_of (RealUID id) d = inr owned →
    unmarshal_as (decode_host_config decode_host_volumes (mkHostVolumes [] [])) (mkHostVolumes [] []) (JObj kvs) ≠ None →
    ∃ j', b3 = Doc j' ∧
      let h := top_field decode_host_volumes "HostConfig" (mkHostVolumes [] []) j' in
      forallb (own_bind (UserVolumePrefix (RealUID id))) (hv_Binds h) = true ∧
      forallb (own_mount (UserVolumePrefix (RealUID id))) (hv_Mounts h) = true;
  ro_ports m : m ∈ ExtractPortMappings b3 → GetPortMapping (HostPort m) (Protocol m) d = None;
}.

Lemma accepted_reaches_own env id patterns b1 b2 b3 d :
  RealUID id ≠ 0%Z →
  ValidateBindMounts b1 (pe_storageBase env) (RealUID id) (if pe_allowHomeBind env then LookupHomeDir (env_os (pe_env env)) (RealUID id) else "") = None →
  ValidateDeviceMounts b2 patterns (RealUID id) = None →
  ValidateVolumesFrom (resolveContainerDockerID (env_docker (pe_env env))) b2 (RealUID id) false d = None →
  ValidateAndRewriteNamedVolumes b2 (RealUID id) d = Returns (inr b3) → port_conflict b3 d = None →
  reaches_own env id patterns b1 b2 b3 d.
Proof.
  intros Hu Hb Hd Hv Hn Hp. constructor.
  - intros j src -> [h Hh] Ha Hr home Hbase Hhome.
    destruct (accepted_source_under (Doc j) (pe_storageBase env) (RealUID id) home src) as (root & H1 & _ & H2); try done.
    + apply (asked_bind_parsed j src h Hh Ha). by intros ->.
    + by exists root.
  - intros paths path Hdev Hin Hne. by apply (devices_whitelisted b2 patterns (RealUID id) paths path).
  - intros refs ref Hrefs Hin. by apply (volumes_from_owned_or_granted _ b2 (RealUID id) d refs ref).
  - intros kvs owned -> Hpl Hown Hdec. by apply (named_volumes_own kvs (RealUID id) d owned b3).
  - intros m Hm. unfold port_conflict in Hp. destruct (find_first _ _) as [x|] eqn:E.
    + apply find_first_Some in E as [_ E]. by destruct (GetPortMapping (HostPort x) (Protocol x) d).
    + rewrite find_first_None in E. specialize (E m Hm). by destruct (GetPortMapping _ _ _).
Qed.


(** ** Examples *)

Module PreRequestDemo.

Definition alice : CallerIdentity := ImageDemo.alice.

(** alice references the image [app]; she owns a container, two volumes (one
    with a name of the daemon's form) and a network. *)
Definition db : OwnershipDB :=
  (SetContainerOwner 1 FilterDemo.web_id alice "" (SetVolumeOwner 2 "user-1001-volume-data" alice
     (SetVolumeOwner 3 "user-1001-volume-0123456789ab" alice
        (SetNetworkOwner 4 "feedbeef0001" "alice_u1001_net" alice ImageDemo.db).2).2).2).2.

Definition env : ProxyEnv :=
  mkProxyEnv PermDemo.env None (Some QuotaDemo.manager) 8 "/data/users" false 100.

Definition inspect : Request := plain_request "GET" ("/v1.41/containers/" +:+ FilterDemo.web_id +:+ "/json") "" EmptyBody.
Definition remove_volume : Request := plain_request "DELETE" "/volumes/user-1001-volume-data" "" EmptyBody.

Definition create : Request :=
  plain_request "POST" "/containers/create" "" (Doc (JObj [("Image", JStr "app");
    ("HostConfig", JObj [("Binds", JArr [JStr "data:/data"]); ("Memory", JInt 268435456); ("NetworkMode", JStr "net")])])).
(** What is left of the creation after the checks. *)
Definition created : outcome Request * OwnershipDB :=
  checkOwnershipPreRequest env alice ActionCreateContainer create db.
Definition created_body : body := match created.1 with Pass r => rq_Body r | _ => EmptyBody end.

Example created_passes :
  created_body =
  Doc (JObj [("HostConfig", JObj [("Binds", JArr [JStr "user-1001-volume-data:/data"]); ("Memory", JInt 268435456);
      ("MemorySwap", JInt 268435456); ("MemorySwappiness", JInt 0);
      ("NanoCpus", JInt 2000000000); ("NetworkMode", JStr "alice_u1001_net");
      ("StorageOpt", JObj [("size", JStr "10G")])]);
    ("Image", JStr "app");
    ("NetworkingConfig", JObj [("EndpointsConfig", JObj [("alice_u1001_net", JObj []); (UserBridgeName 1001, JObj [])])])]).
Proof. vm_compute. reflexivity. Qed.

End PreRequestDemo.

(** ** Witnesses *)

Lemma admitted_container_is_own_witness :
  checkOwnershipPreRequest PreRequestDemo.env PreRequestDemo.alice ActionInspect PreRequestDemo.inspect PreRequestDemo.db
    = (Pass PreRequestDemo.inspect, PreRequestDemo.db) ∧
  ∃ o, GetContainerOwner FilterDemo.web_id PreRequestDemo.db = Some o ∧ oi_UID o = 1001%Z.
Proof.
  assert (checkOwnershipPreRequest PreRequestDemo.env PreRequestDemo.alice ActionInspect PreRequestDemo.inspect
    PreRequestDemo.db = (Pass PreRequestDemo.inspect, PreRequestDemo.db)) as H by (vm_compute; reflexivity).
  split; [exact H|].
  destruct (admitted_container_is_own PreRequestDemo.env PreRequestDemo.alice ActionInspect PreRequestDemo.inspect
    PreRequestDemo.inspect PreRequestDemo.db PreRequestDemo.db eq_refl H) as [Ho|[Ho _]]; [done..|exact Ho|].
  vm_compute in Ho. discriminate.
Defined.

Lemma admitted_objects_are_own_witness :
  checkOwnershipPreRequest PreRequestDemo.env PreRequestDemo.alice ActionVolumeRemove PreRequestDemo.remove_volume
    PreRequestDemo.db = (Pass PreRequestDemo.remove_volume, PreRequestDemo.db) ∧
  ∃ o, GetVolumeOwner "user-1001-volume-data" PreRequestDemo.db = Some o ∧ oi_UID o = 1001%Z.
Proof.
  assert (checkOwnershipPreRequest PreRequestDemo.env PreRequestDemo.alice ActionVolumeRemove
    PreRequestDemo.remove_volume PreRequestDemo.db = (Pass PreRequestDemo.remove_volume, PreRequestDemo.db)) as H
    by (vm_compute; reflexivity).
  split; [exact H|].
  destruct (admitted_objects_are_own PreRequestDemo.env PreRequestDemo.alice ActionVolumeRemove
    PreRequestDemo.remove_volume PreRequestDemo.remove_volume PreRequestDemo.db PreRequestDemo.db eq_refl H)
    as (_ & _ & Hv & _). destruct (Hv eq_refl ltac:(done)) as (o & Ho & Hu & _). by exists o.
Defined.

Lemma volume_removal_checks_another_name_witness :
  let r := plain_request "DELETE" "/volumes/0123456789ab" "" EmptyBody in
  checkOwnershipPreRequest PreRequestDemo.env PreRequestDemo.alice ActionVolumeRemove r PreRequestDemo.db
    = (Pass r, PreRequestDemo.db).
Proof.
  intros r. apply (volume_removal_checks_another_name PreRequestDemo.env PreRequestDemo.alice "0123456789ab"
    (mkOwnerInfo "alice" 1001 0 "")); vm_compute; reflexivity.
Defined.

Lemma network_connect_takes_any_container_witness :
  let r := plain_request "POST" "/networks/alice_u1001_net/connect" ""
             (Doc (JObj [("Container", JStr "bbbbbbbbbbbb")])) in
  checkOwnershipPreRequest PreRequestDemo.env PreRequestDemo.alice ActionNetworkConnect r PreRequestDemo.db
    = (Pass r, PreRequestDemo.db).
Proof.
  intros r. apply (network_connect_takes_any_container PreRequestDemo.env PreRequestDemo.alice "alice_u1001_net"
    "feedbeef0001" "bbbbbbbbbbbb"); [done|vm_compute; reflexivity|done|vm_compute; reflexivity..|by left].
Defined.

Lemma save_checks_the_first_name_witness :
  (checkOwnershipPreRequest PreRequestDemo.env PreRequestDemo.alice ActionSave
     (plain_request "GET" "/images/get" "names=app&names=secret" EmptyBody) PreRequestDemo.db).1
  = Pass (plain_request "GET" "/images/get" "names=app&names=secret" EmptyBody).
Proof.
  destruct (save_checks_the_first_name PreRequestDemo.env PreRequestDemo.alice "app" "secret" PreRequestDemo.db
    eq_refl eq_refl) as (_ & _ & H). vm_compute in H |- *. exact H.
Defined.

