(* ===== verification/Pipeline.v ===== *)
(** * Pipeline: a request from its arrival to the daemon

    [ServeHTTP] of [internal/forward/proxy.go] (lines 498-896) and what it calls to
    classify and prepare a request: [isAuxiliaryCall], [isHijackRequest],
    [isLongLivedRequest], [isSlowAction], [preprocessRequest], the decision part of
    [handleHijack], the retries of [forward], and the entries left in the event
    maps while a request is at the daemon.  The outcome says what becomes of the
    request; the answers of the daemon to it are not modelled here.  Logging and the
    time stamps are left out; the audit trail is in Trail. *)

From stdpp Require Import sorting.
From S2P Require Import Prelude GoStrings GoJson Docker GoUrl OsLookup Identity Routes Policy Tables Database ImageDB.
From S2P Require Import ResourceDB Names Events ImagePerm Quota GoPath Storage Bodies Filter PreRequest.

(** ** Classification *)

(** The commands of the docker client and the actions each is for. *)
(** The actions each command of docker is for, by groups of commands. *)
Definition Targets : Type := list (string * list string).
Definition top_level_commands : Targets :=
  [("run", [ActionPull; ActionCreateContainer; ActionStartContainer; ActionRemoveContainer]);
   ("create", [ActionCreateContainer]); ("start", [ActionStartContainer]); ("stop", [ActionStop]);
   ("restart", [ActionRestart]); ("kill", [ActionKill]); ("rm", [ActionRemoveContainer]);
   ("exec", [ActionExec]); ("attach", [ActionAttach]); ("logs", [ActionLogs]); ("stats", [ActionLogs]);
   ("top", [ActionLogs]); ("cp", [ActionCp]); ("commit", [ActionCommit]); ("ps", [ActionPS]);
   ("inspect", [ActionInspect]); ("port", [ActionPort]); ("pause", [ActionPause]);
   ("unpause", [ActionUnpause]); ("wait", [ActionWait]); ("rename", [ActionRename]);
   ("update", [ActionUpdate]); ("diff", [ActionDiff]); ("pull", [ActionPull]); ("import", [ActionImport]);
   ("push", [ActionPush]); ("build", [ActionBuild]); ("images", [ActionImages]); ("rmi", [ActionRemoveImage]);
   ("tag", [ActionTag]); ("save", [ActionSave]); ("load", [ActionLoad]); ("search", [ActionSearch]);
   ("info", [ActionSystemInfo]); ("version", [ActionSystemVersion]); ("events", [ActionSystemEvents]);
   ("login", [ActionSystemLogin]); ("logout", [ActionSystemLogin]); ("df", [ActionSystemDF]);
   ("prune", [ActionPrune])].
Definition system_commands : Targets :=
  [("system/info", [ActionSystemInfo]); ("system/version", [ActionSystemVersion]);
   ("system/df", [ActionSystemDF]); ("system/events", [ActionSystemEvents]); ("system/prune", [ActionPrune])].
Definition container_commands : Targets :=
  [("container/run", [ActionPull; ActionCreateContainer; ActionStartContainer; ActionRemoveContainer]);
   ("container/create", [ActionCreateContainer]); ("container/start", [ActionStartContainer]);
   ("container/stop", [ActionStop]); ("container/restart", [ActionRestart]); ("container/kill", [ActionKill]);
   ("container/rm", [ActionRemoveContainer]); ("container/exec", [ActionExec]);
   ("container/attach", [ActionAttach]); ("container/logs", [ActionLogs]); ("container/stats", [ActionLogs]);
   ("container/top", [ActionLogs]); ("container/cp", [ActionCp]); ("container/commit", [ActionCommit]);
   ("container/ls", [ActionPS]); ("container/ps", [ActionPS]); ("container/inspect", [ActionInspect]);
   ("container/port", [ActionPort]); ("container/pause", [ActionPause]);
   ("container/unpause", [ActionUnpause]); ("container/rename", [ActionRename]);
   ("container/update", [ActionUpdate]); ("container/diff", [ActionDiff]); ("container/wait", [ActionWait]);
   ("container/export", [ActionExport]); ("container/prune", [ActionPrune])].
Definition image_commands : Targets :=
  [("image/ls", [ActionImages]); ("image/list", [ActionImages]); ("image/pull", [ActionPull]);
   ("image/push", [ActionPush]); ("image/build", [ActionBuild]); ("image/rm", [ActionRemoveImage]);
   ("image/rmi", [ActionRemoveImage]); ("image/tag", [ActionTag]); ("image/save", [ActionSave]);
   ("image/load", [ActionLoad]); ("image/import", [ActionImport]); ("image/inspect", [ActionInspect]);
   ("image/history", [ActionHistory]); ("image/prune", [ActionPrune])].
Definition network_commands : Targets :=
  [("network/ls", [ActionNetworkList]); ("network/list", [ActionNetworkList]);
   ("network/create", [ActionNetworkCreate]); ("network/inspect", [ActionNetworkInspect]);
   ("network/rm", [ActionNetworkRemove]); ("network/remove", [ActionNetworkRemove]);
   ("network/connect", [ActionNetworkConnect]); ("network/disconnect", [ActionNetworkDisconnect]);
   ("network/prune", [ActionPrune])].
Definition volume_commands : Targets :=
  [("volume/ls", [ActionVolumeList]); ("volume/list", [ActionVolumeList]);
   ("volume/create", [ActionVolumeCreate]); ("volume/inspect", [ActionVolumeInspect]);
   ("volume/rm", [ActionVolumeRemove]); ("volume/remove", [ActionVolumeRemove]);
   ("volume/prune", [ActionPrune])].
Definition plugin_commands : Targets :=
  [("plugin/ls", [ActionPluginList]); ("plugin/list", [ActionPluginList]);
   ("plugin/inspect", [ActionPluginInspect]); ("plugin/install", [ActionPluginInstall]);
   ("plugin/rm", [ActionPluginRemove]); ("plugin/remove", [ActionPluginRemove]);
   ("plugin/enable", [ActionPluginEnable]); ("plugin/disable", [ActionPluginDisable]);
   ("plugin/upgrade", [ActionPluginUpgrade]); ("plugin/set", [ActionPluginSet]);
   ("plugin/push", [ActionPluginPush]); ("plugin/create", [ActionPluginCreate])].
Definition builder_commands : Targets :=
  [("builder/build", [ActionBuild]); ("builder/prune", [ActionPrune]); ("builder/bake", [ActionBuild]);
   ("builder/create", [ActionBuilderManage]); ("builder/inspect", [ActionBuilderManage]);
   ("builder/ls", [ActionBuilderManage]); ("builder/rm", [ActionBuilderManage]);
   ("builder/stop", [ActionBuilderManage]); ("builder/use", [ActionBuilderManage]);
   ("builder/version", [ActionSystemVersion]); ("builder/du", [ActionSystemDF]);
   ("builder/dial-stdio", [ActionBuilderManage])].
Definition context_commands : Targets :=
  [("context/ls", [ActionContextList]); ("context/list", [ActionContextList]);
   ("context/show", [ActionContextList]); ("context/create", [ActionContextCreate]);
   ("context/inspect", [ActionContextInspect]); ("context/rm", [ActionContextRemove]);
   ("context/remove", [ActionContextRemove]); ("context/update", [ActionContextUpdate]);
   ("context/export", [ActionContextExport]); ("context/import", [ActionContextImport]);
   ("context/use", [ActionContextUse])].
Definition manifest_commands : Targets :=
  [("manifest/inspect", [ActionManifestInspect]); ("manifest/create", [ActionManifestCreate]);
   ("manifest/push", [ActionManifestPush]); ("manifest/annotate", [ActionManifestAnnotate]);
   ("manifest/rm", [ActionManifestRemove])].
Definition swarm_commands : Targets :=
  [("swarm/init", [ActionSwarmInit]); ("swarm/join", [ActionSwarmJoin]); ("swarm/leave", [ActionSwarmLeave]);
   ("swarm/update", [ActionSwarmUpdate]); ("swarm/unlock", [ActionSwarmUnlock]);
   ("swarm/ca", [ActionSwarmUpdate])].
Definition node_commands : Targets :=
  [("node/ls", [ActionNodeList]); ("node/list", [ActionNodeList]); ("node/inspect", [ActionNodeInspect]);
   ("node/update", [ActionNodeUpdate]); ("node/rm", [ActionNodeRemove]); ("node/remove", [ActionNodeRemove]);
   ("node/ps", [ActionTaskList]); ("node/demote", [ActionNodeUpdate]); ("node/promote", [ActionNodeUpdate])].
Definition service_commands : Targets :=
  [("service/ls", [ActionServiceList]); ("service/list", [ActionServiceList]);
   ("service/create", [ActionServiceCreate]); ("service/inspect", [ActionServiceInspect]);
   ("service/update", [ActionServiceUpdate]); ("service/rm", [ActionServiceRemove]);
   ("service/remove", [ActionServiceRemove]); ("service/logs", [ActionServiceLogs]);
   ("service/ps", [ActionTaskList]); ("service/scale", [ActionServiceUpdate]);
   ("service/rollback", [ActionServiceUpdate])].
Definition task_commands : Targets :=
  [("task/ls", [ActionTaskList]); ("task/inspect", [ActionTaskInspect])].
Definition secret_commands : Targets :=
  [("secret/ls", [ActionSecretList]); ("secret/list", [ActionSecretList]);
   ("secret/create", [ActionSecretCreate]); ("secret/inspect", [ActionSecretInspect]);
   ("secret/rm", [ActionSecretRemove]); ("secret/remove", [ActionSecretRemove])].
Definition config_commands : Targets :=
  [("config/ls", [ActionConfigList]); ("config/list", [ActionConfigList]);
   ("config/create", [ActionConfigCreate]); ("config/inspect", [ActionConfigInspect]);
   ("config/rm", [ActionConfigRemove]); ("config/remove", [ActionConfigRemove])].
Definition stack_commands : Targets :=
  [
   ("stack/deploy", [ActionServiceCreate; ActionServiceUpdate; ActionNetworkCreate; ActionSecretCreate; ActionConfigCreate]);
   ("stack/up", [ActionServiceCreate; ActionServiceUpdate; ActionNetworkCreate; ActionSecretCreate; ActionConfigCreate]);
   ("stack/ls", [ActionServiceList]); ("stack/list", [ActionServiceList]); ("stack/ps", [ActionTaskList]);
   ("stack/services", [ActionServiceList]);
   ("stack/rm", [ActionServiceRemove; ActionNetworkRemove; ActionSecretRemove; ActionConfigRemove]);
   ("stack/remove", [ActionServiceRemove; ActionNetworkRemove; ActionSecretRemove; ActionConfigRemove]);
   ("stack/config", [ActionServiceInspect])].
Definition cmdTargetActions : Targets :=
  concat [top_level_commands; system_commands; container_commands; image_commands; network_commands; volume_commands;
          plugin_commands; builder_commands; context_commands; manifest_commands; swarm_commands; node_commands;
          service_commands; task_commands; secret_commands; config_commands; stack_commands].

Definition isAuxiliaryCall (dockerCmd action method path : string) : bool :=
  if ((method ==s "GET") || (method ==s "HEAD")) && ((path ==s "/_ping") || HasSuffix path "/_ping") then true
  else if ((action ==s ActionSystemInfo) || (action ==s ActionSystemVersion)) &&
          negb (existsb (String.eqb dockerCmd) ["info"; "version"; "system/info"; "system/version"]) then true
  else if dockerCmd ==s "" then false
  else match find_first (λ e, e.1 ==s dockerCmd) cmdTargetActions with
       | None => false
       | Some (_, targetActions) => negb (existsb (String.eqb action) targetActions)
       end.

(** [Header.Get]. *)
Definition header_get (h : list (string * string)) (k : string) : string := values_get h k.

Definition isHijackRequest (r : Request) : bool :=
  if EqualFold (header_get (rq_Header r) "Upgrade") "tcp" then true
  else if existsb (λ v, EqualFold (TrimSpace v) "upgrade") (Split1 "," (header_get (rq_Header r) "Connection")) then true
  else
    let path := StripAPIVersion (url_Path (rq_URL r)) in
    (rq_Method r ==s "POST") && (HasSuffix path "/attach" || (Contains path "/exec/" && HasSuffix path "/start")).

Definition isLongLivedRequest (r : Request) : bool :=
  let path := StripAPIVersion (url_Path (rq_URL r)) in
  let q := url_Query (rq_URL r) in
  if HasSuffix path "/events" then true
  else if HasSuffix path "/stats" then
    negb (existsb (String.eqb (values_get q "stream")) ["false"; "0"; "no"])
  else if HasSuffix path "/logs" then
    negb (existsb (String.eqb (values_get q "follow")) [""; "0"; "false"; "no"])
  else false.

Definition isSlowAction (action : string) : bool :=
  (action ==s ActionPull) || (action ==s ActionPush) || (action ==s ActionImport).

(** ** Preparation *)

(** [RewriteContainerURL] on the URL of a request: the query is encoded again
    when it is changed. *)
Definition rewrite_container (uid : Z) (u : HttpURL) : HttpURL :=
  let q := url_Query u in
  let u' := RewriteContainerURL (mkReqURL (url_Path u) q) uid in
  let u1 := set_path (u_Path u') u in
  if bool_decide (u_Query u' = q) then u1 else set_query (u_Query u') u1.

Definition rewrite_urls (id : CallerIdentity) (r : Request) : Request :=
  let u := rewrite_container (RealUID id) (rq_URL r) in
  let u := set_path (RewriteNetworkURL (url_Path u) id) u in
  let u := set_path (RewriteVolumeURL (url_Path u) (RealUID id)) u in
  set_url u r.

(** The container name of a creation or a renaming, in the query. *)
Definition prefix_query_name (id : CallerIdentity) (r : Request) : option (string * Request) :=
  let name := values_get (url_Query (rq_URL r)) "name" in
  let prefix := UserContainerPrefix (RealUID id) in
  if (name ==s "") || HasPrefix name prefix then None
  else Some (prefix +:+ name, set_url (set_query (query_set (url_Query (rq_URL r)) "name" (prefix +:+ name)) (rq_URL r)) r).

(** The bare name a privileged user's network or volume gets. *)
Definition bare_name (b : body) : option string :=
  match b with
  | Doc j => match unmarshal_as (decode_id "Name") "" j with
             | Some name => if name ==s "" then None else Some name
             | None => None
             end
  | _ => None
  end.
Definition keep_name (n : option string) (r : Request) : Request :=
  match n with Some n => set_name (Some n) r | None => r end.

Definition run_map {A B} (f : A → B) (x : run A) : run B :=
  match x with Returns a => Returns (f a) | Panics => Panics end.

Definition preprocessRequest (r : Request) (id : CallerIdentity) (action : string) : run Request :=
  let b := rq_Body r in
  if action ==s ActionCreateContainer then
    let r := if IsPrivileged id then r
             else match prefix_query_name id r with Some (n, r) => set_name (Some n) r | None => r end in
    run_map (λ b, set_body b r) (InjectSystemLabels b id)
  else if action ==s ActionNetworkCreate then
    if IsPrivileged id then Returns (keep_name (bare_name b) r)
    else run_map (λ '(b, actualName), set_body b (if actualName ==s "" then r else set_name (Some actualName) r))
           (InjectNetworkNamePrefixWithName b id)
  else if action ==s ActionVolumeCreate then
    if IsPrivileged id then Returns (keep_name (bare_name b) r)
    else run_map (λ b, set_body b r) (InjectVolumeNamePrefix b id)
  else if action ==s ActionRename then
    Returns (if IsPrivileged id then r else match prefix_query_name id r with Some (_, r) => r | None => r end)
  else if action ==s ActionUpdate then run_map (λ b, set_body b r) (syncMemorySwapForUpdate b)
  else if (action ==s ActionNetworkConnect) || (action ==s ActionNetworkDisconnect) then
    if IsPrivileged id then Returns r
    else run_map (λ b, set_body b r) (RewriteContainerInNetworkBody b (RealUID id))
  else Returns r.

(** ** Retries *)

Inductive Upstream := UpstreamStatus (code : Z) | UpstreamError (refused : bool).

(** The actions whose request is read and written again: a request of theirs has
    a body from then on, if an empty one. *)
Definition body_action (action : string) : bool :=
  existsb (String.eqb action) [ActionCreateContainer; ActionNetworkCreate; ActionVolumeCreate; ActionUpdate; ActionRename;
    ActionNetworkConnect; ActionNetworkDisconnect].

Definition can_retry (action : string) (r : Request) : bool :=
  (rq_Method r ==s "GET") || (rq_Method r ==s "HEAD") ||
  body_action action || match rq_Body r with EmptyBody => false | _ => true end.

Definition maxRetries : nat := 2.

(** What the caller is given of an attempt: an error with the status it is
    answered with, or the answer of the daemon. *)
Definition upstream_result (u : Upstream) : Z + Z :=
  match u with UpstreamError refused => inl (if refused then 503 else 500)%Z | UpstreamStatus code => inr code end.
Definition transient (u : Upstream) : bool :=
  match u with UpstreamError _ => true | UpstreamStatus code => (code =? 502)%Z || (code =? 503)%Z end.

(** The attempts from number [attempt] on, [retries] of them after this one, the
    daemon doing [upstream i] at attempt [i]: how many are made and what the last
    one gives. *)
Fixpoint attempts (canRetry : bool) (upstream : nat → Upstream) (retries attempt : nat) : nat * (Z + Z) :=
  match retries with
  | S retries =>
    if canRetry && transient (upstream attempt)
    then let '(n, res) := attempts canRetry upstream retries (S attempt) in (S n, res)
    else (1, upstream_result (upstream attempt))
  | 0 => (1, upstream_result (upstream attempt))
  end.

Definition forward (action : string) (r : Request) (upstream : nat → Upstream) : nat * (Z + Z) :=
  attempts (can_retry action r) upstream maxRetries 0.

(** ** The entries in the event maps *)

Definition owner_info (id : CallerIdentity) : pruneOwnerInfo :=
  mkPruneOwnerInfo (RealUID id) (if IsSudoCommand id then 1 else 0).

Definition with_pull (k : string) (o : pruneOwnerInfo) (st : EventState) : EventState :=
  mkEventState (pendingBuildTags st) (completedBuildOwner st) (<[k := o]> (pendingPullRefs st))
    (completedPullOwner st) (completedPruneOwner st) (es_db st).
Definition with_tag (k : string) (o : pruneOwnerInfo) (st : EventState) : EventState :=
  mkEventState (<[k := o]> (pendingBuildTags st)) (completedBuildOwner st) (pendingPullRefs st)
    (completedPullOwner st) (completedPruneOwner st) (es_db st).
Definition with_prune (k : string) (o : pruneOwnerInfo) (st : EventState) : EventState :=
  mkEventState (pendingBuildTags st) (completedBuildOwner st) (pendingPullRefs st)
    (completedPullOwner st) (<[k := o]> (completedPruneOwner st)) (es_db st).

(** The entry a request stores before it goes to the daemon. *)
Inductive Window := PullWindow (ref : string) | TagWindow (ref : string) | PruneWindow (key : string).

Definition window (docker : Docker) (db : OwnershipDB) (id : CallerIdentity) (action : string) (r : Request) : option Window :=
  if action ==s ActionPull then
    let pullRef := parseImageRefFromURI (RequestURI (rq_URL r)) in
    if pullRef ==s "" then None else Some (PullWindow pullRef)
  else if action ==s ActionCommit then
    let q := url_Query (rq_URL r) in
    let repo := values_get q "repo" in
    let tag := let t := values_get q "tag" in if t ==s "" then "latest" else t in
    if repo ==s "" then None else Some (TagWindow (repo +:+ ":" +:+ tag))
  else if (action ==s ActionVolumeCreate) && IsPrivileged id then
    volName ← rq_rewrittenName r;
    if volName ==s "" then None else Some (PruneWindow ("volume:" +:+ volName))
  else if (action ==s ActionNetworkCreate) && IsPrivileged id then
    netName ← rq_rewrittenName r;
    if netName ==s "" then None else Some (PruneWindow ("network:" +:+ netName))
  else if (action ==s ActionRemoveImage) && IsPrivileged id then
    let rmiRef := ExtractImageID (url_Path (rq_URL r)) in
    let rmiResolvedID := if rmiRef ==s "" then "" else resolveImageIDByRef docker rmiRef in
    if rmiResolvedID ==s "" then None
    else match GetImageOwner rmiResolvedID db with
         | Some _ => None
         | None => Some (PruneWindow ("image:" +:+ rmiResolvedID))
         end
  else None.

Definition open_window (o : pruneOwnerInfo) (w : Window) (st : EventState) : EventState :=
  match w with PullWindow k => with_pull k o st | TagWindow k => with_tag k o st | PruneWindow k => with_prune k o st end.

(** [CompareAndDelete]. *)
#[export] Instance pruneOwnerInfo_eq_dec : EqDecision pruneOwnerInfo.
Proof. solve_decision. Defined.
Definition delete_if (k : string) (o : pruneOwnerInfo) (m : gmap string pruneOwnerInfo) : gmap string pruneOwnerInfo :=
  if decide (m !! k = Some o) then delete k m else m.
Definition forget_tag (k : string) (o : pruneOwnerInfo) (st : EventState) : EventState :=
  mkEventState (delete_if k o (pendingBuildTags st)) (completedBuildOwner st) (pendingPullRefs st)
    (completedPullOwner st) (completedPruneOwner st) (es_db st).
Definition forget_pull (k : string) (o : pruneOwnerInfo) (st : EventState) : EventState :=
  mkEventState (pendingBuildTags st) (completedBuildOwner st) (delete_if k o (pendingPullRefs st))
    (completedPullOwner st) (completedPruneOwner st) (es_db st).
Definition forget_prune (k : string) (o : pruneOwnerInfo) (st : EventState) : EventState :=
  mkEventState (pendingBuildTags st) (completedBuildOwner st) (pendingPullRefs st)
    (completedPullOwner st) (delete_if k o (completedPruneOwner st)) (es_db st).
Definition with_completed_build (k : string) (o : pruneOwnerInfo) (st : EventState) : EventState :=
  mkEventState (pendingBuildTags st) (<[k := o]> (completedBuildOwner st)) (pendingPullRefs st)
    (completedPullOwner st) (completedPruneOwner st) (es_db st).

(** What the deferred calls do with it when the request has been answered. *)
Definition close_window (o : pruneOwnerInfo) (w : Window) (st : EventState) : EventState :=
  match w with
  | PullWindow k => forget_pull k o st
  | TagWindow k => forget_tag k o (with_completed_build k o st)
  | PruneWindow k => forget_prune k o st
  end.

(** What is stored before the request goes to the daemon. *)
Definition before_forward (docker : Docker) (db : OwnershipDB) (id : CallerIdentity) (action : string) (r : Request)
    (st : EventState) : EventState :=
  match window docker db id action r with Some w => open_window (owner_info id) w st | None => st end.

(** ** The entry point *)

(** What is written to the daemon of a request whose connection is joined. *)
Record Head := mkHead { hd_Method : string; hd_Target : string; hd_Header : list (string * string) }.
Definition hijack_head (r : Request) : Head :=
  mkHead (rq_Method r) (RequestURI (rq_URL r)) (List.filter (λ h, negb (EqualFold h.1 "Host")) (rq_Header r)).

Inductive Served :=
  | Overloaded
  | Unauthenticated
  | IdentityChanged (e : AuthError)
  | PolicyDenied (action : string)
  | Rejected (r : Rejection)
  | Crashed
  (** answered by a prune handler *)
  | Pruned (action : string) (r : Request)
  (** the connection is joined to the daemon's: this head goes there, then the
      bytes of both sides as they come *)
  | Hijacked (h : Head)
  (** sent to the daemon, its answer post-processed *)
  | Forwarded (action : string) (r : Request).

(** What [ServeHTTP] finds out about the caller. *)
Record Arrival := mkArrival {
  (** a slot of the pool of streams ([true]) or of short requests is free *)
  ar_slot : bool → bool;
  (** the identity of the connection *)
  ar_identity : option CallerIdentity;
  (** what each authenticator says; an error is [None] *)
  ar_authenticators : list (option CallerIdentity);
  (** /proc/<PID> of the caller at this moment *)
  ar_proc : ProcView;
}.

Definition known (id : option CallerIdentity) : bool :=
  match id with Some i => (0 <=? RealUID i)%Z | None => false end.

Definition authenticate (a : Arrival) : option CallerIdentity :=
  let identity :=
    if known (ar_identity a) then ar_identity a
    else match omap id (ar_authenticators a) with i :: _ => Some i | [] => ar_identity a end in
  if known identity then identity else None.

Definition prune_paths : list string :=
  ["/volumes/prune"; "/containers/prune"; "/images/prune"; "/networks/prune"; "/system/prune"].

(** Whether a prune handler answers: that of volumes always, the others for
    unprivileged users. *)
Definition prune_intercepted (id : CallerIdentity) (action : string) (r : Request) : bool :=
  let path := StripAPIVersion (url_Path (rq_URL r)) in
  (action ==s ActionPrune) &&
  (HasPrefix path "/volumes/prune" || (negb (IsPrivileged id) && existsb (HasPrefix path) prune_paths)).

Section serve.
Context (env : ProxyEnv).
Let os : OsFiles := env_os (pe_env env).
Let policy : Policy := env_policy (pe_env env).

(** The action a request is decided under. *)
Definition request_action (id : CallerIdentity) (r : Request) : string :=
  OverrideActionByCommand (DockerCommand id) (ClassifyAction (rq_Method r) (RequestURI (rq_URL r))).

Definition policy_denies (id : CallerIdentity) (action : string) (r : Request) : bool :=
  negb (isAuxiliaryCall (DockerCommand id) action (rq_Method r) (url_Path (rq_URL r))) && IsDenied os policy id action.

(** The decisions of [handleHijack]; the request the checks return is dropped,
    and what they read of its body is gone from the connection. *)
Definition handleHijack (id : CallerIdentity) (r : Request) (d : OwnershipDB) : Served * OwnershipDB :=
  let action := request_action id r in
  if policy_denies id action r then (PolicyDenied action, d) else
  match checkOwnershipPreRequest env id action r d with
  | (Pass _, d) => (Hijacked (hijack_head r), d)
  | (Reject rj, d) => (Rejected rj, d)
  | (Crash, d) => (Crashed, d)
  end.

Definition serve_hijack (id : CallerIdentity) (r : Request) (d : OwnershipDB) : Served * OwnershipDB :=
  let action := ClassifyAction (rq_Method r) (RequestURI (rq_URL r)) in
  if policy_denies id action r then (PolicyDenied action, d) else handleHijack id r d.

Definition serve_request (id : CallerIdentity) (r : Request) (d : OwnershipDB) : Served * OwnershipDB :=
  let action := request_action id r in
  if policy_denies id action r then (PolicyDenied action, d) else
  match checkOwnershipPreRequest env id action r d with
  | (Reject rj, d) => (Rejected rj, d)
  | (Crash, d) => (Crashed, d)
  | (Pass r, d) =>
    if prune_intercepted id action r then (Pruned action r, d) else
    match preprocessRequest r id action with
    | Panics => (Crashed, d)
    | Returns r => (Forwarded action r, d)
    end
  end.

Definition ServeHTTP (a : Arrival) (r : Request) (d : OwnershipDB) : Served * OwnershipDB :=
  let isHijack := isHijackRequest r in
  if negb (ar_slot a (isHijack || isLongLivedRequest r)) then (Overloaded, d) else
  match authenticate a with
  | None => (Unauthenticated, d)
  | Some identity =>
    match VerifyIdentityAtRequest (Some identity) (ar_proc a) with
    | Some e => (IdentityChanged e, d)
    | None =>
      let identity := set_ConfigPrivileged (IsConfigPrivileged (Some policy) (Some identity)) identity in
      let r := if IsPrivileged identity then r else rewrite_urls identity r in
      if isHijack then serve_hijack identity r d else serve_request identity r d
    end
  end.
End serve.

(** ** Lemmas *)

Lemma values_get_set q k v : values_get (merge_sort query_key_le (query_set q k v)) k = v.
Proof.
  unfold values_get. pose proof (merge_sort_Permutation query_key_le (query_set q k v)) as Hperm.
  destruct (find_first _ _) as [x|] eqn:Hx.
  - apply find_first_Some in Hx as [Hin Hk]. rewrite Hperm in Hin.
    unfold query_set in Hin. apply elem_of_app in Hin as [Hin|Hin]; [|by apply list_elem_of_singleton in Hin as ->].
    apply list_elem_of_In, filter_In in Hin as [_ Hn]. simpl in Hk. by rewrite Hk in Hn.
  - rewrite find_first_None in Hx. specialize (Hx (k, v)). simpl in Hx. rewrite eqb_str_refl in Hx.
    discriminate Hx. rewrite Hperm. unfold query_set. apply elem_of_app. right. by apply list_elem_of_singleton.
Qed.

(** What the retries come to. *)
Lemma attempts_spec cr upstream retries a :
  ∃ k, k <= retries ∧ attempts cr upstream retries a = (S k, upstream_result (upstream (a + k))) ∧
    (∀ i, i < k → cr = true ∧ transient (upstream (a + i)) = true) ∧
    (k < retries → cr && transient (upstream (a + k)) = false).
Proof.
  revert a. induction retries as [|n IH]; intros a; cbn [attempts].
  { exists 0. rewrite Nat.add_0_r. split_and!; [done|done|lia|lia]. }
  destruct (cr && transient (upstream a)) eqn:E.
  - destruct (IH (S a)) as (k & Hk & -> & Hb & Ha). exists (S k). rewrite Nat.add_succ_r. split_and!; [lia|done| |].
    + intros [|i] Hi; [rewrite Nat.add_0_r; by apply andb_true_iff|]. rewrite Nat.add_succ_r. apply (Hb i). lia.
    + intros Hlt. apply Ha. lia.
  - exists 0. rewrite Nat.add_0_r. split_and!; [lia|done|lia|done].
Qed.

(** An admitted request, whatever is then done with it. *)
Definition let_through (s : Served) : bool :=
  match s with Pruned _ _ | Hijacked _ | Forwarded _ _ => true | _ => false end.

(** The identity the request is decided under. *)
Definition effective_identity (env : ProxyEnv) (id : CallerIdentity) : CallerIdentity :=
  set_ConfigPrivileged (IsConfigPrivileged (Some (env_policy (pe_env env))) (Some id)) id.
(** The request with the names of the caller completed. *)
Definition own_names (id : CallerIdentity) (r : Request) : Request :=
  if IsPrivileged id then r else rewrite_urls id r.

Lemma ServeHTTP_cases env a r d s d' :
  ServeHTTP env a r d = (s, d') → let_through s = true →
  ∃ id0, authenticate a = Some id0 ∧ VerifyIdentityAtRequest (Some id0) (ar_proc a) = None ∧
    let id := effective_identity env id0 in
    let r1 := own_names id r in
    (if isHijackRequest r then serve_hijack env id r1 d else serve_request env id r1 d) = (s, d').
Proof.
  unfold ServeHTTP. destruct (negb _); [by intros [= <- _]|].
  destruct (authenticate a) as [id0|]; [|by intros [= <- _]].
  destruct (VerifyIdentityAtRequest (Some id0) (ar_proc a)) eqn:Ev; [by intros [= <- _]|].
  intros H _. exists id0. split_and!; [done|done|exact H].
Qed.

(** Both ways the policy and the checks have been passed. *)
Lemma serve_request_cases env id r d s d' :
  serve_request env id r d = (s, d') → let_through s = true →
  policy_denies env id (request_action id r) r = false ∧
  ∃ r', checkOwnershipPreRequest env id (request_action id r) r d = (Pass r', d') ∧
    (if prune_intercepted id (request_action id r) r' then s = Pruned (request_action id r) r'
     else ∃ r'', preprocessRequest r' id (request_action id r) = Returns r'' ∧ s = Forwarded (request_action id r) r'').
Proof.
  unfold serve_request. destruct (policy_denies env id (request_action id r) r); [by intros [= <- _]|].
  destruct (checkOwnershipPreRequest env id (request_action id r) r d) as [[r'|rj|] d1]; [|by intros [= <- _]..].
  destruct (prune_intercepted id (request_action id r) r') eqn:Ep.
  - intros [= <- <-] _. split; [done|]. exists r'. by rewrite Ep.
  - destruct (preprocessRequest r' id (request_action id r)) eqn:Eq; [|by intros [= <- _]].
    intros [= <- <-] _. split; [done|]. exists r'. rewrite Ep. eauto.
Qed.

Lemma serve_hijack_cases env id r d s d' :
  serve_hijack env id r d = (s, d') → let_through s = true →
  policy_denies env id (ClassifyAction (rq_Method r) (RequestURI (rq_URL r))) r = false ∧
  policy_denies env id (request_action id r) r = false ∧ s = Hijacked (hijack_head r) ∧
  ∃ r', checkOwnershipPreRequest env id (request_action id r) r d = (Pass r', d').
Proof.
  unfold serve_hijack, handleHijack. destruct (policy_denies env id (ClassifyAction _ _) r); [by intros [= <- _]|].
  destruct (policy_denies env id (request_action id r) r); [by intros [= <- _]|].
  destruct (checkOwnershipPreRequest env id (request_action id r) r d) as [[r'|rj|] d1]; [|by intros [= <- _]..].
  intros [= <- <-] _. split_and!; eauto.
Qed.

Lemma authenticate_known a id : authenticate a = Some id → (0 <= RealUID id)%Z.
Proof.
  unfold authenticate. destruct (known _) eqn:E; [|done]. intros H. rewrite H in E. by apply Z.leb_le.
Qed.

(** ** Properties *)

Lemma VerifyIdentity_None id pv rUID eUID g1 g2 :
  VerifyIdentityAtRequest (Some id) pv = None → (0 < PID id)%Z → readProcStatus pv = Some (rUID, eUID, g1, g2) →
  rUID = (if is_sudo_type (id_UserType id) then EffectiveUID id else RealUID id) ∧ eUID = EffectiveUID id.
Proof.
  intros H Hpid Hst. unfold VerifyIdentityAtRequest in H. rewrite Hst, (proj2 (Z.leb_gt _ _) Hpid) in H.
  destruct (Z.eqb_spec rUID (if is_sudo_type (id_UserType id) then EffectiveUID id else RealUID id)); [|done]. cbn [negb] in H.
  by destruct (Z.eqb_spec eUID (EffectiveUID id)).
Qed.

(** C2: Everything let through is authorised.  Whatever the proxy lets through, by
    forwarding, by joining the connections or by pruning, comes from a caller with an
    authenticated, non-negative UID, and the real and effective UIDs of its process, where
    there is one whose /proc status can be read, are still those of the identity.  Under
    the identity as the current policy makes it, every ownership check has passed, on the
    names completed for the caller; and the policy does not deny the action, unless the
    request counts as auxiliary to the docker command of the caller's command line, which
    the caller chooses, or is a ping. *)
Theorem let_through_is_authorised env a r d s d' :
  ServeHTTP env a r d = (s, d') → let_through s = true →
  ∃ id0, authenticate a = Some id0 ∧ (0 <= RealUID id0)%Z ∧
    (∀ rUID eUID g1 g2, (0 < PID id0)%Z → readProcStatus (ar_proc a) = Some (rUID, eUID, g1, g2) →
       rUID = (if is_sudo_type (id_UserType id0) then EffectiveUID id0 else RealUID id0) ∧ eUID = EffectiveUID id0) ∧
    let id := effective_identity env id0 in
    let r1 := own_names id r in
    let action := request_action id r1 in
    (IsDenied (env_os (pe_env env)) (env_policy (pe_env env)) id action = false ∨
     isAuxiliaryCall (DockerCommand id) action (rq_Method r1) (url_Path (rq_URL r1)) = true) ∧
    ∃ r', checkOwnershipPreRequest env id action r1 d = (Pass r', d').
Proof.
  intros H Hs. apply ServeHTTP_cases in H as (id0 & Ha & Hv & H); [|done].
  exists id0. split_and!; [done|by eapply authenticate_known|intros rU eU g1 g2; by apply VerifyIdentity_None|]. cbv zeta in *.
  assert (∀ action r1, policy_denies env (effective_identity env id0) action r1 = false →
    IsDenied (env_os (pe_env env)) (env_policy (pe_env env)) (effective_identity env id0) action = false ∨
    isAuxiliaryCall (DockerCommand (effective_identity env id0)) action (rq_Method r1) (url_Path (rq_URL r1)) = true) as Hdeny.
  { unfold policy_denies. intros action r1 [Hx|Hx]%andb_false_iff; [right; by apply negb_false_iff|by left]. }
  destruct (isHijackRequest r).
  - apply serve_hijack_cases in H as (_ & Hp & _ & r' & H); [|done]. split; [by apply Hdeny|by exists r'].
  - apply serve_request_cases in H as (Hp & r' & H & _); [|done]. split; [by apply Hdeny|by exists r'].
Qed.

(** The configured privilege is that of the moment.  The flag a connection's
    identity carries from an earlier request has no influence: the request is
    served as the policy in force says. *)
Theorem configured_privilege_is_current env slot id b auths pv r d :
  ServeHTTP env (mkArrival slot (Some (set_ConfigPrivileged b id)) auths pv) r d =
  ServeHTTP env (mkArrival slot (Some id) auths pv) r d.
Proof.
  unfold ServeHTTP, authenticate, known. cbn [ar_slot ar_identity ar_authenticators ar_proc RealUID set_ConfigPrivileged].
  destruct (negb _); [done|]. destruct (0 <=? RealUID id)%Z eqn:E.
  - cbn [RealUID set_ConfigPrivileged]. by rewrite E.
  - destruct (omap _ auths) as [|i l]; [|done]. cbn [RealUID set_ConfigPrivileged]. by rewrite E.
Qed.

(** An upgraded request is joined, never examined further.  A request with
    [Upgrade: tcp], whatever its path, is not answered by a prune handler, not
    completed by the proxy and its answer not filtered: when it is let through,
    the daemon gets its head as it is but for the names completed in its URL. *)
Theorem upgraded_requests_are_raw env a r d s d' :
  EqualFold (header_get (rq_Header r) "Upgrade") "tcp" = true →
  ServeHTTP env a r d = (s, d') → let_through s = true →
  ∃ id0, authenticate a = Some id0 ∧
    let r1 := own_names (effective_identity env id0) r in
    s = Hijacked (hijack_head r1) ∧ rq_Method r1 = rq_Method r ∧ rq_Header r1 = rq_Header r ∧
    (IsPrivileged (effective_identity env id0) = true → r1 = r).
Proof.
  intros Hu H Hs. apply ServeHTTP_cases in H as (id0 & Ha & _ & H); [|done].
  assert (isHijackRequest r = true) as Hh by (unfold isHijackRequest; by rewrite Hu). rewrite Hh in H.
  apply serve_hijack_cases in H as (_ & _ & -> & _); [|done]. exists id0. split; [done|]. cbv zeta.
  unfold own_names. destruct (IsPrivileged _); split_and!; done.
Qed.

(** The client's command line decides whether the policy applies.  Of a process
    whose command line reads as a docker command of the table, every action that
    is not one of that command's is let past the policy. *)
Theorem command_line_waives_policy env id cmd targets action r :
  DockerCommand id = cmd → cmd ≠ "" → (cmd, targets) ∈ cmdTargetActions → action ∉ targets →
  policy_denies env id action r = false.
Proof.
  intros <- Hne%String.eqb_neq Hin Hact. unfold policy_denies.
  assert (find_first (λ e, e.1 ==s DockerCommand id) cmdTargetActions = Some (DockerCommand id, targets)) as Hf.
  { revert Hin. generalize (DockerCommand id). intros c Hc.
    assert (forallb (λ e, bool_decide (find_first (λ e', e'.1 ==s e.1) cmdTargetActions = Some e)) cmdTargetActions = true)
      as Hall by (vm_compute; reflexivity).
    rewrite forallb_forall in Hall. specialize (Hall (c, targets) (proj1 (list_elem_of_In _ _) Hc)).
    by apply bool_decide_eq_true in Hall. }
  assert (isAuxiliaryCall (DockerCommand id) action (rq_Method r) (url_Path (rq_URL r)) = true) as ->; [|done].
  unfold isAuxiliaryCall. destruct (_ && _); [done|]. destruct (_ && _); [done|]. rewrite Hne, Hf.
  apply negb_true_iff. rewrite existsb_false_elem. intros x Hx. destruct (action ==s x) eqn:E; [|done].
  by apply String.eqb_eq in E as ->.
Qed.

(** An escaped path hides the action.  Each of these targets is classified as
    [other], although its path, which is what the daemon is sent, is that of the
    action beside it. *)
Theorem escaped_path_hides_action :
  Forall (λ '(method, target, path, action),
    ∃ u, parse_target target = Some u ∧ url_Path u = path ∧
      ClassifyAction method (RequestURI u) = ActionOther ∧ ClassifyAction method path = action)
  [("GET", "/v1.41/containers/j%73on", "/v1.41/containers/json", ActionPS);
   ("POST", "/containers/cre%61te", "/containers/create", ActionCreateContainer);
   ("POST", "/v1.41/containers/abc/st%6Fp", "/v1.41/containers/abc/stop", ActionStop);
   ("GET", "/images/j%73on", "/images/json", ActionImages);
   ("POST", "/v1.41/volumes/prun%65", "/v1.41/volumes/prune", ActionPrune)].
Proof. repeat constructor; eexists; (split; [vm_compute; reflexivity|]); vm_compute; done. Qed.

(** The daemon is tried at most three times, and only on.  The result is that
    of the last attempt; every one before it failed to connect or was answered
    502 or 503; a request that may not be repeated is tried once, and one that may
    be is given up early only with another answer. *)
Theorem forward_bounded action r upstream :
  ∃ k, k <= 2 ∧ forward action r upstream = (S k, upstream_result (upstream k)) ∧
    (can_retry action r = false → k = 0) ∧
    (∀ i, i < k → transient (upstream i) = true) ∧
    (k < 2 → can_retry action r = true → transient (upstream k) = false).
Proof.
  destruct (attempts_spec (can_retry action r) upstream maxRetries 0) as (k & Hk & He & Hb & Ha).
  exists k. split_and!; [done|done| |intros i Hi; by apply Hb|intros Hlt Hc; specialize (Ha Hlt); by rewrite Hc in Ha].
  intros Hc. destruct k as [|k]; [done|]. destruct (Hb 0) as [? _]; [lia|]. congruence.
Qed.

(** A created container is the caller's all the way.  What an unprivileged
    user's creation is forwarded as has the name the user gave under the user's
    prefix, and the body that the checks made of it with the labels of the user
    injected last. *)
Theorem forwarded_creation_is_labelled env a id0 r r' d d' :
  authenticate a = Some id0 → IsPrivileged (effective_identity env id0) = false →
  ServeHTTP env a r d = (Forwarded ActionCreateContainer r', d') →
  let id := effective_identity env id0 in
  let r1 := rewrite_urls id r in
  let name := values_get (url_Query (rq_URL r1)) "name" in
  rq_Method r' = rq_Method r ∧ url_Path (rq_URL r') = url_Path (rq_URL r1) ∧
  values_get (url_Query (rq_URL r')) "name" =
    (if name ==s "" then "" else add_prefix (UserContainerPrefix (RealUID id)) name) ∧
  ∃ r2, checkOwnershipPreRequest env id ActionCreateContainer r1 d = (Pass r2, d') ∧
    InjectSystemLabels (rq_Body r2) id = Returns (rq_Body r').
Proof.
  intros Ha Hp H id r1 name. apply ServeHTTP_cases in H as (id1 & Ha' & _ & H); [|done].
  assert (id1 = id0) as -> by congruence. cbv zeta in H. fold id in H, Hp. unfold own_names in H. rewrite Hp in H.
  fold r1 in H. destruct (isHijackRequest r); [by apply serve_hijack_cases in H as (_ & _ & ? & _)|].
  apply serve_request_cases in H as (_ & r2 & Hc & H); [|done].
  destruct (prune_intercepted _ _ _); [done|]. destruct H as (r3 & Hpre & Hf). injection Hf as Hact ->.
  rewrite <- Hact in Hc, Hpre. unfold preprocessRequest in Hpre. cbn [String.eqb] in Hpre.
  replace (ActionCreateContainer ==s ActionCreateContainer) with true in Hpre by done. rewrite Hp in Hpre.
  pose proof Hc as Hparts. apply admitted_parts in Hparts as (r4 & d1 & d2 & _ & _ & Hcr & _ & _ & Hn & -> & _).
  cbn in Hn. injection Hn as ->. replace (ActionCreateContainer ==s ActionCreateContainer) with true in Hcr by done.
  apply check_create_url in Hcr as [Hurl Hm].
  destruct (InjectSystemLabels (rq_Body r2) id) as [b|] eqn:El; [|done]. injection Hpre as <-.
  unfold prefix_query_name. rewrite Hurl. fold name.
  destruct (name ==s "") eqn:En; cbn [orb].
  { cbn [set_body rq_Method rq_URL rq_Body]. rewrite Hurl, Hm. apply String.eqb_eq in En. split_and!; [done|done|exact En|by exists r2]. }
  unfold add_prefix. destruct (HasPrefix name _) eqn:Epre; cbn [set_body set_name set_url rq_Method rq_URL rq_Body].
  { rewrite Hurl, Hm. split_and!; [done|done|done|by exists r2]. }
  rewrite Hm, url_Query_set_query, values_get_set. split_and!; [done|done|done|by exists r2].
Qed.

(** Nobody else sees a pull under way.  From before a pull goes to the daemon,
    an event that has the reference pulled as its name or its id is shown by the
    entry the pull left: to no user but the puller, and in a view without sudo not
    when the puller used sudo; unless a build of the same name has an entry that
    comes first. *)
Theorem pull_window_is_private docker db id r st ev uid sudoCtx :
  let ref := parseImageRefFromURI (RequestURI (rq_URL r)) in
  let name := map_get (ev_Attributes ev) "name" in
  ref ≠ "" → HasPrefix ref sha256_prefix = false → ev_Type ev = "image" →
  pendingBuildTags st !! name = None → completedBuildOwner st !! name = None →
  pendingBuildTags st !! ev_ID ev = None → completedBuildOwner st !! ev_ID ev = None →
  (name = ref ∨ ev_ID ev = ref ∧ pendingPullRefs st !! name = None) →
  eventBelongsToUser (before_forward docker db id ActionPull r st) (Some ev) uid sudoCtx =
    bool_decide (uid = RealUID id) && negb (hidden sudoCtx (if IsSudoCommand id then 1 else 0)).
Proof.
  intros ref name Hne Hsha Ht Hb1 Hc1 Hb2 Hc2 Hname. rewrite event_image by done.
  unfold before_forward, window. replace (ActionPull ==s ActionPull) with true by done. fold ref.
  apply String.eqb_neq in Hne. rewrite Hne. unfold open_window, image_event, window_entry.
  cbn [with_pull pendingBuildTags completedBuildOwner pendingPullRefs completedPullOwner].
  fold name. rewrite Hb1, Hc1, Hb2, Hc2.
  assert (∀ b, Events.when b (None : option pruneOwnerInfo) = None) as Hw by (by intros []). rewrite !Hw.
  assert (∀ (x : pruneOwnerInfo) o, Some x ∪ o = Some x) as Hl by (by intros x []).
  match goal with |- context [match None ∪ (None ∪ ?x) with Some _ => _ | None => _ end] =>
    assert (x = Some (owner_info id)) as -> end.
  { destruct (decide (name = ref)) as [->|Hd].
    - rewrite Hsha, Hne, lookup_insert_eq. cbn [negb andb Events.when]. apply Hl.
    - destruct Hname as [?|[-> Hn]]; [done|]. rewrite lookup_insert_ne, Hn, Hw, Hsha, Hne, lookup_insert_eq by done.
      cbn [negb andb Events.when]. by rewrite Hl. }
  change (None ∪ (None ∪ Some (owner_info id))) with (Some (owner_info id)). cbv iota. unfold entry_verdict.
  cbn [po_ownerUID po_privCtx owner_info].
  destruct (hidden sudoCtx _); cbn [negb]; [by rewrite andb_false_r|]. rewrite andb_true_r, Z.eqb_sym.
  apply bool_eq_iff. by rewrite Z.eqb_eq, bool_decide_eq_true.
Qed.

(** ** Examples *)

Module PipelineDemo.

Definition bob : CallerIdentity := ImageDemo.bob.
(** bob built the image [app] and owns a volume. *)
Definition db : OwnershipDB := (SetVolumeOwner 2 "user-1002-volume-data" bob ImageDemo.db).2.
Definition env : ProxyEnv := PreRequestDemo.env.
Definition arrival (id : CallerIdentity) : Arrival := mkArrival (λ _, true) (Some id) [] (Demo.view "" "").

Definition create (header : list (string * string)) : Request :=
  mkRequest "POST" (mkHttpURL "/v1.41/containers/create" "" "name=web") header
    (Doc (JObj [("Image", JStr "app"); ("HostConfig", JObj [("Binds", JArr [JStr "data:/data"])])])) None [].

Definition sent : Served * OwnershipDB := ServeHTTP env (arrival bob) (create []) db.
Definition sent_request : Request := match sent.1 with Forwarded _ r => r | _ => create [] end.

Example create_is_forwarded :
  RequestURI (rq_URL sent_request) = "/v1.41/containers/create?name=user-1002-web" ∧
  (l ← top_field decode_string_map "Labels" None (match rq_Body sent_request with Doc j => j | _ => JNull end);
   l !! LabelOwnerUID) = Some "1002".
Proof. split; vm_compute; reflexivity. Qed.

(** A docker process of bob that reads as [docker ps]. *)
Definition ps_view : ProcView :=
  mkProcView (Some (Demo.status "1002" "1002")) (Some "1002") None (Some "docker")
    (Some (GoStrings.Join ["docker"; "ps"; ""] (String NUL ""))).
Definition bob_ps : CallerIdentity := Demo.resolved (mkUcred 77 1002 1002) ps_view.

Definition pull : Request :=
  plain_request "POST" "/images/create" "fromImage=alpine&tag=latest" EmptyBody.
Definition pull_ev : Event := mkEvent "image" "pull" "alpine:latest" {["name" := "alpine"]}.

End PipelineDemo.

(** ** Witnesses *)

Lemma let_through_is_authorised_witness :
  let_through PipelineDemo.sent.1 = true ∧
  (IsDenied (env_os (pe_env PipelineDemo.env)) (env_policy (pe_env PipelineDemo.env)) PipelineDemo.bob ActionCreateContainer = false ∨
   isAuxiliaryCall (DockerCommand PipelineDemo.bob) ActionCreateContainer "POST" (url_Path (rq_URL (own_names PipelineDemo.bob (PipelineDemo.create [])))) = true).
Proof.
  destruct PipelineDemo.sent as [s d'] eqn:E.
  assert (let_through s = true) as Hs by (change s with (s, d').1; rewrite <- E; vm_compute; reflexivity).
  split; [exact Hs|].
  destruct (let_through_is_authorised PipelineDemo.env (PipelineDemo.arrival PipelineDemo.bob) (PipelineDemo.create [])
    PipelineDemo.db s d' E Hs) as (id0 & Ha & _ & _ & Hp & _).
  vm_compute in Ha. injection Ha as <-. vm_compute in Hp |- *. exact Hp.
Defined.

Lemma upgraded_requests_are_raw_witness :
  (ServeHTTP PipelineDemo.env (PipelineDemo.arrival PipelineDemo.bob) (PipelineDemo.create [("Upgrade", "tcp")])
     PipelineDemo.db).1 =
  Hijacked (mkHead "POST" "/v1.41/containers/create?name=web" [("Upgrade", "tcp")]).
Proof.
  destruct (ServeHTTP _ _ _ _) as [s d'] eqn:E.
  assert (let_through s = true) as Hs by (change s with (s, d').1; rewrite <- E; vm_compute; reflexivity).
  destruct (upgraded_requests_are_raw PipelineDemo.env (PipelineDemo.arrival PipelineDemo.bob)
    (PipelineDemo.create [("Upgrade", "tcp")]) PipelineDemo.db s d' eq_refl E Hs) as (id0 & Ha & -> & _).
  vm_compute in Ha. injection Ha as <-. vm_compute. reflexivity.
Defined.

Lemma command_line_waives_policy_witness :
  DockerCommand PipelineDemo.bob_ps = "ps" ∧ IsDenied Demo.os demo_policy PipelineDemo.bob_ps ActionKill = true ∧
  policy_denies PipelineDemo.env PipelineDemo.bob_ps ActionKill PipelineDemo.pull = false.
Proof.
  split; [vm_compute; reflexivity|]. split; [vm_compute; reflexivity|].
  apply (command_line_waives_policy PipelineDemo.env PipelineDemo.bob_ps "ps" [ActionPS]);
    [vm_compute; reflexivity|done| |]; apply (bool_decide_unpack _); vm_compute; exact I.
Defined.

Lemma forwarded_creation_is_labelled_witness :
  values_get (url_Query (rq_URL PipelineDemo.sent_request)) "name" = "user-1002-web".
Proof.
  assert (PipelineDemo.sent = (Forwarded ActionCreateContainer PipelineDemo.sent_request, PipelineDemo.sent.2)) as E
    by (vm_compute; reflexivity).
  destruct (forwarded_creation_is_labelled PipelineDemo.env (PipelineDemo.arrival PipelineDemo.bob) PipelineDemo.bob
    (PipelineDemo.create []) PipelineDemo.sent_request PipelineDemo.db PipelineDemo.sent.2 eq_refl eq_refl E)
    as (_ & _ & H & _).
  vm_compute in H |- *. exact H.
Defined.

Lemma pull_window_is_private_witness :
  let st := before_forward (env_docker PermDemo.env) PipelineDemo.db PipelineDemo.bob ActionPull PipelineDemo.pull EventDemo.st in
  eventBelongsToUser st (Some PipelineDemo.pull_ev) 1001 false = false ∧
  eventBelongsToUser st (Some PipelineDemo.pull_ev) 1002 false = true.
Proof.
  pose proof (λ uid, pull_window_is_private (env_docker PermDemo.env) PipelineDemo.db PipelineDemo.bob PipelineDemo.pull
    EventDemo.st PipelineDemo.pull_ev uid false) as H.
  split; (rewrite H; first [vm_compute; reflexivity|left; vm_compute; reflexivity|vm_compute; discriminate]).
Defined.
