(* ===== verification/Prune.v ===== *)
(** * Prune: the prune handlers

    The handlers of [internal/forward/proxy.go] (lines 6158-6790) that answer the
    prune requests themselves: [handleVolumePrune] for everyone,
    [handleContainerPrune], [handleImagePrune], [handleNetworkPrune] and
    [handleSystemPrune] for unprivileged users.  Each deletes at the daemon, one by
    one, what the records give to the user, and forgets the record of what is gone.
    The state is the database, the map that keeps the owner of what was just
    deleted for the event filter, and the DELETE requests sent so far.  A handler
    runs without other requests in between, and the removal of the map's entries
    after the grace period is not modelled. *)

From S2P Require Import Prelude GoStrings GoJson Docker GoUrl OsLookup Identity Routes Policy Tables Database ImageDB.
From S2P Require Import ResourceDB Names Events ImagePerm Quota GoPath Storage Bodies Filter PreRequest Pipeline.

Record PruneState := mkPruneState {
  ps_db : OwnershipDB;
  ps_completedPruneOwner : gmap string pruneOwnerInfo;
  (** the paths of the DELETE requests, each with the database at that moment *)
  ps_sent : list (string * OwnershipDB);
}.
Definition ps_send (path : string) (w : PruneState) : PruneState :=
  mkPruneState (ps_db w) (ps_completedPruneOwner w) (ps_sent w ++ [(path, ps_db w)]).
Definition ps_note (k : string) (o : pruneOwnerInfo) (w : PruneState) : PruneState :=
  mkPruneState (ps_db w) (<[k := o]> (ps_completedPruneOwner w)) (ps_sent w).
(** A statement on the database whose error is ignored. *)
Definition ps_exec (f : OwnershipDB → error * OwnershipDB) (w : PruneState) : PruneState :=
  mkPruneState (f (ps_db w)).2 (ps_completedPruneOwner w) (ps_sent w).

(** ** The label filters of a volume prune *)

(** A map: [null] makes it nil, an object adds its members. *)
Definition decode_map_of {A} (dec : A → json → A * bool) (zero : A) (cur : option (gmap string A)) (v : json)
    : option (gmap string A) * bool :=
  match v with
  | JNull => (None, true)
  | JObj kvs =>
    foldl (λ '(m, ok) kv, let '(a, ok') := dec zero kv.2 in (Some (<[kv.1 := a]> (default ∅ m)), ok && ok'))
      (Some (default ∅ cur), true) kvs
  | _ => (cur, false)
  end.

Definition filters_new : option (gmap string (option (gmap string bool))) → json
    → option (gmap string (option (gmap string bool))) * bool := decode_map_of (decode_map_of decode_bool false) None.
Definition filters_old : option (gmap string (list string)) → json → option (gmap string (list string)) * bool :=
  decode_map_of decode_strings [].

Definition new_labels (f : option (gmap string (option (gmap string bool)))) : list string :=
  match default ∅ f !! "label" with Some (Some labels) => (map_to_list labels).*1 | _ => [] end.
Definition old_labels (f : option (gmap string (list string))) : list string := default [] (default ∅ f !! "label").

(** The value of the query parameter, as JSON; [None] is an error. *)
Definition parsePruneLabelFilters (raw : body) : option (list string) :=
  match raw with
  | EmptyBody => Some []
  | InvalidBody => None
  | Doc j =>
    match unmarshal_as filters_new None j with
    | Some f => Some (new_labels f)
    | None => old_labels <$> unmarshal_as filters_old None j
    end
  end.

Definition label_matches (labels : gmap string string) (f : string) : bool :=
  match Cut1 "=" f with
  | Some (k, v) => map_get labels k ==s v
  | None => bool_decide (is_Some (labels !! f))
  end.

(** ** The handlers *)

Record pruneDeleted := mkPruneDeleted { pd_Deleted : string; pd_Untagged : string }.
Definition decode_pruneDeleted : pruneDeleted → json → pruneDeleted * bool :=
  decode_struct (λ kvs p, mkPruneDeleted (field decode_string "Deleted" kvs (pd_Deleted p))
                            (field decode_string "Untagged" kvs (pd_Untagged p)))
    (λ kvs, field_ok decode_string "Deleted" kvs "" && field_ok decode_string "Untagged" kvs "").
Definition encode_pruneDeleted (p : pruneDeleted) : json :=
  JObj ((if pd_Deleted p ==s "" then [] else [("Deleted", JStr (pd_Deleted p))]) ++
        (if pd_Untagged p ==s "" then [] else [("Untagged", JStr (pd_Untagged p))])).

Definition prune_answer (kind : string) (items : list json) : json :=
  JObj [(kind, JArr items); ("SpaceReclaimed", JInt 0)].

Section prune.
Context (docker : Docker).
(** The daemon's list of dangling images; [None] when there is no answer. *)
Context (dangling : option body).
(** What a DELETE of a path gives: status and body; [None] without an answer. *)
Context (delete : string → option (Z * body)).
(** The JSON reading of the text of a query parameter. *)
Context (parse_json : string → body).

Definition volumeMatchesLabelFilters (volName : string) (filters : list string) : bool :=
  match docker_get docker ("/volumes/" +:+ volName) ≫= unmarshal_as decode_labels None with
  | Some labels => forallb (label_matches (default ∅ labels)) filters
  | None => false
  end.

(** The loop of the handlers: the deletion of each candidate that [wanted] still
    holds of; after a successful one [forget] changes the state.  The result is
    what was deleted, with the daemon's answers. *)
Fixpoint prune_each (path : string → string) (success : Z → bool) (wanted : string → OwnershipDB → bool)
    (forget : string → PruneState → PruneState) (candidates : list string) (w : PruneState)
    : list (string * body) * PruneState :=
  match candidates with
  | [] => ([], w)
  | c :: cs =>
    if negb (wanted c (ps_db w)) then prune_each path success wanted forget cs w
    else
      let w := ps_send (path c) w in
      match delete (path c) with
      | Some (code, answer) =>
        if success code then
          let '(done, w) := prune_each path success wanted forget cs (forget c w) in ((c, answer) :: done, w)
        else prune_each path success wanted forget cs w
      | None => prune_each path success wanted forget cs w
      end
  end.

Definition deleted_code (code : Z) : bool := (code =? 204)%Z || (code =? 200)%Z.

Definition volume_path (v : string) : string := "/volumes/" +:+ v.
Definition network_path (n : string) : string := "/networks/" +:+ n.
Definition container_url (c : string) : string := "/containers/" +:+ c.
Definition image_url (i : string) : string := "/images/" +:+ i.

Definition handleVolumePrune (id : CallerIdentity) (r : Request) (w : PruneState) : json * PruneState :=
  let answer vs := prune_answer "VolumesDeleted" (JStr <$> vs) in
  match parsePruneLabelFilters (parse_json (values_get (url_Query (rq_URL r)) "filters")) with
  | None => (answer [], w)
  | Some labelFilters =>
    match (if IsPrivileged id then GetAllVolumeNames (ps_db w) else GetVolumeNamesByOwner (RealUID id) (ps_db w)) with
    | inl _ => (answer [], w)
    | inr ownedVols =>
      let wanted volName _ := isUserVolumePrefix volName &&
        (bool_decide (labelFilters = []) || volumeMatchesLabelFilters volName labelFilters) in
      let forget volName w := ps_exec (DeleteVolume volName)
        (ps_note ("volume:" +:+ volName) (mkPruneOwnerInfo (RealUID id) 0) w) in
      let '(deleted, w) := prune_each volume_path deleted_code wanted forget ownedVols w in
      (answer ((if IsPrivileged id then λ v, v else λ v, TrimPrefix v (UserVolumePrefix (RealUID id))) <$> deleted.*1), w)
    end
  end.

(** The record and the host ports of a container. *)
Definition forget_container (cid : string) (w : PruneState) : PruneState :=
  ps_exec (ReleasePortMappings cid) (ps_exec (DeleteContainer cid) w).

Definition handleContainerPrune (id : CallerIdentity) (w : PruneState) : option (json * PruneState) :=
  if IsPrivileged id then None else Some
  match GetContainerIDsByOwner (RealUID id) (ps_db w) with
  | inl _ => (prune_answer "ContainersDeleted" [], w)
  | inr ownedIDs =>
    let forget cid w := forget_container cid (ps_note ("container:" +:+ cid) (mkPruneOwnerInfo (RealUID id) 0) w) in
    let '(deleted, w) := prune_each container_url deleted_code (λ _ _, true) forget ownedIDs w in
    (prune_answer "ContainersDeleted" (JStr <$> deleted.*1), w)
  end.

(** An image of the user or without a record; a database that does not answer
    gives no record. *)
Definition image_prunable (uid : Z) (img : string) (d : OwnershipDB) : bool :=
  match GetImageOwner img d with Some (owner, _, _) => oi_UID owner ==z uid | None => true end.
Definition image_priv (img : string) (d : OwnershipDB) : Z :=
  match GetImageOwner img d with Some (_, _, priv) => priv | None => 0 end.

Definition dangling_ids : option (list string) :=
  match dangling with Some b => unmarshal_body (decode_list (decode_id "Id") "") [] b | None => None end.

Definition prune_images (uid : Z) (ids : list string) (w : PruneState) : list (string * body) * PruneState :=
  let forget img w := ps_exec (DeleteImage img)
    (ps_note ("image:" +:+ img) (mkPruneOwnerInfo uid (image_priv img (ps_db w))) w) in
  prune_each image_url (λ code, (code =? 200)%Z) (image_prunable uid) forget ids w.

(** The items the daemon lists for one deletion. *)
Definition deleted_items (answer : body) : option (list pruneDeleted) :=
  unmarshal_body (decode_list decode_pruneDeleted (mkPruneDeleted "" "")) [] answer.

Definition handleImagePrune (id : CallerIdentity) (w : PruneState) : option (json * PruneState) :=
  if IsPrivileged id then None else Some
  match dangling_ids with
  | None => (prune_answer "ImagesDeleted" [], w)
  | Some ids =>
    let '(deleted, w) := prune_images (RealUID id) ids w in
    (prune_answer "ImagesDeleted"
       (encode_pruneDeleted <$> (deleted ≫= λ '(img, answer), default [mkPruneDeleted img ""] (deleted_items answer))), w)
  end.

Definition prune_networks (ownedIDs : list string) (w : PruneState) : list string * PruneState :=
  let '(deleted, w) := prune_each network_path deleted_code (λ netID _, isValidHexID netID)
                         (λ netID, ps_exec (DeleteNetwork netID)) ownedIDs w in
  (deleted.*1, w).

Definition handleNetworkPrune (id : CallerIdentity) (w : PruneState) : option (json * PruneState) :=
  if IsPrivileged id then None else Some
  match GetNetworkIDsByOwner (RealUID id) (ps_db w) with
  | inl _ => (JObj [("NetworksDeleted", JArr [])], w)
  | inr ownedNetworkIDs =>
    let '(deleted, w) := prune_networks ownedNetworkIDs w in
    (JObj [("NetworksDeleted", JArr (JStr <$> deleted))], w)
  end.

(** Without the entries in the map, except for images. *)
Definition system_containers (uid : Z) (w : PruneState) : list string * PruneState :=
  match GetContainerIDsByOwner uid (ps_db w) with
  | inl _ => ([], w)
  | inr ids => let '(deleted, w) := prune_each container_url deleted_code (λ _ _, true) forget_container ids w in (deleted.*1, w)
  end.
Definition system_images (uid : Z) (w : PruneState) : list pruneDeleted * PruneState :=
  match dangling_ids with
  | None => ([], w)
  | Some ids =>
    let '(deleted, w) := prune_images uid ids w in
    (deleted ≫= (λ '(_, answer), default [] (deleted_items answer)), w)
  end.
Definition system_networks (uid : Z) (w : PruneState) : list string * PruneState :=
  match GetNetworkIDsByOwner uid (ps_db w) with inl _ => ([], w) | inr ids => prune_networks ids w end.
Definition system_volumes (uid : Z) (w : PruneState) : list string * PruneState :=
  match GetVolumeNamesByOwner uid (ps_db w) with
  | inl _ => ([], w)
  | inr vs =>
    let '(deleted, w) := prune_each volume_path deleted_code (λ v _, isUserVolumePrefix v)
                           (λ v, ps_exec (DeleteVolume v)) vs w in
    ((λ v, TrimPrefix v (UserVolumePrefix uid)) <$> deleted.*1, w)
  end.

Definition handleSystemPrune (id : CallerIdentity) (w : PruneState) : option (json * PruneState) :=
  if IsPrivileged id then None else
  let '(containersDeleted, w) := system_containers (RealUID id) w in
  let '(imagesDeleted, w) := system_images (RealUID id) w in
  let '(networksDeleted, w) := system_networks (RealUID id) w in
  let '(volumesDeleted, w) := system_volumes (RealUID id) w in
  Some (JObj [("ContainersDeleted", JArr (JStr <$> containersDeleted));
              ("ImagesDeleted", JArr (encode_pruneDeleted <$> imagesDeleted));
              ("NetworksDeleted", JArr (JStr <$> networksDeleted));
              ("VolumesDeleted", JArr (JStr <$> volumesDeleted)); ("SpaceReclaimed", JInt 0)], w).

(** The place of the handlers in [ServeHTTP]: [None] goes on to the daemon. *)
Definition answer_prune (id : CallerIdentity) (action : string) (r : Request) (w : PruneState) : option (json * PruneState) :=
  let path := StripAPIVersion (url_Path (rq_URL r)) in
  if negb (action ==s ActionPrune) then None
  else if HasPrefix path "/volumes/prune" then Some (handleVolumePrune id r w)
  else if HasPrefix path "/containers/prune" then handleContainerPrune id w
  else if HasPrefix path "/images/prune" then handleImagePrune id w
  else if HasPrefix path "/networks/prune" then handleNetworkPrune id w
  else if HasPrefix path "/system/prune" then handleSystemPrune id w
  else None.
End prune.

(** ** Lemmas: what is sent *)

(** From [w] to [w'] DELETE requests were sent, all with the property, and rows
    were only taken from the tables. *)
Definition fewer_rows (d d' : OwnershipDB) : Prop :=
  (∀ r, r ∈ containers d' → r ∈ containers d) ∧ (∀ r, r ∈ networks d' → r ∈ networks d) ∧
  (∀ r, r ∈ volumes d' → r ∈ volumes d).
#[export] Instance fewer_rows_preorder : PreOrder fewer_rows.
Proof. split; [by intros d|]. intros d1 d2 d3 (A1 & A2 & A3) (B1 & B2 & B3). split_and!; auto. Qed.

Definition sends (P : string → OwnershipDB → Prop) (w w' : PruneState) : Prop :=
  fewer_rows (ps_db w) (ps_db w') ∧
  ∃ l, ps_sent w' = ps_sent w ++ l ∧ Forall (λ pd, P pd.1 pd.2) l.

Lemma sends_refl P w : sends P w w.
Proof. split; [done|]. exists []. by rewrite app_nil_r. Qed.
Lemma sends_trans P w1 w2 w3 : sends P w1 w2 → sends P w2 w3 → sends P w1 w3.
Proof.
  intros (F1 & l1 & E1 & H1) (F2 & l2 & E2 & H2). split; [by etrans|].
  exists (l1 ++ l2). rewrite E2, E1, app_assoc. split; [done|]. by apply Forall_app.
Qed.
Lemma sends_weaken (P Q : string → OwnershipDB → Prop) w w' :
  (∀ p d, P p d → Q p d) → sends P w w' → sends Q w w'.
Proof. intros HPQ (F & l & E & H). split; [done|]. exists l. split; [done|]. eapply Forall_impl; [exact H|]. auto. Qed.

Lemma sends_elem P w w' p d : sends P w w' → (p, d) ∈ ps_sent w' → (p, d) ∈ ps_sent w ∨ P p d.
Proof.
  intros (_ & l & -> & H) [Hin|Hin]%elem_of_app; [by left|right].
  by apply (proj1 (Forall_forall _ _) H (p, d)).
Qed.

(** Forgetting sends nothing. *)
Definition forgets (f : PruneState → PruneState) : Prop :=
  ∀ w, ps_sent (f w) = ps_sent w ∧ fewer_rows (ps_db w) (ps_db (f w)).

Lemma forgets_exec f : (∀ d, fewer_rows d (f d).2) → forgets (ps_exec f).
Proof. intros H w. split; [done|]. apply H. Qed.
Lemma forgets_note k o : forgets (ps_note k o).
Proof. intros w. by split. Qed.
Lemma forgets_compose f g : forgets f → forgets g → forgets (λ w, f (g w)).
Proof.
  intros Hf Hg w. destruct (Hf (g w)) as [E1 F1], (Hg w) as [E2 F2]. split; [congruence|]. by etrans.
Qed.
Lemma forgets_read {A} (q : PruneState → A) (f : A → PruneState → PruneState) :
  (∀ a, forgets (f a)) → forgets (λ w, f (q w) w).
Proof. intros H w. apply H. Qed.

Lemma Exec_fewer f d : fewer_rows d (f d) → fewer_rows d (Exec f d).2.
Proof.
  intros H. apply (Exec_ind (λ d', fewer_rows d d')); [|done|done].
  intros w d' (A & B & C). by destruct d'.
Qed.

Ltac fewer_tac := let d := fresh "d" in let r := fresh "r" in let Hr := fresh "Hr" in
  intros d; apply Exec_fewer; destruct d; split_and!; simpl; intros r Hr; try done;
  rewrite ?elem_of_tbl_delete, ?elem_of_tbl_delete_where in Hr; by destruct Hr.

Lemma fewer_DeleteContainer c : ∀ d, fewer_rows d (DeleteContainer c d).2.
Proof. unfold DeleteContainer. fewer_tac. Qed.
Lemma fewer_ReleasePortMappings c : ∀ d, fewer_rows d (ReleasePortMappings c d).2.
Proof. unfold ReleasePortMappings. fewer_tac. Qed.
Lemma fewer_DeleteVolume v : ∀ d, fewer_rows d (DeleteVolume v d).2.
Proof. unfold DeleteVolume. fewer_tac. Qed.
Lemma fewer_DeleteImage i : ∀ d, fewer_rows d (DeleteImage i d).2.
Proof.
  intros d. unfold DeleteImage. cbv zeta.
  generalize (if resolveImageIDInDB i d !=s "" then resolveImageIDInDB i d else normalizeImageID i). intros k.
  destruct (Exec (on_image_access (tbl_delete_where (refs_image k))) d) as [e d1] eqn:E.
  transitivity d1; [change d1 with (e, d1).2; rewrite <- E; clear E; revert d|clear E; revert d1]; fewer_tac.
Qed.
Lemma fewer_DeleteNetwork n : ∀ d, fewer_rows d (DeleteNetwork n d).2.
Proof.
  intros d. unfold DeleteNetwork. destruct (Exec (on_networks (tbl_delete n)) d) as [e d1] eqn:E.
  transitivity d1; [change d1 with (e, d1).2; rewrite <- E; clear E; revert d; fewer_tac|].
  destruct e; [done|]. clear E. revert d1. fewer_tac.
Qed.

Lemma forgets_noted f k o : (∀ d, fewer_rows d (f d).2) → forgets (λ w, ps_exec f (ps_note k o w)).
Proof. intros H. apply (forgets_compose (ps_exec f) (ps_note k o)); [by apply forgets_exec|apply forgets_note]. Qed.

Create HintDb prune.
#[export] Hint Resolve sends_refl forgets_note forgets_exec forgets_noted fewer_DeleteContainer fewer_DeleteVolume
  fewer_ReleasePortMappings fewer_DeleteImage fewer_DeleteNetwork : prune.

Section laws.
Context (delete : string → option (Z * body)).
Implicit Types (w : PruneState) (d : OwnershipDB) (c : string).

(** The loop asks only for wanted candidates and reports only what was deleted. *)
Lemma prune_each_sends path success wanted forget cs w l w' :
  (∀ c, forgets (forget c)) → prune_each delete path success wanted forget cs w = (l, w') →
  sends (λ p d, ∃ c, c ∈ cs ∧ p = path c ∧ wanted c d = true) w w'.
Proof.
  intros Hf. revert w l w'. induction cs as [|c cs IH]; intros w l w'; cbn [prune_each].
  { intros [= _ <-]. apply sends_refl. }
  assert (∀ w1 l1, prune_each delete path success wanted forget cs w1 = (l1, w') →
    sends (λ p d, ∃ c0, c0 ∈ c :: cs ∧ p = path c0 ∧ wanted c0 d = true) w1 w') as IH'.
  { intros w1 l1 H. eapply sends_weaken, IH, H. intros p d (x & Hx & ?). exists x. split; [by right|done]. }
  destruct (wanted c (ps_db w)) eqn:Ew; cbn [negb]; [|apply IH'].
  assert (sends (λ p d, ∃ c0, c0 ∈ c :: cs ∧ p = path c0 ∧ wanted c0 d = true) w (ps_send (path c) w)) as Hs.
  { split; [done|]. exists [(path c, ps_db w)]. split; [done|]. apply Forall_singleton. exists c. split_and!; [left|done..]. }
  destruct (delete (path c)) as [[code answer]|]; [|intros H; eapply sends_trans, IH', H; exact Hs].
  destruct (success code); [|intros H; eapply sends_trans, IH', H; exact Hs].
  destruct (prune_each _ _ _ _ _ cs _) as [done w2] eqn:E. intros [= _ <-].
  eapply sends_trans; [exact Hs|]. eapply sends_trans, IH', E.
  destruct (Hf c (ps_send (path c) w)) as [E1 F1]. split; [done|]. exists []. by rewrite app_nil_r.
Qed.

Lemma prune_each_deleted path success wanted forget cs w c a :
  (c, a) ∈ (prune_each delete path success wanted forget cs w).1 →
  c ∈ cs ∧ ∃ code, delete (path c) = Some (code, a) ∧ success code = true.
Proof.
  revert w. induction cs as [|x cs IH]; intros w; cbn [prune_each]; [intros H; by apply elem_of_nil in H|].
  assert (∀ w1, (c, a) ∈ (prune_each delete path success wanted forget cs w1).1 →
    c ∈ x :: cs ∧ ∃ code, delete (path c) = Some (code, a) ∧ success code = true) as IH'.
  { intros w1 H. destruct (IH w1 H). split; [by right|done]. }
  destruct (negb _); [apply IH'|]. destruct (delete (path x)) as [[code answer]|] eqn:Ed; [|apply IH'].
  destruct (success code) eqn:Es; [|apply IH'].
  destruct (prune_each _ _ _ _ _ cs _) as [done w2] eqn:E. simpl.
  intros [[= -> ->]|Hin]%elem_of_cons; [split; [left|by exists code]|].
  apply (IH' (forget x (ps_send (path x) w))). by rewrite E.
Qed.
End laws.

(** ** Properties *)

Section prune_laws.
Context (docker : Docker) (dangling : option body) (delete : string → option (Z * body)) (parse_json : string → body).

(** A path a user's prune may ask the daemon to delete, [d0] being the database
    before the prune and [d] that of the moment. *)
Definition own_target (uid : Z) (d0 : OwnershipDB) (path : string) (d : OwnershipDB) : Prop :=
  (∃ r, r ∈ containers d0 ∧ c_owner_uid r = uid ∧ c_privileged_context r = 0%Z ∧ path = container_url (c_id r)) ∨
  (∃ ids i, dangling_ids dangling = Some ids ∧ i ∈ ids ∧ path = image_url i ∧
        (db_down d = false → normalizeImageID i ≠ "" →
         ∀ row, tbl_lookup (normalizeImageID i) (images d) = Some row → i_owner_uid row = uid)) ∨
  (∃ r, r ∈ networks d0 ∧ n_owner_uid r = uid ∧ n_privileged_context r = 0%Z ∧ isValidHexID (n_network_id r) = true ∧
        path = network_path (n_network_id r)) ∨
  (∃ r, r ∈ volumes d0 ∧ v_owner_uid r = uid ∧ v_privileged_context r = 0%Z ∧ isUserVolumePrefix (v_name r) = true ∧
        path = volume_path (v_name r)).

Lemma own_target_mono uid d0 d1 p d : fewer_rows d0 d1 → own_target uid d1 p d → own_target uid d0 p d.
Proof.
  intros (A & B & C) [(r & Hr & H)|[H|[(r & Hr & H)|(r & Hr & H)]]].
  - left. exists r. auto.
  - right. by left.
  - right. right. left. exists r. auto.
  - right. right. right. exists r. auto.
Qed.

Lemma sends_containers uid forget ids w l w' :
  (∀ c, forgets (forget c)) → GetContainerIDsByOwner uid (ps_db w) = inr ids →
  prune_each delete container_url deleted_code (λ _ _, true) forget ids w = (l, w') →
  sends (own_target uid (ps_db w)) w w'.
Proof.
  intros Hf Hids H. apply prune_each_sends in H; [|done]. eapply sends_weaken, H. intros p d (c & Hc & -> & _). left.
  unfold GetContainerIDsByOwner, Query in Hids. destruct (db_down _); [done|]. injection Hids as <-.
  apply list_elem_of_fmap in Hc as (r & -> & Hr). apply elem_of_tbl_select in Hr as [Hr [Hu Hp]%andb_true_iff].
  exists r. apply Z.eqb_eq in Hu, Hp. done.
Qed.

Lemma sends_networks uid ids w l w' :
  GetNetworkIDsByOwner uid (ps_db w) = inr ids → prune_networks delete ids w = (l, w') →
  sends (own_target uid (ps_db w)) w w'.
Proof.
  intros Hids H. unfold prune_networks in H.
  destruct (prune_each _ _ _ _ _ ids w) as [l' w1] eqn:E. injection H as _ <-.
  apply prune_each_sends in E; [|auto with prune]. eapply sends_weaken, E. intros p d (n & Hn & -> & Hv).
  right. right. left. unfold GetNetworkIDsByOwner, Query in Hids. destruct (db_down _); [done|]. injection Hids as <-.
  apply list_elem_of_fmap in Hn as (r & -> & Hr). apply elem_of_tbl_select in Hr as [Hr [Hu Hp]%andb_true_iff].
  exists r. apply Z.eqb_eq in Hu, Hp. done.
Qed.

Lemma sends_volumes uid wanted forget vs w l w' :
  (∀ c, forgets (forget c)) → (∀ v d, wanted v d = true → isUserVolumePrefix v = true) →
  GetVolumeNamesByOwner uid (ps_db w) = inr vs →
  prune_each delete volume_path deleted_code wanted forget vs w = (l, w') →
  sends (own_target uid (ps_db w)) w w'.
Proof.
  intros Hf Hw Hids H. apply prune_each_sends in H; [|done]. eapply sends_weaken, H. intros p d (v & Hv & -> & Hv').
  right. right. right. unfold GetVolumeNamesByOwner, Query in Hids. destruct (db_down _); [done|]. injection Hids as <-.
  apply list_elem_of_fmap in Hv as (r & -> & Hr). apply elem_of_tbl_select in Hr as [Hr [Hu Hp]%andb_true_iff].
  exists r. apply Z.eqb_eq in Hu, Hp. apply Hw in Hv'. done.
Qed.

Lemma image_prunable_own uid i d : image_prunable uid i d = true → db_down d = false → normalizeImageID i ≠ "" →
  ∀ row, tbl_lookup (normalizeImageID i) (images d) = Some row → i_owner_uid row = uid.
Proof.
  unfold image_prunable, GetImageOwner. intros Hp Hd Hn%String.eqb_neq row Hr. rewrite (resolve_exact i row d Hd Hr), Hn in Hp.
  unfold QueryRow in Hp. rewrite Hd, Hr in Hp. by apply Z.eqb_eq in Hp.
Qed.
Lemma sends_images uid ids w l w' :
  dangling_ids dangling = Some ids → prune_images delete uid ids w = (l, w') → sends (own_target uid (ps_db w)) w w'.
Proof.
  intros Hids H. unfold prune_images in H. apply prune_each_sends in H.
  - eapply sends_weaken, H. intros p d (i & Hi & -> & Hp). right. left. exists ids, i. split_and!; [done..|].
    by apply image_prunable_own.
  - intros i. apply (forgets_read (λ w, mkPruneOwnerInfo uid (image_priv i (ps_db w)))
      (λ o w, ps_exec (DeleteImage i) (ps_note ("image:" +:+ i) o w))). by auto with prune.
Qed.

Lemma sends_volume_prune id r w ans w' :
  IsPrivileged id = false → handleVolumePrune docker delete parse_json id r w = (ans, w') →
  sends (own_target (RealUID id) (ps_db w)) w w'.
Proof.
  intros Hp. unfold handleVolumePrune. destruct (parsePruneLabelFilters _) as [filters|]; [|intros [= _ <-]; apply sends_refl].
  rewrite Hp. destruct (GetVolumeNamesByOwner _ _) as [|vs] eqn:Ev; [intros [= _ <-]; apply sends_refl|].
  destruct (prune_each _ _ _ _ _ vs w) as [l w1] eqn:E. intros [= _ <-].
  eapply sends_volumes, E; [intros v; apply forgets_noted, fewer_DeleteVolume|intros v d [? _]%andb_true_iff; done|done].
Qed.

Lemma sends_then uid w w1 w2 : sends (own_target uid (ps_db w)) w w1 → sends (own_target uid (ps_db w1)) w1 w2 →
  sends (own_target uid (ps_db w)) w w2.
Proof.
  intros H1 H2. eapply sends_trans; [exact H1|]. eapply sends_weaken, H2. intros p d. apply own_target_mono, H1.
Qed.

Lemma sends_system_prune id w ans w' :
  handleSystemPrune dangling delete id w = Some (ans, w') → sends (own_target (RealUID id) (ps_db w)) w w'.
Proof.
  unfold handleSystemPrune. destruct (IsPrivileged id); [done|].
  destruct (system_containers delete (RealUID id) w) as [l1 w1] eqn:E1.
  destruct (system_images dangling delete (RealUID id) w1) as [l2 w2] eqn:E2.
  destruct (system_networks delete (RealUID id) w2) as [l3 w3] eqn:E3.
  destruct (system_volumes delete (RealUID id) w3) as [l4 w4] eqn:E4. intros [= _ <-].
  apply (sends_then _ _ w1); [|apply (sends_then _ _ w2); [|apply (sends_then _ _ w3)]].
  - unfold system_containers in E1. destruct (GetContainerIDsByOwner _ _) as [|ids] eqn:G; [injection E1 as _ <-; apply sends_refl|].
    destruct (prune_each _ _ _ _ _ _ w) as [l x] eqn:E. injection E1 as _ <-. eapply sends_containers, E; [|done].
    intros c. by apply (forgets_compose (ps_exec (ReleasePortMappings c)) (ps_exec (DeleteContainer c))); auto with prune.
  - unfold system_images in E2. destruct (dangling_ids dangling) as [ids|] eqn:G; [|injection E2 as _ <-; apply sends_refl].
    destruct (prune_images _ _ _ w1) as [l x] eqn:E. injection E2 as _ <-. by eapply sends_images, E.
  - unfold system_networks in E3. destruct (GetNetworkIDsByOwner _ _) as [|ids] eqn:G; [injection E3 as _ <-; apply sends_refl|].
    by eapply sends_networks, E3.
  - unfold system_volumes in E4. destruct (GetVolumeNamesByOwner _ _) as [|ids] eqn:G; [injection E4 as _ <-; apply sends_refl|].
    destruct (prune_each _ _ _ _ _ _ w3) as [l x] eqn:E. injection E4 as _ <-.
    eapply sends_volumes, E; [intros v; by apply forgets_exec, fewer_DeleteVolume|done|done].
Qed.
End prune_laws.

(** C22: A user's prune deletes nothing that is recorded for others.  Every DELETE a prune
    of an unprivileged user adds to those sent names a container, a network or a volume
    recorded for the user outside sudo before the prune, the network by a hexadecimal id
    and the volume under a user prefix; or a dangling image the daemon lists that, if the
    database can be read at that moment, has no record of another owner under its id.
    (If it cannot be read, all dangling images are deleted: [image_prune_without_database].) *)
Theorem prune_spares_others docker dangling delete parse_json id action r w ans w' p d :
  IsPrivileged id = false → answer_prune docker dangling delete parse_json id action r w = Some (ans, w') →
  (p, d) ∈ ps_sent w' → (p, d) ∈ ps_sent w ∨ own_target dangling (RealUID id) (ps_db w) p d.
Proof.
  intros Hp H. apply (sends_elem (own_target dangling (RealUID id) (ps_db w))). revert H.
  unfold answer_prune. destruct (negb _); [done|].
  destruct (HasPrefix _ "/volumes/prune"); [intros [= H]; by eapply sends_volume_prune|].
  destruct (HasPrefix _ "/containers/prune").
  { unfold handleContainerPrune. rewrite Hp. intros [= H]. destruct (GetContainerIDsByOwner _ _) as [|ids] eqn:G;
      [injection H as _ <-; apply sends_refl|].
    destruct (prune_each _ _ _ _ _ ids w) as [l w1] eqn:E. injection H as _ <-.
    eapply sends_containers, E; [|done]. intros c. unfold forget_container.
    apply (forgets_compose (ps_exec (ReleasePortMappings c)) (λ w, ps_exec (DeleteContainer c) (ps_note _ _ w)));
      auto with prune. }
  destruct (HasPrefix _ "/images/prune").
  { unfold handleImagePrune. rewrite Hp. intros [= H]. destruct (dangling_ids dangling) as [ids|] eqn:G;
      [|injection H as _ <-; apply sends_refl].
    destruct (prune_images _ _ ids w) as [l w1] eqn:E. injection H as _ <-. by eapply sends_images. }
  destruct (HasPrefix _ "/networks/prune").
  { unfold handleNetworkPrune. rewrite Hp. intros [= H]. destruct (GetNetworkIDsByOwner _ _) as [|ids] eqn:G;
      [injection H as _ <-; apply sends_refl|].
    destruct (prune_networks _ ids w) as [l w1] eqn:E. injection H as _ <-. by eapply sends_networks. }
  destruct (HasPrefix _ "/system/prune"); [|done]. by apply sends_system_prune.
Qed.

(** The handlers answer exactly the requests [ServeHTTP] keeps from the daemon. *)
Theorem prune_handlers_intercept docker dangling delete parse_json id action r w :
  is_Some (answer_prune docker dangling delete parse_json id action r w) ↔ prune_intercepted id action r = true.
Proof.
  unfold answer_prune, prune_intercepted, prune_paths. destruct (action ==s ActionPrune); cbn [negb andb]; [|split; [by intros [? ?]|done]].
  cbn [existsb]. destruct (HasPrefix _ "/volumes/prune"); cbn [orb]; [split; [done|by eexists]|].
  unfold handleContainerPrune, handleImagePrune, handleNetworkPrune, handleSystemPrune.
  destruct (IsPrivileged id); cbn [negb andb].
  { repeat case_match; (split; [by intros [? ?]|done]). }
  destruct (HasPrefix _ "/containers/prune"); cbn [orb]; [split; [done|by eexists]|].
  destruct (HasPrefix _ "/images/prune"); cbn [orb]; [split; [done|by eexists]|].
  destruct (HasPrefix _ "/networks/prune"); cbn [orb]; [split; [done|by eexists]|].
  destruct (HasPrefix _ "/system/prune"); cbn [orb]; [|split; [by intros [? ?]|done]].
  destruct (system_containers _ _ _), (system_images _ _ _ _), (system_networks _ _ _), (system_volumes _ _ _).
  split; [done|by eexists].
Qed.

(** Without the database the image prune fails open: every dangling image the
    daemon lists is asked to be deleted, whoever owns it. *)
Theorem image_prune_without_database dangling delete id w ids ans w' :
  IsPrivileged id = false → db_down (ps_db w) = true → dangling_ids dangling = Some ids →
  handleImagePrune dangling delete id w = Some (ans, w') →
  (ps_sent w').*1 = (ps_sent w).*1 ++ (image_url <$> ids).
Proof.
  intros Hp Hd Hids. unfold handleImagePrune. rewrite Hp, Hids. unfold prune_images.
  destruct (prune_each _ _ _ _ _ ids w) as [l w1] eqn:E. intros [= _ <-]. clear Hids. revert w l E Hd.
  assert (∀ i d, db_down d = true → GetImageOwner i d = None) as Hnone.
  { intros i d Hd. unfold GetImageOwner, QueryRow. rewrite Hd. by destruct (_ ==s ""). }
  assert (∀ i d, db_down d = true → (DeleteImage i d).2 = d) as Hdel.
  { intros i d Hd. unfold DeleteImage. cbv zeta. rewrite (Exec_down _ d Hd). cbv iota. by rewrite (Exec_down _ d Hd). }
  induction ids as [|i ids IH]; intros w l E Hd; cbn [prune_each] in E.
  { injection E as _ <-. by rewrite app_nil_r. }
  unfold image_prunable in E at 1. rewrite Hnone in E by done. cbn [negb] in E.
  assert (∀ w2 l2, prune_each delete image_url (λ code, (code =? 200)%Z) (image_prunable (RealUID id))
    (λ img w, ps_exec (DeleteImage img) (ps_note ("image:" +:+ img)
       (mkPruneOwnerInfo (RealUID id) (image_priv img (ps_db w))) w)) ids w2 = (l2, w1) →
    ps_db w2 = ps_db w → ps_sent w2 = ps_sent w ++ [(image_url i, ps_db w)] →
    (ps_sent w1).*1 = (ps_sent w).*1 ++ (image_url <$> i :: ids)) as Hgo.
  { intros w2 l2 H2 Hdb Hs. rewrite (IH w2 l2 H2) by (by rewrite Hdb). rewrite Hs, fmap_app, <- app_assoc. done. }
  destruct (delete (image_url i)) as [[code answer]|]; [|by eapply Hgo].
  destruct (code =? 200)%Z; [|by eapply Hgo].
  destruct (prune_each _ _ _ _ _ ids _) as [l2 w2] eqn:E2. injection E as _ <-.
  eapply Hgo; [exact E2| |done]. simpl. by apply Hdel.
Qed.

(** The filters of a volume prune.  Filters that cannot be read delete nothing;
    with label filters only a volume the daemon gives all the labels of is deleted;
    but filters without [label], such as those by [label!], are no filters. *)
Theorem volume_prune_filters docker delete parse_json id r w ans w' :
  handleVolumePrune docker delete parse_json id r w = (ans, w') →
  let raw := parse_json (values_get (url_Query (rq_URL r)) "filters") in
  (parsePruneLabelFilters raw = None → w' = w ∧ ans = prune_answer "VolumesDeleted" []) ∧
  (∀ filters p d, parsePruneLabelFilters raw = Some filters → filters ≠ [] → (p, d) ∈ ps_sent w' →
     (p, d) ∈ ps_sent w ∨ ∃ v labels, p = volume_path v ∧
       docker_get docker (volume_path v) ≫= unmarshal_as decode_labels None = Some labels ∧
       ∀ f, f ∈ filters → label_matches (default ∅ labels) f = true) ∧
  (∀ key v b, key ≠ "label" → parsePruneLabelFilters (Doc (JObj [(key, JObj [(v, JBool b)])])) = Some []).
Proof.
  intros H raw. split_and!.
  - intros Hn. unfold handleVolumePrune in H. fold raw in H. rewrite Hn in H. by injection H as <- <-.
  - intros filters p d Hf Hne Hin. unfold handleVolumePrune in H. fold raw in H. rewrite Hf in H. cbv zeta in H.
    destruct (if IsPrivileged id then _ else _) as [|vs]; [injection H as _ <-; by left|].
    destruct (prune_each _ _ _ _ _ vs w) as [l w1] eqn:E. injection H as _ <-.
    apply prune_each_sends in E; [|intros v; apply forgets_noted, fewer_DeleteVolume].
    destruct (sends_elem _ _ _ _ _ E Hin) as [?|(v & _ & -> & [_ Hv]%andb_true_iff)]; [by left|right].
    rewrite bool_decide_eq_false_2 in Hv by done. cbn [orb] in Hv. unfold volumeMatchesLabelFilters in Hv.
    fold (volume_path v) in Hv. exists v.
    destruct (docker_get docker (volume_path v) ≫= unmarshal_as decode_labels None) as [labels|]; [|done].
    exists labels. split_and!; [done..|]. intros f Hfin. rewrite forallb_forall in Hv. by apply Hv, list_elem_of_In.
  - intros key v b Hk. transitivity (Some (new_labels (Some {[key := Some {[v := b]}]}))); [done|].
    unfold new_labels. cbn [default]. simpl. by rewrite lookup_singleton_ne.
Qed.

(** ** Examples *)

Module PruneDemo.

Definition alice : CallerIdentity := ImageDemo.alice.
(** alice: a container and a volume; bob: a container and an image. *)
Definition db : OwnershipDB :=
  (SetVolumeOwner 2 "user-1001-volume-data" alice (SetContainerOwner 1 FilterDemo.web_id alice ""
     (SetContainerOwner 2 "bbbbbbbbbbbbbb" ImageDemo.bob "" ImageDemo.db).2).2).2.
Definition start (d : OwnershipDB) : PruneState := mkPruneState d ∅ [].

(** The daemon lists bob's image and one without a record, and deletes what it is asked. *)
Definition dangling : option body := Some (Doc (JArr [JObj [("Id", JStr ImageDemo.digest)]; JObj [("Id", JStr "sha256:abc")]])).
Definition delete (path : string) : option (Z * body) :=
  if HasPrefix path "/images/" then Some (200%Z, Doc (JArr [JObj [("Deleted", JStr (str_drop 8 path))]])) else Some (204%Z, EmptyBody).
(** The text of the filters as the examples use it. *)
Definition parse_json (s : string) : body :=
  if s ==s "" then EmptyBody
  else if s ==s "bad" then InvalidBody
  else Doc (JObj [("label", JObj [(s, JBool true)])]).
Definition docker : Docker :=
  mkDocker (λ path, if path ==s "/volumes/user-1001-volume-data" then Some (JObj [("Labels", JObj [("env", JStr "test")])]) else None)
    (λ _, None) (λ _, None).

Definition system : Request := plain_request "POST" "/v1.41/system/prune" "" EmptyBody.
Definition volumes (filters : string) : Request := plain_request "POST" "/volumes/prune" ("filters=" +:+ filters) EmptyBody.
Definition run (r : Request) (d : OwnershipDB) : json * PruneState :=
  default (JNull, start d) (answer_prune docker dangling delete parse_json alice ActionPrune r (start d)).

Example system_prune_answer :
  (run system db).1 =
  JObj [("ContainersDeleted", JArr [JStr FilterDemo.web_id]);
        ("ImagesDeleted", JArr [JObj [("Deleted", JStr "sha256:abc")]]);
        ("NetworksDeleted", JArr []); ("VolumesDeleted", JArr [JStr "data"]); ("SpaceReclaimed", JInt 0)].
Proof. vm_compute. reflexivity. Qed.

End PruneDemo.

(** ** Witnesses *)

Lemma prune_spares_others_witness :
  ∃ d, ("/images/sha256:abc", d) ∈ ps_sent (PruneDemo.run PruneDemo.system PruneDemo.db).2 ∧
    own_target PruneDemo.dangling 1001 PruneDemo.db "/images/sha256:abc" d.
Proof.
  destruct (answer_prune PruneDemo.docker PruneDemo.dangling PruneDemo.delete PruneDemo.parse_json PruneDemo.alice
    ActionPrune PruneDemo.system (PruneDemo.start PruneDemo.db)) as [[ans w']|] eqn:E; [|by vm_compute in E].
  assert ((PruneDemo.run PruneDemo.system PruneDemo.db).2 = w') as Hw by (unfold PruneDemo.run; by rewrite E).
  assert (∃ d, ("/images/sha256:abc", d) ∈ ps_sent w') as [d Hd].
  { rewrite <- Hw. eexists. vm_compute. by right; left. }
  exists d. rewrite Hw. split; [exact Hd|].
  destruct (prune_spares_others _ _ _ _ PruneDemo.alice _ _ _ _ _ _ d eq_refl E Hd) as [Hin|Ho]; [|exact Ho].
  by apply elem_of_nil in Hin.
Defined.

Lemma image_prune_without_database_witness :
  ∃ ans w', handleImagePrune PruneDemo.dangling PruneDemo.delete PruneDemo.alice
              (PruneDemo.start (set_writes_left (Some 0) PruneDemo.db)) = Some (ans, w') ∧
    (ps_sent w').*1 = ["/images/" +:+ ImageDemo.digest; "/images/sha256:abc"].
Proof.
  destruct (handleImagePrune PruneDemo.dangling PruneDemo.delete PruneDemo.alice
    (PruneDemo.start (set_writes_left (Some 0) PruneDemo.db))) as [[ans w']|] eqn:E; [|by vm_compute in E].
  exists ans, w'. split; [reflexivity|].
  apply (image_prune_without_database PruneDemo.dangling PruneDemo.delete PruneDemo.alice
    (PruneDemo.start (set_writes_left (Some 0) PruneDemo.db)) [ImageDemo.digest; "sha256:abc"] ans w' eq_refl eq_refl eq_refl E).
Defined.

Lemma volume_prune_filters_witness :
  (handleVolumePrune PruneDemo.docker PruneDemo.delete PruneDemo.parse_json PruneDemo.alice (PruneDemo.volumes "bad")
     (PruneDemo.start PruneDemo.db)).2 = PruneDemo.start PruneDemo.db ∧
  ps_sent (handleVolumePrune PruneDemo.docker PruneDemo.delete PruneDemo.parse_json PruneDemo.alice
     (PruneDemo.volumes "env%3Dtest") (PruneDemo.start PruneDemo.db)).2 = [("/volumes/user-1001-volume-data", PruneDemo.db)].
Proof.
  split; [|vm_compute; reflexivity].
  destruct (handleVolumePrune PruneDemo.docker PruneDemo.delete PruneDemo.parse_json PruneDemo.alice
    (PruneDemo.volumes "bad") (PruneDemo.start PruneDemo.db)) as [ans w'] eqn:E.
  destruct (volume_prune_filters _ _ _ _ _ _ ans w' E) as (H & _). apply H. reflexivity.
Defined.
