(* ===== verification/Streams.v ===== *)
(** * Streams: what the proxy reads out of the daemon's answers

    The helpers of [internal/forward/proxy.go] that take an answer of the daemon
    apart or clean it for the user: the image id at the end of a build or pull
    stream ([extractImageIDFromStreamLines], [streamAndCaptureImageID]), the images
    of a load, the subnets and states asked of the daemon, the internal names taken
    out of error messages and inspections ([stripInternalPrefixFromErrorMessage],
    [stripNetworkNamePrefix], [StripContainerInspectNetworkPrefix] of
    [internal/isolation/network.go]) and the JSON of an event line.  A text and its
    reading as JSON go together; how a text reads as JSON is a parameter where a
    changed text is read again. *)

From S2P Require Import Prelude GoStrings GoJson Docker Identity Tables Database ImageDB ResourceDB Names Events ImagePerm Quota.
From S2P Require Import GoPath Storage Bodies Filter.

(** ** Texts *)

(** [strings.ReplaceAll] of an [old] that is not empty; the fuel is the length. *)
Fixpoint replace_all (fuel : nat) (s old new : string) : string :=
  match fuel with
  | O => s
  | S fuel =>
    match Index s old with
    | Some i => str_take i s +:+ new +:+ replace_all fuel (str_drop (i + slen old) s) old new
    | None => s
    end
  end.
Definition ReplaceAll (s old new : string) : string := replace_all (slen s) s old new.

(** [strings.TrimRight] with the bytes that satisfy [p]. *)
Fixpoint TrimRightFunc (p : ascii → bool) (s : string) : string :=
  match s with
  | "" => ""
  | String c s =>
    match TrimRightFunc p s with
    | "" => if p c then "" else String c ""
    | t => String c t
    end
  end.

(** The double quote. *)
Definition DQ : ascii := "034"%char.
Definition quoted (s : string) : string := String DQ s +:+ String DQ "".
Definition hex_low (n : Z) : ascii := ascii_of_N (Z.to_N (if (n <? 10)%Z then n + 48 else n + 87)).
(** The bytes of a string as [json.Marshal] writes them. *)
Definition quote_byte (c : ascii) : string :=
  let x := byte_val c in
  if Ascii.eqb c DQ || Ascii.eqb c "\" then String "\" (String c "")
  else if (x =? 8)%Z then "\b" else if (x =? 12)%Z then "\f" else if (x =? 10)%Z then "\n"
  else if (x =? 13)%Z then "\r" else if (x =? 9)%Z then "\t"
  else if (x <? 32)%Z || existsb (Ascii.eqb c) ["<"; ">"; "&"]%char
  then "\u00" +:+ String (hex_low (x / 16)) (String (hex_low (x mod 16)) "")
  else String c "".
Fixpoint quote_runes (fuel : nat) (s : string) : string :=
  match fuel, s with
  | S fuel, String c _ =>
    let '(r, n) := decode_rune s in
    let rest := quote_runes fuel (str_drop n s) in
    if (byte_val c <? 128)%Z then quote_byte c +:+ rest
    else if (r =? 65533)%Z && (n =? 1)%nat then "\ufffd" +:+ rest
    else if (r =? 8232)%Z then "\u2028" +:+ rest
    else if (r =? 8233)%Z then "\u2029" +:+ rest
    else str_take n s +:+ rest
  | _, _ => ""
  end.
Definition quote_string (s : string) : string := quoted (quote_runes (slen s) s).

(** ** Streams *)

(** A line, and what it is as JSON. *)
Record StreamLine := mkStreamLine { ln_text : string; ln_json : body }.

(** A pointer to a struct: [null] makes it nil. *)
Definition decode_pointer {A} (dec : A → json → A * bool) (zero : A) (cur : option A) (v : json) : option A * bool :=
  match v with
  | JNull => (None, true)
  | _ => let '(a, ok) := dec (default zero cur) v in (Some a, ok)
  end.
(** The [aux] of a build line, and of a pull line, of which the digest is kept. *)
Definition decode_aux {A} (dec : A → json → A * bool) (zero : A) : option A → json → option A * bool :=
  decode_struct (λ kvs a, field (decode_pointer dec zero) "aux" kvs a)
    (λ kvs, field_ok (decode_pointer dec zero) "aux" kvs None).
Definition decode_pull_aux : string → json → string * bool :=
  decode_struct (λ kvs d, field decode_string "Digest" kvs d)
    (λ kvs, field_ok decode_string "Tag" kvs "" && field_ok decode_string "Digest" kvs "" && field_ok decode_int64 "Size" kvs 0%Z).

Definition built : string := "Successfully built ".
Definition build_line (line : StreamLine) : option string :=
  match unmarshal_body (decode_aux (decode_id "ID") "") None (ln_json line) with
  | Some (Some id) => if id ==s "" then None else Some (TrimPrefix id "sha256:")
  | _ => None
  end ∪
  (match unmarshal_body (decode_id "stream") "" (ln_json line) with
   | Some stream => let s := TrimSpace stream in if HasPrefix s built then Some (TrimPrefix s built) else None
   | None => None
   end ∪
   (if HasPrefix (ln_text line) built then Some (TrimPrefix (ln_text line) built) else None)).
Definition pull_line (line : StreamLine) : option string :=
  match unmarshal_body (decode_aux decode_pull_aux "") None (ln_json line) with
  | Some (Some digest) => if digest ==s "" then None else Some digest
  | _ => None
  end ∪
  match unmarshal_body (decode_id "status") "" (ln_json line) with
  | Some status => if HasPrefix status "Digest: " then Some (TrimPrefix status "Digest: ") else None
  | None => None
  end.

(** From the last line to the first. *)
Definition extractImageIDFromStreamLines (lines : list StreamLine) (source : string) : string :=
  default "" (head (omap (λ line,
    (if source ==s "build" then build_line line else None) ∪
    (if source ==s "pull" then pull_line line else None)) (rev lines))).

Definition keepLines : nat := 20.
Definition streamAndCaptureImageID (lines : list StreamLine) (source : string) : string :=
  extractImageIDFromStreamLines (drop (length lines - keepLines) lines) source.

(** A load: the ids it names, and the tags that are handed to the callback. *)
Definition loaded_id (line : StreamLine) : option string :=
  stream ← unmarshal_body (decode_id "stream") "" (ln_json line);
  if HasPrefix stream "Loaded image ID: " then
    let id := TrimSpace (TrimPrefix stream "Loaded image ID: ") in if id ==s "" then None else Some id
  else None.
Definition loaded_tag (line : StreamLine) : option string :=
  stream ← unmarshal_body (decode_id "stream") "" (ln_json line);
  if HasPrefix stream "Loaded image ID: " then None
  else if HasPrefix stream "Loaded image: " then
    let tag := TrimSpace (TrimPrefix stream "Loaded image: ") in if tag ==s "" then None else Some tag
  else None.

(** ** Events *)

Definition decode_actor : string * option (gmap string string) → json → (string * option (gmap string string)) * bool :=
  decode_struct (λ kvs a, (field decode_string "ID" kvs a.1, field decode_string_map "Attributes" kvs a.2))
    (λ kvs, field_ok decode_string "ID" kvs "" && field_ok decode_string_map "Attributes" kvs None).
Record EventLine := mkEventLine { el_Type : string; el_Action : string; el_Actor : string * option (gmap string string) }.
Definition decode_event_line : EventLine → json → EventLine * bool :=
  decode_struct (λ kvs e, mkEventLine (field decode_string "Type" kvs (el_Type e)) (field decode_string "Action" kvs (el_Action e))
                            (field decode_actor "Actor" kvs (el_Actor e)))
    (λ kvs, field_ok decode_string "Type" kvs "" && field_ok decode_string "Action" kvs "" &&
            field_ok decode_actor "Actor" kvs ("", None)).
Definition decode_event (b : body) : option Event :=
  (λ e, mkEvent (el_Type e) (el_Action e) (el_Actor e).1 (default ∅ (el_Actor e).2)) <$>
    unmarshal_body decode_event_line (mkEventLine "" "" ("", None)) b.

(** ** Asking the daemon *)

Section ask.
Context (docker : Docker).

Definition decode_ipam : list string → json → list string * bool :=
  decode_struct (λ kvs l, field (decode_list (decode_id "Subnet") "") "Config" kvs l)
    (λ kvs, field_ok (decode_list (decode_id "Subnet") "") "Config" kvs []).
Definition decode_subnets : list string → json → list string * bool :=
  decode_struct (λ kvs l, field decode_ipam "IPAM" kvs l) (λ kvs, field_ok decode_ipam "IPAM" kvs []).

Definition listUsedSubnets : list string :=
  match docker_get docker "/networks" ≫= unmarshal_as (decode_list decode_subnets []) [] with
  | Some networks => distinct_ids [] (concat networks)
  | None => []
  end.
Definition listNetworkSubnets (networkName : string) : list string :=
  if networkName ==s "" then [] else
  match docker_get docker ("/networks/" +:+ networkName) ≫= unmarshal_as decode_subnets [] with
  | Some subnets => List.filter (λ s, s !=s "") subnets
  | None => []
  end.

Record containerStateCounts := mkCounts { Total : nat; Running : nat; Paused : nat; Stopped : nat }.
Definition decode_state : string * string → json → (string * string) * bool :=
  decode_struct (λ kvs c, (field decode_string "Id" kvs c.1, field decode_string "State" kvs c.2))
    (λ kvs, field_ok decode_string "Id" kvs "" && field_ok decode_string "State" kvs "").
Definition count_state (counts : containerStateCounts) (state : string) : containerStateCounts :=
  let 'mkCounts t r p s := counts in
  if state ==s "running" then mkCounts (S t) (S r) p s
  else if state ==s "paused" then mkCounts (S t) r (S p) s
  else mkCounts (S t) r p (S s).
Definition queryUserContainerStates (containerIDs : list string) : containerStateCounts :=
  match containerIDs with
  | [] => mkCounts 0 0 0 0
  | _ =>
    match docker_get docker "/containers/json?all=1" ≫= unmarshal_as (decode_list decode_state ("", "")) [] with
    | None => mkCounts (length containerIDs) 0 0 0
    | Some containers =>
      foldl count_state (mkCounts 0 0 0 0)
        (List.filter (λ c, elem c.1 containerIDs || elem (str_take 12 c.1) containerIDs) containers).*2
    end
  end.

Definition countUserVisibleImages (d : OwnershipDB) (uid : Z) : nat :=
  match docker_get docker "/images/json" with
  | None => 0
  | Some j => let '(filtered, err) := FilterImageListResponse d (Doc j) uid false in
              if err then 0 else CountJSONArray filtered
  end.

(** ** Internal names in error messages *)

Definition extractNetworkNameFromErrorMsg (msg : string) : string :=
  let marker := "invalid config for network " in
  match Index msg marker with
  | None => ""
  | Some idx =>
    let rest := str_drop (idx + slen marker) msg in
    match Index rest ":" with
    | None => TrimSpace rest
    | Some e => TrimSpace (str_take e rest)
    end
  end.

(** The message shown for a message of the daemon. *)
Definition shown_message (id : CallerIdentity) (origMsg : string) : string :=
  let msg := ReplaceAll (ReplaceAll origMsg (UserResourcePrefix id) "") (UserContainerPrefix (RealUID id)) "" in
  if negb (Contains msg "no configured subnet contains") then msg else
  let prefixedNetName := extractNetworkNameFromErrorMsg origMsg in
  if prefixedNetName ==s "" then msg else
  match listNetworkSubnets prefixedNetName with
  | [] => msg
  | subnets => msg +:+ "。该网络已配置的子网为：" +:+ GoStrings.Join subnets ", " +:+ "，请使用该范围内的 IP 地址"
  end.

Definition stripInternalPrefixFromErrorMessage (b : body) (id : CallerIdentity) : body :=
  match b with
  | Doc j =>
    match unmarshal_map j with
    | Some (Some errResp) =>
      match errResp !! "message" with
      | None => b
      | Some raw =>
        match unmarshal_as decode_string "" raw with
        | None => b
        | Some origMsg => Doc (marshal_map (<["message" := JStr (shown_message id origMsg)]> errResp))
        end
      end
    | _ => b
    end
  | _ => b
  end.
End ask.

(** ** The name of a network in an answer *)

(** The first member of the key and the old value, without or with a space
    between them, gets the new value. *)
Definition replaceJSONFieldValue (text key oldVal newVal : string) : string :=
  let prefix := quoted key +:+ ":" in
  if Contains text (prefix +:+ oldVal) then Replace1 text (prefix +:+ oldVal) (prefix +:+ newVal)
  else if Contains text (prefix +:+ " " +:+ oldVal)
  then Replace1 text (prefix +:+ " " +:+ oldVal) (prefix +:+ " " +:+ newVal)
  else text.

(** The name and the network the configuration is from. *)
Definition decode_network_names : string * string → json → (string * string) * bool :=
  decode_struct (λ kvs n, (field decode_string "Name" kvs n.1, field (decode_id "Network") "ConfigFrom" kvs n.2))
    (λ kvs, field_ok decode_string "Name" kvs "" && field_ok (decode_id "Network") "ConfigFrom" kvs "").

Definition stripNetworkNamePrefix (text : string) (b : body) (prefix : string) : string :=
  if (text ==s "") || (prefix ==s "") then text else
  match unmarshal_body decode_network_names ("", "") b with
  | None => text
  | Some (name, from) =>
    if negb (HasPrefix name prefix) then text else
    let strip key v t := replaceJSONFieldValue t key (quote_string v) (quote_string (TrimPrefix v prefix)) in
    let result := strip "Name" name text in
    if HasPrefix from prefix then strip "Network" from result else result
  end.

(** ** The networks of an inspected container *)

(** The first prefix that a name has is taken from it; whether one was. *)
Definition strip_one (prefixes : list string) (dns : string) : string * bool :=
  match find_first (λ p, (p !=s "") && HasPrefix dns p) prefixes with
  | Some p => (TrimPrefix dns p, true)
  | None => (dns, false)
  end.

Definition stripNetworkEntryDNSPrefix (entry : json) (prefixes : list string) : json * bool :=
  match unmarshal_map entry with
  | Some (Some obj) =>
    match obj !! "DNSNames" with
    | None | Some JNull => (entry, false)
    | Some dnsRaw =>
      match unmarshal_as decode_strings [] dnsRaw with
      | None => (entry, false)
      | Some dnsNames =>
        let stripped := strip_one prefixes <$> dnsNames in
        if existsb snd stripped
        then (marshal_map (<["DNSNames" := JArr (JStr <$> stripped.*1)]> obj), true)
        else (entry, false)
      end
    end
  | _ => (entry, false)
  end.

Section inspect.
(** The order in which a loop goes over a map: some order of its entries. *)
Context (range : gmap string json → list (string * json)).

(** A key is kept that would become empty. *)
Definition strip_key (netPrefix key : string) : string :=
  let newKey := TrimPrefix key netPrefix in if newKey ==s "" then key else newKey.
Definition strip_networks (netPrefix containerPrefix : string) (networks : gmap string json) : gmap string json :=
  foldl (λ m kv, <[strip_key netPrefix kv.1 := (stripNetworkEntryDNSPrefix kv.2 [netPrefix; containerPrefix]).1]> m) ∅ (range networks).
Definition networks_change (netPrefix containerPrefix : string) (networks : gmap string json) : bool :=
  existsb (λ kv, (strip_key netPrefix kv.1 !=s kv.1) || (stripNetworkEntryDNSPrefix kv.2 [netPrefix; containerPrefix]).2)
    (range networks).

(** The document with the names stripped; [None] when it stays as it is. *)
Definition StripContainerInspectNetworkPrefix (b : body) (netPrefix containerPrefix : string) : option json :=
  if (netPrefix ==s "") && (containerPrefix ==s "") then None else
  match b with
  | Doc j =>
    resp ← unmarshal_map j;
    resp ← resp;
    nsRaw ← resp !! "NetworkSettings";
    ns ← unmarshal_map nsRaw;
    ns ← ns;
    networksRaw ← ns !! "Networks";
    networks ← unmarshal_map networksRaw;
    let networks := default ∅ networks in
    if networks_change netPrefix containerPrefix networks
    then Some (marshal_map (<["NetworkSettings" := marshal_map (<["Networks" :=
           marshal_map (strip_networks netPrefix containerPrefix networks)]> ns)]> resp))
    else None
  | _ => None
  end.
End inspect.

(** ** Lemmas *)

(** The fuel of [ReplaceAll] is enough: it goes on after each occurrence, to the
    last one. *)
Lemma Index_rest s old i : old ≠ "" → Index s old = Some i → slen (str_drop (i + slen old) s) < slen s.
Proof.
  intros Hold (r & E & _)%Index_Some. assert (0 < slen old) by (destruct old; [done|simpl; lia]).
  apply (f_equal slen) in E. rewrite !slen_app in E. rewrite slen_drop. lia.
Qed.

Lemma replace_all_fuel fuel1 fuel2 s old new :
  old ≠ "" → slen s <= fuel1 → slen s <= fuel2 → replace_all fuel1 s old new = replace_all fuel2 s old new.
Proof.
  intros Hold. assert (Index "" old = None) as H0 by (by destruct old).
  assert (∀ f, replace_all f "" old new = "") as He by (intros []; cbn [replace_all]; [done|by rewrite H0]).
  revert fuel2 s. induction fuel1 as [|fuel1 IH]; intros fuel2 s H1 H2; [destruct s; [by rewrite !He|simpl in H1; lia]|].
  destruct fuel2 as [|fuel2]; [destruct s; [by rewrite !He|simpl in H2; lia]|].
  cbn [replace_all]. destruct (Index s old) as [i|] eqn:E; [|done]. do 2 f_equal. apply Index_rest in E; [|done]. apply IH; lia.
Qed.

Lemma ReplaceAll_eq s old new :
  old ≠ "" →
  ReplaceAll s old new =
  match Index s old with
  | Some i => str_take i s +:+ new +:+ ReplaceAll (str_drop (i + slen old) s) old new
  | None => s
  end.
Proof.
  intros Hold. unfold ReplaceAll at 1. rewrite (replace_all_fuel (slen s) (S (slen s))) by (done || lia). cbn [replace_all].
  destruct (Index s old) as [i|] eqn:E; [|done]. do 2 f_equal. apply Index_rest in E; [|done]. apply replace_all_fuel; [done|lia..].
Qed.

Section shown_networks.
Context (range : gmap string json → list (string * json)).
Hypothesis range_entries : ∀ m, Permutation (range m) (map_to_list m).

Lemma elem_of_range m k v : (k, v) ∈ range m ↔ m !! k = Some v.
Proof. rewrite (range_entries m). apply elem_of_map_to_list. Qed.

(** What a loop that fills a map with renamed entries leaves. *)
Lemma renamed_entries (f : string → string) (g : json → json) l (m0 : gmap string json) k' :
  let m := foldl (λ m kv, <[f kv.1 := g kv.2]> m) m0 l in
  (∀ v', m !! k' = Some v' → m0 !! k' = Some v' ∨ ∃ kv, kv ∈ l ∧ f kv.1 = k' ∧ g kv.2 = v') ∧
  (∀ kv, kv ∈ l → f kv.1 = k' → is_Some (m !! k')) ∧ (is_Some (m0 !! k') → is_Some (m !! k')).
Proof.
  revert m0. induction l as [|[k v] l IH]; intros m0; [split_and!; [by left|by intros kv Hin%elem_of_nil|done]|].
  cbn [foldl fst snd]. destruct (IH (<[f k := g v]> m0)) as (H1 & H2 & H3). split_and!.
  - intros v' [Hv|(kv & Hin & ?)]%H1; [|right; exists kv; split; [by right|done]].
    destruct (decide (f k = k')) as [<-|Hne]; [|left; by rewrite lookup_insert_ne in Hv].
    rewrite lookup_insert_eq in Hv. injection Hv as <-. right. exists (k, v). split; [left|done].
  - intros kv [->|Hin]%elem_of_cons Hk; [|by apply (H2 kv)]. apply H3. simpl in Hk. rewrite Hk, lookup_insert_eq. by eexists.
  - intros [x Hx]. apply H3. destruct (decide (f k = k')) as [<-|Hne]; [rewrite lookup_insert_eq; by eexists|].
    rewrite lookup_insert_ne by done. by eexists.
Qed.

(** The networks an inspection shows.  Exactly the networks of the container are
    shown, under their names without the user's prefix; one whose stripped name no
    other network has is shown with its own entry; of two networks whose names meet
    (one of the user, one that bears the name without the prefix) only one is. *)
Theorem inspection_shows_networks netPrefix containerPrefix networks :
  let shown := strip_networks range netPrefix containerPrefix networks in
  (∀ k', is_Some (shown !! k') ↔ ∃ k, is_Some (networks !! k) ∧ strip_key netPrefix k = k') ∧
  (∀ k v, networks !! k = Some v →
     (∀ j, is_Some (networks !! j) → strip_key netPrefix j = strip_key netPrefix k → j = k) →
     shown !! strip_key netPrefix k = Some (stripNetworkEntryDNSPrefix v [netPrefix; containerPrefix]).1) ∧
  (∀ name v w, name ≠ "" → netPrefix ≠ "" → HasPrefix name netPrefix = false → networks = {[netPrefix +:+ name := v; name := w]} →
     size networks = 2 ∧ size shown = 1).
Proof.
  intros shown.
  pose proof (λ k', renamed_entries (strip_key netPrefix) (λ e, (stripNetworkEntryDNSPrefix e [netPrefix; containerPrefix]).1)
    (range networks) ∅ k') as Hm. cbv zeta in Hm.
  change (foldl _ ∅ (range networks)) with shown in Hm.
  assert (∀ k', is_Some (shown !! k') ↔ ∃ k, is_Some (networks !! k) ∧ strip_key netPrefix k = k') as Hkeys.
  { intros k'. destruct (Hm k') as (H1 & H2 & _). split.
    - intros [v' [Hv|([k v] & Hin & Hk & _)]%H1]; [by rewrite lookup_empty in Hv|].
      exists k. apply elem_of_range in Hin. by eauto.
    - intros (k & [v Hv] & Hk). apply (H2 (k, v)); [by apply elem_of_range|done]. }
  split_and!; [exact Hkeys| |].
  - intros k v Hk Huniq. destruct (proj2 (Hkeys (strip_key netPrefix k))) as [v' Hv']; [by eauto|]. rewrite Hv'. f_equal.
    destruct (Hm (strip_key netPrefix k)) as (H1 & _ & _). apply H1 in Hv' as [Hv|([j w] & Hin & Hj & <-)]; [by rewrite lookup_empty in Hv|].
    apply elem_of_range in Hin. simpl in Hj. assert (j = k) as -> by (apply Huniq; eauto). simpl. congruence.
  - intros name v w Hn Hp Hpre ->. assert (netPrefix +:+ name ≠ name) as Hne.
    { intros E. apply (f_equal slen) in E. rewrite slen_app in E. destruct netPrefix; [done|simpl in E; lia]. }
    assert (strip_key netPrefix (netPrefix +:+ name) = name ∧ strip_key netPrefix name = name) as [E1 E2].
    { unfold strip_key. rewrite TrimPrefix_app, (proj2 (String.eqb_neq _ _) Hn). split; [done|]. unfold TrimPrefix. rewrite Hpre.
      by rewrite (proj2 (String.eqb_neq _ _) Hn). }
    split; [rewrite map_size_insert_None; [by rewrite map_size_singleton|by rewrite lookup_singleton_ne]|].
    assert (∀ k', is_Some (shown !! k') ↔ k' = name) as Honly.
    { intros k'. rewrite Hkeys. split.
      - intros (k & Hk & <-). rewrite lookup_insert_is_Some, lookup_singleton_is_Some in Hk.
        by destruct Hk as [<-|[_ <-]].
      - intros ->. exists name. split; [|done]. rewrite lookup_insert_ne, lookup_singleton_eq by done. by eexists. }
    destruct (proj2 (Honly name) eq_refl) as [x Hx]. assert (shown = {[name := x]}) as ->; [|apply map_size_singleton].
    apply map_eq. intros k'. destruct (decide (k' = name)) as [->|Hk]; [by rewrite Hx, lookup_singleton_eq|].
    rewrite lookup_singleton_ne by done. destruct (shown !! k') eqn:E; [|done]. destruct Hk. apply Honly. by eexists.
Qed.
End shown_networks.

(** ** Witnesses *)

Lemma inspection_shows_networks_witness :
  let networks := {["alice_u1001_web" := JObj []; "web" := JNull]} : gmap string json in
  size networks = 2 ∧ size (strip_networks map_to_list "alice_u1001_" "user-1001-" networks) = 1.
Proof.
  apply (inspection_shows_networks map_to_list (λ m, Permutation_refl _) "alice_u1001_" "user-1001-"
    {["alice_u1001_web" := JObj []; "web" := JNull]}) with "web" (JObj []) JNull; first [reflexivity|done].
Defined.

Example stream_demo :
  let line t j := mkStreamLine t (Doc j) in
  streamAndCaptureImageID [line "" (JObj [("status", JStr "Digest: sha256:abc")]); line "" (JObj [("status", JStr "done")])] "pull" = "sha256:abc" ∧
  streamAndCaptureImageID [line "" (JObj [("aux", JObj [("ID", JStr "sha256:def")])])] "build" = "def".
Proof. split; vm_compute; reflexivity. Qed.
