(* ===== verification/Response.v ===== *)
(** * Response: what becomes of the daemon's answer

    [postprocessResponse] of [internal/forward/proxy.go] (lines 2568-3864): for each
    action, what is recorded when the daemon has done it, the entries left in the
    event maps, and the answer the client is given.  The request is the one
    [forward] was given and has read to its end: nothing puts its body back.  The
    entries of the event maps are removed some time later by timers, for which see
    Live; the headers are in Headers, the audit trail is in Trail; the log is not modelled. *)

From S2P Require Import Prelude GoStrings GoJson Docker GoUrl OsLookup Identity Routes Policy Tables Database ImageDB.
From S2P Require Import ResourceDB Names Events ImagePerm Quota GoPath Storage Bodies Filter PreRequest Pipeline Prune Streams.

(** The records and the event maps; the maps' own database field is not used. *)
Record Server := mkServer { sv_db : OwnershipDB; sv_maps : EventState }.
Definition event_state (sv : Server) : EventState :=
  let m := sv_maps sv in
  mkEventState (pendingBuildTags m) (completedBuildOwner m) (pendingPullRefs m) (completedPullOwner m)
    (completedPruneOwner m) (Some (sv_db sv)).
Definition note (f : EventState → EventState) (sv : Server) : Server := mkServer (sv_db sv) (f (sv_maps sv)).
(** A statement whose error is ignored, or tells [ok] from [failed]. *)
Definition exec (f : OwnershipDB → error * OwnershipDB) (sv : Server) : Server := mkServer (f (sv_db sv)).2 (sv_maps sv).
Definition exec_if (f : OwnershipDB → error * OwnershipDB) (ok failed : Server → Server) (sv : Server) : Server :=
  let '(err, d) := f (sv_db sv) in
  let sv := mkServer d (sv_maps sv) in
  match err with None => ok sv | Some _ => failed sv end.

Definition with_completed_pull (k : string) (o : pruneOwnerInfo) (st : EventState) : EventState :=
  mkEventState (pendingBuildTags st) (completedBuildOwner st) (pendingPullRefs st)
    (<[k := o]> (completedPullOwner st)) (completedPruneOwner st) (es_db st).
(** An answer of the daemon: its body as text and as JSON, and line by line. *)
Record Reply := mkReply {
  rp_code : Z;
  rp_header : list (string * string);
  rp_text : string;
  rp_body : body;
  rp_lines : list StreamLine;
  (** the body could be read to its end *)
  rp_complete : bool;
}.

Inductive Written :=
  (** the daemon's body as it came *)
  | Copied (code : Z)
  (** another document *)
  | Shown (code : Z) (b : body)
  (** another text *)
  | Edited (code : Z) (text : string)
  (** these lines *)
  | Streamed (code : Z) (lines : list string)
  (** a message of the proxy *)
  | Message (code : Z) (msg : string)
  (** the handler crashes *)
  | Broken.

Definition read_failed : Written := Message 502 "read upstream response failed".
Definition shown_run (code : Z) (x : run body) : Written :=
  match x with Returns b => Shown code b | Panics => Broken end.

Section postprocess.
Context (docker : Docker) (os : OsFiles) (now : Z).
(** How a text reads as JSON, and the order of a loop over a map. *)
Context (parse_json : string → body) (range : gmap string json → list (string * json)).
Implicit Types (id : CallerIdentity) (r : Request) (uri : string) (reply : Reply) (sv : Server).

Definition created (code : Z) : bool := (code =? 201)%Z.
Definition ok_code (code : Z) : bool := (code =? 200)%Z.
Definition gone (code : Z) : bool := (code =? 204)%Z || (code =? 200)%Z.
(** The error an unprivileged user is shown. *)
Definition error_answer id reply : Written :=
  if (400 <=? rp_code reply)%Z && negb (IsPrivileged id)
  then Shown (rp_code reply) (stripInternalPrefixFromErrorMessage docker (rp_body reply) id)
  else Copied (rp_code reply).

(** ** Containers *)

Definition created_ports id (containerID : string) (ports : list PortMapping) : list PortMappingInfo :=
  (λ m, mkPortMappingInfo (HostPort m) (Protocol m) (ContainerPort m) containerID (RealUID id) (RealUsername id))
    <$> ports.

(** The image a creation is recorded with, of what is left of its request. *)
Definition created_image r : string :=
  let imageRef := extractImageRefFromBody (rq_Body r) in
  if imageRef ==s "" then "" else
  let resolved := resolveImageIDByRef docker imageRef in
  if resolved ==s "" then imageRef else resolved.

Definition record_container id r (containerID : string) (sv : Server) : Server :=
  let sv := exec (SetContainerOwner now containerID id (created_image r)) sv in
  if IsPrivileged id then sv else
  match rq_portMappings r with
  | [] => sv
  | ports => exec (AddPortMappings now (created_ports id containerID ports)) sv
  end.

Definition after_create id r reply sv : Written * Server :=
  if negb (rp_complete reply) then (read_failed, sv) else
  let containerID := default "" (unmarshal_body (decode_id "Id") "" (rp_body reply)) in
  (error_answer id reply,
   if created (rp_code reply) && (containerID !=s "") then record_container id r containerID sv else sv).

Definition forget_one (containerID : string) (sv : Server) : Server :=
  exec (ReleasePortMappings containerID) (exec (DeleteContainer containerID) sv).

Definition after_remove_container id uri reply sv : Written * Server :=
  let containerID := ExtractContainerID uri in
  (error_answer id reply, if gone (rp_code reply) && (containerID !=s "") then forget_one containerID sv else sv).

Definition after_inspect id reply sv : Written * Server :=
  if negb (rp_complete reply) then (read_failed, sv) else
  (if ok_code (rp_code reply) && negb (IsPrivileged id) then
     let prefix := UserContainerPrefix (RealUID id) in
     let old := quoted "Name" +:+ ":" +:+ String DQ ("/" +:+ prefix) in
     let text := Replace1 (rp_text reply) old (quoted "Name" +:+ ":" +:+ String DQ "/") in
     match StripContainerInspectNetworkPrefix range (parse_json text) (UserResourcePrefix id) prefix with
     | Some j => Shown (rp_code reply) (Doc j)
     | None => Edited (rp_code reply) text
     end
   else Copied (rp_code reply), sv).

(** ** Images *)

(** The image goes to the user; the reference is recorded even when the owner
    could not be, or only when it could. *)
Definition take_image id (source imageID : string) (sv : Server) : Server :=
  exec (EnsureImageAccess imageID (RealUID id)) (exec (SetImageOwner now imageID id false source) sv).
Definition take_image_then id (source imageID : string) (f : EventState → EventState) (sv : Server) : Server :=
  exec_if (SetImageOwner now imageID id false source)
    (λ sv, note f (exec (EnsureImageAccess imageID (RealUID id)) sv)) (λ sv, sv) sv.

Definition after_load id reply sv : Written * Server :=
  if negb (ok_code (rp_code reply)) then (Copied (rp_code reply), sv) else
  let o := owner_info id in
  let tagged line sv :=
    match loaded_tag line with
    | Some tag => let tag := normalizeImageRef tag in
                  if tag ==s "" then sv else note (with_completed_build tag o) sv
    | None => sv
    end in
  let sv := foldl (λ sv line, tagged line sv) sv (rp_lines reply) in
  (Streamed (rp_code reply) (ln_text <$> rp_lines reply),
   foldl (λ sv imageID, take_image_then id "load" imageID (with_completed_build imageID o) sv) sv
     (omap loaded_id (rp_lines reply))).

Definition after_commit id reply sv : Written * Server :=
  if negb (rp_complete reply) then (read_failed, sv) else
  let commitID := default "" (unmarshal_body (decode_id "Id") "" (rp_body reply)) in
  let imageID := TrimPrefix commitID "sha256:" in
  (Copied (rp_code reply),
   if created (rp_code reply) && (commitID !=s "")
   then take_image_then id "commit" imageID (with_completed_build ("sha256:" +:+ imageID) (owner_info id)) sv else sv).

Definition imported_id reply : string :=
  let plain := TrimRightFunc (λ c, Ascii.eqb c "013" || Ascii.eqb c "010")
                 (TrimPrefix (TrimSpace (rp_text reply)) "sha256:") in
  match unmarshal_body (decode_id "status") "" (rp_body reply) with
  | Some status =>
    if status ==s "" then plain
    else TrimPrefix (TrimSpace status) "sha256:"
  | None => plain
  end.
Definition after_import id reply sv : Written * Server :=
  (Copied (rp_code reply),
   if ok_code (rp_code reply) && (imported_id reply !=s "") then take_image id "import" (imported_id reply) sv else sv).

Definition pulled_id uri reply : string :=
  let imageID := resolveImageIDByRef docker (parseImageRefFromURI uri) in
  if imageID ==s "" then streamAndCaptureImageID (rp_lines reply) "pull" else imageID.
Definition after_pull id uri reply sv : Written * Server :=
  let imageRef := parseImageRefFromURI uri in
  if negb (ok_code (rp_code reply)) then (Copied (rp_code reply), sv) else
  (Streamed (rp_code reply) (ln_text <$> rp_lines reply),
   if imageRef ==s "" then sv else
   let imageID := pulled_id uri reply in
   if imageID ==s "" then sv else
   let sv := take_image id "pull" imageID sv in
   let sv := if IsPrivileged id && Contains uri "authz.public=true" then exec (SetImagePublic imageID true) sv else sv in
   note (with_completed_pull imageRef (owner_info id)) sv).

(** The query of the URI, as [url.ParseRequestURI] gives it. *)
Definition uri_query uri : list (string * string) :=
  match parse_target uri with Some u => url_Query u | None => [] end.
Definition build_tags uri : list string :=
  (List.filter (λ kv, kv.1 ==s "t") (uri_query uri)).*2.
(** The entries while the stream is read, and when it ends (last tag first). *)
Definition open_build (o : pruneOwnerInfo) (tags : list string) (st : EventState) : EventState :=
  foldl (λ st tag, with_tag tag o st) st tags.
Definition close_build (o : pruneOwnerInfo) (tags : list string) (st : EventState) : EventState :=
  foldr (λ tag st, forget_tag tag o (with_completed_build tag o st)) st tags.
Definition built_id uri (captured : string) : string :=
  let tag := values_get (uri_query uri) "t" in
  let by_tag := if tag ==s "" then "" else resolveImageIDByRef docker tag in
  if by_tag !=s "" then by_tag else
  let by_id := resolveImageIDByRef docker captured in
  if by_id ==s "" then captured else by_id.
Definition after_build id uri reply sv : Written * Server :=
  let o := owner_info id in
  let sv := note (open_build o (build_tags uri)) sv in
  let captured := streamAndCaptureImageID (rp_lines reply) "build" in
  let sv := if (captured !=s "") && ok_code (rp_code reply) then take_image id "build" (built_id uri captured) sv else sv in
  (Streamed (rp_code reply) (ln_text <$> rp_lines reply), note (close_build o (build_tags uri)) sv).

Definition tagged_id uri : string :=
  let repo := values_get (uri_query uri) "repo" in
  let tag := values_get (uri_query uri) "tag" in
  let newRef := if repo ==s "" then "" else if tag ==s "" then repo +:+ ":latest" else repo +:+ ":" +:+ tag in
  if newRef ==s "" then "" else
  let contentID := resolveImageIDByRef docker newRef in
  if contentID ==s "" then resolveImageIDByRef docker (ExtractImageID uri) else contentID.
Definition after_tag id uri reply sv : Written * Server :=
  (Copied (rp_code reply),
   if created (rp_code reply) && negb (IsPrivileged id) && (tagged_id uri !=s "")
   then exec (EnsureImageAccess (tagged_id uri) (RealUID id)) sv else sv).

(** The deletions of an answer with what was untagged beside each: what comes
    before the first deletion is the first's, what comes after one is that one's. *)
Record rmiGroup := mkGroup { deletedID : string; untagged : list string }.
Definition untag (tag : string) (g : rmiGroup) : rmiGroup := mkGroup (deletedID g) (untagged g ++ [tag]).
Definition group_item (st : list rmiGroup * option nat) (item : pruneDeleted) : list rmiGroup * option nat :=
  let '(groups, curGroup) := st in
  if pd_Deleted item !=s "" then (groups ++ [mkGroup (pd_Deleted item) []], Some (length groups))
  else if pd_Untagged item !=s "" then
    match curGroup with
    | Some i => (alter (untag (pd_Untagged item)) i groups, curGroup)
    | None => (groups ++ [mkGroup "" [pd_Untagged item]], curGroup)
    end
  else st.
Definition merge_group (st : list rmiGroup * list string) (g : rmiGroup) : list rmiGroup * list string :=
  let '(merged, orphans) := st in
  if deletedID g ==s "" then (merged, orphans ++ untagged g)
  else (merged ++ [mkGroup (deletedID g) (orphans ++ untagged g)], []).
Definition rmi_groups (items : list pruneDeleted) : list rmiGroup :=
  (foldl merge_group ([], []) (foldl group_item ([], None) items).1).1.

(** Who the events of a deleted image are for. *)
Definition rmi_entry id (deletedID : string) (d : OwnershipDB) : option pruneOwnerInfo :=
  match GetImageOwner deletedID d with
  | Some (owner, isPublic, privCtx) => if isPublic then None else Some (mkPruneOwnerInfo (oi_UID owner) privCtx)
  | None => if IsPrivileged id then Some (owner_info id) else None
  end.
Definition forget_group id (sv : Server) (g : rmiGroup) : Server :=
  let sv :=
    match rmi_entry id (deletedID g) (sv_db sv) with
    | None => sv
    | Some entry =>
      note (λ st, foldl (λ st tag, if tag ==s "" then st else with_prune ("image:" +:+ tag) entry st)
                    (with_prune ("image:" +:+ deletedID g) entry st) (untagged g)) sv
    end in
  exec (DeleteImage (deletedID g)) sv.
Definition after_rmi id reply sv : Written * Server :=
  if negb (rp_complete reply) then (read_failed, sv) else
  (Copied (rp_code reply),
   if ok_code (rp_code reply) then
     match unmarshal_body (decode_list decode_pruneDeleted (mkPruneDeleted "" "")) [] (rp_body reply) with
     | Some items => foldl (forget_group id) sv (rmi_groups items)
     | None => sv
     end
   else sv).

(** ** Networks *)

Definition network_error id r reply : option Written :=
  message ← unmarshal_body (decode_id "message") "" (rp_body reply);
  if Contains message "Pool overlaps" then
    Some (Message (rp_code reply) (message +:+ "。请更换 IP 段，这是系统限制" +:+
      match listUsedSubnets docker with [] => "" | subnets => "。已使用的子网：" +:+ GoStrings.Join subnets ", " end))
  else if Contains message "already exists" then
    let prefixedName := default "" (rq_rewrittenName r) in
    let userVisibleName := if negb (IsPrivileged id) && (prefixedName !=s "")
                           then TrimPrefix prefixedName (UserResourcePrefix id) else prefixedName in
    Some (Message (rp_code reply) (message +:+
      match listNetworkSubnets docker prefixedName with
      | [] => "。该网络已存在"
      | subnets => "。该网络已存在，当前子网：" +:+ GoStrings.Join subnets ", "
      end +:+
      (if userVisibleName ==s "" then "" else "。如需更改子网，请先执行 docker network rm " +:+ userVisibleName)))
  else None.

Definition after_network_create id r reply sv : Written * Server :=
  if negb (rp_complete reply) then (read_failed, sv) else
  let code := rp_code reply in
  let netID := default "" (unmarshal_body (decode_id "Id") "" (rp_body reply)) in
  let name := let n := default "" (rq_rewrittenName r) in if n ==s "" then netID else n in
  (if created code then
     if IsPrivileged id then Copied code
     else Edited code (stripNetworkNamePrefix (rp_text reply) (rp_body reply) (UserResourcePrefix id))
   else if (400 <=? code)%Z then default (Copied code) (network_error id r reply) else Copied code,
   if created code && (netID !=s "") then exec (SetNetworkOwner now netID name id) sv else sv).

Definition after_network_inspect id reply sv : Written * Server :=
  if negb (rp_complete reply) then (read_failed, sv) else
  (if ok_code (rp_code reply) && negb (IsPrivileged id)
   then Edited (rp_code reply) (stripNetworkNamePrefix (rp_text reply) (rp_body reply) (UserResourcePrefix id))
   else Copied (rp_code reply), sv).

Definition forget_network id (networkID : string) (sv : Server) : Server :=
  let sv := match GetNetworkPrivCtxByName networkID (sv_db sv) with
            | Some priv => if (priv ==z 1) then note (with_prune ("network:" +:+ networkID) (mkPruneOwnerInfo (RealUID id) 1)) sv else sv
            | None => sv
            end in
  exec (DeleteNetwork (default networkID (GetNetworkIDByName networkID (sv_db sv)))) sv.
Definition after_network_remove id uri reply sv : Written * Server :=
  let networkID := ExtractNetworkID uri in
  (error_answer id reply, if gone (rp_code reply) && (networkID !=s "") then forget_network id networkID sv else sv).

(** ** Volumes *)

Definition after_volume_create id reply sv : Written * Server :=
  if negb (rp_complete reply) then (read_failed, sv) else
  let code := rp_code reply in
  let name := default "" (unmarshal_body (decode_id "Name") "" (rp_body reply)) in
  (if created code && negb (IsPrivileged id) then shown_run code (StripVolumeNamePrefix (rp_body reply) (RealUID id)) else Copied code,
   if created code && (name !=s "") then exec (SetVolumeOwner now name id) sv else sv).

Definition without_volume_prefix id (text : string) : string := ReplaceAll text (UserVolumePrefix (RealUID id)) "".

Definition after_volume_inspect id reply sv : Written * Server :=
  if negb (rp_complete reply) then (read_failed, sv) else
  let code := rp_code reply in
  (if IsPrivileged id then Copied code
   else if ok_code code then shown_run code (StripVolumeInspectPrefix (rp_body reply) (RealUID id))
   else Edited code (without_volume_prefix id (rp_text reply)), sv).

Definition forget_volume (volName : string) (sv : Server) : Server :=
  let sv := match GetVolumeOwner volName (sv_db sv) with
            | Some owner =>
              let priv := default 0%Z (GetVolumePrivCtx volName (sv_db sv)) in
              note (with_prune ("volume:" +:+ volName) (mkPruneOwnerInfo (oi_UID owner) priv)) sv
            | None => sv
            end in
  exec (DeleteVolume volName) sv.
Definition after_volume_remove id uri reply sv : Written * Server :=
  let code := rp_code reply in
  let volName := ExtractVolumeName uri in
  (if (400 <=? code)%Z && negb (IsPrivileged id) then Edited code (without_volume_prefix id (rp_text reply)) else Copied code,
   if gone code && (volName !=s "") then forget_volume volName sv else sv).

(** ** Swarm objects *)

Definition after_swarm_create (record : string → OwnershipDB → error * OwnershipDB) reply sv : Written * Server :=
  if negb (rp_complete reply) then (read_failed, sv) else
  let createdID := default "" (unmarshal_body (decode_id "ID") "" (rp_body reply)) in
  (Copied (rp_code reply),
   if (created (rp_code reply) || ok_code (rp_code reply)) && (createdID !=s "") then exec (record createdID) sv else sv).
Definition after_swarm_remove (extract : string → string) (forget : string → OwnershipDB → error * OwnershipDB) uri reply sv
    : Written * Server :=
  (Copied (rp_code reply),
   if gone (rp_code reply) && (extract uri !=s "") then exec (forget (extract uri)) sv else sv).

(** ** Lists and reports *)

Definition after_list {E} (filter : body → body * E) (failed : E → bool) reply sv : Written * Server :=
  if negb (rp_complete reply) then (read_failed, sv) else
  let '(b, err) := filter (rp_body reply) in
  (Shown (rp_code reply) (if failed err then emptyJSONArray else b), sv).
Definition is_error (e : error) : bool := match e with Some _ => true | None => false end.

Definition after_volume_list id reply sv : Written * Server :=
  if negb (rp_complete reply) then (read_failed, sv) else
  (Shown (rp_code reply) (FilterVolumeListResponse (sv_db sv) (rp_body reply) (RealUID id) (IsPrivileged id)), sv).

Definition after_df id reply sv : Written * Server :=
  if negb (rp_complete reply) then (read_failed, sv) else
  (if ok_code (rp_code reply) then
     let '(b, err) := FilterSystemDFResponse (sv_db sv) (rp_body reply) (RealUID id) (IsPrivileged id) in
     Shown (rp_code reply) (if is_error err then EmptySystemDFBody else b)
   else Copied (rp_code reply), sv).

Definition after_swarm_inspect id reply sv : Written * Server :=
  if negb (rp_complete reply) then (read_failed, sv) else
  (if ok_code (rp_code reply) then shown_run (rp_code reply) (FilterSwarmInspectResponse (rp_body reply) (IsPrivileged id))
   else Copied (rp_code reply), sv).

Definition system_info id (d : OwnershipDB) (info : gmap string json) : gmap string json :=
  let ids := match GetContainerIDsByOwner (RealUID id) d with inr ids => ids | inl _ => [] end in
  let states := queryUserContainerStates docker ids in
  let number n := JInt (Z.of_nat n) in
  <["Images" := number (countUserVisibleImages docker d (RealUID id))]>
    (<["ContainersStopped" := number (Stopped states)]> (<["ContainersPaused" := number (Paused states)]>
      (<["ContainersRunning" := number (Running states)]> (<["Containers" := number (Total states)]> info)))).
Definition after_info id reply sv : Written * Server :=
  if negb (rp_complete reply) then (read_failed, sv) else
  let code := rp_code reply in
  (if IsPrivileged id || negb (ok_code code) then Copied code else
   match rp_body reply with
   | Doc j =>
     match unmarshal_map j with
     | Some (Some info) => Shown code (Doc (marshal_map (system_info id (sv_db sv) info)))
     | Some None => Broken
     | None => Copied code
     end
   | _ => Copied code
   end, sv).

(** The lists of the actions, and what becomes of the objects of a swarm. *)
Definition after_ps id reply sv : Written * Server :=
  after_list (λ b, FilterContainerListResponse (sv_db sv) b (RealUID id) (RealUsername id) (IsPrivileged id)) is_error reply sv.
Definition after_images id reply sv : Written * Server :=
  after_list (λ b, FilterImageListResponse (sv_db sv) b (RealUID id) (IsPrivileged id)) (λ e, e) reply sv.
Definition after_network_list id reply sv : Written * Server :=
  after_list (λ b, FilterNetworkListResponse (sv_db sv) os b (RealUID id) (IsPrivileged id)) (λ e, e) reply sv.
Definition after_service_create id := after_swarm_create (λ i, SetServiceOwner now i i id).
Definition after_service_list id reply sv : Written * Server :=
  after_list (λ b, FilterServiceListResponse (sv_db sv) b (RealUID id) (IsPrivileged id)) (λ e, e) reply sv.
Definition after_service_remove := after_swarm_remove ExtractServiceID DeleteService.
Definition after_secret_create id := after_swarm_create (λ i, SetSecretOwner now i i id).
Definition after_secret_list id reply sv : Written * Server :=
  after_list (λ b, FilterSecretListResponse (sv_db sv) b (RealUID id) (IsPrivileged id)) (λ e, e) reply sv.
Definition after_secret_remove := after_swarm_remove ExtractSecretID DeleteSecret.
Definition after_config_create id := after_swarm_create (λ i, SetConfigOwner now i i id).
Definition after_config_list id reply sv : Written * Server :=
  after_list (λ b, FilterConfigListResponse (sv_db sv) b (RealUID id) (IsPrivileged id)) (λ e, e) reply sv.
Definition after_config_remove := after_swarm_remove ExtractConfigID DeleteConfig.

(** ** Prunes that went to the daemon *)

Record prunedItems := mkPruned { pr_Containers : list string; pr_Images : list pruneDeleted; pr_Volumes : list string; pr_Networks : list string }.
Definition decode_deleted : list pruneDeleted → json → list pruneDeleted * bool := decode_list decode_pruneDeleted (mkPruneDeleted "" "").
Definition pruned_of (name : string) : list string → json → list string * bool :=
  decode_struct (λ kvs l, field decode_strings name kvs l) (λ kvs, field_ok decode_strings name kvs []).
Definition pruned_images : list pruneDeleted → json → list pruneDeleted * bool :=
  decode_struct (λ kvs l, field decode_deleted "ImagesDeleted" kvs l) (λ kvs, field_ok decode_deleted "ImagesDeleted" kvs []).
Definition decode_pruned : prunedItems → json → prunedItems * bool :=
  decode_struct (λ kvs p, mkPruned (field decode_strings "ContainersDeleted" kvs (pr_Containers p))
      (field decode_deleted "ImagesDeleted" kvs (pr_Images p)) (field decode_strings "VolumesDeleted" kvs (pr_Volumes p))
      (field decode_strings "NetworksDeleted" kvs (pr_Networks p)))
    (λ kvs, field_ok decode_strings "ContainersDeleted" kvs [] && field_ok decode_deleted "ImagesDeleted" kvs [] &&
            field_ok decode_strings "VolumesDeleted" kvs [] && field_ok decode_strings "NetworksDeleted" kvs []).

Definition forget_images (items : list pruneDeleted) (sv : Server) : Server :=
  foldl (λ sv i, if pd_Deleted i ==s "" then sv else exec (DeleteImage (pd_Deleted i)) sv) sv items.
Definition forget_volumes (vs : list string) (sv : Server) : Server := foldl (λ sv v, exec (DeleteVolume v) sv) sv vs.
Definition forget_containers (cs : list string) (sv : Server) : Server := foldl (λ sv c, forget_one c sv) sv cs.
Definition forget_networks (ns : list string) (sv : Server) : Server :=
  foldl (λ sv n, match GetNetworkIDByName n (sv_db sv) with Some i => exec (DeleteNetwork i) sv | None => sv end) sv ns.

Definition forget_pruned uri (b : body) (sv : Server) : Server :=
  if HasPrefix uri "/containers" || Contains uri "/containers/" then
    forget_containers (default [] (unmarshal_body (pruned_of "ContainersDeleted") [] b)) sv
  else if HasPrefix uri "/images" || Contains uri "/images/" || HasPrefix uri "/build" then
    forget_images (default [] (unmarshal_body pruned_images [] b)) sv
  else if HasPrefix uri "/volumes" then forget_volumes (default [] (unmarshal_body (pruned_of "VolumesDeleted") [] b)) sv
  else if HasPrefix uri "/system" then
    match unmarshal_body decode_pruned (mkPruned [] [] [] []) b with
    | Some p => forget_networks (pr_Networks p) (forget_volumes (pr_Volumes p)
                  (forget_images (pr_Images p) (forget_containers (pr_Containers p) sv)))
    | None => sv
    end
  else sv.
Definition after_prune uri reply sv : Written * Server :=
  if negb (rp_complete reply) then (read_failed, sv) else
  (Copied (rp_code reply), if ok_code (rp_code reply) then forget_pruned uri (rp_body reply) sv else sv).

(** ** Everything else *)

Definition is_streaming r reply : bool :=
  (header_get (rp_header reply) "Content-Length" ==s "") &&
  (Contains (header_get (rp_header reply) "Transfer-Encoding") "chunked" ||
   Contains (url_Path (rq_URL r)) "/events" || Contains (url_Path (rq_URL r)) "/stats").

(** The line as it is shown when the event maps and the records are [st]. *)
Definition stream_line id r (st : EventState) (line : StreamLine) : option string :=
  if ln_text line ==s "" then None
  else if Contains (url_Path (rq_URL r)) "/events" && negb (IsPrivileged id) &&
          negb (eventBelongsToUser st (decode_event (ln_json line)) (RealUID id) (IsSudoCommand id)) then None
  else if negb (IsPrivileged id) && HasSuffix (url_Path (rq_URL r)) "/stats" then
    Some (Replace1 (ln_text line) (quoted "name" +:+ ":" +:+ String DQ ("/" +:+ UserContainerPrefix (RealUID id)))
            (quoted "name" +:+ ":" +:+ String DQ "/"))
  else Some (ln_text line).

(** [during i] is the state when line [i] is at hand. *)
Definition after_other id r reply (during : nat → EventState) sv : Written * Server :=
  let code := rp_code reply in
  let isStats := negb (IsPrivileged id) && HasSuffix (url_Path (rq_URL r)) "/stats" in
  (if is_streaming r reply then Streamed code (omap (λ x, x) (imap (λ i, stream_line id r (during i)) (rp_lines reply)))
   else if isStats then
     Edited code (Replace1 (rp_text reply) (quoted "name" +:+ ":" +:+ String DQ ("/" +:+ UserContainerPrefix (RealUID id)))
                    (quoted "name" +:+ ":" +:+ String DQ "/"))
   else Copied code, sv).

(** ** The dispatch *)

Definition plain_actions : list string :=
  [ActionStartContainer; ActionRestart; ActionStop; ActionKill; ActionPause; ActionUnpause].

Definition postprocessResponse id (action uri : string) r reply (during : nat → EventState) sv : Written * Server :=
  if action ==s ActionInspect then after_inspect id reply sv
  else if action ==s ActionPS then after_ps id reply sv
  else if action ==s ActionImages then after_images id reply sv
  else if action ==s ActionCreateContainer then after_create id r reply sv
  else if action ==s ActionLoad then after_load id reply sv
  else if action ==s ActionCommit then after_commit id reply sv
  else if action ==s ActionSystemDF then after_df id reply sv
  else if action ==s ActionSwarmInspect then after_swarm_inspect id reply sv
  else if action ==s ActionPrune then after_prune uri reply sv
  else if existsb (String.eqb action) plain_actions then (error_answer id reply, sv)
  else if action ==s ActionRemoveContainer then after_remove_container id uri reply sv
  else if action ==s ActionImport then after_import id reply sv
  else if action ==s ActionPull then after_pull id uri reply sv
  else if action ==s ActionBuild then after_build id uri reply sv
  else if action ==s ActionTag then after_tag id uri reply sv
  else if action ==s ActionRemoveImage then after_rmi id reply sv
  else if action ==s ActionNetworkCreate then after_network_create id r reply sv
  else if action ==s ActionNetworkInspect then after_network_inspect id reply sv
  else if action ==s ActionNetworkList then after_network_list id reply sv
  else if action ==s ActionNetworkRemove then after_network_remove id uri reply sv
  else if action ==s ActionVolumeCreate then after_volume_create id reply sv
  else if action ==s ActionVolumeList then after_volume_list id reply sv
  else if action ==s ActionVolumeInspect then after_volume_inspect id reply sv
  else if action ==s ActionVolumeRemove then after_volume_remove id uri reply sv
  else if action ==s ActionServiceCreate then after_service_create id reply sv
  else if action ==s ActionServiceList then after_service_list id reply sv
  else if action ==s ActionServiceRemove then after_service_remove uri reply sv
  else if action ==s ActionSecretCreate then after_secret_create id reply sv
  else if action ==s ActionSecretList then after_secret_list id reply sv
  else if action ==s ActionSecretRemove then after_secret_remove uri reply sv
  else if action ==s ActionConfigCreate then after_config_create id reply sv
  else if action ==s ActionConfigList then after_config_list id reply sv
  else if action ==s ActionConfigRemove then after_config_remove uri reply sv
  else if action ==s ActionSystemInfo then after_info id reply sv
  else after_other id r reply during sv.
End postprocess.

(** ** Lemmas *)

Lemma owner_verdict id uid sudoCtx :
  entry_verdict (owner_info id) uid sudoCtx = bool_decide (uid = RealUID id) && negb (hidden sudoCtx (if IsSudoCommand id then 1 else 0)).
Proof.
  unfold entry_verdict, owner_info. cbn [po_ownerUID po_privCtx].
  destruct (hidden sudoCtx _); cbn [negb]; [by rewrite andb_false_r|]. rewrite andb_true_r, Z.eqb_sym.
  apply bool_eq_iff. by rewrite Z.eqb_eq, bool_decide_eq_true.
Qed.
Lemma open_build_pending o tags st t :
  pendingBuildTags (open_build o tags st) !! t = (if bool_decide (t ∈ tags) then Some o else pendingBuildTags st !! t).
Proof.
  unfold open_build. revert st. induction tags as [|x tags IH]; intros st; [done|]. cbn [foldl]. rewrite IH. clear IH.
  cbn [with_tag pendingBuildTags]. destruct (decide (t = x)) as [->|Hne].
  - rewrite lookup_insert_eq, (bool_decide_eq_true_2 (x ∈ x :: tags)) by left. by case_bool_decide.
  - rewrite lookup_insert_ne by done.
    assert (bool_decide (t ∈ x :: tags) = bool_decide (t ∈ tags)) as -> by (apply bool_decide_ext; set_solver). done.
Qed.

Lemma close_build_completed o tags st t :
  completedBuildOwner (close_build o tags st) !! t =
  (if bool_decide (t ∈ tags) then Some o else completedBuildOwner st !! t).
Proof.
  induction tags as [|x tags IH]; [done|]. cbn [close_build foldr forget_tag with_completed_build completedBuildOwner].
  change (foldr _ st tags) with (close_build o tags st). destruct (decide (t = x)) as [->|Hne].
  - by rewrite lookup_insert_eq, bool_decide_eq_true_2 by left.
  - rewrite lookup_insert_ne, IH by done.
    assert (bool_decide (t ∈ x :: tags) = bool_decide (t ∈ tags)) as -> by (apply bool_decide_ext; set_solver). done.
Qed.

Lemma close_build_pending o tags st t :
  pendingBuildTags st !! t = Some o →
  pendingBuildTags (close_build o tags st) !! t = (if bool_decide (t ∈ tags) then None else Some o).
Proof.
  intros Ht. induction tags as [|x tags IH]; [done|]. cbn [close_build foldr forget_tag with_completed_build pendingBuildTags].
  change (foldr _ st tags) with (close_build o tags st). unfold delete_if. destruct (decide (t = x)) as [->|Hne].
  - rewrite (bool_decide_eq_true_2 (x ∈ x :: tags)) by left.
    destruct (decide _) as [|E]; [by rewrite lookup_delete_eq|]. rewrite IH in E |- *. by case_bool_decide.
  - assert (bool_decide (t ∈ x :: tags) = bool_decide (t ∈ tags)) as -> by (apply bool_decide_ext; set_solver).
    destruct (decide _); [by rewrite lookup_delete_ne|done].
Qed.

(** An image event under a tag that has an entry is decided by the entry. *)
Lemma tag_entry_decides st ev o uid sudoCtx :
  let tag := map_get (ev_Attributes ev) "name" in
  ev_Type ev = "image" → tag ≠ "" → HasPrefix tag sha256_prefix = false →
  pendingBuildTags st !! tag = Some o ∨ pendingBuildTags st !! tag = None ∧ completedBuildOwner st !! tag = Some o →
  eventBelongsToUser st (Some ev) uid sudoCtx = entry_verdict o uid sudoCtx.
Proof.
  intros tag Ht Hne%String.eqb_neq Hsha H. rewrite event_image by done. unfold image_event, window_entry. fold tag.
  rewrite Hne, Hsha. cbn [negb andb Events.when].
  assert (∀ (x : pruneOwnerInfo) y, Some x ∪ y = Some x) as Hl by (by intros x []).
  assert (∀ y : option pruneOwnerInfo, None ∪ y = y) as Hn by (by intros []).
  destruct H as [->|[-> ->]]; [by rewrite Hl|by rewrite Hn, Hl].
Qed.

Lemma Exec_lookup_container c id img now d :
  writes_left d = None →
  GetContainerOwner c (SetContainerOwner now c id img d).2 = Some (mkOwnerInfo (RealUsername id) (RealUID id) (RealGID id) "").
Proof.
  intros Hw. unfold SetContainerOwner, GetContainerOwner, QueryRow. rewrite Exec_healthy by done. cbn [snd].
  assert (db_down (on_containers (tbl_replace (mkContainerRow c (RealUsername id) (RealUID id) (RealGID id) img (privCtx id) now)) d) = false)
    as -> by (apply healthy_up; by destruct d).
  set (row := mkContainerRow _ _ _ _ _ _ _).
  assert (containers (on_containers (tbl_replace row) d) = tbl_replace row (containers d)) as -> by (by destruct d).
  change c with (key_of row). by rewrite tbl_lookup_replace_eq.
Qed.

(** The port mappings do not touch the containers. *)
Lemma AddPortMappings_owner now ms c d :
  writes_left d = None → GetContainerOwner c (AddPortMappings now ms d).2 = GetContainerOwner c d.
Proof.
  revert d. induction ms as [|m ms IH]; intros d Hw; simpl; [done|].
  assert (writes_left (InsertPort (port_row now m) d).2 = None ∧
    GetContainerOwner c (InsertPort (port_row now m) d).2 = GetContainerOwner c d) as [Hw1 H1].
  { unfold InsertPort. case_match; [done|]. case_match; [done|]. rewrite Exec_healthy by done. destruct d. simpl in *. by subst. }
  destruct (InsertPort _ d) as [[e|] d1]; [by destruct (scan_or _ _) as [[??]?]|]. simpl in *. by rewrite IH.
Qed.

(** ** The deletions of an answer, one by one *)

(** What comes before the first deletion, and each deletion with what comes after it. *)
Fixpoint assign_untagged (items : list pruneDeleted) : list string * list rmiGroup :=
  match items with
  | [] => ([], [])
  | item :: items =>
    let '(tags, groups) := assign_untagged items in
    if pd_Deleted item !=s "" then ([], mkGroup (pd_Deleted item) tags :: groups)
    else if pd_Untagged item !=s "" then (pd_Untagged item :: tags, groups)
    else (tags, groups)
  end.
Definition rmi_groups_ref (items : list pruneDeleted) : list rmiGroup :=
  match assign_untagged items with
  | (_, []) => []
  | (tags, g :: groups) => mkGroup (deletedID g) (tags ++ untagged g) :: groups
  end.

Lemma group_items_open G g items :
  (foldl group_item (G ++ [g], Some (length G)) items).1 =
  G ++ mkGroup (deletedID g) (untagged g ++ (assign_untagged items).1) :: (assign_untagged items).2.
Proof.
  revert G g. induction items as [|item items IH]; intros G g; [by destruct g; cbn; rewrite app_nil_r|].
  cbn [foldl assign_untagged]. destruct (assign_untagged items) as [tags groups]. cbn [fst snd] in IH. unfold group_item at 2.
  destruct (pd_Deleted item !=s ""); [|destruct (pd_Untagged item !=s "")].
  - rewrite IH. destruct g. cbn. by rewrite app_nil_r, <- app_assoc.
  - assert (alter (untag (pd_Untagged item)) (length G) (G ++ [g]) = G ++ [untag (pd_Untagged item) g]) as ->.
    { by rewrite <- (Nat.add_0_r (length G)), alter_app_r. }
    rewrite IH. cbn. by rewrite <- app_assoc.
  - apply IH.
Qed.

Lemma group_items_orphans ts items :
  (foldl group_item ((λ t, mkGroup "" [t]) <$> ts, None) items).1 =
  ((λ t, mkGroup "" [t]) <$> ts ++ (assign_untagged items).1) ++ (assign_untagged items).2.
Proof.
  revert ts. induction items as [|item items IH]; intros ts; [cbn; by rewrite !app_nil_r|].
  cbn [foldl assign_untagged]. unfold group_item at 2.
  destruct (pd_Deleted item !=s "") eqn:Ed; [|destruct (pd_Untagged item !=s "")].
  - pose proof (group_items_open ((λ t, mkGroup "" [t]) <$> ts) (mkGroup (pd_Deleted item) []) items) as H.
    rewrite H. destruct (assign_untagged items). cbn. by rewrite app_nil_r.
  - specialize (IH (ts ++ [pd_Untagged item])). rewrite fmap_app in IH. cbn in IH. rewrite IH.
    destruct (assign_untagged items). cbn. by rewrite <- app_assoc.
  - rewrite IH. by destruct (assign_untagged items).
Qed.

Lemma assign_untagged_deleted items : Forall (λ g, (deletedID g ==s "") = false) (assign_untagged items).2.
Proof.
  induction items as [|item items IH]; [constructor|]. cbn [assign_untagged]. destruct (assign_untagged items) as [tags groups].
  destruct (pd_Deleted item !=s "") eqn:Ed; [|by case_match]. constructor; [|exact IH]. by apply negb_true_iff in Ed.
Qed.

Lemma merge_groups merged orphans ts gs :
  Forall (λ g, (deletedID g ==s "") = false) gs →
  (foldl merge_group (merged, orphans) (((λ t, mkGroup "" [t]) <$> ts) ++ gs)).1 =
  merged ++ match gs with [] => [] | g :: gs => mkGroup (deletedID g) (orphans ++ ts ++ untagged g) :: gs end.
Proof.
  intros Hgs. revert orphans. induction ts as [|t ts IH]; intros orphans.
  - cbn [fmap list_fmap app]. revert merged orphans. induction Hgs as [|g gs Hg _ IH]; intros merged orphans; [by rewrite app_nil_r|].
    cbn [foldl]. unfold merge_group at 2. rewrite Hg, IH, <- app_assoc. f_equal. cbn [app]. destruct gs as [|[g2 u2] gs]; done.
  - cbn [fmap list_fmap app foldl]. unfold merge_group at 2. cbn [deletedID untagged String.eqb]. rewrite IH.
    destruct gs; [done|]. by rewrite <- app_assoc.
Qed.

Section laws.
Context (docker : Docker) (os : OsFiles) (now : Z) (parse_json : string → body) (range : gmap string json → list (string * json)).

(** C12: A container the daemon created is its creator's.  With the database working and the
    answer complete, of status 201 and with the id of the container, the check of a request
    that addresses the container by that id, made in the state the answer leaves, passes
    exactly for the creator and for privileged users, and tells others that there is no
    such container. *)
Theorem created_container_is_guarded env id r reply sv c id2 action r2 :
  writes_left (sv_db sv) = None → rp_complete reply = true → rp_code reply = 201%Z →
  unmarshal_body (decode_id "Id") "" (rp_body reply) = Some c → c ≠ "" → containerSpecialIDs c = false →
  ExtractContainerID (url_Path (rq_URL r2)) = c →
  let sv' := (after_create docker now id r reply sv).2 in
  check_container env id2 action r2 (sv_db sv') =
    (if IsPrivileged id2 || (RealUID id2 =? RealUID id)%Z then Pass tt
     else Reject (Respond (DockerNotFound "container" (TrimPrefix c (UserContainerPrefix (RealUID id2))))), sv_db sv').
Proof.
  intros Hw Hc Hcode Hid Hne%String.eqb_neq Hsp Hc2 sv'.
  assert (GetContainerOwner c (sv_db sv') = Some (mkOwnerInfo (RealUsername id) (RealUID id) (RealGID id) "")) as Ho.
  { unfold sv', after_create. rewrite Hc, Hid, Hcode. cbn [negb]. change (default "" (Some c)) with c. rewrite Hne. cbn [negb].
    change (created 201 && true) with true. cbn [snd]. unfold record_container.
    assert (writes_left (SetContainerOwner now c id (created_image docker r) (sv_db sv)).2 = None) as Hw1.
    { unfold SetContainerOwner. rewrite Exec_healthy by done. by destruct (sv_db sv). }
    case_match; [by apply Exec_lookup_container|]. case_match; [by apply Exec_lookup_container|].
    unfold exec. cbn [sv_db]. rewrite AddPortMappings_owner by done. by apply Exec_lookup_container. }
  unfold check_container. rewrite Hc2, Hne, Hsp. cbn [orb]. unfold mbind, M_bind, ask. rewrite Ho. cbn [oi_UID].
  rewrite (Z.eqb_sym (RealUID id)). destruct (IsPrivileged id2); cbn [orb negb andb]; [by rewrite andb_false_r|].
  rewrite andb_true_r. by destruct (RealUID id2 =? RealUID id)%Z.
Qed.

(** A user's stream of events.  An unprivileged user's stream of [/events] is the
    lines of the daemon, in order, whose event belongs to the user by the records
    and the event maps of the moment the line is at hand, and the empty ones left
    out. *)
Lemma event_stream_is_filtered id uri r reply during sv :
  IsPrivileged id = false → Contains (url_Path (rq_URL r)) "/events" = true → HasSuffix (url_Path (rq_URL r)) "/stats" = false →
  header_get (rp_header reply) "Content-Length" = "" →
  postprocessResponse docker os now parse_json range id ActionSystemEvents uri r reply during sv =
    (Streamed (rp_code reply) (ln_text <$>
       (List.filter (λ x, (ln_text x.2 !=s "") &&
           eventBelongsToUser (during x.1) (decode_event (ln_json x.2)) (RealUID id) (IsSudoCommand id))
         (imap pair (rp_lines reply))).*2), sv).
Proof.
  intros Hp He Hs Hl. change (postprocessResponse docker os now parse_json range id ActionSystemEvents uri r reply during sv)
    with (after_other id r reply during sv).
  unfold after_other, is_streaming. rewrite Hl, He. rewrite orb_true_r. cbn [andb]. f_equal. f_equal.
  assert (∀ k, omap (λ x, x) (imap (λ i, stream_line id r (during (k + i))) (rp_lines reply)) =
    ln_text <$> (List.filter (λ x, (ln_text x.2 !=s "") &&
      eventBelongsToUser (during (k + x.1)) (decode_event (ln_json x.2)) (RealUID id) (IsSudoCommand id)) (imap pair (rp_lines reply))).*2) as H.
  { generalize (rp_lines reply). intros l. induction l as [|x l IH] using rev_ind; intros k; [done|].
    rewrite !imap_app, omap_app, List.filter_app, fmap_app, fmap_app, IH. f_equal. cbn [imap omap list_omap].
    rewrite Nat.add_0_r. unfold stream_line at 1. rewrite He, Hp, Hs. cbn [List.filter negb andb fst snd compose].
    destruct (ln_text x ==s "") eqn:E; cbn [negb andb]; [done|].
    by destruct (eventBelongsToUser _ _ _ _). }
  apply (H 0).
Qed.

(** Whether an event is shown to [id], with the records and maps of [st], by what the
    event is about.  A container's event is shown to the user its owner label names and,
    outside sudo, not if the caller label says sudo; in particular, one with the labels
    [creator] got from the proxy, whatever the client had asked for, to [creator] alone.
    A volume or network under the name of a user is shown to that user, unless hidden as
    made with sudo; a peer network to its two users; an image of record, that no build or
    pull under way is about, when it is public, and else to its owner and those with a
    reference, as far as they can use it. *)
Record shown_to_owner (id : CallerIdentity) (st : EventState) (ev : Event) (shown : bool) : Prop := {
  so_container v : ev_Type ev = "container" → ev_Attributes ev !! LabelOwnerUID = Some v →
    shown = (v ==s Itoa (RealUID id)) &&
            negb (negb (IsSudoCommand id) && (GetLastLabelValue (map_get (ev_Attributes ev) LabelCallerType) ==s "sudo"));
  so_created labels creator : ev_Type ev = "container" →
    (∀ k, k ∈ [LabelOwnerUID; LabelCallerType] → ev_Attributes ev !! k = system_labels labels creator !! k) → shown = true →
    RealUID id = RealUID creator ∧ (IsSudoCommand id = false → id_UserType creator ≠ UserTypeSudo);
  so_volume other x : (0 <= other)%Z → ev_Type ev = "volume" → ev_ID ev = UserVolumePrefix other +:+ x →
    shown = (RealUID id =? other)%Z && negb (negb (IsSudoCommand id) && db_priv (GetVolumePrivCtx (ev_ID ev)) (es_db st));
  so_bridge other : (0 <= other)%Z → ev_Type ev = "network" → map_get (ev_Attributes ev) "name" = UserBridgeName other →
    shown = (RealUID id =? other)%Z;
  so_peers a b : (0 <= a)%Z → (0 <= b)%Z → ev_Type ev = "network" → map_get (ev_Attributes ev) "name" = PeerNetworkName a b →
    shown = (RealUID id =? a)%Z || (RealUID id =? b)%Z;
  so_network owner x : (0 <= RealUID owner)%Z → ev_Type ev = "network" →
    map_get (ev_Attributes ev) "name" = UserResourcePrefix owner +:+ x →
    str_forallb (λ d, negb (Ascii.eqb "_" d)) (RealUsername owner) = true →
    HasPrefix (RealUsername owner) "user-" = false → HasPrefix (RealUsername owner) "peer-" = false →
    shown = (RealUID id =? RealUID owner)%Z &&
            negb (negb (IsSudoCommand id) && db_priv (GetNetworkPrivCtxByName (map_get (ev_Attributes ev) "name")) (es_db st));
  so_image d row : ev_Type ev = "image" → ev_ID ev ≠ "" → window_entry st ev = None → es_db st = Some d → db_down d = false →
    image_wf d → tbl_lookup (normalizeImageID (ev_ID ev)) (images d) = Some row → normalizeImageID (ev_ID ev) ≠ "" →
    (i_is_public row ≠ 0%Z → shown = true) ∧ (shown = true → CanUseImage (RealUID id) (ev_ID ev) d = true) ∧
    (i_is_public row = 0%Z → i_owner_uid row ≠ RealUID id → shown = HasImageAccess (ev_ID ev) (RealUID id) d);
}.
Lemma event_shown_to_owner id st ev :
  (0 <= RealUID id)%Z → shown_to_owner id st ev (eventBelongsToUser st (Some ev) (RealUID id) (IsSudoCommand id)).
Proof.
  intros Hid. constructor.
  - intros v Ht Hv. unfold eventBelongsToUser. rewrite Ht. cbn. unfold labelled_event. rewrite Hv.
    destruct (v ==s _); cbn [negb andb]; [|done]. by destruct (negb _ && _).
  - intros labels creator Ht Hl Hs. by apply (container_events_isolated st ev labels creator (RealUID id) (IsSudoCommand id)).
  - intros other x Ho Ht Hn. by apply (volume_events_isolated st ev _ other x).
  - intros other Ho Ht Hn. destruct (network_events_isolated st ev (RealUID id) (IsSudoCommand id) Hid Ht) as (H & _). by apply H.
  - intros a b Ha Hb Ht Hn. destruct (network_events_isolated st ev (RealUID id) (IsSudoCommand id) Hid Ht) as (_ & H & _). by apply H.
  - intros owner x Ho Ht Hn. destruct (network_events_isolated st ev (RealUID id) (IsSudoCommand id) Hid Ht) as (_ & _ & H). by apply (H owner x).
  - intros d row Ht Hi Hwin Hdb Hup Hwf Hr Hn.
    destruct (image_events_follow_ownership st ev (RealUID id) (IsSudoCommand id) d row) as (H1 & _ & H3 & H4); done.
Qed.

(** The grouping of an answer's deletions, which goes over them twice with an
    index into the groups so far, is that of one pass: what is untagged before the
    first deletion is the first's, what is untagged after a deletion is that one's,
    up to the next.  So of two images, each untagged before it is deleted, the tag
    of the second goes to the first. *)
Theorem rmi_groups_one_pass items :
  rmi_groups items = rmi_groups_ref items ∧
  ∀ a A b B, A ≠ "" → B ≠ "" → a ≠ "" → b ≠ "" →
    rmi_groups [mkPruneDeleted "" a; mkPruneDeleted A ""; mkPruneDeleted "" b; mkPruneDeleted B ""] =
    [mkGroup A [a; b]; mkGroup B []].
Proof.
  assert (∀ items, rmi_groups items = rmi_groups_ref items) as H.
  { intros l. unfold rmi_groups, rmi_groups_ref. pose proof (group_items_orphans [] l) as Hg. cbn [fmap list_fmap app] in Hg. rewrite Hg.
    rewrite merge_groups by apply assign_untagged_deleted. by destruct (assign_untagged l) as [tags []]. }
  split; [apply H|]. intros a A b B HA%String.eqb_neq HB%String.eqb_neq Ha%String.eqb_neq Hb%String.eqb_neq.
  rewrite H. unfold rmi_groups_ref. cbn [assign_untagged pd_Deleted pd_Untagged]. by rewrite HA, HB, Ha, Hb.
Qed.

(** A build leaves no gap.  The tags of a build have an entry in the map of
    pending builds while its stream is read; when it ends they are taken over, the
    last first, by the map of completed ones.  At every moment in between, an image
    event under one of the tags is decided by the entry: shown to no user but the
    builder, and outside sudo not when the builder used sudo. *)
Theorem build_leaves_no_gap id uri reply sv closed ev uid sudoCtx :
  let o := owner_info id in
  let tags := build_tags uri in
  let tag := map_get (ev_Attributes ev) "name" in
  let opened := open_build o tags (sv_maps sv) in
  sv_maps (after_build docker now id uri reply sv).2 = close_build o tags opened ∧
  (closed `suffix_of` tags → ev_Type ev = "image" → tag ∈ tags → tag ≠ "" → HasPrefix tag sha256_prefix = false →
   eventBelongsToUser (close_build o closed opened) (Some ev) uid sudoCtx =
     bool_decide (uid = RealUID id) && negb (hidden sudoCtx (if IsSudoCommand id then 1 else 0))).
Proof.
  intros o tags tag opened. split.
  { unfold after_build. cbv zeta. fold o tags. unfold note at 1. cbn [snd sv_maps]. by case_match. }
  intros [before Hc] Ht Htag Hne Hsha.
  rewrite (tag_entry_decides _ _ o) by
    (done || (assert (pendingBuildTags opened !! tag = Some o) as Hp
       by (unfold opened; rewrite open_build_pending; by rewrite bool_decide_eq_true_2);
     fold tag; rewrite close_build_pending, close_build_completed by done;
     destruct (bool_decide (tag ∈ closed)); [by right|by left])).
  apply owner_verdict.
Qed.

(** A forced removal keeps the record.  The name of the volume is taken from the
    whole URI, with its query: the record of a removed volume goes when there is
    none, and stays when there is one ([?force=1], as the client sends for [-f]). *)
Theorem removed_volume_keeps_its_record id v query reply sv :
  gone (rp_code reply) = true → writes_left (sv_db sv) = None → v ≠ "" →
  str_forallb (λ d, negb (Ascii.eqb "/" d)) v = true → str_forallb (λ d, negb (Ascii.eqb "/" d)) query = true →
  let after uri := sv_db (after_volume_remove id uri reply sv).2 in
  GetVolumeOwner v (after ("/volumes/" +:+ v)) = None ∧
  GetVolumeOwner v (after ("/volumes/" +:+ v +:+ "?" +:+ query)) = GetVolumeOwner v (sv_db sv).
Proof.
  intros Hg Hw Hne Hv Hq after.
  assert (∀ n, str_forallb (λ d, negb (Ascii.eqb "/" d)) n = true → ExtractVolumeName ("/volumes/" +:+ n) = n) as He.
  { intros n Hn. unfold ExtractVolumeName, path_segment. rewrite (proj2 (proj2 rooted_volumes)), HasPrefix_app, str_drop_app. cbn [negb].
    rewrite <- (app_nil_r_str n) at 1. by apply cutSlash_app; [|left]. }
  assert (∀ n d, writes_left d = None → (DeleteVolume n d).2 = on_volumes (tbl_delete n) d) as Hd.
  { intros n d Hd. unfold DeleteVolume. by rewrite Exec_healthy. }
  assert (∀ n, n ≠ "" → str_forallb (λ d, negb (Ascii.eqb "/" d)) n = true →
    after ("/volumes/" +:+ n) = on_volumes (tbl_delete n) (sv_db sv)) as Ha.
  { intros n Hn%String.eqb_neq Hs. unfold after, after_volume_remove. rewrite (He n Hs), Hg, Hn. cbn [negb andb snd].
    unfold forget_volume, exec. cbn [sv_db].
    assert (sv_db (match GetVolumeOwner n (sv_db sv) with Some owner => note (with_prune ("volume:" +:+ n)
      (mkPruneOwnerInfo (oi_UID owner) (default 0%Z (GetVolumePrivCtx n (sv_db sv))))) sv | None => sv end) = sv_db sv) as -> by (by case_match).
    by apply Hd. }
  assert (∀ n, db_down (on_volumes (tbl_delete n) (sv_db sv)) = db_down (sv_db sv) ∧
    volumes (on_volumes (tbl_delete n) (sv_db sv)) = tbl_delete n (volumes (sv_db sv))) as Hon by (intros n; by destruct (sv_db sv)).
  split.
  - rewrite Ha by done. unfold GetVolumeOwner, QueryRow. destruct (Hon v) as [-> ->]. rewrite tbl_lookup_delete_eq. by destruct (db_down _).
  - assert (v +:+ "?" +:+ query ≠ v) as Hvq.
    { intros E. apply (f_equal slen) in E. rewrite slen_app in E. simpl in E. lia. }
    rewrite (Ha (v +:+ "?" +:+ query)).
    + unfold GetVolumeOwner, QueryRow. destruct (Hon (v +:+ "?" +:+ query)) as [-> ->]. by rewrite tbl_lookup_delete_ne.
    + by destruct v.
    + rewrite str_forallb_app, Hv. cbn. exact Hq.
Qed.
End laws.

(** ** Examples *)

Module ResponseDemo.

Definition alice : CallerIdentity := ImageDemo.alice.
Definition bob : CallerIdentity := ImageDemo.bob.
Definition docker : Docker := env_docker PermDemo.env.
Definition container_id : string := "00112233445566778899aabbccddeeff".
Definition sv : Server := mkServer PreRequestDemo.db (mkEventState ∅ ∅ ∅ ∅ ∅ None).
Definition created : Reply := mkReply 201 [] "" (Doc (JObj [("Id", JStr container_id)])) [] true.
Definition events : Request := plain_request "GET" "/v1.41/events" "" EmptyBody.
(** An event of bob's volume, and one of alice's. *)
Definition event_line (volume : string) : StreamLine :=
  mkStreamLine ("event of " +:+ volume) (Doc (JObj [("Type", JStr "volume"); ("Actor", JObj [("ID", JStr volume)])])).
Definition stream : Reply :=
  mkReply 200 [] "" EmptyBody [event_line "user-1002-volume-data"; event_line "user-1001-volume-data"] true.
Definition build_uri : string := "/v1.41/build?t=web:1&t=web:2".
Definition build_event : Event := mkEvent "image" "tag" "" {["name" := "web:2"]}.

End ResponseDemo.

(** ** Witnesses *)

Lemma created_container_is_guarded_witness :
  (check_container PreRequestDemo.env ResponseDemo.bob ActionStop
     (plain_request "POST" ("/containers/" +:+ ResponseDemo.container_id +:+ "/stop") "" EmptyBody)
     (sv_db (after_create ResponseDemo.docker 5 ResponseDemo.alice PreRequestDemo.create ResponseDemo.created ResponseDemo.sv).2)).1 =
  Reject (Respond (DockerNotFound "container" ResponseDemo.container_id)).
Proof.
  rewrite (created_container_is_guarded ResponseDemo.docker 5 PreRequestDemo.env ResponseDemo.alice PreRequestDemo.create
    ResponseDemo.created ResponseDemo.sv ResponseDemo.container_id ResponseDemo.bob ActionStop);
    first [reflexivity|vm_compute; discriminate|vm_compute; reflexivity].
Defined.


Lemma build_leaves_no_gap_witness :
  let o := owner_info ResponseDemo.bob in
  let opened := open_build o ["web:1"; "web:2"] (sv_maps ResponseDemo.sv) in
  eventBelongsToUser (close_build o ["web:2"] opened) (Some ResponseDemo.build_event) 1001 false = false ∧
  eventBelongsToUser (close_build o ["web:2"] opened) (Some ResponseDemo.build_event) 1002 false = true.
Proof.
  assert (build_tags ResponseDemo.build_uri = ["web:1"; "web:2"]) as Htags by (vm_compute; reflexivity).
  pose proof (λ uid, proj2 (build_leaves_no_gap ResponseDemo.docker 5 ResponseDemo.bob ResponseDemo.build_uri ResponseDemo.created
    ResponseDemo.sv ["web:2"] ResponseDemo.build_event uid false)) as H. rewrite Htags in H.
  split; (rewrite H; [vm_compute; reflexivity|by exists ["web:1"]|done|right; left|discriminate|vm_compute; reflexivity]).
Defined.

Lemma removed_volume_keeps_its_record_witness :
  GetVolumeOwner "user-1001-volume-data"
    (sv_db (after_volume_remove ResponseDemo.alice "/volumes/user-1001-volume-data?force=1"
       (mkReply 204 [] "" EmptyBody [] true) ResponseDemo.sv).2) ≠ None.
Proof.
  pose proof (removed_volume_keeps_its_record ResponseDemo.alice "user-1001-volume-data" "force=1"
    (mkReply 204 [] "" EmptyBody [] true) ResponseDemo.sv) as H.
  destruct H as [_ H]; [reflexivity|reflexivity|discriminate|reflexivity|reflexivity|].
  cbn [String.append] in H. rewrite H. vm_compute. discriminate.
Defined.
