(* ===== verification/Headers.v ===== *)
(** * Headers: the heads of answers

    What [postprocessResponse] of [internal/forward/proxy.go] (2568-3853) writes above a
    body, for the answers of Response: the daemon's header is copied ([CopyHeaders] of
    [internal/isolation/filter.go]), and the length and type of a body that may have
    been rewritten are set, or not, by each action in its own way.  The client
    believes the length; that it is that of the body is what the theorems are about.  How
    a document is written is a parameter. *)

From S2P Require Import Prelude GoStrings GoJson Docker GoUrl OsLookup Identity Routes Policy Tables Database ImageDB.
From S2P Require Import ResourceDB Names Events ImagePerm Quota GoPath Storage Bodies Filter PreRequest Pipeline Prune Streams Response.

(** ** Headers *)

Definition Header : Type := list (string * string).
Definition Add (k v : string) (h : Header) : Header := h ++ [(k, v)].
Definition Del (k : string) (h : Header) : Header := List.filter (λ kv, kv.1 !=s k) h.
Definition Set_ (k v : string) (h : Header) : Header := Del k h ++ [(k, v)].
Definition CopyHeaders (dst src : Header) : Header := foldl (λ h kv, Add kv.1 kv.2 h) dst src.

(** ** Answers *)

(** How an action treats the head: a list or report in JSON, whose type and length are
    set; a body whose length is set; one whose length is set unless it is empty; one
    that goes as it came; and the two that decide for themselves. *)
Inductive Framing := JsonList | Sized | SizedUnlessEmpty | AsItCame | InfoFraming | OtherFraming.
Definition framings : list (string * Framing) :=
  [(ActionInspect, Sized); (ActionPS, JsonList); (ActionImages, JsonList); (ActionCreateContainer, Sized); (ActionLoad, AsItCame);
   (ActionCommit, Sized); (ActionSystemDF, JsonList); (ActionSwarmInspect, JsonList); (ActionPrune, AsItCame)] ++
  ((λ a, (a, SizedUnlessEmpty)) <$> plain_actions) ++
  [(ActionRemoveContainer, SizedUnlessEmpty); (ActionImport, AsItCame); (ActionPull, AsItCame); (ActionBuild, AsItCame);
   (ActionTag, AsItCame); (ActionRemoveImage, AsItCame); (ActionNetworkCreate, Sized); (ActionNetworkInspect, Sized);
   (ActionNetworkList, JsonList); (ActionNetworkRemove, SizedUnlessEmpty); (ActionVolumeCreate, Sized); (ActionVolumeList, JsonList);
   (ActionVolumeInspect, Sized); (ActionVolumeRemove, SizedUnlessEmpty); (ActionServiceCreate, AsItCame); (ActionServiceList, JsonList);
   (ActionServiceRemove, AsItCame); (ActionSecretCreate, AsItCame); (ActionSecretList, JsonList); (ActionSecretRemove, AsItCame);
   (ActionConfigCreate, AsItCame); (ActionConfigList, JsonList); (ActionConfigRemove, AsItCame); (ActionSystemInfo, InfoFraming)].
Definition framing (action : string) : Framing :=
  match find_first (λ e, action ==s e.1) framings with Some (_, f) => f | None => OtherFraming end.

Section answers.
(** How a document is written, and the document of a message. *)
Context (write : json → string) (message_text : string → string).

Definition lines_text (lines : list string) : string := foldr (λ l s, l +:+ String "010" s) "" lines.
(** The bytes of an answer; none when the handler crashes. *)
Definition answer_text (reply : Reply) (w : Written) : option string :=
  match w with
  | Copied _ => Some (rp_text reply)
  | Shown _ (Doc j) => Some (write j)
  | Shown _ _ => Some (rp_text reply)
  | Edited _ text => Some text
  | Streamed _ lines => Some (lines_text lines)
  | Message _ msg => Some (message_text msg)
  | Broken => None
  end.
Definition sized (text : string) (h : Header) : Header := Set_ "Content-Length" (Itoa (Z.of_nat (slen text))) h.

(** The header an answer is written under; [writeDockerError] sets the type alone. *)
Definition answer_header (id : CallerIdentity) (action : string) (r : Request) (reply : Reply) (w : Written) (text : string) : Header :=
  let h := CopyHeaders [] (rp_header reply) in
  let isStats := negb (IsPrivileged id) && HasSuffix (url_Path (rq_URL r)) "/stats" in
  match w with
  | Message _ _ => Set_ "Content-Type" "application/json" []
  | _ =>
    match framing action with
    | JsonList => sized text (Set_ "Content-Type" "application/json" h)
    | Sized => sized text h
    | SizedUnlessEmpty => if text ==s "" then h else sized text h
    | AsItCame => h
    | InfoFraming => match w with Shown _ _ => sized text h | _ => h end
    | OtherFraming =>
      if is_streaming r reply then Del "Transfer-Encoding" h else if isStats then sized text h else h
    end
  end.
End answers.

(** A length is that of the text below. *)
Definition framed (h : Header) (text : string) : Prop :=
  ∀ v, ("Content-Length", v) ∈ h → v = Itoa (Z.of_nat (slen text)).

(** ** Lemmas *)

Lemma CopyHeaders_nil h : CopyHeaders [] h = h.
Proof.
  unfold CopyHeaders, Add. assert (∀ d, foldl (λ h kv, h ++ [(kv.1, kv.2)]) d h = d ++ h) as H; [|by rewrite H].
  induction h as [|[k v] h IH]; intros d; cbn; [by rewrite app_nil_r|]. by rewrite IH, <- app_assoc.
Qed.
Lemma elem_of_Del k h kv : kv ∈ Del k h ↔ kv ∈ h ∧ kv.1 ≠ k.
Proof. unfold Del. rewrite list_elem_of_In, List.filter_In, <- list_elem_of_In. by rewrite negb_true_iff, String.eqb_neq. Qed.
Lemma elem_of_Set k v h kv : kv ∈ Set_ k v h ↔ kv = (k, v) ∨ (kv ∈ h ∧ kv.1 ≠ k).
Proof. unfold Set_. rewrite elem_of_app, elem_of_Del, elem_of_cons, elem_of_nil. tauto. Qed.
Lemma framed_sized text h : framed (sized text h) text.
Proof. intros v [[= ->]|[_ H]]%elem_of_Set; [done|]. by cbn in H. Qed.
Lemma framed_Del k h text : framed h text → framed (Del k h) text.
Proof. intros H v [Hv _]%elem_of_Del. by apply H. Qed.
Lemma not_streaming_length r reply v :
  is_streaming r reply = true → framed (rp_header reply) (rp_text reply) → ("Content-Length", v) ∉ rp_header reply.
Proof.
  unfold is_streaming. intros [Hs%String.eqb_eq _]%andb_true_iff Hf Hv. unfold header_get, values_get in Hs.
  destruct (find_first _ _) as [[k w]|] eqn:E.
  - apply find_first_Some in E as [Hin Hk%String.eqb_eq]. cbn in *. subst k w. apply Hf in Hin. by destruct (Itoa_ne (Z.of_nat (slen (rp_text reply)))).
  - rewrite find_first_None in E. specialize (E _ Hv). cbn in E. done.
Qed.
(** An error that is a document does not become empty. *)
Lemma without_volume_prefix_ne id s : HasPrefix s "{" = true → without_volume_prefix id s ≠ "".
Proof.
  intros H%HasPrefix_spec. destruct H as [t ->]. unfold without_volume_prefix. rewrite ReplaceAll_eq by done.
  destruct (Index _ _) as [i|] eqn:E; [|done]. destruct i as [|i]; [|done]. apply Index_Some in E as (r & Hr & _). done.
Qed.

Section framed.
Context (write : json → string) (message_text : string → string).
Context (docker : Docker) (os : OsFiles) (now : Z) (parse_json : string → body) (range : gmap string json → list (string * json)).
Hypothesis write_something : ∀ j, write j ≠ "".
Context (id : CallerIdentity) (uri : string) (r : Request) (reply : Reply) (during : nat → EventState) (sv : Server).
(** The daemon's answer is framed. *)
Hypothesis reply_framed : framed (rp_header reply) (rp_text reply).
(** Where it is sent on line by line, its lines are the whole of it, or it has no length. *)
Definition whole_lines (w : Written) : Prop :=
  (∃ c, w = Streamed c (ln_text <$> rp_lines reply)) →
  lines_text (ln_text <$> rp_lines reply) = rp_text reply ∨ ∀ v, ("Content-Length", v) ∉ rp_header reply.

(** An answer that can go under the header that came. *)
Definition as_it_came (w : Written) : Prop :=
  (∃ c, w = Copied c) ∨ (∃ c msg, w = Message c msg) ∨ (∃ c, w = Streamed c (ln_text <$> rp_lines reply)) ∨ w = Broken.
Lemma framed_as_it_came w text :
  whole_lines w → as_it_came w → answer_text write message_text reply w = Some text → framed (rp_header reply) text ∨ ∃ c msg, w = Message c msg.
Proof.
  intros Hlines [[c ->]|[(c & msg & ->)|[[c ->]| ->]]]; cbn; intros [= <-]; [by left|right; eauto|].
  left. destruct Hlines as [->|Hno]; [eauto|..]; [done|]. intros v Hv. by destruct (Hno v).
Qed.
Lemma framed_message text : framed (Set_ "Content-Type" "application/json" []) text.
Proof. intros v [[=]|[[]%elem_of_nil _]]%elem_of_Set. Qed.

(** What each way of treating the head needs of an answer. *)
Definition fits_framing (f : Framing) (w : Written) : Prop :=
  match f with
  | JsonList | Sized => True
  | SizedUnlessEmpty => answer_text write message_text reply w = Some "" → rp_text reply = ""
  | AsItCame => as_it_came w
  | InfoFraming => as_it_came w ∨ ∃ c b, w = Shown c b
  | OtherFraming =>
    if is_streaming r reply then ∃ c ls, w = Streamed c ls
    else if negb (IsPrivileged id) && HasSuffix (url_Path (rq_URL r)) "/stats" then True else ∃ c, w = Copied c
  end.
Lemma fits_framed action w text :
  whole_lines w → fits_framing (framing action) w → answer_text write message_text reply w = Some text →
  framed (answer_header id action r reply w text) text.
Proof.
  intros Hlines Hf Ht. unfold answer_header. rewrite CopyHeaders_nil.
  assert ((∃ c msg, w = Message c msg) ∨ ¬ ∃ c msg, w = Message c msg) as [(c & msg & ->)|Hno]
    by (destruct w; [right|right|right|right|left|right]; try naive_solver; eauto); [apply framed_message|].
  assert (∀ c, w = Copied c → text = rp_text reply) as Hc by (intros c ->; by injection Ht).
  destruct (framing action); cbn [fits_framing] in Hf.
  - destruct w; try apply framed_sized. by destruct Hno; eauto.
  - destruct w; try apply framed_sized. by destruct Hno; eauto.
  - assert (framed (if text ==s "" then rp_header reply else sized text (rp_header reply)) text) as H.
    { destruct (String.eqb_spec text "") as [->|]; [|apply framed_sized]. pose proof reply_framed as H. by rewrite (Hf Ht) in H. }
    destruct w; try exact H. by destruct Hno; eauto.
  - destruct (framed_as_it_came w text Hlines Hf Ht) as [H|H]; [|done]. destruct w; try exact H. by destruct Hno; eauto.
  - destruct Hf as [Hf|(c & b & ->)]; [|apply framed_sized].
    destruct (framed_as_it_came w text Hlines Hf Ht) as [H|H]; [|done]. destruct w; try exact H; [apply framed_sized|]. by destruct Hno; eauto.
  - destruct (is_streaming r reply) eqn:Hs.
    + destruct Hf as (c & ls & ->). intros v [Hv _]%elem_of_Del. by apply (not_streaming_length r reply v Hs) in Hv.
    + destruct (negb (IsPrivileged id) && _) eqn:Hst.
      * destruct w; try apply framed_sized. by destruct Hno; eauto.
      * destruct Hf as [c ->]. by rewrite (Hc c eq_refl).
Qed.

Lemma fits_error_answer : fits_framing SizedUnlessEmpty (error_answer docker id reply).
Proof.
  unfold error_answer. destruct (_ && _); cbn [fits_framing answer_text]; [|by intros [= ->]].
  destruct (stripInternalPrefixFromErrorMessage _ _ _); intros [= H]; try done. by destruct (write_something j).
Qed.
Lemma fits_volume_remove :
  rp_text reply = "" ∨ HasPrefix (rp_text reply) "{" = true → fits_framing SizedUnlessEmpty (after_volume_remove id uri reply sv).1.
Proof.
  unfold after_volume_remove. intros Ht. cbn [fst]. destruct (_ && _); cbn [fits_framing answer_text]; [|by intros [= ->]].
  intros [= H]. destruct Ht as [|Ht]; [done|]. by destruct (without_volume_prefix_ne id (rp_text reply) Ht).
Qed.
Lemma fits_info : fits_framing InfoFraming (after_info docker id reply sv).1.
Proof.
  unfold after_info, as_it_came. cbn [fits_framing]. unfold as_it_came. repeat case_match; cbn [fst]; eauto 10.
Qed.
Lemma fits_other : fits_framing OtherFraming (after_other id r reply during sv).1.
Proof.
  unfold after_other. cbn [fits_framing fst]. destruct (is_streaming r reply); [eauto|].
  destruct (negb (IsPrivileged id) && _); eauto.
Qed.

(** One branch of the dispatch. *)
Ltac branch :=
  match goal with |- fits_framing (framing ?a) _ => let f := eval vm_compute in (framing a) in change (framing a) with f end;
  first [exact I|apply fits_error_answer|solve [apply fits_volume_remove; auto]|apply fits_info|
    cbn [fits_framing]; unfold as_it_came, after_load, after_prune, after_import, after_pull, after_build, after_tag, after_rmi,
      after_service_create, after_service_remove, after_secret_create, after_secret_remove, after_config_create, after_config_remove,
      after_swarm_create, after_swarm_remove, read_failed; repeat case_match; cbn [fst]; eauto 8].
Lemma framing_plain action : existsb (String.eqb action) plain_actions = true → framing action = SizedUnlessEmpty.
Proof. intros (a & Ha & ->%String.eqb_eq)%existsb_exists. cbn in Ha. by repeat destruct Ha as [<-|Ha]. Qed.
Lemma framing_other action : Forall (λ e, action ≠ e.1) framings → framing action = OtherFraming.
Proof.
  rewrite Forall_forall. intros H. unfold framing. destruct (find_first _ _) as [[k f]|] eqn:E; [|done].
  apply find_first_Some in E as [Hin ->%String.eqb_eq]. by destruct (H _ Hin).
Qed.

(** C23: Answers have the length they say.  Where the daemon's answer is framed, so is what the
    proxy makes of it, whatever the action and whatever was filtered or rewritten: the
    length in the header, if there is one, is that of the body.  The body of an answer to a
    volume removal has to be empty or begin like a document, and an answer that is sent on
    line by line to be made of whole lines, or to have come without a length. *)
Theorem answers_are_framed action text :
  (action = ActionVolumeRemove → rp_text reply = "" ∨ HasPrefix (rp_text reply) "{" = true) →
  let w := (postprocessResponse docker os now parse_json range id action uri r reply during sv).1 in
  whole_lines w → answer_text write message_text reply w = Some text → framed (answer_header id action r reply w text) text.
Proof.
  intros Hv w Hlines Ht. apply fits_framed; [done| |done]. subst w. clear Ht Hlines.
  unfold postprocessResponse.
  repeat match goal with
  | |- context [if action ==s ?a then _ else _] => destruct (String.eqb_spec action a) as [->|?]; [by branch|]
  | |- context [if existsb (String.eqb action) plain_actions then _ else _] =>
    destruct (existsb (String.eqb action) plain_actions) eqn:Hplain; [by rewrite (framing_plain action Hplain); apply fits_error_answer|]
  end.
  rewrite framing_other; [apply fits_other|]. rewrite existsb_false_elem in Hplain. unfold framings. rewrite !Forall_app. split_and!.
  - by repeat constructor.
  - apply Forall_fmap, Forall_forall. intros a Ha. cbn. intros ->. specialize (Hplain a Ha). by rewrite String.eqb_refl in Hplain.
  - by repeat constructor.
Qed.
End framed.

(** The other headers are the daemon's: an answer that is not a message of the proxy has
    them as they came, in their order. *)
Theorem other_headers_pass id action r reply w text k :
  k ∉ ["Content-Length"; "Content-Type"; "Transfer-Encoding"] → (∀ c msg, w ≠ Message c msg) →
  List.filter (λ kv, kv.1 ==s k) (answer_header id action r reply w text) = List.filter (λ kv, kv.1 ==s k) (rp_header reply).
Proof.
  rewrite !not_elem_of_cons. intros (Hl & Ht & He & _) Hw.
  assert (∀ k', k ≠ k' → ∀ h, List.filter (λ kv, kv.1 ==s k) (Del k' h) = List.filter (λ kv, kv.1 ==s k) h) as Hdel.
  { intros k' Hk h. unfold Del. induction h as [|[x y] h IH]; [done|]. cbn. destruct (String.eqb_spec x k') as [->|]; cbn; rewrite IH; [|done].
    rewrite (proj2 (String.eqb_neq k' k)) by done. done. }
  assert (∀ k' v, k ≠ k' → ∀ h, List.filter (λ kv, kv.1 ==s k) (Set_ k' v h) = List.filter (λ kv, kv.1 ==s k) h) as Hset.
  { intros k' v Hk h. unfold Set_. rewrite List.filter_app. rewrite (Hdel k' Hk h). cbn. rewrite (proj2 (String.eqb_neq k' k)) by done. apply app_nil_r. }
  unfold answer_header, sized. rewrite CopyHeaders_nil. destruct w; try (by destruct (Hw code msg));
    destruct (framing action); repeat case_match; rewrite ?Hset, ?Hdel by done; done.
Qed.

(** ** Examples *)

Module HeadersDemo.
(** A refusal of the daemon's, with the name it knows the volume by. *)
Definition busy (name : string) : string := "{" +:+ quoted "message" +:+ ":" +:+ quoted ("remove " +:+ name +:+ ": volume is in use") +:+ "}".
Definition reply : Reply :=
  mkReply 409 [("Api-Version", "1.41"); ("Content-Length", "60")] (busy "user-1001-volume-data") InvalidBody [] true.
Definition request : Request := plain_request "DELETE" "/v1.41/volumes/data" "" EmptyBody.
Definition answer : Written :=
  (postprocessResponse ResponseDemo.docker Demo.os 5 (λ _, InvalidBody) map_to_list ResponseDemo.alice ActionVolumeRemove
     "/v1.41/volumes/user-1001-volume-data" request reply (λ _, event_state ResponseDemo.sv) ResponseDemo.sv).1.
Example shortened :
  answer = Edited 409 (busy "data") ∧
  answer_header ResponseDemo.alice ActionVolumeRemove request reply answer (busy "data") = [("Api-Version", "1.41"); ("Content-Length", "43")].
Proof. vm_compute. done. Qed.
End HeadersDemo.

Lemma answers_are_framed_witness :
  framed (answer_header ResponseDemo.alice ActionVolumeRemove HeadersDemo.request HeadersDemo.reply HeadersDemo.answer (HeadersDemo.busy "data"))
    (HeadersDemo.busy "data").
Proof.
  apply (answers_are_framed (λ _, "null") (λ m, m) ResponseDemo.docker Demo.os 5 (λ _, InvalidBody) map_to_list ltac:(done) ResponseDemo.alice
    "/v1.41/volumes/user-1001-volume-data" HeadersDemo.request HeadersDemo.reply (λ _, event_state ResponseDemo.sv) ResponseDemo.sv).
  - intros v. cbn. rewrite !elem_of_cons, elem_of_nil. intros [[=]|[[= ->]|[]]]. vm_compute. done.
  - intros _. right. done.
  - intros [c H]. vm_compute in H. done.
  - vm_compute. done.
Defined.
