(* ===== verification/Exchange.v ===== *)
(** * Exchange: a request and its answer, from end to end

    The rest of [ServeHTTP] of [internal/forward/proxy.go] (lines 676-896): a
    request let through is answered by a prune handler or sent to the daemon
    ([Pipeline.forward]), whose answer is processed ([Response]) between the entry
    the request keeps in the event maps ([Pipeline.window]) and its removal.  What
    one request may do to the records is [request_step]; the exchange is shown to
    do nothing else, which carries the properties of those steps to the whole.

    Requests run one after the other, except that the wait for a pending build goes
    on with the database of the poll that ended it. *)

From S2P Require Import Prelude GoStrings GoJson Docker GoUrl OsLookup Identity Routes Policy Tables Database ImageDB.
From S2P Require Import ResourceDB DbReach Names Events ImagePerm Quota GoPath Storage Bodies Filter PreRequest Pipeline Prune.
From S2P Require Import Streams Response.

(** ** The exchange *)

(** The daemon while the request is served: what it answers to each attempt ([inl]
    is a failed connection, refused or not), to queries made after it, and to the
    requests of a prune. *)
Record Daemon := mkDaemon {
  da_attempts : nat → bool + Reply;
  da_docker : Docker;
  da_dangling : option body;
  da_delete : string → option (Z * body);
}.

Definition upstream_of (da : Daemon) (i : nat) : Upstream :=
  match da_attempts da i with inl refused => UpstreamError refused | inr reply => UpstreamStatus (rp_code reply) end.

Inductive Outcome :=
  | NotServed (s : Served)
  | Joined (h : Head)
  | PruneAnswer (answer : json)
  | UpstreamFailed (code : Z)
  | Answered (w : Written).

Section exchange.
Context (env : ProxyEnv) (da : Daemon).
Context (parse_json : string → body) (range : gmap string json → list (string * json)) (during : nat → EventState).

Definition prune_state (sv : Server) : PruneState := mkPruneState (sv_db sv) (completedPruneOwner (sv_maps sv)) [].
Definition after_pruning (w : PruneState) (sv : Server) : Server :=
  let m := sv_maps sv in
  mkServer (ps_db w) (mkEventState (pendingBuildTags m) (completedBuildOwner m) (pendingPullRefs m) (completedPullOwner m)
    (ps_completedPruneOwner w) (es_db m)).

(** A request sent to the daemon: the entry it keeps, the attempts, the answer.
    [forward] has read the body. *)
Definition send (id : CallerIdentity) (action : string) (r : Request) (sv : Server) : Outcome * Server :=
  let o := owner_info id in
  let w := window (env_docker (pe_env env)) (sv_db sv) id action r in
  let sv := match w with Some w => note (open_window o w) sv | None => sv end in
  let '(outcome, sv) :=
    match forward action r (upstream_of da) with
    | (_, inl code) => (UpstreamFailed code, sv)
    | (n, inr _) =>
      match da_attempts da (pred n) with
      | inl refused => (UpstreamFailed (if refused then 503 else 500)%Z, sv)
      | inr reply =>
        let '(written, sv) := postprocessResponse (da_docker da) (env_os (pe_env env)) (pe_now env) parse_json range
                                id action (RequestURI (rq_URL r)) (set_body EmptyBody r) reply during sv in
        (Answered written, sv)
      end
    end in
  (outcome, match w with Some w => note (close_window o w) sv | None => sv end).

Definition exchange (a : Arrival) (r : Request) (sv : Server) : Outcome * Server :=
  let '(served, d) := ServeHTTP env a r (sv_db sv) in
  let sv := mkServer d (sv_maps sv) in
  match served, effective_identity env <$> authenticate a with
  | Forwarded action r, Some id => send id action r sv
  | Pruned action r, Some id =>
    match answer_prune (env_docker (pe_env env)) (da_dangling da) (da_delete da) parse_json id action r (prune_state sv) with
    | Some (answer, w) => (PruneAnswer answer, after_pruning w sv)
    | None => (NotServed served, sv)
    end
  | Hijacked h, _ => (Joined h, sv)
  | _, _ => (NotServed served, sv)
  end.
End exchange.

(** ** What one request may do to the records *)

(** [polls] are the states other requests leave while this one waits. *)
Inductive request_step (polls : list OwnershipDB) (id : CallerIdentity) (d : OwnershipDB) : OwnershipDB → Prop :=
  | does_others d' : d' ∈ polls → request_step polls id d d'
  | does_container now c : request_step polls id d (SetContainerOwner now c id "" d).2
  | does_ports now ms : Forall (λ m, pm_OwnerUID m = RealUID id) ms → request_step polls id d (AddPortMappings now ms d).2
  | does_forget_container c : request_step polls id d (DeleteContainer c d).2
  | does_release c : request_step polls id d (ReleasePortMappings c d).2
  | does_image now i source : request_step polls id d (SetImageOwner now i id false source d).2
  | does_access i : request_step polls id d (EnsureImageAccess i (RealUID id) d).2
  | does_public i : IsPrivileged id = true → request_step polls id d (SetImagePublic i true d).2
  | does_drop i : request_step polls id d (RemoveUserImageAccess i (RealUID id) d).2
  | does_forget_image i : request_step polls id d (DeleteImage i d).2
  | does_network now n name : request_step polls id d (SetNetworkOwner now n name id d).2
  | does_bridge now n : request_step polls id d
      (SetManagedNetworkOwner now n (UserBridgeName (RealUID id)) (RealUID id) (RealUsername id) d).2
  | does_forget_network n : request_step polls id d (DeleteNetwork n d).2
  | does_volume now v : request_step polls id d (SetVolumeOwner now v id d).2
  | does_forget_volume v : request_step polls id d (DeleteVolume v d).2
  | does_service now s name : request_step polls id d (SetServiceOwner now s name id d).2
  | does_forget_service s : request_step polls id d (DeleteService s d).2
  | does_secret now s name : request_step polls id d (SetSecretOwner now s name id d).2
  | does_forget_secret s : request_step polls id d (DeleteSecret s d).2
  | does_config now s name : request_step polls id d (SetConfigOwner now s name id d).2
  | does_forget_config s : request_step polls id d (DeleteConfig s d).2.
Create HintDb record_steps.
#[export] Hint Constructors request_step : record_steps.

(** ** The answer does nothing else *)

Section response_steps.
Context (polls : list OwnershipDB) (id : CallerIdentity).
Abbreviation steps := (rtc (request_step polls id)).
Definition sv_steps (sv sv' : Server) : Prop := steps (sv_db sv) (sv_db sv').
Implicit Types (sv : Server).

#[export] Instance sv_steps_preorder : PreOrder sv_steps.
Proof. split; [intros sv; apply rtc_refl|intros sv1 sv2 sv3 H1 H2; unfold sv_steps in *; by etrans]. Qed.

Lemma sv_steps_refl sv : sv_steps sv sv.
Proof. reflexivity. Qed.
Lemma sv_steps_note f sv sv1 : sv_steps sv sv1 → sv_steps sv (note f sv1).
Proof. done. Qed.
Lemma sv_steps_exec f sv sv1 : (∀ d, request_step polls id d (f d).2) → sv_steps sv sv1 → sv_steps sv (exec f sv1).
Proof. intros H Hs. unfold sv_steps. etrans; [exact Hs|]. apply rtc_once, H. Qed.
Lemma sv_steps_exec_if f ok failed sv sv1 :
  (∀ d, request_step polls id d (f d).2) → (∀ sv, sv_steps sv (ok sv)) → (∀ sv, sv_steps sv (failed sv)) →
  sv_steps sv sv1 → sv_steps sv (exec_if f ok failed sv1).
Proof.
  intros Hf Hok Hno Hs. unfold exec_if. pose proof (Hf (sv_db sv1)) as H. destruct (f (sv_db sv1)) as [e d].
  transitivity (mkServer d (sv_maps sv1)); [etrans; [exact Hs|by apply rtc_once]|]. destruct e; auto.
Qed.
Lemma sv_steps_foldl {A} (f : Server → A → Server) l sv sv1 :
  (∀ sv a, sv_steps sv (f sv a)) → sv_steps sv sv1 → sv_steps sv (foldl f sv1 l).
Proof.
  intros Hf. revert sv1. induction l as [|a l IH]; intros sv1 Hs; [done|]. apply IH. by etrans; [|apply Hf].
Qed.

Ltac steps_tac := repeat first
  [ reflexivity | assumption | apply sv_steps_note
  | apply sv_steps_exec; [solve [eauto with record_steps]|]
  | apply sv_steps_exec_if; [solve [eauto with record_steps]|intros ?|intros ?|]
  | apply sv_steps_foldl; [intros ? ?|] | case_match ].

Lemma step_port_mappings now c ports d : request_step polls id d (AddPortMappings now (created_ports id c ports) d).2.
Proof. apply does_ports, Forall_fmap, Forall_true. done. Qed.
Hint Resolve step_port_mappings sv_steps_refl : record_steps.

Section handlers.
Context (docker : Docker) (os : OsFiles) (now : Z).
Context (parse_json : string → body) (range : gmap string json → list (string * json)).
Implicit Types (r : Request) (reply : Reply).

Lemma steps_record_container r c sv sv1 :
  sv_steps sv sv1 → sv_steps sv (record_container docker now id (set_body EmptyBody r) c sv1).
Proof.
  intros Hs. unfold record_container, exec at 2. change (created_image docker (set_body EmptyBody r)) with "". steps_tac.
Qed.
Lemma steps_forget_one c sv sv1 : sv_steps sv sv1 → sv_steps sv (forget_one c sv1).
Proof. intros Hs. unfold forget_one. steps_tac. Qed.
Lemma steps_take_image source i sv sv1 : sv_steps sv sv1 → sv_steps sv (take_image now id source i sv1).
Proof. intros Hs. unfold take_image. steps_tac. Qed.
Lemma steps_take_image_then source i f sv sv1 : sv_steps sv sv1 → sv_steps sv (take_image_then now id source i f sv1).
Proof. intros Hs. unfold take_image_then. steps_tac. Qed.
Lemma steps_forget_pruned uri b sv sv1 : sv_steps sv sv1 → sv_steps sv (forget_pruned uri b sv1).
Proof.
  intros Hs. unfold forget_pruned, forget_containers, forget_images, forget_volumes, forget_networks, forget_one. steps_tac.
Qed.

Hint Resolve steps_forget_one steps_take_image steps_take_image_then steps_forget_pruned steps_record_container : record_steps.

Lemma steps_after_pull uri reply sv : sv_steps sv (after_pull docker now id uri reply sv).2.
Proof.
  unfold after_pull. case_match; [reflexivity|]. cbn [snd]. case_match; [reflexivity|]. case_match; [reflexivity|].
  apply sv_steps_note. destruct (IsPrivileged id) eqn:Hp; [|by apply steps_take_image].
  cbn [andb]. case_match; [|by apply steps_take_image].
  apply sv_steps_exec; [intros d; by apply does_public|by apply steps_take_image].
Qed.
Lemma steps_rmi reply sv : sv_steps sv (after_rmi id reply sv).2.
Proof. unfold after_rmi, forget_group. steps_tac. Qed.
Lemma steps_list {E} (f : body → body * E) failed reply sv : sv_steps sv (after_list f failed reply sv).2.
Proof. unfold after_list. case_match; [done|]. by destruct (f _). Qed.

(** Whatever the daemon answers to a request of the user, the records change only
    in steps of the user. *)
Lemma steps_postprocess action uri r reply during sv :
  sv_steps sv (postprocessResponse docker os now parse_json range id action uri (set_body EmptyBody r) reply during sv).2.
Proof.
  unfold postprocessResponse. repeat case_match.
  all: first [apply steps_list|apply steps_after_pull|apply steps_rmi|reflexivity|
    unfold after_inspect, after_create, after_load, after_commit, after_df, after_swarm_inspect, after_prune,
      after_remove_container, after_import, after_build, after_tag, after_network_create, after_network_inspect,
      after_network_remove, forget_network, after_volume_create, after_volume_list, after_volume_inspect,
      after_volume_remove, forget_volume, after_service_create, after_secret_create, after_config_create, after_service_remove,
      after_secret_remove, after_config_remove, after_swarm_create, after_swarm_remove, after_info, after_other].
  all: cbn zeta; repeat first [progress cbn [snd]|reflexivity|solve [eauto with record_steps]|
         apply sv_steps_note|apply sv_steps_exec; [solve [eauto with record_steps]|]|
         apply sv_steps_foldl; [intros ? ?|]|case_match].
Qed.
End handlers.
End response_steps.

(** ** Neither do the checks *)

Section check_steps.
Context (env : ProxyEnv) (id : CallerIdentity).
Let ps : list OwnershipDB := polls (pe_env env).
Definition moves {A} (m : M A) : Prop := ∀ d, rtc (request_step ps id) d (m d).2.

Lemma moves_reads {A} (m : M A) : reads m → moves m.
Proof. intros H d. by rewrite H. Qed.
Lemma moves_bind {A B} (m : M A) (k : A → M B) : moves m → (∀ a, moves (k a)) → moves (m ≫= k).
Proof.
  intros Hm Hk d. unfold mbind, M_bind. specialize (Hm d). destruct (m d) as [[a|r|] d1]; simpl in *; [|done..].
  etrans; [exact Hm|apply Hk].
Qed.
Lemma moves_update {A} (q : OwnershipDB → A * OwnershipDB) : (∀ d, rtc (request_step ps id) d (q d).2) → moves (update q).
Proof. intros H d. unfold update. specialize (H d). by destruct (q d). Qed.
Lemma moves_once {A} (q : OwnershipDB → A * OwnershipDB) : (∀ d, request_step ps id d (q d).2) → moves (update q).
Proof. intros H. apply moves_update. intros d. apply rtc_once, H. Qed.

Hint Resolve moves_reads : record_steps.
Ltac moves_tac := repeat first
  [ apply moves_bind; [|intros ?] | apply moves_once; intros ?; solve [eauto with record_steps]
  | case_match | solve [apply moves_reads; auto with checks] ].

Lemma await_moves {A} (q : OwnershipDB → option A) l d : l ⊆ ps → rtc (request_step ps id) d (await q l d).2.
Proof.
  revert d. induction l as [|d' l IH]; intros d Hl; simpl; [done|].
  assert (rtc (request_step ps id) d d') as Hs by (apply rtc_once, does_others, Hl; left).
  destruct (q d'); [exact Hs|]. etrans; [exact Hs|]. apply IH. set_solver.
Qed.

Lemma moves_image_remove u d : rtc (request_step ps id) d (checkImageRemovePermission (pe_env env) u id d).2.
Proof.
  unfold checkImageRemovePermission. case_match; [done|]. case_match; [done|].
  assert (rtc (request_step ps id) d (find_image_owner (pe_env env) id
    (resolveImageIDByRef (env_docker (pe_env env)) (ExtractImageID (url_Path u))) d).2) as Ho.
  { unfold find_image_owner. case_match; [done|]. case_match; [by apply await_moves|done]. }
  destruct (find_image_owner _ _ _ d) as [[[[owner pub] priv]|] d1]; simpl in Ho; [|by case_match].
  etrans; [exact Ho|]. case_match; [|done].
  match goal with |- context [find_image_access ?e ?i ?x ?y] =>
    assert (rtc (request_step ps id) y (find_image_access e i x y).2) as Ha end.
  { unfold find_image_access. case_match; [done|]. case_match; [|done].
    match goal with |- context [await ?q ?l ?y] => pose proof (await_moves q l y) as Hw end.
    destruct (await _ _ _) as [[?|] ?]; by apply Hw. }
  destruct (find_image_access _ _ _ d1) as [[] d2]; simpl in Ha; [|exact Ha].
  etrans; [exact Ha|]. pose proof (does_drop ps id d2 (resolveImageIDByRef (env_docker (pe_env env)) (ExtractImageID (url_Path u)))) as H3.
  destruct (RemoveUserImageAccess _ _ d2) as [x d3]. by apply rtc_once.
Qed.

Lemma moves_image_pull u d : rtc (request_step ps id) d (checkImagePullPermission (pe_env env) u id d).2.
Proof.
  unfold checkImagePullPermission, grant_and_simulate.
  assert (∀ i (f g : Verdict), rtc (request_step ps id) d
    (match EnsureImageAccess i (RealUID id) d with (Some _, d) => (f, d) | (None, d) => (g, d) end).2) as Hg.
  { intros i f g. pose proof (does_access ps id d i) as H. destruct (EnsureImageAccess i _ d) as [[e|] d']; by apply rtc_once. }
  repeat case_match; simpl; try done; match goal with H : EnsureImageAccess ?i _ d = _ |- _ =>
    pose proof (does_access ps id d i) as Hs; rewrite H in Hs; by apply rtc_once end.
Qed.

Lemma moves_create_image r : moves (check_create_image env id r).
Proof.
  unfold check_create_image. cbv zeta.
  assert (∀ ref cfg, moves (bridgeImageAccessByRefDigest env id ref cfg)) as Hb.
  { intros ref cfg. unfold bridgeImageAccessByRefDigest. cbv zeta. moves_tac. }
  repeat first [apply Hb|apply moves_bind; [|intros ?]|apply moves_once; intros ?; solve [eauto with record_steps]
    |case_match|solve [apply moves_reads; auto with checks]].
Qed.

Lemma moves_create r : moves (check_create env id r).
Proof.
  unfold check_create. apply moves_bind; [apply moves_create_image|intros ?].
  assert (moves (checkCreateContainerNetworks id r)) as Hn.
  { unfold checkCreateContainerNetworks. moves_tac. }
  assert (∀ b, moves (check_create_quota env id b)) as Hq by (intros b; unfold check_create_quota; moves_tac).
  apply moves_bind; [case_match; [by apply moves_reads|exact Hn]|intros _].
  apply moves_bind; [apply Hq|intros b]. case_match; [by apply moves_reads|].
  unfold create_body_checks, check_bind_mounts, check_tmpfs, check_devices, check_volumes_from, check_named_volumes,
    checkPortConflict, ensure_bridge. moves_tac.
Qed.

Lemma moves_checks action r : moves (checkOwnershipPreRequest env id action r).
Proof.
  unfold checkOwnershipPreRequest.
  apply moves_bind; [apply moves_reads; auto with checks|intros _].
  apply moves_bind; [apply moves_reads; auto with checks|intros _].
  apply moves_bind; [case_match; [apply moves_create|by apply moves_reads]|intros r1].
  apply moves_bind.
  { unfold check_image. case_match; [apply moves_reads; auto with checks|].
    case_match; [apply moves_bind; [apply moves_update, moves_image_remove|intros v; apply moves_reads; auto with checks]|].
    case_match; [apply moves_bind; [apply moves_update, moves_image_pull|intros v; apply moves_reads; auto with checks]|].
    moves_tac. }
  intros _. apply moves_bind; [apply moves_reads; auto with checks|intros _].
  apply moves_bind; [case_match; apply moves_reads; auto with checks|intros r2].
  apply moves_reads. unfold check_service, check_secret, check_config.
  repeat first [apply reads_bind; [|intros ?]|solve [auto with checks]].
Qed.
End check_steps.

(** ** Neither do the prune handlers *)

Section prune_steps.
Context (polls : list OwnershipDB) (id : CallerIdentity).
Context (docker : Docker) (dangling : option body) (delete : string → option (Z * body)) (parse_json : string → body).
Definition ps_steps (w w' : PruneState) : Prop := rtc (request_step polls id) (ps_db w) (ps_db w').
#[export] Instance ps_steps_preorder : PreOrder ps_steps.
Proof. split; [intros w; apply rtc_refl|intros w1 w2 w3 H1 H2; unfold ps_steps in *; by etrans]. Qed.

Lemma ps_steps_exec f w w1 : ps_db w1 = ps_db w → (∀ d, request_step polls id d (f d).2) → ps_steps w (ps_exec f w1).
Proof. intros E H. unfold ps_steps. rewrite <- E. apply rtc_once, H. Qed.

Lemma ps_steps_each path success wanted forget cs w :
  (∀ c w, ps_steps w (forget c w)) → ps_steps w (prune_each delete path success wanted forget cs w).2.
Proof.
  intros Hf. revert w. induction cs as [|c cs IH]; intros w; cbn [prune_each]; [done|].
  case_match; [apply IH|]. change (ps_steps w) with (ps_steps (ps_send (path c) w)).
  destruct (delete (path c)) as [[code answer]|]; [|apply IH]. case_match; [|apply IH].
  specialize (IH (forget c (ps_send (path c) w))). destruct (prune_each _ _ _ _ _ cs _) as [l w']. etrans; [apply Hf|exact IH].
Qed.

Lemma ps_steps_images uid ids w : ps_steps w (prune_images delete uid ids w).2.
Proof. apply ps_steps_each. intros c w1. apply ps_steps_exec; auto with record_steps. Qed.
Lemma ps_steps_networks ids w : ps_steps w (prune_networks delete ids w).2.
Proof.
  unfold prune_networks.
  pose proof (ps_steps_each network_path deleted_code (λ netID _, isValidHexID netID) (λ netID, ps_exec (DeleteNetwork netID)) ids w) as H.
  destruct (prune_each _ _ _ _ _ ids w). apply H. intros c w1. apply ps_steps_exec; auto with record_steps.
Qed.
Lemma ps_steps_container c w : ps_steps w (forget_container c w).
Proof. unfold forget_container. transitivity (ps_exec (DeleteContainer c) w); apply ps_steps_exec; auto with record_steps. Qed.
Lemma ps_steps_containers uid w : ps_steps w (system_containers delete uid w).2.
Proof.
  unfold system_containers. case_match; [done|].
  match goal with |- context [prune_each ?a ?b ?c ?e ?f ?g w] => pose proof (ps_steps_each b c e f g w ps_steps_container) as Hs end.
  by destruct (prune_each _ _ _ _ _ _ w).
Qed.
Lemma ps_steps_volumes uid w : ps_steps w (system_volumes delete uid w).2.
Proof.
  unfold system_volumes. case_match; [done|].
  match goal with |- context [prune_each ?a ?b ?c ?e ?f ?g w] => pose proof (ps_steps_each b c e f g w) as Hs end.
  destruct (prune_each _ _ _ _ _ _ w). apply Hs. intros v w1. apply ps_steps_exec; auto with record_steps.
Qed.

Lemma ps_steps_answer action r w ans w' :
  answer_prune docker dangling delete parse_json id action r w = Some (ans, w') → ps_steps w w'.
Proof.
  unfold answer_prune, handleVolumePrune, handleContainerPrune, handleImagePrune, handleNetworkPrune, handleSystemPrune.
  case_match; [done|]. case_match.
  { case_match; [|by intros [= _ <-]]. case_match; [by intros [= _ <-]|].
    match goal with |- context [prune_each ?a ?b ?c ?e ?f ?g w] => pose proof (ps_steps_each b c e f g w) as Hs end.
    destruct (prune_each _ _ _ _ _ _ w) as [done1 w1]. intros [= _ <-]. apply Hs. intros v w2.
    apply ps_steps_exec; auto with record_steps. }
  case_match.
  { case_match; [done|]. case_match; [by intros [= _ <-]|].
    match goal with |- context [prune_each ?a ?b ?c ?e ?f ?g w] => pose proof (ps_steps_each b c e f g w) as Hs end.
    destruct (prune_each _ _ _ _ _ _ w) as [done1 w1]. intros [= _ <-]. apply Hs. intros c w2.
    change (ps_steps w2) with (ps_steps (ps_note ("container:" +:+ c) (mkPruneOwnerInfo (RealUID id) 0) w2)).
    apply ps_steps_container. }
  case_match.
  { case_match; [done|]. case_match; [|by intros [= _ <-]].
    match goal with |- context [prune_images delete ?u ?l w] => pose proof (ps_steps_images u l w) as Hs end.
    destruct (prune_images _ _ _ w) as [x w1]. by intros [= _ <-]. }
  case_match.
  { case_match; [done|]. case_match; [by intros [= _ <-]|].
    match goal with |- context [prune_networks delete ?l w] => pose proof (ps_steps_networks l w) as Hs end.
    destruct (prune_networks _ _ w) as [x w1]. by intros [= _ <-]. }
  case_match; [|done]. case_match; [done|].
  pose proof (ps_steps_containers (RealUID id) w) as Hc. destruct (system_containers _ _ w) as [cs w1].
  assert (ps_steps w1 (system_images dangling delete (RealUID id) w1).2) as Hi.
  { unfold system_images. case_match; [|done]. match goal with |- context [prune_images delete ?u ?l w1] =>
      pose proof (ps_steps_images u l w1) as Hs end. by destruct (prune_images _ _ _ w1). }
  destruct (system_images _ _ _ w1) as [imgs w2].
  assert (ps_steps w2 (system_networks delete (RealUID id) w2).2) as Hn.
  { unfold system_networks. case_match; [done|]. apply ps_steps_networks. }
  destruct (system_networks _ _ w2) as [ns w3].
  pose proof (ps_steps_volumes (RealUID id) w3) as Hv. destruct (system_volumes _ _ w3) as [vs w4].
  intros [= _ <-]. simpl in *. by etrans; [|etrans; [|etrans]].
Qed.
End prune_steps.

(** ** The whole *)

Section whole.
Context (env : ProxyEnv) (da : Daemon) (parse_json : string → body) (range : gmap string json → list (string * json)) (during : nat → EventState).

Lemma send_steps l id action r sv :
  rtc (request_step l id) (sv_db sv) (sv_db (send env da parse_json range during id action r sv).2).
Proof.
  unfold send. set (w := window _ _ _ _ _).
  assert (∀ sv', sv_db (match w with Some w => note (close_window (owner_info id) w) sv' | None => sv' end) = sv_db sv') as Hc
    by (by destruct w).
  assert (sv_db (match w with Some w => note (open_window (owner_info id) w) sv | None => sv end) = sv_db sv) as Ho by (by destruct w).
  destruct (match w with Some w => note (open_window (owner_info id) w) sv | None => sv end) as [d m]. simpl in Ho. subst d.
  destruct (forward _ _ _) as [n [code|code]]; [cbn [snd]; by rewrite Hc|].
  destruct (da_attempts da (pred n)) as [refused|reply]; [cbn [snd]; by rewrite Hc|].
  match goal with |- context [postprocessResponse ?a ?b ?c ?d ?e ?f ?g ?h (set_body EmptyBody r) ?j ?k ?s] =>
    pose proof (steps_postprocess l f a b c d e g h r j k s) as H;
    destruct (postprocessResponse a b c d e f g h (set_body EmptyBody r) j k s) as [written sv1] end.
  cbn [snd]. rewrite Hc. exact H.
Qed.

Lemma ServeHTTP_steps a id0 r d :
  authenticate a = Some id0 →
  rtc (request_step (polls (pe_env env)) (effective_identity env id0)) d (ServeHTTP env a r d).2.
Proof.
  intros Ha. unfold ServeHTTP. case_match; [done|]. rewrite Ha. case_match; [done|].
  change (set_ConfigPrivileged _ id0) with (effective_identity env id0).
  set (id := effective_identity env id0). set (r1 := if IsPrivileged id then r else rewrite_urls id r).
  case_match.
  - unfold serve_hijack, handleHijack. case_match; [done|]. case_match; [done|].
    pose proof (moves_checks env id (request_action id r1) r1 d) as Hck. by destruct (checkOwnershipPreRequest _ _ _ _ d) as [[] ?].
  - unfold serve_request. case_match; [done|].
    pose proof (moves_checks env id (request_action id r1) r1 d) as Hck.
    destruct (checkOwnershipPreRequest _ _ _ _ d) as [[r2|rj|] d2]; [|done..].
    case_match; [done|]. by destruct (preprocessRequest _ _ _).
Qed.

Lemma exchange_unauthenticated a r sv :
  authenticate a = None → sv_db (exchange env da parse_json range during a r sv).2 = sv_db sv.
Proof.
  intros Ha. unfold exchange, ServeHTTP. rewrite Ha. by destruct (negb _).
Qed.

Lemma exchange_steps a id0 r sv :
  authenticate a = Some id0 →
  rtc (request_step (polls (pe_env env)) (effective_identity env id0)) (sv_db sv)
    (sv_db (exchange env da parse_json range during a r sv).2).
Proof.
  intros Ha. pose proof (ServeHTTP_steps a id0 r (sv_db sv) Ha) as H. unfold exchange. rewrite Ha.
  destruct (ServeHTTP env a r (sv_db sv)) as [s d]. simpl in H. etrans; [exact H|].
  destruct s as [| |e|act|rj| |act r1|h|act r1]; try done.
  - cbn [fmap option_fmap option_map].
    destruct (answer_prune _ _ _ _ _ act r1 _) as [[ans w]|] eqn:E; [|done].
    by apply (ps_steps_answer (polls (pe_env env))) in E.
  - apply (send_steps _ _ act r1 (mkServer d (sv_maps sv))).
Qed.
End whole.

(** ** Who the new records name *)

(** Rows that are not of before, and not of a state other requests left, are the
    caller's; and the container ones name no image. *)
Definition rows_from {R} (polls : list OwnershipDB) (t : OwnershipDB → list R) (own : R → Prop) (d d' : OwnershipDB) : Prop :=
  ∀ row, row ∈ t d' → row ∈ t d ∨ (∃ p, p ∈ polls ∧ row ∈ t p) ∨ own row.
(** An image with its owner, and a reference to an image with its holder. *)
Definition image_owners (d : OwnershipDB) : list (string * Z) := (λ r, (i_image_id r, i_owner_uid r)) <$> images d.
Definition image_holders (d : OwnershipDB) : list (string * Z) := (λ r, (a_image_id r, a_user_uid r)) <$> image_access d.

Record attributed (polls : list OwnershipDB) (uid : Z) (d d' : OwnershipDB) : Prop := {
  at_containers : rows_from polls containers (λ r, c_owner_uid r = uid ∧ c_image_id r = "") d d';
  at_networks : rows_from polls networks (λ r, n_owner_uid r = uid) d d';
  at_volumes : rows_from polls volumes (λ r, v_owner_uid r = uid) d d';
  at_ports : rows_from polls port_mappings (λ r, p_owner_uid r = uid) d d';
  at_services : rows_from polls swarm_services (λ r, s_owner_uid r = uid) d d';
  at_secrets : rows_from polls swarm_secrets (λ r, s_owner_uid r = uid) d d';
  at_configs : rows_from polls swarm_configs (λ r, s_owner_uid r = uid) d d';
  at_images : rows_from polls image_owners (λ r, r.2 = uid) d d';
  at_references : rows_from polls image_holders (λ r, r.2 = uid) d d';
}.

Section attribution.
Context (ps : list OwnershipDB) (id : CallerIdentity).
Let uid : Z := RealUID id.
Implicit Types (d : OwnershipDB).

Lemma rows_from_refl {R} t (own : R → Prop) d : rows_from ps t own d d.
Proof. intros row H. by left. Qed.
Lemma rows_from_trans {R} t (own : R → Prop) d1 d2 d3 :
  rows_from ps t own d1 d2 → rows_from ps t own d2 d3 → rows_from ps t own d1 d3.
Proof. intros H1 H2 row [H|[H|H]]%H2; [by apply H1|by right; left|by right; right]. Qed.

#[export] Instance attributed_preorder : PreOrder (attributed ps uid).
Proof.
  split; [intros d; split; apply rows_from_refl|].
  intros d1 d2 d3 [] []. split; by eapply rows_from_trans.
Qed.

Lemma attributed_poll d d' : d' ∈ ps → attributed ps uid d d'.
Proof. intros H. split; intros row Hrow; right; left; eauto. Qed.

Lemma attributed_Exec f d : attributed ps uid d (f d) → attributed ps uid d (Exec f d).2.
Proof.
  intros H. apply (Exec_ind (attributed ps uid d)); [|done|done]. intros w d' [].
  destruct d'. by split.
Qed.

(** One table changed. *)
Definition adds {R} (own : R → Prop) (f : list R → list R) : Prop := ∀ t row, row ∈ f t → row ∈ t ∨ own row.

Ltac table_tac := let d := fresh "d" in let row := fresh "row" in let Hrow := fresh "Hrow" in let x := fresh "x" in
  intros d; apply attributed_Exec; destruct d; split; intros row Hrow; simpl in *;
  first [by left | match goal with Ha : adds _ ?f |- _ => destruct (Ha _ _ Hrow); [by left|by right; right] end].

Lemma attr_containers f : adds (λ r, c_owner_uid r = uid ∧ c_image_id r = "") f → ∀ d, attributed ps uid d (Exec (on_containers f) d).2.
Proof. intros Ha. table_tac. Qed.
Lemma attr_networks f : adds (λ r, n_owner_uid r = uid) f → ∀ d, attributed ps uid d (Exec (on_networks f) d).2.
Proof. intros Ha. table_tac. Qed.
Lemma attr_network_access f d : attributed ps uid d (Exec (on_network_access f) d).2.
Proof. revert d. table_tac. Qed.
Lemma attr_volumes f : adds (λ r, v_owner_uid r = uid) f → ∀ d, attributed ps uid d (Exec (on_volumes f) d).2.
Proof. intros Ha. table_tac. Qed.
Lemma attr_ports f : adds (λ r, p_owner_uid r = uid) f → ∀ d, attributed ps uid d (Exec (on_port_mappings f) d).2.
Proof. intros Ha. table_tac. Qed.
Lemma attr_services f : adds (λ r, s_owner_uid r = uid) f → ∀ d, attributed ps uid d (Exec (on_swarm_services f) d).2.
Proof. intros Ha. table_tac. Qed.
Lemma attr_secrets f : adds (λ r, s_owner_uid r = uid) f → ∀ d, attributed ps uid d (Exec (on_swarm_secrets f) d).2.
Proof. intros Ha. table_tac. Qed.
Lemma attr_configs f : adds (λ r, s_owner_uid r = uid) f → ∀ d, attributed ps uid d (Exec (on_swarm_configs f) d).2.
Proof. intros Ha. table_tac. Qed.
Lemma attr_images f :
  (∀ t row, row ∈ f t → (∃ r, r ∈ t ∧ i_image_id r = i_image_id row ∧ i_owner_uid r = i_owner_uid row) ∨ i_owner_uid row = uid) →
  ∀ d, attributed ps uid d (Exec (on_images f) d).2.
Proof.
  intros Ha d. apply attributed_Exec. destruct d. split; intros row Hrow; try by left. unfold image_owners in *. simpl in *.
  apply list_elem_of_fmap in Hrow as (x & -> & [(r & Hr & <- & <-)|Hu]%Ha); [|by right; right].
  left. apply list_elem_of_fmap. by exists r.
Qed.
Lemma attr_access f :
  (∀ t row, row ∈ f t → (∃ r, r ∈ t ∧ a_image_id r = a_image_id row ∧ a_user_uid r = a_user_uid row) ∨ a_user_uid row = uid) →
  ∀ d, attributed ps uid d (Exec (on_image_access f) d).2.
Proof.
  intros Ha d. apply attributed_Exec. destruct d. split; intros row Hrow; try by left. unfold image_holders in *. simpl in *.
  apply list_elem_of_fmap in Hrow as (x & -> & [(r & Hr & <- & <-)|Hu]%Ha); [|by right; right].
  left. apply list_elem_of_fmap. by exists r.
Qed.

Lemma adds_replace {R K} `{!Keyed R K} `{!EqDecision K} (own : R → Prop) row : own row → adds own (tbl_replace row).
Proof. intros Ho t x [->|[? _]]%elem_of_tbl_replace; [by right|by left]. Qed.
Lemma adds_delete {R K} `{!Keyed R K} `{!EqDecision K} (own : R → Prop) (k : K) : adds own (tbl_delete k).
Proof. intros t x [? _]%elem_of_tbl_delete. by left. Qed.
Lemma adds_delete_where {R} (own : R → Prop) p : adds own (tbl_delete_where p).
Proof. intros t x [? _]%elem_of_tbl_delete_where. by left. Qed.
Lemma adds_snoc {R} (own : R → Prop) row : own row → adds own (λ t, t ++ [row]).
Proof. intros Ho t x [? | ->%list_elem_of_singleton]%elem_of_app; [by left|by right]. Qed.
Lemma elem_of_tbl_update {R K} `{!Keyed R K} `{!EqDecision K} (k : K) (f : R → R) (t : list R) row :
  row ∈ tbl_update k f t → row ∈ t ∨ ∃ r, r ∈ t ∧ key_of r = k ∧ row = f r.
Proof.
  unfold tbl_update. intros (r & -> & Hr)%list_elem_of_fmap. simpl. destruct (has_key k r) eqn:E; [right|by left].
  exists r. apply (proj1 (has_key_spec k r)) in E. auto.
Qed.
End attribution.

Section attributed_steps.
Context (ps : list OwnershipDB) (id : CallerIdentity).
Let uid : Z := RealUID id.

Lemma attr_EnsureImageAccess i d : attributed ps uid d (EnsureImageAccess i uid d).2.
Proof.
  apply (attr_access ps id). intros t row. unfold tbl_insert_ignore. case_match; [eauto|].
  intros [? | ->%list_elem_of_singleton]%elem_of_app; [eauto|by right].
Qed.

Lemma upsert_images row : i_owner_uid row = uid →
  ∀ t x, x ∈ tbl_upsert row (image_conflict row) t →
  (∃ r, r ∈ t ∧ i_image_id r = i_image_id x ∧ i_owner_uid r = i_owner_uid x) ∨ i_owner_uid x = uid.
Proof.
  intros Hu t x. unfold tbl_upsert. case_match.
  - intros [?|(r & Hr & _ & ->)]%elem_of_tbl_update; [eauto|]. unfold image_conflict. case_match; [by right|eauto].
  - intros [? | ->%list_elem_of_singleton]%elem_of_app; [eauto|by right].
Qed.
Lemma upsert_access row : a_user_uid row = uid →
  ∀ t x, x ∈ tbl_upsert row (access_conflict row) t →
  (∃ r, r ∈ t ∧ a_image_id r = a_image_id x ∧ a_user_uid r = a_user_uid x) ∨ a_user_uid x = uid.
Proof.
  intros Hu t x. unfold tbl_upsert. case_match.
  - intros [?|(r & Hr & _ & ->)]%elem_of_tbl_update; [eauto|]. left. by exists r.
  - intros [? | ->%list_elem_of_singleton]%elem_of_app; [eauto|by right].
Qed.

Lemma attr_SetImageOwner now i source d : attributed ps uid d (SetImageOwner now i id false source d).2.
Proof.
  unfold SetImageOwner.
  match goal with |- context [Exec (on_images (tbl_upsert ?row _)) d] =>
    pose proof (attr_images ps id _ (upsert_images row eq_refl) d) as H1; destruct (Exec _ d) as [[e|] d1]; [exact H1|];
    match goal with |- context [Exec (on_image_access (tbl_upsert ?acc _)) d1] =>
      pose proof (attr_access ps id _ (upsert_access acc eq_refl) d1) as H2; etrans; [exact H1|exact H2] end end.
Qed.

Lemma attr_deleted_access p d : attributed ps uid d (Exec (on_image_access (tbl_delete_where p)) d).2.
Proof. apply (attr_access ps id). intros t row [? _]%elem_of_tbl_delete_where. eauto. Qed.

Lemma attr_RemoveUserImageAccess i d : attributed ps uid d (RemoveUserImageAccess i uid d).2.
Proof.
  unfold RemoveUserImageAccess.
  match goal with |- context [Exec ?f d] => assert (attributed ps uid d (Exec f d).2) as H1 by apply attr_deleted_access;
    destruct (Exec f d) as [[e|] d1]; [exact H1|] end.
  by case_match.
Qed.
Lemma attr_DeleteImage i d : attributed ps uid d (DeleteImage i d).2.
Proof.
  unfold DeleteImage. cbv zeta. generalize (if resolveImageIDInDB i d !=s "" then resolveImageIDInDB i d else normalizeImageID i). intros k.
  pose proof (attr_deleted_access (refs_image k) d) as H1. destruct (Exec _ d) as [e d1]. etrans; [exact H1|].
  apply (attr_images ps id). intros t row [? _]%elem_of_tbl_delete. eauto.
Qed.
Lemma attr_SetImagePublic i b d : attributed ps uid d (SetImagePublic i b d).2.
Proof. apply (attr_images ps id). intros t row [?|(r & Hr & _ & ->)]%elem_of_tbl_update; eauto. Qed.
Lemma attr_DeleteNetwork n d : attributed ps uid d (DeleteNetwork n d).2.
Proof.
  unfold DeleteNetwork. pose proof (attr_networks ps id (tbl_delete n) (adds_delete _ n) d) as H1.
  destruct (Exec _ d) as [[e|] d1]; [exact H1|]. etrans; [exact H1|apply attr_network_access].
Qed.
Lemma attr_AddPortMappings now ms d :
  Forall (λ m, pm_OwnerUID m = uid) ms → attributed ps uid d (AddPortMappings now ms d).2.
Proof.
  intros H. revert d. induction H as [|m ms Hm _ IH]; intros d; simpl; [done|].
  assert (attributed ps uid d (InsertPort (port_row now m) d).2) as H1.
  { unfold InsertPort. case_match; [done|]. case_match; [done|]. by apply (attr_ports ps id), adds_snoc. }
  destruct (InsertPort _ d) as [[e|] d1]; [by destruct (scan_or _ _) as [[??]?]|]. etrans; [exact H1|apply IH].
Qed.

Lemma step_attributed d d' : request_step ps id d d' → attributed ps uid d d'.
Proof.
  destruct 1; try solve [by apply attributed_poll | by apply (attr_containers ps id), adds_replace
    | apply (attr_containers ps id), adds_delete | by apply attr_AddPortMappings | apply (attr_ports ps id), adds_delete_where
    | apply attr_SetImageOwner | apply attr_EnsureImageAccess | apply attr_SetImagePublic | apply attr_RemoveUserImageAccess
    | apply attr_DeleteImage | by apply (attr_networks ps id), adds_replace | apply attr_DeleteNetwork
    | by apply (attr_volumes ps id), adds_replace | apply (attr_volumes ps id), adds_delete
    | by apply (attr_services ps id), adds_replace | apply (attr_services ps id), adds_delete
    | by apply (attr_secrets ps id), adds_replace | apply (attr_secrets ps id), adds_delete
    | by apply (attr_configs ps id), adds_replace | apply (attr_configs ps id), adds_delete].
Qed.
Lemma steps_attributed d d' : rtc (request_step ps id) d d' → attributed ps uid d d'.
Proof. induction 1 as [|d1 d2 d3 Hs _ IH]; [done|]. etrans; [by apply step_attributed|exact IH]. Qed.

(** Each step is one of the operations of the database. *)
Lemma step_reachable d d' : Forall reachable ps → request_step ps id d d' → reachable d → reachable d'.
Proof.
  intros Hps Hs Hd. assert (∀ d', db_step d d' → reachable d') as Hr.
  { intros x Hx. unfold reachable in *. by eapply rtc_r. }
  destruct Hs; try (apply Hr; constructor).
  - rewrite Forall_forall in Hps. by apply Hps.
  - apply Hr. apply (step_image d (OpSetImageOwner now i id false source)).
  - apply Hr. apply (step_image d (OpEnsureImageAccess i (RealUID id))).
  - apply Hr. apply (step_image d (OpRemoveUserImageAccess i (RealUID id))).
  - apply Hr. apply (step_image d (OpDeleteImage i)).
Qed.
Lemma steps_reachable d d' : Forall reachable ps → rtc (request_step ps id) d d' → reachable d → reachable d'.
Proof. intros Hps. induction 1; [done|]. eauto using step_reachable. Qed.
End attributed_steps.

(** ** Properties *)

Section laws.
Context (env : ProxyEnv) (da : Daemon) (parse_json : string → body) (range : gmap string json → list (string * json)) (during : nat → EventState).

(** C7: An exchange is steps of its caller.  From the arrival of a request to its
    answer, whatever the request, the checks, the daemon's answers and the prune
    handlers, the records change only by operations that [request_step] allows the
    caller as the policy in force sees it (containers recorded without an image
    and for the caller, references of the caller, the publication of images for
    privileged callers alone, ...); a request without an identity changes nothing. *)
Theorem exchange_refines_steps a r sv :
  let sv' := (exchange env da parse_json range during a r sv).2 in
  match authenticate a with
  | Some id0 => rtc (request_step (polls (pe_env env)) (effective_identity env id0)) (sv_db sv) (sv_db sv')
  | None => sv_db sv' = sv_db sv
  end.
Proof.
  intros sv'. destruct (authenticate a) as [id0|] eqn:Ha; [by apply exchange_steps|by apply exchange_unauthenticated].
Qed.

(** C1: Nobody is given anything by another's request.  Every record of a container,
    network, volume, host port, service, secret or config, every owner of an image
    and every holder of a reference that is there after an exchange was there
    before, or in a state that ended a wait, or is the caller's. *)
Theorem exchange_attributes_records a id0 r sv :
  authenticate a = Some id0 →
  attributed (polls (pe_env env)) (RealUID id0) (sv_db sv) (sv_db (exchange env da parse_json range during a r sv).2).
Proof.
  intros Ha. change (RealUID id0) with (RealUID (effective_identity env id0)). apply steps_attributed. by apply exchange_steps.
Qed.

(** The entry that keeps the deletion of an image from other users does not last.
    When a privileged user removes an image that has no record, the answer leaves
    an entry in the map for the events still to come; the deferred removal of the
    entry made before the request was sent, which has the same key and the same
    value, then takes it away. *)
Theorem rmi_grace_entry_is_lost id r sv reply i :
  IsPrivileged id = true → ExtractImageID (url_Path (rq_URL r)) ≠ "" →
  resolveImageIDByRef (env_docker (pe_env env)) (ExtractImageID (url_Path (rq_URL r))) = i → i ≠ "" →
  GetImageOwner i (sv_db sv) = None →
  da_attempts da 0 = inr reply → rp_code reply = 200%Z → rp_complete reply = true →
  rp_body reply = Doc (JArr [JObj [("Deleted", JStr i)]]) →
  let key := "image:" +:+ i in
  completedPruneOwner (sv_maps (after_rmi id reply sv).2) !! key = Some (owner_info id) ∧
  completedPruneOwner (sv_maps (send env da parse_json range during id ActionRemoveImage r sv).2) !! key = None.
Proof.
  intros Hp Href%String.eqb_neq Hres Hi Hown Hda Hcode Hcomplete Hbody key. pose proof Hi as Hine. apply String.eqb_neq in Hi.
  assert (∀ sv1, sv_db sv1 = sv_db sv → after_rmi id reply sv1 =
    (Copied 200, exec (DeleteImage i) (note (with_prune key (owner_info id)) sv1))) as Hafter.
  { intros sv1 E. unfold after_rmi. rewrite Hcomplete, Hcode, Hbody. cbn [negb ok_code]. change (ok_code 200) with true. cbv iota.
    assert (unmarshal_body (decode_list decode_pruneDeleted (mkPruneDeleted "" "")) []
      (Doc (JArr [JObj [("Deleted", JStr i)]])) = Some [mkPruneDeleted i ""]) as -> by reflexivity.
    assert (rmi_groups [mkPruneDeleted i ""] = [mkGroup i []]) as ->.
    { unfold rmi_groups. cbn [foldl]. unfold group_item. cbn [pd_Deleted pd_Untagged]. rewrite Hi. cbn [negb fst].
      cbn [app foldl]. unfold merge_group. cbn [deletedID untagged]. by rewrite Hi. }
    cbn [foldl]. unfold forget_group, rmi_entry. cbn [deletedID untagged]. rewrite E, Hown, Hp. done. }
  assert (window (env_docker (pe_env env)) (sv_db sv) id ActionRemoveImage r = Some (PruneWindow key)) as Hwin.
  { unfold window.
    change (ActionRemoveImage ==s ActionPull) with false. change (ActionRemoveImage ==s ActionCommit) with false.
    change (ActionRemoveImage ==s ActionVolumeCreate) with false. change (ActionRemoveImage ==s ActionNetworkCreate) with false.
    change (ActionRemoveImage ==s ActionRemoveImage) with true. rewrite Hp, Href, Hres, Hi, Hown. done. }
  split.
  { rewrite Hafter by done. cbn. apply lookup_insert_eq. }
  unfold send. rewrite Hwin.
  assert (forward ActionRemoveImage r (upstream_of da) = (1, inr 200%Z)) as ->.
  { assert (upstream_of da 0 = UpstreamStatus 200) as Hu by (unfold upstream_of; by rewrite Hda, Hcode).
    unfold forward, maxRetries. cbn [attempts]. rewrite Hu. change (transient (UpstreamStatus 200)) with false. by rewrite andb_false_r. }
  cbn [pred]. rewrite Hda.
  change (postprocessResponse ?d ?o ?n ?p ?ra id ActionRemoveImage ?u ?rq reply ?du ?s) with (after_rmi id reply s).
  rewrite Hafter by done. cbn. unfold delete_if. rewrite decide_True by apply lookup_insert_eq. apply lookup_delete_eq.
Qed.
End laws.

(** ** The records that requests build up *)

(** From a fresh database, by exchanges and changes of the engine's health, one
    request's waits ending in states built up the same way. *)
Inductive served : OwnershipDB → Prop :=
  | served_fresh : served initSchema
  | served_engine w d : served d → served (set_writes_left w d)
  | served_exchange env da parse_json range during a r sv :
      served (sv_db sv) → (∀ p, p ∈ polls (pe_env env) → served p) →
      served (sv_db (exchange env da parse_json range during a r sv).2).

(** Strengthened with what the steps keep. *)
Lemma served_ind' (P : OwnershipDB → Prop) :
  P initSchema → (∀ w d, P d → P (set_writes_left w d)) →
  (∀ ps id d d', (∀ p, p ∈ ps → P p) → rtc (request_step ps id) d d' → P d → P d') →
  ∀ d, served d → P d.
Proof.
  intros H0 He Hs. fix IH 2. intros d [|w d' Hd|env da parse_json range during a r sv Hd Hp]; [done|by apply He, IH|].
  destruct (authenticate a) as [id0|] eqn:Ha.
  - eapply Hs; [|by apply (exchange_steps env da parse_json range during a id0 r sv Ha)|by apply IH]. intros p Hin. by apply IH, Hp.
  - rewrite exchange_unauthenticated by done. by apply IH.
Qed.

(** Whatever requests have been served, the database is well formed. *)
Theorem served_database_wf d : served d → db_wf d.
Proof.
  intros Hd. apply reachable_wf. revert d Hd. apply served_ind'.
  - apply rtc_refl.
  - intros w d Hd. unfold reachable in *. eapply rtc_r; [exact Hd|apply step_engine].
  - intros ps id d d' Hps. apply steps_reachable. by apply Forall_forall.
Qed.

(** The image of a container is never recorded.  The answer to a creation is
    processed when the body of its request has been read to the end, and so the
    image it names is not found there: in no database that requests have built up
    does a container of anyone use an image, and the check that keeps an image its
    owner's containers still use from being removed never holds anything back. *)
Theorem container_image_never_recorded d uid image :
  served d → image ≠ "" → HasContainerUsingImage uid image d ≠ inr true.
Proof.
  intros Hd Hi. assert (∀ row, row ∈ containers d → c_image_id row = "") as Hno.
  { revert d Hd. apply (served_ind' (λ d, ∀ row, row ∈ containers d → c_image_id row = "")).
    - by intros row Hr%elem_of_nil.
    - intros w d Hd. by destruct d.
    - intros ps id d d' Hps Hs Hd row Hr. apply steps_attributed in Hs.
      destruct (at_containers _ _ _ _ Hs row Hr) as [H|[(p & Hp & H)|[_ H]]]; [by apply Hd|by apply (Hps p)|done]. }
  unfold HasContainerUsingImage, Query. destruct (db_down d); [done|]. intros [= H%Nat.ltb_lt%tbl_count_pos].
  destruct H as (row & Hr & [_ Hrow]%andb_true_iff). apply String.eqb_eq in Hrow. rewrite (Hno row Hr) in Hrow. congruence.
Qed.

(** ** Examples *)

Module ExchangeDemo.

Definition bob : CallerIdentity := ImageDemo.bob.
Definition container_id : string := "00112233445566778899aabbccddeeff".
Definition st : EventState := mkEventState ∅ ∅ ∅ ∅ ∅ None.

Definition reply (code : Z) (b : body) : Reply := mkReply code [] "" b [] true.
(** A daemon that answers so, at the first attempt. *)
Definition daemon (r : Reply) : Daemon := mkDaemon (λ _, inr r) (env_docker PermDemo.env) None (λ _, None).

Definition run_exchange (id : CallerIdentity) (r : Request) (rp : Reply) (sv : Server) : Outcome * Server :=
  exchange PipelineDemo.env (daemon rp) (λ _, InvalidBody) map_to_list (λ _, st) (PipelineDemo.arrival id) r sv.

Definition fresh : Server := mkServer initSchema st.
(** bob pulls the image [app], and then creates a container from it. *)
Definition pull_app : Request := plain_request "POST" "/images/create" "fromImage=app" EmptyBody.
Definition create_web : Request :=
  plain_request "POST" "/v1.41/containers/create" "name=web" (Doc (JObj [("Image", JStr "app")])).
Definition pulled : Server := (run_exchange bob pull_app (reply 200 EmptyBody) fresh).2.
Definition created_reply : Reply := reply 201 (Doc (JObj [("Id", JStr container_id)])).
Definition created : Server := (run_exchange bob create_web created_reply pulled).2.

Example pull_and_create :
  CanUseImage 1002 ImageDemo.digest (sv_db pulled) = true ∧
  c_owner_uid <$> tbl_lookup container_id (containers (sv_db created)) = Some 1002%Z.
Proof. split; vm_compute; reflexivity. Qed.

Lemma created_served : served (sv_db created).
Proof.
  unfold created, run_exchange. apply served_exchange; [|intros p Hp; by apply elem_of_nil in Hp].
  unfold pulled, run_exchange. apply served_exchange; [apply served_fresh|intros p Hp; by apply elem_of_nil in Hp].
Qed.

(** root removes an image without a record. *)
Definition root : CallerIdentity := tcp_identity "root" 0 0 AuthSourceJWT.
Definition rmi : Request := plain_request "DELETE" "/images/app" "" EmptyBody.
Definition rmi_reply : Reply := reply 200 (Doc (JArr [JObj [("Deleted", JStr ImageDemo.digest)]])).

End ExchangeDemo.

(** ** Witnesses *)

Lemma exchange_attributes_records_witness :
  attributed [] 1002 (sv_db ExchangeDemo.pulled) (sv_db ExchangeDemo.created) ∧
  containers (sv_db ExchangeDemo.created) ≠ [].
Proof.
  split; [|vm_compute; discriminate].
  apply (exchange_attributes_records PipelineDemo.env (ExchangeDemo.daemon ExchangeDemo.created_reply) (λ _, InvalidBody) map_to_list
    (λ _, ExchangeDemo.st) (PipelineDemo.arrival ExchangeDemo.bob) ExchangeDemo.bob ExchangeDemo.create_web ExchangeDemo.pulled).
  reflexivity.
Defined.

Lemma served_database_wf_witness : db_wf (sv_db ExchangeDemo.created).
Proof. apply served_database_wf, ExchangeDemo.created_served. Defined.

Lemma container_image_never_recorded_witness :
  HasContainerUsingImage 1002 ImageDemo.digest (sv_db ExchangeDemo.created) ≠ inr true ∧
  c_owner_uid <$> tbl_lookup ExchangeDemo.container_id (containers (sv_db ExchangeDemo.created)) = Some 1002%Z.
Proof.
  split; [|vm_compute; reflexivity].
  apply container_image_never_recorded; [apply ExchangeDemo.created_served|vm_compute; discriminate].
Defined.

Lemma rmi_grace_entry_is_lost_witness :
  completedPruneOwner (sv_maps (send PipelineDemo.env (ExchangeDemo.daemon ExchangeDemo.rmi_reply) (λ _, InvalidBody) map_to_list
    (λ _, ExchangeDemo.st) ExchangeDemo.root ActionRemoveImage ExchangeDemo.rmi ExchangeDemo.fresh).2) !! ("image:" +:+ ImageDemo.digest) = None.
Proof.
  refine (proj2 (rmi_grace_entry_is_lost PipelineDemo.env (ExchangeDemo.daemon ExchangeDemo.rmi_reply) (λ _, InvalidBody) map_to_list
    (λ _, ExchangeDemo.st) ExchangeDemo.root ExchangeDemo.rmi ExchangeDemo.fresh ExchangeDemo.rmi_reply ImageDemo.digest
    _ _ _ _ _ _ _ _ _)); vm_compute; first [reflexivity|discriminate].
Defined.
