(* ===== verification/Hijack.v ===== *)
(** * Hijack: connections handed over, and the images BuildKit leaves

    The rest of [handleHijack] of [internal/forward/proxy.go] (lines 4249-4474),
    whose decisions are in Pipeline: the copying of a chunked answer (4378-4415), and
    what goes with the connections of BuildKit ([POST /grpc]): the tags of the
    command line are put in the map of pending builds, and when the connection closes
    [trackBuildKitImages] (4484-4635) compares two listings of the daemon's images to
    find out what the user has built.  Loops over Go maps run in the order [tags_of]
    and [ids_of] give, which are any.  The goroutine is run to its end, alone; the
    copying in both directions of an upgraded connection is in Relay. *)

From S2P Require Import Prelude GoStrings GoJson Docker GoUrl OsLookup Identity Routes Policy Tables Database ImageDB.
From S2P Require Import ResourceDB Names Events ImagePerm Quota GoPath Storage Bodies Filter PreRequest Pipeline Prune.
From S2P Require Import Streams Response DbReach Exchange.

(** ** Copying a chunked answer *)

Definition LF : string := String "010" "".
(** [ReadString('\n')] without an error, and what is left. *)
Definition read_line (s : string) : option (string * string) :=
  (λ i, (str_take (S i) s, str_drop (S i) s)) <$> Index s LF.

Fixpoint hex_digits (acc : Z) (s : string) : option Z :=
  match s with
  | "" => Some acc
  | String c s => d ← hex_val c; hex_digits (16 * acc + Z.of_N d) s
  end.
(** [strconv.ParseInt] in base 16, without an error. *)
Definition parse_hex (s : string) : option Z :=
  let '(neg, ds) := match s with String "-" t => (true, t) | String "+" t => (false, t) | _ => (false, s) end in
  if ds ==s "" then None else
  v ← hex_digits 0 ds;
  let v := if neg : bool then (- v)%Z else v in
  if (v <? int64_min)%Z || (int64_max <? v)%Z then None else Some v.

(** The size a chunk's first line gives. *)
Definition chunk_size (sizeLine : string) : option Z :=
  parse_hex (TrimSpace (match Index sizeLine ";" with Some i => str_take i sizeLine | None => sizeLine end)).

Inductive RelayEnd := Terminated | Cut | Panicked.
(** The largest slice [make] does not panic on. *)
Definition max_alloc : Z := 2 ^ 48.

(** The bytes given to the client of those the daemon sends; every round reads a
    line, so that one round more than there are bytes is enough. *)
Fixpoint relay_rounds (fuel : nat) (s : string) : string * RelayEnd :=
  match fuel, read_line s with
  | S fuel, Some (sizeLine, s) =>
    let '(out, e) :=
      match chunk_size sizeLine with
      | None => ("", Cut)
      | Some size =>
        if (size ==z 0) then (match read_line s with Some (trailer, _) => trailer | None => s end, Terminated)
        else if (size + 2 <? 0)%Z || (max_alloc <? size + 2)%Z then ("", Panicked)
        else if (Z.of_nat (slen s) <? size + 2)%Z then ("", Cut)
        else
          let n := Z.to_nat (size + 2) in
          let '(out, e) := relay_rounds fuel (str_drop n s) in
          (str_take n s +:+ out, e)
      end in
    (sizeLine +:+ out, e)
  | _, _ => ("", Cut)
  end.
Definition relay_chunked (s : string) : string * RelayEnd := relay_rounds (S (slen s)) s.

(** Whether the answer's head leads to the copying in both directions. *)
Definition is_chunked_header (line : string) : bool :=
  HasPrefix (ToLowerGo line) "transfer-encoding:" && Contains (ToLowerGo line) "chunked".
Definition relays_raw (statusLine : string) (headers : list string) : bool :=
  HasPrefix statusLine "HTTP/1.1 101" || HasPrefix statusLine "HTTP/1.0 101" || negb (existsb is_chunked_header headers).

(** ** The images of the daemon *)

Definition isGRPC (r : Request) : bool :=
  (rq_Method r ==s "POST") && ((url_Path (rq_URL r) ==s "/grpc") || HasSuffix (url_Path (rq_URL r)) "/grpc").

(** The values of [-t] and [--tag] in a command line. *)
Fixpoint buildx_tags (parts : list string) : list string :=
  match parts with
  | [] => []
  | part :: rest =>
    match rest with
    | tag :: rest' =>
      if (part ==s "-t") || (part ==s "--tag") then tag :: buildx_tags rest'
      else if HasPrefix part "--tag=" then TrimPrefix part "--tag=" :: buildx_tags rest
      else buildx_tags rest
    | [] => if HasPrefix part "--tag=" then [TrimPrefix part "--tag="] else []
    end
  end.
Definition parseBuildxTags (cmd : string) : list string := buildx_tags (Fields cmd).

Record ListedImage := mkListedImage { li_ID : string; li_RepoTags : list string }.
Definition decode_listed : ListedImage → json → ListedImage * bool :=
  decode_struct (λ kvs i, mkListedImage (field decode_string "Id" kvs (li_ID i)) (field decode_strings "RepoTags" kvs (li_RepoTags i)))
    (λ kvs, field_ok decode_string "Id" kvs "" && field_ok decode_strings "RepoTags" kvs []).

Record imageSnapshot := mkImageSnapshot { idSet : gset string; tagToID : gmap string string }.
Definition listed_tag (id : string) (m : gmap string string) (tag : string) : gmap string string :=
  if tag ==s "<none>:<none>" then m else <[tag := id]> m.
Definition add_listed (snap : imageSnapshot) (img : ListedImage) : imageSnapshot :=
  let id := TrimPrefix (li_ID img) "sha256:" in
  mkImageSnapshot ({[id]} ∪ idSet snap) (foldl (listed_tag id) (tagToID snap) (li_RepoTags img)).
(** The answer to [/images/json], whatever its status; [None] is a failed request. *)
Definition snapshotImageState (answer : option body) : option imageSnapshot :=
  b ← answer;
  images ← unmarshal_body (decode_list decode_listed (mkListedImage "" [])) [] b;
  Some (foldl add_listed (mkImageSnapshot ∅ ∅) images).

(** ** What a build has left *)

Section track.
Context (tags_of : gmap string string → list (string * string)) (ids_of : gset string → list string).
Context (now : Z) (id : CallerIdentity).

(** The images to be recorded, the tags that are new, and the records: the first
    loop already writes to them. *)
Record Marking := mkMarking { mk_tagged : gset string; mk_newTags : list string; mk_db : OwnershipDB }.

Definition mark_tag (pre : imageSnapshot) (expected : list string) (m : Marking) (entry : string * string) : Marking :=
  let '(tag, postID) := entry in
  if bool_decide (tagToID pre !! tag = Some postID) then
    match GetImageOwner postID (mk_db m) with
    | None => if bool_decide (tag ∈ expected) then mkMarking ({[postID]} ∪ mk_tagged m) (mk_newTags m) (mk_db m) else m
    | Some (existingOwner, _, _) =>
      if oi_UID existingOwner ==z RealUID id then m
      else mkMarking (mk_tagged m) (mk_newTags m) (EnsureImageAccess postID (RealUID id) (mk_db m)).2
    end
  else if bool_decide (tag ∈ expected) then mkMarking ({[postID]} ∪ mk_tagged m) (mk_newTags m ++ [tag]) (mk_db m)
  else m.

Definition image_tags (post : imageSnapshot) (imageID : string) : list string :=
  (filter (λ e, e.2 = imageID) (tags_of (tagToID post))).*1.

(** The images that are new and have no tag, or one of the command line. *)
Definition is_other (pre post : imageSnapshot) (expected : list string) (tagged : gset string) (imageID : string) : bool :=
  negb (bool_decide (imageID ∈ idSet pre)) && negb (bool_decide (imageID ∈ tagged)) &&
  (let imgTags := image_tags post imageID in
   (length imgTags =? 0)%nat || existsb (λ t, bool_decide (t ∈ expected)) imgTags).

Definition writeOne (d : OwnershipDB) (imageID : string) : OwnershipDB :=
  match GetImageOwner imageID d with
  | Some (existingOwner, _, _) =>
    if oi_UID existingOwner ==z RealUID id then d else (EnsureImageAccess imageID (RealUID id) d).2
  | None =>
    match SetImageOwner now imageID id false "build" d with
    | (Some _, d) => d
    | (None, d) => (EnsureImageAccess imageID (RealUID id) d).2
    end
  end.

Definition mark_tags (pre post : imageSnapshot) (d : OwnershipDB) : Marking :=
  foldl (mark_tag pre (parseBuildxTags (CmdLine id))) (mkMarking ∅ [] d) (tags_of (tagToID post)).
Definition other_ids (pre post : imageSnapshot) (tagged : gset string) : gset string :=
  list_to_set (filter (λ i, is_other pre post (parseBuildxTags (CmdLine id)) tagged i = true) (ids_of (idSet post))).

Definition trackBuildKitImages (pre : imageSnapshot) (answer : option body) (sv : Server) : Server :=
  match snapshotImageState answer with
  | None => sv
  | Some post =>
    let m := mark_tags pre post (sv_db sv) in
    let d := foldl writeOne (mk_db m) (ids_of (mk_tagged m)) in
    let d := foldl writeOne d (ids_of (other_ids pre post (mk_tagged m))) in
    mkServer d (foldl (λ st tag, forget_tag tag (owner_info id) (with_completed_build tag (owner_info id) st))
                  (sv_maps sv) (mk_newTags m))
  end.
End track.

(** ** A connection of BuildKit, from its opening to its close *)

(** The daemon's side of it: the listings before and after, and the head of its
    answer when one came. *)
Record Peer := mkPeer {
  pr_before : option body;
  pr_head : option (string * list string);
  pr_after : option body;
}.
(** The users who have closed one, and when (in nanoseconds). *)
Record BuildServer := mkBuildServer { bs_server : Server; pendingBuilds : gmap Z Z }.
(** What an image removal looks at: less than 30 seconds ago. *)
Definition build_pending (now : Z) (st : BuildServer) (uid : Z) : bool :=
  match pendingBuilds st !! uid with Some start => (now - start <? 30 * 10 ^ 9)%Z | None => false end.

Section connection.
Context (tags_of : gmap string string → list (string * string)) (ids_of : gset string → list string).
Context (env : ProxyEnv).

Definition open_connection (id : CallerIdentity) (r : Request) (st : BuildServer) : BuildServer :=
  if isGRPC r
  then mkBuildServer (note (open_build (owner_info id) (parseBuildxTags (CmdLine id))) (bs_server st)) (pendingBuilds st)
  else st.

Definition close_connection (now : Z) (id : CallerIdentity) (r : Request) (peer : Peer) (st : BuildServer) : BuildServer :=
  match (if isGRPC r then snapshotImageState (pr_before peer) else None) with
  | None => st
  | Some pre =>
    mkBuildServer (trackBuildKitImages tags_of ids_of now id pre (pr_after peer) (bs_server st))
      (<[RealUID id := now]> (pendingBuilds st))
  end.

(** [serve_hijack] of Pipeline with all it leaves behind; the deferred part is
    skipped when the copying has ended early. *)
Definition hijack_session (now : Z) (id : CallerIdentity) (r : Request) (peer : Peer) (st : BuildServer) : Served * BuildServer :=
  let action := ClassifyAction (rq_Method r) (RequestURI (rq_URL r)) in
  if policy_denies env id action r then (PolicyDenied action, st) else
  let st := open_connection id r st in
  let '(served, d) := handleHijack env id r (sv_db (bs_server st)) in
  let st := mkBuildServer (mkServer d (sv_maps (bs_server st))) (pendingBuilds st) in
  (served,
   match served, pr_head peer with
   | Hijacked _, Some (statusLine, headers) =>
     if relays_raw statusLine headers then close_connection now id r peer st else st
   | _, _ => st
   end).
End connection.

(** ** Lemmas: copying *)

(** A line, with its end. *)
Definition is_line (l : string) : Prop := ∀ rest, read_line (l +:+ rest) = Some (l, rest).

(** A body as HTTP/1.1 sends it in chunks, sizes in whatever spelling. *)
Inductive chunked_body : string → Prop :=
  | last_chunk line trailer :
      is_line line → chunk_size line = Some 0%Z → is_line trailer → chunked_body (line +:+ trailer)
  | next_chunk line data rest :
      is_line line → chunk_size line = Some (Z.of_nat (slen data) - 2)%Z → 2 < slen data → (Z.of_nat (slen data) <= max_alloc)%Z →
      chunked_body rest → chunked_body (line +:+ data +:+ rest).

Lemma read_line_Some s l rest : read_line s = Some (l, rest) → s = l +:+ rest ∧ slen rest < slen s.
Proof.
  unfold read_line. intros H. destruct (Index s LF) as [i|] eqn:E; [|done]. injection H as <- <-.
  apply Index_Some in E as (r & Hr & Hi). split; [symmetry; apply (str_take_drop (S i))|].
  pose proof (slen_drop (S i) s) as Hd. cbn [str_drop] in Hd |- *. rewrite Hd. assert (slen s = i + slen (LF +:+ r)) as Hs.
  { rewrite Hr at 1. rewrite slen_app, slen_take. f_equal. lia. }
  change (slen (LF +:+ r)) with (S (slen r)) in Hs. lia.
Qed.

(** The copy is what came, up to where it stops, and more rounds add nothing. *)
Lemma relay_rounds_copies fuel s :
  slen s < fuel → (∃ rest, s = (relay_rounds fuel s).1 +:+ rest) ∧ ∀ more, relay_rounds (fuel + more) s = relay_rounds fuel s.
Proof.
  revert s. induction fuel as [|fuel IH]; intros s Hs; [lia|]. cbn [Nat.add relay_rounds].
  destruct (read_line s) as [[line rest]|] eqn:El; [|split; [by exists s|done]].
  apply read_line_Some in El as [-> Hlen].
  destruct (chunk_size line) as [size|]; [|split; [exists rest; cbn; by rewrite app_nil_r_str|done]].
  destruct (size ==z 0).
  { split; [|done]. destruct (read_line rest) as [[t rest']|] eqn:Et; cbn [fst].
    - apply read_line_Some in Et as [-> _]. exists rest'. by rewrite <- app_assoc_str.
    - exists "". by rewrite app_nil_r_str. }
  destruct (_ || _); [split; [exists rest; cbn; by rewrite app_nil_r_str|done]|].
  destruct (_ <? _)%Z; [split; [exists rest; cbn; by rewrite app_nil_r_str|done]|].
  set (n := Z.to_nat _). destruct (IH (str_drop n rest)) as [[more Hm] Hf]; [rewrite slen_drop; lia|].
  split; [|intros k; by rewrite Hf]. destruct (relay_rounds fuel (str_drop n rest)) as [out e]. cbn [fst] in *. exists more.
  rewrite <- !app_assoc_str, <- Hm. by rewrite str_take_drop.
Qed.

Lemma relay_rounds_body fuel body rest :
  chunked_body body → slen (body +:+ rest) < fuel → relay_rounds fuel (body +:+ rest) = (body, Terminated).
Proof.
  intros Hb. revert fuel rest. induction Hb as [line trailer Hl Hs Ht|line data body Hl Hs Hd Hm Hb IH];
    intros [|fuel] rest Hf; [lia| |lia|]; cbn [relay_rounds]; rewrite <- !app_assoc_str, Hl, Hs.
  { by rewrite Z.eqb_refl, Ht. }
  assert (((Z.of_nat (slen data) - 2) ==z 0) = false) as -> by lia.
  replace (Z.of_nat (slen data) - 2 + 2)%Z with (Z.of_nat (slen data)) by lia.
  assert ((Z.of_nat (slen data) <? 0)%Z || (max_alloc <? Z.of_nat (slen data))%Z = false) as -> by lia.
  assert ((Z.of_nat (slen (data +:+ body +:+ rest)) <? Z.of_nat (slen data))%Z = false) as -> by (apply Z.ltb_ge; rewrite slen_app, Nat2Z.inj_add; lia).
  rewrite Nat2Z.id, str_drop_app, str_take_app, IH; [done|].
  pose proof (read_line_Some _ _ _ (Hl (data +:+ body +:+ rest))) as [_ H]. rewrite <- !app_assoc_str in Hf. rewrite slen_app in H at 1.
  rewrite !slen_app in *. lia.
Qed.

(** ** Lemmas: what a build records *)

Section track_laws.
Context (tags_of : gmap string string → list (string * string)) (ids_of : gset string → list string).
Hypothesis tags_of_all : ∀ m, Permutation (tags_of m) (map_to_list m).
Hypothesis ids_of_all : ∀ X, Permutation (ids_of X) (elements X).
Context (now : Z) (id : CallerIdentity).
Abbreviation uid := (RealUID id).
Abbreviation expected := (parseBuildxTags (CmdLine id)).
Implicit Types (pre post : imageSnapshot) (d : OwnershipDB) (i : string).

Lemma elem_of_tags_of m tag i : (tag, i) ∈ tags_of m ↔ m !! tag = Some i.
Proof. rewrite (tags_of_all m). apply elem_of_map_to_list. Qed.
Lemma elem_of_ids_of X i : i ∈ ids_of X ↔ i ∈ X.
Proof. rewrite (ids_of_all X). apply elem_of_elements. Qed.

(** An image the user has built, by the listings: a tag of the command line names
    it, or it is new and no tag names it. *)
Definition built_image (pre post : imageSnapshot) (i : string) : Prop :=
  (∃ tag, tag ∈ expected ∧ tagToID post !! tag = Some i) ∨
  (i ∈ idSet post ∧ (i ∉ idSet pre) ∧ ∀ tag, (tagToID post !! tag) ≠ Some i).

Lemma elem_of_image_tags post i tag : tag ∈ image_tags tags_of post i ↔ tagToID post !! tag = Some i.
Proof.
  unfold image_tags. rewrite list_elem_of_fmap. split.
  - intros ([t j] & -> & [Hj H]%list_elem_of_filter). simpl in *. subst. by apply elem_of_tags_of.
  - intros H. exists (tag, i). split; [done|]. apply list_elem_of_filter. split; [done|]. by apply elem_of_tags_of.
Qed.

Lemma is_other_built pre post tagged i :
  i ∈ idSet post → is_other tags_of pre post expected tagged i = true → built_image pre post i.
Proof.
  intros Hi. unfold is_other. rewrite !andb_true_iff, !negb_true_iff, !bool_decide_eq_false, orb_true_iff.
  intros [[Hpre _] [Hn|He]].
  - right. split_and!; [done..|]. intros tag Ht. apply elem_of_image_tags in Ht. apply Nat.eqb_eq, nil_length_inv in Hn.
    rewrite Hn in Ht. by apply elem_of_nil in Ht.
  - left. apply existsb_exists in He as (tag & Hin & He). apply bool_decide_eq_true in He.
    apply list_elem_of_In, elem_of_image_tags in Hin. by exists tag.
Qed.

(** What the records gain: images of [P], for the user, and references of the user. *)
Record gained (P : string → Prop) (d d' : OwnershipDB) : Prop := {
  ga_kept : ∀ row, row ∈ images d → row ∈ images d';
  ga_new : ∀ row, row ∈ images d' → row ∈ images d ∨
    (∃ i, P i ∧ i_image_id row = normalizeImageID i) ∧ i_owner_uid row = uid ∧ i_is_public row = 0%Z ∧ i_source row = "build";
  ga_steps : rtc (request_step [] id) d d';
  ga_wf : image_wf d → image_wf d';
}.

#[export] Instance gained_preorder P : PreOrder (gained P).
Proof.
  split; [intros d; split; auto; apply rtc_refl|]. intros d1 d2 d3 [K1 N1 S1 W1] [K2 N2 S2 W2]. split; [auto| |by etrans|auto].
  intros row [H|H]%N2; [|by right]. by apply N1.
Qed.
Lemma gained_refl P d : gained P d d.
Proof. reflexivity. Qed.
Lemma gained_foldl {A} P (f : OwnershipDB → A → OwnershipDB) l d :
  (∀ d a, a ∈ l → gained P d (f d a)) → gained P d (foldl f d l).
Proof.
  revert d. induction l as [|a l IH]; intros d Hf; [reflexivity|]. cbn [foldl].
  transitivity (f d a); [apply Hf; left|]. apply IH. intros d' b Hb. apply Hf. by right.
Qed.

Lemma gained_access P i d : gained P d (EnsureImageAccess i uid d).2.
Proof.
  assert (images (EnsureImageAccess i uid d).2 = images d) as E.
  { unfold EnsureImageAccess, Exec. destruct d; simpl. by repeat case_match. }
  split; [by rewrite E|rewrite E; auto|apply rtc_once, does_access|apply (image_wf_step (OpEnsureImageAccess i uid))].
Qed.

Lemma gained_build P i d : P i → gained P d (SetImageOwner now i id false "build" d).2.
Proof.
  intros Hi. set (row := mkImageRow (normalizeImageID i) (RealUsername id) uid (RealGID id) 0 (privCtx id) "build" now).
  assert (images (SetImageOwner now i id false "build" d).2 = images d ∨
          images (SetImageOwner now i id false "build" d).2 = images d ++ [row]) as E.
  { assert (∀ f e, images (Exec (on_image_access f) e).2 = images e) as Ha by (intros f e; unfold Exec; destruct e; simpl; by repeat case_match).
    assert (tbl_upsert row (image_conflict row) (images d) = images d ∨ tbl_upsert row (image_conflict row) (images d) = images d ++ [row]) as Hu.
    { unfold tbl_upsert. destruct (tbl_lookup _ _); [left|by right]. unfold tbl_update.
      rewrite <- (list_fmap_id (images d)) at 2. apply list_fmap_ext. intros _ x _. destruct (has_key _ x); [|done].
      unfold image_conflict. change (i_source row ==s "pull") with false. by rewrite andb_false_r. }
    unfold SetImageOwner. fold row. cbv zeta. change (b2z false) with 0%Z. fold row.
    assert (images (Exec (on_images (tbl_upsert row (image_conflict row))) d).2 = images d ∨
            images (Exec (on_images (tbl_upsert row (image_conflict row))) d).2 = images d ++ [row]) as He.
    { unfold Exec. destruct (writes_left d) as [[|n]|]; [by left|..]; destruct d; simpl in *; exact Hu. }
    destruct (Exec (on_images _) d) as [[e|] d1]; simpl in *; [done|]. by rewrite Ha. }
  split; [| |apply rtc_once, does_image|apply (image_wf_step (OpSetImageOwner now i id false "build"))].
  - intros x Hx. destruct E as [->| ->]; [done|]. apply elem_of_app. by left.
  - intros x Hx. destruct E as [E|E]; rewrite E in Hx; [by left|]. apply elem_of_app in Hx as [Hx|Hx%list_elem_of_singleton]; [by left|right].
    subst x. split_and!; [by exists i|done..].
Qed.

Lemma gained_writeOne P d i : P i → gained P d (writeOne now id d i).
Proof.
  intros Hi. unfold writeOne. destruct (GetImageOwner i d) as [[[owner pub] priv]|].
  { case_match; [reflexivity|apply gained_access]. }
  pose proof (gained_build P i d Hi) as H. destruct (SetImageOwner now i id false "build" d) as [[e|] d1]; [done|].
  etrans; [exact H|apply gained_access].
Qed.

(** The first loop: the images it notes are built ones, and it gives references. *)
Definition marking_ok (pre post : imageSnapshot) (d : OwnershipDB) (m : Marking) : Prop :=
  gained (λ _, False) d (mk_db m) ∧ ∀ i, i ∈ mk_tagged m → built_image pre post i.
Lemma mark_tag_ok pre post d m tag i :
  tagToID post !! tag = Some i → marking_ok pre post d m → marking_ok pre post d (mark_tag id pre expected m (tag, i)).
Proof.
  intros Ht [Hg Hb]. unfold mark_tag.
  assert (∀ nt, tag ∈ expected → marking_ok pre post d (mkMarking ({[i]} ∪ mk_tagged m) nt (mk_db m))) as Hnew.
  { intros nt He. split; [done|]. intros j [->%elem_of_singleton|Hj]%elem_of_union; [left; eauto|by apply Hb]. }
  case_bool_decide as Hpre; [|case_bool_decide as He; [by apply Hnew|by split]].
  destruct (GetImageOwner i (mk_db m)) as [[[owner pub] priv]|].
  - case_match; [by split|]. split; [|done]. etrans; [exact Hg|apply gained_access].
  - case_bool_decide; [by apply Hnew|by split].
Qed.
Lemma mark_tags_ind (P : Marking → Prop) pre post d :
  P (mkMarking ∅ [] d) → (∀ m tag i, tagToID post !! tag = Some i → P m → P (mark_tag id pre expected m (tag, i))) →
  P (mark_tags tags_of id pre post d).
Proof.
  intros H0 Hs. unfold mark_tags.
  assert (∀ l m, (∀ e, e ∈ l → tagToID post !! e.1 = Some e.2) → P m → P (foldl (mark_tag id pre expected) m l)) as H.
  { induction l as [|[tag i] l IH]; intros m Hl Hm; [done|]. cbn [foldl]. apply IH; [intros e He; apply Hl; by right|].
    apply Hs; [by apply (Hl (tag, i)); left|done]. }
  apply H; [|done]. intros [tag i] He. by apply elem_of_tags_of.
Qed.
Lemma mark_tags_ok pre post d : marking_ok pre post d (mark_tags tags_of id pre post d).
Proof.
  apply mark_tags_ind; [split; [reflexivity|]; by intros i H%elem_of_empty|]. intros m tag i Ht. by apply mark_tag_ok.
Qed.

Lemma elem_of_other_ids pre post tagged i :
  i ∈ other_ids tags_of ids_of id pre post tagged ↔ i ∈ idSet post ∧ is_other tags_of pre post expected tagged i = true.
Proof. unfold other_ids. rewrite elem_of_list_to_set, list_elem_of_filter, elem_of_ids_of. tauto. Qed.

Lemma gained_weaken (P Q : string → Prop) d d' : (∀ i, P i → Q i) → gained P d d' → gained Q d d'.
Proof. intros HPQ [K N S W]. split; [done| |done..]. intros row [H|[(i & Hi & E) H]]%N; [by left|right]. split; [|done]. exists i. auto. Qed.
Lemma gained_track pre answer post sv :
  snapshotImageState answer = Some post →
  gained (built_image pre post) (sv_db sv) (sv_db (trackBuildKitImages tags_of ids_of now id pre answer sv)).
Proof.
  intros E. unfold trackBuildKitImages. rewrite E. cbn [sv_db]. destruct (mark_tags_ok pre post (sv_db sv)) as [Hm Ht].
  etrans; [eapply gained_weaken, Hm; done|].
  set (m := mark_tags _ _ _ _ _) in *. transitivity (foldl (writeOne now id) (mk_db m) (ids_of (mk_tagged m)));
    apply (gained_foldl _ (writeOne now id)); intros d i Hi%elem_of_ids_of; apply gained_writeOne; [by apply Ht|].
  apply elem_of_other_ids in Hi as [Hi Ho]. by eapply is_other_built.
Qed.

(** The records are those of a run of image operations that take nothing away. *)
Definition op_of_build (op : ImageOp) : bool :=
  match op with OpSetImageOwner _ _ _ _ _ | OpEnsureImageAccess _ _ => true | _ => false end.
Lemma build_op_keeps nid u op d :
  op_of_build op = true → writes_left d = None → image_wf d → referenced nid u (image_abs d) →
  referenced nid u (image_abs (run_image_op op d)).
Proof.
  intros Ho Hw Hwf Hr. destruct (image_step_refines op d Hw Hwf) as [Hs _]. eapply referenced_step; [|eexists; split; [|exact Hs]|exact Hr]; by destruct op.
Qed.

(** A state the loops can be in, for an image and the user: working, well formed,
    and either the user has a reference to the image or [P] holds. *)
Definition on_way (i : string) (P : OwnershipDB → Prop) d : Prop :=
  writes_left d = None ∧ image_wf d ∧ (P d ∨ referenced (normalizeImageID i) uid (image_abs d)).

Lemma on_way_op i (P : OwnershipDB → Prop) op d :
  op_of_build op = true → (P d → P (run_image_op op d)) → on_way i P d → on_way i P (run_image_op op d).
Proof.
  intros Ho HP (Hw & Hwf & H). pose proof (image_step_refines op d Hw Hwf) as [_ Hw'].
  split_and!; [done|by apply image_wf_step|]. destruct H as [H|H]; [left; auto|right; by apply build_op_keeps].
Qed.

Lemma writeOne_ops j d :
  writes_left d = None →
  writeOne now id d j =
  match GetImageOwner j d with
  | Some (owner, _, _) => if oi_UID owner ==z uid then d else run_image_op (OpEnsureImageAccess j uid) d
  | None => run_image_op (OpEnsureImageAccess j uid) (run_image_op (OpSetImageOwner now j id false "build") d)
  end.
Proof.
  intros Hw. unfold writeOne. destruct (GetImageOwner j d) as [[[o ?] ?]|]; [done|]. cbn [run_image_op].
  by rewrite SetImageOwner_healthy.
Qed.

Lemma on_way_writeOne i (P : OwnershipDB → Prop) j d :
  (∀ op, op_of_build op = true → (op = OpSetImageOwner now j id false "build" ∨ op = OpEnsureImageAccess j uid) →
     ∀ d, P d → P (run_image_op op d)) →
  on_way i P d → on_way i P (writeOne now id d j).
Proof.
  intros HP Hd. pose proof Hd as (Hw & Hwf & _). rewrite writeOne_ops by done.
  assert (on_way i P (run_image_op (OpEnsureImageAccess j uid) d)) as H1 by (apply on_way_op; auto).
  destruct (GetImageOwner j d) as [[[o ?] ?]|]; [by case_match|]. apply on_way_op; auto. apply on_way_op; auto.
Qed.
Lemma on_way_foldl i (P : OwnershipDB → Prop) l d :
  (∀ j d, j ∈ l → on_way i P d → on_way i P (writeOne now id d j)) → on_way i P d → on_way i P (foldl (writeOne now id) d l).
Proof.
  revert d. induction l as [|j l IH]; intros d Hs Hd; [done|]. cbn [foldl].
  apply IH; [intros; apply Hs; [by right|done]|]. apply Hs; [left|done].
Qed.

(** The first loop only gives references. *)
Lemma mark_tag_db pre m tag i :
  mk_db (mark_tag id pre expected m (tag, i)) = mk_db m ∨
  mk_db (mark_tag id pre expected m (tag, i)) = run_image_op (OpEnsureImageAccess i uid) (mk_db m).
Proof. unfold mark_tag. repeat case_match; auto. Qed.
Lemma on_way_mark i (P : OwnershipDB → Prop) pre m tag j :
  (∀ d, P d → P (run_image_op (OpEnsureImageAccess j uid) d)) →
  on_way i P (mk_db m) → on_way i P (mk_db (mark_tag id pre expected m (tag, j))).
Proof. intros HP Hm. destruct (mark_tag_db pre m tag j) as [->| ->]; [done|]. apply on_way_op; auto. Qed.

Lemma EnsureImageAccess_images i d : images (run_image_op (OpEnsureImageAccess i uid) d) = images d.
Proof. cbn [run_image_op]. unfold EnsureImageAccess, Exec. destruct d; simpl. by repeat case_match. Qed.

(** A reference the user had none of before. *)
Lemma access_referenced i row d :
  writes_left d = None → image_wf d → tbl_lookup (normalizeImageID i) (images d) = Some row →
  sp_access (image_abs d) !! (normalizeImageID i, uid) = None →
  referenced (normalizeImageID i) uid (image_abs (run_image_op (OpEnsureImageAccess i uid) d)).
Proof.
  intros Hw Hwf Hrow Hno. destruct (image_step_refines (OpEnsureImageAccess i uid) d Hw Hwf) as [-> _].
  cbn [spec_image_op]. unfold referenced. cbn [sp_images sp_access]. split.
  - cbn. rewrite lookup_tbl_map, Hrow. eauto.
  - rewrite Hno. apply lookup_insert_eq.
Qed.

(** An image of [row], of which the user has no reference but an unprivileged one. *)
Definition awaits (i : string) (row : ImageRow) d : Prop :=
  writes_left d = None ∧ image_wf d ∧ tbl_lookup (normalizeImageID i) (images d) = Some row ∧
  (sp_access (image_abs d) !! (normalizeImageID i, uid) = None ∨ referenced (normalizeImageID i) uid (image_abs d)).

Lemma awaits_op i row j d : awaits i row d → awaits i row (run_image_op (OpEnsureImageAccess j uid) d).
Proof.
  intros (Hw & Hwf & Hrow & Hr). destruct (image_step_refines (OpEnsureImageAccess j uid) d Hw Hwf) as [Hs Hw'].
  split_and!; [done|by apply (image_wf_step (OpEnsureImageAccess j uid))|by rewrite EnsureImageAccess_images|].
  destruct Hr as [Hr|Hr]; [|right; by apply build_op_keeps].
  destruct (decide (normalizeImageID j = normalizeImageID i)) as [E|E].
  - right. pose proof (access_referenced i row d Hw Hwf Hrow Hr) as H. cbn [run_image_op] in *.
    unfold EnsureImageAccess in *. by rewrite E.
  - left. rewrite Hs. cbn [spec_image_op sp_access]. case_match; [done|]. rewrite lookup_insert_ne; [done|]. congruence.
Qed.
Lemma awaits_granted i row d :
  awaits i row d → on_way i (λ _, False) (run_image_op (OpEnsureImageAccess i uid) d).
Proof.
  intros Hd. pose proof (awaits_op i row i d Hd) as (Hw' & Hwf' & _). destruct Hd as (Hw & Hwf & Hrow & Hr).
  split_and!; [done..|right]. destruct Hr as [Hr|Hr]; [by apply (access_referenced i row)|by apply build_op_keeps].
Qed.

(** An unchanged tag of another's image gives the user a reference to it. *)
Lemma unchanged_tag_referenced pre post tag i row d :
  normalizeImageID i ≠ "" → awaits i row d → i_owner_uid row ≠ uid →
  tagToID pre !! tag = Some i → tagToID post !! tag = Some i →
  on_way i (λ _, False) (mk_db (mark_tags tags_of id pre post d)).
Proof.
  intros Hn Hd Hown Hpre Hpost. unfold mark_tags. assert ((tag, i) ∈ tags_of (tagToID post)) as Hin by by apply elem_of_tags_of.
  assert (awaits i row (mk_db (mkMarking ∅ [] d))) as Hm by done. revert Hin Hm. generalize (mkMarking ∅ [] d).
  induction (tags_of (tagToID post)) as [|[t j] l IH]; intros m Hin Hm; [by apply elem_of_nil in Hin|]. cbn [foldl].
  apply elem_of_cons in Hin as [[= <- <-]|Hin].
  - assert (on_way i (λ _, False) (mk_db (mark_tag id pre expected m (tag, i)))) as Hhit.
    { unfold mark_tag. rewrite bool_decide_eq_true_2 by done. destruct (Hm) as (Hw & _ & Hrow & _).
      rewrite (GetImageOwner_exact i row (mk_db m)) by auto with go.
      assert ((oi_UID (row_owner row) ==z uid) = false) as -> by (by apply Z.eqb_neq). by apply (awaits_granted i row). }
    clear -Hhit. revert Hhit. generalize (mark_tag id pre expected m (tag, i)).
    induction l as [|[t j] l IH]; intros m' Hm'; [done|]. cbn [foldl]. apply IH. by apply on_way_mark.
  - apply IH; [done|]. destruct (mark_tag_db pre m t j) as [->| ->]; [done|]. by apply awaits_op.
Qed.

Lemma on_way_seen i d tagged others :
  normalizeImageID i ≠ "" → on_way i (λ _, False) d →
  CanSeeImage uid i (foldl (writeOne now id) (foldl (writeOne now id) d tagged) others) = true.
Proof.
  intros Hn Hd. assert (∀ l d, on_way i (λ _, False) d → on_way i (λ _, False) (foldl (writeOne now id) d l)) as Hf.
  { intros l e. apply on_way_foldl. intros j e' _. by apply on_way_writeOne. }
  destruct (Hf others _ (Hf tagged _ Hd)) as (Hw & Hwf & [[]|Hr]). by apply referenced_visible.
Qed.

(** ** Lemmas: the images of the command line *)

(** Every image a tag names is one of those listed. *)
Lemma snapshot_listed answer post tag i : snapshotImageState answer = Some post → tagToID post !! tag = Some i → i ∈ idSet post.
Proof.
  unfold snapshotImageState. intros H. destruct answer as [b|]; [|done]. cbn in H.
  destruct (unmarshal_body _ _ b) as [imgs|]; [|done]. cbn in H. injection H as <-. revert tag i.
  assert (∀ snap, (∀ tag i, tagToID snap !! tag = Some i → i ∈ idSet snap) → ∀ tag i,
    tagToID (foldl add_listed snap imgs) !! tag = Some i → i ∈ idSet (foldl add_listed snap imgs)) as H.
  { induction imgs as [|img imgs IH]; intros snap Hs; [done|]. cbn [foldl]. apply IH. intros tag i.
    cbn. set (j := TrimPrefix _ _). intros Ht. assert (tagToID snap !! tag = Some i ∨ i = j) as [Hi| ->];
      [|apply elem_of_union; right; by eapply Hs|set_solver].
    clear -Ht. revert Ht. generalize (tagToID snap). induction (li_RepoTags img) as [|t l IH]; intros m Ht; [by left|]. cbn [foldl] in Ht.
    destruct (IH _ Ht) as [H|H]; [|by right]. unfold listed_tag in H. case_match; [by left|].
    destruct (decide (t = tag)) as [->|Hne]; [rewrite lookup_insert_eq in H; simplify_eq; by right|]. rewrite lookup_insert_ne in H by done. by left. }
  apply H. intros tag i Ht. by apply (lookup_empty_Some (M := gmap string) tag i) in Ht.
Qed.

(** No image of the database goes by the name of this one. *)
Definition unknown (i : string) d : Prop := ∀ row, row ∈ images d → denotes i (i_image_id row) = false.
Lemma unknown_no_owner i d : unknown i d → GetImageOwner i d = None.
Proof.
  intros Hu. unfold GetImageOwner. destruct (_ ==s "") eqn:E; [done|]. apply String.eqb_neq in E.
  destruct (resolve_stored i _ d eq_refl E) as (_ & Hden & row & Hrow). apply tbl_lookup_Some in Hrow as [Hin Hk].
  cbv [key_of image_keyed] in Hk. specialize (Hu row Hin). rewrite Hk in Hu. congruence.
Qed.
Lemma unknown_op i j op d :
  denotes i (normalizeImageID j) = false →
  op = OpSetImageOwner now j id false "build" ∨ op = OpEnsureImageAccess j uid →
  unknown i d → unknown i (run_image_op op d).
Proof.
  intros Hj Hop Hu row Hrow. destruct Hop as [-> | ->].
  - apply (ga_new _ _ _ (gained_build (eq j) j d eq_refl)) in Hrow as [Hrow|[(k & <- & ->) _]]; [by apply Hu|done].
  - rewrite EnsureImageAccess_images in Hrow. by apply Hu.
Qed.

Lemma mark_tags_new pre post tag i d :
  tag ∈ expected → tagToID post !! tag = Some i → tagToID pre !! tag ≠ Some i →
  i ∈ mk_tagged (mark_tags tags_of id pre post d) ∧ tag ∈ mk_newTags (mark_tags tags_of id pre post d).
Proof.
  intros He Ht Hpre. unfold mark_tags. assert ((tag, i) ∈ tags_of (tagToID post)) as Hin by by apply elem_of_tags_of.
  revert Hin. generalize (mkMarking ∅ [] d).
  assert (∀ m e, i ∈ mk_tagged m ∧ tag ∈ mk_newTags m →
    i ∈ mk_tagged (mark_tag id pre expected m e) ∧ tag ∈ mk_newTags (mark_tag id pre expected m e)) as Hkeep.
  { intros m [t j] H. unfold mark_tag. repeat case_match; cbn [mk_tagged mk_newTags]; rewrite ?elem_of_union, ?elem_of_app; tauto. }
  induction (tags_of (tagToID post)) as [|[t j] l IH]; intros m Hin; [by apply elem_of_nil in Hin|]. cbn [foldl].
  apply elem_of_cons in Hin as [[= <- <-]|Hin]; [|by apply IH].
  assert (i ∈ mk_tagged (mark_tag id pre expected m (tag, i)) ∧ tag ∈ mk_newTags (mark_tag id pre expected m (tag, i))) as H.
  { unfold mark_tag. rewrite bool_decide_eq_false_2 by done. rewrite bool_decide_eq_true_2 by done. cbn [mk_tagged mk_newTags]. set_solver. }
  revert H. clear -Hkeep. generalize (mark_tag id pre expected m (tag, i)). induction l as [|e l IH]; intros m' H; [done|].
  cbn [foldl]. by apply IH, Hkeep.
Qed.

(** What a new image is given when it is written. *)
Lemma writeOne_unknown i d :
  IsSudoCommand id = false → writes_left d = None → image_wf d → unknown i d → on_way i (λ _, False) (writeOne now id d i).
Proof.
  intros Hs Hw Hwf Hu. rewrite writeOne_ops by done. rewrite unknown_no_owner by done. apply on_way_op; [done..|].
  set (op := OpSetImageOwner now i id false "build"). split_and!; [by apply (image_step_refines op)|by apply image_wf_step|].
  right. by apply SetImageOwner_referenced.
Qed.

Lemma tagged_written i l d :
  IsSudoCommand id = false → i ∈ l → (∀ j, j ∈ l → j ≠ i → denotes i (normalizeImageID j) = false) →
  writes_left d = None → image_wf d → unknown i d → on_way i (λ _, False) (foldl (writeOne now id) d l).
Proof.
  intros Hs Hi Hl Hw Hwf Hu. assert (on_way i (unknown i) d) as Hd by (split_and!; auto). clear Hw Hwf Hu. revert d Hd.
  induction l as [|j l IH]; intros d Hd; [by apply elem_of_nil in Hi|]. cbn [foldl].
  assert (∀ d, on_way i (λ _, False) d → on_way i (λ _, False) (foldl (writeOne now id) d l)) as Hrest.
  { intros e. apply on_way_foldl. intros k e' _. by apply on_way_writeOne. }
  destruct (decide (j = i)) as [->|Hne].
  - apply Hrest. destruct Hd as (Hw & Hwf & [Hu|Hr]); [by apply writeOne_unknown|]. apply on_way_writeOne; [done|]. split_and!; auto.
  - apply elem_of_cons in Hi as [?|Hi]; [congruence|]. apply IH; [done|intros k Hk; apply Hl; by right|].
    apply on_way_writeOne; [|done]. intros op _ Hop e. apply (unknown_op i j); [apply Hl; [left|done]|done].
Qed.

(** The new tags change maps. *)
Lemma new_tags_close o tags st tag :
  tag ∈ tags → pendingBuildTags st !! tag = Some o →
  let st' := foldl (λ st tag, forget_tag tag o (with_completed_build tag o st)) st tags in
  pendingBuildTags st' !! tag = None ∧ completedBuildOwner st' !! tag = Some o.
Proof.
  intros Hin Hp st'. assert (st' = close_build o (rev tags) st) as ->.
  { unfold st'. clear. revert st. induction tags as [|t tags IH] using rev_ind; intros st; [done|].
    rewrite foldl_app, rev_app_distr. cbn [foldl rev app]. by rewrite IH. }
  assert (tag ∈ rev tags) as Hr by (by apply list_elem_of_In; rewrite <- in_rev; apply list_elem_of_In).
  rewrite close_build_pending, close_build_completed by done. by rewrite bool_decide_eq_true_2.
Qed.

Lemma unnamed_stays o tags st tag :
  tag ∉ tags →
  let st' := foldl (λ st tag, forget_tag tag o (with_completed_build tag o st)) st tags in
  pendingBuildTags st !! tag = Some o → pendingBuildTags st' !! tag = Some o.
Proof.
  cbv zeta. revert st. induction tags as [|t tags IH]; intros st Hn Hp; [done|]. cbn [foldl]. apply not_elem_of_cons in Hn as [Hne Hn].
  apply IH; [done|]. cbn [forget_tag pendingBuildTags with_completed_build]. unfold delete_if.
  case_decide; [by rewrite lookup_delete_ne|done].
Qed.

Lemma mark_tags_moved pre post d tag :
  tag ∈ mk_newTags (mark_tags tags_of id pre post d) → ∃ i, tagToID post !! tag = Some i ∧ (tagToID pre !! tag) ≠ Some i.
Proof.
  apply (mark_tags_ind (λ m, tag ∈ mk_newTags m → ∃ i, tagToID post !! tag = Some i ∧ (tagToID pre !! tag) ≠ Some i)).
  { by intros H%elem_of_nil. }
  intros m t i Ht IH. unfold mark_tag. case_bool_decide as Hm.
  { destruct (GetImageOwner i _) as [[[? ?] ?]|]; case_match; exact IH. }
  case_bool_decide; [|exact IH]. cbn [mk_newTags]. intros [Hin| ->%list_elem_of_singleton]%elem_of_app; [by apply IH|by exists i].
Qed.

(** ** Properties *)

(** C17: What a closed connection records is the user's.  No record of an image is
    changed; every new one is of an image that a tag of the command line names or
    that is new without a tag, private and owned by the user; and nothing else of
    the database is attributed to anyone but the user. *)
Theorem build_records_own_images pre answer post sv :
  snapshotImageState answer = Some post →
  let d := sv_db sv in
  let d' := sv_db (trackBuildKitImages tags_of ids_of now id pre answer sv) in
  (∀ row, row ∈ images d → row ∈ images d') ∧
  (∀ row, row ∈ images d' → row ∈ images d ∨
     (∃ i, built_image pre post i ∧ i_image_id row = normalizeImageID i) ∧
     i_owner_uid row = uid ∧ i_is_public row = 0%Z ∧ i_source row = "build") ∧
  attributed [] uid d d'.
Proof.
  intros E d d'. destruct (gained_track pre answer post sv E) as [K N S _]. split_and!; [done..|].
  by apply (steps_attributed [] id).
Qed.

(** An image built under a tag of the command line is there for its builder: when
    the connection has closed, the image is recorded as the user's and shown to the
    user, and the entry of the tag has gone from the map of pending builds to that
    of completed ones.  No other image may go by the same short id. *)
Theorem built_image_is_recorded pre answer post sv tag i :
  snapshotImageState answer = Some post →
  writes_left (sv_db sv) = None → image_wf (sv_db sv) → IsSudoCommand id = false → normalizeImageID i ≠ "" →
  tag ∈ expected → tagToID post !! tag = Some i → tagToID pre !! tag ≠ Some i →
  unknown i (sv_db sv) → (∀ j, j ∈ idSet post → j ≠ i → denotes i (normalizeImageID j) = false) →
  pendingBuildTags (sv_maps sv) !! tag = Some (owner_info id) →
  let sv' := trackBuildKitImages tags_of ids_of now id pre answer sv in
  CanSeeImage uid i (sv_db sv') = true ∧
  (∃ row, tbl_lookup (normalizeImageID i) (images (sv_db sv')) = Some row ∧ i_owner_uid row = uid) ∧
  pendingBuildTags (sv_maps sv') !! tag = None ∧ completedBuildOwner (sv_maps sv') !! tag = Some (owner_info id).
Proof.
  intros E Hw Hwf Hs Hn Htag Hpost Hpre Hu Hdist Hp sv'. pose proof (gained_track pre answer post sv E) as Hgain. fold sv' in Hgain.
  destruct (mark_tags_new pre post tag i (sv_db sv) Htag Hpost Hpre) as [Htagged Hnew].
  destruct (mark_tags_ok pre post (sv_db sv)) as [_ Hbuilt]. subst sv'. unfold trackBuildKitImages in *. rewrite E in *. cbn [sv_db sv_maps] in *.
  set (m := mark_tags _ _ _ _ _) in *.
  assert (on_way i (unknown i) (mk_db m)) as (Hwm & Hwfm & Hm).
  { apply (mark_tags_ind (λ m, on_way i (unknown i) (mk_db m))); [by split_and!; auto|]. intros m' t j Ht. apply on_way_mark.
    intros e He row. rewrite EnsureImageAccess_images. apply He. }
  assert (on_way i (λ _, False) (foldl (writeOne now id) (mk_db m) (ids_of (mk_tagged m)))) as Hway.
  { destruct Hm as [Hm|Hm].
    - apply (tagged_written i); [done|by apply elem_of_ids_of| |done..]. intros j Hj%elem_of_ids_of Hne. apply Hdist; [|done].
      destruct (Hbuilt j Hj) as [(t & _ & Ht)|[? _]]; [by eapply snapshot_listed|done].
    - apply on_way_foldl; [|split_and!; auto]. intros j e _. by apply on_way_writeOne. }
  pose proof (on_way_seen i _ [] (ids_of (other_ids tags_of ids_of id pre post (mk_tagged m))) Hn Hway) as Hsee. split; [exact Hsee|]. split.
  - apply on_way_foldl with (l := ids_of (other_ids tags_of ids_of id pre post (mk_tagged m))) in Hway
      as (_ & _ & [[]|[[row Hrow] _]]); [|intros j e _; by apply on_way_writeOne].
    cbn [image_abs sp_images] in Hrow. rewrite lookup_tbl_map in Hrow. exists row. split; [done|].
    apply tbl_lookup_Some in Hrow as [Hin Hk]. destruct (ga_new _ _ _ Hgain row Hin) as [Hold|[_ [H _]]]; [|done].
    apply Hu in Hold. cbv [key_of image_keyed] in Hk. rewrite Hk in Hold. unfold denotes in Hold. by rewrite eqb_str_refl in Hold.
  - apply new_tags_close; [exact Hnew|done].
Qed.

(** A closed connection opens the images of others.  For a tag that has not moved
    the command line is not asked: the user is given a reference to every tagged
    image that is recorded for somebody else, may then use it and is shown it. *)
Theorem build_opens_other_images pre answer post sv tag i row :
  snapshotImageState answer = Some post →
  writes_left (sv_db sv) = None → image_wf (sv_db sv) → normalizeImageID i ≠ "" →
  tagToID pre !! tag = Some i → tagToID post !! tag = Some i →
  tbl_lookup (normalizeImageID i) (images (sv_db sv)) = Some row → i_owner_uid row ≠ uid →
  tbl_lookup (normalizeImageID i, uid) (image_access (sv_db sv)) = None →
  let d' := sv_db (trackBuildKitImages tags_of ids_of now id pre answer sv) in
  CanSeeImage uid i d' = true ∧ CanUseImage uid i d' = true.
Proof.
  intros E Hw Hwf Hn Hpre Hpost Hrow Hown Hno d'.
  assert (awaits i row (sv_db sv)) as Haw.
  { split_and!; [done..|left]. cbn [image_abs sp_access]. by rewrite lookup_fmap, lookup_tbl_map, Hno. }
  pose proof (unchanged_tag_referenced pre post tag i row _ Hn Haw Hown Hpre Hpost) as Hm.
  pose proof (on_way_seen i _ (ids_of (mk_tagged (mark_tags tags_of id pre post (sv_db sv))))
    (ids_of (other_ids tags_of ids_of id pre post (mk_tagged (mark_tags tags_of id pre post (sv_db sv))))) Hn Hm) as Hsee.
  assert (CanSeeImage uid i d' = true) as H by (subst d'; unfold trackBuildKitImages; rewrite E; exact Hsee).
  split; [done|]. apply seen_image_is_usable; [|done].
  by apply (ga_wf _ _ _ (gained_track pre answer post sv E)).
Qed.
End track_laws.

(** Nothing of a chunked answer is lost or added: the copy is a beginning of what
    the daemon sends, a whole chunked body is copied and the copying then stops
    without waiting for the connection to close, and the rounds provided are enough. *)
Theorem chunked_answers_are_copied s :
  (∃ rest, s = (relay_chunked s).1 +:+ rest) ∧
  (∀ more, relay_rounds (S (slen s) + more) s = relay_chunked s) ∧
  (∀ body rest, s = body +:+ rest → chunked_body body → relay_chunked s = (body, Terminated)).
Proof.
  destruct (relay_rounds_copies (S (slen s)) s) as [H1 H2]; [lia|]. split_and!; [done..|].
  intros body rest -> Hb. by apply relay_rounds_body; [|lia].
Qed.

Section connection_laws.
Context (tags_of : gmap string string → list (string * string)) (ids_of : gset string → list string) (env : ProxyEnv).
Hypothesis tags_of_all : ∀ m, Permutation (tags_of m) (map_to_list m).

(** The decision is that of Pipeline. *)
Lemma hijack_session_served now id r peer st :
  (hijack_session tags_of ids_of env now id r peer st).1 = (serve_hijack env id r (sv_db (bs_server st))).1.
Proof.
  unfold hijack_session, serve_hijack. destruct (policy_denies _ _ _ _); [done|].
  assert (sv_db (bs_server (open_connection id r st)) = sv_db (bs_server st)) as -> by (unfold open_connection; by case_match).
  by destruct (handleHijack _ _ _ _).
Qed.

(** A tag that names no new image keeps its entry.  The tags of the command line are
    put in the map of pending builds before the request is decided, and only those
    found on new images are taken out, and no timer ever: after a build that was
    refused or has failed, events of images of the name are shown to that user and to
    nobody else, the owner of the image included. *)
Theorem unbuilt_tag_keeps_its_entry now id r peer st tag ev uid sudoCtx :
  isGRPC r = true → policy_denies env id (ClassifyAction (rq_Method r) (RequestURI (rq_URL r))) r = false →
  tag ∈ parseBuildxTags (CmdLine id) →
  (∀ pre post i, snapshotImageState (pr_before peer) = Some pre → snapshotImageState (pr_after peer) = Some post →
     tagToID post !! tag = Some i → tagToID pre !! tag = Some i) →
  let st' := (hijack_session tags_of ids_of env now id r peer st).2 in
  pendingBuildTags (sv_maps (bs_server st')) !! tag = Some (owner_info id) ∧
  (ev_Type ev = "image" → map_get (ev_Attributes ev) "name" = tag → tag ≠ "" → HasPrefix tag sha256_prefix = false →
   eventBelongsToUser (event_state (bs_server st')) (Some ev) uid sudoCtx =
     bool_decide (uid = RealUID id) && negb (hidden sudoCtx (if IsSudoCommand id then 1 else 0))).
Proof.
  intros Hg Hp Htag Hsame st'.
  assert (pendingBuildTags (sv_maps (bs_server st')) !! tag = Some (owner_info id)) as Hpend.
  { subst st'. unfold hijack_session. rewrite Hp. unfold open_connection. rewrite Hg.
    destruct (handleHijack _ _ _ _) as [served d]. cbn [snd bs_server note sv_maps].
    assert (pendingBuildTags (open_build (owner_info id) (parseBuildxTags (CmdLine id)) (sv_maps (bs_server st))) !! tag
            = Some (owner_info id)) as Hopen by (rewrite open_build_pending; by rewrite bool_decide_eq_true_2).
    destruct served; try exact Hopen. destruct (pr_head peer) as [[line headers]|]; [|exact Hopen].
    destruct (relays_raw line headers); [|exact Hopen]. unfold close_connection. rewrite Hg.
    destruct (snapshotImageState (pr_before peer)) as [pre|] eqn:Epre; [|exact Hopen].
    cbn [bs_server]. unfold trackBuildKitImages. destruct (snapshotImageState (pr_after peer)) as [post|] eqn:Epost; [|exact Hopen].
    cbn [sv_maps sv_db]. apply unnamed_stays; [|exact Hopen].
    intros Hin. destruct (mark_tags_moved _ tags_of_all _ _ _ _ _ Hin) as (i & Hi & Hn). eapply Hn, Hsame; eauto. }
  split; [done|]. intros Ht Hname Hne Hsha. rewrite (tag_entry_decides _ _ (owner_info id)) by (rewrite ?Hname; auto).
  apply owner_verdict.
Qed.
End connection_laws.

(** ** Examples *)

Module HijackDemo.

Definition CRLF : string := String "013" (String "010" "").
Definition tags_of (m : gmap string string) : list (string * string) := map_to_list m.
Definition ids_of (X : gset string) : list string := elements X.

(** A chunk of three bytes, the last chunk, and what the daemon sends next. *)
Definition body_of_three : string := "3;x=1" +:+ CRLF +:+ ("abc" +:+ CRLF) +:+ "0" +:+ CRLF +:+ CRLF.
Example copied : relay_chunked (body_of_three +:+ "later") = (body_of_three, Terminated)
  ∧ relay_chunked ("-9" +:+ CRLF) = ("-9" +:+ CRLF, Panicked) ∧ relay_chunked ("zz" +:+ CRLF) = ("zz" +:+ CRLF, Cut).
Proof. split_and!; vm_compute; reflexivity. Qed.

(** alice builds [app:latest] with BuildKit; the image of bob goes by [bobs:1]. *)
Definition build_view : ProcView :=
  mkProcView (Some (Demo.status "1001" "1001")) (Some "1001") None (Some "docker")
    (Some (GoStrings.Join ["docker"; "build"; "-t"; "app:latest"; "."; ""] (String NUL ""))).
Definition alice : CallerIdentity := Demo.resolved (mkUcred 77 1001 1001) build_view.
Definition built : string := "00aa11bb22cc33dd00aa11bb22cc33dd00aa11bb22cc33dd00aa11bb22cc33dd".
Definition listed (id : string) (tags : list string) : json :=
  JObj [("Id", JStr (sha256_prefix +:+ id)); ("RepoTags", JArr (JStr <$> tags))].
Definition before : option body := Some (Doc (JArr [listed ImageDemo.long ["bobs:1"]])).
Definition after : option body := Some (Doc (JArr [listed ImageDemo.long ["bobs:1"]; listed built ["app:latest"]])).
Definition pre : imageSnapshot := default (mkImageSnapshot ∅ ∅) (snapshotImageState before).
Definition post : imageSnapshot := default (mkImageSnapshot ∅ ∅) (snapshotImageState after).

(** bob's image, to which alice has no reference. *)
Definition db : OwnershipDB := run_image_ops [OpSetImageOwner 7 ImageDemo.digest ImageDemo.bob false "build"] initSchema.
Definition maps : EventState := mkEventState ∅ ∅ ∅ ∅ ∅ None.
Definition opened : Server := mkServer db (open_build (owner_info alice) ["app:latest"] maps).
Definition closed : Server := trackBuildKitImages tags_of ids_of 9 alice pre after opened.

Definition grpc : Request := plain_request "POST" "/grpc" "" EmptyBody.
(** The build fails: the images stay as they are. *)
Definition failing : Peer := mkPeer before (Some ("HTTP/1.1 101 UPGRADED" +:+ CRLF, [])) before.
Definition failed : BuildServer := (hijack_session tags_of ids_of PipelineDemo.env 9 alice grpc failing (mkBuildServer (mkServer db maps) ∅)).2.

End HijackDemo.

(** ** Witnesses *)

Lemma build_records_own_images_witness :
  attributed [] 1001 (sv_db HijackDemo.opened) (sv_db HijackDemo.closed) ∧
  i_image_id <$> images (sv_db HijackDemo.closed) = [ImageDemo.long; HijackDemo.built].
Proof.
  split; [|vm_compute; reflexivity].
  refine (proj2 (proj2 (build_records_own_images HijackDemo.tags_of HijackDemo.ids_of (λ m, Permutation_refl _) (λ X, Permutation_refl _)
    9 HijackDemo.alice HijackDemo.pre HijackDemo.after HijackDemo.post HijackDemo.opened _))).
  vm_compute. reflexivity.
Defined.

Lemma HijackDemo_wf : image_wf (sv_db HijackDemo.opened).
Proof.
  change (image_wf (run_image_op (OpSetImageOwner 7 ImageDemo.digest ImageDemo.bob false "build") initSchema)).
  apply image_wf_step, initSchema_wf.
Qed.

Lemma built_image_is_recorded_witness : CanSeeImage 1001 HijackDemo.built (sv_db HijackDemo.closed) = true.
Proof.
  refine (proj1 (built_image_is_recorded HijackDemo.tags_of HijackDemo.ids_of (λ m, Permutation_refl _) (λ X, Permutation_refl _)
    9 HijackDemo.alice HijackDemo.pre HijackDemo.after HijackDemo.post HijackDemo.opened "app:latest" HijackDemo.built
    _ _ HijackDemo_wf _ _ _ _ _ _ _ _)).
  1-3,6,10: vm_compute; reflexivity.
  - vm_compute. discriminate.
  - vm_compute. left.
  - assert (tagToID HijackDemo.pre !! "app:latest" = None) as -> by (vm_compute; reflexivity). discriminate.
  - intros row. change (images (sv_db HijackDemo.opened)) with [mkImageRow ImageDemo.long "bob" 1002 1002 0 0 "build" 7].
    intros ->%list_elem_of_singleton. vm_compute. reflexivity.
  - intros j Hj%elem_of_elements Hne.
    assert (elements (idSet HijackDemo.post) = [HijackDemo.built; ImageDemo.long] ∨
            elements (idSet HijackDemo.post) = [ImageDemo.long; HijackDemo.built]) as E
      by (vm_compute; first [left; reflexivity|right; reflexivity]).
    assert (j = HijackDemo.built ∨ j = ImageDemo.long) as [->| ->]; [|done|vm_compute; reflexivity].
    destruct E as [E|E]; rewrite E in Hj; apply elem_of_cons in Hj as [->|Hj%list_elem_of_singleton]; auto.
Defined.

Lemma build_opens_other_images_witness :
  CanUseImage 1001 ImageDemo.long (sv_db HijackDemo.opened) = false ∧
  CanUseImage 1001 ImageDemo.long (sv_db HijackDemo.closed) = true.
Proof.
  split; [vm_compute; reflexivity|].
  refine (proj2 (build_opens_other_images HijackDemo.tags_of HijackDemo.ids_of (λ m, Permutation_refl _) (λ X, Permutation_refl _)
    9 HijackDemo.alice HijackDemo.pre HijackDemo.after HijackDemo.post HijackDemo.opened "bobs:1" ImageDemo.long
    (mkImageRow ImageDemo.long "bob" 1002 1002 0 0 "build" 7) _ _ HijackDemo_wf _ _ _ _ _ _));
    vm_compute; first [reflexivity|discriminate].
Defined.

Lemma unbuilt_tag_keeps_its_entry_witness :
  pendingBuildTags (sv_maps (bs_server HijackDemo.failed)) !! "app:latest" = Some (owner_info HijackDemo.alice).
Proof.
  refine (proj1 (unbuilt_tag_keeps_its_entry HijackDemo.tags_of HijackDemo.ids_of PipelineDemo.env (λ m, Permutation_refl _)
    9 HijackDemo.alice HijackDemo.grpc HijackDemo.failing (mkBuildServer (mkServer HijackDemo.db HijackDemo.maps) ∅) "app:latest"
    (mkEvent "image" "tag" "" ∅) 1002 false _ _ _ _)).
  1-2: vm_compute; reflexivity.
  - vm_compute. left.
  - intros p q i Hp Hq Ht. change (pr_after HijackDemo.failing) with (pr_before HijackDemo.failing) in Hq. congruence.
Defined.
