(* ===== verification/Relay.v ===== *)
(** * Relay: the two directions of an upgraded connection

    The end of [handleHijack] of [internal/forward/proxy.go] (4416-4463): when the
    daemon's answer is not chunked its head is sent on, and from then on two routines copy
    what the client sends to the daemon and what the daemon sends to the client, while
    the handler waits for one of them and closes the connections.  [io.Copy] is taken
    apart into its reads and writes, so that everything can happen in between: a
    state is what has gone over each connection and where the three are, an event is a
    move of one of them or of one of the two parties outside, and [step] is what
    it does, if it can happen.  A write may take a part of what it is given; a party that
    has not gone takes what is written at some time. *)

From S2P Require Import Prelude GoStrings.
Local Open Scope nat_scope.

(** ** Connections *)

(** One of the two connections, from the proxy's side: all that has arrived on it and
    what of it is still to be read; whether the party has ended what it sends, or is gone
    altogether; whether the proxy has shut its sending side, or closed it; and what has
    been written. *)
Record Conn := mkConn {
  arrived : string; inbox : string; ended : bool; gone : bool; shut : bool; closed : bool; written : string;
}.
Definition with_inbox (s : string) (c : Conn) : Conn := mkConn (arrived c) s (ended c) (gone c) (shut c) (closed c) (written c).
Definition CloseWrite (c : Conn) : Conn := mkConn (arrived c) (inbox c) (ended c) (gone c) true (closed c) (written c).
Definition CloseConn (c : Conn) : Conn := mkConn (arrived c) (inbox c) (ended c) (gone c) (shut c) true (written c).
Definition with_written (s : string) (c : Conn) : Conn := mkConn (arrived c) (inbox c) (ended c) (gone c) (shut c) (closed c) (written c +:+ s).

(** A routine: in [io.Copy], which reads and writes in turn, behind it, behind the
    half-close, and when its channel is closed. *)
Inductive Way := Reading | Writing (held : string) | CopyOver | HalfClosed | Finished.

(** A read of [n] bytes at most: [None] while there is nothing to read. *)
Definition read_from (n : nat) (c : Conn) : option (Conn * Way) :=
  if closed c || gone c then Some (c, CopyOver)
  else if inbox c ==s "" then if ended c then Some (c, CopyOver) else None
  else match n with
       | O => None
       | _ => Some (with_inbox (str_drop n (inbox c)) c, Writing (str_take n (inbox c)))
       end.
(** A write of what is held, of which [n] bytes are taken. *)
Definition write_to (n : nat) (held : string) (c : Conn) : option (Conn * Way) :=
  if closed c || gone c || shut c then Some (c, CopyOver)
  else match n with
       | O => None
       | _ => Some (with_written (str_take n held) c, if str_drop n held ==s "" then Reading else Writing (str_drop n held))
       end.

(** ** The handler *)

Inductive Stage := Selecting | AwaitsClient | AwaitsUpstream | HandlerReturned.
Record Relay := mkRelay { client : Conn; upstream : Conn; up : Way; down : Way; stage : Stage }.

Inductive RelayEvent :=
  (** the routine from the client to the daemon *)
  | UpReads (n : nat) | UpWrites (n : nat) | UpShuts | UpDone
  (** the routine from the daemon to the client *)
  | DownReads (n : nat) | DownWrites (n : nat) | DownDone
  (** the handler *)
  | SelectsUpstream | SelectsClient | HandlerReturns
  (** the parties *)
  | ClientSends (s : string) | ClientEnds | ClientGoes | UpstreamSends (s : string) | UpstreamEnds | UpstreamGoes.

Definition sends (s : string) (c : Conn) : option Conn :=
  if ended c || gone c then None else Some (mkConn (arrived c +:+ s) (inbox c +:+ s) false false (shut c) (closed c) (written c)).
Definition ends (c : Conn) : option Conn :=
  if gone c then None else Some (mkConn (arrived c) (inbox c) true false (shut c) (closed c) (written c)).
Definition goes (c : Conn) : Conn := mkConn (arrived c) (inbox c) (ended c) true (shut c) (closed c) (written c).

Definition step (e : RelayEvent) (l : Relay) : option Relay :=
  let '(mkRelay c u up down st) := l in
  match e with
  | UpReads n => match up with Reading => '(c, up) ← read_from n c; Some (mkRelay c u up down st) | _ => None end
  | UpWrites n => match up with Writing held => '(u, up) ← write_to n held u; Some (mkRelay c u up down st) | _ => None end
  | UpShuts => match up with CopyOver => Some (mkRelay c (CloseWrite u) HalfClosed down st) | _ => None end
  | UpDone => match up with HalfClosed => Some (mkRelay c u Finished down st) | _ => None end
  | DownReads n => match down with Reading => '(u, down) ← read_from n u; Some (mkRelay c u up down st) | _ => None end
  | DownWrites n => match down with Writing held => '(c, down) ← write_to n held c; Some (mkRelay c u up down st) | _ => None end
  | DownDone => match down with CopyOver => Some (mkRelay c u up Finished st) | _ => None end
  | SelectsUpstream =>
    match st, down with Selecting, Finished => Some (mkRelay (CloseConn c) (CloseConn u) up down AwaitsClient) | _, _ => None end
  | SelectsClient =>
    match st, up with Selecting, Finished => Some (mkRelay c (CloseWrite u) up down AwaitsUpstream) | _, _ => None end
  | HandlerReturns =>
    match st, up, down with
    | AwaitsClient, Finished, _ => Some (mkRelay c u up down HandlerReturned)
    | AwaitsUpstream, _, Finished => Some (mkRelay (CloseConn c) (CloseConn u) up down HandlerReturned)
    | _, _, _ => None
    end
  | ClientSends s => (λ c, mkRelay c u up down st) <$> sends s c
  | ClientEnds => (λ c, mkRelay c u up down st) <$> ends c
  | ClientGoes => Some (mkRelay (goes c) u up down st)
  | UpstreamSends s => (λ u, mkRelay c u up down st) <$> sends s u
  | UpstreamEnds => (λ u, mkRelay c u up down st) <$> ends u
  | UpstreamGoes => Some (mkRelay c (goes u) up down st)
  end.
Definition is_program (e : RelayEvent) : bool :=
  match e with ClientSends _ | ClientEnds | ClientGoes | UpstreamSends _ | UpstreamEnds | UpstreamGoes => false | _ => true end.

(** The start: what the client and the daemon had sent before is there to be read (behind the
    head of the answer, in the daemon's case). *)
Definition open_conn (before : string) : Conn := mkConn before before false false false false "".
Definition start_relay (from_client from_upstream : string) : Relay :=
  mkRelay (open_conn from_client) (open_conn from_upstream) Reading Reading Selecting.

Definition relay_step (l l' : Relay) : Prop := ∃ e, step e l = Some l'.
Definition program_step (l l' : Relay) : Prop := ∃ e, is_program e = true ∧ step e l = Some l'.
Definition relay_reachable (l : Relay) : Prop := ∃ a b, rtc relay_step (start_relay a b) l.
(** A run of given events. *)
Fixpoint run_events (es : list RelayEvent) (l : Relay) : option Relay :=
  match es with [] => Some l | e :: es => l ← step e l; run_events es l end.

(** ** Lemmas: what a direction has copied *)

(** Between a source and a destination nothing is lost or made up while the copying goes
    on; when it is over what was written is a beginning of what has arrived, and all of
    it, to its end, unless a party is gone or there is another [excuse]. *)
Definition copies (excuse : bool) (src dst : Conn) (w : Way) : Prop :=
  match w with
  | Reading => arrived src = written dst +:+ inbox src
  | Writing held => arrived src = written dst +:+ held +:+ inbox src
  | _ => (∃ rest, arrived src = written dst +:+ rest) ∧
         (gone src = false → gone dst = false → excuse = false → arrived src = written dst ∧ ended src = true)
  end.

Lemma copies_src x src src' dst w :
  arrived src' = arrived src → inbox src' = inbox src → (ended src = true → ended src' = true) → (gone src' = false → gone src = false) →
  copies x src dst w → copies x src' dst w.
Proof. intros Ha Hi He Hg. destruct w; cbn; rewrite ?Ha, ?Hi; try done; intros [H1 H2]; (split; [done|]); intros; destruct H2; auto. Qed.
Lemma copies_dst x src dst dst' w :
  written dst' = written dst → (gone dst' = false → gone dst = false) → copies x src dst w → copies x src dst' w.
Proof. intros Hw Hg. destruct w; cbn; rewrite ?Hw; try done; intros [H1 H2]; (split; [done|]); intros; destruct H2; auto. Qed.
Lemma copies_excuse x y src dst w : (y = false → x = false) → copies x src dst w → copies y src dst w.
Proof. intros Hx. destruct w; cbn; try done; intros [H1 H2]; (split; [done|]); intros; destruct H2; auto. Qed.
Lemma copies_over x src dst w w' : w ∈ [CopyOver; HalfClosed; Finished] → w' ∈ [CopyOver; HalfClosed; Finished] → copies x src dst w → copies x src dst w'.
Proof. rewrite !elem_of_cons, !elem_of_nil. intros Hw Hw'. by destruct_or! Hw; destruct_or! Hw'; subst. Qed.
Lemma copies_sends x src src' dst s w : sends s src = Some src' → copies x src dst w → copies x src' dst w.
Proof.
  unfold sends. destruct (ended src) eqn:He, (gone src) eqn:Hg; try done. intros [= <-]. destruct w; cbn; intros H;
    try (rewrite H, ?app_assoc_str; done); destruct H as [[rest ->] H2]; (split; [exists (rest +:+ s); by rewrite app_assoc_str|]);
    intros _ Hd Hx; destruct (H2 Hg Hd Hx); congruence.
Qed.
Lemma copies_read x n src src' dst w :
  read_from n src = Some (src', w) → (closed src = true → x = true) → copies x src dst Reading → copies x src' dst w.
Proof.
  unfold read_from. intros Hr Hc H. cbn in H. destruct (closed src || gone src) eqn:Hcg.
  - injection Hr as <- <-. cbn. split; [by exists (inbox src)|]. intros Hg _ Hx. rewrite Hg, orb_false_r in Hcg. rewrite Hc in Hx; done.
  - destruct (String.eqb_spec (inbox src) "") as [Hi|Hi].
    + destruct (ended src) eqn:He; [|done]. injection Hr as <- <-. rewrite Hi, app_nil_r_str in H. cbn.
      split; [exists ""; by rewrite app_nil_r_str|done].
    + destruct n as [|n]; [done|]. pose proof (str_take_drop (S n) (inbox src)) as Htd.
      apply Some_inj, pair_eq in Hr as [<- <-]. cbn [copies arrived inbox with_inbox]. by rewrite H, Htd.
Qed.
Lemma copies_write x n held src dst dst' w :
  write_to n held dst = Some (dst', w) → (closed dst = true → x = true) → shut dst = false →
  copies x src dst (Writing held) → copies x src dst' w.
Proof.
  unfold write_to. intros Hw Hc Hs H. cbn in H. rewrite Hs, orb_false_r in Hw. destruct (closed dst || gone dst) eqn:Hcg.
  - injection Hw as <- <-. cbn. split; [by eexists|]. intros _ Hg Hx. rewrite Hg, orb_false_r in Hcg. rewrite Hc in Hx; done.
  - destruct n as [|n]; [done|]. apply Some_inj, pair_eq in Hw as [<- <-]. pose proof (str_take_drop (S n) held) as Htd.
    destruct (String.eqb_spec (str_drop (S n) held) "") as [He|He]; cbn [copies written with_written].
    + rewrite He, app_nil_r_str in Htd. by rewrite Htd, <- app_assoc_str.
    + rewrite <- Htd in H. by rewrite H, !app_assoc_str.
Qed.

(** ** Lemmas: the invariant of the handler *)

Definition over (w : Way) : bool := match w with CopyOver | HalfClosed | Finished => true | _ => false end.
(** What holds in each stage: the connections are closed once the output is over. *)
Definition stage_ok (l : Relay) : Prop :=
  match stage l with
  | Selecting => closed (client l) = false
  | AwaitsUpstream => closed (client l) = false ∧ up l = Finished
  | AwaitsClient => closed (client l) = true ∧ down l = Finished
  | HandlerReturned => closed (client l) = true ∧ up l = Finished ∧ down l = Finished
  end.
Record relay_ok (l : Relay) : Prop := {
  rk_up : copies (closed (client l)) (client l) (upstream l) (up l);
  rk_down : copies false (upstream l) (client l) (down l);
  rk_closed : closed (client l) = closed (upstream l);
  rk_client_open : shut (client l) = false;
  rk_half_closed : shut (upstream l) = true → over (up l) = true;
  rk_stage : stage_ok l;
}.

Lemma start_relay_ok a b : relay_ok (start_relay a b).
Proof. by constructor. Qed.
Lemma stage_open l : relay_ok l → down l ≠ Finished → closed (client l) = false.
Proof. intros H. pose proof (rk_stage l H) as Hs. unfold stage_ok in Hs. destruct (stage l); intros; naive_solver. Qed.
Lemma sends_fields s c c' : sends s c = Some c' →
  written c' = written c ∧ gone c' = gone c ∧ shut c' = shut c ∧ closed c' = closed c ∧ ended c = false.
Proof. unfold sends. destruct (ended c), (gone c); try done. by intros [= <-]. Qed.
Lemma ends_fields c c' : ends c = Some c' →
  arrived c' = arrived c ∧ inbox c' = inbox c ∧ written c' = written c ∧ ended c' = true ∧ gone c' = gone c ∧ shut c' = shut c ∧ closed c' = closed c.
Proof. unfold ends. destruct (gone c); try done. by intros [= <-]. Qed.
Lemma read_fields n c c' w : read_from n c = Some (c', w) →
  written c' = written c ∧ gone c' = gone c ∧ shut c' = shut c ∧ closed c' = closed c ∧ arrived c' = arrived c ∧ ended c' = ended c.
Proof. unfold read_from. repeat case_match; intros [= <- <-]; done. Qed.
Lemma write_fields n h c c' w : write_to n h c = Some (c', w) →
  arrived c' = arrived c ∧ inbox c' = inbox c ∧ ended c' = ended c ∧ gone c' = gone c ∧ shut c' = shut c ∧ closed c' = closed c.
Proof. unfold write_to. repeat case_match; intros [= <- <-]; done. Qed.

(** A direction after a move of the other. *)
Ltac keep_copies :=
  match goal with
  | H : copies _ ?s ?d ?w |- copies _ ?s' ?d' ?w =>
    apply (copies_src _ s s' d' w); [intros; cbn in *; congruence..|]; apply (copies_dst _ s d d' w); [intros; cbn in *; congruence..|]; exact H
  end.

Lemma stage_ok_up l l' :
  stage l' = stage l → closed (client l') = closed (client l) → down l' = down l → up l ≠ Finished → stage_ok l → stage_ok l'.
Proof. unfold stage_ok. intros -> -> ->. destruct (stage l); naive_solver. Qed.
Lemma stage_ok_down l l' :
  stage l' = stage l → closed (client l') = closed (client l) → up l' = up l → down l ≠ Finished → stage_ok l → stage_ok l'.
Proof. unfold stage_ok. intros -> -> ->. destruct (stage l); naive_solver. Qed.
Lemma stage_ok_same l l' :
  stage l' = stage l → closed (client l') = closed (client l) → up l' = up l → down l' = down l → stage_ok l → stage_ok l'.
Proof. unfold stage_ok. by intros -> -> -> ->. Qed.

Ltac stage_by lem := match goal with H : stage_ok _ |- stage_ok _ => refine (lem _ _ _ _ _ _ H); cbn; congruence end.
Lemma up_step_ok e l l' : e ∈ [UpShuts; UpDone] ∨ (∃ n, e = UpReads n ∨ e = UpWrites n) → step e l = Some l' → relay_ok l → relay_ok l'.
Proof.
  intros He Hs [Hup Hdown Hcl Hco Hhc Hst]. destruct l as [c u w1 w2 st]. cbn [client upstream up down] in *.
  rewrite !elem_of_cons, elem_of_nil in He. destruct He as [[->|[->|[]]]|[n [->| ->]]]; cbn [step] in Hs; destruct w1 as [|held| | |]; try done.
  - injection Hs as <-. constructor; cbn; try done. stage_by stage_ok_up.
  - injection Hs as <-. constructor; cbn; try done. stage_by stage_ok_up.
  - destruct (read_from n c) as [[c' w]|] eqn:E; [|done]. injection Hs as <-. pose proof (read_fields _ _ _ _ E) as (? & ? & ? & Hc & ? & ?).
    constructor; cbn; try congruence; try (stage_by stage_ok_up); try (by keep_copies); [rewrite Hc; by eapply copies_read|].
    intros Hu. by specialize (Hhc Hu).
  - destruct (write_to n held u) as [[u' w]|] eqn:E; [|done]. injection Hs as <-. pose proof (write_fields _ _ _ _ _ E) as (? & ? & ? & ? & Hsu & ?).
    assert (shut u = false) as Hu by (destruct (shut u); [by specialize (Hhc eq_refl)|done]).
    constructor; cbn; try congruence; try (stage_by stage_ok_up); try (by keep_copies); eapply copies_write; [done|congruence|done..].
Qed.
Lemma down_step_ok e l l' : e = DownDone ∨ (∃ n, e = DownReads n ∨ e = DownWrites n) → step e l = Some l' → relay_ok l → relay_ok l'.
Proof.
  intros He Hs Hok. pose proof (stage_open l Hok) as Hopen. destruct Hok as [Hup Hdown Hcl Hco Hhc Hst].
  destruct l as [c u w1 w2 st]. cbn [client upstream up down] in *.
  destruct He as [->|[n [->| ->]]]; cbn [step] in Hs; destruct w2 as [|held| | |]; try done; specialize (Hopen ltac:(done)).
  - injection Hs as <-. constructor; cbn; try done. stage_by stage_ok_down.
  - destruct (read_from n u) as [[u' w]|] eqn:E; [|done]. injection Hs as <-. pose proof (read_fields _ _ _ _ E) as (? & ? & Hsu & Hc & ? & ?).
    constructor; cbn; try congruence; try (stage_by stage_ok_down); try (by keep_copies); try (by rewrite Hsu); eapply copies_read; [done|congruence|done].
  - destruct (write_to n held c) as [[c' w]|] eqn:E; [|done]. injection Hs as <-. pose proof (write_fields _ _ _ _ _ E) as (? & ? & ? & ? & Hsu & Hc).
    constructor; cbn; try congruence; try (stage_by stage_ok_down); try (by rewrite Hc; keep_copies); try done; eapply copies_write; [done|congruence|done..].
Qed.

Lemma copies_closed x src dst w : x = false → copies x src dst w → copies true (CloseConn src) (CloseConn dst) w.
Proof. intros -> H. destruct w; cbn in *; try done; destruct H; by split. Qed.
Lemma handler_step_ok e l l' : e ∈ [SelectsUpstream; SelectsClient; HandlerReturns] → step e l = Some l' → relay_ok l → relay_ok l'.
Proof.
  intros He Hs [Hup Hdown Hcl Hco Hhc Hst]. destruct l as [c u w1 w2 st]. cbn [client upstream up down] in *.
  rewrite !elem_of_cons, elem_of_nil in He. destruct_or! He; try done; subst e; cbn [step] in Hs; unfold stage_ok in Hst; cbn in Hst; destruct st; try done.
  - destruct w2; try done. injection Hs as <-. constructor; cbn; try done. by eapply copies_closed.
  - destruct w1; try done. injection Hs as <-. constructor; cbn; try done.
  - destruct w1; try done. injection Hs as <-. destruct Hst. constructor; cbn; try done.
  - destruct Hst as [Hc Hw]. subst w1. destruct w2; try done. injection Hs as <-. constructor; cbn; try done.
    by eapply (copies_closed _ _ _ Finished).
Qed.
Lemma party_step_ok e l l' : is_program e = false → step e l = Some l' → relay_ok l → relay_ok l'.
Proof.
  intros He Hs [Hup Hdown Hcl Hco Hhc Hst]. destruct l as [c u w1 w2 st]. cbn [client upstream up down] in *.
  destruct e; try done; cbn [step] in Hs.
  - destruct (sends s c) as [c'|] eqn:E; [|done]. injection Hs as <-. destruct (sends_fields _ _ _ E) as (? & ? & ? & Hc & ?).
    constructor; cbn; try congruence; try done; [rewrite Hc; by eapply copies_sends|by keep_copies|stage_by stage_ok_same].
  - destruct (ends c) as [c'|] eqn:E; [|done]. injection Hs as <-. destruct (ends_fields _ _ E) as (? & ? & ? & ? & ? & ? & Hc).
    constructor; cbn; try congruence; try done; [rewrite Hc; by keep_copies|by keep_copies|stage_by stage_ok_same].
  - injection Hs as <-. constructor; cbn; try done; by keep_copies.
  - destruct (sends s u) as [u'|] eqn:E; [|done]. injection Hs as <-. destruct (sends_fields _ _ _ E) as (? & ? & Hsu & ? & ?).
    constructor; cbn; try congruence; try done; [by keep_copies|by eapply copies_sends|by rewrite Hsu].
  - destruct (ends u) as [u'|] eqn:E; [|done]. injection Hs as <-. destruct (ends_fields _ _ E) as (? & ? & ? & ? & ? & Hsu & ?).
    constructor; cbn; try congruence; try done; [by keep_copies|by keep_copies|by rewrite Hsu].
  - injection Hs as <-. constructor; cbn; try done; by keep_copies.
Qed.

Lemma step_ok e l l' : step e l = Some l' → relay_ok l → relay_ok l'.
Proof.
  destruct (is_program e) eqn:Hp; [|by apply party_step_ok].
  destruct e; try done; intros; first
    [ eapply up_step_ok; [|done|done]; solve [left; repeat constructor|right; eauto]
    | eapply down_step_ok; [|done|done]; solve [by left|right; eauto]
    | eapply handler_step_ok; [|done|done]; repeat constructor ].
Qed.
Lemma relay_reachable_ok l : relay_reachable l → relay_ok l.
Proof.
  intros (a & b & H). revert H. generalize (start_relay_ok a b). generalize (start_relay a b).
  intros l0 H0 H. induction H as [|l0 l1 l2 [e Hs] _ IH]; [done|]. apply IH. by eapply step_ok.
Qed.

(** ** Lemmas: the end *)

(** What is left to do: a byte is read and then written; every routine goes through its
    ends, and the handler through two stages. *)
Definition way_left (w : Way) : nat :=
  match w with Reading => 3 | Writing held => 3 + slen held | CopyOver => 2 | HalfClosed => 1 | Finished => 0 end.
Definition stage_left (s : Stage) : nat := match s with Selecting => 2 | AwaitsClient | AwaitsUpstream => 1 | HandlerReturned => 0 end.
Definition work_left (l : Relay) : nat :=
  2 * slen (inbox (client l)) + 2 * slen (inbox (upstream l)) + way_left (up l) + way_left (down l) + stage_left (stage l).

Lemma read_left n c c' w : read_from n c = Some (c', w) → 2 * slen (inbox c') + way_left w < 2 * slen (inbox c) + 3.
Proof.
  unfold read_from. destruct (closed c || gone c); [intros [= <- <-]; cbn; lia|].
  destruct (String.eqb_spec (inbox c) "") as [Hi|Hi]; [destruct (ended c); intros [= <- <-]; cbn; lia|].
  destruct n as [|n]; [done|]. intros [<- <-]%Some_inj%pair_eq. cbn [inbox with_inbox way_left]. rewrite slen_take, slen_drop.
  destruct (inbox c) as [|? ?]; [done|]. cbn. lia.
Qed.
Lemma write_left n held c c' w : held ≠ "" → write_to n held c = Some (c', w) → inbox c' = inbox c ∧ way_left w < 3 + slen held.
Proof.
  intros Hh. unfold write_to. destruct (closed c || gone c || shut c); [intros [= <- <-]; cbn; split; [done|lia]|].
  destruct n as [|n]; [done|]. intros [<- <-]%Some_inj%pair_eq. split; [done|].
  assert (slen held ≠ 0) by (by destruct held).
  destruct (_ ==s _); cbn [way_left]; [lia|]. rewrite slen_drop. lia.
Qed.
(** What a routine holds is not nothing. *)
Definition holds_something (w : Way) : Prop := match w with Writing held => held ≠ "" | _ => True end.
Definition ways_ok (l : Relay) : Prop := holds_something (up l) ∧ holds_something (down l) ∧ down l ≠ HalfClosed.
Lemma read_holds n c c' w : read_from n c = Some (c', w) → holds_something w.
Proof.
  unfold read_from. destruct (closed c || gone c); [by intros [= <- <-]|]. destruct (String.eqb_spec (inbox c) "") as [Hi|Hi].
  - destruct (ended c); [|done]. by intros [= <- <-].
  - destruct n as [|n]; [done|]. intros [<- <-]%Some_inj%pair_eq. by destruct (inbox c).
Qed.
Lemma write_holds n held c c' w : write_to n held c = Some (c', w) → holds_something w.
Proof.
  unfold write_to. destruct (closed c || gone c || shut c); [by intros [= <- <-]|]. destruct n as [|n]; [done|].
  intros [<- <-]%Some_inj%pair_eq. by destruct (String.eqb_spec (str_drop (S n) held) "").
Qed.
Lemma read_way n c c' w : read_from n c = Some (c', w) → w ≠ HalfClosed.
Proof. unfold read_from. repeat case_match; by intros [= <- <-]. Qed.
Lemma write_way n h c c' w : write_to n h c = Some (c', w) → w ≠ HalfClosed.
Proof. unfold write_to. repeat case_match; by intros [= <- <-]. Qed.
Lemma step_ways e l l' : step e l = Some l' → ways_ok l → ways_ok l'.
Proof.
  intros Hs (H1 & H2 & H3). destruct l as [c u w1 w2 st]. cbn [up down] in *.
  destruct e; cbn [step] in Hs.
  - destruct w1; try done. destruct (read_from n c) as [[c' w]|] eqn:E; [|done]. injection Hs as <-. split; [by eapply read_holds|done].
  - destruct w1; try done. destruct (write_to n held u) as [[u' w]|] eqn:E; [|done]. injection Hs as <-. split; [by eapply write_holds|done].
  - destruct w1; try done. by injection Hs as <-.
  - destruct w1; try done. by injection Hs as <-.
  - destruct w2; try done. destruct (read_from n u) as [[u' w]|] eqn:E; [|done]. injection Hs as <-. split_and!; [done|by eapply read_holds|by eapply read_way].
  - destruct w2; try done. destruct (write_to n held c) as [[c' w]|] eqn:E; [|done]. injection Hs as <-. split_and!; [done|by eapply write_holds|by eapply write_way].
  - destruct w2; try done. by injection Hs as <-.
  - destruct st, w2; try done. by injection Hs as <-.
  - destruct st, w1; try done. by injection Hs as <-.
  - destruct st, w1, w2; try done; by injection Hs as <-.
  - destruct (sends s c); try done. by injection Hs as <-.
  - destruct (ends c); try done. by injection Hs as <-.
  - by injection Hs as <-.
  - destruct (sends s u); try done. by injection Hs as <-.
  - destruct (ends u); try done. by injection Hs as <-.
  - by injection Hs as <-.
Qed.
Lemma step_left e l l' : is_program e = true → step e l = Some l' → ways_ok l → work_left l' < work_left l.
Proof.
  intros Hp Hs (H1 & H2 & _). destruct l as [c u w1 w2 st]. unfold work_left. cbn [up down client upstream stage] in *.
  destruct e; try done; cbn [step] in Hs.
  - destruct w1; try done. destruct (read_from n c) as [[c' w]|] eqn:E; [|done]. injection Hs as <-. apply read_left in E.
    cbn [way_left client upstream up down stage]. lia.
  - destruct w1; try done. destruct (write_to n held u) as [[u' w]|] eqn:E; [|done]. injection Hs as <-. apply write_left in E as [Hi E]; [|done].
    cbn [way_left client upstream up down stage]. rewrite Hi. lia.
  - destruct w1; try done. injection Hs as <-. cbn. lia.
  - destruct w1; try done. injection Hs as <-. cbn. lia.
  - destruct w2; try done. destruct (read_from n u) as [[u' w]|] eqn:E; [|done]. injection Hs as <-. apply read_left in E.
    cbn [way_left client upstream up down stage]. lia.
  - destruct w2; try done. destruct (write_to n held c) as [[c' w]|] eqn:E; [|done]. injection Hs as <-. apply write_left in E as [Hi E]; [|done].
    cbn [way_left client upstream up down stage]. rewrite Hi. lia.
  - destruct w2; try done. injection Hs as <-. cbn. lia.
  - destruct st, w2; try done. injection Hs as <-. cbn. lia.
  - destruct st, w1; try done. injection Hs as <-. cbn. lia.
  - destruct st, w1, w2; try done; injection Hs as <-; cbn; lia.
Qed.

Lemma read_enabled c : ended c = true ∨ gone c = true ∨ closed c = true → is_Some (read_from 1 c).
Proof.
  unfold read_from. intros H. destruct (closed c), (gone c); cbn; eauto. destruct H as [He|[|]]; [|done..]. rewrite He.
  destruct (inbox c ==s ""); eauto.
Qed.
Lemma write_enabled h c : is_Some (write_to 1 h c).
Proof. unfold write_to. destruct (_ || _); eauto. Qed.

Lemma relay_reachable_ways l : relay_reachable l → ways_ok l.
Proof.
  intros (a & b & H). assert (ways_ok (start_relay a b)) as H0 by done. revert H0 H. generalize (start_relay a b).
  intros l0 H0 H. induction H as [|l0 l1 l2 [e Hs] _ IH]; [done|]. apply IH. by eapply step_ways.
Qed.
Lemma program_step_reachable l l' : relay_reachable l → rtc program_step l l' → relay_reachable l'.
Proof.
  intros (a & b & H) Hs. exists a, b. etrans; [exact H|]. clear H. induction Hs as [|l0 l1 l2 (e & _ & He) _ IH]; [done|].
  eapply rtc_l; [by exists e|done].
Qed.

(** The output is over: the daemon has ended it, or is gone. *)
Definition output_over (l : Relay) : Prop := ended (upstream l) = true ∨ gone (upstream l) = true.
Lemma output_over_step e l l' : step e l = Some l' → output_over l → output_over l'.
Proof.
  unfold output_over. intros Hs H. destruct l as [c u w1 w2 st]. cbn [upstream] in *.
  destruct e; cbn [step] in Hs.
  - destruct w1; try done. destruct (read_from n c) as [[c' w]|]; [|done]. by injection Hs as <-.
  - destruct w1; try done. destruct (write_to n held u) as [[u' w]|] eqn:E; [|done]. injection Hs as <-.
    destruct (write_fields _ _ _ _ _ E) as (_ & _ & He & Hg & _). cbn. by rewrite He, Hg.
  - destruct w1; try done. by injection Hs as <-.
  - destruct w1; try done. by injection Hs as <-.
  - destruct w2; try done. destruct (read_from n u) as [[u' w]|] eqn:E; [|done]. injection Hs as <-.
    destruct (read_fields _ _ _ _ E) as (_ & Hg & _ & _ & _ & He). cbn. by rewrite He, Hg.
  - destruct w2; try done. destruct (write_to n held c) as [[c' w]|]; [|done]. by injection Hs as <-.
  - destruct w2; try done. by injection Hs as <-.
  - destruct st, w2; try done. by injection Hs as <-.
  - destruct st, w1; try done. by injection Hs as <-.
  - destruct st, w1, w2; try done; by injection Hs as <-.
  - destruct (sends s c); try done. by injection Hs as <-.
  - destruct (ends c); try done. by injection Hs as <-.
  - by injection Hs as <-.
  - unfold sends in Hs. destruct (ended u), (gone u); try done. by destruct H.
  - unfold ends in Hs. destruct (gone u); [done|]. injection Hs as <-. by left.
  - injection Hs as <-. by right.
Qed.

Lemma program_enabled l : relay_ok l → ways_ok l → output_over l → stage l = HandlerReturned ∨ ∃ l', program_step l l'.
Proof.
  intros [_ _ Hcl _ _ Hst] (_ & _ & Hd) Ho. destruct l as [c u w1 w2 st]. unfold output_over in Ho. cbn in *.
  assert (∀ e l', is_program e = true → step e (mkRelay c u w1 w2 st) = Some l' → ∃ l', program_step (mkRelay c u w1 w2 st) l') as He
    by (intros e l' Hp Hs; exists l', e; done).
  destruct w2 as [|held| | |].
  - right. destruct (read_enabled u) as [[u' w] E]; [tauto|]. eapply (He (DownReads 1)); [done|]. cbn [step]. by rewrite E.
  - right. destruct (write_enabled held c) as [[c' w] E]. eapply (He (DownWrites 1)); [done|]. cbn [step]. by rewrite E.
  - right. by eapply (He DownDone).
  - done.
  - destruct st; [right; by eapply (He SelectsUpstream)| |right; destruct w1; by eapply (He HandlerReturns)|by left].
    destruct Hst as [Hc _]. right. destruct w1 as [|held| | |].
    + destruct (read_enabled c) as [[c' w] E]; [tauto|]. eapply (He (UpReads 1)); [done|]. cbn [step]. by rewrite E.
    + destruct (write_enabled held u) as [[u' w] E]. eapply (He (UpWrites 1)); [done|]. cbn [step]. by rewrite E.
    + by eapply (He UpShuts).
    + by eapply (He UpDone).
    + by eapply (He HandlerReturns).
Qed.

(** ** Theorems *)

(** C27: What goes over an upgraded connection arrives, in order, and all of it.  At every
    moment each party has been sent a beginning of what the other has; the end of the
    client's input is announced to the daemon only behind the whole of it; and when the
    handler returns and nobody is gone, the client has the whole output of the daemon, to
    its end, whichever direction was over first. *)
Theorem relay_loses_nothing l :
  relay_reachable l →
  (∃ rest, arrived (upstream l) = written (client l) +:+ rest) ∧
  (∃ rest, arrived (client l) = written (upstream l) +:+ rest) ∧
  (gone (client l) = false → gone (upstream l) = false →
   (shut (upstream l) = true → closed (client l) = false → arrived (client l) = written (upstream l) ∧ ended (client l) = true) ∧
   (stage l = HandlerReturned → arrived (upstream l) = written (client l) ∧ ended (upstream l) = true)).
Proof.
  intros Hr. destruct (relay_reachable_ok l Hr) as [Hup Hdown _ _ Hhc Hst].
  assert (∀ x src dst w, copies x src dst w → ∃ rest, arrived src = written dst +:+ rest) as Hpre
    by (intros x src dst w; destruct w; cbn; eauto; tauto).
  split_and!; [by eapply Hpre|by eapply Hpre|]. intros Hgc Hgu. split.
  - intros Hs Hc. specialize (Hhc Hs). rewrite Hc in Hup. destruct (up l); try done; by apply Hup.
  - intros Hret. unfold stage_ok in Hst. rewrite Hret in Hst. destruct Hst as (_ & _ & Hd). rewrite Hd in Hdown. by apply Hdown.
Qed.

(** C8: When the daemon has ended its output, or is gone, the handler comes to its end.  From
    every state that can be reached, if the parties then do nothing more but take what is
    written to them, the program can make only so many moves as there is work left, and
    when it can make none the handler has returned. *)
Theorem relay_returns l l' n :
  relay_reachable l → output_over l → nsteps program_step n l l' →
  n ≤ work_left l ∧ ((¬ ∃ l'', program_step l' l'') → stage l' = HandlerReturned).
Proof.
  intros Hr Ho Hn. assert (n + work_left l' ≤ work_left l) as Hle.
  { pose proof (relay_reachable_ways l Hr) as Hw. clear Hr Ho. induction Hn as [|n l l1 l2 (e & Hp & He) _ IH]; [lia|].
    pose proof (step_left e l l1 Hp He Hw). specialize (IH (step_ways _ _ _ He Hw)). lia. }
  split; [lia|]. intros Hno.
  assert (output_over l') as Ho'.
  { clear Hr Hle Hno. induction Hn as [|n l l1 l2 (e & _ & He) _ IH]; [done|]. apply IH. by eapply output_over_step. }
  assert (relay_reachable l') as Hr' by (eapply program_step_reachable; [done|]; by eapply rtc_nsteps_2).
  destruct (program_enabled l' (relay_reachable_ok _ Hr') (relay_reachable_ways _ Hr') Ho') as [|H]; [done|by destruct Hno].
Qed.

(** A client that leaves does not free the handler while the daemon is silent.  Whatever
    the client does, its going away included, and whatever the program does, as long as the
    daemon sends nothing and does not end the handler does not return. *)
Definition of_upstream (e : RelayEvent) : bool := match e with UpstreamSends _ | UpstreamEnds | UpstreamGoes => true | _ => false end.
Theorem silent_daemon_holds_handler before es l :
  Forall (λ e, of_upstream e = false) es → run_events es (start_relay before "") = Some l → stage l ≠ HandlerReturned.
Proof.
  set (silent l := inbox (upstream l) = "" ∧ ended (upstream l) = false ∧ gone (upstream l) = false ∧ closed (upstream l) = false ∧
    down l = Reading ∧ stage l ≠ HandlerReturned ∧ stage l ≠ AwaitsClient).
  assert (∀ e l l', of_upstream e = false → step e l = Some l' → silent l → silent l') as Hstep.
  { intros e [c u w1 w2 st] l' He Hs (Hi & Hen & Hg & Hc & Hd & Hst & Hst'). cbn in *. subst w2. destruct e; try done; cbn [step] in Hs.
    - destruct w1; try done. destruct (read_from n c) as [[c' w]|]; [|done]. by injection Hs as <-.
    - destruct w1; try done. destruct (write_to n held u) as [[u' w]|] eqn:E; [|done]. injection Hs as <-.
      destruct (write_fields _ _ _ _ _ E) as (_ & Hi' & He' & Hg' & _ & Hc'). unfold silent. cbn. rewrite Hi', He', Hg', Hc'. done.
    - destruct w1; try done. by injection Hs as <-.
    - destruct w1; try done. by injection Hs as <-.
    - unfold read_from in Hs. by rewrite Hi, Hen, Hg, Hc in Hs.
    - destruct st; done.
    - destruct st; try done. destruct w1; try done. by injection Hs as <-.
    - destruct st; done || by destruct w1.
    - destruct (sends s c); try done. by injection Hs as <-.
    - destruct (ends c); try done. by injection Hs as <-.
    - by injection Hs as <-. }
  intros Hes Hrun. assert (silent (start_relay before "")) as H0 by done. revert H0 Hrun. generalize (start_relay before "").
  induction Hes as [|e es He _ IH]; intros l0 H0 Hrun; cbn in Hrun; [injection Hrun as <-; apply H0|].
  destruct (step e l0) as [l1|] eqn:Hs; [|done]. by apply (IH l1 (Hstep _ _ _ He Hs H0)).
Qed.

Lemma run_events_rtc es l l' : run_events es l = Some l' → rtc relay_step l l'.
Proof.
  revert l. induction es as [|e es IH]; intros l; cbn; [by intros [= ->]|]. destruct (step e l) as [l1|] eqn:E; [|done].
  intros H. eapply rtc_l; [by exists e|by apply IH].
Qed.
Lemma run_events_nsteps es l l' : forallb is_program es = true → run_events es l = Some l' → nsteps program_step (length es) l l'.
Proof.
  revert l. induction es as [|e es IH]; intros l Hp; cbn in *; [intros [= ->]; constructor|]. apply andb_true_iff in Hp as [He Hp].
  destruct (step e l) as [l1|] eqn:E; [|done]. intros H. eapply nsteps_l; [by exists e|by apply IH].
Qed.

(** ** Examples *)

Module RelayDemo.
(** The client's input ends first; the daemon answers and ends; the client has it all. *)
Definition before_end : list RelayEvent :=
  [UpReads 10; UpWrites 1; ClientEnds; UpWrites 9; UpReads 1; UpShuts; UpDone; SelectsClient; UpstreamSends "a b"; DownReads 2; UpstreamEnds].
Definition to_end : list RelayEvent := [DownWrites 1; DownWrites 5; DownReads 5; DownWrites 5; DownReads 1; DownDone; HandlerReturns].
Definition middle : Relay := default (start_relay "" "") (run_events before_end (start_relay "ls" "")).
Definition final : Relay := default (start_relay "" "") (run_events to_end middle).
Example relayed : written (upstream middle) = "ls" ∧ written (client final) = "a b" ∧ stage final = HandlerReturned.
Proof. by vm_compute. Qed.
(** A client that has gone: the handler has half-closed the daemon's side, and waits. *)
Definition left_alone : list RelayEvent := [ClientGoes; UpReads 1; UpShuts; UpDone; SelectsClient].
End RelayDemo.

Lemma relay_demo_reachable : relay_reachable RelayDemo.middle.
Proof. exists "ls", "". by apply (run_events_rtc RelayDemo.before_end). Qed.
Lemma relay_demo_final_reachable : relay_reachable RelayDemo.final.
Proof. exists "ls", "". by apply (run_events_rtc (RelayDemo.before_end ++ RelayDemo.to_end)). Qed.

Lemma relay_loses_nothing_witness : arrived (upstream RelayDemo.final) = written (client RelayDemo.final).
Proof.
  destruct (relay_loses_nothing RelayDemo.final relay_demo_final_reachable) as (_ & _ & H).
  by apply (H eq_refl eq_refl).
Defined.
Lemma relay_returns_witness : output_over RelayDemo.middle ∧ nsteps program_step 7 RelayDemo.middle RelayDemo.final ∧ 7 ≤ work_left RelayDemo.middle.
Proof.
  assert (output_over RelayDemo.middle) as Ho by by left.
  assert (nsteps program_step 7 RelayDemo.middle RelayDemo.final) as Hn
    by by apply (run_events_nsteps RelayDemo.to_end).
  split_and!; [done..|]. apply (relay_returns RelayDemo.middle RelayDemo.final 7 relay_demo_reachable Ho Hn).
Defined.
Lemma silent_daemon_holds_handler_witness :
  ∃ l, run_events RelayDemo.left_alone (start_relay "" "") = Some l ∧ gone (client l) = true ∧ stage l ≠ HandlerReturned.
Proof.
  eexists. split_and!; [vm_compute; reflexivity|done|].
  apply (silent_daemon_holds_handler "" RelayDemo.left_alone); [by repeat constructor|by vm_compute].
Defined.
