(* ===== verification/Quoting.v ===== *)
(** * Quoting: the messages of refusals on the wire

    [writeDockerError] and [writeDockerNotFound] of [internal/forward/proxy.go]
    (5272-5295) put a message into a JSON document with the verb [%q] of fmt, which
    writes a literal of Go: what JSON has no escape for, it cannot read back.  The
    names in the messages come from clients. *)

From S2P Require Import Prelude GoStrings GoJson GoJsonText.

Section quote.
(** [unicode.IsPrint], beyond ASCII. *)
Context (is_print : N → bool).

Definition hex2 (n : N) : string := String (hex_char (n / 16)) (String (hex_char (n mod 16)) "").
Definition hex4_text (n : N) : string := hex2 (n / 256) +:+ hex2 (n mod 256).

(** The number of a rune from its bytes. *)
Definition rune_number (m : string) : N :=
  match m with
  | String a (String b "") => (code a - 192) * 64 + (code b - 128)
  | String a (String b (String c "")) => (code a - 224) * 4096 + (code b - 128) * 64 + (code c - 128)
  | String a (String b (String c (String d _))) =>
    (code a - 240) * 262144 + (code b - 128) * 4096 + (code c - 128) * 64 + (code d - 128)
  | _ => 0
  end%N.

(** [strconv.Quote], rune by rune. *)
Definition quote_byte (c : ascii) : string :=
  if in_range 32 126 c then
    (if existsb (Ascii.eqb c) [quote_char; "\"%char] then String "\" (String c "") else String c "")
  else
  match code c with
  | 7%N => "\a" | 8%N => "\b" | 12%N => "\f" | 10%N => "\n" | 13%N => "\r" | 9%N => "\t" | 11%N => "\v"
  | n => "\x" +:+ hex2 n
  end.
Definition quote_multi (m : string) : string :=
  let n := rune_number m in
  if is_print n then m else
  if (n <? 65536)%N then "\u" +:+ hex4_text n else "\U" +:+ hex4_text (n / 65536) +:+ hex4_text (n mod 65536).
(** A piece of a string and its quotation; [false] for one that JSON cannot read. *)
Definition quote_next (s : string) : option (string * bool * string) :=
  '(x, r) ← next_rune s;
  Some match x with
       | Single c => (quote_byte c, in_range 32 126 c || existsb (λ n, (code c =? n)%N) [8; 9; 10; 12; 13]%N, r)
       | Multi m => (quote_multi m, is_print (rune_number m) || (rune_number m <? 65536)%N, r)
       | Invalid => ("\x" +:+ match s with String c _ => hex2 (code c) | "" => "" end, false, r)
       end.
Fixpoint quote_go (fuel : nat) (s : string) : string :=
  match fuel with
  | 0 => ""
  | S n => match quote_next s with None => "" | Some (q, _, r) => q +:+ quote_go n r end
  end.
Definition Quote (s : string) : string := String quote_char (quote_go (slen s) s +:+ String quote_char "").

(** What [writeDockerError] and [writeDockerNotFound] write. *)
Definition error_body (msg : string) : string := "{" +:+ String quote_char ("message" +:+ String quote_char (":" +:+ Quote msg +:+ "}")).

(** ** Which messages are read back *)

Fixpoint readable_go (fuel : nat) (s : string) : bool :=
  match fuel with
  | 0 => true
  | S n => match quote_next s with None => true | Some (_, ok, r) => ok && readable_go n r end
  end.
(** Every byte is printable or one of the five control characters JSON names, every
    rune behind the basic plane is printable, and the bytes are UTF-8. *)
Definition readable_message (s : string) : bool := readable_go (slen s) s.

(** ** Lemmas: numbers of runes *)

Lemma byte_code c : byte (code c) = c.
Proof. apply ascii_N_embedding. Qed.
Lemma code_bound c : (code c < 256)%N.
Proof. destruct c as [[] [] [] [] [] [] [] []]; done. Qed.
Lemma in_range_spec lo hi c : in_range lo hi c = true ↔ (lo <= code c <= hi)%N.
Proof. unfold in_range. rewrite andb_true_iff, !N.leb_le. done. Qed.
Lemma byte_inj a n : code a = n → byte n = a.
Proof. intros <-. apply byte_code. Qed.

Lemma hex_value_char n : (n < 16)%N → hex_value (hex_char n) = Some n.
Proof.
  intros H. assert (n ∈ [0; 1; 2; 3; 4; 5; 6; 7; 8; 9; 10; 11; 12; 13; 14; 15]%N) as Hin by (rewrite !elem_of_cons; lia).
  repeat (apply elem_of_cons in Hin as [->|Hin]; [by vm_compute|]). by apply elem_of_nil in Hin.
Qed.
Lemma hex4_of_text n t : (n < 65536)%N → hex4 (hex4_text n +:+ t) = Some (n, t).
Proof.
  intros H. unfold hex4_text, hex2. cbn [String.append hex4]. rewrite !hex_value_char by (zify; Z.to_euclidean_division_equations; lia).
  do 2 f_equal. zify. Z.to_euclidean_division_equations. lia.
Qed.

Lemma rune_shapes m : rune_ok (Multi m) →
  (∃ a b, m = String a (String b "") ∧ (194 <= code a <= 223)%N ∧ (128 <= code b <= 191)%N) ∨
  (∃ a b c, m = String a (String b (String c "")) ∧ (224 <= code a <= 239)%N ∧ (128 <= code b <= 191)%N ∧
     (code a = 224 → 160 <= code b)%N ∧ (code a = 237 → code b <= 159)%N ∧ (128 <= code c <= 191)%N) ∨
  (∃ a b c d, m = String a (String b (String c (String d ""))) ∧ (240 <= code a <= 244)%N ∧ (128 <= code b <= 191)%N ∧
     (code a = 240 → 144 <= code b)%N ∧ (code a = 244 → code b <= 143)%N ∧ (128 <= code c <= 191)%N ∧ (128 <= code d <= 191)%N).
Proof.
  intros (Hl & Hne & Hc). destruct m as [|a m]; [done|]. specialize (Hc a m eq_refl). cbn [rune_len] in Hl. rewrite Hc in Hl.
  destruct (in_range 194 223 a) eqn:E2.
  { destruct m as [|b m]; [done|]. destruct (cont b) eqn:Eb; [|done]. destruct m; [|done]. left. exists a, b.
    by apply in_range_spec in E2, Eb. }
  destruct (in_range 224 239 a) eqn:E3.
  { destruct m as [|b [|c m]]; [done..|]. destruct (_ && _) eqn:E; [|done]. destruct m; [|done]. apply andb_true_iff in E as [Eb Ec].
    right; left. exists a, b, c. apply in_range_spec in E3, Eb, Ec.
    destruct (N.eqb_spec (code a) 224), (N.eqb_spec (code a) 237); split_and!; (done || lia). }
  destruct (in_range 240 244 a) eqn:E4; [|done].
  destruct m as [|b [|c [|d m]]]; [done..|]. destruct (_ && _) eqn:E; [|done]. destruct m; [|done]. bool_hyps.
  right; right. exists a, b, c, d.
  repeat match goal with H : in_range _ _ _ = true |- _ => apply in_range_spec in H | H : cont _ = true |- _ => apply in_range_spec in H end.
  destruct (N.eqb_spec (code a) 240), (N.eqb_spec (code a) 244); split_and!; (done || lia).
Qed.
Lemma rune_number_spec m : rune_ok (Multi m) → encode_rune (rune_number m) = m ∧ is_surrogate (rune_number m) = false.
Proof.
  intros [(a & b & -> & Ha & Hb)|[(a & b & c & -> & Ha & Hb & H1 & H2 & Hc)|(a & b & c & d & -> & Ha & Hb & H1 & H2 & Hc & Hd)]]%rune_shapes;
    cbn [rune_number]; unfold encode_rune, is_surrogate;
    repeat match goal with
    | |- context [(?x <? ?y)%N] => destruct (N.ltb_spec x y); try lia
    | |- context [(?x <=? ?y)%N] => destruct (N.leb_spec x y); try lia
    end; split; try done; try lia;
    repeat match goal with |- String (byte ?n) _ = String ?c _ =>
      refine (f_equal2 String (byte_inj _ _ _) _); [zify; Z.to_euclidean_division_equations; lia|] end; done.
Qed.

(** ** Lemmas: reading a quotation *)

Lemma quote_byte_reads c t :
  (code c < 128)%N →
  eat quote_char (quote_byte c +:+ t) = None ∧
  unquote_char (quote_byte c +:+ t) =
    (if in_range 32 126 c || existsb (λ n, (code c =? n)%N) [8; 9; 10; 12; 13]%N then Some (String c "", t) else None).
Proof.
  intros Hc. destruct c as [[] [] [] [] [] [] [] []]; try (exfalso; vm_compute in Hc; discriminate); split; reflexivity.
Qed.
Lemma quote_multi_reads m t : rune_ok (Multi m) →
  eat quote_char (quote_multi m +:+ t) = None ∧
  unquote_char (quote_multi m +:+ t) =
    (if is_print (rune_number m) || (rune_number m <? 65536)%N then Some (m, t) else None).
Proof.
  intros Hm. unfold quote_multi. destruct (is_print (rune_number m)); cbn [orb].
  - pose proof (next_rune_bytes (Multi m) t Hm) as Hn. unfold unquote_char. cbn [rune_bytes] in Hn. rewrite Hn. split; [|done].
    destruct Hm as (_ & Hne & Hc). destruct m as [|c m]; [done|]. cbn. destruct (Ascii.eqb c quote_char) eqn:E; [|done].
    apply Ascii.eqb_eq in E as ->. by specialize (Hc _ _ eq_refl).
  - destruct (N.ltb_spec (rune_number m) 65536) as [Hlt|Hge]; [|split; reflexivity]. split; [done|].
    rewrite <- app_assoc_str. unfold unquote_char. cbn [String.append next_rune].
    change (unescape_u (hex4_text (rune_number m) +:+ t) = Some (m, t)). unfold unescape_u. rewrite hex4_of_text by done.
    cbn [mbind option_bind]. destruct (rune_number_spec m Hm) as [-> ->]. done.
Qed.
Lemma quote_next_reads s q ok r t : quote_next s = Some (q, ok, r) →
  ∃ x, next_rune s = Some (x, r) ∧ (ok = true → x ≠ Invalid) ∧ q ≠ "" ∧ eat quote_char (q +:+ t) = None ∧
       unquote_char (q +:+ t) = (if ok then Some (rune_bytes x, t) else None).
Proof.
  unfold quote_next. destruct (next_rune s) as [[x r']|] eqn:E; [|done]. cbn [mbind option_bind].
  destruct (next_rune_spec _ _ _ E) as [Hx _]. destruct x as [c|m|]; intros [= <- <- <-]; eexists; (split; [done|]).
  - destruct (quote_byte_reads c t Hx) as [-> ->]. split_and!; try done. unfold quote_byte. by repeat case_match.
  - destruct (quote_multi_reads m t Hx) as [-> ->]. split_and!; try done. unfold quote_multi. destruct Hx as (_ & ? & _). by repeat case_match.
  - by split_and!.
Qed.
Lemma quote_next_None s : quote_next s = None → s = "".
Proof. unfold quote_next. destruct (next_rune s) as [[x r]|] eqn:E; [done|]. intros _. by apply next_rune_None. Qed.

Lemma unquote_quote n : ∀ s k t, slen s <= n → slen (quote_go n s) < k →
  unquote k (quote_go n s +:+ String quote_char t) = if readable_go n s then Some (sanitize s, t) else None.
Proof.
  induction n as [|n IH]; intros s k t Hn Hk.
  { destruct s; [|cbn in Hn; lia]. destruct k; [lia|]. reflexivity. }
  cbn [quote_go readable_go] in *. destruct (quote_next s) as [[[q ok] r]|] eqn:E.
  - destruct (quote_next_reads s q ok r (quote_go n r +:+ String quote_char t) E) as (x & Hx & _ & Hq & He & Hu).
    rewrite slen_app in Hk. assert (0 < slen q) by (destruct q; [done|cbn; lia]). destruct k as [|k]; [lia|].
    rewrite <- app_assoc_str. cbn [unquote]. rewrite He, Hu. destruct ok; [|done]. cbn [mbind option_bind andb].
    apply next_rune_spec in Hx as Hlt. rewrite IH by lia.
    destruct (readable_go n r); [|done]. cbn [mbind option_bind]. unfold sanitize. by rewrite (runes_step s), Hx.
  - apply quote_next_None in E as ->. destruct k; [lia|]. reflexivity.
Qed.
Lemma parse_Quote s t : parse_string (Quote s +:+ t) = if readable_message s then Some (sanitize s, t) else None.
Proof.
  unfold Quote, parse_string, readable_message. cbn [String.append eat]. rewrite Ascii.eqb_refl. cbn [mbind option_bind].
  rewrite <- app_assoc_str. apply unquote_quote; [done|]. rewrite slen_app. cbn. lia.
Qed.

Lemma next_rune_split s x r : next_rune s = Some (x, r) → x ≠ Invalid → s = rune_bytes x +:+ r.
Proof.
  unfold next_rune. destruct s as [|c s]; [done|]. destruct (code c <? 128)%N; [by intros [= <- <-]|].
  destruct (rune_len (String c s)) as [|k]; intros [= <- <-]; [done|]. intros _. cbn [rune_bytes String.append]. f_equal.
  symmetry. apply str_take_drop.
Qed.
Lemma readable_sanitized n : ∀ s, slen s <= n → readable_go n s = true → sanitize s = s.
Proof.
  induction n as [|n IH]; intros s Hn; [by destruct s; [|cbn in Hn; lia]|]. cbn [readable_go].
  destruct (quote_next s) as [[[q ok] r]|] eqn:E; [|by apply quote_next_None in E as ->].
  intros [-> Hr]%andb_true_iff. destruct (quote_next_reads s q true r "" E) as (x & Hx & Hi & _).
  destruct (next_rune_spec _ _ _ Hx) as [_ Hlt]. unfold sanitize. rewrite runes_step, Hx, fmap_cons, concat_str_cons.
  change (concat_str (rune_bytes <$> runes r)) with (sanitize r). rewrite IH by (done || lia). symmetry. apply next_rune_split; [done|by apply Hi].
Qed.

(** ** Theorem *)

(** C40: An answer that refuses a request is a JSON document exactly when every character of
    its message is one Go and JSON quote alike: printable, or one of the five control
    characters JSON has names for, UTF-8 and, behind the basic plane, printable.  Then
    it says what was meant; otherwise no client can read it. *)
Theorem error_answers_are_json msg :
  json_of_text (error_body msg) = if readable_message msg then Some (JObj [("message", JStr msg)]) else None.
Proof.
  unfold json_of_text, error_body. change (String quote_char ("message" +:+ String quote_char (":" +:+ Quote msg +:+ "}")))
    with (encode_string "message" +:+ (":" +:+ Quote msg +:+ "}")).
  set (rest := encode_string "message" +:+ (":" +:+ Quote msg +:+ "}")).
  replace (2 * slen ("{" +:+ rest) + 1)%nat with (S (S (S (2 * slen rest)))) by (rewrite slen_app; cbn; lia).
  generalize (2 * slen rest). intros n. cbn [parse_value]. change (skip_ws ("{" +:+ rest)) with ("{" +:+ rest).
  change (eat "{" ("{" +:+ rest)) with (Some rest). cbv iota. change (maxNestingDepth <=? 0)%N with false. cbv iota.
  change (token "}" rest) with (@None string). cbv iota. cbn [parse_members]. change (skip_ws rest) with rest. unfold rest at 1.
  rewrite parse_encode_string. cbn [mbind option_bind]. change (token ":" (":" +:+ ?x)) with (Some x). cbn [mbind option_bind parse_value].
  change (skip_ws (Quote msg +:+ "}")) with (Quote msg +:+ "}").
  change (eat "{" (Quote msg +:+ "}")) with (@None string). change (eat "[" (Quote msg +:+ "}")) with (@None string).
  change (eat quote_char (Quote msg +:+ "}")) with (Some ((quote_go (slen msg) msg +:+ String quote_char "") +:+ "}")).
  cbv iota. rewrite parse_Quote. unfold readable_message. destruct (readable_go (slen msg) msg) eqn:E; [|done].
  cbn [mbind option_bind]. rewrite (readable_sanitized (slen msg) msg) by done. reflexivity.
Qed.
End quote.

(** A container's name with an escape character in it: the answer is no JSON. *)
Lemma escape_in_name_breaks_answer is_print :
  json_of_text (error_body is_print ("No such container: " +:+ String "027" "[31m")) = None.
Proof. vm_compute. reflexivity. Qed.
