(* ===== verification/Reports.v ===== *)
(** * Reports: what is said of refusals

    The texts of the errors of [internal/isolation] and [internal/auth], which go into
    answers and into the audit trail: [QuotaExceededError] (quota.go 119-122, 480-745),
    the violations of storage.go and volume.go, [IdentityForgeryError] (identity.go),
    the messages of [writeDockerNotFound] and [checkPortConflict] (proxy.go), and the
    resources a creation asked for, [ExtractRequestedResources]. *)

From Stdlib Require Import SpecFloat.
From S2P Require Import Prelude GoStrings GoJson GoUrl OsLookup Identity Routes Policy Tables Database ImageDB.
From S2P Require Import ResourceDB Names ImagePerm Quota Storage Bodies PreRequest Quoting.

(** ** Numbers with two decimals *)

Definition f64_of_Z (z : Z) : float64 := binary_normalize 53 1024 z 0 false.
Definition f64_div (a b : float64) : float64 := SFdiv 53 1024 a b.

(** [n / d], rounded to the nearest, ties to the even one. *)
Definition round_half_even (n d : Z) : Z :=
  let q := (n / d)%Z in
  let r := (n mod d)%Z in
  if (2 * r <? d)%Z then q else if (d <? 2 * r)%Z then (q + 1)%Z else if Z.even q then q else (q + 1)%Z.
(** The hundredths of [m * 2 ^ e]. *)
Definition hundredths (m : positive) (e : Z) : Z :=
  if (0 <=? e)%Z then (100 * Zpos m * 2 ^ e)%Z else round_half_even (100 * Zpos m) (2 ^ (- e)).
Definition two_digits (n : Z) : string := if (n <? 10)%Z then "0" +:+ Itoa n else Itoa n.
Definition format_hundredths (negative : bool) (n : Z) : string :=
  (if negative then "-" else "") +:+ Itoa (n / 100) +:+ "." +:+ two_digits (n mod 100).
(** The verb [%.2f] of fmt. *)
Definition format_2f (f : float64) : string :=
  match f with
  | S754_nan => "NaN"
  | S754_infinity negative => if negative then "-Inf" else "+Inf"
  | S754_zero negative => format_hundredths negative 0
  | S754_finite negative m e => format_hundredths negative (hundredths m e)
  end.

(** ** Quotas *)

Record QuotaExceededError := mkQuotaExceededError {
  qe_Resource : string; qe_Requested : string; qe_Limit : string; qe_Excess : string }.
Definition quota_error_text (e : QuotaExceededError) : string :=
  "quota exceeded: " +:+ qe_Resource e +:+ " requested=" +:+ qe_Requested e +:+ " limit=" +:+ qe_Limit e +:+
  " excess=" +:+ qe_Excess e.
(** What the audit trail has of a refused update. *)
Definition update_detail (e : QuotaExceededError) : string :=
  qe_Resource e +:+ " requested=" +:+ qe_Requested e +:+ " limit=" +:+ qe_Limit e.

Definition cores (nano : Z) : string := format_2f (f64_div (f64_of_Z nano) f64_1e9) +:+ " cores".
Definition megabytes (bytes : Z) : Z := Z.quot (Z.quot bytes 1024) 1024.

(** The quota of the user comes first, the processors of the machine second. *)
Definition cpu_report (numCPU : Z) (quota : UserQuota) (reqNano : Z) : QuotaExceededError :=
  let limitNano := nano_of_cores (qe_CPUCores quota) in
  if f64_gt (qe_CPUCores quota) f64_zero && (0 <? reqNano)%Z && (limitNano <? reqNano)%Z then
    mkQuotaExceededError "cpu" (cores reqNano) (format_2f (qe_CPUCores quota) +:+ " cores")
      ("+" +:+ cores (wrap64 (reqNano - limitNano)))
  else
    let physNano := wrap64 (numCPU * 1000000000) in
    mkQuotaExceededError "cpu" (cores reqNano) (Itoa numCPU +:+ " cores (physical)")
      ("+" +:+ cores (wrap64 (reqNano - physNano))).
Definition memory_report (quota : UserQuota) (memory : Z) : QuotaExceededError :=
  mkQuotaExceededError "memory" (Itoa (megabytes memory) +:+ "MB") (Itoa (qe_MemMB quota) +:+ "MB")
    ("+" +:+ Itoa (megabytes (wrap64 (memory - mb_bytes (qe_MemMB quota)))) +:+ "MB").
Definition storage_report (quota : UserQuota) (requestedGB : Z) : QuotaExceededError :=
  mkQuotaExceededError "storage" (Itoa requestedGB +:+ "GB") (Itoa (qe_StorageGB quota) +:+ "GB")
    ("+" +:+ Itoa (requestedGB - qe_StorageGB quota) +:+ "GB").
Definition containers_report (quota : UserQuota) (requested : Z) : QuotaExceededError :=
  mkQuotaExceededError "containers" (Itoa requested) (Itoa (qe_MaxContainers quota))
    ("+" +:+ Itoa (requested - qe_MaxContainers quota)).
Definition quota_report (numCPU : Z) (quota : UserQuota) (e : QuotaExceeded) : QuotaExceededError :=
  if qx_Resource e ==s "cpu" then cpu_report numCPU quota (qx_Requested e)
  else if qx_Resource e ==s "memory" then memory_report quota (qx_Requested e)
  else if qx_Resource e ==s "storage" then storage_report quota (qx_Requested e)
  else containers_report quota (qx_Requested e).

(** ** Mounts, devices, ports *)

(** The verb [%v] for a list of strings. *)
Definition show_list (l : list string) : string := "[" +:+ GoStrings.Join l " " +:+ "]".
Definition bind_mount_text (source : string) (roots : list string) : string :=
  "bind mount '" +:+ source +:+ "' is not allowed: only paths under " +:+ show_list roots +:+
  " are permitted for non-root users".
Definition tmpfs_text (requestedMB limitMB : Z) : string :=
  "tmpfs size " +:+ Itoa requestedMB +:+ "MB exceeds limit " +:+ Itoa limitMB +:+ "MB".
Definition device_text (device : string) : string :=
  "device '" +:+ device +:+ "' is not allowed: not in the permitted device list".
Definition volumes_from_text (container : string) : string :=
  "volumes-from container '" +:+ container +:+ "' is not owned by you".
Definition named_volume_text (v : NamedVolumeViolation) : string := "get " +:+ v +:+ ": no such volume".
Definition port_conflict_text (m : PortMapping) (existing : PortMappingInfo) : string :=
  "port " +:+ Itoa (HostPort m) +:+ "/" +:+ Protocol m +:+ " already in use by container " +:+
  str_take 12 (pm_ContainerID existing) +:+ " (owner: " +:+ pm_OwnerUsername existing +:+ ")".

(** ** Answers *)

(** The message of [writeDockerNotFound]. *)
Definition not_found_text (kind name : string) : string :=
  if kind ==s "volume" then "get " +:+ name +:+ ": no such volume"
  else if kind ==s "image" then "No such image: " +:+ name
  else if kind ==s "network" then "network " +:+ name +:+ " not found"
  else "No such container: " +:+ name.

Section answer.
Context (env : ProxyEnv) (bridge_error : string).
Definition quota_of (id : CallerIdentity) : UserQuota :=
  match pe_quota env with Some qm => GetQuota (env_os (pe_env env)) id qm | None => zero_entry end.
(** The message of an answer that refuses; [None] for a document of another form. *)
Definition rejection_text (id : CallerIdentity) (rj : Rejection) : option string :=
  match rj with
  | Respond (DockerError _ msg) => Some msg
  | Respond (DockerNotFound kind name) => Some (not_found_text kind name)
  | Respond _ => None
  | NotPermitted action => Some (denied_message id action)
  | QuotaDenied e => Some (quota_error_text (quota_report (pe_numCPU env) (quota_of id) e))
  | BindMountDenied src roots => Some (bind_mount_text src roots)
  | TmpfsDenied requestedMB limitMB => Some (tmpfs_text requestedMB limitMB)
  | DeviceDenied device => Some (device_text device)
  | VolumesFromDenied c => Some (volumes_from_text c)
  | VolumeDenied v => Some (named_volume_text v)
  | PortDenied m existing => Some (port_conflict_text m existing)
  | BridgeFailed => Some ("failed to initialize user network: " +:+ bridge_error)
  end.
(** What the client reads. *)
Definition rejection_body (is_print : N → bool) (id : CallerIdentity) (rj : Rejection) : option string :=
  error_body is_print <$> rejection_text id rj.
End answer.

(** ** Identities *)

Section forgery.
Context (is_print : N → bool).
Definition forgery_reason (r : ForgeryReason) : string :=
  match r with
  | EUIDMismatch cred pid status =>
    "eUID mismatch: SO_PEERCRED=" +:+ Itoa cred +:+ ", /proc/" +:+ Itoa pid +:+ "/status=" +:+ Itoa status
  | LoginUIDUnknown loginuid pid =>
    "loginuid " +:+ Itoa loginuid +:+ " not found in /etc/passwd (pid=" +:+ Itoa pid +:+ ")"
  | LoginUIDUnbound loginuid username =>
    "loginuid " +:+ Itoa loginuid +:+ " username=" +:+ Quote is_print username +:+ " uid mismatch in /etc/passwd"
  | UIDUnknown uid => "uid " +:+ Itoa uid +:+ " not found in /etc/passwd"
  | SudoUIDUnknown uid pid => "SUDO_UID " +:+ Itoa uid +:+ " not found in /etc/passwd (pid=" +:+ Itoa pid +:+ ")"
  | SudoUIDUnbound uid username pid =>
    "SUDO_UID " +:+ Itoa uid +:+ " username=" +:+ Quote is_print username +:+ " uid mismatch in /etc/passwd (pid=" +:+ Itoa pid +:+ ")"
  | SuOriginUnknown uid => "su origin uid " +:+ Itoa uid +:+ " not found in /etc/passwd"
  | SuOriginUnbound username => "su origin: username " +:+ Quote is_print username +:+ " uid mismatch in /etc/passwd"
  | UsernameMismatch claimed uid expected =>
    "username mismatch: claimed=" +:+ Quote is_print claimed +:+ ", /etc/passwd says uid " +:+ Itoa uid +:+ " is " +:+
    Quote is_print expected
  | EffectiveUIDUnknown uid => "effective uid " +:+ Itoa uid +:+ " not found in /etc/passwd"
  | RealUIDChanged was now pid =>
    "real UID changed after connection: was " +:+ Itoa was +:+ ", now " +:+ Itoa now +:+ " (pid=" +:+ Itoa pid +:+ ")"
  | EffectiveUIDChanged was now pid =>
    "effective UID changed after connection: was " +:+ Itoa was +:+ ", now " +:+ Itoa now +:+ " (pid=" +:+ Itoa pid +:+ ")"
  end.
Definition auth_error_text (e : AuthError) : string :=
  match e with
  | PlainError msg => msg
  | Forgery r => "identity forgery detected: " +:+ forgery_reason r
  end.
End forgery.

(** ** The resources a creation asks for *)

Definition put_if (b : bool) (key value : string) (m : gmap string string) : gmap string string := if b then <[key := value]> m else m.
Definition requested_resources (req : HostResources) : gmap string string :=
  let nano := effectiveCPUNanos req in
  let size := default "" (StorageOpt req ≫= λ m, m !! "size") in
  put_if (size !=s "") "storage" size
    (put_if (MemorySwap req !=z 0) "memory_swap" (Itoa (MemorySwap req))
      (put_if (0 <? Memory req)%Z "mem_mb" (Itoa (megabytes (Memory req)))
        (put_if (CpusetCpus req !=s "") "cpuset_cpus" (CpusetCpus req)
          (put_if (0 <? CpuShares req)%Z "cpu_shares" (Itoa (CpuShares req))
            (put_if (0 <? nano)%Z "cpu_cores" (format_2f (f64_div (f64_of_Z nano) f64_1e9)) ∅))))).
Definition ExtractRequestedResources (b : body) : option (gmap string string) :=
  match b with Doc j => requested_resources <$> parseContainerRequest j | _ => None end.

(** ** Lemmas *)

(** What is printed is the nearest number of hundredths. *)
Lemma round_half_even_nearest n d : (0 < d)%Z → (2 * Z.abs (round_half_even n d * d - n) <= d)%Z.
Proof.
  intros Hd. unfold round_half_even. pose proof (Z.mod_pos_bound n d Hd). pose proof (Z.div_mod n d ltac:(lia)) as Hn.
  set (q := (n / d)%Z) in *. set (r := (n mod d)%Z) in *. clearbody q r. subst n.
  destruct (Z.ltb_spec (2 * r) d); [nia|]. destruct (Z.ltb_spec d (2 * r)); [nia|]. destruct (Z.even q); nia.
Qed.
(** For the number [m / d] with [d] a power of two: off by half a hundredth at most. *)
Lemma hundredths_nearest m e :
  (0 <= e)%Z ∧ hundredths m e = (100 * (Zpos m * 2 ^ e))%Z ∨
  (e < 0)%Z ∧ (2 * Z.abs (hundredths m e * 2 ^ (- e) - 100 * Zpos m) <= 2 ^ (- e))%Z.
Proof.
  unfold hundredths. destruct (Z.leb_spec 0 e); [left|right]; (split; [done|]); [lia|].
  apply round_half_even_nearest. lia.
Qed.
Lemma half_a_core : cores 500000000 = "0.50 cores".
Proof. vm_compute. reflexivity. Qed.

(** A byte over the limit is refused with figures that say it is not. *)
Lemma refusal_shows_no_excess :
  let quota := mkQuotaEntry f64_zero 512 0 0 0 [] in
  check_memory (512 * 1024 * 1024 + 1) quota = Some (mkQuotaExceeded "memory" (512 * 1024 * 1024 + 1) (512 * 1024 * 1024)) ∧
  quota_error_text (memory_report quota (512 * 1024 * 1024 + 1)) = "quota exceeded: memory requested=512MB limit=512MB excess=+0MB".
Proof. split; vm_compute; reflexivity. Qed.
(** Services, secrets and configs that are not found are called containers. *)
Lemma service_is_called_container name : not_found_text "service" name = "No such container: " +:+ name.
Proof. reflexivity. Qed.
