(* ===== verification/Bridge.v ===== *)
(** * Bridge: the users' networks and the firewall

    [BridgeManager] of [internal/isolation/netbridge.go]: the bridge of a user
    ([EnsureUserBridge] (55-98), of which Docker has the network's id alone) with
    the rules that keep the containers on it from those on other bridges
    ([addIsolationRules] (228-255), [removeIsolationRules] (257-264)), and the
    requests to the daemon about the networks between users (136-200, 494-600).
    [iptables] is a program of its own: the class [Iptables] is what is used of it,
    [IptablesLaws] what its documentation says of the commands used.  What the
    firewall does with a packet follows the rules in order; the rules that are not
    the proxy's do what the parameter [other] says. *)

From S2P Require Import Prelude GoStrings GoJson Docker Identity Names.

(** ** The firewall *)

Class Iptables (FW : Type) := {
  (** runs the command: whether it succeeded, and what it leaves *)
  iptables : list string → FW → bool * FW;
  (** the rules of a chain, if there is one, first to last *)
  rules : FW → string → option (list (list string));
}.

Class IptablesLaws (FW : Type) `{!Iptables FW} : Prop := {
  ipt_failed args fw c : (iptables args fw).1 = false → rules (iptables args fw).2 c = rules fw c;
  ipt_other op c rule fw c' : c' ≠ c → rules (iptables (op :: c :: rule) fw).2 c' = rules fw c';
  ipt_new c fw : (iptables ["-N"; c] fw).1 = true → rules fw c = None ∧ rules (iptables ["-N"; c] fw).2 c = Some [];
  ipt_append c rule fw : (iptables ("-A" :: c :: rule) fw).1 = true →
    ∃ l, rules fw c = Some l ∧ rules (iptables ("-A" :: c :: rule) fw).2 c = Some (l ++ [rule]);
  ipt_insert c rule fw : (iptables ("-I" :: c :: rule) fw).1 = true →
    ∃ l, rules fw c = Some l ∧ rules (iptables ("-I" :: c :: rule) fw).2 c = Some (rule :: l);
  ipt_delete c rule fw : (iptables ("-D" :: c :: rule) fw).1 = true →
    ∃ l1 l2, rules fw c = Some (l1 ++ rule :: l2) ∧ (rule ∉ l1) ∧ rules (iptables ("-D" :: c :: rule) fw).2 c = Some (l1 ++ l2);
}.

Definition iptablesChain : string := "DOCKER-USER".
Definition isolationChain : string := "DOCKER-AUTHZ-ISOLATION".

(** The rules of a bridge: packets that leave it for elsewhere are looked at in the
    chain of isolation, where those that go to it are dropped; and the two rules of
    an earlier version. *)
Definition jump_rule (br : string) : list string := ["-i"; br; "!"; "-o"; br; "-j"; isolationChain].
Definition drop_rule (br : string) : list string := ["-o"; br; "-j"; "DROP"].
Definition old_in_rule (br : string) : list string := ["-o"; br; "!"; "-i"; br; "-j"; "DROP"].
Definition old_out_rule (br : string) : list string := ["-i"; br; "!"; "-o"; br; "-j"; "DROP"].

Section firewall.
Context {FW : Type} `{!Iptables FW}.
Implicit Types (fw : FW) (br : string).

Definition run_iptables (args : list string) (fw : FW) : FW := (iptables args fw).2.
Definition ensureIsolationChain (fw : FW) : FW := run_iptables ["-N"; isolationChain] fw.

(** What comes before the rules are added: the chain, and the deletion of the rules
    of an earlier version and of an earlier call. *)
Definition cleared (brIface : string) (fw : FW) : FW :=
  let fw := ensureIsolationChain fw in
  let fw := run_iptables ("-D" :: iptablesChain :: old_in_rule brIface) fw in
  let fw := run_iptables ("-D" :: iptablesChain :: old_out_rule brIface) fw in
  run_iptables ("-D" :: isolationChain :: drop_rule brIface) fw.

(** Whether there is no error. *)
Definition addIsolationRules (brIface : string) (fw : FW) : bool * FW :=
  match iptables ("-A" :: isolationChain :: drop_rule brIface) (cleared brIface fw) with
  | (false, fw) => (false, fw)
  | (true, fw) =>
    let fw := run_iptables ("-D" :: iptablesChain :: jump_rule brIface) fw in
    match iptables ("-I" :: iptablesChain :: jump_rule brIface) fw with
    | (false, fw) => (false, run_iptables ("-D" :: isolationChain :: drop_rule brIface) fw)
    | (true, fw) => (true, fw)
    end
  end.

Definition removeIsolationRules (brIface : string) (fw : FW) : FW :=
  let fw := run_iptables ("-D" :: iptablesChain :: jump_rule brIface) fw in
  let fw := run_iptables ("-D" :: isolationChain :: drop_rule brIface) fw in
  let fw := run_iptables ("-D" :: iptablesChain :: old_in_rule brIface) fw in
  run_iptables ("-D" :: iptablesChain :: old_out_rule brIface) fw.
End firewall.

(** ** What happens to a packet *)

(** The interfaces it comes in by and would go out by. *)
Record Packet := mkPacket { pk_in : string; pk_out : string }.

Section packets.
Context (other : list string → Packet → option bool).

(** The bridges of a rule of one of the two forms. *)
Definition jump_of (rule : list string) : option (string * string) :=
  match rule with
  | [i; x; neg; o; y; j; t] =>
    if (i ==s "-i") && (neg ==s "!") && (o ==s "-o") && (j ==s "-j") && (t ==s isolationChain) then Some (x, y) else None
  | _ => None
  end.
Definition drop_of (rule : list string) : option string :=
  match rule with
  | [o; x; j; t] => if (o ==s "-o") && (j ==s "-j") && (t ==s "DROP") then Some x else None
  | _ => None
  end.

(** The first rule that decides: whether the packet is dropped. *)
Fixpoint first_verdict (decide : list string → option bool) (l : list (list string)) : option bool :=
  match l with
  | [] => None
  | rule :: l => match decide rule with Some v => Some v | None => first_verdict decide l end
  end.
Definition isolation_verdict (l : list (list string)) (p : Packet) : option bool :=
  first_verdict (λ rule,
    match drop_of rule with
    | Some x => if pk_out p ==s x then Some true else None
    | None => other rule p
    end) l.
Definition verdict (isolation l : list (list string)) (p : Packet) : option bool :=
  first_verdict (λ rule,
    match jump_of rule with
    | Some (x, y) => if (pk_in p ==s x) && (pk_out p !=s y) then isolation_verdict isolation p else None
    | None => other rule p
    end) l.
(** What the chain the daemon looks at says; [None] leaves it to the rules after. *)
Definition packet_verdict {FW} `{!Iptables FW} (fw : FW) (p : Packet) : option bool :=
  verdict (default [] (rules fw isolationChain)) (default [] (rules fw iptablesChain)) p.
End packets.

(** ** The bridge of a user *)

Section bridge.
Context {FW : Type} `{!Iptables FW}.
Context (docker : Docker).

(** The firewall, and the networks whose rules have been seen to since the start. *)
Record Host := mkHost { ho_fw : FW; isolationMigrated : gset string }.

Definition decode_options : option (gmap string string) → json → option (gmap string string) * bool :=
  decode_struct (λ kvs l, field decode_string_map "Options" kvs l) (λ kvs, field_ok decode_string_map "Options" kvs None).
Definition getBridgeInterface (networkID : string) : option string :=
  options ← docker_get docker ("/networks/" +:+ networkID) ≫= unmarshal_as decode_options None;
  match default ∅ options !! "com.docker.network.bridge.name" with
  | Some iface => if iface !=s "" then Some iface else
      if (12 <=? slen networkID)%nat then Some ("br-" +:+ str_take 12 networkID) else None
  | None => if (12 <=? slen networkID)%nat then Some ("br-" +:+ str_take 12 networkID) else None
  end.

(** The rules for a network; an error is ignored. *)
Definition isolate (networkID : string) (fw : FW) : FW :=
  match getBridgeInterface networkID with
  | Some brIface => if brIface ==s "" then fw else (addIsolationRules brIface fw).2
  | None => fw
  end.

Definition EnsureUserBridge (uid : Z) (username : string) (h : Host) : option string * Host :=
  let id := findNetworkByName docker (UserBridgeName uid) in
  if id !=s "" then
    (Some id,
     if bool_decide (id ∈ isolationMigrated h) then h
     else mkHost (isolate id (ho_fw h)) ({[id]} ∪ isolationMigrated h))
  else
    match docker_create_network docker (bridge_request uid username) ≫= unmarshal_as (decode_id "Id") "" with
    | None => (None, h)
    | Some networkID => (Some networkID, mkHost (isolate networkID (ho_fw h)) (isolationMigrated h))
    end.

(** [deleted] tells whether the daemon removes the network. *)
Definition DeleteUserBridge (deleted : string → bool) (uid : Z) (h : Host) : bool * Host :=
  let id := findNetworkByName docker (UserBridgeName uid) in
  if id ==s "" then (true, h) else
  (deleted id,
   match getBridgeInterface id with
   | Some brIface => if brIface ==s "" then h else mkHost (removeIsolationRules brIface (ho_fw h)) (isolationMigrated h)
   | None => h
   end).
End bridge.
Arguments Host : clear implicits.

(** ** Lemmas: the chains *)

Section chains.
Context {FW : Type} `{!Iptables FW, !IptablesLaws FW}.
Implicit Types (fw : FW) (c br : string) (rule : list string).

Lemma delete_other c rule fw c' : c' ≠ c → rules (run_iptables ("-D" :: c :: rule) fw) c' = rules fw c'.
Proof. apply ipt_other. Qed.

(** Deleting takes at most one occurrence of the rule. *)
Lemma delete_same c rule fw l :
  rules fw c = Some l →
  rules (run_iptables ("-D" :: c :: rule) fw) c = Some l ∨
  ∃ l1 l2, l = l1 ++ rule :: l2 ∧ rules (run_iptables ("-D" :: c :: rule) fw) c = Some (l1 ++ l2).
Proof.
  intros Hl. unfold run_iptables. destruct (iptables ("-D" :: c :: rule) fw).1 eqn:E.
  - apply ipt_delete in E as (l1 & l2 & Hr & _ & E). rewrite Hl in Hr. simplify_eq. right. eauto.
  - left. by rewrite ipt_failed.
Qed.
Lemma delete_absent c rule fw l :
  rules fw c = Some l → rule ∉ l → rules (run_iptables ("-D" :: c :: rule) fw) c = Some l.
Proof.
  intros Hl Hn. destruct (delete_same c rule fw l Hl) as [H|(l1 & l2 & -> & _)]; [done|]. destruct Hn. apply elem_of_app. right. left.
Qed.

Lemma app_cons_split {A} (l1 l2 js l0 : list A) x :
  l1 ++ x :: l2 = js ++ l0 → x ∉ l0 → ∃ js2, js = l1 ++ x :: js2 ∧ l2 = js2 ++ l0.
Proof.
  revert js. induction l1 as [|y l1 IH]; intros [|z js] H Hn; simplify_eq/=.
  - destruct Hn. left.
  - by exists js.
  - destruct Hn. apply elem_of_cons. right. apply elem_of_app. right. left.
  - destruct (IH js) as (js2 & -> & ->); eauto.
Qed.

(** Deleting a rule that is not in the tail. *)
Lemma delete_front c rule fw js l0 :
  rules fw c = Some (js ++ l0) → rule ∉ l0 →
  ∃ js', rules (run_iptables ("-D" :: c :: rule) fw) c = Some (js' ++ l0) ∧ js' ⊆ js ∧ ∀ r, r ∈ js → r ≠ rule → r ∈ js'.
Proof.
  intros Hl Hn. destruct (delete_same c rule fw _ Hl) as [H|(l1 & l2 & E & H)]; [by exists js|].
  symmetry in E. destruct (app_cons_split _ _ _ _ _ E Hn) as (js2 & -> & ->). exists (l1 ++ js2). rewrite H, (assoc_L app).
  split_and!; [done| |]; intros r; rewrite !elem_of_app, ?elem_of_cons; naive_solver.
Qed.

(** The chains as the proxy leaves them: the jumps of the bridges [B] before the
    rules [l0], and the drops of the bridges. *)
Record isolating (fw : FW) (l0 : list (list string)) (B : list string) : Prop := {
  is_jumps : ∃ js, rules fw iptablesChain = Some (js ++ l0) ∧ ∀ r, r ∈ js ↔ ∃ b, b ∈ B ∧ r = jump_rule b;
  is_drops : ∀ r, r ∈ default [] (rules fw isolationChain) ↔ ∃ b, b ∈ B ∧ r = drop_rule b;
}.
(** Rules that are not the proxy's own: none jumps to its chain, none is of its
    earlier version. *)
Record foreign (l0 : list (list string)) : Prop := {
  fo_jump x y : ["-i"; x; "!"; "-o"; y; "-j"; isolationChain] ∉ l0;
  fo_old_in br : old_in_rule br ∉ l0;
  fo_old_out br : old_out_rule br ∉ l0;
}.

Lemma ensure_chain fw c :
  default [] (rules (ensureIsolationChain fw) c) = default [] (rules fw c) ∧
  (c ≠ isolationChain → rules (ensureIsolationChain fw) c = rules fw c).
Proof.
  unfold ensureIsolationChain, run_iptables. split; [|intros Hc; by apply ipt_other].
  destruct (iptables ["-N"; isolationChain] fw).1 eqn:E; [|by rewrite ipt_failed].
  apply ipt_new in E as [Hn E]. destruct (decide (c = isolationChain)) as [->|Hc]; [by rewrite E, Hn|].
  by rewrite ipt_other.
Qed.

Lemma jump_rule_inj b b' : jump_rule b = jump_rule b' → b = b'.
Proof. by intros [= ->]. Qed.
Lemma drop_rule_inj b b' : drop_rule b = drop_rule b' → b = b'.
Proof. by intros [= ->]. Qed.

Lemma cleared_jumps br fw l :
  old_in_rule br ∉ l → old_out_rule br ∉ l → rules fw iptablesChain = Some l → rules (cleared br fw) iptablesChain = Some l.
Proof.
  intros Hi Ho Hl. unfold cleared. rewrite delete_other by done. apply delete_absent; [|done]. apply delete_absent; [|done].
  by rewrite (proj2 (ensure_chain fw iptablesChain)).
Qed.
Lemma cleared_drops br fw :
  (∀ r, r ∈ default [] (rules (cleared br fw) isolationChain) → r ∈ default [] (rules fw isolationChain)) ∧
  (∀ r, r ∈ default [] (rules fw isolationChain) → r ≠ drop_rule br → r ∈ default [] (rules (cleared br fw) isolationChain)).
Proof.
  unfold cleared. rewrite <- (proj1 (ensure_chain fw isolationChain)). cbv zeta.
  set (fw1 := ensureIsolationChain fw). set (fw2 := run_iptables (_ :: _ :: old_in_rule br) fw1).
  set (fw3 := run_iptables (_ :: _ :: old_out_rule br) fw2).
  assert (rules fw3 isolationChain = rules fw1 isolationChain) as <- by (unfold fw3, fw2; by rewrite !delete_other).
  destruct (rules fw3 isolationChain) as [ds|] eqn:E.
  - destruct (delete_front isolationChain (drop_rule br) fw3 ds []) as (ds' & -> & Hsub & Hkeep);
      [by rewrite app_nil_r|apply not_elem_of_nil|]. rewrite app_nil_r. split; [intros r; apply Hsub|exact Hkeep].
  - unfold run_iptables. destruct (iptables ("-D" :: isolationChain :: drop_rule br) fw3).1 eqn:Ed.
    + apply ipt_delete in Ed as (? & ? & H & _). congruence.
    + by rewrite ipt_failed, E.
Qed.

(** What a success has done to the two chains. *)
Lemma add_rules_effect br fw :
  (addIsolationRules br fw).1 = true →
  ∃ fw', rules fw' iptablesChain = rules (cleared br fw) iptablesChain ∧
    rules (addIsolationRules br fw).2 iptablesChain =
      (λ l, jump_rule br :: l) <$> rules (run_iptables ("-D" :: iptablesChain :: jump_rule br) fw') iptablesChain ∧
    rules (addIsolationRules br fw).2 isolationChain = (λ ds, ds ++ [drop_rule br]) <$> rules (cleared br fw) isolationChain ∧
    is_Some (rules (cleared br fw) isolationChain).
Proof.
  unfold addIsolationRules. generalize (cleared br fw) as fw4. intros fw4. pose proof (ipt_append isolationChain (drop_rule br) fw4) as Ha.
  pose proof (ipt_other "-A" isolationChain (drop_rule br) fw4 iptablesChain) as Hao.
  destruct (iptables ("-A" :: isolationChain :: drop_rule br) fw4) as [[] fw5]; [|done]. cbn [fst snd] in *.
  destruct (Ha eq_refl) as (ds & Hds & Hds5). set (fw6 := run_iptables ("-D" :: iptablesChain :: jump_rule br) fw5).
  assert (rules fw6 isolationChain = rules fw5 isolationChain) as H6 by (by apply delete_other).
  pose proof (ipt_insert iptablesChain (jump_rule br) fw6) as Hi. pose proof (ipt_other "-I" iptablesChain (jump_rule br) fw6 isolationChain) as Hio.
  destruct (iptables ("-I" :: iptablesChain :: jump_rule br) fw6) as [[] fw7]; [|done]. cbn [fst snd] in *. intros _.
  destruct (Hi eq_refl) as (l & Hl & Hl7). exists fw5. rewrite Hao by done. fold fw6. rewrite Hl, Hl7, Hio, H6, Hds5, Hds by done. eauto.
Qed.

(** Adding the rules of a bridge, when that succeeds, adds the bridge. *)
Lemma add_isolating br fw l0 B :
  foreign l0 → isolating fw l0 B → (addIsolationRules br fw).1 = true → isolating (addIsolationRules br fw).2 l0 (br :: B).
Proof.
  intros [Hj Hi Ho] [(js & Hu & Hjs) Hds] Hok. destruct (add_rules_effect br fw Hok) as (fw' & Hu' & Hl & Hd & [ds Hs]).
  rewrite (cleared_jumps br fw (js ++ l0)) in Hu';
    [|intros [(b & _ & [=])%Hjs|Hr]%elem_of_app; by eapply Hi|intros [(b & _ & [=])%Hjs|Hr]%elem_of_app; by eapply Ho|done].
  destruct (delete_front iptablesChain (jump_rule br) fw' js l0 Hu' (Hj br br)) as (js' & E & Hsub & Hkeep).
  rewrite E in Hl. destruct (cleared_drops br fw) as [Hd1 Hd2]. rewrite Hs in Hd, Hd1, Hd2. simpl in Hl, Hd, Hd1, Hd2. split.
  - exists (jump_rule br :: js'). split; [done|]. intros r. rewrite elem_of_cons. split.
    + intros [->|Hr]; [exists br; split; [left|done]|]. apply Hsub, Hjs in Hr as (b & Hb & ->). exists b. split; [by right|done].
    + intros (b & Hb & ->). destruct (decide (b = br)) as [->|Hne]; [by left|right].
      apply Hkeep; [apply Hjs; exists b; split; [set_solver|done]|]. by intros ?%jump_rule_inj.
  - rewrite Hd. simpl. intros r. rewrite elem_of_app, list_elem_of_singleton. split.
    + intros [Hr| ->]; [apply Hd1, Hds in Hr as (b & Hb & ->); exists b; split; [by right|done]|exists br; split; [left|done]].
    + intros (b & Hb & ->). destruct (decide (b = br)) as [->|Hne]; [by right|left].
      apply Hd2; [apply Hds; exists b; split; [set_solver|done]|]. by intros ?%drop_rule_inj.
Qed.

(** The bridges one after the other, as long as there is no error. *)
Fixpoint add_bridges (bs : list string) (fw : FW) : option FW :=
  match bs with
  | [] => Some fw
  | b :: bs => match addIsolationRules b fw with (true, fw) => add_bridges bs fw | (false, _) => None end
  end.

Lemma isolating_ext fw l0 B B' : (∀ b, b ∈ B ↔ b ∈ B') → isolating fw l0 B → isolating fw l0 B'.
Proof.
  intros HB [(js & Hu & Hj) Hd]. split; [exists js; split; [done|]|]; intros r; [rewrite Hj|rewrite Hd]; by setoid_rewrite HB.
Qed.
Lemma add_bridges_isolating bs fw fw' l0 B :
  foreign l0 → isolating fw l0 B → add_bridges bs fw = Some fw' → isolating fw' l0 (bs ++ B).
Proof.
  intros Hf. revert fw B. induction bs as [|b bs IH]; intros fw B Hi H; [by simplify_eq/=|]. cbn [add_bridges] in H.
  pose proof (add_isolating b fw l0 B Hf Hi) as Hb. destruct (addIsolationRules b fw) as [[] fw1]; [|done].
  eapply isolating_ext; [|apply (IH fw1 (b :: B)); auto]. intros x. set_solver.
Qed.
End chains.

(** ** Lemmas: packets *)

Section verdicts.
Context (other : list string → Packet → option bool).

Lemma first_verdict_ext f g l : (∀ r, r ∈ l → f r = g r) → first_verdict f l = first_verdict g l.
Proof.
  induction l as [|r l IH]; intros H; [done|]. cbn [first_verdict]. rewrite H by left. rewrite IH; [done|]. intros x Hx. apply H. by right.
Qed.
(** Where every rule that decides gives the same verdict, that is the verdict. *)
Lemma first_verdict_uniform f v l :
  (∀ r w, r ∈ l → f r = Some w → w = v) → first_verdict f l = if existsb (λ r, match f r with Some _ => true | None => false end) l then Some v else None.
Proof.
  induction l as [|r l IH]; intros H; [done|]. cbn [first_verdict existsb].
  destruct (f r) as [w|] eqn:E; cbn [orb]; [f_equal; apply (H r); [left|done]|]. apply IH. intros x w Hx. apply H. by right.
Qed.
Lemma first_verdict_app f l1 l2 :
  first_verdict f (l1 ++ l2) = match first_verdict f l1 with Some v => Some v | None => first_verdict f l2 end.
Proof. induction l1 as [|r l1 IH]; [done|]. cbn [app first_verdict]. by destruct (f r). Qed.

Lemma verdict_app ds l1 l2 p :
  verdict other ds (l1 ++ l2) p = match verdict other ds l1 p with Some v => Some v | None => verdict other ds l2 p end.
Proof. apply first_verdict_app. Qed.

Lemma jump_of_Some rule x y : jump_of rule = Some (x, y) → rule = ["-i"; x; "!"; "-o"; y; "-j"; isolationChain].
Proof. unfold jump_of. intros H. repeat case_match; simplify_eq. by bool_hyps; subst. Qed.

Lemma verdict_foreign ds ds' l0 p : foreign l0 → verdict other ds l0 p = verdict other ds' l0 p.
Proof.
  intros [Hj _ _]. apply first_verdict_ext. intros r Hr. destruct (jump_of r) as [[x y]|] eqn:E; [|done].
  apply jump_of_Some in E as ->. by apply Hj in Hr.
Qed.

Lemma isolation_verdict_drops ds (B : list string) p :
  (∀ r, r ∈ ds ↔ ∃ b, b ∈ B ∧ r = drop_rule b) →
  isolation_verdict other ds p = if bool_decide (pk_out p ∈ B) then Some true else None.
Proof.
  intros Hds. unfold isolation_verdict. rewrite (first_verdict_uniform _ true).
  - assert (∀ (a b : bool) (x y : option bool), a = b → (if a then x else y) = (if b then x else y)) as Hif by by intros ???? ->.
    apply Hif, bool_eq_iff. rewrite existsb_elem, bool_decide_eq_true. split.
    + intros (r & (b & Hb & ->)%Hds & H). cbn in H. destruct (pk_out p ==s b) eqn:E; [|done]. apply String.eqb_eq in E. by rewrite E.
    + intros Hp. exists (drop_rule (pk_out p)). split; [apply Hds; eauto|]. cbn. by rewrite eqb_str_refl.
  - intros r w (b & _ & ->)%Hds. cbn. case_match; congruence.
Qed.

Lemma jumps_verdict js ds (B : list string) p :
  (∀ r, r ∈ js ↔ ∃ b, b ∈ B ∧ r = jump_rule b) → (∀ r, r ∈ ds ↔ ∃ b, b ∈ B ∧ r = drop_rule b) →
  verdict other ds js p =
  if bool_decide (pk_in p ∈ B) && bool_decide (pk_out p ∈ B) && (pk_in p !=s pk_out p) then Some true else None.
Proof.
  intros Hjs Hds. unfold verdict. rewrite (first_verdict_uniform _ true).
  - assert (∀ (a b : bool) (x y : option bool), a = b → (if a then x else y) = (if b then x else y)) as Hif by by intros ???? ->.
    apply Hif, bool_eq_iff. rewrite existsb_elem, !andb_true_iff, !bool_decide_eq_true, negb_true_iff, String.eqb_neq. split.
    + intros (r & (b & Hb & ->)%Hjs & H). cbn in H. rewrite (isolation_verdict_drops _ B) in H by done.
      destruct (pk_in p ==s b) eqn:E; [|done]. apply String.eqb_eq in E as ->. destruct (pk_out p ==s b) eqn:E'; [done|]. cbn in H.
      case_bool_decide; [|done]. apply String.eqb_neq in E'. split_and!; congruence.
    + intros [[Hi Ho] Hne]. exists (jump_rule (pk_in p)). split; [apply Hjs; eauto|]. cbn. rewrite eqb_str_refl.
      assert ((pk_out p ==s pk_in p) = false) as -> by (apply String.eqb_neq; congruence). cbn.
      rewrite (isolation_verdict_drops _ B) by done. by rewrite bool_decide_eq_true_2.
  - intros r w (b & _ & ->)%Hjs. cbn. rewrite (isolation_verdict_drops _ B) by done. repeat case_match; congruence.
Qed.
End verdicts.

(** ** Properties *)

(** C9: The rules keep the bridges apart, and do nothing else.  Once the rules of some
    bridges have been added without an error, in any order and any number of times,
    whatever became of the commands whose errors are ignored, a packet from one of
    them to another is dropped, before any rule of the host can let it through; every
    other packet (between containers of one bridge, to and from the outside, to and
    from a network between users, which has no rules) fares as if there were none. *)
Theorem isolation_is_exact {FW} `{!Iptables FW, !IptablesLaws FW} other bs (fw fw' : FW) l0 p :
  rules fw iptablesChain = Some l0 → default [] (rules fw isolationChain) = [] → foreign l0 →
  add_bridges bs fw = Some fw' →
  packet_verdict other fw' p =
  if bool_decide (pk_in p ∈ bs) && bool_decide (pk_out p ∈ bs) && (pk_in p !=s pk_out p)
  then Some true else packet_verdict other fw p.
Proof.
  intros Hu Hs Hf Hadd. assert (isolating fw l0 []) as H0.
  { split; [exists []; split; [done|]|rewrite Hs]; intros r; rewrite elem_of_nil; split; [done| |done|]; by intros (b & Hb%elem_of_nil & _). }
  destruct (add_bridges_isolating bs fw fw' l0 [] Hf H0 Hadd) as [(js & Hu' & Hjs) Hds]. rewrite app_nil_r in Hjs, Hds.
  unfold packet_verdict. rewrite Hu, Hu', Hs. cbn [from_option id]. rewrite verdict_app, (jumps_verdict other js _ bs) by done.
  destruct (_ && _); [done|]. by apply (verdict_foreign other _ []).
Qed.

(** The network's id is what Docker takes it to be: the firewall has no part in it. *)
Lemma EnsureUserBridge_id {FW} `{!Iptables FW} docker uid username (h : Host FW) :
  (EnsureUserBridge docker uid username h).1 = Docker.EnsureUserBridge docker uid username.
Proof. unfold EnsureUserBridge, Docker.EnsureUserBridge. case_match; [done|]. by destruct (_ ≫= _). Qed.

(** Isolation is tried once.  For a bridge that exists the rules are added when the
    user's first container is made and, failure or not, never again: the creation
    goes on with the bridge, and whatever becomes of the firewall no later creation
    touches it. *)
Theorem isolation_is_tried_once {FW} `{!Iptables FW} docker uid username (h : Host FW) :
  let id := findNetworkByName docker (UserBridgeName uid) in
  id ≠ "" →
  let h1 := (EnsureUserBridge docker uid username h).2 in
  (EnsureUserBridge docker uid username h).1 = Some id ∧
  ∀ username' fw, EnsureUserBridge docker uid username' (mkHost fw (isolationMigrated h1)) =
    (Some id, mkHost fw (isolationMigrated h1)).
Proof.
  intros id Hid%String.eqb_neq h1. subst h1. unfold EnsureUserBridge. fold id. rewrite Hid. cbn [negb fst snd]. split; [done|].
  intros _ fw. cbn [isolationMigrated ho_fw].
  rewrite (bool_decide_eq_true_2 (id ∈ isolationMigrated (if bool_decide (id ∈ isolationMigrated h) then h else _))); [done|].
  case_bool_decide; [done|]. cbn. set_solver.
Qed.

(** ** Examples *)

Module BridgeDemo.

(** A firewall that does what it is told; [broken] does nothing. *)
Definition FW : Type := bool * gmap string (list (list string)).
Definition known (fw : gmap string (list (list string))) (rule : list string) : bool :=
  match List.rev rule with
  | t :: _ => (t ==s "DROP") || bool_decide (is_Some (fw !! t))
  | [] => false
  end.
Fixpoint remove_first (r : list string) (l : list (list string)) : option (list (list string)) :=
  match l with
  | [] => None
  | x :: l => if decide (x = r) then Some l else cons x <$> remove_first r l
  end.
Definition effect (args : list string) (fw : gmap string (list (list string))) : option (gmap string (list (list string))) :=
  match args with
  | op :: c :: rule =>
    if op ==s "-N" then match rule, fw !! c with [], None => Some (<[c := []]> fw) | _, _ => None end else
    l ← fw !! c;
    if op ==s "-A" then if known fw rule then Some (<[c := l ++ [rule]]> fw) else None
    else if op ==s "-I" then if known fw rule then Some (<[c := rule :: l]> fw) else None
    else if op ==s "-D" then l' ← remove_first rule l; Some (<[c := l']> fw)
    else None
  | _ => None
  end.
#[global] Instance firewall : Iptables FW := {
  iptables args fw := if fw.1 then match effect args fw.2 with Some m => (true, (true, m)) | None => (false, fw) end else (false, fw);
  rules fw c := fw.2 !! c;
}.

Lemma remove_first_Some r l l' : remove_first r l = Some l' → ∃ l1 l2, l = l1 ++ r :: l2 ∧ (r ∉ l1) ∧ l' = l1 ++ l2.
Proof.
  revert l'. induction l as [|x l IH]; intros l' H; [done|]. cbn in H. destruct (decide (x = r)) as [->|Hne].
  - simplify_eq. exists [], l'. split_and!; [done|apply not_elem_of_nil|done].
  - destruct (remove_first r l) as [l''|] eqn:E; [|done]. simplify_eq/=. destruct (IH l'' eq_refl) as (l1 & l2 & -> & Hn & ->).
    exists (x :: l1), l2. split_and!; [done|by apply not_elem_of_cons|done].
Qed.

#[global] Instance firewall_laws : IptablesLaws FW.
Proof.
  split; cbn.
  - intros args [[] m] c; cbn; [|done]. by destruct (effect args m).
  - intros op c rule [[] m] c' Hc; cbn; [|done]. repeat case_match; try done. simplify_eq/=.
    all: repeat match goal with H : _ ≫= _ = Some _ |- _ => apply bind_Some in H as (? & ? & ?) end.
    all: repeat case_match; simplify_eq/=; try (by rewrite lookup_insert_ne).
    all: repeat match goal with H : _ ≫= _ = Some _ |- _ => apply bind_Some in H as (? & ? & ?) end; simplify_eq; by rewrite lookup_insert_ne.
  - intros c [[] m]; cbn; [|done]. destruct (m !! c) eqn:E; [done|]. intros _. cbn. split; [done|]. apply lookup_insert_eq.
  - intros c rule [[] m]; cbn; [|done]. destruct (m !! c) as [l|] eqn:E; cbn; [|done]. destruct (known m rule); [|done].
    intros _. exists l. split; [done|]. apply lookup_insert_eq.
  - intros c rule [[] m]; cbn; [|done]. destruct (m !! c) as [l|] eqn:E; cbn; [|done]. destruct (known m rule); [|done].
    intros _. exists l. split; [done|]. apply lookup_insert_eq.
  - intros c rule [[] m]; cbn; [|done]. destruct (m !! c) as [l|] eqn:E; cbn; [|done].
    destruct (remove_first rule l) as [l'|] eqn:R; cbn; [|done]. intros _.
    apply remove_first_Some in R as (l1 & l2 & -> & Hn & ->). exists l1, l2. split_and!; [done..|]. apply lookup_insert_eq.
Qed.

(** The rule Docker puts there itself. *)
Definition fresh : FW := (true, {[iptablesChain := [["-j"; "RETURN"]]]}).
Definition both : FW := default fresh (add_bridges ["br-a"; "br-b"; "br-a"] fresh).
Definition other (rule : list string) (p : Packet) : option bool := if decide (rule = ["-j"; "RETURN"]) then Some false else None.

Example both_rules :
  rules both iptablesChain = Some [jump_rule "br-a"; jump_rule "br-b"; ["-j"; "RETURN"]] ∧
  rules both isolationChain = Some [drop_rule "br-b"; drop_rule "br-a"] ∧
  rules (removeIsolationRules "br-a" both) iptablesChain = Some [jump_rule "br-b"; ["-j"; "RETURN"]].
Proof. split_and!; vm_compute; reflexivity. Qed.

(** A daemon with the bridge of user 1001. *)
Definition docker : Docker :=
  mkDocker (λ path, if path ==s "/networks/user-1001-bridge" then Some (JObj [("Id", JStr "0123456789abcdef")])
                    else if path ==s "/networks/0123456789abcdef" then Some (JObj []) else None) (λ _, None) (λ _, None).
(** A host whose firewall refuses every command. *)
Definition refusing : Host FW := mkHost (false, {[iptablesChain := []]}) ∅.

End BridgeDemo.

(** ** Witnesses *)

Lemma isolation_is_exact_witness :
  packet_verdict BridgeDemo.other BridgeDemo.both (mkPacket "br-a" "br-b") = Some true ∧
  packet_verdict BridgeDemo.other BridgeDemo.both (mkPacket "br-a" "eth0") = Some false.
Proof.
  split; rewrite (isolation_is_exact BridgeDemo.other ["br-a"; "br-b"; "br-a"] BridgeDemo.fresh BridgeDemo.both [["-j"; "RETURN"]]);
    try (vm_compute; reflexivity); (split; [intros x y|intros x|intros x]; by intros H%list_elem_of_singleton).
Defined.

Lemma isolation_is_tried_once_witness :
  (EnsureUserBridge BridgeDemo.docker 1001 "alice" BridgeDemo.refusing).1 = Some "0123456789abcdef" ∧
  rules (ho_fw (EnsureUserBridge BridgeDemo.docker 1001 "alice" BridgeDemo.refusing).2) iptablesChain = Some [].
Proof.
  split; [|vm_compute; reflexivity].
  refine (proj1 (isolation_is_tried_once BridgeDemo.docker 1001 "alice" BridgeDemo.refusing _)). vm_compute. discriminate.
Defined.
