(* ===== verification/Peers.v ===== *)
(** * Peers: networks between users, and the events of the daemon

    [AllowNetworkPeer], [DenyNetworkPeer] and [connectContainerToPeerNetworks] of
    [internal/forward/proxy.go] (5866-6022), with what [BridgeManager] of
    [internal/isolation/netbridge.go] (136-218, 554-600) asks of the daemon for them:
    the networks of the records kept in ResourceDB, as requests in the order they are
    sent.  The daemon's failures to connect, disconnect or delete are only logged.
    Then [StartDockerEventListener] (6027-6094): the loop that keeps the event stream
    open, and what the end of a container does to the records. *)

From S2P Require Import Prelude GoStrings GoJson Docker OsLookup Identity Names Tables Database ImageDB ResourceDB Storage Bodies Bridge.

(** ** Requests to the daemon *)

Inductive Call :=
  | Connect (containerID networkID : string)
  | Disconnect (containerID networkID : string)
  | DeleteNet (networkID : string).

(** What is asked of it, and the order of a loop over a map. *)
Record PeerDaemon := mkPeerDaemon {
  pd_docker : Docker;
  (** the containers with a label, running or not *)
  pd_containers : string → option body;
  pd_range : gmap string json → list (string * json);
}.

Record PeerOptions := mkPeerOptions { opt_ContainerIDA : string; opt_ContainerIDB : string }.

Inductive PeerError :=
  | BothContainersNeeded
  | CreatePeerNetworkFailed
  | SavePeerFailed (e : DBError)
  | RemovePeerFailed (e : DBError)
  | ErrPeerNotFound.

Section peers.
Context (daemon : PeerDaemon).
Let docker : Docker := pd_docker daemon.

Definition peer_request (name : string) (uidA uidB : Z) : json :=
  JObj [("Driver", JStr "bridge");
        ("Labels", JObj [("docker-authz-proxy.managed", JStr "true");
                         ("docker-authz-proxy.peer_uid_a", JStr (Itoa uidA));
                         ("docker-authz-proxy.peer_uid_b", JStr (Itoa uidB));
                         ("docker-authz-proxy.type", JStr "peer")]);
        ("Name", JStr name);
        ("Options", JObj [("com.docker.network.bridge.enable_icc", JStr "true");
                          ("com.docker.network.bridge.enable_ip_masquerade", JStr "true")])].

(** The network's id; [None] is an error. *)
Definition createPeerNetworkWithName (name : string) (uidA uidB : Z) : option string :=
  let id := findNetworkByName docker name in
  if id !=s "" then Some id
  else docker_create_network docker (peer_request name uidA uidB) ≫= unmarshal_as (decode_id "Id") "".
Definition CreatePeerNetwork (uidA uidB : Z) : option string :=
  createPeerNetworkWithName (PeerNetworkName uidA uidB) uidA uidB.
Definition CreateContainerPeerNetwork (uidA uidB : Z) (shortContA shortContB : string) : option string :=
  createPeerNetworkWithName ("cpeer-" +:+ Itoa uidA +:+ "-" +:+ Itoa uidB +:+ "-" +:+ shortContA +:+ "-" +:+ shortContB) uidA uidB.

Definition GetContainersByOwner (uid : Z) : option (list string) :=
  b ← pd_containers daemon (LabelOwnerUID +:+ "=" +:+ Itoa uid);
  unmarshal_body (decode_list (decode_id "Id") "") [] b.

(** [map[string]struct{}]: the names, of values that are objects. *)
Definition decode_names_map (cur : option (gmap string json)) (v : json) : option (gmap string json) * bool :=
  let '(m, ok) := decode_raw_map cur v in
  (m, ok && match v with JObj kvs => forallb (λ kv, match kv.2 with JObj _ | JNull => true | _ => false end) kvs | _ => true end).
Definition decode_members : option (gmap string json) → json → option (gmap string json) * bool :=
  decode_struct (λ kvs m, field decode_names_map "Containers" kvs m) (λ kvs, field_ok decode_names_map "Containers" kvs None).
Definition listNetworkContainers (networkID : string) : list string :=
  match docker_get docker ("/networks/" +:+ networkID) ≫= unmarshal_as decode_members None with
  | Some members => (pd_range daemon (default ∅ members)).*1
  | None => []
  end.
Definition DeletePeerNetwork (peerNetworkID : string) : list Call :=
  ((λ cid, Disconnect cid peerNetworkID) <$> listNetworkContainers peerNetworkID) ++ [DeleteNet peerNetworkID].

(** ** Allowing and denying *)

Definition short12 (id : string) : string := if (12 <? slen id)%nat then str_take 12 id else id.

Definition container_level (opts : PeerOptions) : bool := (opt_ContainerIDA opts !=s "") || (opt_ContainerIDB opts !=s "").
(** The containers that are connected at once. *)
Definition peer_members (uidA uidB : Z) (opts : PeerOptions) : list string :=
  if container_level opts then [opt_ContainerIDA opts; opt_ContainerIDB opts]
  else mjoin ((λ uid, default [] (GetContainersByOwner uid)) <$> [uidA; uidB]).

Definition AllowNetworkPeer (now uidA uidB : Z) (opts : PeerOptions) (d : OwnershipDB) : option PeerError * list Call * OwnershipDB :=
  let a := opt_ContainerIDA opts in
  let b := opt_ContainerIDB opts in
  let containerLevel := container_level opts in
  if containerLevel && ((a ==s "") || (b ==s "")) then (Some BothContainersNeeded, [], d) else
  match (if containerLevel then GetContainerPeer uidA uidB a b d else GetNetworkPeer uidA uidB d) with
  | Some _ => (None, [], d)
  | None =>
    match (if containerLevel then CreateContainerPeerNetwork uidA uidB (short12 a) (short12 b) else CreatePeerNetwork uidA uidB) with
    | None => (Some CreatePeerNetworkFailed, [], d)
    | Some peerNetworkID =>
      let calls := (λ cid, Connect cid peerNetworkID) <$> peer_members uidA uidB opts in
      let '(err, d) := AddNetworkPeer now uidA uidB peerNetworkID a b d in
      (SavePeerFailed <$> err, calls, d)
    end
  end.

Definition DenyNetworkPeer (uidA uidB : Z) (opts : PeerOptions) (d : OwnershipDB) : option PeerError * list Call * OwnershipDB :=
  let '(peerNetworkIDs, err, d) := RemoveNetworkPeer uidA uidB (opt_ContainerIDA opts) (opt_ContainerIDB opts) d in
  match err with
  | Some e => (Some (RemovePeerFailed e), [], d)
  | None =>
    if (length peerNetworkIDs =? 0)%nat then (Some ErrPeerNotFound, [], d)
    else (None, mjoin (DeletePeerNetwork <$> peerNetworkIDs), d)
  end.

(** For a container just created. *)
Definition connectContainerToPeerNetworks (containerID : string) (uid : Z) (d : OwnershipDB) : list Call :=
  match GetNetworkPeersByUID uid d with
  | inl _ => []
  | inr peers => (λ peer, Connect containerID (PeerNetworkID peer)) <$> filter (λ peer, IsUserLevel peer = true) peers
  end.
End peers.

(** ** The end of containers *)

Record DockerEvent := mkDockerEvent { de_Type : string; de_Action : string; de_ActorID : string }.

(** The event listener's handler. *)
Definition handle_event (ev : DockerEvent) (d : OwnershipDB) : OwnershipDB :=
  if (de_Type ev ==s "container") && ((de_Action ev ==s "destroy") || (de_Action ev ==s "die")) then
    if de_ActorID ev ==s "" then d else
    if de_Action ev ==s "destroy" then (DeleteContainer (de_ActorID ev) (ReleasePortMappings (de_ActorID ev) d).2).2 else d
  else d.

(** How [Listen] ends: with an error, or because the daemon has closed the stream. *)
Inductive ListenEnd := ListenError | ListenClosed.
Definition initialBackoff : Z := 2.
Definition maxBackoff : Z := 60.
(** The seconds waited before the next attempt, and the backoff then. *)
Definition after_listen (e : ListenEnd) (backoff : Z) : Z * Z :=
  match e with
  | ListenError => (backoff, if (backoff <? maxBackoff)%Z then (backoff * 2)%Z else backoff)
  | ListenClosed => (1%Z, initialBackoff)
  end.
Fixpoint waits (ends : list ListenEnd) (backoff : Z) : list Z :=
  match ends with
  | [] => []
  | e :: ends => let '(w, backoff) := after_listen e backoff in w :: waits ends backoff
  end.
Definition listener_waits (ends : list ListenEnd) : list Z := waits ends initialBackoff.

(** ** What the daemon has been told *)

(** The members of networks after some requests, of which the daemon carries out those
    it has [acted] on.  It does not delete a network that has members, so a deletion
    parts nobody. *)
Definition member_step (acted : Call → bool) (joined : list (string * string)) (c : Call) : list (string * string) :=
  if negb (acted c) then joined else
  match c with
  | Connect cid net => (cid, net) :: joined
  | Disconnect cid net => filter (λ m, m ≠ (cid, net)) joined
  | DeleteNet net => joined
  end.
Definition members_after (acted : Call → bool) (joined : list (string * string)) (calls : list Call) : list (string * string) :=
  foldl (member_step acted) joined calls.

Definition only_parts (c : Call) : Prop := match c with Connect _ _ => False | _ => True end.

Lemma members_app acted joined l1 l2 : members_after acted joined (l1 ++ l2) = members_after acted (members_after acted joined l1) l2.
Proof. apply foldl_app. Qed.
Lemma parting_members acted joined calls : Forall only_parts calls → ∀ m, m ∈ members_after acted joined calls → m ∈ joined.
Proof.
  revert joined. induction calls as [|c calls IH]; intros joined Hc m Hm; [done|]. apply Forall_cons in Hc as [Hc Hcs].
  apply IH in Hm; [|done]. unfold member_step in Hm. destruct (acted c); cbn [negb] in Hm; [|done].
  destruct c; [done| |done]. by apply list_elem_of_filter in Hm as [_ Hm].
Qed.
Lemma parted_members acted joined calls cid net :
  Forall only_parts calls → Disconnect cid net ∈ calls → (cid, net) ∈ members_after acted joined calls → acted (Disconnect cid net) = false.
Proof.
  intros Hc Hin Hm. apply list_elem_of_split in Hin as (l1 & l2 & ->). apply Forall_app in Hc as [_ [_ Hc]%Forall_cons].
  rewrite members_app in Hm. apply (parting_members _ _ _ Hc) in Hm. unfold member_step in Hm.
  destruct (acted (Disconnect cid net)); [|done]. by apply list_elem_of_filter in Hm as [Hm _].
Qed.

Section peer_laws.
Context (daemon : PeerDaemon).

Lemma DeletePeerNetwork_parts net :
  Forall only_parts (DeletePeerNetwork daemon net) ∧ DeleteNet net ∈ DeletePeerNetwork daemon net ∧
  ∀ cid, cid ∈ listNetworkContainers daemon net → Disconnect cid net ∈ DeletePeerNetwork daemon net.
Proof.
  unfold DeletePeerNetwork. split_and!.
  - apply Forall_app. split; [|by repeat constructor]. by apply Forall_fmap, Forall_true.
  - apply elem_of_app. right. left.
  - intros cid Hc. apply elem_of_app. left. by apply (list_elem_of_fmap_2 (λ cid, Disconnect cid net)).
Qed.
Lemma deletions_part nets :
  Forall only_parts (mjoin (DeletePeerNetwork daemon <$> nets)) ∧
  ∀ net, net ∈ nets → DeleteNet net ∈ mjoin (DeletePeerNetwork daemon <$> nets) ∧
    ∀ cid, cid ∈ listNetworkContainers daemon net → Disconnect cid net ∈ mjoin (DeletePeerNetwork daemon <$> nets).
Proof.
  split.
  - apply Forall_forall. intros c Hc. apply list_elem_of_join in Hc as (l & Hc & Hl). apply list_elem_of_fmap in Hl as (net & -> & _).
    destruct (DeletePeerNetwork_parts net) as [H _]. rewrite Forall_forall in H. by apply H.
  - intros net Hnet. destruct (DeletePeerNetwork_parts net) as (_ & Hd & Hp).
    split; [|intros cid Hc]; apply list_elem_of_join; exists (DeletePeerNetwork daemon net); (split; [auto|by apply list_elem_of_fmap_2]).
Qed.

(** ** Properties *)

(** Allowing connects those it is asked to connect.  Every request it makes is to
    connect a container of the two users, by the label of its owner, or between two
    containers one of the two named; all to one network; and the network is recorded
    for the pair, or nothing is when there is an error. *)
Theorem allow_connects_the_pair now uidA uidB opts d :
  writes_left d = None →
  let '(err, calls, d') := AllowNetworkPeer daemon now uidA uidB opts d in
  (∀ c, c ∈ calls → ∃ cid net, c = Connect cid net ∧
     PeerNetworkID <$> GetContainerPeer uidA uidB (opt_ContainerIDA opts) (opt_ContainerIDB opts) d' = Some net ∧
     if container_level opts then cid = opt_ContainerIDA opts ∨ cid = opt_ContainerIDB opts
     else ∃ uid cs, (uid = uidA ∨ uid = uidB) ∧ GetContainersByOwner daemon uid = Some cs ∧ cid ∈ cs) ∧
  (is_Some err → calls = [] ∧ d' = d).
Proof.
  intros Hw. unfold AllowNetworkPeer. destruct (_ && _); [by split; [intros c Hc%elem_of_nil|]|].
  destruct (if container_level opts then _ else _); [split; [by intros c Hc%elem_of_nil|by intros []]|].
  destruct (if container_level opts then _ else _) as [net|]; [|by split; [intros c Hc%elem_of_nil|]].
  set (a := opt_ContainerIDA opts). set (b := opt_ContainerIDB opts).
  assert (AddNetworkPeer now uidA uidB net a b d = (None, (AddNetworkPeer now uidA uidB net a b d).2) ∧
    PeerNetworkID <$> GetContainerPeer uidA uidB a b (AddNetworkPeer now uidA uidB net a b d).2 = Some net) as [-> Hrec].
  { unfold AddNetworkPeer, GetContainerPeer. destruct (peer_norm uidA uidB a b) as [[[x y] cx] cy]. rewrite Exec_healthy by done.
    split; [done|]. cbn [snd]. destruct d as [c i t n m v p e vf ss sc cf w]. simpl in Hw. subst w. unfold QueryRow. simpl.
    change (x, y, cx, cy) with (key_of (mkPeerRow x y net cx cy now)). by rewrite tbl_lookup_replace_eq. }
  split; [|by intros []]. intros c Hc. apply list_elem_of_fmap in Hc as (cid & -> & Hc). exists cid, net. split_and!; [done..|].
  unfold peer_members in Hc. destruct (container_level opts); [set_solver|]. apply list_elem_of_join in Hc as (cs & Hcid & Hcs).
  apply list_elem_of_fmap in Hcs as (uid & -> & Huid). destruct (GetContainersByOwner daemon uid) as [cs|] eqn:E; [|by apply elem_of_nil in Hcid].
  exists uid, cs. split_and!; [|done..]. set_solver.
Qed.

(** C24: Denying parts the users.  With the database working, each network that was
    recorded for the two of them is asked to be deleted; a container is left on one only if
    it was there and the daemon did not list it as a member or did not carry out the request
    to disconnect it; and a container made later by either is connected only to networks
    recorded for other pairs. *)
Theorem denied_users_are_parted acted uidA uidB d joined :
  writes_left d = None →
  let '(err, calls, d') := DenyNetworkPeer daemon uidA uidB (mkPeerOptions "" "") d in
  (∀ r, r ∈ network_peers d → peer_pair (Z.min uidA uidB) (Z.max uidA uidB) r = true →
     DeleteNet (pe_peer_network_id r) ∈ calls ∧
     ∀ cid, (cid, pe_peer_network_id r) ∈ members_after acted joined calls →
       (cid, pe_peer_network_id r) ∈ joined ∧
       (cid ∈ listNetworkContainers daemon (pe_peer_network_id r) → acted (Disconnect cid (pe_peer_network_id r)) = false)) ∧
  (∀ cid uid net, Connect cid net ∈ connectContainerToPeerNetworks cid uid d' →
     ∃ r, r ∈ network_peers d ∧ pe_peer_network_id r = net ∧ (pe_uid_a r = uid ∨ pe_uid_b r = uid) ∧
       peer_pair (Z.min uidA uidB) (Z.max uidA uidB) r = false).
Proof.
  intros Hw. unfold DenyNetworkPeer, RemoveNetworkPeer. cbn [opt_ContainerIDA opt_ContainerIDB].
  assert (peer_norm uidA uidB "" "" = (Z.min uidA uidB, Z.max uidA uidB, "", "")) as ->.
  { unfold peer_norm. destruct (Z.ltb_spec uidB uidA); repeat f_equal; lia. }
  unfold Query. rewrite healthy_up by done. rewrite Exec_healthy by done. set (a := Z.min uidA uidB). set (b := Z.max uidA uidB).
  set (ids := pe_peer_network_id <$> tbl_select (peer_match a b "" "") (network_peers d)).
  set (d' := on_network_peers _ d).
  assert (∀ cid uid net, Connect cid net ∈ connectContainerToPeerNetworks cid uid d' →
    ∃ r, r ∈ network_peers d ∧ pe_peer_network_id r = net ∧ (pe_uid_a r = uid ∨ pe_uid_b r = uid) ∧ peer_pair a b r = false) as Hlater.
  { intros cid uid net. unfold connectContainerToPeerNetworks, GetNetworkPeersByUID, Query. destruct (db_down d'); [by intros H%elem_of_nil|].
    intros H. apply list_elem_of_fmap in H as (peer & [= ->] & [_ H]%list_elem_of_filter).
    apply list_elem_of_fmap in H as (r & -> & [Hr Hu]%elem_of_tbl_select). exists r.
    assert (network_peers d' = tbl_delete_where (peer_match a b "" "") (network_peers d)) as E by (subst d'; by destruct d).
    rewrite E in Hr. apply elem_of_tbl_delete_where in Hr as [Hr Hm]. split_and!; [done..| |by rewrite peer_match_all in Hm].
    apply orb_true_iff in Hu. by rewrite !Z.eqb_eq in Hu. }
  assert (∀ r, r ∈ network_peers d → peer_pair a b r = true → pe_peer_network_id r ∈ ids) as Hids.
  { intros r Hr Hp. apply list_elem_of_fmap. exists r. split; [done|]. apply elem_of_tbl_select. by rewrite peer_match_all. }
  destruct (length ids =? 0)%nat eqn:El; (split; [|exact Hlater]); intros r Hr Hp; specialize (Hids r Hr Hp).
  - apply Nat.eqb_eq, nil_length_inv in El. rewrite El in Hids. by apply elem_of_nil in Hids.
  - destruct (deletions_part ids) as [Hparts Hdel]. destruct (Hdel _ Hids) as [Hd Hdis]. split; [done|]. intros cid Hm.
    split; [by eapply parting_members|]. intros Hc. eapply parted_members; [exact Hparts|by apply Hdis|exact Hm].
Qed.
End peer_laws.

(** The listener's waits are bounded, but not by the maximum it names: they are the
    powers of two from 1 to 64 seconds, and after six errors in a row each is 64. *)
Theorem listener_waits_bounded ends w :
  (w ∈ listener_waits ends → w ∈ [1; 2; 4; 8; 16; 32; 64]%Z) ∧
  (∀ n, listener_waits (replicate (6 + n) ListenError) = [2; 4; 8; 16; 32; 64]%Z ++ replicate n 64%Z) ∧
  (∀ n e, last (listener_waits (replicate n ListenError ++ [ListenClosed; e])) = Some (match e with ListenError => 2 | ListenClosed => 1 end)%Z).
Proof.
  split_and!.
  - unfold listener_waits. assert (initialBackoff ∈ [2; 4; 8; 16; 32; 64]%Z) as Hb by (vm_compute; left). revert Hb.
    generalize initialBackoff. induction ends as [|e ends IH]; intros b Hb Hw; [by apply elem_of_nil in Hw|]. cbn [waits] in Hw.
    assert ((after_listen e b).1 ∈ [1; 2; 4; 8; 16; 32; 64]%Z ∧ (after_listen e b).2 ∈ [2; 4; 8; 16; 32; 64]%Z) as [H1 H2].
    { destruct e; [|by split; [left|left]]. unfold after_listen. split; [by apply elem_of_cons; right|].
      rewrite !elem_of_cons in Hb. destruct Hb as [->|[->|[->|[->|[->|[->|Hb%elem_of_nil]]]]]]; vm_compute; [..|done]; repeat (left + right). }
    destruct (after_listen e b) as [w' b']. apply elem_of_cons in Hw as [->|Hw]; [done|]. by apply (IH b').
  - intros n. assert (∀ l, listener_waits (replicate 6 ListenError ++ l) = [2; 4; 8; 16; 32; 64]%Z ++ waits l 64) as H by done.
    rewrite replicate_add, H. f_equal. induction n as [|n IH]; [done|]. cbn [replicate waits]. by rewrite <- IH.
  - intros n e. unfold listener_waits. generalize initialBackoff. induction n as [|n IH]; intros b.
    + by destruct e.
    + cbn [replicate app waits after_listen]. destruct (waits _ _) as [|x l] eqn:E; [|by rewrite last_cons_cons, <- E].
      by destruct n.
Qed.

(** A destroyed container leaves neither its record nor a host port, and no other
    record changes; that it has stopped changes nothing. *)
Theorem destroyed_container_leaves_nothing id d :
  writes_left d = None → id ≠ "" →
  let d' := handle_event (mkDockerEvent "container" "destroy" id) d in
  GetContainerOwner id d' = None ∧
  (∀ r, r ∈ port_mappings d' ↔ r ∈ port_mappings d ∧ p_container_id r ≠ id) ∧
  (∀ r, r ∈ containers d' ↔ r ∈ containers d ∧ c_id r ≠ id) ∧
  images d' = images d ∧ networks d' = networks d ∧ volumes d' = volumes d ∧
  handle_event (mkDockerEvent "container" "die" id) d = d.
Proof.
  intros Hw Hid%String.eqb_neq d'. subst d'. unfold handle_event. cbn [de_Type de_Action de_ActorID]. rewrite Hid.
  change ("container" ==s "container") with true. change ("destroy" ==s "destroy") with true.
  change ("die" ==s "destroy") with false. change ("die" ==s "die") with true. cbn [andb orb].
  destruct d as [c i t n m v p e vf ss sc cf w]. simpl in Hw. subst w. unfold DeleteContainer, ReleasePortMappings, Exec. simpl.
  split_and!; try done.
  - unfold GetContainerOwner, QueryRow. simpl. by rewrite tbl_lookup_delete_eq.
  - intros r. by rewrite elem_of_tbl_delete_where, String.eqb_neq.
  - intros r. apply elem_of_tbl_delete.
Qed.

(** ** Examples *)

Module PeersDemo.

(** A daemon where alice and bob have a container each. *)
Definition daemon : PeerDaemon :=
  mkPeerDaemon (mkDocker (λ _, None) (λ _, None) (λ _, Some (JObj [("Id", JStr "net9")])))
    (λ label, if label ==s "system.authz.owner.uid=1001" then Some (Doc (JArr [JObj [("Id", JStr "aa")]]))
              else if label ==s "system.authz.owner.uid=1002" then Some (Doc (JArr [JObj [("Id", JStr "bb")]])) else None)
    map_to_list.
(** The same, telling who is on the network. *)
Definition watched : PeerDaemon :=
  mkPeerDaemon (mkDocker (λ path, if path ==s "/networks/net9" then
      Some (JObj [("Containers", JObj [("aa", JObj []); ("bb", JObj [])])]) else None) (λ _, None) (docker_create_network (pd_docker daemon)))
    (pd_containers daemon) map_to_list.
Definition everyone : PeerOptions := mkPeerOptions "" "".
Definition allowed : OwnershipDB := (AllowNetworkPeer daemon 3 1002 1001 everyone initSchema).2.

Example allow_and_deny :
  (AllowNetworkPeer daemon 3 1002 1001 everyone initSchema).1 = (None, [Connect "bb" "net9"; Connect "aa" "net9"]) ∧
  connectContainerToPeerNetworks "cc" 1001 allowed = [Connect "cc" "net9"] ∧
  (DenyNetworkPeer daemon 1001 1002 everyone allowed).1 = (None, [DeleteNet "net9"]) ∧
  connectContainerToPeerNetworks "cc" 1001 (DenyNetworkPeer daemon 1001 1002 everyone allowed).2 = [].
Proof. split_and!; vm_compute; reflexivity. Qed.

End PeersDemo.

(** ** Witnesses *)

Lemma allow_connects_the_pair_witness :
  PeerNetworkID <$> GetContainerPeer 1002 1001 "" "" PeersDemo.allowed = Some "net9".
Proof.
  pose proof (allow_connects_the_pair PeersDemo.daemon 3 1002 1001 PeersDemo.everyone initSchema eq_refl) as H.
  assert (AllowNetworkPeer PeersDemo.daemon 3 1002 1001 PeersDemo.everyone initSchema =
    (None, [Connect "bb" "net9"; Connect "aa" "net9"], PeersDemo.allowed)) as E by (vm_compute; reflexivity).
  rewrite E in H. destruct H as [H _]. destruct (H (Connect "bb" "net9")) as (cid & net & [= <- <-] & Hn & _); [left|exact Hn].
Defined.

Lemma denied_users_are_parted_witness :
  (DenyNetworkPeer PeersDemo.watched 1001 1002 PeersDemo.everyone PeersDemo.allowed).1 =
    (None, [Disconnect "aa" "net9"; Disconnect "bb" "net9"; DeleteNet "net9"]) ∧
  ("aa", "net9") ∉ members_after (λ _, true) [("aa", "net9"); ("bb", "net9")]
    [Disconnect "aa" "net9"; Disconnect "bb" "net9"; DeleteNet "net9"].
Proof.
  assert ((DenyNetworkPeer PeersDemo.watched 1001 1002 PeersDemo.everyone PeersDemo.allowed).1 =
    (None, [Disconnect "aa" "net9"; Disconnect "bb" "net9"; DeleteNet "net9"])) as E by (vm_compute; reflexivity).
  split; [exact E|]. assert (writes_left PeersDemo.allowed = None) as Hw by (vm_compute; reflexivity).
  pose proof (denied_users_are_parted PeersDemo.watched (λ _, true) 1001 1002 PeersDemo.allowed [("aa", "net9"); ("bb", "net9")] Hw) as H.
  unfold PeersDemo.everyone in E. destruct (DenyNetworkPeer _ _ _ _ _) as [[err calls] d']. simplify_eq/=. destruct H as [H _].
  intros Hm. destruct (H (mkPeerRow 1001 1002 "net9" "" "" 3)) as [_ Hp]; [vm_compute; left|reflexivity|].
  destruct (Hp "aa" Hm) as [_ Hacted]. discriminate (Hacted ltac:(vm_compute; left)).
Defined.

Lemma destroyed_container_leaves_nothing_witness :
  GetContainerOwner "c1" (handle_event (mkDockerEvent "container" "destroy" "c1")
    (SetContainerOwner 1 "c1" ImageDemo.alice "" initSchema).2) = None ∧
  is_Some (GetContainerOwner "c1" (SetContainerOwner 1 "c1" ImageDemo.alice "" initSchema).2).
Proof.
  split; [|vm_compute; eauto]. refine (proj1 (destroyed_container_leaves_nothing "c1" _ _ _)); vm_compute; [reflexivity|discriminate].
Defined.
