(* ===== verification/Client.v ===== *)
(** * Client: what the proxy asks of the daemon, on the wire

    The [dockerClient] of [internal/isolation/netbridge.go] (414-598) and the client of
    [StorageManager] in [internal/isolation/storage.go] (149-250): the requests that are
    sent over the daemon's socket, as method, URL and body, and what is made of the
    status and the text that come back.  The connection is the parameter [send]: [None] is
    an error of it, a time-out among them.  Docker, Bridge, Peers and Storage take the
    daemon as a record of documents; [docker_of] and [peer_daemon_of] are the records
    this client implements. *)

From S2P Require Import Prelude GoStrings GoJson GoJsonText GoUrl Docker OsLookup Identity Names Tables Database ImageDB ResourceDB Events ImagePerm Quota GoPath Storage Bodies Filter Streams Bridge Peers.

Record HttpRequest := mkHttpRequest { hq_Method : string; hq_URL : string; hq_ContentType : string; hq_Body : string }.
Definition Get (url : string) : HttpRequest := mkHttpRequest "GET" url "" "".
Definition Post (url : string) (j : json) : HttpRequest := mkHttpRequest "POST" url "application/json" (json_text j).
Definition Delete (url : string) : HttpRequest := mkHttpRequest "DELETE" url "" "".

(** [json.NewDecoder(r).Decode]: the first document of a text; [json.Unmarshal] takes the
    whole. *)
Definition first_document (text : string) : option json := fst <$> parse_value (2 * slen text + 1) 0 text.
Definition Decode {A} (dec : A → json → A * bool) (zero : A) (text : string) : option A :=
  first_document text ≫= unmarshal_as dec zero.

(** [url.PathEscape]. *)
Definition segment_plain (c : ascii) : bool := unreserved c || existsb (Ascii.eqb c) ["$"; "&"; "+"; ":"; "="; "@"]%char.
Fixpoint PathEscape (s : string) : string :=
  match s with
  | "" => ""
  | String c r => (if segment_plain c then String c "" else pct c) +:+ PathEscape r
  end.

(** ** Requests *)

Definition network_url (name : string) : string := "/networks/" +:+ name.
Definition create_request (body : json) : HttpRequest := Post "/networks/create" body.
Definition connect_request (containerID networkID : string) : HttpRequest :=
  Post ("/networks/" +:+ networkID +:+ "/connect") (JObj [("Container", JStr containerID)]).
Definition disconnect_request (containerID networkID : string) : HttpRequest :=
  Post ("/networks/" +:+ networkID +:+ "/disconnect") (JObj [("Container", JStr containerID); ("Force", JBool false)]).
Definition label_filter (label : string) : string := json_text (JObj [("label", JArr [JStr label])]).
Definition containers_request (label : string) : HttpRequest :=
  Get ("/containers/json?all=true&filters=" +:+ QueryEscape (label_filter label)).
Definition dangling_filter : string := "{" +:+ quoted "dangling" +:+ ":[" +:+ quoted "true" +:+ "]}".
Definition volumes_request : HttpRequest := Get ("/volumes?filters=" +:+ QueryEscape dangling_filter).
Definition volume_request (name : string) : HttpRequest := Delete ("/volumes/" +:+ PathEscape name).

(** What Peers records as calls. *)
Definition call_request (c : Call) : HttpRequest :=
  match c with
  | Connect containerID networkID => connect_request containerID networkID
  | Disconnect containerID networkID => disconnect_request containerID networkID
  | DeleteNet networkID => Delete (network_url networkID)
  end.

(** ** The client *)

Section client.
Context (send : HttpRequest → option (Z * string)).

(** [None] is an error; a network that is not there has no id. *)
Definition client_findNetworkByName (name : string) : option string :=
  match send (Get (network_url name)) with
  | None => None
  | Some (code, text) =>
    if (code =? 404)%Z then Some "" else if negb (code =? 200)%Z then None else Decode (decode_id "Id") "" text
  end.
Definition createNetwork (body : json) : option string :=
  match send (create_request body) with
  | None => None
  | Some (code, text) => if negb (code =? 201)%Z then None else Decode (decode_id "Id") "" text
  end.
Definition client_getBridgeInterface (networkID : string) : option string :=
  match send (Get (network_url networkID)) with
  | None => None
  | Some (code, text) =>
    if negb (code =? 200)%Z then None else
    options ← Decode decode_options None text;
    let by_id := if (12 <=? slen networkID)%nat then Some ("br-" +:+ str_take 12 networkID) else None in
    match default ∅ options !! "com.docker.network.bridge.name" with
    | Some iface => if iface !=s "" then Some iface else by_id
    | None => by_id
    end
  end.
(** Whether there is no error. *)
Definition deleteNetwork (id : string) : bool :=
  match send (Delete (network_url id)) with Some (code, _) => (code =? 204)%Z || (code =? 200)%Z | None => false end.
Definition connectContainerToNetwork (containerID networkID : string) : bool :=
  match send (connect_request containerID networkID) with Some (code, _) => (code =? 200)%Z | None => false end.
Definition disconnectContainerFromNetwork (containerID networkID : string) : bool :=
  match send (disconnect_request containerID networkID) with Some (code, _) => (code =? 200)%Z | None => false end.
(** The status is not looked at. *)
Definition listContainersByLabel (label : string) : option (list string) :=
  match send (containers_request label) with
  | None => None
  | Some (_, text) => Decode (decode_list (decode_id "Id") "") [] text
  end.
Definition client_listNetworkContainers (range : gmap string json → list (string * json)) (networkID : string) : option (list string) :=
  match send (Get (network_url networkID)) with
  | None => None
  | Some (code, text) =>
    if negb (code =? 200)%Z then Some [] else
    members ← Decode decode_members None text; Some (range (default ∅ members)).*1
  end.

(** [StorageManager]: the names of the volumes; and whether a volume is removed. *)
Definition decode_volume_item : string → json → string * bool :=
  decode_struct (λ kvs n, field decode_string "Name" kvs n)
    (λ kvs, field_ok decode_string "Name" kvs "" &&
            field_ok (decode_pointer (decode_struct (λ kvs n, field decode_int64 "RefCount" kvs n) (λ kvs, field_ok decode_int64 "RefCount" kvs 0%Z)) 0%Z)
              "UsageData" kvs None).
Definition decode_volumes : list string → json → list string * bool :=
  decode_struct (λ kvs l, field (decode_list decode_volume_item "") "Volumes" kvs l)
    (λ kvs, field_ok (decode_list decode_volume_item "") "Volumes" kvs []).
Definition listDanglingVolumes : option (list string) :=
  match send volumes_request with
  | None => None
  | Some (_, text) => json_of_text text ≫= unmarshal_as decode_volumes []
  end.
Definition removeVolume (name : string) : bool :=
  match send (volume_request name) with Some (code, _) => (code =? 204)%Z || (code =? 200)%Z | None => false end.

(** The clean-up with its requests. *)
Definition cleanup (before after : nat → OwnershipDB → OwnershipDB) (readDir : string → option (list (string * bool)))
    (remove : string → bool) (storageBase : string) (d : OwnershipDB) : list string * list string * OwnershipDB :=
  runCleanup listDanglingVolumes removeVolume before after readDir remove storageBase d.

(** ** The daemon as the other components see it *)

Definition document_of (code : Z) (answer : option (Z * string)) : option json :=
  match answer with Some (c, text) => if (c =? code)%Z then first_document text else None | None => None end.
Definition docker_of (images : string → option json) : Docker :=
  mkDocker (λ path, document_of 200 (send (Get path))) images (λ body, document_of 201 (send (create_request body))).
Definition containers_body (answer : option (Z * string)) : option body :=
  match answer with Some (_, text) => Some (match first_document text with Some j => Doc j | None => InvalidBody end) | None => None end.
Definition peer_daemon_of (images : string → option json) (range : gmap string json → list (string * json)) : PeerDaemon :=
  mkPeerDaemon (docker_of images) (λ label, containers_body (send (containers_request label))) range.
End client.

(** ** Lemmas *)

Section refinement.
Context (send : HttpRequest → option (Z * string)) (images : string → option json).
Context (range : gmap string json → list (string * json)).
Let docker : Docker := docker_of send images.
Let daemon : PeerDaemon := peer_daemon_of send images range.

(** The client implements the daemon the other components are stated over.  Each function
    of the client gives, from the statuses and texts of the connection, what they
    compute from the documents of the record, errors included where the code tells
    them apart. *)
Theorem client_implements_daemon name networkID body label uid :
  default "" (client_findNetworkByName send name) = findNetworkByName docker name ∧
  createNetwork send body = docker_create_network docker body ≫= unmarshal_as (decode_id "Id") "" ∧
  client_getBridgeInterface send networkID = getBridgeInterface docker networkID ∧
  listContainersByLabel send label =
    (b ← pd_containers daemon label; unmarshal_body (decode_list (decode_id "Id") "") [] b) ∧
  listContainersByLabel send (LabelOwnerUID +:+ "=" +:+ Itoa uid) = GetContainersByOwner daemon uid ∧
  default [] (client_listNetworkContainers send range networkID) = listNetworkContainers daemon networkID.
Proof.
  split_and!.
  - unfold client_findNetworkByName, findNetworkByName, docker, docker_of, document_of, Decode, network_url. cbn [docker_get].
    destruct (send _) as [[code text]|]; [|done]. destruct (Z.eqb_spec code 404) as [->|]; [done|]. by destruct (code =? 200)%Z.
  - unfold createNetwork, docker, docker_of, document_of, Decode. cbn [docker_create_network].
    destruct (send _) as [[code text]|]; [|done]. by destruct (code =? 201)%Z.
  - unfold client_getBridgeInterface, getBridgeInterface, docker, docker_of, document_of, Decode, network_url. cbn [docker_get].
    destruct (send _) as [[code text]|]; [|done]. by destruct (code =? 200)%Z.
  - unfold listContainersByLabel, daemon, peer_daemon_of, containers_body, Decode. cbn [pd_containers].
    destruct (send _) as [[code text]|]; [|done]. cbn -[first_document]. by destruct (first_document text).
  - unfold listContainersByLabel, GetContainersByOwner, daemon, peer_daemon_of, containers_body, Decode. cbn [pd_containers].
    destruct (send _) as [[code text]|]; [|done]. cbn -[first_document]. by destruct (first_document text).
  - unfold client_listNetworkContainers, listNetworkContainers, daemon, peer_daemon_of, docker_of, document_of, Decode, network_url. cbn -[first_document].
    destruct (send _) as [[code text]|]; [|done]. cbn -[first_document]. destruct (code =? 200)%Z; [|done]. cbn -[first_document].
    destruct (first_document text) as [j|]; [|done]. cbn. by destruct (unmarshal_as decode_members None j).
Qed.
End refinement.

Lemma PathEscape_chars s : str_forallb (λ c, segment_plain c || Ascii.eqb c "%") (PathEscape s) = true.
Proof.
  induction s as [|c s IH]; [done|]. cbn [PathEscape]. rewrite str_forallb_app, IH, andb_true_r. clear.
  by destruct c as [[] [] [] [] [] [] [] []].
Qed.
Lemma unescape_PathEscape s : unescape_path (PathEscape s) = Some s.
Proof.
  induction s as [|c s IH]; [done|]. cbn [PathEscape].
  assert (∀ r, unescape_path ((if segment_plain c then String c "" else pct c) +:+ r) = String c <$> unescape_path r) as ->.
  { intros r. clear. by destruct c as [[] [] [] [] [] [] [] []]. }
  by rewrite IH.
Qed.
Lemma PathEscape_without c s : segment_plain c = false → c ≠ "%"%char → str_forallb (λ d, negb (Ascii.eqb c d)) (PathEscape s) = true.
Proof.
  intros Hc Hp. eapply str_forallb_impl, PathEscape_chars. intros d Hd. cbv beta in Hd |- *. destruct (Ascii.eqb_spec c d) as [<-|]; [|done].
  rewrite Hc in Hd. cbn in Hd. by destruct (Ascii.eqb_spec c "%").
Qed.

Lemma PathEscape_plain s : str_forallb segment_plain s = true → PathEscape s = s.
Proof. induction s as [|c s IH]; [done|]. cbn. intros [-> H]%andb_true_iff. cbn. by rewrite IH. Qed.

(** The filters of a query are read as they were meant. *)
Lemma filters_pair f : "filters=" +:+ QueryEscape f = encode_pair ("filters", f).
Proof. done. Qed.
Lemma encode_pair_ne kv : encode_pair kv ≠ "".
Proof. apply pair_ne. Qed.
Lemma Split1_pair kv : Split1 "&" (encode_pair kv) = [encode_pair kv].
Proof. by apply Split1_no_sep, encode_pair_without. Qed.
Lemma ParseQuery_filters f : ParseQuery ("filters=" +:+ QueryEscape f) = ([("filters", f)], true).
Proof.
  rewrite filters_pair. unfold ParseQuery. rewrite (proj2 (String.eqb_neq _ _) (encode_pair_ne _)), Split1_pair.
  cbn [fmap list_fmap]. by rewrite parse_piece_encoded.
Qed.
Lemma ParseQuery_all_filters f : ParseQuery ("all=true&filters=" +:+ QueryEscape f) = ([("all", "true"); ("filters", f)], true).
Proof.
  change ("all=true&filters=" +:+ QueryEscape f) with ("all=true" +:+ String "&" (encode_pair ("filters", f))). unfold ParseQuery.
  change (("all=true" +:+ String "&" (encode_pair ("filters", f))) ==s "") with false. cbv iota.
  rewrite Split1_app by done. rewrite Split1_pair. cbn [fmap list_fmap]. rewrite parse_piece_encoded. done.
Qed.

(** C34: The daemon is asked for what is meant.  As it reads them, the body of a connection or
    disconnection is the container's name, the filter of a listing is the label, the body of
    a creation is the network described, and the path of a removal is that of the one
    volume, whatever characters are in the names: none of them can be taken for another
    member, parameter or path.  In bodies and filters, bytes that are not UTF-8 are read as
    replacement characters.  The name or id of a network, which goes into the path as it
    is, is read as it was meant if it has only characters that need no escape. *)
Theorem daemon_reads_what_is_asked containerID networkID label body name :
  literals_ok body = true → (height body <= maxNestingDepth)%N →
  json_of_text (hq_Body (connect_request containerID networkID)) = Some (JObj [("Container", JStr (sanitize containerID))]) ∧
  json_of_text (hq_Body (disconnect_request containerID networkID)) =
    Some (JObj [("Container", JStr (sanitize containerID)); ("Force", JBool false)]) ∧
  json_of_text (hq_Body (create_request body)) = Some (sanitized body) ∧
  (∃ q f, hq_URL (containers_request label) = "/containers/json?" +:+ q ∧ ParseQuery q = ([("all", "true"); ("filters", f)], true) ∧
     json_of_text f = Some (JObj [("label", JArr [JStr (sanitize label)])])) ∧
  (∃ q f, hq_URL volumes_request = "/volumes?" +:+ q ∧ ParseQuery q = ([("filters", f)], true) ∧
     json_of_text f = Some (JObj [("dangling", JArr [JStr "true"])])) ∧
  (∃ p, hq_URL (volume_request name) = "/volumes/" +:+ p ∧ unescape_path p = Some name ∧
     ∀ c, c ∈ ["/"; "?"; "#"; ";"; " "]%char → str_forallb (λ d, negb (Ascii.eqb c d)) p = true) ∧
  (str_forallb segment_plain networkID = true →
     hq_URL (connect_request containerID networkID) = "/networks/" +:+ networkID +:+ "/connect" ∧
     hq_URL (disconnect_request containerID networkID) = "/networks/" +:+ networkID +:+ "/disconnect" ∧
     network_url networkID = "/networks/" +:+ networkID ∧ unescape_path networkID = Some networkID ∧
     ∀ c, c ∈ ["/"; "?"; "#"; ";"; " "]%char → str_forallb (λ d, negb (Ascii.eqb c d)) networkID = true).
Proof.
  intros Hok Hh.
  assert (∀ n c, c ∈ ["/"; "?"; "#"; ";"; " "]%char → str_forallb (λ d, negb (Ascii.eqb c d)) (PathEscape n) = true) as Hsep.
  { intros n c Hc. rewrite !elem_of_cons, elem_of_nil in Hc. apply PathEscape_without; destruct_or! Hc; by subst. }
  split_and!.
  - unfold connect_request, Post. cbn [hq_Body]. by rewrite json_of_text_of.
  - unfold disconnect_request, Post. cbn [hq_Body]. by rewrite json_of_text_of.
  - unfold create_request, Post. cbn [hq_Body]. by rewrite json_of_text_of.
  - exists ("all=true&filters=" +:+ QueryEscape (label_filter label)), (label_filter label).
    split_and!; [done|apply ParseQuery_all_filters|]. unfold label_filter. by rewrite json_of_text_of.
  - exists ("filters=" +:+ QueryEscape dangling_filter), dangling_filter. split_and!; [done|apply ParseQuery_filters|by vm_compute].
  - exists (PathEscape name). split_and!; [done|apply unescape_PathEscape|apply Hsep].
  - intros Hn%PathEscape_plain. pose proof (unescape_PathEscape networkID) as Hu. specialize (Hsep networkID). rewrite Hn in Hu, Hsep. by split_and!.
Qed.

(** The clean-up takes nothing that is anybody's from the daemon.  A volume it reports as
    removed was among those the daemon named as not used by a container, has the name of a
    user's, had no record when the clean-up began, and was removed by the daemon in answer
    to the request for that one volume. *)
Theorem cleanup_removes_orphans send before after readDir remove storageBase d v :
  v ∈ (cleanup send before after readDir remove storageBase d).1.1 →
  db_down d = false ∧ tbl_lookup v (volumes d) = None ∧ isUserVolumePrefix v = true ∧
  (∃ code text vs, send volumes_request = Some (code, text) ∧ json_of_text text ≫= unmarshal_as decode_volumes [] = Some vs ∧ v ∈ vs) ∧
  ∃ code text, send (volume_request v) = Some (code, text) ∧ (code = 204 ∨ code = 200)%Z.
Proof.
  unfold cleanup, runCleanup, cleanup_volumes, GetAllVolumeNames, Query, listDanglingVolumes.
  destruct (db_down d); [by intros ?%elem_of_nil|]. destruct (send volumes_request) as [[code text]|]; [|by intros ?%elem_of_nil].
  destruct (json_of_text text ≫= _) as [vs|] eqn:Evs; [|by intros ?%elem_of_nil].
  destruct (clean_volumes _ _ _ _ _ _ _) as [removed d'] eqn:E. intros [[v' dc] [-> Hin]]%list_elem_of_fmap. cbn [fst].
  change removed with (removed, d').1 in Hin. rewrite <- E in Hin. apply clean_volumes_removed in Hin as (H1 & H2 & H3 & _ & H5).
  split_and!; [done| |done|by exists code, text, vs|].
  - destruct (tbl_lookup v' (volumes d)) as [r|] eqn:Er; [|done]. destruct H3. apply tbl_lookup_Some in Er as [Hr <-].
    change (key_of r) with (v_name r). by apply list_elem_of_fmap_2.
  - unfold removeVolume in H5. destruct (send (volume_request v')) as [[c t]|]; [|done]. exists c, t. split; [done|].
    by rewrite orb_true_iff, !Z.eqb_eq in H5.
Qed.

(** A network, a label and a volume with names that have a meaning in JSON and in URLs. *)
Definition awkward_body : json :=
  JObj [("Name", JStr "peer,1001-1002"); ("Driver", JStr "bridge"); ("CheckDuplicate", JBool true)].
Lemma daemon_reads_what_is_asked_witness :
  let name := "a/b?c#d e;%" in
  json_of_text (hq_Body (create_request awkward_body)) = Some (sanitized awkward_body) ∧
  (∃ p, hq_URL (volume_request name) = "/volumes/" +:+ p ∧ unescape_path p = Some name ∧ p = "a%2Fb%3Fc%23d%20e%3B%25").
Proof.
  pose proof (daemon_reads_what_is_asked "c1" "n1" "authz.uid=1001" awkward_body "a/b?c#d e;%" eq_refl ltac:(by vm_compute))
    as (_ & _ & Hc & _ & _ & (p & Hp & Hu & _) & _).
  cbv zeta. split; [exact Hc|]. exists p. split_and!; [exact Hp|exact Hu|].
  transitivity (PathEscape "a/b?c#d e;%"); [|by vm_compute]. change ("/volumes/" +:+ PathEscape "a/b?c#d e;%" = "/volumes/" +:+ p) in Hp.
  cbn [String.append] in Hp. by injection Hp as <-.
Defined.
