(* ===== verification/Live.v ===== *)
(** * Live: many requests at once

    What the requests under way share: the two semaphores of [ServeHTTP]
    ([internal/forward/proxy.go] 498-535, made by [NewProxyServer] 181-188) and the
    five maps of the event filter, with the [CompareAndDelete] each request defers
    and those [time.AfterFunc] runs some seconds later.  The server is a transition
    system whose steps are the atomic operations on the shared state: a request
    takes a slot or is turned away, stores an entry, ends; a timer fires; the
    database changes.  Any interleaving of them is allowed, more than the code has:
    which entries a request stores, and when, is in Pipeline, Response, Prune and
    Hijack, whose functions are shown to be made of these steps. *)

From stdpp Require Import relations.
From S2P Require Import Prelude GoStrings GoJson Docker GoUrl OsLookup Identity Routes Policy Tables Database ImageDB.
From S2P Require Import ResourceDB Names Events ImagePerm Quota GoPath Storage Bodies Filter PreRequest Pipeline Prune.
From S2P Require Import Streams Response.

(** ** Semaphores *)

(** A buffered channel of empty values; a nil channel is [None]. *)
Record Chan := mkChan { ch_cap : nat; ch_len : nat }.
Definition make_chan (n : Z) : option Chan := if (0 <? n)%Z then Some (mkChan (Z.to_nat n) 0) else None.

Record Slots := mkSlots { semaphore : option Chan; streamSemaphore : option Chan }.
Definition new_slots (MaxConcurrent MaxConcurrentStreams : Z) : Slots :=
  mkSlots (make_chan MaxConcurrent) (make_chan MaxConcurrentStreams).

Definition chan_of (stream : bool) (s : Slots) : option Chan := if stream then streamSemaphore s else semaphore s.
Definition set_chan (stream : bool) (c : option Chan) (s : Slots) : Slots :=
  if stream then mkSlots (semaphore s) c else mkSlots c (streamSemaphore s).

(** [select { case c <- struct{}{}: default: }]: the channel after the sending, and
    whether the taking back is deferred; [None] is the default case. *)
Definition acquire (stream : bool) (s : Slots) : option (Slots * bool) :=
  match chan_of stream s with
  | None => Some (s, false)
  | Some c => if (ch_len c <? ch_cap c)%nat then Some (set_chan stream (Some (mkChan (ch_cap c) (S (ch_len c)))) s, true) else None
  end.

(** [<-c] when [held]; [None] is a receive that blocks. *)
Definition release (stream held : bool) (s : Slots) : option Slots :=
  if negb held then Some s else
  match chan_of stream s with
  | Some (mkChan cap (S n)) => Some (set_chan stream (Some (mkChan cap n)) s)
  | _ => None
  end.

Definition takes_stream (r : Request) : bool := isHijackRequest r || isLongLivedRequest r.
Definition free_slot (s : Slots) (stream : bool) : bool := match acquire stream s with Some _ => true | None => false end.

(** ** Entries of the event maps *)

Inductive Shelf := PendingBuild | CompletedBuild | PendingPull | CompletedPull | CompletedPrune.
#[global] Instance Shelf_eq_dec : EqDecision Shelf.
Proof. solve_decision. Defined.
Record Entry := mkEntry { en_shelf : Shelf; en_key : string; en_owner : pruneOwnerInfo }.
#[global] Instance Entry_eq_dec : EqDecision Entry.
Proof. solve_decision. Defined.

Definition on_shelf (s : Shelf) (st : EventState) : gmap string pruneOwnerInfo :=
  match s with
  | PendingBuild => pendingBuildTags st
  | CompletedBuild => completedBuildOwner st
  | PendingPull => pendingPullRefs st
  | CompletedPull => completedPullOwner st
  | CompletedPrune => completedPruneOwner st
  end.

(** What the timers of completed builds and pulls do. *)
Definition forget_completed_build (k : string) (o : pruneOwnerInfo) (st : EventState) : EventState :=
  mkEventState (pendingBuildTags st) (delete_if k o (completedBuildOwner st)) (pendingPullRefs st)
    (completedPullOwner st) (completedPruneOwner st) (es_db st).
Definition forget_completed_pull (k : string) (o : pruneOwnerInfo) (st : EventState) : EventState :=
  mkEventState (pendingBuildTags st) (completedBuildOwner st) (pendingPullRefs st)
    (delete_if k o (completedPullOwner st)) (completedPruneOwner st) (es_db st).

Definition store (e : Entry) : EventState → EventState :=
  match en_shelf e with
  | PendingBuild => with_tag | CompletedBuild => with_completed_build | PendingPull => with_pull
  | CompletedPull => with_completed_pull | CompletedPrune => with_prune
  end (en_key e) (en_owner e).
Definition discard (e : Entry) : EventState → EventState :=
  match en_shelf e with
  | PendingBuild => forget_tag | CompletedBuild => forget_completed_build | PendingPull => forget_pull
  | CompletedPull => forget_completed_pull | CompletedPrune => forget_prune
  end (en_key e) (en_owner e).

(** The entry of a tag moves from the pending to the completed builds. *)
Definition completed (e : Entry) : Entry := mkEntry CompletedBuild (en_key e) (en_owner e).

(** What the end of a request does with an entry whose removal it has deferred: the
    tag of a build or commit is taken over by a timed entry first. *)
Definition end_entry (e : Entry) (st : EventState) : EventState :=
  if decide (en_shelf e = PendingBuild) then discard e (store (completed e) st) else discard e st.
Definition timers_of (deferred : list Entry) : list Entry :=
  completed <$> base.filter (λ e, en_shelf e = PendingBuild) deferred.
(** Deferred calls run last in, first out; the list has the last first. *)
Definition end_entries (deferred : list Entry) (st : EventState) : EventState := foldl (λ st e, end_entry e st) st deferred.

(** ** The server *)

Record Running := mkRunning { rn_stream : bool; rn_held : bool; rn_deferred : list Entry }.
Record Live := mkLive {
  lv_slots : Slots;
  lv_running : list Running;
  lv_timers : list Entry;
  lv_maps : EventState;
}.

Definition no_entries : EventState := mkEventState ∅ ∅ ∅ ∅ ∅ None.
Definition start_live (MaxConcurrent MaxConcurrentStreams : Z) : Live :=
  mkLive (new_slots MaxConcurrent MaxConcurrentStreams) [] [] no_entries.

(** The maps a request stores to with a deferred removal, and with a timer. *)
Definition deferred_shelf (s : Shelf) : bool :=
  match s with PendingBuild | PendingPull | CompletedPrune => true | _ => false end.
Definition timed_shelf (s : Shelf) : bool :=
  match s with CompletedBuild | CompletedPull | CompletedPrune => true | _ => false end.

Definition set_maps (st : EventState) (l : Live) : Live := mkLive (lv_slots l) (lv_running l) (lv_timers l) st.
Definition with_db (odb : option OwnershipDB) (st : EventState) : EventState :=
  mkEventState (pendingBuildTags st) (completedBuildOwner st) (pendingPullRefs st) (completedPullOwner st)
    (completedPruneOwner st) odb.

(** One step; [buildkit]: connections of BuildKit are served, which store tags whose
    removal nobody has deferred. *)
Inductive live_step (buildkit : bool) : Live → Live → Prop :=
| Arrives r l slots held :
    acquire (takes_stream r) (lv_slots l) = Some (slots, held) →
    live_step buildkit l (mkLive slots (mkRunning (takes_stream r) held [] :: lv_running l) (lv_timers l) (lv_maps l))
| TurnedAway r l :
    acquire (takes_stream r) (lv_slots l) = None → live_step buildkit l l
| Opens l before rn after e :
    lv_running l = before ++ rn :: after → deferred_shelf (en_shelf e) = true →
    live_step buildkit l
      (mkLive (lv_slots l) (before ++ mkRunning (rn_stream rn) (rn_held rn) (e :: rn_deferred rn) :: after) (lv_timers l)
         (store e (lv_maps l)))
| Notes l e :
    timed_shelf (en_shelf e) = true →
    live_step buildkit l (mkLive (lv_slots l) (lv_running l) (e :: lv_timers l) (store e (lv_maps l)))
| Ends l before rn after slots :
    lv_running l = before ++ rn :: after → release (rn_stream rn) (rn_held rn) (lv_slots l) = Some slots →
    live_step buildkit l
      (mkLive slots (before ++ after) (timers_of (rn_deferred rn) ++ lv_timers l) (end_entries (rn_deferred rn) (lv_maps l)))
| Fires l before e after :
    lv_timers l = before ++ e :: after →
    live_step buildkit l (mkLive (lv_slots l) (lv_running l) (before ++ after) (discard e (lv_maps l)))
| DbChanges l odb : live_step buildkit l (set_maps (with_db odb (lv_maps l)) l)
| BuildKitOpens l tag o :
    buildkit = true → live_step buildkit l (set_maps (store (mkEntry PendingBuild tag o) (lv_maps l)) l)
| BuildKitEnds l tag o :
    buildkit = true →
    live_step buildkit l
      (mkLive (lv_slots l) (lv_running l) (mkEntry CompletedBuild tag o :: lv_timers l)
         (end_entry (mkEntry PendingBuild tag o) (lv_maps l))).

Definition live_reachable (buildkit : bool) (MaxConcurrent MaxConcurrentStreams : Z) (l : Live) : Prop :=
  rtc (live_step buildkit) (start_live MaxConcurrent MaxConcurrentStreams) l.

(** The requests of a class under way. *)
Definition in_service (stream : bool) (l : Live) : nat :=
  length (List.filter (λ rn, Bool.eqb (rn_stream rn) stream) (lv_running l)).

(** ** Lemmas: the maps *)

Lemma on_shelf_store s e st :
  on_shelf s (store e st) = if decide (s = en_shelf e) then <[en_key e := en_owner e]> (on_shelf s st) else on_shelf s st.
Proof. destruct e as [[] k o], s; reflexivity. Qed.

Lemma on_shelf_discard s e st :
  on_shelf s (discard e st) = if decide (s = en_shelf e) then delete_if (en_key e) (en_owner e) (on_shelf s st) else on_shelf s st.
Proof. destruct e as [[] k o], s; reflexivity. Qed.

Lemma on_shelf_with_db s odb st : on_shelf s (with_db odb st) = on_shelf s st.
Proof. by destruct s. Qed.

(** The entry is in its map. *)
Definition present (e : Entry) (st : EventState) : Prop := on_shelf (en_shelf e) st !! en_key e = Some (en_owner e).

Lemma present_store e e' st : present e (store e' st) → e = e' ∨ present e st.
Proof.
  unfold present. rewrite on_shelf_store. case_decide as E; [|by right]. destruct (decide (en_key e = en_key e')) as [Hk|Hk].
  - rewrite Hk, lookup_insert_eq. intros [= Ho]. left. destruct e, e'; simpl in *; congruence.
  - rewrite lookup_insert_ne by done. by right.
Qed.

Lemma present_discard e e' st : present e (discard e' st) → e ≠ e' ∧ present e st.
Proof.
  unfold present. rewrite on_shelf_discard. case_decide as E.
  - unfold delete_if. case_decide as Hd.
    + intros [Hk Ho]%lookup_delete_Some. split; [by intros ->|done].
    + intros Ho. split; [|done]. by intros ->.
  - intros Ho. split; [|done]. by intros ->.
Qed.

(** What leaves an entry where it is. *)
Lemma store_keeps e e' st :
  present e st → (en_shelf e' = en_shelf e → en_key e' = en_key e → e' = e) → present e (store e' st).
Proof.
  unfold present. intros He Hsame. rewrite on_shelf_store. case_decide as E; [|done].
  destruct (decide (en_key e' = en_key e)) as [Hk|Hk].
  - rewrite (Hsame (eq_sym E) Hk), lookup_insert_eq. done.
  - by rewrite lookup_insert_ne.
Qed.
Lemma discard_keeps e e' st : present e st → e' ≠ e → present e (discard e' st).
Proof.
  unfold present. intros He Hne. rewrite on_shelf_discard. case_decide as E; [|done]. unfold delete_if. case_decide as Hd; [|done].
  destruct (decide (en_key e' = en_key e)) as [Hk|Hk]; [|by rewrite lookup_delete_ne].
  exfalso. apply Hne. rewrite Hk in Hd. destruct e, e'; simpl in *. congruence.
Qed.

Lemma present_end_entry e d st : present e (end_entry d st) → e ≠ d ∧ (present e st ∨ (en_shelf d = PendingBuild ∧ e = completed d)).
Proof.
  unfold end_entry. case_decide as Hd.
  - intros [Hne [->|H]%present_store]%present_discard; auto.
  - intros [Hne H]%present_discard; auto.
Qed.

Lemma elem_of_timers_of e ds : e ∈ timers_of ds ↔ ∃ d, d ∈ ds ∧ en_shelf d = PendingBuild ∧ e = completed d.
Proof.
  unfold timers_of. rewrite list_elem_of_fmap. setoid_rewrite list_elem_of_filter. naive_solver.
Qed.

(** After the deferred calls of a request, what is left was not the request's, or has a
    timer now. *)
Lemma present_end_entries e ds st : present e (end_entries ds st) → e ∈ timers_of ds ∨ ((e ∉ ds) ∧ present e st).
Proof.
  unfold end_entries. revert st. induction ds as [|d ds IH]; intros st; cbn [foldl]; [right; split; [set_solver|done]|].
  intros [H|[Hni H]]%IH.
  - left. apply elem_of_timers_of in H as (d' & Hd' & ? & ->). apply elem_of_timers_of. exists d'. split; [by right|done].
  - apply present_end_entry in H as [Hne [H|[Hd ->]]]; [right; split; [set_solver|done]|].
    left. apply elem_of_timers_of. exists d. split; [by left|done].
Qed.

(** ** Lemmas: the semaphores *)

Definition held_by (stream : bool) (l : Live) : nat :=
  length (List.filter (λ rn, Bool.eqb (rn_stream rn) stream && rn_held rn) (lv_running l)).

Lemma chan_set_eq stream c s : chan_of stream (set_chan stream c s) = c.
Proof. by destruct stream. Qed.
Lemma chan_set_ne stream stream' c s : stream ≠ stream' → chan_of stream (set_chan stream' c s) = chan_of stream s.
Proof. by destruct stream, stream'. Qed.

Lemma acquire_held stream s s' held :
  acquire stream s = Some (s', held) → held = match chan_of stream s with Some _ => true | None => false end.
Proof. unfold acquire. intros H. by repeat case_match; simplify_eq. Qed.

(** What the counters say: as many values are in a channel as requests of its class
    have one to take back, every request of a class with a channel has one, and the
    capacity is the one of the start. *)
Definition slots_ok (caps : bool → option nat) (l : Live) : Prop :=
  ∀ stream,
    ch_cap <$> chan_of stream (lv_slots l) = caps stream ∧
    (∀ c, chan_of stream (lv_slots l) = Some c → ch_len c = in_service stream l ∧ ch_len c <= ch_cap c) ∧
    (∀ rn, rn ∈ lv_running l → rn_stream rn = stream → rn_held rn = bool_decide (is_Some (caps stream))).

Definition limit (MaxConcurrent MaxConcurrentStreams : Z) (stream : bool) : option nat :=
  let n := if stream then MaxConcurrentStreams else MaxConcurrent in
  if (0 <? n)%Z then Some (Z.to_nat n) else None.

Lemma slots_ok_start c1 c2 : slots_ok (limit c1 c2) (start_live c1 c2).
Proof.
  intros stream. unfold limit. destruct stream; cbn; unfold make_chan; case_match; cbn;
    (split_and!; [done| |intros rn []%elem_of_nil]); intros c Hc; simplify_eq; cbn; lia.
Qed.

Lemma in_service_cons stream rn l :
  in_service stream (mkLive (lv_slots l) (rn :: lv_running l) (lv_timers l) (lv_maps l)) =
  (if Bool.eqb (rn_stream rn) stream then 1 else 0) + in_service stream l.
Proof. unfold in_service. cbn. by destruct (Bool.eqb _ _). Qed.

Lemma filter_middle (p : Running → bool) before rn after :
  length (List.filter p (before ++ rn :: after)) = (if p rn then 1 else 0) + length (List.filter p (before ++ after)).
Proof. rewrite !List.filter_app, !length_app. cbn [List.filter]. destruct (p rn); cbn; lia. Qed.

Lemma acquire_ok caps l stream s held :
  slots_ok caps l → acquire stream (lv_slots l) = Some (s, held) →
  slots_ok caps (mkLive s (mkRunning stream held [] :: lv_running l) (lv_timers l) (lv_maps l)).
Proof.
  intros Hok Ha stream'. pose proof (acquire_held _ _ _ _ Ha) as Hh. destruct (Hok stream') as (Hcap & Hlen & Hheld).
  pose proof (Hok stream) as (Hcap0 & _ & _).
  assert (rn_held_new : held = bool_decide (is_Some (caps stream))).
  { rewrite Hh, <- Hcap0. by destruct (chan_of stream (lv_slots l)). }
  unfold in_service. cbn [lv_slots lv_running List.filter rn_stream]. fold (in_service stream' l).
  unfold acquire in Ha. destruct (chan_of stream (lv_slots l)) as [c|] eqn:Hc.
  - destruct (ch_len c <? ch_cap c) eqn:Hlt; [|done]. apply Nat.ltb_lt in Hlt. injection Ha as <- <-.
    destruct (decide (stream' = stream)) as [->|Hne].
    + rewrite chan_set_eq, Bool.eqb_reflx. cbn. split_and!.
      * by rewrite <- Hcap, Hc.
      * intros c' [= <-]. cbn. destruct (Hlen c Hc) as [Hl _]. unfold in_service in Hl. lia.
      * intros rn [->|Hin]%elem_of_cons Hs; [done|by apply Hheld].
    + rewrite chan_set_ne by done. assert (Bool.eqb stream stream' = false) as -> by (by destruct stream, stream').
      split_and!; [done|done|]. intros rn [->|Hin]%elem_of_cons Hs; [by cbn in Hs; subst|by apply Hheld].
  - injection Ha as <- <-. destruct (decide (stream' = stream)) as [->|Hne].
    + split_and!; [done|by rewrite Hc|]. intros rn [->|Hin]%elem_of_cons Hs; [done|by apply Hheld].
    + assert (Bool.eqb stream stream' = false) as -> by (by destruct stream, stream').
      split_and!; [done|done|]. intros rn [->|Hin]%elem_of_cons Hs; [by cbn in Hs; subst|by apply Hheld].
Qed.

(** The receive of a request that ends does not block. *)
Lemma release_ok caps l before rn after :
  slots_ok caps l → lv_running l = before ++ rn :: after →
  ∃ s, release (rn_stream rn) (rn_held rn) (lv_slots l) = Some s ∧
    ∀ timers maps, slots_ok caps (mkLive s (before ++ after) timers maps).
Proof.
  intros Hok Hr. destruct (Hok (rn_stream rn)) as (Hcap & Hlen & Hheld).
  assert (rn ∈ lv_running l) as Hin by (rewrite Hr; set_solver). specialize (Hheld rn Hin eq_refl) as Hh.
  assert (Hrest : ∀ stream rn', rn' ∈ before ++ after → rn_stream rn' = stream → rn_held rn' = bool_decide (is_Some (caps stream))).
  { intros stream rn' Hin' Hs. destruct (Hok stream) as (_ & _ & Hheld'). apply Hheld'; [|done]. rewrite Hr. set_solver. }
  assert (Hcount : ∀ stream, in_service stream l =
    (if Bool.eqb (rn_stream rn) stream then 1 else 0) + length (List.filter (λ rn, Bool.eqb (rn_stream rn) stream) (before ++ after))).
  { intros stream. unfold in_service. rewrite Hr. apply filter_middle. }
  unfold release. rewrite Hh. destruct (caps (rn_stream rn)) as [cap|] eqn:Hc.
  - rewrite bool_decide_eq_true_2 by (by eexists). cbn [negb].
    destruct (chan_of (rn_stream rn) (lv_slots l)) as [[cp len]|] eqn:Hch; [|done].
    destruct (Hlen _ eq_refl) as [Hl1 Hl2]. cbn in Hl1, Hl2. rewrite Hcount, Bool.eqb_reflx in Hl1. destruct len as [|n]; [lia|].
    eexists; split; [done|]. intros timers maps stream. destruct (decide (stream = rn_stream rn)) as [->|Hne].
    + cbn [lv_slots]. rewrite chan_set_eq. split_and!; [by rewrite Hc| |by apply Hrest].
      intros c [= <-]. cbn. unfold in_service. cbn. lia.
    + cbn [lv_slots]. rewrite chan_set_ne by done. destruct (Hok stream) as (Hcap' & Hlen' & _).
      split_and!; [done| |by apply Hrest]. intros c Hc'. destruct (Hlen' c Hc') as [-> ?]. split; [|done].
      rewrite Hcount. by destruct (rn_stream rn), stream.
  - rewrite bool_decide_eq_false_2 by (intros [? ?]; done). eexists; split; [done|]. intros timers maps stream. cbn [lv_slots].
    destruct (Hok stream) as (Hcap' & Hlen' & _). split_and!; [done| |by apply Hrest]. intros c Hc'.
    destruct (decide (stream = rn_stream rn)) as [->|Hne]; [by rewrite Hc' in Hcap|].
    destruct (Hlen' c Hc') as [-> ?]. split; [|done]. rewrite Hcount. by destruct (rn_stream rn), stream.
Qed.

Lemma slots_ok_same caps l l' :
  slots_ok caps l → lv_slots l' = lv_slots l →
  (∃ before rn after es, lv_running l = before ++ rn :: after ∧
     lv_running l' = before ++ mkRunning (rn_stream rn) (rn_held rn) es :: after) ∨ lv_running l' = lv_running l →
  slots_ok caps l'.
Proof.
  intros Hok Hs Hr stream. destruct (Hok stream) as (Hcap & Hlen & Hheld). rewrite Hs.
  assert (in_service stream l' = in_service stream l) as Hc.
  { unfold in_service. destruct Hr as [(before & rn & after & es & -> & ->)| ->]; [|done]. by rewrite !filter_middle. }
  rewrite Hc. split_and!; [done..|]. intros rn' Hin Hst. destruct Hr as [(before & rn & after & es & Hr & Hr')|Hr'].
  - rewrite Hr' in Hin. rewrite Hr in Hheld. apply elem_of_app in Hin as [Hin|[->|Hin]%elem_of_cons].
    + apply Hheld; set_solver.
    + apply (Hheld rn); [set_solver|done].
    + apply Hheld; set_solver.
  - rewrite Hr' in Hin. by apply Hheld.
Qed.

Lemma slots_ok_step b caps l l' : slots_ok caps l → live_step b l l' → slots_ok caps l'.
Proof.
  intros Hok Hstep. destruct Hstep as [r l s held Ha|r l|l before rn after e Hr|l e|l before rn after s Hr Hrel|l before e after Ht|l odb|l tag o|l tag o].
  - by apply acquire_ok.
  - done.
  - apply (slots_ok_same caps l); [done..|]. left. by exists before, rn, after, (e :: rn_deferred rn).
  - apply (slots_ok_same caps l); auto.
  - destruct (release_ok caps l before rn after Hok Hr) as (s' & Hs' & H). rewrite Hrel in Hs'. simplify_eq. apply H.
  - apply (slots_ok_same caps l); auto.
  - apply (slots_ok_same caps l); auto.
  - apply (slots_ok_same caps l); auto.
  - apply (slots_ok_same caps l); auto.
Qed.

Lemma slots_ok_reachable b c1 c2 l : live_reachable b c1 c2 l → slots_ok (limit c1 c2) l.
Proof.
  unfold live_reachable. revert l. apply rtc_ind_r; [apply slots_ok_start|].
  intros l l' _ Hstep Hl. by apply (slots_ok_step b _ l).
Qed.

(** Nothing but the lack of a slot turns a request away as too many. *)
Lemma served_not_overloaded env a r d :
  ar_slot a (takes_stream r) = true → (ServeHTTP env a r d).1 ≠ Overloaded.
Proof.
  unfold ServeHTTP. fold (takes_stream r). intros ->. cbn [negb]. repeat case_match; try done;
    unfold serve_hijack, handleHijack, serve_request; by repeat case_match.
Qed.

(** ** Theorems: the slots *)

(** C25: The semaphores bound the requests under way.  Whatever requests come and go,
    no more of a class are served at once than its limit allows; a request of a class
    finds a slot exactly when fewer are, however many of the other class there are; the
    one that is turned away is one that finds none; and no request that ends is kept
    waiting for its slot to be given back. *)
Theorem slots_bound_service env b c1 c2 l :
  live_reachable b c1 c2 l →
  (∀ stream n, limit c1 c2 stream = Some n → in_service stream l <= n) ∧
  (∀ stream, free_slot (lv_slots l) stream =
     match limit c1 c2 stream with None => true | Some n => (in_service stream l <? n)%nat end) ∧
  (∀ id auths pv r d, (ServeHTTP env (mkArrival (free_slot (lv_slots l)) id auths pv) r d).1 = Overloaded ↔
     limit c1 c2 (takes_stream r) = Some (in_service (takes_stream r) l)) ∧
  (∀ rn, rn ∈ lv_running l → is_Some (release (rn_stream rn) (rn_held rn) (lv_slots l))).
Proof.
  intros Hl%slots_ok_reachable.
  assert (Hb : ∀ stream n, limit c1 c2 stream = Some n → in_service stream l <= n).
  { intros stream n Hn. destruct (Hl stream) as (Hcap & Hlen & _). rewrite Hn in Hcap.
    destruct (chan_of stream (lv_slots l)) as [c|]; [|done]. injection Hcap as <-. destruct (Hlen c eq_refl) as [<- ?]. done. }
  assert (Hf : ∀ stream, free_slot (lv_slots l) stream =
     match limit c1 c2 stream with None => true | Some n => (in_service stream l <? n)%nat end).
  { intros stream. destruct (Hl stream) as (Hcap & Hlen & _). unfold free_slot, acquire. rewrite <- Hcap.
    destruct (chan_of stream (lv_slots l)) as [c|]; [|done]. cbn [fmap option_fmap option_map].
    destruct (Hlen c eq_refl) as [<- _]. by destruct (_ <? _). }
  split_and!; [done..| |].
  - intros id auths pv r d. pose proof (Hf (takes_stream r)) as Hfr.
    destruct (limit c1 c2 (takes_stream r)) as [n|] eqn:Hn; [destruct (in_service (takes_stream r) l <? n) eqn:Hlt|].
    + apply Nat.ltb_lt in Hlt. split; [|intros [= ->]; lia]. intros H. exfalso. revert H. by apply served_not_overloaded.
    + unfold ServeHTTP. cbn [ar_slot]. fold (takes_stream r). rewrite Hfr. apply Nat.ltb_ge in Hlt. split; [|done].
      intros _. f_equal. specialize (Hb _ _ Hn). lia.
    + split; [|done]. intros H. exfalso. revert H. by apply served_not_overloaded.
  - intros rn (before & after & Hr)%list_elem_of_split. destruct (release_ok _ _ _ _ _ Hl Hr) as (s & -> & _). by eexists.
Qed.

(** ** Lemmas: removals to come *)

(** The removals deferred by the requests under way and those the timers will make. *)
Definition dues (l : Live) : list Entry := mjoin (rn_deferred <$> lv_running l) ++ lv_timers l.

Lemma dues_middle before rn after : mjoin (rn_deferred <$> before ++ rn :: after) ≡ₚ rn_deferred rn ++ mjoin (rn_deferred <$> before ++ after).
Proof. rewrite !fmap_app, fmap_cons, !join_app. cbn. by rewrite !(assoc_L app), (comm app (mjoin _) (rn_deferred rn)). Qed.

(** How a step without BuildKit changes the entries and the removals to come. *)
Inductive due_change : list Entry * EventState → list Entry * EventState → Prop :=
| DueSame D D' st st' : D' ≡ₚ D → (∀ s, on_shelf s st' = on_shelf s st) → due_change (D, st) (D', st')
| DueStore D D' e st : D' ≡ₚ e :: D → due_change (D, st) (D', store e st)
| DueEnd D D' ds rest st :
    D ≡ₚ ds ++ rest → D' ≡ₚ timers_of ds ++ rest → (∀ d, d ∈ ds → deferred_shelf (en_shelf d) = true) →
    due_change (D, st) (D', end_entries ds st)
| DueFire D D' e st : D ≡ₚ e :: D' → due_change (D, st) (D', discard e st).

Definition deferred_ok (l : Live) : Prop :=
  ∀ rn e, rn ∈ lv_running l → e ∈ rn_deferred rn → deferred_shelf (en_shelf e) = true.

Lemma deferred_ok_step b l l' : deferred_ok l → live_step b l l' → deferred_ok l'.
Proof.
  intros Hok Hstep. destruct Hstep as [r l s held Ha|r l|l before rn after e Hr|l e|l before rn after s Hr Hrel|l before e after Ht|l odb|l tag o|l tag o];
    try (done || exact Hok).
  - intros rn e [->|H]%elem_of_cons; [by intros ?%elem_of_nil|by apply Hok].
  - intros rn' e' Hin. unfold deferred_ok in Hok. rewrite Hr in Hok. cbn [lv_running] in Hin.
    apply elem_of_app in Hin as [Hin|[->|Hin]%elem_of_cons]; [apply Hok; set_solver| |apply Hok; set_solver].
    cbn. intros [->|He]%elem_of_cons; [done|]. apply (Hok rn); [set_solver|done].
  - intros rn' e' Hin. apply Hok. rewrite Hr. cbn [lv_running] in Hin. set_solver.
Qed.

Lemma deferred_ok_reachable b c1 c2 l : live_reachable b c1 c2 l → deferred_ok l.
Proof.
  unfold live_reachable. revert l. apply rtc_ind_r; [by intros ? ? ?%elem_of_nil|].
  intros l l' _ Hstep Hl. by apply (deferred_ok_step b l).
Qed.

Lemma live_step_dues l l' : deferred_ok l → live_step false l l' → due_change (dues l, lv_maps l) (dues l', lv_maps l').
Proof.
  intros Hok Hstep. destruct Hstep as [r l s held Ha|r l|l before rn after e Hr|l e|l before rn after s Hr Hrel|l before e after Ht|l odb|l tag o|l tag o];
    unfold dues; cbn [lv_running lv_timers lv_maps]; try done.
  - by apply DueSame.
  - by apply DueSame.
  - apply DueStore. rewrite Hr, !dues_middle. done.
  - apply DueStore. by rewrite Permutation_middle.
  - apply (DueEnd _ _ _ (mjoin (rn_deferred <$> before ++ after) ++ lv_timers l)).
    + by rewrite Hr, dues_middle, (assoc_L app).
    + rewrite !(assoc_L app). by rewrite (comm app (timers_of _) (mjoin _)).
    + intros d. apply Hok. rewrite Hr. set_solver.
  - apply DueFire. rewrite Ht. by rewrite <- !Permutation_middle.
  - apply DueSame; [done|]. intros s. apply on_shelf_with_db.
Qed.

(** *** No entry without a removal *)

Lemma due_change_covered D st D' st' :
  due_change (D, st) (D', st') → (∀ e, present e st → e ∈ D) → ∀ e, present e st' → e ∈ D'.
Proof.
  intros H Hcov e He. inversion H as [D1 D2 st1 st2 HD Hs|D1 D2 e' st1 HD|D1 D2 ds rest st1 HD HD' _|D1 D2 e' st1 HD]; subst.
  - rewrite HD. apply Hcov. unfold present in *. by rewrite <- Hs.
  - rewrite HD. apply present_store in He as [->|He]; [by left|right; by apply Hcov].
  - rewrite HD'. apply elem_of_app. apply present_end_entries in He as [He|[Hni He]]; [by left|right].
    specialize (Hcov e He). rewrite HD in Hcov. by apply elem_of_app in Hcov as [?|?].
  - apply present_discard in He as [Hne He]. specialize (Hcov e He). rewrite HD in Hcov.
    apply elem_of_cons in Hcov as [?|?]; done.
Qed.

Lemma present_none e : ¬ present e no_entries.
Proof. unfold present. destruct e as [[] k o]; cbn; by rewrite lookup_empty. Qed.

Lemma covered_reachable c1 c2 l e : live_reachable false c1 c2 l → present e (lv_maps l) → e ∈ dues l.
Proof.
  intros Hl. revert e. pose proof (deferred_ok_reachable false c1 c2) as Hdef. unfold live_reachable in *. revert l Hl.
  apply (rtc_ind_r (λ l, ∀ e, present e (lv_maps l) → e ∈ dues l)).
  - intros e He. by apply present_none in He.
  - intros l l' Hl Hstep IH. apply (due_change_covered (dues l) (lv_maps l)); [|done]. apply live_step_dues; [by apply Hdef|done].
Qed.

(** *** An entry alone under its key *)

Definition same_place (e e' : Entry) : Prop := en_shelf e' = en_shelf e ∧ en_key e' = en_key e.
#[global] Instance same_place_dec e e' : Decision (same_place e e').
Proof. unfold same_place. apply _. Defined.
Definition claims (e : Entry) (D : list Entry) : list Entry := base.filter (same_place e) D.

#[global] Instance claims_proper e : Proper ((≡ₚ) ==> (≡ₚ)) (claims e).
Proof. unfold claims. solve_proper. Qed.

Lemma claims_length_proper e D D' : D ≡ₚ D' → length (claims e D) = length (claims e D').
Proof. by intros ->. Qed.
Lemma claims_app e D D' : claims e (D ++ D') = claims e D ++ claims e D'.
Proof. apply filter_app. Qed.
Lemma claims_nil e D : length (claims e D) = 0 → ∀ d, d ∈ D → ¬ same_place e d.
Proof.
  intros H%nil_length_inv d Hd Hs. assert (d ∈ claims e D) as Hin by (by apply list_elem_of_filter). rewrite H in Hin. by apply elem_of_nil in Hin.
Qed.
Lemma claims_cons_other e d D : length (claims e (d :: D)) = length (claims e D) → ¬ same_place e d.
Proof. unfold claims. intros H Hs. rewrite filter_cons_True in H by done. cbn in H. lia. Qed.

Lemma end_entries_keep e ds st :
  present e st → (∀ d, d ∈ ds → ¬ same_place e d) → (∀ d, d ∈ timers_of ds → ¬ same_place e d) → present e (end_entries ds st).
Proof.
  unfold end_entries. revert st. induction ds as [|d ds IH]; intros st He Hd Ht; cbn [foldl]; [done|].
  assert (d ≠ e) as Hne by (intros ->; apply (Hd e); [by left|done]).
  apply IH; [|intros d' ?; apply Hd; by right|].
  - unfold end_entry. case_decide as Hs; [|by apply discard_keeps]. apply discard_keeps; [|done]. apply store_keeps; [done|].
    intros H1 H2. exfalso. apply (Ht (completed d)); [|done]. apply elem_of_timers_of. exists d. split; [by left|done].
  - intros d' (x & Hx & Hpx & ->)%elem_of_timers_of. apply Ht, elem_of_timers_of. exists x. split; [by right|done].
Qed.

Lemma due_change_sole D st D' st' e :
  due_change (D, st) (D', st') → present e st → e ∈ D → length (claims e D) = 1 → length (claims e D') = 1 → e ∈ D' → present e st'.
Proof.
  intros H He Hin H1 H2 Hin'. inversion H as [D1 D2 st1 st2 HD Hs|D1 D2 e' st1 HD|D1 D2 ds rest st1 HD HD' Hds|D1 D2 e' st1 HD]; subst.
  - unfold present in *. by rewrite Hs.
  - apply store_keeps; [done|]. intros Hsh Hk. exfalso. rewrite (claims_length_proper _ _ _ HD) in H2.
    by apply (claims_cons_other e e' D); [lia|].
  - rewrite (claims_length_proper _ _ _ HD), claims_app, length_app in H1.
    rewrite (claims_length_proper _ _ _ HD'), claims_app, length_app in H2.
    destruct (decide (e ∈ ds)) as [Heds|Heds].
    + exfalso. assert (length (claims e ds) ≠ 0) as Hn by (intros H0; by apply (claims_nil e ds H0 e)).
      assert (length (claims e rest) = 0) as Hr by lia. rewrite HD' in Hin'. apply elem_of_app in Hin' as [Ht|Ht]; [|by apply (claims_nil e rest Hr e)].
      apply elem_of_timers_of in Ht as (d & _ & _ & Ed). specialize (Hds e Heds). by rewrite Ed in Hds.
    + rewrite HD in Hin. apply elem_of_app in Hin as [?|Hin]; [done|].
      assert (length (claims e rest) ≠ 0) as Hn by (intros H0; by apply (claims_nil e rest H0 e)).
      apply end_entries_keep; [done|apply claims_nil; lia|apply claims_nil; lia].
  - apply discard_keeps; [done|]. intros ->. rewrite (claims_length_proper _ _ _ HD) in H1. by apply (claims_cons_other e e D'); [lia|].
Qed.

(** ** Theorems: the entries *)

(** A step from a state to one in which [e] is the only removal to come under its key. *)
Definition sole (e : Entry) (l : Live) : Prop := e ∈ dues l ∧ length (claims e (dues l)) = 1.
Definition sole_step (e : Entry) (l l' : Live) : Prop := live_step false l l' ∧ sole e l'.

(** The window of a build holds whatever else goes on.  While the removal of the
    entry a request has stored for a tag is the only one to come under that tag, no
    interleaving of the steps of other requests, of timers and of changes to the
    database takes it away: an image event under the tag is shown to the builder, and
    to nobody else. *)
Theorem build_window_holds c1 c2 l l' id ev uid sudoCtx :
  let tag := map_get (ev_Attributes ev) "name" in
  let e := mkEntry PendingBuild tag (owner_info id) in
  live_reachable false c1 c2 l → present e (lv_maps l) → sole e l → rtc (sole_step e) l l' →
  ev_Type ev = "image" → tag ≠ "" → HasPrefix tag sha256_prefix = false →
  eventBelongsToUser (lv_maps l') (Some ev) uid sudoCtx =
    bool_decide (uid = RealUID id) && negb (hidden sudoCtx (if IsSudoCommand id then 1 else 0)).
Proof.
  intros tag e Hl He Hsole Hrtc Ht Hne Hsha. assert (present e (lv_maps l')) as Hp.
  { pose proof (deferred_ok_reachable _ _ _ _ Hl) as Hok. clear Hl.
    induction Hrtc as [l|l l1 l2 [Hstep Hs1] _ IH]; [done|]. apply IH; [|done|by apply (deferred_ok_step false l)].
    destruct Hsole as [Hin H1], Hs1 as [Hin' H2].
    apply (due_change_sole (dues l) (lv_maps l) (dues l1)); [by apply live_step_dues|done..]. }
  rewrite (tag_entry_decides _ _ (owner_info id)) by (try done; by left). apply owner_verdict.
Qed.

Lemma drain_running b caps l :
  slots_ok caps l → ∃ l', rtc (live_step b) l l' ∧ lv_running l' = [] ∧ slots_ok caps l'.
Proof.
  remember (length (lv_running l)) as n eqn:Hn. revert l Hn. induction n as [|n IH]; intros l Hn Hok.
  - exists l. split_and!; [done|by apply nil_length_inv|done].
  - destruct (lv_running l) as [|rn rest] eqn:Hr; [done|]. destruct (release_ok caps l [] rn rest Hok Hr) as (s & Hs & Hok').
    assert (live_step b l (mkLive s rest (timers_of (rn_deferred rn) ++ lv_timers l) (end_entries (rn_deferred rn) (lv_maps l)))) as Hstep
      by (by apply (Ends b l [] rn rest s)).
    destruct (IH (mkLive s rest (timers_of (rn_deferred rn) ++ lv_timers l) (end_entries (rn_deferred rn) (lv_maps l)))) as (l' & H' & ? & ?).
    + cbn in *. lia.
    + apply Hok'.
    + exists l'. split_and!; [by eapply rtc_l|done..].
Qed.

Lemma drain_timers b l : ∃ l', rtc (live_step b) l l' ∧ lv_running l' = lv_running l ∧ lv_timers l' = [] ∧ lv_slots l' = lv_slots l.
Proof.
  remember (lv_timers l) as ts eqn:Ht. revert l Ht. induction ts as [|e ts IH]; intros l Ht; [by exists l|].
  destruct (IH (mkLive (lv_slots l) (lv_running l) ts (discard e (lv_maps l))) eq_refl) as (l' & H & ? & ? & ?).
  exists l'. split_and!; [|done..]. eapply rtc_l; [|done]. by apply (Fires b l [] e ts).
Qed.

(** C26: The server comes to rest, and nothing is left of what it served.  From whatever
    state, the requests under way can end and the timers fire; and when none are left,
    every slot is free and, if no connection of BuildKit was served, every map of the
    event filter empty. *)
Theorem server_comes_to_rest b c1 c2 l :
  live_reachable b c1 c2 l →
  (∃ l', rtc (live_step b) l l' ∧ lv_running l' = [] ∧ lv_timers l' = []) ∧
  (lv_running l = [] → lv_timers l = [] →
   (∀ stream c, chan_of stream (lv_slots l) = Some c → ch_len c = 0) ∧
   (b = false → ∀ s, on_shelf s (lv_maps l) = ∅)).
Proof.
  intros Hl. pose proof (slots_ok_reachable _ _ _ _ Hl) as Hok. split.
  - destruct (drain_running b _ l Hok) as (l1 & H1 & Hr & _). destruct (drain_timers b l1) as (l2 & H2 & Hr2 & Ht & _).
    exists l2. split_and!; [by etrans|by rewrite Hr2|done].
  - intros Hr Ht. split.
    + intros stream c Hc. destruct (Hok stream) as (_ & Hlen & _). destruct (Hlen c Hc) as [-> _]. unfold in_service. by rewrite Hr.
    + intros -> s. apply map_empty. intros k. destruct (on_shelf s (lv_maps l) !! k) as [o|] eqn:Hk; [|done].
      pose proof (covered_reachable c1 c2 l (mkEntry s k o) Hl Hk) as Hd. unfold dues in Hd. rewrite Hr, Ht in Hd. by apply elem_of_nil in Hd.
Qed.

(** Of two builds of one tag by one user the first to end takes the cover of the
    second.  The entries are equal, so [CompareAndDelete] removes the one that stands
    for both: once the timer of the first has fired, the second is under way with
    its removal still to come and no entry, and events of the tag are decided without
    one. *)
Theorem same_user_builds_share_entry tag o :
  let e := mkEntry PendingBuild tag o in
  ∃ l, live_reachable false 0 0 l ∧ (∃ rn, rn ∈ lv_running l ∧ e ∈ rn_deferred rn) ∧
    ∀ s, on_shelf s (lv_maps l) = ∅.
Proof.
  intros e. set (req := plain_request "POST" "/build" "" EmptyBody).
  assert (takes_stream req = false) as Hs by done.
  set (idle := mkRunning false false []). set (building := mkRunning false false [e]). set (sl := mkSlots None None).
  set (m1 := store e no_entries). set (m2 := store e m1). set (m3 := end_entries [e] m2). set (m4 := discard (completed e) m3).
  exists (mkLive sl [building] [] m4). split_and!.
  - unfold live_reachable. change (start_live 0 0) with (mkLive sl [] [] no_entries).
    eapply rtc_l; [by apply (Arrives false req _ sl false)|]. rewrite Hs. cbn [lv_slots lv_running lv_timers lv_maps]. fold idle.
    eapply rtc_l; [by apply (Opens false _ [] idle [] e)|]. cbn [app rn_stream rn_held rn_deferred idle lv_slots lv_running lv_timers lv_maps]. fold building m1.
    eapply rtc_l; [by apply (Arrives false req _ sl false)|]. rewrite Hs. cbn [lv_slots lv_running lv_timers lv_maps]. fold idle.
    eapply rtc_l; [by apply (Opens false _ [] idle [building] e)|]. cbn [app rn_stream rn_held rn_deferred idle lv_slots lv_running lv_timers lv_maps]. fold building m2.
    eapply rtc_l; [by apply (Ends false _ [] building [building] sl)|]. cbn [app rn_deferred building lv_slots lv_running lv_timers lv_maps]. fold m3.
    eapply rtc_l; [by apply (Fires false _ [] (completed e) [])|]. done.
  - exists building. split; by left.
  - intros s. apply map_empty. intros k. unfold m4, m3, m2, m1.
    destruct (on_shelf s _ !! k) as [x|] eqn:Hx; [|done]. exfalso.
    assert (present (mkEntry s k x) (discard (completed e) (end_entries [e] (store e (store e no_entries))))) as Hp by done.
    apply present_discard in Hp as [Hc Hp]. cbn [end_entries foldl] in Hp. apply present_end_entry in Hp as [Hne [Hp|[_ Hp]]]; [|done].
    apply present_store in Hp as [?|Hp]; [done|]. apply present_store in Hp as [?|Hp]; [done|]. by apply present_none in Hp.
Qed.

(** The functions that open and close the entries of a request are these steps. *)
Definition window_entry (o : pruneOwnerInfo) (w : Window) : Entry :=
  match w with
  | PullWindow k => mkEntry PendingPull k o | TagWindow k => mkEntry PendingBuild k o | PruneWindow k => mkEntry CompletedPrune k o
  end.

Lemma windows_are_steps o w tags st :
  open_window o w st = store (window_entry o w) st ∧
  close_window o w st = end_entry (window_entry o w) st ∧
  open_build o tags st = foldl (λ st tag, store (mkEntry PendingBuild tag o) st) st tags ∧
  close_build o tags st = end_entries (reverse ((λ tag, mkEntry PendingBuild tag o) <$> tags)) st.
Proof.
  split_and!; [by destruct w|by destruct w|done|]. unfold end_entries.
  unfold close_build. induction tags as [|tag tags IH]; [done|]. rewrite fmap_cons, reverse_cons, foldl_app. cbn [foldr foldl]. by rewrite <- IH.
Qed.

(** ** Examples *)

Module LiveDemo.
Definition bob : CallerIdentity := tcp_identity "bob" 1002 1002 AuthSourceOS.
Definition tag : string := "app:1".
Definition entry : Entry := mkEntry PendingBuild tag (owner_info bob).
Definition build : Request := plain_request "POST" "/build" "" EmptyBody.
Definition events : Request := plain_request "GET" "/events" "" EmptyBody.
Definition pushed : Event := mkEvent "image" "tag" "sha256:00" {[ "name" := tag ]}.

(** Two slots for short requests, one of which a build has; one for streams, taken. *)
Definition l0 : Live := start_live 2 1.
Definition l1 : Live := mkLive (mkSlots (Some (mkChan 2 1)) (Some (mkChan 1 0))) [mkRunning false true []] [] no_entries.
Definition l2 : Live :=
  mkLive (mkSlots (Some (mkChan 2 1)) (Some (mkChan 1 0))) [mkRunning false true [entry]] [] (store entry no_entries).
Definition l3 : Live :=
  mkLive (mkSlots (Some (mkChan 2 1)) (Some (mkChan 1 1))) [mkRunning true true []; mkRunning false true [entry]] [] (store entry no_entries).
End LiveDemo.

Lemma live_demo_reachable : live_reachable false 2 1 LiveDemo.l2.
Proof.
  unfold live_reachable. apply rtc_l with LiveDemo.l1; [by apply (Arrives false LiveDemo.build LiveDemo.l0)|].
  apply rtc_once. by apply (Opens false LiveDemo.l1 [] (mkRunning false true []) [] LiveDemo.entry).
Qed.
Lemma live_demo_step : live_step false LiveDemo.l2 LiveDemo.l3.
Proof. by apply (Arrives false LiveDemo.events LiveDemo.l2). Qed.

Lemma slots_bound_service_witness :
  live_reachable false 2 1 LiveDemo.l3 ∧ free_slot (lv_slots LiveDemo.l3) true = false ∧ free_slot (lv_slots LiveDemo.l3) false = true.
Proof.
  assert (live_reachable false 2 1 LiveDemo.l3) as H by (eapply rtc_r; [apply live_demo_reachable|apply live_demo_step]).
  pose proof (proj1 (proj2 (slots_bound_service PreRequestDemo.env false 2 1 LiveDemo.l3 H))) as Hf.
  split; [done|]. by rewrite !Hf.
Defined.

Lemma build_window_holds_witness :
  eventBelongsToUser (lv_maps LiveDemo.l3) (Some LiveDemo.pushed) 1002 false = true ∧
  eventBelongsToUser (lv_maps LiveDemo.l3) (Some LiveDemo.pushed) 1001 false = false.
Proof.
  assert (rtc (sole_step LiveDemo.entry) LiveDemo.l2 LiveDemo.l3) as H.
  { apply rtc_once. split; [apply live_demo_step|]. split; [by left|done]. }
  pose proof (λ uid, build_window_holds 2 1 LiveDemo.l2 LiveDemo.l3 LiveDemo.bob LiveDemo.pushed uid false live_demo_reachable
    eq_refl (conj (list_elem_of_here _ _) eq_refl) H eq_refl ltac:(done) eq_refl) as E.
  split; [by rewrite (E 1002%Z)|by rewrite (E 1001%Z)].
Defined.

Lemma server_comes_to_rest_witness : ∃ l', rtc (live_step false) LiveDemo.l2 l' ∧ lv_running l' = [] ∧ lv_timers l' = [].
Proof. apply (server_comes_to_rest false 2 1 LiveDemo.l2), live_demo_reachable. Defined.
