(* ===== verification/Listeners.v ===== *)
(** * Listeners: the sockets of the users and what is set up for them

    [Start], [watchNewUsers], [startUserListener] and [Stop] of
    [internal/forward/proxy.go] (216-456), the users they go over
    ([listSystemUsers], 4898-4931), the lines written to the users' shell profiles
    ([setUserDockerHost], 4936-5003), the rule for sudo ([ensureSudoersEnvKeepInDir],
    5022-5075), and the directory of the user's storage ([EnsureUserStorageDir] of
    [internal/isolation/storage.go]).  All run as root.

    The file system maps paths to nodes; a path whose last element is a symbolic link
    leads on, links among the directories above it are not represented.  A system call
    can fail at any moment ([m_faults]; a write may fail in the middle), and the file
    systems between the calls are kept ([m_trace]): what others can do at those moments
    is part of the properties. *)

From S2P Require Import Prelude GoStrings GoJson Docker OsLookup Database ImageDB ResourceDB Names Events ImagePerm Quota GoPath Storage.
From S2P Require Import Streams Bridge.

(** ** The file system *)

Inductive NodeKind :=
| Dir
| File (content : string)
| Link (target : string)
(** a socket: somebody listens on it, or no longer *)
| Sock (live : bool).
Record Node := mkNode { n_kind : NodeKind; n_mode : Z; n_uid : Z; n_gid : Z }.
Notation FS := (gmap string Node).

Inductive Errno := ENOENT | EEXIST | ENOTDIR | EISDIR | ELOOP | EIO.

(** Where a path leads: at most 40 links are followed. *)
Fixpoint follow_links (fuel : nat) (fs : FS) (path : string) : string + Errno :=
  match fs !! path with
  | Some (mkNode (Link target) _ _ _) =>
    match fuel with S n => follow_links n fs target | 0 => inr ELOOP end
  | _ => inl path
  end.
Definition follow (fs : FS) (path : string) : string + Errno := follow_links 40 fs path.

(** A failing call; of a write, the bytes written before it fails. *)
Record Machine := mkMachine { m_fs : FS; m_faults : list (option nat); m_trace : list FS }.
Definition IO (A : Type) : Type := Machine → (A + Errno) * Machine.
#[global] Instance io_ret : MRet IO := λ A x m, (inl x, m).
#[global] Instance io_bind : MBind IO := λ A B k io m,
  match io m with (inl x, m) => k x m | (inr e, m) => (inr e, m) end.
(** [_ = f()]: the error is not looked at. *)
Definition ignore {A} (io : IO A) : IO unit := λ m, (inl tt, (io m).2).
(** [if err := f(); err != nil { g() }]. *)
Definition on_error {A} (io : IO A) (g : IO unit) : IO A := λ m,
  match io m with (inl x, m) => (inl x, m) | (inr e, m) => (inr e, (g m).2) end.

Definition moved (fs : FS) (m : Machine) : Machine := mkMachine fs (tail (m_faults m)) (m_trace m ++ [fs]).
(** One system call: it has an effect when there is no fault and it is possible. *)
Definition syscall {A} (f : FS → (A * FS) + Errno) : IO A := λ m,
  match m_faults m with
  | Some _ :: _ => (inr EIO, moved (m_fs m) m)
  | _ => match f (m_fs m) with inl (x, fs) => (inl x, moved fs m) | inr e => (inr e, moved (m_fs m) m) end
  end.

Section calls.
(** The process's umask. *)
Context (umask : Z).
Definition masked (perm : Z) : Z := Z.ldiff perm umask.

(** [os.MkdirAll], the directories above the last one not represented. *)
Definition MkdirAll (path : string) (perm : Z) : IO unit := syscall (λ fs,
  match follow fs path with
  | inr e => inr e
  | inl p =>
    match fs !! p with
    | Some (mkNode Dir _ _ _) => inl (tt, fs)
    | Some _ => inr ENOTDIR
    | None => if p ==s path then inl (tt, <[path := mkNode Dir (masked perm) 0 0]> fs) else inr EEXIST
    end
  end).

(** Calls on the node a path leads to. *)
Definition on_node (path : string) (f : Node → Node) : IO unit := syscall (λ fs,
  match follow fs path with
  | inr e => inr e
  | inl p => match fs !! p with Some n => inl (tt, <[p := f n]> fs) | None => inr ENOENT end
  end).
Definition Chown (path : string) (uid gid : Z) : IO unit := on_node path (λ n, mkNode (n_kind n) (n_mode n) uid gid).
Definition Chmod (path : string) (mode : Z) : IO unit := on_node path (λ n, mkNode (n_kind n) mode (n_uid n) (n_gid n)).

Definition below (dir path : string) : bool := HasPrefix path (dir +:+ "/").
Definition empty_dir (dir : string) (fs : FS) : bool := bool_decide (map_Forall (λ path _, below dir path = false) fs).
(** [os.Remove]: not of what a link leads to, and of an empty directory only. *)
Definition Remove (path : string) : IO unit := syscall (λ fs,
  match fs !! path with
  | None => inr ENOENT
  | Some (mkNode Dir _ _ _) => if empty_dir path fs then inl (tt, delete path fs) else inr EEXIST
  | Some _ => inl (tt, delete path fs)
  end).

(** [net.Listen("unix", path)]: the path must not exist, not even as a link. *)
Definition Listen (path : string) : IO unit := syscall (λ fs,
  match fs !! path with
  | Some _ => inr EEXIST
  | None => inl (tt, <[path := mkNode (Sock true) (masked 511) 0 0]> fs)
  end).
(** [ln.Close]: nobody listens any longer, and the path is unlinked. *)
Definition Close (path : string) : IO unit := λ m,
  let fs := match m_fs m !! path with Some (mkNode Dir _ _ _) => m_fs m | _ => delete path (m_fs m) end in
  (inl tt, mkMachine fs (m_faults m) (m_trace m ++ [fs])).

Definition ReadFile (path : string) : IO string := syscall (λ fs,
  match follow fs path with
  | inr e => inr e
  | inl p =>
    match fs !! p with
    | Some (mkNode (File s) _ _ _) => inl (s, fs)
    | Some _ => inr EISDIR
    | None => inr ENOENT
    end
  end).

(** A write to an open file: of a failing one only a beginning arrives. *)
Definition write_open (p : string) (f : string → string → string) (text : string) : IO unit := λ m,
  let put s := match m_fs m !! p with
               | Some (mkNode (File old) mo u g) => <[p := mkNode (File (f old s)) mo u g]> (m_fs m)
               | _ => m_fs m
               end in
  match m_faults m with
  | Some n :: _ => (inr EIO, moved (put (str_take n text)) m)
  | _ => (inl tt, moved (put text) m)
  end.
(** [os.OpenFile] for writing, with [O_CREATE]: where the path leads. *)
Definition open_create (path : string) (perm : Z) (truncate : bool) : IO string := syscall (λ fs,
  match follow fs path with
  | inr e => inr e
  | inl p =>
    match fs !! p with
    | Some (mkNode (File s) mo u g) => inl (p, if truncate then <[p := mkNode (File "") mo u g]> fs else fs)
    | Some _ => inr EISDIR
    | None => inl (p, <[p := mkNode (File "") (masked perm) 0 0]> fs)
    end
  end).
Definition WriteFile (path text : string) (perm : Z) : IO unit :=
  p ← open_create path perm true; write_open p (λ _ s, s) text.
Definition AppendFile (path text : string) (perm : Z) : IO unit :=
  p ← open_create path perm false; write_open p (λ old s, old +:+ s) text.

(** [os.Rename] of a file; what is at the new path is replaced, a link too. *)
Definition Rename (old new : string) : IO unit := syscall (λ fs,
  match fs !! old, fs !! new with
  | None, _ => inr ENOENT
  | Some _, Some (mkNode Dir _ _ _) => inr EISDIR
  | Some n, _ => inl (tt, <[new := n]> (delete old fs))
  end).

(** ** The users *)

Record systemUser := mkSystemUser { Username : string; UID : Z; GID : Z; HomeDir : string }.

Definition field (fields : list string) (i : nat) : string := default "" (fields !! i).
Definition system_user (line : string) : option systemUser :=
  let fields := Split1 ":" line in
  if (length fields <? 4)%nat then None else
  let uid := scan_int (field fields 2) in
  let gid := scan_int (field fields 3) in
  let shell := if (7 <=? length fields)%nat then TrimSpace (field fields 6) else "" in
  if (shell ==s "") || HasSuffix shell "nologin" || HasSuffix shell "false" then None else
  if (uid !=z 0) && (uid <? 1000)%Z then None else
  let homeDir := if (6 <=? length fields)%nat then TrimSpace (field fields 5) else "" in
  Some (mkSystemUser (field fields 0) uid gid homeDir).
Definition listSystemUsers (os : OsFiles) : list systemUser :=
  match etc_passwd os with None => [] | Some data => omap system_user (Split1 NL data) end.

(** ** Sockets *)

(** [filepath.Join] of three elements; cleaning twice is cleaning once. *)
Definition userDir (socketDir : string) (u : systemUser) : string := PathJoin socketDir (Username u).
Definition userSockPath (socketDir : string) (u : systemUser) : string := PathJoin (userDir socketDir u) "docker.sock".

(** [startUserListener] up to the serving of connections. *)
Definition startUserListener (socketDir : string) (u : systemUser) : IO unit :=
  let dir := userDir socketDir u in
  let sockPath := userSockPath socketDir u in
  _ ← MkdirAll dir 448;
  _ ← Chown dir (UID u) (GID u);
  _ ← Chmod dir 448;
  _ ← ignore (Remove sockPath);
  _ ← Listen sockPath;
  _ ← on_error (Chown sockPath (UID u) (GID u)) (Close sockPath);
  on_error (Chmod sockPath 384) (Close sockPath).

(** ** Shell profiles *)

Definition marker : string := "# docker-authz-proxy: DOCKER_HOST".
Definition exportLine (socketDir : string) (u : systemUser) : string :=
  "export DOCKER_HOST=unix://" +:+ userSockPath socketDir u.
Definition oldPattern (u : systemUser) : string :=
  marker +:+ String NL ("export DOCKER_HOST=unix:///run/docker-authz/" +:+ Username u +:+ ".sock").
Definition block (export : string) : string := String NL (marker +:+ String NL (export +:+ String NL "")).

(** The errors are logged; the result says whether the end was reached. *)
Definition writeDockerHostToFile (cfgFile : string) (u : systemUser) (export : string) : IO unit := λ m,
  match ReadFile cfgFile m with
  | (inl content, m) =>
    if Contains content export then (inl tt, m) else
    if Contains content marker then
      WriteFile cfgFile (ReplaceAll content (oldPattern u) (marker +:+ String NL export)) 420 m
    else (_ ← AppendFile cfgFile (block export) 420; ignore (Chown cfgFile (UID u) (GID u))) m
  | (inr ENOENT, m) => (_ ← AppendFile cfgFile (block export) 420; ignore (Chown cfgFile (UID u) (GID u))) m
  | (inr e, m) => (inr e, m)
  end.

Definition profiles (u : systemUser) : list string := PathJoin (HomeDir u) <$> [".bashrc"; ".bash_profile"; ".profile"].
Definition setUserDockerHost (socketDir : string) (u : systemUser) : IO unit := λ m,
  if HomeDir u ==s "" then (inl tt, m) else
  (inl tt, foldl (λ m cfgFile, (writeDockerHostToFile cfgFile u (exportLine socketDir u) m).2) m (profiles u)).

(** ** The rule for sudo *)

Definition sudoersProxyEnvKeepFile : string := "docker-authz-proxy-env".
Definition sudoersProxyEnvKeepContent : string :=
  "# docker-authz-proxy managed -- do not edit manually" +:+ String NL
  ("Defaults:%sudo env_keep += " +:+ String "034" ("DOCKER_HOST" +:+ String "034" (String NL ""))).

(** [os.CreateTemp]: a name no file has, made of the pattern and [random]. *)
Definition CreateTemp (random : FS → string) (dir : string) : IO string := syscall (λ fs,
  let p := dir +:+ "/.docker-authz-tmp-" +:+ random fs in
  match fs !! p with Some _ => inr EEXIST | None => inl (p, <[p := mkNode (File "") 384 0 0]> fs) end).

Definition ensureSudoersEnvKeepInDir (random : FS → string) (dir : string) : IO unit := λ m,
  let targetPath := PathJoin dir sudoersProxyEnvKeepFile in
  let install : IO unit :=
    tmpPath ← CreateTemp random dir;
    on_error
      (_ ← write_open tmpPath (λ old s, old +:+ s) sudoersProxyEnvKeepContent;
       _ ← syscall (λ fs, inl (tt, fs));
       _ ← Chmod tmpPath 288;
       Rename tmpPath targetPath)
      (ignore (Remove tmpPath)) in
  match ReadFile targetPath m with
  | (inl existing, m) => if existing ==s sudoersProxyEnvKeepContent then (inl tt, m) else install m
  | (inr ENOENT, m) => install m
  | (inr e, m) => (inr e, m)
  end.

(** ** Storage *)

Definition EnsureUserStorageDir (base : string) (uid gid : Z) : IO unit :=
  let dir := UserStorageRoot base uid in
  _ ← MkdirAll dir 488;
  Chown dir uid gid.
End calls.

(** ** The server's life *)

Section life.
Context {FW : Type} `{!Iptables FW}.
Context (umask : Z) (random : FS → string) (docker : Docker) (now : Z) (socketDir storageBase : string).

Record System := mkSystem {
  sy_machine : Machine;
  sy_listeners : gmap string systemUser;
  sy_host : Host FW;
  sy_db : OwnershipDB;
}.
Definition machine_after (io : IO unit) (s : System) : System :=
  mkSystem (io (sy_machine s)).2 (sy_listeners s) (sy_host s) (sy_db s).

Definition ensureUserBridge (u : systemUser) (s : System) : System :=
  match EnsureUserBridge docker (UID u) (Username u) (sy_host s) with
  | (None, h) => mkSystem (sy_machine s) (sy_listeners s) h (sy_db s)
  | (Some networkID, h) =>
    mkSystem (sy_machine s) (sy_listeners s) h
      (SetManagedNetworkOwner now networkID (UserBridgeName (UID u)) (UID u) (Username u) (sy_db s)).2
  end.

(** A listener for a user and, if it could be made, all that goes with it. *)
Definition set_up (u : systemUser) (s : System) : System :=
  match startUserListener umask socketDir u (sy_machine s) with
  | (inr _, m) => mkSystem m (sy_listeners s) (sy_host s) (sy_db s)
  | (inl _, m) =>
    let s := mkSystem m (<[Username u := u]> (sy_listeners s)) (sy_host s) (sy_db s) in
    let s := machine_after (setUserDockerHost umask socketDir u) s in
    let s := ensureUserBridge u s in
    machine_after (EnsureUserStorageDir umask storageBase (UID u) (GID u)) s
  end.

(** [Start]; [false] is an error. *)
Definition Start (os : OsFiles) (s : System) : bool * System :=
  match (_ ← MkdirAll umask socketDir 457; Chmod socketDir 457) (sy_machine s) with
  | (inr _, m) => (false, mkSystem m (sy_listeners s) (sy_host s) (sy_db s))
  | (inl _, m) =>
    let s := mkSystem m (sy_listeners s) (sy_host s) (sy_db s) in
    let s := machine_after (ensureSudoersEnvKeepInDir random "/etc/sudoers.d") s in
    match listSystemUsers os with
    | [] => (false, s)
    | users => (true, foldl (λ s u, set_up u s) s users)
    end
  end.

(** One tick of [watchNewUsers]. *)
Definition watch_tick (os : OsFiles) (s : System) : System :=
  foldl (λ s u, if bool_decide (is_Some (sy_listeners s !! Username u)) then s else set_up u s) s (listSystemUsers os).

(** [Stop]: the servers close their listeners, then the sockets are removed. *)
Definition Stop (order : gmap string systemUser → list systemUser) (s : System) : System :=
  let users := order (sy_listeners s) in
  let s := foldl (λ s u, machine_after (Close (userSockPath socketDir u)) s) s users in
  foldl (λ s u, machine_after (ignore (Remove (userSockPath socketDir u))) s) s users.
End life.

(** ** Reasoning about system calls *)

(** From a file system in [P], [io] ends with a result and a file system in [Q] or with
    an error and one in [E], and every file system on the way, the last included, is in
    [I]. *)
Definition triple {A} (I P : FS → Prop) (io : IO A) (Q : A → FS → Prop) (E : FS → Prop) : Prop :=
  ∀ m, P (m_fs m) →
    match (io m).1 with inl x => Q x (m_fs (io m).2) | inr _ => E (m_fs (io m).2) end ∧
    ∃ tr, m_trace (io m).2 = m_trace m ++ tr ∧ Forall I tr.

Lemma triple_ret {A} I (x : A) Q E : triple I (Q x) (mret x) Q E.
Proof. intros m H. split; [done|]. exists []. by rewrite app_nil_r. Qed.

Lemma triple_bind {A B} I P (io : IO A) (k : A → IO B) Q R E :
  triple I P io Q E → (∀ x, triple I (Q x) (k x) R E) → triple I P (io ≫= k) R E.
Proof.
  intros Hio Hk m Hm. unfold mbind, io_bind. destruct (Hio m Hm) as [Hr (tr & Ht & HI)].
  destruct (io m) as [[x|e] m1]; cbn in *; [|eauto].
  destruct (Hk x m1 Hr) as [Hr2 (tr2 & Ht2 & HI2)]. split; [done|]. exists (tr ++ tr2).
  rewrite Ht2, Ht, (assoc_L app). split; [done|]. by apply Forall_app.
Qed.

Lemma triple_weaken {A} I P P' (io : IO A) Q Q' (E E' : FS → Prop) :
  triple I P io Q E → (∀ fs, P' fs → P fs) → (∀ x fs, Q x fs → Q' x fs) → (∀ fs, E fs → E' fs) → triple I P' io Q' E'.
Proof.
  intros H HP HQ HE m Hm. destruct (H m (HP _ Hm)) as [Hr Ht]. split; [|done]. destruct ((io m).1); auto.
Qed.

Lemma triple_syscall {A} (I P : FS → Prop) (f : FS → (A * FS) + Errno) Q (E : FS → Prop) :
  (∀ fs, P fs → I fs ∧ E fs) →
  (∀ fs x fs', P fs → f fs = inl (x, fs') → Q x fs' ∧ I fs') →
  triple I P (syscall f) Q E.
Proof.
  intros HE HQ m Hm. destruct (HE _ Hm) as [HI0 HE0]. unfold syscall.
  assert (Herr : E (m_fs m) ∧ ∃ tr, m_trace (moved (m_fs m) m) = m_trace m ++ tr ∧ Forall I tr).
  { split; [done|]. exists [m_fs m]. split; [done|]. by constructor. }
  assert (Hok : ∀ x fs', f (m_fs m) = inl (x, fs') → Q x fs' ∧
    ∃ tr, m_trace (moved fs' m) = m_trace m ++ tr ∧ Forall I tr).
  { intros x fs' Hf. destruct (HQ _ _ _ Hm Hf) as [? ?]. split; [done|]. exists [fs']. split; [done|]. by constructor. }
  destruct (m_faults m) as [|[n|] l]; [destruct (f (m_fs m)) as [[x fs']|e] eqn:Hf| |destruct (f (m_fs m)) as [[x fs']|e] eqn:Hf];
    cbn [fst snd]; solve [by apply Hok|exact Herr].
Qed.

Lemma triple_ignore {A} I P (io : IO A) R E :
  triple I P io (λ _, R) R → triple I P (ignore io) (λ _, R) E.
Proof. intros H m Hm. destruct (H m Hm) as [Hr Ht]. split; [|done]. cbn. by destruct ((io m).1). Qed.

Lemma triple_on_error {A} I P (io : IO A) g Q E E' :
  triple I P io Q E → triple I E g (λ _, E') E' → triple I P (on_error io g) Q E'.
Proof.
  intros Hio Hg m Hm. destruct (Hio m Hm) as [Hr (tr & Ht & HI)]. unfold on_error. destruct (io m) as [[x|e] m1]; cbn in *; [eauto|].
  destruct (Hg m1 Hr) as [Hr2 (tr2 & Ht2 & HI2)]. split; [by destruct ((g m1).1)|]. exists (tr ++ tr2).
  rewrite Ht2, Ht, (assoc_L app). split; [done|]. by apply Forall_app.
Qed.

(** A path that is no link leads to itself. *)
Definition no_link (fs : FS) (path : string) : Prop := ∀ n, fs !! path = Some n → ∀ t, n_kind n ≠ Link t.

Lemma follow_no_link fs path : no_link fs path → follow fs path = inl path.
Proof.
  intros H. unfold follow. change 40 with (S 39). generalize 39. intros n. unfold follow_links. fold follow_links.
  destruct (fs !! path) as [[k mo u g]|] eqn:Hp; [|done]. destruct k; try done. by destruct (H _ Hp target).
Qed.

Lemma no_link_insert fs path p n : no_link fs path → (∀ t, n_kind n ≠ Link t) → no_link (<[p := n]> fs) path.
Proof. intros H Hn n' [[<- <-]|[_ Hl]]%lookup_insert_Some; [done|by apply H]. Qed.
Lemma no_link_delete fs path p : no_link fs path → no_link (delete p fs) path.
Proof. intros H n [_ Hl]%lookup_delete_Some. by apply H. Qed.

Lemma on_node_fs path f fs fs' x :
  no_link fs path →
  (match follow fs path with
   | inr e => inr e
   | inl p => match fs !! p with Some n => inl (tt, <[p := f n]> fs) | None => inr ENOENT end
   end : (unit * FS) + Errno) = inl (x, fs') →
  ∃ n, fs !! path = Some n ∧ fs' = <[path := f n]> fs.
Proof. intros Hl. rewrite follow_no_link by done. intros H. case_match; simplify_eq. eauto. Qed.

(** ** Sockets *)

(** Whether a process with this user and these groups has the permission of a node
    (1 to enter a directory, 2 to write). *)
Definition permits (n : Node) (uid : Z) (gids : list Z) (bit : Z) : bool :=
  if uid ==z 0 then true
  else if uid ==z n_uid n then Z.testbit (n_mode n) (6 + bit)
  else if bool_decide (n_gid n ∈ gids) then Z.testbit (n_mode n) (3 + bit)
  else Z.testbit (n_mode n) bit.
(** Somebody listens on the socket, and the process can get to it and write to it. *)
Definition can_connect (fs : FS) (dir sockPath : string) (uid : Z) (gids : list Z) : bool :=
  match fs !! dir, fs !! sockPath with
  | Some d, Some s =>
    match n_kind s with Sock true => permits d uid gids 0 && permits s uid gids 1 | _ => false end
  | _, _ => false
  end.

Definition listening (fs : FS) (sockPath : string) : bool :=
  match fs !! sockPath with Some n => match n_kind n with Sock true => true | _ => false end | None => false end.

Section sockets.
Context (dir sockPath : string) (uid gid : Z).
Hypothesis (Hpaths : sockPath ≠ dir).

(** Nobody but the user and root can connect. *)
Let private (fs : FS) : Prop := ∀ v gids, can_connect fs dir sockPath v gids = true → v = 0%Z ∨ v = uid.
Let closed (fs : FS) : Prop := ∃ k g, fs !! dir = Some (mkNode k 448 uid g).
Let silent (fs : FS) : Prop := no_link fs dir ∧ listening fs sockPath = false.

Lemma silent_private fs : silent fs → private fs.
Proof.
  intros [_ H] v gids. unfold can_connect, listening in *. destruct (fs !! dir); [|done]. destruct (fs !! sockPath); [|done]. by repeat case_match.
Qed.
Lemma closed_private fs : closed fs → private fs.
Proof.
  intros (k & g & Hd) v gids. unfold can_connect. rewrite Hd. destruct (fs !! sockPath) as [s|]; [|done].
  destruct (n_kind s) as [| | |[]]; try done. intros [H _]%andb_true_iff. unfold permits in H. cbn [n_uid n_mode n_gid] in H.
  destruct (v ==z 0) eqn:E0; [left; by apply Z.eqb_eq|]. destruct (v ==z uid) eqn:E1; [right; by apply Z.eqb_eq|].
  by case_match.
Qed.

(** Calls on the directory leave the socket alone. *)
Lemma silent_insert_dir fs n : silent fs → (∀ t, n_kind n ≠ Link t) → silent (<[dir := n]> fs).
Proof.
  intros [Hl Hs] Hn. split; [by apply no_link_insert|]. unfold listening. by rewrite lookup_insert_ne by done.
Qed.

Lemma triple_mkdir umask : triple private silent (MkdirAll umask dir 448) (λ _, silent) silent.
Proof.
  apply triple_syscall; [intros fs H; split; [by apply silent_private|done]|]. intros fs x fs' Hfs.
  rewrite follow_no_link by apply Hfs. intros H. repeat case_match; simplify_eq; (split; [|apply silent_private]); try done; by apply silent_insert_dir.
Qed.

Lemma triple_on_dir (f : Node → Node) (P Q : FS → Prop) :
  (∀ fs, P fs → silent fs) →
  (∀ n, n_kind (f n) = n_kind n) →
  (∀ fs n, P fs → fs !! dir = Some n → Q (<[dir := f n]> fs)) →
  triple private P (on_node dir f) (λ _ fs, silent fs ∧ Q fs) silent.
Proof.
  intros HP Hk HQ. apply triple_syscall; [intros fs H; split; [by apply silent_private, HP|by apply HP]|]. intros fs x fs' Hfs H.
  destruct (on_node_fs dir f fs fs' x (proj1 (HP _ Hfs)) H) as (n & Hn & ->).
  assert (silent (<[dir := f n]> fs)) as Hs.
  { apply silent_insert_dir; [by apply HP|]. intros t. rewrite Hk. apply (proj1 (HP _ Hfs) _ Hn). }
  split; [split; [done|]|by apply silent_private]. by apply HQ.
Qed.

(** The directory is the user's. *)
Let owned (fs : FS) : Prop := ∃ k m g, fs !! dir = Some (mkNode k m uid g).
Let ready (fs : FS) : Prop := silent fs ∧ closed fs.

Lemma triple_chown_dir : triple private silent (Chown dir uid gid) (λ _ fs, silent fs ∧ owned fs) silent.
Proof.
  apply triple_on_dir; [done|done|]. intros fs n _ _. eexists _, _, _. by rewrite lookup_insert_eq.
Qed.
Lemma triple_chmod_dir : triple private (λ fs, silent fs ∧ owned fs) (Chmod dir 448) (λ _, ready) silent.
Proof.
  apply (triple_on_dir (λ n, mkNode (n_kind n) 448 (n_uid n) (n_gid n)) _ closed); [by intros fs [? _]|done|].
  intros fs n [_ (k & m & g & Hd)] Hn. rewrite Hd in Hn. injection Hn as <-. eexists _, _. by rewrite lookup_insert_eq.
Qed.

Lemma ready_delete fs : ready fs → ready (delete sockPath fs).
Proof.
  intros [[Hl Hs] (k & g & Hd)]. split; [split|].
  - by apply no_link_delete.
  - unfold listening. by rewrite lookup_delete_eq.
  - exists k, g. by rewrite lookup_delete_ne by done.
Qed.
Lemma ready_private fs : ready fs → private fs.
Proof. intros [? _]. by apply silent_private. Qed.

Lemma triple_remove : triple private ready (Remove sockPath) (λ _, ready) ready.
Proof.
  apply triple_syscall; [intros fs H; split; [by apply ready_private|done]|]. intros fs x fs' Hfs H.
  assert (fs' = delete sockPath fs) as -> by (by repeat case_match; simplify_eq).
  split; [|apply ready_private]; by apply ready_delete.
Qed.

(** The socket is there, in a closed directory. *)
Definition socket_as (P : Node → Prop) (fs : FS) : Prop :=
  closed fs ∧ no_link fs dir ∧ ∃ n, fs !! sockPath = Some n ∧ n_kind n = Sock true ∧ P n.

Lemma triple_listen umask : triple private ready (Listen umask sockPath) (λ _, socket_as (λ _, True)) silent.
Proof.
  apply triple_syscall; [intros fs H; split; [by apply ready_private|apply H]|]. intros fs x fs' [[Hl Hs] Hc] H.
  destruct (fs !! sockPath) eqn:E; [done|]. injection H as _ <-.
  assert (socket_as (λ _, True) (<[sockPath := mkNode (Sock true) (masked umask 511) 0 0]> fs)) as Ha.
  { destruct Hc as (k & g & Hd). split_and!; [exists k, g; by rewrite lookup_insert_ne| |].
    - by apply no_link_insert.
    - eexists. by rewrite lookup_insert_eq. }
  split; [done|]. apply closed_private, Ha.
Qed.

Lemma triple_close P : triple private (socket_as P) (Close sockPath) (λ _, silent) silent.
Proof.
  intros m (Hc & Hl & n & Hn & Hk & _). unfold Close. cbn. rewrite Hn. destruct n as [[] mo u g]; simplify_eq/=.
  assert (silent (delete sockPath (m_fs m))) as Hs.
  { split; [by apply no_link_delete|]. unfold listening. by rewrite lookup_delete_eq. }
  split; [done|]. eexists. split; [done|]. constructor; [by apply silent_private|done].
Qed.

Lemma triple_on_sock (f : Node → Node) (P Q : Node → Prop) :
  (∀ n, n_kind (f n) = n_kind n) → (∀ n, P n → Q (f n)) →
  triple private (socket_as P) (on_node sockPath f) (λ _, socket_as Q) (socket_as P).
Proof.
  intros Hk HPQ. apply triple_syscall; [intros fs H; split; [by apply closed_private, H|done]|].
  intros fs x fs' (Hc & Hl & n & Hn & Hkn & Hp) H.
  assert (no_link fs sockPath) as Hls by (intros n' Hn' t; rewrite Hn in Hn'; simplify_eq; by rewrite Hkn).
  destruct (on_node_fs sockPath f fs fs' x Hls H) as (n' & Hn' & ->). rewrite Hn in Hn'. injection Hn' as <-.
  assert (socket_as Q (<[sockPath := f n]> fs)) as Ha.
  { destruct Hc as (k & g & Hd). split_and!; [exists k, g; by rewrite lookup_insert_ne| |].
    - apply no_link_insert; [done|]. intros t. by rewrite Hk, Hkn.
    - exists (f n). rewrite lookup_insert_eq, Hk. auto. }
  split; [done|]. apply closed_private, Ha.
Qed.
End sockets.

(** ** Theorems: sockets *)

Lemma user_paths_differ socketDir u :
  is_rooted socketDir = true → userSockPath socketDir u ≠ userDir socketDir u.
Proof.
  intros Hr. unfold userSockPath. apply PathJoin_ne; [|done|by split_and!].
  unfold userDir, PathJoin. case_match eqn:E; [by apply String.eqb_eq in E as ->|]. by apply is_rooted_Clean, is_rooted_app.
Qed.

(** C28: Sockets are private from the first moment.  Whatever calls fail while the listener
    of a user is made, in none of the file systems between the calls can anybody but
    the user and root connect to the socket; in the end either nobody listens, and
    an error is returned, or the socket is the user's alone, in a directory of the
    user's alone. *)
Theorem sockets_are_private umask socketDir u m :
  let dir := userDir socketDir u in
  let sockPath := userSockPath socketDir u in
  is_rooted socketDir = true → no_link (m_fs m) dir → listening (m_fs m) sockPath = false →
  let '(r, m') := startUserListener umask socketDir u m in
  (∃ calls, m_trace m' = m_trace m ++ calls ∧
     ∀ fs v gids, fs ∈ calls → can_connect fs dir sockPath v gids = true → v = 0%Z ∨ v = UID u) ∧
  match r with
  | inr _ => listening (m_fs m') sockPath = false
  | inl _ =>
    (∃ k g, m_fs m' !! dir = Some (mkNode k 448 (UID u) g)) ∧
    (∃ g, m_fs m' !! sockPath = Some (mkNode (Sock true) 384 (UID u) g))
  end.
Proof.
  intros dir sockPath Hroot Hl Hs. pose proof (user_paths_differ socketDir u Hroot) as Hne. fold dir sockPath in Hne.
  set (private := λ fs, ∀ v gids, can_connect fs dir sockPath v gids = true → v = 0%Z ∨ v = UID u).
  set (silent := λ fs, no_link fs dir ∧ listening fs sockPath = false).
  assert (triple private silent (startUserListener umask socketDir u)
            (λ _, socket_as dir sockPath (UID u) (λ n, n_uid n = UID u ∧ n_mode n = 384%Z)) silent) as H.
  { unfold startUserListener. fold dir sockPath.
    eapply triple_bind; [by apply triple_mkdir|intros ?]. eapply triple_bind; [by apply triple_chown_dir|intros ?].
    eapply triple_bind; [by apply triple_chmod_dir|intros ?].
    eapply triple_bind; [by apply triple_ignore, triple_remove|intros ?].
    eapply triple_bind; [by apply triple_listen|intros ?].
    eapply triple_bind; [eapply triple_on_error; [|by eapply triple_close]|intros ?].
    { by apply (triple_on_sock dir sockPath (UID u) Hne _ _ (λ n, n_uid n = UID u)). }
    eapply triple_on_error; [|by eapply triple_close].
    apply (triple_on_sock dir sockPath (UID u) Hne _ (λ n, n_uid n = UID u)); [done|]. intros n Hu. by split. }
  destruct (H m (conj Hl Hs)) as [Hr (calls & Ht & HI)]. destruct (startUserListener umask socketDir u m) as [r m']. cbn [fst snd] in *.
  split; [exists calls; split; [done|]; intros fs v gids Hin; by apply (proj1 (Forall_forall _ _) HI)|].
  destruct r as [x|e]; [|apply Hr]. destruct Hr as ((k & g & Hd) & _ & n & Hn & Hk & Hu & Hm). split; [eauto|].
  exists (n_gid n). rewrite Hn. destruct n; cbn in *. congruence.
Qed.

(** ** The rule for sudo *)

Definition sudoers_target : string := PathJoin "/etc/sudoers.d" sudoersProxyEnvKeepFile.
Definition sudoers_node : Node := mkNode (File sudoersProxyEnvKeepContent) 288 0 0.

Section sudoers.
Context (random : FS → string) (fs0 : FS).
(** The file is the old one or the new one, whole. *)
Let whole (fs : FS) : Prop := fs !! sudoers_target = fs0 !! sudoers_target ∨ fs !! sudoers_target = Some sudoers_node.
(** A temporary file stands beside the old one. *)
Let beside (Q : string → Z → Prop) (p : string) (fs : FS) : Prop :=
  p ≠ sudoers_target ∧ fs0 !! p = None ∧ ∃ s mo, Q s mo ∧ fs = <[p := mkNode (File s) mo 0 0]> fs0.

Lemma beside_whole Q p fs : beside Q p fs → whole fs.
Proof. intros (Hp & _ & s & mo & _ & ->). left. by rewrite lookup_insert_ne. Qed.
Lemma beside_any Q p fs : beside Q p fs → beside (λ _ _, True) p fs.
Proof. intros (Hp & Hn & s & mo & _ & ->). split_and!; [done..|]. by exists s, mo. Qed.

Lemma triple_create_temp :
  triple whole (λ fs, fs = fs0) (CreateTemp random "/etc/sudoers.d") (beside (λ s mo, s = "" ∧ mo = 384%Z)) (λ _, True).
Proof.
  apply triple_syscall; [intros fs ->; split; [by left|done]|]. intros fs p fs' -> H. cbv zeta in H.
  case_match eqn:E; [done|]. injection H as <- <-.
  match goal with |- beside ?Q ?p ?fs ∧ _ => assert (beside Q p fs) as Hb end; [|split; [done|by eapply beside_whole]].
  split_and!; [|done|by eexists _, _]. intros Hp. by vm_compute in Hp.
Qed.

Lemma triple_write_temp p text mo0 :
  triple whole (beside (λ s mo, s = "" ∧ mo = mo0) p) (write_open p (λ old s, old +:+ s) text)
    (λ _, beside (λ s mo, s = text ∧ mo = mo0) p) (beside (λ _ _, True) p).
Proof.
  assert (Hput : ∀ m s, beside (λ s mo, s = "" ∧ mo = mo0) p (m_fs m) →
    beside (λ s' mo, s' = s ∧ mo = mo0) p
      (match m_fs m !! p with
       | Some (mkNode (File old) mo u g) => <[p := mkNode (File (old +:+ s)) mo u g]> (m_fs m)
       | _ => m_fs m end)).
  { intros m s (Hp & Hn & s' & mo & [-> ->] & ->). rewrite lookup_insert_eq, insert_insert_eq. split_and!; [done..|]. by eexists _, _. }
  intros m Hm. unfold write_open. destruct (m_faults m) as [|[n|] l]; cbn [fst snd moved m_fs m_trace].
  - pose proof (Hput m text Hm) as H. split; [done|]. eexists. split; [done|]. apply Forall_singleton. by eapply beside_whole.
  - pose proof (Hput m (str_take n text) Hm) as H. split; [by eapply beside_any|]. eexists. split; [done|]. apply Forall_singleton. by eapply beside_whole.
  - pose proof (Hput m text Hm) as H. split; [done|]. eexists. split; [done|]. apply Forall_singleton. by eapply beside_whole.
Qed.

Lemma triple_close_temp p Q :
  triple whole (beside Q p) (syscall (λ fs, inl (tt, fs))) (λ _, beside Q p) (beside (λ _ _, True) p).
Proof.
  apply triple_syscall; [intros fs H; split; [by eapply beside_whole|by eapply beside_any]|].
  intros fs x fs' H [= _ <-]. split; [done|by eapply beside_whole].
Qed.

Lemma triple_chmod_temp p Q mode :
  triple whole (beside Q p) (Chmod p mode) (λ _, beside (λ s mo, (∃ mo0, Q s mo0) ∧ mo = mode) p) (beside (λ _ _, True) p).
Proof.
  apply triple_syscall; [intros fs H; split; [by eapply beside_whole|by eapply beside_any]|]. intros fs x fs' (Hp & Hn & s & mo & HQ & ->) H.
  assert (no_link (<[p := mkNode (File s) mo 0 0]> fs0) p) as Hl.
  { intros n. rewrite lookup_insert_eq. by intros [= <-]. }
  destruct (on_node_fs p _ _ _ _ Hl H) as (n & Hn' & ->). rewrite lookup_insert_eq in Hn'. injection Hn' as <-.
  rewrite insert_insert_eq. match goal with |- ?b ∧ _ => assert b as Hb end; [|split; [done|by eapply beside_whole]].
  split_and!; [done..|]. eexists _, _. split; [|done]. eauto.
Qed.

Lemma triple_rename p :
  triple whole (beside (λ s mo, s = sudoersProxyEnvKeepContent ∧ mo = 288%Z) p) (Rename p sudoers_target)
    (λ _ fs, fs = <[sudoers_target := sudoers_node]> fs0) (beside (λ _ _, True) p).
Proof.
  apply triple_syscall; [intros fs H; split; [by eapply beside_whole|by eapply beside_any]|]. intros fs x fs' (Hp & Hn & s & mo & [-> ->] & ->) H.
  assert (fs' = <[sudoers_target := sudoers_node]> fs0) as ->.
  { rewrite lookup_insert_eq in H. repeat case_match; simplify_eq; by rewrite delete_insert_id by done. }
  split; [done|]. right. by rewrite lookup_insert_eq.
Qed.

Lemma triple_remove_temp p : triple whole (beside (λ _ _, True) p) (ignore (Remove p)) (λ _ _, True) (λ _, True).
Proof.
  apply (triple_ignore _ _ _ (λ _, True)). apply triple_syscall; [intros fs H; split; [by eapply beside_whole|done]|].
  intros fs x fs' (Hp & Hn & s & mo & _ & ->) H. split; [done|]. rewrite lookup_insert_eq in H. injection H as _ <-.
  left. by rewrite lookup_delete_ne, lookup_insert_ne by done.
Qed.
End sudoers.

Lemma ReadFile_moved path m :
  ∃ r, ReadFile path m = (r, moved (m_fs m) m) ∧
    ∀ s, r = inl s → no_link (m_fs m) path → ∃ mo u g, m_fs m !! path = Some (mkNode (File s) mo u g).
Proof.
  unfold ReadFile, syscall. destruct (m_faults m) as [|[n|] l]; [|by exists (inr EIO)|];
    (destruct (follow (m_fs m) path) as [p|e] eqn:Ef; [|by exists (inr e)];
     destruct (m_fs m !! p) as [[k mo u g]|] eqn:Ep; [destruct k|]; eexists; (split; [done|]); try done;
     intros s [= <-] Hl; rewrite follow_no_link in Ef by done; injection Ef as <-; eauto).
Qed.

Definition install_sudoers (random : FS → string) : IO unit :=
  tmpPath ← CreateTemp random "/etc/sudoers.d";
  on_error
    (_ ← write_open tmpPath (λ old s, old +:+ s) sudoersProxyEnvKeepContent;
     _ ← syscall (λ fs, inl (tt, fs));
     _ ← Chmod tmpPath 288;
     Rename tmpPath sudoers_target)
    (ignore (Remove tmpPath)).

Lemma triple_install random fs0 :
  triple (λ fs, fs !! sudoers_target = fs0 !! sudoers_target ∨ fs !! sudoers_target = Some sudoers_node)
    (λ fs, fs = fs0) (install_sudoers random) (λ _ fs, fs = <[sudoers_target := sudoers_node]> fs0) (λ _, True).
Proof.
  eapply triple_bind; [apply triple_create_temp|intros p]. eapply triple_on_error; [|apply triple_remove_temp].
  eapply triple_bind; [apply triple_write_temp|intros ?].
  eapply triple_bind; [apply triple_close_temp|intros ?].
  eapply triple_bind; [apply triple_chmod_temp|intros ?].
  eapply triple_weaken; [apply triple_rename| |done|done].
  intros fs (Hp & Hn & s & mo & [(? & -> & _) ->] & ->). split_and!; [done..|]. by eexists _, _.
Qed.

Lemma sudoers_cases random m :
  ∃ r, ReadFile sudoers_target m = (r, moved (m_fs m) m) ∧
    ensureSudoersEnvKeepInDir random "/etc/sudoers.d" m =
    match r with
    | inl s => if s ==s sudoersProxyEnvKeepContent then (inl tt, moved (m_fs m) m) else install_sudoers random (moved (m_fs m) m)
    | inr ENOENT => install_sudoers random (moved (m_fs m) m)
    | inr e => (inr e, moved (m_fs m) m)
    end.
Proof.
  destruct (ReadFile_moved sudoers_target m) as (r & Hr & _). exists r. split; [done|].
  unfold ensureSudoersEnvKeepInDir. fold sudoers_target. by rewrite Hr.
Qed.

(** The calls from [m] to [m'] find the file as it was or new, and whole. *)
Definition only_whole (m m' : Machine) : Prop :=
  ∃ calls, m_trace m' = m_trace m ++ calls ∧
    ∀ fs, fs ∈ calls → fs !! sudoers_target = m_fs m !! sudoers_target ∨ fs !! sudoers_target = Some sudoers_node.

(** With the rule in place a run does nothing. *)
Lemma sudoers_again random fs mo u g faults trace :
  fs !! sudoers_target = Some (mkNode (File sudoersProxyEnvKeepContent) mo u g) →
  m_fs (ensureSudoersEnvKeepInDir random "/etc/sudoers.d" (mkMachine fs faults trace)).2 = fs.
Proof.
  intros Hfs. destruct (sudoers_cases random (mkMachine fs faults trace)) as (r & Hr & ->).
  assert (no_link fs sudoers_target) as Hl by (intros n; rewrite Hfs; by intros [= <-]).
  unfold ReadFile, syscall in Hr. cbn [m_fs m_faults] in Hr. rewrite follow_no_link, Hfs in Hr by done.
  destruct faults as [|[n|] l]; injection Hr as <-; [|done|]; by rewrite eqb_str_refl.
Qed.

Lemma install_sudoers_whole random m :
  only_whole m (install_sudoers random (moved (m_fs m) m)).2 ∧
  ((install_sudoers random (moved (m_fs m) m)).1 = inl tt →
   m_fs (install_sudoers random (moved (m_fs m) m)).2 = <[sudoers_target := sudoers_node]> (m_fs m)).
Proof.
  pose proof (triple_install random (m_fs m) (moved (m_fs m) m) eq_refl) as [Hi (calls & Ht & HI)].
  destruct (install_sudoers random (moved (m_fs m) m)) as [r m']. cbn [fst snd] in *. split; [|by intros ->].
  exists (m_fs m :: calls). rewrite Ht. cbn. rewrite <- (assoc_L app). split; [done|].
  intros fs [->|Hin]%elem_of_cons; [by left|]. by apply (proj1 (Forall_forall _ _) HI).
Qed.

(** The rule for sudo is put in place whole.  Whatever fails, the file read by sudo is
    at every moment the one that was there or the complete new one, not writable by
    anybody; on success nothing else has changed, the rule is there, and another run
    changes nothing. *)
Theorem sudoers_rule_is_atomic random m :
  let '(r, m') := ensureSudoersEnvKeepInDir random "/etc/sudoers.d" m in
  only_whole m m' ∧
  (r = inl tt → no_link (m_fs m) sudoers_target →
   (m_fs m' = m_fs m ∨ m_fs m' = <[sudoers_target := sudoers_node]> (m_fs m)) ∧
   (∃ mo u g, m_fs m' !! sudoers_target = Some (mkNode (File sudoersProxyEnvKeepContent) mo u g)) ∧
   ∀ faults trace, m_fs (ensureSudoersEnvKeepInDir random "/etc/sudoers.d" (mkMachine (m_fs m') faults trace)).2 = m_fs m').
Proof.
  destruct (sudoers_cases random m) as (r & Hr & ->). destruct (ReadFile_moved sudoers_target m) as (r' & Hr' & Hread).
  rewrite Hr in Hr'. injection Hr' as <-. destruct (install_sudoers_whole random m) as [Hw Hok].
  assert (only_whole m (moved (m_fs m) m)) as Hsame.
  { exists [m_fs m]. split; [done|]. intros fs ->%list_elem_of_singleton. by left. }
  destruct (install_sudoers random (moved (m_fs m) m)) as [r0 m'] eqn:Hinst. cbn [fst snd] in Hw, Hok.
  assert (r0 = inl tt → (m_fs m' = m_fs m ∨ m_fs m' = <[sudoers_target := sudoers_node]> (m_fs m)) ∧
    (∃ mo u g, m_fs m' !! sudoers_target = Some (mkNode (File sudoersProxyEnvKeepContent) mo u g)) ∧
    ∀ faults trace, m_fs (ensureSudoersEnvKeepInDir random "/etc/sudoers.d" (mkMachine (m_fs m') faults trace)).2 = m_fs m') as Hdone.
  { intros E. rewrite (Hok E). split_and!; [by right|rewrite lookup_insert_eq; by eexists _, _, _|].
    intros faults trace. eapply sudoers_again. by rewrite lookup_insert_eq. }
  destruct r as [s|[]]; try (split; [done|by auto]); try done.
  destruct (s ==s sudoersProxyEnvKeepContent) eqn:Es; [|split; [done|by auto]]. apply String.eqb_eq in Es as ->. split; [done|].
  intros _ Hl. cbn [moved m_fs]. destruct (Hread _ eq_refl Hl) as (mo & u & g & Hn).
  split_and!; [by left|eauto|]. intros faults trace. by eapply sudoers_again.
Qed.

(** ** Shell profiles *)

(** Where a path leads is where it leads once something else is there. *)
Lemma follow_links_insert fuel fs path p n :
  follow_links fuel fs path = inl p → (∀ t, n_kind n ≠ Link t) → follow_links fuel (<[p := n]> fs) path = inl p.
Proof.
  intros H Hn. revert path H. induction fuel as [|fuel IH]; intros path; unfold follow_links; fold follow_links;
    (destruct (decide (path = p)) as [->|Hne];
     [intros _; rewrite lookup_insert_eq; destruct n as [[] mo u g]; try done; by destruct (Hn target)|]);
    rewrite lookup_insert_ne by done; (destruct (fs !! path) as [[[] mo u g]|]; try (intros [= ?]; done)).
  apply IH.
Qed.
Lemma follow_insert fs path p n :
  follow fs path = inl p → (∀ t, n_kind n ≠ Link t) → follow (<[p := n]> fs) path = inl p.
Proof. apply follow_links_insert. Qed.
Lemma follow_end fuel fs path p : follow_links fuel fs path = inl p → no_link fs p.
Proof.
  revert path. induction fuel as [|fuel IH]; intros path; unfold follow_links; fold follow_links;
    (destruct (fs !! path) as [[[] mo u g]|] eqn:E; try (intros [= <-] n Hn t; rewrite E in Hn; by injection Hn as <-)); try done.
  - intros [= <-] n Hn. by rewrite E in Hn.
  - apply IH.
  - intros [= <-] n Hn. by rewrite E in Hn.
Qed.

Section profile.
Context (umask : Z) (u : systemUser) (export : string).

(** What a run makes of the file a profile leads to: an up-to-date one is left alone,
    an old block is replaced, a block is added, and the file is given to the user. *)
Definition profile_node (n : option Node) : option Node :=
  match n with
  | None => Some (mkNode (File (block export)) (masked umask 420) (UID u) (GID u))
  | Some (mkNode (File s) mo ou og) =>
    if Contains s export then n
    else if Contains s marker then Some (mkNode (File (ReplaceAll s (oldPattern u) (marker +:+ String NL export))) mo ou og)
    else Some (mkNode (File (s +:+ block export)) mo (UID u) (GID u))
  | _ => n
  end.
Definition set_node (p : string) (n : option Node) (fs : FS) : FS := match n with Some n => <[p := n]> fs | None => fs end.

(** One call that does not fail. *)
Lemma syscall_run {A} (f : FS → (A * FS) + Errno) fs tr :
  ∃ tr', syscall f (mkMachine fs [] tr) =
    match f fs with inl (x, fs') => (inl x, mkMachine fs' [] tr') | inr e => (inr e, mkMachine fs [] tr') end.
Proof. unfold syscall. cbn. destruct (f fs) as [[x fs']|e]; eexists; reflexivity. Qed.

Lemma append_and_give fs cfg p tr text old mo ou og :
  follow fs cfg = inl p →
  fs !! p = Some (mkNode (File old) mo ou og) ∨ (fs !! p = None ∧ old = "" ∧ mo = masked umask 420) →
  m_fs ((_ ← AppendFile umask cfg text 420; ignore (Chown cfg (UID u) (GID u))) (mkMachine fs [] tr)).2 =
    <[p := mkNode (File (old +:+ text)) mo (UID u) (GID u)]> fs.
Proof.
  intros Hf Hold. unfold AppendFile, open_create, mbind, io_bind, syscall at 1. cbn [m_faults m_fs]. rewrite Hf.
  assert (∃ fs1 ou1 og1, (match fs !! p with
     | Some (mkNode (File s) mo u g) => inl (p, fs)
     | Some _ => inr EISDIR
     | None => inl (p, <[p := mkNode (File "") (masked umask 420) 0 0]> fs) end : (string * FS) + Errno) = inl (p, fs1) ∧
     fs1 !! p = Some (mkNode (File old) mo ou1 og1) ∧ (∀ n, <[p := n]> fs1 = <[p := n]> fs) ∧ follow fs1 cfg = inl p) as (fs1 & ou1 & og1 & -> & Hp & Hins & Hf1).
  { destruct Hold as [Hp|(Hp & -> & ->)]; rewrite Hp.
    - by exists fs, ou, og.
    - exists (<[p := mkNode (File "") (masked umask 420) 0 0]> fs), 0%Z, 0%Z. split_and!; [done|by rewrite lookup_insert_eq|intros n; by rewrite insert_insert_eq|].
      by apply follow_insert. }
  unfold moved, write_open. cbn [m_faults m_fs m_trace tail]. rewrite Hp. unfold moved, ignore, Chown, on_node, syscall. cbn [m_faults m_fs m_trace tail].
  rewrite follow_insert by done. rewrite lookup_insert_eq. cbn. by rewrite insert_insert_eq, Hins.
Qed.

Lemma write_profile fs cfg p tr :
  follow fs cfg = inl p →
  m_fs (writeDockerHostToFile umask cfg u export (mkMachine fs [] tr)).2 = set_node p (profile_node (fs !! p)) fs.
Proof.
  intros Hf. unfold writeDockerHostToFile, ReadFile, syscall. cbn [m_faults m_fs]. rewrite Hf.
  pose proof (follow_end _ _ _ _ Hf) as Hl. unfold profile_node, set_node.
  destruct (fs !! p) as [[[|s|t|live] mo ou og]|] eqn:Hp; cbn -[AppendFile WriteFile Contains block follow]; try by rewrite insert_id.
  - destruct (Contains s export) eqn:E1; [cbn; by rewrite insert_id|]. destruct (Contains s marker) eqn:E2.
    + unfold WriteFile, open_create, mbind, io_bind, syscall. cbn [m_faults m_fs moved tail]. rewrite Hf, Hp.
      unfold write_open, moved. cbn [m_faults m_fs m_trace tail]. rewrite lookup_insert_eq. cbn. by rewrite insert_insert_eq.
    + apply (append_and_give _ _ _ _ _ _ _ ou og); auto.
  - apply (append_and_give _ _ _ _ _ "" _ 0 0); auto.
Qed.
End profile.

Lemma Contains_middle a b c : Contains (a +:+ b +:+ c) b = true.
Proof. apply Contains_spec. eauto. Qed.

Lemma marker_ne e : marker +:+ e ≠ "".
Proof. done. Qed.

(** Replacing a block that is there puts the line in; replacing one that is not does
    nothing. *)
Lemma replaced_block s old new export :
  old ≠ "" → Contains (ReplaceAll s old (new +:+ String NL export)) export = true ∨ (Contains s old = false ∧ ReplaceAll s old (new +:+ String NL export) = s).
Proof.
  intros Hne. rewrite ReplaceAll_eq by done. unfold Contains at 2. destruct (Index s old) as [i|] eqn:E; [left|by right].
  apply Contains_spec. exists (str_take i s +:+ new +:+ String NL ""), (ReplaceAll (str_drop (i + slen old) s) old (new +:+ String NL export)).
  rewrite <- !app_assoc_str. by f_equal.
Qed.

Lemma profile_node_contains umask u export n s mo ou og :
  profile_node umask u export n = Some (mkNode (File s) mo ou og) →
  Contains s export = true ∨ (Contains s marker = true ∧ Contains s (oldPattern u) = false ∧ n = Some (mkNode (File s) mo ou og)).
Proof.
  assert (∀ a, Contains (a +:+ block export) export = true) as Hb.
  { intros a. apply Contains_spec. exists (a +:+ String NL (marker +:+ String NL "")), (String NL ""). unfold block.
    rewrite <- !app_assoc_str. done. }
  destruct n as [[[|old|t|live] mo' ou' og']|]; cbn [profile_node]; try done.
  - destruct (Contains old export) eqn:E1; [intros [= <- _ _ _]; by left|]. destruct (Contains old marker) eqn:E2.
    + pose proof (replaced_block old (oldPattern u) marker export (marker_ne _)) as Hr. revert Hr.
      generalize (ReplaceAll old (oldPattern u) (marker +:+ String NL export)). intros r Hr [= <- <- <- <-].
      destruct Hr as [H|[H1 ->]]; [by left|by right].
    + intros [= <- _ _ _]. left. apply Hb.
  - intros [= <- _ _ _]. left. apply (Hb "").
Qed.

Lemma profile_node_idem umask u export n :
  profile_node umask u export (profile_node umask u export n) = profile_node umask u export n.
Proof.
  destruct (profile_node umask u export n) as [[[|s|t|live] mo ou og]|] eqn:E; cbn [profile_node]; try done.
  - destruct (profile_node_contains _ _ _ _ _ _ _ _ E) as [->|(H1 & H2 & ->)]; [done|]. cbn [profile_node] in E.
    destruct (Contains s export); [done|]. by rewrite H1 in E |- *.
  - destruct n as [[[] ? ? ?]|]; cbn [profile_node] in E; by repeat case_match.
Qed.

Lemma profile_node_Some umask u export o :
  (∀ n, o = Some n → ∀ t, n_kind n ≠ Link t) →
  ∃ n, profile_node umask u export o = Some n ∧ ∀ t, n_kind n ≠ Link t.
Proof.
  intros Ho. destruct o as [[[|s|t|live] mo ou og]|]; cbn [profile_node]; try by eexists.
  - destruct (Contains s export); [by eexists|]. destruct (Contains s marker); by eexists.
  - by destruct (Ho _ eq_refl t).
Qed.

(** A profile is written once.  When no call fails, a run changes no other file
    than the one the profile leads to, and another run nothing; the file then sets
    DOCKER_HOST to the user's socket, unless it has the mark of the proxy without the
    line of the first version: then it stays as it is, whatever it sets. *)
Theorem profile_written_once umask u socketDir fs cfg p tr tr' :
  follow fs cfg = inl p →
  let export := exportLine socketDir u in
  let run fs tr := m_fs (writeDockerHostToFile umask cfg u export (mkMachine fs [] tr)).2 in
  run (run fs tr) tr' = run fs tr ∧
  (∀ q, q ≠ p → run fs tr !! q = fs !! q) ∧
  (∀ s mo ou og, run fs tr !! p = Some (mkNode (File s) mo ou og) →
     Contains s export = true ∨
     (Contains s marker = true ∧ Contains s (oldPattern u) = false ∧ fs !! p = Some (mkNode (File s) mo ou og))).
Proof.
  intros Hf export run. assert (Hrun : ∀ tr, run fs tr = set_node p (profile_node umask u export (fs !! p)) fs)
    by (intros; by apply write_profile).
  destruct (profile_node_Some umask u export (fs !! p) (λ n Hn, follow_end _ _ _ _ Hf n Hn)) as (n & Hn & Hnl).
  assert (Hr : ∀ tr, run fs tr = <[p := n]> fs) by (intros; by rewrite Hrun, Hn). clear Hrun.
  split_and!.
  - unfold run at 1. rewrite (write_profile _ _ _ _ _ p) by (rewrite Hr; by apply follow_insert).
    rewrite Hr, lookup_insert_eq, <- Hn, profile_node_idem, Hn. cbn [set_node]. by rewrite insert_insert_eq.
  - intros q Hq. by rewrite Hr, lookup_insert_ne.
  - intros s mo ou og. rewrite Hr, lookup_insert_eq, <- Hn. apply profile_node_contains.
Qed.

(** A linked profile gives the file it leads to away.  Root follows the link of a
    user's profile: the lines are added to whatever file it leads to, which is then
    the user's. *)
Theorem linked_profile_gives_file_away umask u socketDir fs cfg target s mo tr :
  fs !! cfg = Some (mkNode (Link target) 511 (UID u) (GID u)) → fs !! target = Some (mkNode (File s) mo 0 0) →
  Contains s (exportLine socketDir u) = false → Contains s marker = false →
  m_fs (writeDockerHostToFile umask cfg u (exportLine socketDir u) (mkMachine fs [] tr)).2 !! target =
    Some (mkNode (File (s +:+ block (exportLine socketDir u))) mo (UID u) (GID u)).
Proof.
  intros Hc Ht H1 H2. assert (follow fs cfg = inl target) as Hf.
  { unfold follow. change 40 with (S 39). cbn [follow_links]. rewrite Hc. generalize 39. intros [|n]; cbn [follow_links]; by rewrite Ht. }
  rewrite (write_profile _ _ _ _ _ target) by done. rewrite Ht. cbn -[Contains block exportLine]. rewrite H1, H2. cbn -[Contains block exportLine].
  by rewrite lookup_insert_eq.
Qed.

(** ** The users *)

(** Users with a shell, and of the accounts below 1000 root alone. *)
Definition login_shell (shell : string) : bool :=
  negb ((shell ==s "") || HasSuffix shell "nologin" || HasSuffix shell "false").
Definition served_user (e : PasswdEntry) : option systemUser :=
  if login_shell (TrimSpace (pw_shell e)) && ((pw_uid e ==z 0) || (1000 <=? pw_uid e)%Z)
  then Some (mkSystemUser (pw_name e) (pw_uid e) (pw_gid e) (TrimSpace (pw_dir e))) else None.

Lemma scan_int_Itoa z : (0 <= z <= int64_max)%Z → scan_int (Itoa z) = z.
Proof.
  intros Hz. unfold scan_int. rewrite (scan_opt_digits _ z); [done|apply Itoa_digits; lia|apply Itoa_ne|by apply digits_val_Itoa|].
  unfold in_int64, int64_min, int64_max in *. lia.
Qed.

Lemma system_user_line e :
  passwd_entry_ok e = true → (0 <= pw_uid e <= int64_max)%Z → (0 <= pw_gid e <= int64_max)%Z →
  system_user (passwd_line e) = served_user e.
Proof.
  intros Hok Hu Hg. unfold system_user. rewrite passwd_line_split by done. cbn [passwd_fields length Nat.ltb Nat.leb].
  change (field _ 0) with (pw_name e). change (field _ 2) with (Itoa (pw_uid e)). change (field _ 3) with (Itoa (pw_gid e)).
  change (field _ 5) with (pw_dir e). change (field _ 6) with (pw_shell e). rewrite !scan_int_Itoa by done. unfold served_user, login_shell. destruct (_ || _ || _) eqn:E; [done|]. cbn [negb andb].
  destruct (pw_uid e ==z 0) eqn:E0; cbn [negb andb orb]; [done|]. rewrite Z.ltb_antisym. by destruct (1000 <=? pw_uid e)%Z.
Qed.

(** The users listeners are made for are those the account database lists with a
    shell: root and the accounts from 1000 on, in the order of the file. *)
Theorem listed_users_are_accounts es og :
  forallb passwd_entry_ok es = true →
  Forall (λ e, (0 <= pw_uid e <= int64_max)%Z ∧ (0 <= pw_gid e <= int64_max)%Z) es →
  listSystemUsers (mkOsFiles (Some (passwd_file es)) og) = omap served_user es.
Proof.
  intros Hok Hid. unfold listSystemUsers. cbn [etc_passwd]. rewrite passwd_file_split by done. rewrite omap_app. cbn.
  rewrite app_nil_r. induction Hid as [|e es [Hu Hg] _ IH]; [done|]. cbn [forallb] in Hok. apply andb_true_iff in Hok as [He Hes].
  cbn [fmap list_fmap omap list_omap]. rewrite system_user_line by done. by rewrite IH.
Qed.

Section ticks.
Context {FW : Type} `{!Iptables FW}.
Context (umask : Z) (docker : Docker) (now : Z) (socketDir storageBase : string).

(** Those who have a listener keep it, and with everybody listening a tick does
    nothing. *)
Lemma watch_tick_keeps os s name :
  is_Some (sy_listeners s !! name) → is_Some (sy_listeners (watch_tick umask docker now socketDir storageBase os s) !! name).
Proof.
  unfold watch_tick. revert s. induction (listSystemUsers os) as [|u us IH]; intros s H; [done|]. cbn [foldl]. apply IH.
  case_bool_decide; [done|]. unfold set_up. destruct (startUserListener _ _ _ _) as [[x|e] m]; [|done].
  unfold machine_after, ensureUserBridge. cbn [sy_listeners sy_host]. destruct (EnsureUserBridge _ _ _ _) as [[id|] h]; cbn [sy_listeners];
    (destruct (decide (name = Username u)) as [->|Hne]; [rewrite lookup_insert_eq; eauto|by rewrite lookup_insert_ne]).
Qed.
Lemma watch_tick_idle os s :
  Forall (λ u, is_Some (sy_listeners s !! Username u)) (listSystemUsers os) →
  watch_tick umask docker now socketDir storageBase os s = s.
Proof.
  unfold watch_tick. induction 1 as [|u us Hu _ IH]; [done|]. cbn [foldl]. by rewrite bool_decide_eq_true_2.
Qed.
End ticks.

(** ** Examples *)

Module ListenDemo.
Definition bob : systemUser := mkSystemUser "bob" 1002 1002 "/home/bob".
Definition socketDir : string := "/run/authz".
Definition dir (uid : Z) (mode : Z) : Node := mkNode Dir mode uid uid.
(** The socket of an earlier run, in a directory anybody can enter; the profile of
    bob is a link. *)
Definition fs : FS :=
  {[ "/run/authz" := dir 0 457; "/run/authz/bob" := dir 0 511; "/run/authz/bob/docker.sock" := mkNode (Sock false) 511 0 0;
     "/home/bob/.profile" := mkNode (Link "/etc/shadow") 511 1002 1002;
     "/etc/shadow" := mkNode (File "root:x") 384 0 0;
     "/home/bob/.bashrc" := mkNode (File "alias ll=ls") 420 1002 1002 ]}.
Definition machine (faults : list (option nat)) : Machine := mkMachine fs faults [].
Definition accounts : list PasswdEntry :=
  [mkPasswdEntry "root" "x" 0 0 "" "/root" "/bin/bash"; mkPasswdEntry "daemon" "x" 1 1 "" "/" "/usr/sbin/nologin";
   mkPasswdEntry "bob" "x" 1002 1002 "" "/home/bob" "/bin/bash"].
End ListenDemo.

(** The last call fails: nobody listens. *)
Lemma sockets_are_private_witness :
  (startUserListener 18 ListenDemo.socketDir ListenDemo.bob (ListenDemo.machine [])).1 = inl tt ∧
  listening (m_fs (startUserListener 18 ListenDemo.socketDir ListenDemo.bob
    (ListenDemo.machine [None; None; None; None; None; None; Some 0])).2) "/run/authz/bob/docker.sock" = false.
Proof.
  split; [by vm_compute|].
  pose proof (sockets_are_private 18 ListenDemo.socketDir ListenDemo.bob (ListenDemo.machine [None; None; None; None; None; None; Some 0])
    eq_refl (λ n (Hn : ListenDemo.fs !! "/run/authz/bob" = Some n), ltac:(vm_compute in Hn; by injection Hn as <-)) eq_refl) as H.
  assert ((startUserListener 18 ListenDemo.socketDir ListenDemo.bob (ListenDemo.machine [None; None; None; None; None; None; Some 0])).1 = inr EIO)
    as Hr by (by vm_compute).
  destruct (startUserListener 18 ListenDemo.socketDir ListenDemo.bob _) as [r m']. cbn [fst snd] in Hr |- *. subst r. apply H.
Defined.

Lemma sudoers_rule_is_atomic_witness :
  ∃ mo u g, m_fs (ensureSudoersEnvKeepInDir (λ _, "1") "/etc/sudoers.d" (ListenDemo.machine [])).2 !! sudoers_target =
    Some (mkNode (File sudoersProxyEnvKeepContent) mo u g).
Proof.
  pose proof (sudoers_rule_is_atomic (λ _, "1") (ListenDemo.machine [])) as H.
  assert ((ensureSudoersEnvKeepInDir (λ _, "1") "/etc/sudoers.d" (ListenDemo.machine [])).1 = inl tt) as Hr by (by vm_compute).
  destruct (ensureSudoersEnvKeepInDir (λ _, "1") "/etc/sudoers.d" (ListenDemo.machine [])) as [r m']. cbn [fst snd] in Hr |- *. subst r.
  destruct H as [_ H]. apply H; [done|]. intros n Hn. by vm_compute in Hn.
Defined.

Lemma profile_written_once_witness :
  ∃ s mo ou og, m_fs (writeDockerHostToFile 18 "/home/bob/.bashrc" ListenDemo.bob (exportLine "/run/authz" ListenDemo.bob)
    (mkMachine ListenDemo.fs [] [])).2 !! "/home/bob/.bashrc" = Some (mkNode (File s) mo ou og) ∧ Contains s (exportLine "/run/authz" ListenDemo.bob) = true.
Proof.
  destruct (profile_written_once 18 ListenDemo.bob "/run/authz" ListenDemo.fs "/home/bob/.bashrc" "/home/bob/.bashrc" [] [] eq_refl) as (_ & _ & H).
  eexists _, _, _, _. split; [by vm_compute|]. edestruct H as [Hc|(Hc & _)]; [by vm_compute|exact Hc|by vm_compute in Hc].
Defined.

Lemma linked_profile_gives_file_away_witness :
  n_uid <$> (m_fs (writeDockerHostToFile 18 "/home/bob/.profile" ListenDemo.bob (exportLine "/run/authz" ListenDemo.bob)
    (mkMachine ListenDemo.fs [] [])).2 !! "/etc/shadow") = Some 1002%Z.
Proof.
  by rewrite (linked_profile_gives_file_away 18 ListenDemo.bob "/run/authz" ListenDemo.fs "/home/bob/.profile" "/etc/shadow" "root:x" 384 []) by (by vm_compute).
Defined.

Lemma listed_users_are_accounts_witness :
  Username <$> listSystemUsers (mkOsFiles (Some (passwd_file ListenDemo.accounts)) None) = ["root"; "bob"].
Proof.
  rewrite (listed_users_are_accounts ListenDemo.accounts None); [done|done|].
  repeat constructor; done.
Defined.
