(* ===== verification/Ctl.v ===== *)
(** * Ctl: the administrator's tool

    The commands of [cmd/ctl/main.go], from the options once they are parsed (CommandLine):
    [peer allow], [deny] and [list] (148-406), [image set-public], [grant] and [list]
    (447-917), [volumes-from allow], [deny] and [list] (921-1161); and the listings of
    the database of [internal/authz/query.go].  They work on the ownership database
    beside the proxy, through the same methods (ImageDB, ResourceDB, Peers), and on
    [images] with queries of their own.  The accounts of the host ([user.Lookup]) are a
    parameter; what is printed is a value, without its columns, dates and sizes. *)

From S2P Require Import Prelude GoStrings GoJson Docker OsLookup Identity Names Tables Database ImageDB ResourceDB DbReach.
From S2P Require Import Storage Bodies Bridge Peers.

Inductive CtlError :=
| NeedsRoot
| NoIdentity (side : string)
| NoSuchUser (ident : string)
| BadUID (ident : string)
| SameUser
| OneContainerOnly
| CannotInspect (name : string)
| NotRecorded (name : string)
| BelongsTo (name : string) (uid : Z)
| PeerCommandFailed (e : PeerError)
| ImageUnknown (ref : string)
| ContainerMissing
| DatabaseFailed (e : DBError).

(** ** SQL's LIKE *)

(** [%] is any text and [_] any character; letters are compared without case. *)
Fixpoint like (pattern s : string) : bool :=
  match pattern with
  | "" => s ==s ""
  | String c pattern =>
    if Ascii.eqb c "%" then
      (fix any (s : string) : bool :=
         like pattern s || match s with "" => false | String _ s => any s end) s
    else
      match s with
      | "" => false
      | String d s => (Ascii.eqb c "_" || Ascii.eqb (ascii_lower c) (ascii_lower d)) && like pattern s
      end
  end.

Section ctl.
(** [user.Lookup], [user.LookupId]: the textual uid of a name, the name of a uid. *)
Context (user_Lookup : string → option string) (user_LookupId : Z → option string).
Context (daemon : PeerDaemon).
Let docker : Docker := pd_docker daemon.
Context (now : Z).

(** [strconv.Atoi] with its error. *)
Definition atoi (s : string) : option Z := let '(n, ok) := Atoi s in if ok then Some n else None.

Definition resolveIdent (ident side : string) : CtlError + Z :=
  if ident ==s "" then inl (NoIdentity side) else
  match atoi ident with
  | Some n => inr n
  | None =>
    match user_Lookup ident with
    | None => inl (NoSuchUser ident)
    | Some uid => match atoi uid with Some n => inr n | None => inl (BadUID ident) end
    end
  end.

(** [None] is an error. *)
Definition resolveContainerID (nameOrID : string) : option string :=
  docker_get docker ("/containers/" +:+ nameOrID +:+ "/json") ≫= unmarshal_as (decode_id "Id") "".

Definition checkContainerOwner (nameOrID : string) (expectedUID : Z) (d : OwnershipDB) : option CtlError :=
  match resolveContainerID nameOrID with
  | None => Some (CannotInspect nameOrID)
  | Some fullID =>
    let owner := match GetContainerOwner fullID d with Some o => Some o | None => GetContainerOwner nameOrID d end in
    match owner with
    | None => Some (NotRecorded nameOrID)
    | Some o => if oi_UID o !=z expectedUID then Some (BelongsTo nameOrID (oi_UID o)) else None
    end
  end.

(** ** Networks between users *)

Record PeerFlags := mkPeerFlags {
  fl_uidA : string; fl_uidB : string; fl_userA : string; fl_userB : string; fl_contA : string; fl_contB : string;
}.
Definition or_else (a b : string) : string := if a ==s "" then b else a.

(** The error, what was sent to the daemon, and the database. *)
Definition PeerOutcome : Type := option CtlError * list Call * OwnershipDB.
Definition peer_command (allow : bool) (a b : Z) (opts : PeerOptions) (d : OwnershipDB) : PeerOutcome :=
  if allow then
    let '(err, calls, d) := AllowNetworkPeer daemon now a b opts d in (PeerCommandFailed <$> err, calls, d)
  else
    match DenyNetworkPeer daemon a b opts d with
    | (Some ErrPeerNotFound, calls, d) => (None, calls, d)
    | (err, calls, d) => (PeerCommandFailed <$> err, calls, d)
    end.

Definition peerMutate (allow : bool) (fl : PeerFlags) (d : OwnershipDB) : PeerOutcome :=
  match resolveIdent (or_else (fl_uidA fl) (fl_userA fl)) "a", resolveIdent (or_else (fl_uidB fl) (fl_userB fl)) "b" with
  | inl e, _ => (Some e, [], d)
  | inr _, inl e => (Some e, [], d)
  | inr a, inr b =>
    if a ==z b then (Some SameUser, [], d) else
    if negb (Bool.eqb (fl_contA fl ==s "") (fl_contB fl ==s "")) then (Some OneContainerOnly, [], d) else
    let checked :=
      if fl_contA fl ==s "" then None
      else match checkContainerOwner (fl_contA fl) a d with
           | Some e => Some e
           | None => checkContainerOwner (fl_contB fl) b d
           end in
    match checked with
    | Some e => (Some e, [], d)
    | None => peer_command allow a b (mkPeerOptions (fl_contA fl) (fl_contB fl)) d
    end
  end.

Definition has_container (c : string) (p : NetworkPeerInfo) : bool := (ContainerIDA p ==s c) || (ContainerIDB p ==s c).
Definition peerList (filterUID : Z) (filterUser filterCont : string) (d : OwnershipDB) : CtlError + list NetworkPeerInfo :=
  match (if (filterUID ==z 0) && (filterUser !=s "") then resolveIdent filterUser "" else inr filterUID) with
  | inl e => inl e
  | inr uid =>
    let found :=
      if uid !=z 0 then
        if filterCont !=s "" then List.filter (has_container filterCont) <$> ok_opt (GetNetworkPeersByUID uid d)
        else ok_opt (GetNetworkPeersByUID uid d)
      else if filterCont !=s "" then ok_opt (GetNetworkPeersByContainer filterCont d)
      else ok_opt (GetAllNetworkPeers d) in
    match found with None => inl (DatabaseFailed ErrEngine) | Some l => inr l end
  end.

(** ** Images *)

Definition without_sha256 (id : string) : string :=
  if (7 <? slen id)%nat && HasPrefix id "sha256:" then str_drop 7 id else id.
Definition resolveImageID (ref : string) : option string :=
  without_sha256 <$> (docker_get docker ("/images/" +:+ ref +:+ "/json") ≫= unmarshal_as (decode_id "Id") "").

(** The query of the tool itself, for an id or the beginning of one. *)
Definition ctl_resolveImageIDInDB (idOrPrefix : string) (d : OwnershipDB) : option string :=
  ok_opt (QueryRow (λ d, i_image_id <$>
    find_first (λ r, (i_image_id r ==s idOrPrefix) || like (idOrPrefix +:+ "%") (i_image_id r)) (images d)) d).
Definition image_of_ref (ref : string) (d : OwnershipDB) : option string :=
  ctl_resolveImageIDInDB (default ref (resolveImageID ref)) d.

(** What is printed by [set-public]. *)
Inductive SetPublic := StillReferenced (others : list Z) | MarkedAs (id : string) (public : bool).
Definition other_referrers (resolvedID : string) (refUIDs : list Z) (d : OwnershipDB) : list Z :=
  List.filter (λ uid, match GetImageOwner resolvedID d with Some (o, _, _) => uid !=z oi_UID o | None => true end) refUIDs.
Definition imageSetPublic (public force : bool) (ref : string) (d : OwnershipDB) : (CtlError + SetPublic) * OwnershipDB :=
  match image_of_ref ref d with
  | None => (inl (ImageUnknown ref), d)
  | Some resolvedID =>
    let mark :=
      match SetImagePublic resolvedID public d with
      | (Some e, d) => (inl (DatabaseFailed e), d)
      | (None, d) => (inr (MarkedAs resolvedID public), d)
      end in
    if negb public && negb force then
      match GetImageRefUsers resolvedID d with
      | inl e => (inl (DatabaseFailed e), d)
      | inr refUIDs =>
        match other_referrers resolvedID refUIDs d with
        | [] => mark
        | others => (inr (StillReferenced others), d)
        end
      end
    else mark
  end.

(** [image grant]: the uid of a name, or a uid; negative is nobody. *)
Definition grantee (userArg : string) : Z :=
  match user_Lookup userArg with
  | Some uid => Atoi_val uid
  | None => default (-1)%Z (atoi userArg)
  end.
Definition imageGrant (ref userArg : string) (d : OwnershipDB) : (CtlError + string) * OwnershipDB :=
  let targetUID := grantee userArg in
  if (targetUID <? 0)%Z then (inl (NoSuchUser userArg), d) else
  match image_of_ref ref d with
  | None => (inl (ImageUnknown ref), d)
  | Some resolvedID =>
    match EnsureImageAccess resolvedID targetUID d with
    | (Some e, d) => (inl (DatabaseFailed e), d)
    | (None, d) => (inr resolvedID, d)
    end
  end.

(** The rows of [image list]: those of a user and those the user refers to, by id;
    or all, by owner and id. *)
Definition id_le (a b : ImageRow) : Prop := String.leb (i_image_id a) (i_image_id b) = true.
#[local] Instance id_le_dec a b : Decision (id_le a b).
Proof. unfold id_le. apply _. Defined.
Definition owner_id_le (a b : ImageRow) : Prop := (i_owner_uid a < i_owner_uid b)%Z ∨ (i_owner_uid a = i_owner_uid b ∧ id_le a b).
#[local] Instance owner_id_le_dec a b : Decision (owner_id_le a b).
Proof. unfold owner_id_le. apply _. Defined.
Definition referred_rows (uid : Z) (d : OwnershipDB) : list ImageRow :=
  omap (λ a, if a_user_uid a ==z uid
             then match tbl_lookup (a_image_id a) (images d) with
                  | Some r => if i_owner_uid r !=z uid then Some r else None
                  | None => None
                  end
             else None) (image_access d).
Definition listed_rows (uid : Z) (d : OwnershipDB) : result (list ImageRow) :=
  Query (λ d,
    if uid !=z 0 then
      merge_sort id_le (tbl_select (λ r, i_owner_uid r ==z uid) (images d)) ++ merge_sort id_le (referred_rows uid d)
    else merge_sort owner_id_le (images d)) d.

(** The first tag of the daemon's entry for an image, found by its id or by the first
    12 digits of it, cut at its last colon; the map is gone over in the order
    [range]. *)
Definition short_id (id : string) : string := if (12 <? slen id)%nat then str_take 12 id else id.
Definition image_meta (range : gmap string (list string) → list (string * list string)) (meta : gmap string (list string))
    (id : string) : option (list string) :=
  match meta !! id with
  | Some tags => Some tags
  | None => snd <$> find_first (λ kv, (12 <=? slen kv.1)%nat && (str_take 12 kv.1 ==s short_id id)) (range meta)
  end.
Definition repo_tag (tags : option (list string)) : string * string :=
  match tags with
  | Some (first :: _) =>
    if first ==s "<none>:<none>" then ("<none>", "<none>")
    else match LastIndex first ":" with Some i => (str_take i first, str_drop (S i) first) | None => ("<none>", "<none>") end
  | _ => ("<none>", "<none>")
  end.
Record ImageLine := mkImageLine {
  il_repo : string; il_tag : string; il_id : string; il_owner : string; il_uid : Z; il_public : bool;
}.
Definition image_line range meta (r : ImageRow) : ImageLine :=
  let '(repo, tag) := repo_tag (image_meta range meta (i_image_id r)) in
  mkImageLine repo tag (short_id (i_image_id r)) (i_owner_username r) (i_owner_uid r) (i_is_public r !=z 0).
(** What the daemon says of all its images: ids and tags; the numbers must be such. *)
Definition decode_image_item : string * list string → json → (string * list string) * bool :=
  decode_struct (λ kvs i, (field decode_string "Id" kvs i.1, field decode_strings "RepoTags" kvs i.2))
    (λ kvs, field_ok decode_string "Id" kvs "" && field_ok decode_strings "RepoTags" kvs [] &&
            field_ok decode_int64 "Created" kvs 0%Z && field_ok decode_int64 "Size" kvs 0%Z).
Definition meta_of (b : option json) : gmap string (list string) :=
  match b ≫= unmarshal_as (decode_list decode_image_item ("", [])) [] with
  | None => ∅
  | Some l => foldl (λ m kv, <[without_sha256 kv.1 := kv.2]> m) ∅ l
  end.
Definition imageList (range : gmap string (list string) → list (string * list string)) (filterUID : Z) (filterUser : string) (showAll : bool)
    (d : OwnershipDB) : CtlError + list ImageLine :=
  match (if (filterUID ==z 0) && (filterUser !=s "") then resolveIdent filterUser "" else inr filterUID) with
  | inl e => inl e
  | inr uid =>
    let meta := meta_of (docker_get docker "/images/json?all=true") in
    match listed_rows uid d with
    | inl e => inl (DatabaseFailed e)
    | inr rows => inr (List.filter (λ l, showAll || (il_repo l !=s "<none>")) (image_line range meta <$> rows))
    end
  end.

(** ** Volumes of containers *)

(** [--uid] is -2 when it is not given; without [--user] everybody is meant. *)
Definition granted_uid (uid : Z) (userName : string) : CtlError + Z :=
  if uid !=z (-2) then inr uid else if userName !=s "" then resolveIdent userName "" else inr all_users.
(** The real user behind sudo, for the record. *)
Definition granting_uid (Getuid : Z) (SUDO_UID : string) : Z :=
  if (Getuid ==z 0) && (SUDO_UID !=s "") then default Getuid (atoi SUDO_UID) else Getuid.

Definition volumesFromAllow (Getuid : Z) (SUDO_UID container userName : string) (uid : Z) (d : OwnershipDB)
    : option CtlError * OwnershipDB :=
  if container ==s "" then (Some ContainerMissing, d) else
  let containerID := default container (resolveContainerID container) in
  match granted_uid uid userName with
  | inl e => (Some e, d)
  | inr granteeUID =>
    let '(err, d) := GrantVolumesFrom now containerID granteeUID (granting_uid Getuid SUDO_UID) d in (DatabaseFailed <$> err, d)
  end.

Definition volumesFromDeny (container userName : string) (uid : Z) (all : bool) (d : OwnershipDB) : option CtlError * OwnershipDB :=
  if container ==s "" then (Some ContainerMissing, d) else
  let containerID := default container (resolveContainerID container) in
  if all then let '(err, d) := RevokeVolumesFrom containerID all_grants d in (DatabaseFailed <$> err, d) else
  match granted_uid uid userName with
  | inl e => (Some e, d)
  | inr granteeUID => let '(err, d) := RevokeVolumesFrom containerID granteeUID d in (DatabaseFailed <$> err, d)
  end.

Definition volumesFromList (container : string) (d : OwnershipDB) : result (list VolumesFromRow) :=
  match ListVolumesFromGrants container d with
  | inr [] =>
    if container ==s "" then inr [] else
    match resolveContainerID container with
    | Some fullID => if fullID !=s container then ListVolumesFromGrants fullID d else inr []
    | None => inr []
    end
  | res => res
  end.

(** ** Commands *)

Inductive Command :=
| PeerMutate (allow : bool) (fl : PeerFlags)
| PeerList (uid : Z) (userName container : string)
| ImageSetPublic (public force : bool) (ref : string)
| ImageGrant (ref userArg : string)
| ImageList (uid : Z) (userName : string) (showAll : bool)
| VolumesFromAllow (container userName : string) (uid : Z)
| VolumesFromDeny (container userName : string) (uid : Z) (all : bool)
| VolumesFromList (container : string).

(** What a command sends to the daemon and makes of the database; whoever is not root
    is refused before the database is opened. *)
Definition run_command (Geteuid Getuid : Z) (SUDO_UID : string) (c : Command) (d : OwnershipDB)
    : list Call * OwnershipDB :=
  if Geteuid !=z 0 then ([], d) else
  match c with
  | PeerMutate allow fl => let '(_, calls, d) := peerMutate allow fl d in (calls, d)
  | ImageSetPublic public force ref => ([], (imageSetPublic public force ref d).2)
  | ImageGrant ref userArg => ([], (imageGrant ref userArg d).2)
  | VolumesFromAllow container userName uid => ([], (volumesFromAllow Getuid SUDO_UID container userName uid d).2)
  | VolumesFromDeny container userName uid all => ([], (volumesFromDeny container userName uid all d).2)
  | PeerList _ _ _ | ImageList _ _ _ | VolumesFromList _ => ([], d)
  end.
End ctl.

(** ** The listings of [--query] *)

(** The latest first. *)
Definition later {R} (created_at : R → Z) (a b : R) : Prop := (created_at b <= created_at a)%Z.
#[local] Instance later_dec {R} (created_at : R → Z) : RelDecision (later created_at).
Proof. intros a b. unfold later. apply _. Defined.
Definition latest_first {R} (created_at : R → Z) (l : list R) : list R :=
  merge_sort (later created_at) l.
Definition owned_by {R} (owner : R → string) (filterUser : string) (r : R) : bool := (filterUser ==s "") || (owner r ==s filterUser).
Definition queryImages (filterImage filterUser : string) (d : OwnershipDB) : result (list ImageRow) :=
  Query (λ d, List.filter (λ r,
      ((filterImage ==s "") || HasPrefix (i_image_id r) filterImage || HasPrefix (TrimPrefix (i_image_id r) "sha256:") filterImage) &&
      owned_by i_owner_username filterUser r)
    (latest_first i_created_at (images d))) d.
Definition queryContainers (filterUser : string) (d : OwnershipDB) : result (list ContainerRow) :=
  Query (λ d, List.filter (owned_by c_owner_username filterUser) (latest_first c_created_at (containers d))) d.
Definition queryNetworks (filterUser : string) (d : OwnershipDB) : result (list NetworkRow) :=
  Query (λ d, List.filter (owned_by n_owner_username filterUser) (latest_first n_created_at (networks d))) d.
Definition queryVolumes (filterUser : string) (d : OwnershipDB) : result (list VolumeRow) :=
  Query (λ d, List.filter (owned_by v_owner_username filterUser) (latest_first v_created_at (volumes d))) d.

(** ** Lemmas *)

(** Without wildcards LIKE with a [%] at the end is the comparison of beginnings the
    proxy's own search makes. *)
Lemma like_any s : like "%" s = true.
Proof. cbn. induction s as [|c s IH]; [done|]. cbn in *. done. Qed.
Definition no_wildcard (s : string) : bool := str_forallb (λ c, negb (Ascii.eqb c "%" || Ascii.eqb c "_")) s.
Lemma like_is_prefix short id : no_wildcard short = true → like (short +:+ "%") id = like_prefix short id.
Proof.
  unfold like_prefix. revert id. induction short as [|c short IH]; intros id H; [rewrite like_any; by destruct id|].
  cbn [no_wildcard str_forallb] in H. apply andb_true_iff in H as [Hc H]. apply negb_true_iff, orb_false_iff in Hc as [H1 H2].
  cbn [String.append like]. rewrite H1. destruct id as [|d id]; [done|]. rewrite H2. cbn [orb ToLowerASCII HasPrefix String.prefix].
  rewrite IH by done. unfold HasPrefix. cbn [String.prefix].
  destruct (Ascii.eqb_spec (ascii_lower c) (ascii_lower d)) as [->|Hne]; cbn [andb].
  - by destruct (ascii_dec (ascii_lower d) (ascii_lower d)).
  - by destruct (ascii_dec (ascii_lower c) (ascii_lower d)).
Qed.

Section commands.
Context (user_Lookup : string → option string) (daemon : PeerDaemon) (now : Z).

Lemma AllowNetworkPeer_db a b opts d :
  (AllowNetworkPeer daemon now a b opts d).2 = d ∨
  ∃ net, (AllowNetworkPeer daemon now a b opts d).2 = (AddNetworkPeer now a b net (opt_ContainerIDA opts) (opt_ContainerIDB opts) d).2.
Proof.
  unfold AllowNetworkPeer. cbv zeta. destruct (container_level opts && _); [by left|].
  destruct (if container_level opts then GetContainerPeer _ _ _ _ _ else _); [by left|].
  destruct (if container_level opts then CreateContainerPeerNetwork _ _ _ _ _ else _) as [net|]; [|by left]. right. exists net. by destruct (AddNetworkPeer _ _ _ _ _ _ _).
Qed.
Lemma DenyNetworkPeer_db a b opts d :
  (DenyNetworkPeer daemon a b opts d).2 = (RemoveNetworkPeer a b (opt_ContainerIDA opts) (opt_ContainerIDB opts) d).2.
Proof.
  unfold DenyNetworkPeer. destruct (RemoveNetworkPeer _ _ _ _ _) as [[nets err] d']. by repeat case_match.
Qed.

(** What gets through the checks of [peer allow] and [deny]. *)
Lemma peerMutate_cases allow fl d :
  (∃ e, peerMutate user_Lookup daemon now allow fl d = (Some e, [], d)) ∨
  ∃ a b, resolveIdent user_Lookup (or_else (fl_uidA fl) (fl_userA fl)) "a" = inr a ∧
    resolveIdent user_Lookup (or_else (fl_uidB fl) (fl_userB fl)) "b" = inr b ∧ a ≠ b ∧
    (fl_contA fl = "" ↔ fl_contB fl = "") ∧
    (fl_contA fl ≠ "" → checkContainerOwner daemon (fl_contA fl) a d = None ∧ checkContainerOwner daemon (fl_contB fl) b d = None) ∧
    peerMutate user_Lookup daemon now allow fl d = peer_command daemon now allow a b (mkPeerOptions (fl_contA fl) (fl_contB fl)) d.
Proof.
  unfold peerMutate. destruct (resolveIdent _ _ "a") as [e|a]; [left; eauto|]. destruct (resolveIdent _ _ "b") as [e|b]; [left; eauto|].
  destruct (a ==z b) eqn:Hab; [left; eauto|]. apply Z.eqb_neq in Hab.
  destruct (String.eqb_spec (fl_contA fl) ""), (String.eqb_spec (fl_contB fl) ""); cbn [Bool.eqb negb]; try (left; eauto; done).
  - right. exists a, b. by rewrite e.
  - destruct (checkContainerOwner daemon (fl_contA fl) a d) eqn:H1; [left; eauto|].
    destruct (checkContainerOwner daemon (fl_contB fl) b d) eqn:H2; [left; eauto|]. right. exists a, b. by split_and!.
Qed.

Lemma checkContainerOwner_owned c uid d :
  checkContainerOwner daemon c uid d = None →
  ∃ o cid, (cid = c ∨ resolveContainerID daemon c = Some cid) ∧ GetContainerOwner cid d = Some o ∧ oi_UID o = uid.
Proof.
  unfold checkContainerOwner. destruct (resolveContainerID daemon c) as [full|]; [|done].
  destruct (GetContainerOwner full d) as [o|] eqn:E.
  - destruct (oi_UID o !=z uid) eqn:Hu; [done|]. bool_hyps. intros _. eauto 6.
  - destruct (GetContainerOwner c d) as [o|] eqn:E2; [|done]. destruct (oi_UID o !=z uid) eqn:Hu; [done|]. bool_hyps. intros _. eauto 6.
Qed.

(** Containers are joined for their owners only.  Where the tool changes anything,
    or asks the daemon for anything, for two containers, the records give the one to the
    first user and the other to the second, and the users are two. *)
Theorem joined_containers_belong allow fl d e calls d' :
  peerMutate user_Lookup daemon now allow fl d = (e, calls, d') → fl_contA fl ≠ "" → calls ≠ [] ∨ d' ≠ d →
  ∃ a b oa ob ca cb, a ≠ b ∧
    resolveIdent user_Lookup (or_else (fl_uidA fl) (fl_userA fl)) "a" = inr a ∧
    resolveIdent user_Lookup (or_else (fl_uidB fl) (fl_userB fl)) "b" = inr b ∧
    (ca = fl_contA fl ∨ resolveContainerID daemon (fl_contA fl) = Some ca) ∧ GetContainerOwner ca d = Some oa ∧ oi_UID oa = a ∧
    (cb = fl_contB fl ∨ resolveContainerID daemon (fl_contB fl) = Some cb) ∧ GetContainerOwner cb d = Some ob ∧ oi_UID ob = b.
Proof.
  intros H Hc Hch. destruct (peerMutate_cases allow fl d) as [[e' He]|(a & b & Ha & Hb & Hab & _ & Hown & _)].
  - rewrite He in H. simplify_eq. by destruct Hch.
  - destruct (Hown Hc) as [(oa & ca & Hca & Hoa & Hua)%checkContainerOwner_owned (ob & cb & Hcb & Hob & Hub)%checkContainerOwner_owned].
    exists a, b, oa, ob, ca, cb. by split_and!.
Qed.

Lemma peer_command_step allow a b opts d :
  (peer_command daemon now allow a b opts d).2 = d ∨ db_step d (peer_command daemon now allow a b opts d).2.
Proof.
  unfold peer_command. destruct allow.
  - pose proof (AllowNetworkPeer_db a b opts d) as H. destruct (AllowNetworkPeer _ _ _ _ _ _) as [[err calls] d']. cbn [snd] in *.
    destruct H as [->|[net ->]]; [by left|right; constructor].
  - pose proof (DenyNetworkPeer_db a b opts d) as H. destruct (DenyNetworkPeer _ _ _ _ _) as [[err calls] d']. cbn [snd] in H. subst d'.
    right. destruct err as [[]|]; cbn [snd]; constructor.
Qed.

Lemma set_public_step id public d : db_step d (SetImagePublic id public d).2.
Proof. apply (step_image d (OpSetImagePublic id public)). Qed.
Lemma ensure_access_step id uid d : db_step d (EnsureImageAccess id uid d).2.
Proof. apply (step_image d (OpEnsureImageAccess id uid)). Qed.

(** The tool is root's, and works on the database like the proxy.  A command of anybody
    else does nothing; one of root's is a step of the database's methods at most, so
    it keeps whatever they keep, the well-formedness of the tables among it. *)
Theorem commands_are_steps Geteuid Getuid SUDO_UID c d :
  (Geteuid ≠ 0%Z → run_command user_Lookup daemon now Geteuid Getuid SUDO_UID c d = ([], d)) ∧
  ((run_command user_Lookup daemon now Geteuid Getuid SUDO_UID c d).2 = d ∨
   db_step d (run_command user_Lookup daemon now Geteuid Getuid SUDO_UID c d).2) ∧
  (reachable d → db_wf (run_command user_Lookup daemon now Geteuid Getuid SUDO_UID c d).2).
Proof.
  assert (Hstep : (run_command user_Lookup daemon now Geteuid Getuid SUDO_UID c d).2 = d ∨
    db_step d (run_command user_Lookup daemon now Geteuid Getuid SUDO_UID c d).2).
  { unfold run_command. destruct (Geteuid !=z 0); [by left|]. destruct c as [allow fl|u n c|public force ref|ref ua|u n sh|c n u|c n u all|c]; try by left.
    - destruct (peerMutate_cases allow fl d) as [[e ->]|(a & b & _ & _ & _ & _ & _ & ->)]; [by left|].
      pose proof (peer_command_step allow a b (mkPeerOptions (fl_contA fl) (fl_contB fl)) d) as H. by destruct (peer_command _ _ _ _ _ _ _) as [[? ?] ?].
    - unfold imageSetPublic. cbn [snd]. destruct (image_of_ref daemon ref d) as [i|]; [|by left].
      pose proof (set_public_step i public d) as H. destruct (SetImagePublic i public d) as [[e|] d']; cbn [snd] in H;
        (destruct (negb public && negb force); [|by right]); (destruct (GetImageRefUsers i d); [by left|]);
        destruct (other_referrers _ _ _); solve [by left|by right].
    - unfold imageGrant. cbn [snd]. case_match; [by left|]. destruct (image_of_ref daemon ref d) as [i|]; [|by left].
      pose proof (ensure_access_step i (grantee user_Lookup ua) d) as Hs. destruct (EnsureImageAccess i _ d) as [[e|] d']; by right.
    - unfold volumesFromAllow. cbn [snd]. case_match; [by left|]. destruct (granted_uid user_Lookup u n) as [e|g]; [by left|].
      right. set (cid := default c _). pose proof (step_GrantVolumesFrom d now cid g (granting_uid Getuid SUDO_UID)) as Hs.
      by destruct (GrantVolumesFrom _ _ _ _ _) as [? ?].
    - unfold volumesFromDeny. cbn [snd]. case_match; [by left|]. set (cid := default c _). destruct all.
      { pose proof (step_RevokeVolumesFrom d cid all_grants) as Hs. destruct (RevokeVolumesFrom _ _ _) as [? ?]. by right. }
      destruct (granted_uid user_Lookup u n) as [e|g]; [by left|]. pose proof (step_RevokeVolumesFrom d cid g) as Hs.
      destruct (RevokeVolumesFrom _ _ _) as [? ?]. by right. }
  split_and!; [|done|].
  - intros He%Z.eqb_neq. unfold run_command. by rewrite He.
  - intros Hr. apply reachable_wf. destruct Hstep as [->|Hs]; [done|]. by eapply rtc_r.
Qed.

(** An image is made private under nobody's feet.  Without [--force] the tool makes an
    image private exactly when nobody but its owner refers to it, and otherwise
    changes nothing and says who does. *)
Theorem private_image_has_no_referrers ref id o pub priv d :
  writes_left d = None → image_of_ref daemon ref d = Some id → GetImageOwner id d = Some (o, pub, priv) →
  let others a := a ∈ image_access d ∧ a_image_id a = normalizeImageID id ∧ a_user_uid a ≠ oi_UID o in
  ((∃ a, others a) → ∃ us, imageSetPublic daemon false false ref d = (inr (StillReferenced us), d) ∧
     ∀ u, u ∈ us ↔ ∃ a, others a ∧ a_user_uid a = u) ∧
  ((¬ ∃ a, others a) → imageSetPublic daemon false false ref d =
     (inr (MarkedAs id false), (SetImagePublic id false d).2)).
Proof.
  intros Hw Hid Ho others. set (refs := a_user_uid <$> tbl_select (refs_image (normalizeImageID id)) (image_access d)).
  assert (GetImageRefUsers id d = inr refs) as Hq by (unfold GetImageRefUsers, Query; by rewrite healthy_up).
  assert (Hin : ∀ u, u ∈ other_referrers id refs d ↔ ∃ a, others a ∧ a_user_uid a = u).
  { intros u. unfold other_referrers, others, refs. rewrite list_elem_of_In, List.filter_In, <- list_elem_of_In, list_elem_of_fmap, Ho.
    unfold tbl_select. setoid_rewrite list_elem_of_In. setoid_rewrite List.filter_In. unfold refs_image. split.
    - intros [(a & -> & Ha & Hi%String.eqb_eq) Hu]. bool_hyps. exists a. by split_and!.
    - intros (a & (Ha & Hi & Hu) & <-). split; [exists a; split_and!; [done..|by apply String.eqb_eq]|]. by apply negb_true_iff, Z.eqb_neq. }
  unfold imageSetPublic. rewrite Hid, Hq. cbn [negb andb]. split.
  - intros (a & Ha). destruct (other_referrers id refs d) as [|u us] eqn:E.
    { exfalso. apply (not_elem_of_nil (a_user_uid a)). rewrite Hin. eauto. }
    exists (u :: us). by split.
  - intros Hno. destruct (other_referrers id refs d) as [|u us] eqn:E.
    + assert ((SetImagePublic id false d).1 = None) as H1 by (unfold SetImagePublic, Exec; by rewrite Hw).
      destruct (SetImagePublic id false d) as [e d']. cbn in H1. by subst e.
    + destruct Hno. assert (u ∈ u :: us) as H by left. rewrite Hin in H. destruct H as (a & Ha & _). by exists a.
Qed.
End commands.

(** ** Examples *)

Module CtlDemo.
(** The daemon knows two containers and the image of [ImageDemo]. *)
Definition docker : Docker :=
  mkDocker (λ path,
      if path ==s "/containers/web/json" then Some (JObj [("Id", JStr "aa11")])
      else if path ==s "/containers/dbc/json" then Some (JObj [("Id", JStr "bb22")])
      else if path ==s "/images/app/json" then Some (JObj [("Id", JStr ImageDemo.digest)]) else None)
    (λ _, None) (λ _, Some (JObj [("Id", JStr "net9")])).
Definition daemon : PeerDaemon := mkPeerDaemon docker (λ _, None) map_to_list.
Definition users (name : string) : option string :=
  if name ==s "alice" then Some "1001" else if name ==s "bob" then Some "1002" else None.
Definition db : OwnershipDB :=
  (SetContainerOwner 1 "aa11" ImageDemo.alice "" (SetContainerOwner 1 "bb22" ImageDemo.bob "" ImageDemo.db).2).2.
Definition flags : PeerFlags := mkPeerFlags "alice" "1002" "" "" "web" "dbc".

Example joined :
  (peerMutate users daemon 5 true flags db).1 = (None, [Connect "web" "net9"; Connect "dbc" "net9"]).
Proof. vm_compute. reflexivity. Qed.
Example swapped :
  (peerMutate users daemon 5 true (mkPeerFlags "bob" "alice" "" "" "web" "dbc") db).1 = (Some (BelongsTo "web" 1001), []).
Proof. vm_compute. reflexivity. Qed.
Example untagged_hidden :
  imageList users daemon map_to_list 0 "alice" false (imageGrant users daemon "app" "alice" db).2 = inr [].
Proof. vm_compute. reflexivity. Qed.
End CtlDemo.

Lemma joined_containers_belong_witness :
  ∃ o, GetContainerOwner "aa11" CtlDemo.db = Some o ∧ oi_UID o = 1001%Z.
Proof.
  assert (peerMutate CtlDemo.users CtlDemo.daemon 5 true CtlDemo.flags CtlDemo.db =
    (None, [Connect "web" "net9"; Connect "dbc" "net9"], (peerMutate CtlDemo.users CtlDemo.daemon 5 true CtlDemo.flags CtlDemo.db).2)) as E
    by (rewrite <- CtlDemo.joined; apply surjective_pairing).
  destruct (joined_containers_belong _ _ _ _ _ _ _ _ _ E ltac:(done) ltac:(by left)) as (a & b & oa & ob & ca & cb & _ & Ha & _ & Hca & Hoa & Hu & _).
  exists oa. assert (a = 1001%Z) as -> by (vm_compute in Ha; by injection Ha). split; [|done].
  destruct Hca as [->|Hca]; [by vm_compute in Hoa|]. assert (ca = "aa11") as -> by (vm_compute in Hca; by injection Hca). done.
Defined.

Lemma commands_are_steps_witness :
  run_command CtlDemo.users CtlDemo.daemon 5 1001 1001 "" (ImageGrant "app" "alice") CtlDemo.db = ([], CtlDemo.db) ∧
  db_wf (run_command CtlDemo.users CtlDemo.daemon 5 0 0 "1001" (VolumesFromAllow "web" "bob" (-2)) initSchema).2.
Proof.
  split.
  - by apply (commands_are_steps CtlDemo.users CtlDemo.daemon 5 1001 1001 "" (ImageGrant "app" "alice") CtlDemo.db).
  - apply (commands_are_steps CtlDemo.users CtlDemo.daemon 5 0 0 "1001" (VolumesFromAllow "web" "bob" (-2)) initSchema), rtc_refl.
Defined.

Lemma private_image_has_no_referrers_witness :
  ∃ us, imageSetPublic CtlDemo.daemon false false "app" CtlDemo.db = (inr (StillReferenced us), CtlDemo.db) ∧ 1001%Z ∈ us.
Proof.
  assert (image_of_ref CtlDemo.daemon "app" CtlDemo.db = Some ImageDemo.long) as H1 by (vm_compute; reflexivity).
  assert (∃ o pub priv, GetImageOwner ImageDemo.long CtlDemo.db = Some (o, pub, priv) ∧ oi_UID o = 1002%Z) as (o & pub & priv & H2 & Hu)
    by (eexists _, _, _; split; vm_compute; reflexivity).
  assert (∃ a, a ∈ image_access CtlDemo.db ∧ a_image_id a = normalizeImageID ImageDemo.long ∧ a_user_uid a = 1001%Z) as (a & Ha & Hi & Hau).
  { exists (mkImageAccessRow ImageDemo.long 1001 0). split; [|split; vm_compute; reflexivity]. vm_compute. repeat constructor. }
  destruct (proj1 (private_image_has_no_referrers CtlDemo.daemon "app" ImageDemo.long o pub priv CtlDemo.db eq_refl H1 H2)) as (us & Hus & Hin).
  { exists a. split_and!; [done..|]. rewrite Hau, Hu. done. }
  exists us. split; [done|]. apply Hin. exists a. split_and!; try done. rewrite Hau, Hu. done.
Defined.
