(* ===== verification/CommandLine.v ===== *)
(** * CommandLine: the administrator's tool from its arguments

    [main] of [cmd/ctl/main.go] (40-75), the groups [peer], [image] and [volumes-from]
    (148-196, 447-497, 921-987) and the options of each command, down to the commands of
    Ctl: what an argument vector does, and with which status the tool ends.  The
    [flag] package of the standard library is modelled with the numbers and truth values
    it reads ([strconv.ParseInt] with base 0, [strconv.ParseBool]).  The database files and
    the daemons by the paths of their sockets are parameters; what is written to the
    standard outputs is left out. *)

From S2P Require Import Prelude GoStrings GoJson GoJsonText Docker OsLookup Identity Names Tables Database ImageDB ResourceDB DbReach.
From S2P Require Import Storage Bodies Bridge Peers Ctl.

(** ** Numbers and truth values *)

Definition digit_value (c : ascii) : option Z :=
  if is_digit c then Some (digit_val c) else
  let n := N_of_ascii (ascii_lower c) in
  if (97 <=? n)%N && (n <=? 122)%N then Some (Z.of_N n - 87)%Z else None.
Definition radix_mark (c : ascii) : option Z :=
  let l := ascii_lower c in
  if Ascii.eqb l "b" then Some 2%Z else if Ascii.eqb l "o" then Some 8%Z else if Ascii.eqb l "x" then Some 16%Z else None.

(** The base a number announces, and its digits; a leading zero announces octal. *)
Definition base_prefix (s : string) : Z * string :=
  match s with
  | String "0" t =>
    match t with
    | String c (String _ _ as ds) => match radix_mark c with Some base => (base, ds) | None => (8%Z, t) end
    | _ => (8%Z, t)
    end
  | _ => (10%Z, s)
  end.
Fixpoint digits_in (base acc : Z) (s : string) : option Z :=
  match s with
  | "" => Some acc
  | String c s =>
    if Ascii.eqb c "_" then digits_in base acc s else
    match digit_value c with
    | None => None
    | Some d =>
      if (base <=? d)%Z then None else
      let v := (acc * base + d)%Z in if (uint64_max <? v)%Z then None else digits_in base v s
    end
  end.

(** Underscores separate digits; the prefix counts as one.  [saw] is the class of the
    character before, [^] at the beginning. *)
Fixpoint underscores_ok (hex : bool) (saw : ascii) (s : string) : bool :=
  match s with
  | "" => negb (Ascii.eqb saw "_")
  | String c s =>
    if is_digit c || (hex && is_hex c) then underscores_ok hex "0" s
    else if Ascii.eqb c "_" then Ascii.eqb saw "0" && underscores_ok hex "_" s
    else negb (Ascii.eqb saw "_") && underscores_ok hex "!" s
  end.
Definition underscoreOK (s : string) : bool :=
  match s with
  | String "0" (String c t) =>
    match radix_mark c with Some base => underscores_ok (base ==z 16) "0" t | None => underscores_ok false "^" s end
  | _ => underscores_ok false "^" s
  end.

(** [strconv.ParseUint(s, 0, 64)] and [strconv.ParseInt(s, 0, 64)]; [None] is an error. *)
Definition ParseUint0 (s : string) : option Z :=
  if s ==s "" then None else
  let '(base, ds) := base_prefix s in
  match digits_in base 0 ds with
  | Some v => if underscoreOK s then Some v else None
  | None => None
  end.
Definition ParseInt0 (s : string) : option Z :=
  let '(neg, ds) :=
    match s with String "-" t => (true, t) | String "+" t => (false, t) | _ => (false, s) end in
  match ParseUint0 ds with
  | None => None
  | Some un => let v := if neg : bool then (- un)%Z else un in if decide (in_int64 v) then Some v else None
  end.
Definition ParseBool (s : string) : option bool :=
  if bool_decide (s ∈ ["1"; "t"; "T"; "TRUE"; "true"; "True"]) then Some true
  else if bool_decide (s ∈ ["0"; "f"; "F"; "FALSE"; "false"; "False"]) then Some false
  else None.

Example ParseInt0_ex : ParseInt0 <$> ["010"; "0x1F"; "1_000"; "-7"; "1__0"; "08"; "_1"; "0x_1"; "0"; "-9223372036854775808"] =
  [Some 8; Some 31; Some 1000; Some (-7); None; None; None; Some 1; Some 0; Some (-9223372036854775808)]%Z.
Proof. vm_compute. reflexivity. Qed.

(** ** The flag package *)

(** A flag with its value, the default until it is set. *)
Inductive FlagValue := FString (s : string) | FInt (z : Z) | FBool (b : bool).
Definition FlagSet : Type := list (string * FlagValue).
Inductive FlagError := ErrHelp | BadSyntax (arg : string) | NotDefined (name : string) | NeedsArgument (name : string) | InvalidValue (name value : string).

Definition Lookup (name : string) (fs : FlagSet) : option FlagValue := snd <$> find_first (λ kv, kv.1 ==s name) fs.
Definition Assign (name : string) (v : FlagValue) (fs : FlagSet) : FlagSet :=
  (λ kv, if kv.1 ==s name then (kv.1, v) else kv) <$> fs.
(** [Value.Set]. *)
Definition Set_value (v : FlagValue) (s : string) : option FlagValue :=
  match v with
  | FString _ => Some (FString s)
  | FInt _ => FInt <$> ParseInt0 s
  | FBool _ => FBool <$> ParseBool s
  end.
Definition IsBoolFlag (v : FlagValue) : bool := match v with FBool _ => true | _ => false end.
Definition GetString (name : string) (fs : FlagSet) : string := match Lookup name fs with Some (FString s) => s | _ => "" end.
Definition GetInt (name : string) (fs : FlagSet) : Z := match Lookup name fs with Some (FInt z) => z | _ => 0%Z end.
Definition GetBool (name : string) (fs : FlagSet) : bool := match Lookup name fs with Some (FBool b) => b | _ => false end.

(** A flag's name with the value behind its first [=] that does not begin it. *)
Definition name_value (s : string) : string * option string :=
  match s with
  | "" => ("", None)
  | String c t => match Cut1 "=" t with Some (n, v) => (String c n, Some v) | None => (s, None) end
  end.
(** What an argument is to the parser. *)
Inductive Arg := Positional | Terminator | Malformed | Flagged (name : string) (value : option string).
Definition classify_arg (s : string) : Arg :=
  if (slen s <? 2)%nat || negb (HasPrefix s "-") then Positional else
  if s ==s "--" then Terminator else
  let name := if HasPrefix s "--" then str_drop 2 s else str_drop 1 s in
  if HasPrefix name "-" || HasPrefix name "=" then Malformed
  else let '(n, v) := name_value name in Flagged n v.

(** [FlagSet.Parse]: the flags set and the arguments left. *)
Definition set_flag (name value : string) (old : FlagValue) (fs : FlagSet) : FlagError + FlagSet :=
  match Set_value old value with Some v => inr (Assign name v fs) | None => inl (InvalidValue name value) end.
Fixpoint Parse (fs : FlagSet) (args : list string) : FlagError + (FlagSet * list string) :=
  match args with
  | [] => inr (fs, [])
  | s :: rest =>
    match classify_arg s with
    | Positional => inr (fs, args)
    | Terminator => inr (fs, rest)
    | Malformed => inl (BadSyntax s)
    | Flagged name value =>
      match Lookup name fs with
      | None => inl (if (name ==s "help") || (name ==s "h") then ErrHelp else NotDefined name)
      | Some old =>
        if IsBoolFlag old then
          match set_flag name (default "true" value) old fs with inl e => inl e | inr fs => Parse fs rest end
        else
          match value with
          | Some v => match set_flag name v old fs with inl e => inl e | inr fs => Parse fs rest end
          | None =>
            match rest with
            | [] => inl (NeedsArgument name)
            | v :: rest => match set_flag name v old fs with inl e => inl e | inr fs => Parse fs rest end
            end
          end
      end
    end
  end.

(** ** The options of each command *)

(** What the arguments behind a sub-command ask for. *)
Inductive Asked := Help | Wrong (e : FlagError) | MissingOperand | Runs (c : Command).
Definition with_flags (fs : FlagSet) (args : list string) (k : FlagSet → list string → Asked) : Asked :=
  match Parse fs args with
  | inl ErrHelp => Help
  | inl e => Wrong e
  | inr (fs, rest) => k fs rest
  end.

Definition peer_flags : FlagSet :=
  [("uid-a", FString ""); ("uid-b", FString ""); ("user-a", FString ""); ("user-b", FString "");
   ("container-a", FString ""); ("container-b", FString "")].
Definition peer_mutate_args (allow : bool) (args : list string) : Asked :=
  with_flags peer_flags args (λ fs _, Runs (PeerMutate allow
    (mkPeerFlags (GetString "uid-a" fs) (GetString "uid-b" fs) (GetString "user-a" fs) (GetString "user-b" fs)
                 (GetString "container-a" fs) (GetString "container-b" fs)))).
Definition peer_list_flags : FlagSet := [("uid", FInt 0); ("user", FString ""); ("container", FString "")].
Definition peer_list_args (args : list string) : Asked :=
  with_flags peer_list_flags args (λ fs _, Runs (PeerList (GetInt "uid" fs) (GetString "user" fs) (GetString "container" fs))).

Definition set_public_flags : FlagSet := [("public", FBool true); ("force", FBool false)].
Definition image_set_public_args (args : list string) : Asked :=
  with_flags set_public_flags args (λ fs rest,
    match rest with
    | [] => MissingOperand
    | ref :: _ => Runs (ImageSetPublic (GetBool "public" fs) (GetBool "force" fs) ref)
    end).
Definition image_grant_args (args : list string) : Asked :=
  with_flags [] args (λ _ rest,
    match rest with
    | ref :: userArg :: _ => Runs (ImageGrant ref userArg)
    | _ => MissingOperand
    end).
Definition image_list_flags : FlagSet := [("uid", FInt 0); ("user", FString ""); ("all", FBool false)].
Definition image_list_args (args : list string) : Asked :=
  with_flags image_list_flags args (λ fs _, Runs (ImageList (GetInt "uid" fs) (GetString "user" fs) (GetBool "all" fs))).

Definition volumes_from_allow_flags : FlagSet := [("container", FString ""); ("user", FString ""); ("uid", FInt (-2))].
Definition volumes_from_allow_args (args : list string) : Asked :=
  with_flags volumes_from_allow_flags args (λ fs _,
    Runs (VolumesFromAllow (GetString "container" fs) (GetString "user" fs) (GetInt "uid" fs))).
Definition volumes_from_deny_flags : FlagSet :=
  [("container", FString ""); ("user", FString ""); ("uid", FInt (-2)); ("all", FBool false)].
Definition volumes_from_deny_args (args : list string) : Asked :=
  with_flags volumes_from_deny_flags args (λ fs _,
    Runs (VolumesFromDeny (GetString "container" fs) (GetString "user" fs) (GetInt "uid" fs) (GetBool "all" fs))).
Definition volumes_from_list_flags : FlagSet := [("container", FString "")].
Definition volumes_from_list_args (args : list string) : Asked :=
  with_flags volumes_from_list_flags args (λ fs _, Runs (VolumesFromList (GetString "container" fs))).

(** ** Groups of commands *)

Inductive Group := PeerGroup | ImageGroup | VolumesFromGroup.
Definition group_of (name : string) : option Group :=
  if name ==s "peer" then Some PeerGroup
  else if name ==s "image" then Some ImageGroup
  else if name ==s "volumes-from" then Some VolumesFromGroup
  else None.
(** The sub-commands: [None] is an unknown one. *)
Definition subcommand (g : Group) (sub : string) (rest : list string) : option Asked :=
  match g with
  | PeerGroup =>
    if sub ==s "allow" then Some (peer_mutate_args true rest)
    else if sub ==s "deny" then Some (peer_mutate_args false rest)
    else if sub ==s "list" then Some (peer_list_args rest) else None
  | ImageGroup =>
    if sub ==s "set-public" then Some (image_set_public_args rest)
    else if sub ==s "list" then Some (image_list_args rest)
    else if sub ==s "grant" then Some (image_grant_args rest) else None
  | VolumesFromGroup =>
    if sub ==s "allow" then Some (volumes_from_allow_args rest)
    else if sub ==s "deny" then Some (volumes_from_deny_args rest)
    else if sub ==s "list" then Some (volumes_from_list_args rest) else None
  end.

Section tool.
Context (user_Lookup : string → option string) (now : Z) (Geteuid Getuid : Z) (SUDO_UID : string).
(** The order in which a Go map of images is gone over. *)
Context (range : gmap string (list string) → list (string * list string)).
(** What is behind a path: the daemon that listens there, and the database
    [NewOwnershipDB] opens, if it can be. *)
Context (daemons : string → PeerDaemon) (NewOwnershipDB : string → option OwnershipDB).

(** The error a command ends with. *)
Definition left_of {A} (x : CtlError + A) : option CtlError := match x with inl e => Some e | inr _ => None end.
Definition command_error (daemon : PeerDaemon) (c : Command) (d : OwnershipDB) : option CtlError :=
  match c with
  | PeerMutate allow fl => let '(err, _, _) := peerMutate user_Lookup daemon now allow fl d in err
  | PeerList uid userName container => left_of (peerList user_Lookup uid userName container d)
  | ImageSetPublic public force ref => left_of (imageSetPublic daemon public force ref d).1
  | ImageGrant ref userArg => left_of (imageGrant user_Lookup daemon ref userArg d).1
  | ImageList uid userName showAll => left_of (imageList user_Lookup daemon range uid userName showAll d)
  | VolumesFromAllow container userName uid => (volumesFromAllow user_Lookup daemon now Getuid SUDO_UID container userName uid d).1
  | VolumesFromDeny container userName uid all => (volumesFromDeny user_Lookup daemon container userName uid all d).1
  | VolumesFromList container => match volumesFromList daemon container d with inl e => Some (DatabaseFailed e) | inr _ => None end
  end.

(** How a run of the tool ends: its status, what it sent to the daemon, and the
    database it worked on, with its path, if it opened one. *)
Record Outcome := mkOutcome { exit_status : Z; sent : list Call; worked_on : option (string * OwnershipDB) }.
Definition exits (status : Z) : Outcome := mkOutcome status [] None.
Definition command_outcome (dbPath upstreamSock : string) (c : Command) (d : OwnershipDB) : Outcome :=
  let '(calls, d') := run_command user_Lookup (daemons upstreamSock) now Geteuid Getuid SUDO_UID c d in
  mkOutcome (match command_error (daemons upstreamSock) c d with Some _ => 1%Z | None => 0%Z end) calls (Some (dbPath, d')).

(** [peerCmd], [imageCmd] and [volumesFromCmd]: the help is anybody's, the rest is
    root's; the options of the command are read when the database is open. *)
Definition groupCmd (dbPath upstreamSock : string) (g : Group) (args : list string) : Outcome :=
  match args with
  | [] => exits 0
  | sub :: rest =>
    if (sub ==s "-h") || (sub ==s "--help") then exits 0 else
    if Geteuid !=z 0 then exits 1 else
    match NewOwnershipDB dbPath with
    | None => exits 1
    | Some d =>
      match subcommand g sub rest with
      | Some Help => mkOutcome 0 [] (Some (dbPath, d))
      | Some (Runs c) => command_outcome dbPath upstreamSock c d
      | None | Some (Wrong _) | Some MissingOperand => mkOutcome 1 [] (Some (dbPath, d))
      end
    end
  end.

(** The global flags end the program themselves: with 0 for the help, 2 for an error. *)
Definition global_flags : FlagSet :=
  [("db", FString "/var/lib/docker-authz/owners.db"); ("upstream", FString "/var/run/docker.sock")].
Definition main (argv : list string) : Outcome :=
  match Parse global_flags argv with
  | inl ErrHelp => exits 0
  | inl _ => exits 2
  | inr (_, []) => exits 1
  | inr (fs, name :: args) =>
    match group_of name with
    | None => exits 1
    | Some g => groupCmd (GetString "db" fs) (GetString "upstream" fs) g args
    end
  end.
End tool.

(** ** Lemmas: numbers *)

Lemma digit_val_bounds c : is_digit c = true → (0 <= digit_val c < 10)%Z.
Proof. unfold is_digit, digit_val. intros [H1%N.leb_le H2%N.leb_le]%andb_true_iff. lia. Qed.
Lemma digits_in_decimal acc s :
  (0 <= acc)%Z → str_forallb is_digit s = true → (decimal acc s <= uint64_max)%Z → digits_in 10 acc s = Some (decimal acc s).
Proof.
  assert (Hge : ∀ s acc, (0 <= acc)%Z → str_forallb is_digit s = true → (acc <= decimal acc s)%Z).
  { clear. induction s as [|c s IH]; intros acc Ha Hs; cbn in *; [lia|]. apply andb_true_iff in Hs as [Hc Hs].
    pose proof (digit_val_bounds c Hc).
    specialize (IH (acc * 10 + digit_val c)%Z ltac:(lia) Hs). lia. }
  revert acc. induction s as [|c s IH]; intros acc Ha Hs Hd; [done|]. cbn in Hs. apply andb_true_iff in Hs as [Hc Hs].
  pose proof (digit_val_bounds c Hc).
  cbn [decimal digits_in] in *. destruct (Ascii.eqb_spec c "_") as [->|_]; [done|]. unfold digit_value. rewrite Hc.
  pose proof (Hge s (acc * 10 + digit_val c)%Z ltac:(lia) Hs) as Hle.
  destruct (10 <=? digit_val c)%Z eqn:E1; [lia|]. destruct (uint64_max <? _)%Z eqn:E2; [lia|]. apply IH; [lia|done..].
Qed.
Lemma underscores_ok_digits hex saw s : Ascii.eqb saw "_" = false → str_forallb is_digit s = true → underscores_ok hex saw s = true.
Proof.
  revert saw. induction s as [|c s IH]; intros saw Hsaw Hs; cbn in *; [by rewrite Hsaw|].
  apply andb_true_iff in Hs as [-> Hs]. by apply IH.
Qed.
Lemma base_prefix_ne0 s : HasPrefix s "0" = false → base_prefix s = (10%Z, s) ∧ underscoreOK s = underscores_ok false "^" s.
Proof.
  destruct s as [|c s]; [done|]. intros H. unfold base_prefix, underscoreOK.
  destruct c as [[] [] [] [] [] [] [] []]; try done. by destruct s.
Qed.
Lemma ParseUint0_Itoa z : (0 <= z <= uint64_max)%Z → ParseUint0 (Itoa z) = Some z.
Proof.
  intros Hz. destruct (decide (z = 0%Z)) as [->|]; [done|]. unfold ParseUint0. pose proof (Itoa_ne z) as Hne%String.eqb_neq. rewrite Hne.
  destruct (base_prefix_ne0 (Itoa z)) as [-> ->]; [apply Itoa_head; lia|]. pose proof (Itoa_digits z ltac:(lia)) as Hd.
  rewrite digits_in_decimal by (rewrite ?decimal_Itoa by lia; done || lia). rewrite decimal_Itoa by lia.
  by rewrite underscores_ok_digits.
Qed.

(** A number written in decimal is read as itself. *)
Lemma ParseInt0_Itoa z : in_int64 z → ParseInt0 (Itoa z) = Some z.
Proof.
  intros Hz. pose proof Hz as [H1 H2]. unfold int64_min, int64_max in *. destruct (decide (0 <= z)%Z) as [Hp|Hn].
  - unfold ParseInt0. pose proof (Itoa_digits z Hp) as Hd. pose proof (ParseUint0_Itoa z) as Hu. pose proof (Itoa_ne z) as Hne. unfold uint64_max in Hu.
    destruct (Itoa z) as [|c s]; [done|]. cbn in Hd. apply andb_true_iff in Hd as [Hc _].
    destruct c as [[] [] [] [] [] [] [] []]; try done; rewrite Hu by lia; by rewrite decide_True.
  - destruct z as [|p|p]; [lia..|]. change (Itoa (Z.neg p)) with (String "-" (Itoa (Z.pos p))). unfold ParseInt0.
    rewrite ParseUint0_Itoa by (unfold uint64_max; lia). by rewrite decide_True.
Qed.

(** ** Lemmas: options and their spellings *)

(** An option can be written with one dash or two, and its value behind [=] or, but for
    a truth value, as the next argument; a flag alone is [true]. *)
Inductive spells (old : FlagValue) (name value : string) : list string → Prop :=
| spells_glued dash : dash ∈ ["-"; "--"] → spells old name value [dash +:+ name +:+ "=" +:+ value]
| spells_apart dash : dash ∈ ["-"; "--"] → IsBoolFlag old = false → spells old name value [dash +:+ name; value]
| spells_bare dash : dash ∈ ["-"; "--"] → IsBoolFlag old = true → value = "true" → spells old name value [dash +:+ name].
Definition flag_name (n : string) : bool :=
  negb (n ==s "") && negb (HasPrefix n "-") && str_forallb (λ c, negb (Ascii.eqb c "=")) n.

(** The arguments [args] write the options [opts]. *)
Definition writes_option (fs : FlagSet) (o : string * string) (args : list string) : Prop :=
  ∃ old, Lookup o.1 fs = Some old ∧ spells old o.1 o.2 args ∧ is_Some (Set_value old o.2) ∧ flag_name o.1 = true.
Definition spelled (fs : FlagSet) (opts : list (string * string)) (args : list (list string)) : Prop :=
  Forall2 (writes_option fs) opts args.
(** What the options come to. *)
Definition set_option (fs : FlagSet) (o : string * string) : FlagSet :=
  match Lookup o.1 fs with
  | Some old => match Set_value old o.2 with Some v => Assign o.1 v fs | None => fs end
  | None => fs
  end.
Definition set_all (opts : list (string * string)) (fs : FlagSet) : FlagSet := foldl set_option fs opts.
(** What ends the options: nothing, [--], or an operand. *)
Definition operands (tail : list string) : option (list string) :=
  match tail with
  | [] => Some []
  | s :: rest => match classify_arg s with Positional => Some tail | Terminator => Some rest | _ => None end
  end.

Lemma Cut1_no_equals n : str_forallb (λ c, negb (Ascii.eqb c "=")) n = true → Cut1 "=" n = None.
Proof. induction n as [|c n IH]; [done|]. cbn. intros [Hc%negb_true_iff Hn]%andb_true_iff. by rewrite Hc, IH. Qed.
Lemma Cut1_equals n v : str_forallb (λ c, negb (Ascii.eqb c "=")) n = true → Cut1 "=" (n +:+ "=" +:+ v) = Some (n, v).
Proof. induction n as [|c n IH]; [done|]. cbn. intros [Hc%negb_true_iff Hn]%andb_true_iff. rewrite Hc. cbn in IH. by rewrite IH. Qed.
Lemma classify_name dash n x :
  dash ∈ ["-"; "--"] → flag_name n = true →
  classify_arg (dash +:+ n +:+ x) = let '(n, v) := name_value (n +:+ x) in Flagged n v.
Proof.
  unfold flag_name. intros Hd Hn. destruct n as [|c n]; [done|]. bool_hyps.
  assert (Ascii.eqb c "-" = false ∧ Ascii.eqb c "=" = false) as [E1 E2].
  { split; [|cbn in *; by bool_hyps]. destruct (Ascii.eqb_spec c "-") as [->|]; [|done]. by destruct n. }
  rewrite !elem_of_cons, elem_of_nil in Hd. destruct Hd as [->|[->|[]]];
    destruct c as [[] [] [] [] [] [] [] []]; try done; by destruct (n +:+ x).
Qed.
Lemma classify_flag dash n : dash ∈ ["-"; "--"] → flag_name n = true → classify_arg (dash +:+ n) = Flagged n None.
Proof.
  intros Hd Hn. pose proof (classify_name dash n "" Hd Hn) as H. rewrite app_nil_r_str in H. rewrite H.
  destruct n as [|c n]; [done|]. unfold flag_name in Hn. cbn in Hn. bool_hyps. cbn. by rewrite Cut1_no_equals.
Qed.
Lemma classify_glued dash n v :
  dash ∈ ["-"; "--"] → flag_name n = true → classify_arg (dash +:+ n +:+ "=" +:+ v) = Flagged n (Some v).
Proof.
  intros Hd Hn. rewrite classify_name by done. destruct n as [|c n]; [done|]. unfold flag_name in Hn. cbn in Hn. bool_hyps.
  pose proof (Cut1_equals n v ltac:(done)) as Hc. cbn in *. by rewrite Hc.
Qed.

Lemma Lookup_cons k v fs n : Lookup n ((k, v) :: fs) = if k ==s n then Some v else Lookup n fs.
Proof. unfold Lookup. cbn. by destruct (k ==s n). Qed.
Lemma Assign_cons n v k w fs : Assign n v ((k, w) :: fs) = (if k ==s n then (k, v) else (k, w)) :: Assign n v fs.
Proof. done. Qed.
Lemma Lookup_Assign n m v fs : Lookup n (Assign m v fs) = if n ==s m then (λ _, v) <$> Lookup n fs else Lookup n fs.
Proof.
  induction fs as [|[k w] fs IH]; [by destruct (n ==s m)|]. rewrite Assign_cons.
  destruct (String.eqb_spec k m) as [->|Hkm]; rewrite !Lookup_cons, IH.
  - destruct (String.eqb_spec m n) as [->|Hmn]; [by rewrite String.eqb_refl|done].
  - destruct (String.eqb_spec k n) as [->|Hkn]; [|done]. apply String.eqb_neq in Hkm. by rewrite Hkm.
Qed.
Lemma Assign_comm n m v w fs : n ≠ m → Assign n v (Assign m w fs) = Assign m w (Assign n v fs).
Proof.
  intros Hne. unfold Assign. rewrite <- !list_fmap_compose. apply list_fmap_ext. intros _ [k x] _. cbn.
  destruct (k ==s m) eqn:E1, (k ==s n) eqn:E2; cbn; rewrite ?E1, ?E2; try done.
  apply String.eqb_eq in E1, E2. congruence.
Qed.
Lemma Assign_same n v fs : Lookup n fs = Some v → NoDup (fst <$> fs) → Assign n v fs = fs.
Proof.
  induction fs as [|[k w] fs IH]; [done|]. rewrite Lookup_cons, Assign_cons. cbn [fst fmap list_fmap]. intros Hl [Hk Hnd]%NoDup_cons.
  destruct (String.eqb_spec k n) as [->|Hne]; [|by rewrite IH]. injection Hl as ->. f_equal. clear IH Hnd.
  induction fs as [|[k w] fs IH]; [done|]. cbn [fst fmap list_fmap] in Hk. rewrite not_elem_of_cons in Hk.
  destruct Hk as [Hne Hk]. by rewrite Assign_cons, (proj2 (String.eqb_neq k n)), IH.
Qed.

(** A flag keeps its kind. *)
Lemma Set_value_kind old s v : Set_value old s = Some v → IsBoolFlag v = IsBoolFlag old ∧ ∀ t, Set_value v t = Set_value old t.
Proof. destruct old; cbn; [intros [= <-]|destruct (ParseInt0 s); [intros [= <-]|done]|destruct (ParseBool s); [intros [= <-]|done]]; done. Qed.
Lemma Lookup_set_option fs o n old :
  Lookup n fs = Some old → ∃ new, Lookup n (set_option fs o) = Some new ∧ IsBoolFlag new = IsBoolFlag old ∧
    (∀ t, Set_value new t = Set_value old t) ∧ (n ≠ o.1 → new = old).
Proof.
  intros Hn. unfold set_option. destruct (Lookup o.1 fs) as [w|] eqn:Ho; [|by exists old].
  destruct (Set_value w o.2) as [v|] eqn:Hv; [|by exists old]. rewrite Lookup_Assign.
  destruct (String.eqb_spec n o.1) as [->|]; [|by exists old]. rewrite Hn in Ho |- *. simplify_eq. exists v.
  destruct (Set_value_kind _ _ _ Hv). by split_and!.
Qed.
Lemma writes_option_set fs o o' args : writes_option fs o args → writes_option (set_option fs o') o args.
Proof.
  intros (old & Hl & Hs & Hv & Hn). destruct (Lookup_set_option fs o' o.1 old Hl) as (new & Hl' & Hb & Hset & _).
  exists new. split_and!; [done| |by rewrite Hset|done]. inversion Hs; subst; by (constructor; rewrite ?Hb).
Qed.

Lemma Parse_operands fs tail rest : operands tail = Some rest → Parse fs tail = inr (fs, rest).
Proof. destruct tail as [|s tail]; cbn; [by intros [= <-]|]. destruct (classify_arg s); intros; by simplify_eq. Qed.
Lemma Parse_option fs o args rest : writes_option fs o args → Parse fs (args ++ rest) = Parse (set_option fs o) rest.
Proof.
  intros (old & Hl & Hs & [v Hv] & Hn). unfold set_option. rewrite Hl, Hv.
  destruct Hs as [dash Hd|dash Hd Hb|dash Hd Hb Ht]; cbn [app Parse].
  - rewrite classify_glued by done. rewrite Hl. unfold set_flag. cbn [from_option id]. rewrite Hv. by destruct (IsBoolFlag old).
  - rewrite classify_flag by done. rewrite Hl, Hb. unfold set_flag. by rewrite Hv.
  - rewrite classify_flag by done. rewrite Hl, Hb. unfold set_flag. cbn [from_option id]. rewrite Ht in Hv. by rewrite Hv.
Qed.
(** However options are written, they are read as what they come to. *)
Lemma Parse_spelled fs opts args tail rest :
  spelled fs opts args → operands tail = Some rest → Parse fs (concat args ++ tail) = inr (set_all opts fs, rest).
Proof.
  intros Hs Ht. revert fs args Hs. induction opts as [|o opts IH]; intros fs args Hs; inversion Hs as [|? a ? args' Ha Hargs]; subst; [by apply Parse_operands|].
  cbn [concat]. rewrite <- app_assoc, (Parse_option _ o) by done. apply (IH (set_option fs o)).
  eapply Forall2_impl; [exact Hargs|]. intros. by apply writes_option_set.
Qed.

(** The order of different options does not matter. *)
Lemma set_option_comm fs o o' : o.1 ≠ o'.1 → set_option (set_option fs o) o' = set_option (set_option fs o') o.
Proof.
  intros Hne. unfold set_option.
  destruct (Lookup o.1 fs) as [w|] eqn:E1, (Lookup o'.1 fs) as [w'|] eqn:E2; rewrite ?E1, ?E2;
    try destruct (Set_value w o.2) as [v|] eqn:V1; try destruct (Set_value w' o'.2) as [v'|] eqn:V2; rewrite ?E1, ?E2;
    rewrite ?Lookup_Assign, ?E1, ?E2, ?(proj2 (String.eqb_neq o.1 o'.1)), ?(proj2 (String.eqb_neq o'.1 o.1)) by done;
    rewrite ?V1, ?V2; try done. by apply Assign_comm.
Qed.
Lemma set_all_perm opts opts' fs : NoDup (fst <$> opts) → opts ≡ₚ opts' → set_all opts fs = set_all opts' fs.
Proof.
  intros Hnd Hp. revert fs Hnd. induction Hp as [|o l l' Hp IH|o o' l|l1 l2 l3 H1 IH1 H2 IH2]; intros fs Hnd; [done| | |].
  - cbn in *. apply NoDup_cons in Hnd as [_ Hnd]. by apply IH.
  - cbn in *. apply NoDup_cons in Hnd as [Hne _]. apply not_elem_of_cons in Hne as [Hne _]. unfold set_all. cbn. by rewrite set_option_comm.
  - rewrite IH1 by done. apply IH2. by rewrite <- H1.
Qed.
(** An option set to its default is as good as left out. *)
Definition is_default (fs : FlagSet) (o : string * string) : Prop := ∃ v, Lookup o.1 fs = Some v ∧ Set_value v o.2 = Some v.
Lemma set_all_defaults opts fs : NoDup (fst <$> fs) → Forall (is_default fs) opts → set_all opts fs = fs.
Proof.
  intros Hnd. induction 1 as [|o opts (v & Hl & Hv) _ IH]; [done|]. unfold set_all in *. cbn.
  assert (set_option fs o = fs) as -> by (unfold set_option; by rewrite Hl, Hv, Assign_same). done.
Qed.
Lemma set_all_left_out all opts left_out fs :
  NoDup (fst <$> fs) → NoDup (fst <$> all) → left_out ++ opts ≡ₚ all → Forall (is_default fs) left_out → set_all opts fs = set_all all fs.
Proof.
  intros Hf Hall Hp Hd. rewrite <- (set_all_perm (left_out ++ opts) all); [|by rewrite Hp|done].
  assert (set_all (left_out ++ opts) fs = set_all opts (set_all left_out fs)) as -> by apply foldl_app.
  by rewrite (set_all_defaults left_out).
Qed.

(** ** Lemmas: the arguments of a command *)

(** How a command is called: its group and name, its flags, the options that say what it
    carries, and its operands. *)
Definition command_name (c : Command) : string * string :=
  match c with
  | PeerMutate true _ => ("peer", "allow") | PeerMutate false _ => ("peer", "deny") | PeerList _ _ _ => ("peer", "list")
  | ImageSetPublic _ _ _ => ("image", "set-public") | ImageGrant _ _ => ("image", "grant") | ImageList _ _ _ => ("image", "list")
  | VolumesFromAllow _ _ _ => ("volumes-from", "allow") | VolumesFromDeny _ _ _ _ => ("volumes-from", "deny")
  | VolumesFromList _ => ("volumes-from", "list")
  end.
Definition command_flags (c : Command) : FlagSet :=
  match c with
  | PeerMutate _ _ => peer_flags | PeerList _ _ _ => peer_list_flags
  | ImageSetPublic _ _ _ => set_public_flags | ImageGrant _ _ => [] | ImageList _ _ _ => image_list_flags
  | VolumesFromAllow _ _ _ => volumes_from_allow_flags | VolumesFromDeny _ _ _ _ => volumes_from_deny_flags
  | VolumesFromList _ => volumes_from_list_flags
  end.
Definition bool_text (b : bool) : string := if b then "true" else "false".
Definition command_options (c : Command) : list (string * string) :=
  match c with
  | PeerMutate _ fl => [("uid-a", fl_uidA fl); ("uid-b", fl_uidB fl); ("user-a", fl_userA fl); ("user-b", fl_userB fl);
                        ("container-a", fl_contA fl); ("container-b", fl_contB fl)]
  | PeerList uid userName container => [("uid", Itoa uid); ("user", userName); ("container", container)]
  | ImageSetPublic public force _ => [("public", bool_text public); ("force", bool_text force)]
  | ImageGrant _ _ => []
  | ImageList uid userName showAll => [("uid", Itoa uid); ("user", userName); ("all", bool_text showAll)]
  | VolumesFromAllow container userName uid => [("container", container); ("user", userName); ("uid", Itoa uid)]
  | VolumesFromDeny container userName uid all => [("container", container); ("user", userName); ("uid", Itoa uid); ("all", bool_text all)]
  | VolumesFromList container => [("container", container)]
  end.
Definition command_operands (c : Command) : list string :=
  match c with ImageSetPublic _ _ ref => [ref] | ImageGrant ref userArg => [ref; userArg] | _ => [] end.
(** A user id is an [int]. *)
Definition command_fits (c : Command) : Prop :=
  match c with
  | PeerList uid _ _ | ImageList uid _ _ | VolumesFromAllow _ _ uid | VolumesFromDeny _ _ uid _ => in_int64 uid
  | _ => True
  end.

(** Options written behind the name of a command: each spelled in any way, in any order,
    those left out that are the default. *)
Definition calls_for (fs : FlagSet) (all : list (string * string)) (args : list (list string)) : Prop :=
  ∃ opts left_out, spelled fs opts args ∧ left_out ++ opts ≡ₚ all ∧ Forall (is_default fs) left_out.
Lemma Parse_calls_for fs all args tail rest :
  NoDup (fst <$> fs) → NoDup (fst <$> all) → calls_for fs all args → operands tail = Some rest →
  Parse fs (concat args ++ tail) = inr (set_all all fs, rest).
Proof.
  intros Hf Hall (opts & left_out & Hs & Hp & Hd) Ht. rewrite (Parse_spelled _ opts _ _ rest) by done.
  by rewrite (set_all_left_out all opts left_out).
Qed.
Lemma bool_text_true b : ParseBool (bool_text b) = Some b.
Proof. by destruct b. Qed.
Lemma command_flags_nodup c : NoDup (fst <$> command_flags c).
Proof. by destruct c; apply (bool_decide_unpack _); vm_compute. Qed.
Lemma command_options_nodup c : NoDup (fst <$> command_options c).
Proof. by destruct c; apply (bool_decide_unpack _); vm_compute. Qed.

Lemma subcommand_calls_for c args tail :
  command_fits c → calls_for (command_flags c) (command_options c) args → operands tail = Some (command_operands c) →
  ∃ g, group_of (command_name c).1 = Some g ∧ subcommand g (command_name c).2 (concat args ++ tail) = Some (Runs c).
Proof.
  intros Hfit Hc Ht. pose proof (Parse_calls_for _ _ _ _ _ (command_flags_nodup c) (command_options_nodup c) Hc Ht) as HP.
  destruct c as [[] fl|uid u c|public force ref|ref ua|uid u sh|c u uid|c u uid all|c];
    (eexists; split; [reflexivity|]); cbn [subcommand command_name fst snd String.eqb Ascii.eqb Bool.eqb];
    unfold peer_mutate_args, peer_list_args, image_set_public_args, image_grant_args, image_list_args, volumes_from_allow_args,
      volumes_from_deny_args, volumes_from_list_args, with_flags; cbn [command_flags command_options] in HP; rewrite HP;
    cbn [command_operands command_fits] in *; do 2 f_equal;
    unfold set_all; cbn -[ParseInt0 ParseBool Itoa bool_text]; rewrite ?ParseInt0_Itoa by done; cbn -[ParseBool bool_text];
    rewrite ?bool_text_true; cbn -[ParseBool bool_text]; rewrite ?bool_text_true; try done; by destruct fl.
Qed.

(** ** What the tool does *)

Section tool.
Context (user_Lookup : string → option string) (now : Z) (Geteuid Getuid : Z) (SUDO_UID : string).
Context (range : gmap string (list string) → list (string * list string)).
Context (daemons : string → PeerDaemon) (NewOwnershipDB : string → option OwnershipDB).
Let outcome := command_outcome user_Lookup now Geteuid Getuid SUDO_UID range daemons.
Let tool := main user_Lookup now Geteuid Getuid SUDO_UID range daemons NewOwnershipDB.

(** C30: A command is run as it is typed.  Whatever a command carries, and however its
    options are spelled (with one dash or two, the value behind [=] or as the next
    argument), in any order, with those that are the default left out, and the global
    options likewise: root's tool does what the command does, with the daemon and
    the database that are named, and ends with 1 exactly when the command fails. *)
Theorem typed_command_is_run db sock c globals args tail d :
  Geteuid = 0%Z → NewOwnershipDB db = Some d → command_fits c →
  calls_for global_flags [("db", db); ("upstream", sock)] globals →
  calls_for (command_flags c) (command_options c) args → operands tail = Some (command_operands c) →
  tool (concat globals ++ (command_name c).1 :: (command_name c).2 :: concat args ++ tail) =
    mkOutcome (match command_error user_Lookup now Getuid SUDO_UID range (daemons sock) c d with Some _ => 1%Z | None => 0%Z end)
      (run_command user_Lookup (daemons sock) now Geteuid Getuid SUDO_UID c d).1
      (Some (db, (run_command user_Lookup (daemons sock) now Geteuid Getuid SUDO_UID c d).2)).
Proof.
  intros He Hd Hfit Hg Hc Ht. destruct (subcommand_calls_for c args tail Hfit Hc Ht) as (g & Hgr & Hsub).
  unfold tool, main. rewrite (Parse_calls_for global_flags [("db", db); ("upstream", sock)] globals
    ((command_name c).1 :: (command_name c).2 :: concat args ++ tail) ((command_name c).1 :: (command_name c).2 :: concat args ++ tail));
    [|by apply (bool_decide_unpack _); vm_compute..|done|by destruct c as [[]| | | | | | |]].
  set (fs := set_all _ global_flags). rewrite Hgr. change (GetString "db" fs) with db. change (GetString "upstream" fs) with sock.
  unfold groupCmd. rewrite He, Hd, Hsub. cbn [Z.eqb negb].
  assert (((command_name c).2 ==s "-h") || ((command_name c).2 ==s "--help") = false) as -> by (by destruct c as [[]| | | | | | |]).
  unfold command_outcome. by destruct (run_command _ _ _ _ _ _ _ _).
Qed.

Lemma groupCmd_cases db sock g args :
  let o := groupCmd user_Lookup now Geteuid Getuid SUDO_UID range daemons NewOwnershipDB db sock g args in
  (sent o = [] ∧ worked_on o = None) ∨
  Geteuid = 0%Z ∧ ∃ d, NewOwnershipDB db = Some d ∧
    (sent o = [] ∧ worked_on o = Some (db, d) ∨ ∃ c, o = outcome db sock c d).
Proof.
  unfold groupCmd. destruct args as [|sub rest]; [by left|]. destruct (_ || _); [by left|].
  destruct (Geteuid !=z 0) eqn:He; [by left|]. bool_hyps. destruct (NewOwnershipDB db) as [d|]; [|by left].
  right. split; [done|]. exists d. split; [done|]. destruct (subcommand g sub rest) as [[|e| |c]|]; eauto.
Qed.
Lemma main_cases argv :
  (sent (tool argv) = [] ∧ worked_on (tool argv) = None) ∨
  Geteuid = 0%Z ∧ ∃ db sock d, NewOwnershipDB db = Some d ∧
    (sent (tool argv) = [] ∧ worked_on (tool argv) = Some (db, d) ∨ ∃ c, tool argv = outcome db sock c d).
Proof.
  unfold tool, main. destruct (Parse global_flags argv) as [[]|[fs [|name args]]]; try (by left).
  destruct (group_of name) as [g|]; [|by left].
  destruct (groupCmd_cases (GetString "db" fs) (GetString "upstream" fs) g args) as [H|(He & d & H)]; [by left|right; eauto 6].
Qed.

(** C29: The tool is root's, and works on the database like the proxy.  Whatever the
    arguments, a run of anybody else opens no database and sends the daemon nothing; and
    a run of root's makes of the one database it opens what a step of the database's
    methods makes of it, at most, so it keeps whatever they keep, the well-formedness of the
    tables among it. *)
Theorem tool_is_one_step argv :
  (Geteuid ≠ 0%Z → sent (tool argv) = [] ∧ worked_on (tool argv) = None) ∧
  ∀ path d', worked_on (tool argv) = Some (path, d') →
    ∃ d, NewOwnershipDB path = Some d ∧ (d' = d ∨ db_step d d') ∧ (reachable d → db_wf d').
Proof.
  split; [by destruct (main_cases argv) as [H|[He _]]|]. intros path d' Hw.
  destruct (main_cases argv) as [[_ H]|(He & db & sock & d & Hd & Ho)]; [by rewrite H in Hw|].
  destruct Ho as [[_ H]|[c H]]; rewrite H in Hw.
  - injection Hw as -> ->. exists d'. split_and!; [done|by left|apply reachable_wf].
  - unfold outcome, command_outcome in Hw. destruct (commands_are_steps user_Lookup (daemons sock) now Geteuid Getuid SUDO_UID c d) as (_ & Hs & Hwf).
    destruct (run_command _ _ _ _ _ _ _ _) as [calls d1]. cbn in *. injection Hw as -> ->. by exists d.
Qed.
End tool.

(** ** Where the arguments mislead *)

(** An option behind the operand is an operand: [image set-public app --public=false]
    asks for the opposite of what it says, and the image becomes public. *)
Theorem option_behind_image_is_ignored ref rest :
  classify_arg ref = Positional → image_set_public_args (ref :: rest) = Runs (ImageSetPublic true false ref).
Proof. intros Hr. unfold image_set_public_args, with_flags. cbn. by rewrite Hr. Qed.

(** Operands that a command does not take are passed over: a user named without
    [--user] is nobody in particular, and [volumes-from allow] opens the container to all. *)
Theorem stray_user_opens_to_all user_Lookup container userName rest :
  classify_arg userName = Positional →
  volumes_from_allow_args ("--container" :: container :: userName :: rest) = Runs (VolumesFromAllow container "" (-2)) ∧
  granted_uid user_Lookup (-2) "" = inr all_users.
Proof. intros Hu. split; [|done]. unfold volumes_from_allow_args, with_flags. cbn. by rewrite Hu. Qed.

(** The commands of the manuals ([README.md] 251-271, [docs/usage-manual.md] 251-284). *)
Definition documented_commands : list string :=
  ["list-containers"; "list-images"; "list-networks"; "list-volumes"; "list-services"; "list-secrets"; "list-configs";
   "set-public"; "unset-public"; "allow-network-peer"; "deny-network-peer"; "list-peers"; "audit-query"].
Theorem documented_commands_are_unknown user_Lookup now Geteuid Getuid SUDO_UID range daemons NewOwnershipDB name args :
  name ∈ documented_commands →
  main user_Lookup now Geteuid Getuid SUDO_UID range daemons NewOwnershipDB (name :: args) = exits 1.
Proof.
  unfold documented_commands. rewrite !elem_of_cons, elem_of_nil. intros H. destruct_or! H; by subst.
Qed.

(** ** Examples *)

Module CommandDemo.
Definition files (path : string) : option OwnershipDB := if path ==s "/tmp/o.db" then Some CtlDemo.db else None.
Definition run_as (euid : Z) : list string → Outcome :=
  main CtlDemo.users 5 euid 0 "1001" map_to_list (λ _, CtlDemo.daemon) files.
Example peers_joined :
  let o := run_as 0 ["-db=/tmp/o.db"; "peer"; "allow"; "--uid-a=alice"; "-uid-b"; "bob"; "--container-a"; "web"; "--container-b=dbc"] in
  (exit_status o, sent o) = (0%Z, [Connect "web" "net9"; Connect "dbc" "net9"]).
Proof. vm_compute. reflexivity. Qed.
Example statuses :
  exit_status <$> [run_as 1001 ["peer"; "list"]; run_as 1001 ["peer"; "-h"]; run_as 0 ["peer"; "list"];
                   run_as 0 ["--db"; "/tmp/o.db"; "peer"; "list"]; run_as 0 ["-nope"]; run_as 0 ["--help"]; run_as 0 [];
                   run_as 0 ["--db"; "/tmp/o.db"; "peer"; "list"; "--help"]; run_as 0 ["--db"; "/tmp/o.db"; "peer"; "list"; "--uid=x"]] =
  [1; 0; 1; 0; 2; 0; 1; 0; 1]%Z.
Proof. vm_compute. reflexivity. Qed.
(** A uid with a leading zero is octal. *)
Example octal_uid : peer_list_args ["--uid"; "01750"] = Runs (PeerList 1000 "" "").
Proof. vm_compute. reflexivity. Qed.
End CommandDemo.

Lemma option_behind_image_is_ignored_witness :
  classify_arg "app" = Positional ∧ image_set_public_args ["app"; "--public=false"] = Runs (ImageSetPublic true false "app").
Proof. split; [done|]. by apply option_behind_image_is_ignored. Defined.
Lemma tool_is_one_step_witness :
  worked_on (CommandDemo.run_as 1001 ["--db"; "/tmp/o.db"; "image"; "grant"; "app"; "alice"]) = None ∧
  ∃ d d', worked_on (main CtlDemo.users 5 0 0 "1001" map_to_list (λ _, CtlDemo.daemon) (λ _, Some initSchema)
      ["volumes-from"; "allow"; "--container=web"; "--user"; "bob"]) = Some (d, d') ∧ db_wf d' ∧ d' ≠ initSchema.
Proof.
  split.
  - by apply (tool_is_one_step CtlDemo.users 5 1001 0 "1001" map_to_list (λ _, CtlDemo.daemon) CommandDemo.files
      ["--db"; "/tmp/o.db"; "image"; "grant"; "app"; "alice"]).
  - destruct (tool_is_one_step CtlDemo.users 5 0 0 "1001" map_to_list (λ _, CtlDemo.daemon) (λ _, Some initSchema)
      ["volumes-from"; "allow"; "--container=web"; "--user"; "bob"]) as [_ H].
    eexists _, _. split; [vm_compute; reflexivity|]. split; [|done].
    destruct (H "/var/lib/docker-authz/owners.db" _ ltac:(vm_compute; reflexivity)) as (d & Hd & _ & Hwf). injection Hd as <-. apply Hwf, rtc_refl.
Defined.
(** [--uid] is left out, [--container] and [--user] come in the other order. *)
Lemma typed_command_is_run_witness :
  exit_status (CommandDemo.run_as 0 ["-db=/tmp/o.db"; "volumes-from"; "allow"; "--user"; "bob"; "-container=web"; "--"]) = 0%Z.
Proof.
  pose proof (typed_command_is_run CtlDemo.users 5 0 0 "1001" map_to_list (λ _, CtlDemo.daemon) CommandDemo.files
    "/tmp/o.db" "/var/run/docker.sock" (VolumesFromAllow "web" "bob" (-2)) [["-db=/tmp/o.db"]] [["--user"; "bob"]; ["-container=web"]] ["--"] CtlDemo.db
    eq_refl eq_refl) as H.
  unfold CommandDemo.run_as. change (exit_status (main CtlDemo.users 5 0 0 "1001" map_to_list (λ _, CtlDemo.daemon) CommandDemo.files
    (concat [["-db=/tmp/o.db"]] ++ "volumes-from" :: "allow" :: concat [["--user"; "bob"]; ["-container=web"]] ++ ["--"])) = 0%Z).
  cbn [command_name fst snd] in H. rewrite H; [vm_compute; reflexivity|by vm_compute| | |done].
  - exists [("db", "/tmp/o.db")], [("upstream", "/var/run/docker.sock")]. split_and!.
    + repeat constructor. exists (FString "/var/lib/docker-authz/owners.db"). split_and!; [done| |by eexists|done].
      apply (spells_glued _ "db" "/tmp/o.db" "-"). by left.
    + by apply Permutation_swap.
    + repeat constructor. by exists (FString "/var/run/docker.sock").
  - exists [("user", "bob"); ("container", "web")], [("uid", "-2")]. split_and!.
    + repeat constructor.
      * exists (FString ""). split_and!; [done| |by eexists|done]. apply (spells_apart _ "user" "bob" "--"); [right; by left|done].
      * exists (FString ""). split_and!; [done| |by eexists|done]. apply (spells_glued _ "container" "web" "-"). by left.
    + apply (bool_decide_unpack _). vm_compute. done.
    + repeat constructor. by exists (FInt (-2)).
Defined.
