(* ===== verification/LogFormat.v ===== *)
(** * LogFormat: the time of a log line first

    [timeFirstWriter] of [internal/audit/logger.go], which is handed the lines of the
    log of the proxy, JSON documents, takes off their braces and puts the member with
    the time first, working on the bytes: the member is found by its name and colon.
    The values of other members are chosen by clients in part (paths, command lines);
    that they cannot pass for the time is the point of the theorem. *)

From S2P Require Import Prelude GoStrings OsLookup GoJson GoJsonText.

(** ** The writer *)

(** The bytes up to the end of a string literal, behind its first quotation mark. *)
Fixpoint string_end (s : string) : nat :=
  match s with
  | "" => 0
  | String c r =>
    if Ascii.eqb c "\" then match r with String _ r' => 2 + string_end r' | "" => 2 end else
    if Ascii.eqb c quote_char then 1 else S (string_end r)
  end.
Fixpoint plain_end (s : string) : nat :=
  match s with
  | String c r => if Ascii.eqb c "," || Ascii.eqb c "}" then 0 else S (plain_end r)
  | "" => 0
  end.
Definition value_end (s : string) : nat :=
  match eat quote_char s with Some r => S (string_end r) | None => plain_end s end.
Definition at_ (n : nat) (s : string) : string := str_take 1 (str_drop n s).

(** [timeFirstWriter.Write]: what is handed on; [None] is a slice out of range. *)
Definition time_first (timeKey p : string) : option string :=
  let line := TrimRight1 p NL in
  if (slen line <? 2)%nat || negb (HasPrefix line "{") || negb (HasSuffix line "}") then Some p else
  let inner := str_take (slen line - 2) (str_drop 1 line) in
  let key := String quote_char (timeKey +:+ String quote_char ":") in
  match Index inner key with
  | None => Some (inner +:+ String NL "")
  | Some idx =>
    let valStart := (idx + slen key)%nat in
    let valEnd := (valStart + value_end (str_drop valStart inner))%nat in
    (* the slice may reach beyond [inner], into [line] *)
    let timeKV := str_take (valEnd - idx) (str_drop (S idx) line) in
    rest ← (if (0 <? idx)%nat && (at_ (idx - 1) inner ==s ",") then
              if (slen inner <? valEnd)%nat then None else Some (str_take (idx - 1) inner +:+ str_drop valEnd inner)
            else Some (if at_ valEnd inner ==s "," then str_drop (S valEnd) inner else ""));
    Some (timeKV +:+ (if rest ==s "" then "" else String "," rest) +:+ String NL "")
  end.

(** ** Lines *)

(** A member: its name, and the text of its value. *)
Definition member (kv : string * string) : string := String quote_char (kv.1 +:+ String quote_char (String ":" kv.2)).
Definition members (fs : list (string * string)) : string := GoStrings.Join (member <$> fs) ",".
Definition braced_line (fs : list (string * string)) : string := "{" +:+ members fs +:+ "}" +:+ String NL "".
Definition bare_line (fs : list (string * string)) : string := members fs +:+ String NL "".

(** What stands between the quotation marks of a string literal. *)
Fixpoint literal_body (b : string) : bool :=
  match b with
  | "" => true
  | String c r =>
    if Ascii.eqb c "\" then match r with String _ r' => literal_body r' | "" => false end
    else negb (Ascii.eqb c quote_char) && literal_body r
  end.
Definition unquoted (s : string) : bool := str_forallb (λ c, negb (Ascii.eqb c quote_char)) s.
(** A string literal, or a number, [true], [false] or [null]. *)
Definition scalar (v : string) : Prop :=
  (∃ b, v = String quote_char (b +:+ String quote_char "") ∧ literal_body b = true) ∨
  str_forallb (λ c, negb (existsb (Ascii.eqb c) [quote_char; ","; "}"]%char)) v = true.
Definition name_ok (k : string) : Prop := unquoted k = true ∧ k ≠ "time".

(** ** Lemmas: where the member is found *)

Definition time_key : string := String quote_char ("time" +:+ String quote_char ":").

Lemma Index_time_skip c s : HasPrefix (String c s) time_key = false → Index (String c s) time_key = S <$> Index s time_key.
Proof. intros H. cbn [Index]. by rewrite H. Qed.
Lemma Index_other c s : Ascii.eqb c quote_char = false → Index (String c s) time_key = S <$> Index s time_key.
Proof. intros H. apply Index_time_skip. unfold time_key. rewrite HasPrefix_cons, (Ascii.eqb_sym quote_char c), H. done. Qed.
Lemma Index_unquoted a s : unquoted a = true → Index (a +:+ s) time_key = (λ n, slen a + n)%nat <$> Index s time_key.
Proof.
  unfold unquoted. induction a as [|c a IH]; [cbn [String.append]; by destruct (Index s time_key)|]. cbn [str_forallb]. intros H. bool_hyps. cbn [String.append].
  rewrite Index_other, IH by done. by destruct (Index s time_key).
Qed.

(** A quotation mark begins the name of the time only if [time] and the colon follow. *)
Lemma quote_prefix s : HasPrefix (String quote_char s) time_key = HasPrefix s ("time" +:+ String quote_char ":").
Proof. unfold time_key. by rewrite HasPrefix_cons, Ascii.eqb_refl. Qed.
Lemma body_no_time b c t : literal_body b = true → Ascii.eqb ":" c = false →
  HasPrefix (b +:+ String quote_char (String c t)) ("time" +:+ String quote_char ":") = false.
Proof.
  intros Hb Hc. destruct (HasPrefix _ _) eqn:E; [|done]. exfalso. cbn [String.append] in E.
  assert (∀ x r d p, HasPrefix (String x r) (String d p) = true → d = x ∧ HasPrefix r p = true) as Hstep.
  { intros x r d p H. rewrite HasPrefix_cons in H. bool_hyps. split; [|done]. by apply Ascii.eqb_eq. }
  do 4 (destruct b as [|x b]; [cbn [String.append] in E; apply Hstep in E as [E1 E]; discriminate E1|];
    cbn [String.append] in E; apply Hstep in E as [<- E]).
  cbn in Hb. destruct b as [|x b]; cbn [String.append] in E.
  - apply Hstep in E as [_ E]. apply Hstep in E as [E _]. subst c. done.
  - apply Hstep in E as [<- _]. done.
Qed.

(** The text of a string literal followed by something else than a colon. *)
Lemma Index_body n : ∀ b c t, (slen b <= n)%nat → literal_body b = true → Ascii.eqb ":" c = false → Ascii.eqb "t" c = false →
  Index (b +:+ String quote_char (String c t)) time_key = (λ k, slen b + 1 + k)%nat <$> Index (String c t) time_key.
Proof.
  induction n as [|n IH]; intros [|x b] c t Hn Hb Hc Hc'; cbn [slen String.length] in Hn; try lia.
  1-2: cbn [String.append]; rewrite Index_time_skip; [by destruct (Index (String c t) time_key)|];
    rewrite quote_prefix; cbn [String.append]; rewrite HasPrefix_cons; by rewrite Hc'.
  cbn [literal_body] in Hb. destruct (Ascii.eqb x "\") eqn:Ex.
  - apply Ascii.eqb_eq in Ex as ->. destruct b as [|y b]; [done|]. cbn [String.append]. rewrite Index_other by done.
    rewrite Index_time_skip.
    + rewrite IH by (done || (cbn in Hn; lia)). by destruct (Index (String c t) time_key).
    + unfold time_key. rewrite HasPrefix_cons. destruct (Ascii.eqb quote_char y); [|done]. by apply body_no_time.
  - bool_hyps. cbn [String.append]. rewrite Index_other by done. rewrite IH by (done || lia). by destruct (Index (String c t) time_key).
Qed.
Lemma Index_literal b c t : literal_body b = true → Ascii.eqb ":" c = false → Ascii.eqb "t" c = false →
  Index (String quote_char (b +:+ String quote_char (String c t))) time_key = (λ k, slen b + 2 + k)%nat <$> Index (String c t) time_key.
Proof.
  intros Hb Hc Hc'. rewrite Index_time_skip by (rewrite quote_prefix; by apply body_no_time).
  rewrite (Index_body (slen b)) by done. destruct (Index (String c t) time_key); [cbn; f_equal; lia|done].
Qed.
Lemma scalar_unquoted v : str_forallb (λ c, negb (existsb (Ascii.eqb c) [quote_char; ","; "}"]%char)) v = true → unquoted v = true.
Proof. apply str_forallb_impl. intros c H. cbn in H. bool_hyps. by rewrite H. Qed.
Lemma Index_scalar v t : scalar v → Index (v +:+ String "," t) time_key = (λ k, slen v + k)%nat <$> Index (String "," t) time_key.
Proof.
  intros [(b & -> & Hb)|Hv]; [|by apply Index_unquoted, scalar_unquoted].
  change (String quote_char (b +:+ String quote_char "") +:+ String "," t) with (String quote_char ((b +:+ String quote_char "") +:+ String "," t)).
  rewrite <- app_assoc_str. cbn [String.append]. rewrite Index_literal by done. destruct (Index (String "," t) time_key); [|done].
  cbn. rewrite slen_app. cbn. f_equal. lia.
Qed.
Lemma Index_member kv t : name_ok kv.1 → scalar kv.2 →
  Index (member kv +:+ String "," t) time_key = (λ k, slen (member kv) + 1 + k)%nat <$> Index t time_key.
Proof.
  destruct kv as [k v]. cbn [fst snd]. intros [Hk Hne] Hv. unfold member. cbn [fst snd String.append].
  rewrite <- app_assoc_str. cbn [String.append]. rewrite Index_time_skip.
  - rewrite Index_unquoted by done. rewrite Index_time_skip, Index_other, Index_scalar, Index_other by (done || by rewrite quote_prefix).
    destruct (Index t time_key); [|done]. cbn. rewrite slen_app. cbn. f_equal. lia.
  - rewrite quote_prefix. destruct (HasPrefix _ _) eqn:E; [|done]. exfalso. apply HasPrefix_spec in E as [r E].
    rewrite <- app_assoc_str in E. cbn [String.append] in E. symmetry in E.
    change (String "t" (String "i" (String "m" (String "e" (String quote_char (String ":" r)))))) with ("time" +:+ String quote_char (String ":" r)) in E.
    apply (run_unique (λ c, negb (Ascii.eqb c quote_char))) in E as [E _]; done.
Qed.
Lemma Index_members pre t : Forall (λ kv, name_ok kv.1 ∧ scalar kv.2) pre →
  Index (concat_str ((λ kv, member kv +:+ ",") <$> pre) +:+ time_key +:+ t) time_key = Some (slen (concat_str ((λ kv, member kv +:+ ",") <$> pre))).
Proof.
  induction 1 as [|kv pre [Hn Hs] _ IH].
  - cbn [fmap list_fmap concat_str foldr]. change ("" +:+ time_key +:+ t) with (time_key +:+ t).
    pose proof (HasPrefix_app time_key t) as H. destruct (time_key +:+ t) as [|c r]; [done|]. cbn [Index]. by rewrite H.
  - rewrite fmap_cons. unfold concat_str in *. cbn [foldr]. rewrite <- !app_assoc_str. cbn [String.append].
    rewrite Index_member, IH by done. cbn [fmap option_fmap option_map]. rewrite !slen_app. cbn [slen String.length]. f_equal. lia.
Qed.

(** ** Lemmas: the end of the value *)

Lemma string_end_body n : ∀ b t, (slen b <= n)%nat → literal_body b = true → string_end (b +:+ String quote_char t) = S (slen b).
Proof.
  induction n as [|n IH]; intros [|x b] t Hn Hb; cbn [slen String.length] in Hn; try lia; [done|done|].
  cbn [literal_body] in Hb. cbn [String.append string_end]. destruct (Ascii.eqb x "\") eqn:Ex.
  - destruct b as [|y b]; [done|]. cbn [String.append]. rewrite IH by (done || (cbn in Hn; lia)). done.
  - bool_hyps. rewrite H. rewrite IH by (done || lia). done.
Qed.
Lemma plain_end_run v t : str_forallb (λ c, negb (existsb (Ascii.eqb c) [quote_char; ","; "}"]%char)) v = true →
  t = "" ∨ (∃ r, t = String "," r) → plain_end (v +:+ t) = slen v.
Proof.
  intros Hv Ht. induction v as [|c v IH]; cbn [String.append].
  - destruct Ht as [->|[r ->]]; done.
  - cbn in Hv. bool_hyps. cbn [plain_end]. rewrite H1, H2. cbn. by rewrite IH.
Qed.
Lemma value_end_scalar v t : scalar v → t = "" ∨ (∃ r, t = String "," r) → value_end (v +:+ t) = slen v.
Proof.
  intros [(b & -> & Hb)|Hv] Ht; unfold value_end.
  - cbn [String.append eat]. rewrite Ascii.eqb_refl, <- app_assoc_str. cbn [String.append]. rewrite (string_end_body (slen b)) by done.
    cbn [slen String.length]. rewrite slen_app. cbn. lia.
  - rewrite <- (plain_end_run v t Hv Ht). destruct (eat quote_char (v +:+ t)) as [r|] eqn:E; [|done]. exfalso.
    destruct v as [|c v]; [destruct Ht as [->|[r' ->]]; done|]. cbn in E, Hv. bool_hyps. by rewrite H in E.
Qed.

Lemma TrimRight1_app_same s c : last_char s ≠ Some c → TrimRight1 (s +:+ String c "") c = s.
Proof.
  intros H. induction s as [|d s IH]; cbn [String.append TrimRight1]; [cbn; by rewrite Ascii.eqb_refl|].
  destruct s as [|e s]; [cbn in *|rewrite IH by done; done].
  rewrite Ascii.eqb_refl. destruct (Ascii.eqb_spec d c); [congruence|done].
Qed.
Lemma members_cons kv fs : members (kv :: fs) = member kv +:+ match fs with [] => "" | _ => String "," (members fs) end.
Proof. destruct fs; [by rewrite app_nil_r_str|done]. Qed.
Lemma named_members_app pre kv post :
  members (pre ++ kv :: post) = concat_str ((λ kv, member kv +:+ ",") <$> pre) +:+ members (kv :: post).
Proof.
  induction pre as [|x pre IH]; [done|]. change ((x :: pre) ++ kv :: post) with (x :: (pre ++ kv :: post)).
  rewrite members_cons, IH. destruct (pre ++ kv :: post) eqn:E; [by destruct pre|].
  rewrite fmap_cons. unfold concat_str. cbn [foldr]. rewrite <- !app_assoc_str. done.
Qed.
Lemma members_pre kv pre : concat_str ((λ kv, member kv +:+ ",") <$> (kv :: pre)) = members (kv :: pre) +:+ ",".
Proof.
  revert kv. induction pre as [|x pre IH]; intros kv; rewrite fmap_cons; unfold concat_str in *; cbn [foldr]; [by rewrite app_nil_r_str|].
  rewrite IH, (members_cons kv), <- !app_assoc_str. done.
Qed.

Definition behind (post : list (string * string)) : string := match post with [] => "" | _ => String "," (members post) end.
Lemma members_behind kv pre post : members ((kv :: pre) ++ post) = members (kv :: pre) +:+ behind post.
Proof.
  revert kv. induction pre as [|x pre IH]; intros kv; [apply members_cons|].
  change ((kv :: x :: pre) ++ post) with (kv :: ((x :: pre) ++ post)). rewrite members_cons. cbn [app]. change (x :: pre ++ post) with ((x :: pre) ++ post).
  rewrite IH, (members_cons kv (x :: pre)), <- app_assoc_str. done.
Qed.
Lemma member_time v : member ("time", v) = time_key +:+ v.
Proof. done. Qed.

(** The writer on a line in which the member is found behind [A]. *)
Lemma time_first_text A v R :
  Index (A +:+ time_key +:+ v +:+ R) time_key = Some (slen A) → value_end (v +:+ R) = slen v →
  R = "" ∨ (∃ r, R = String "," r ∧ r ≠ "") → A = "" ∨ (∃ P, A = P +:+ "," ∧ P ≠ "") →
  time_first "time" ("{" +:+ (A +:+ time_key +:+ v +:+ R) +:+ "}" +:+ String NL "") =
    Some (time_key +:+ v +:+ match A with "" => R | _ => String "," (str_take (slen A - 1) A +:+ R) end +:+ String NL "").
Proof.
  intros Hi Hv HR HA. unfold time_first. set (inner := A +:+ time_key +:+ v +:+ R) in *.
  replace ("{" +:+ inner +:+ "}" +:+ String NL "") with (("{" +:+ inner +:+ "}") +:+ String NL "") by (by rewrite <- !app_assoc_str).
  rewrite TrimRight1_app_same by (rewrite app_assoc_str, last_char_app; done). rewrite str_take_drop_braces.
  rewrite HasPrefix_app, (app_assoc_str "{" inner "}"), HasSuffix_app, <- (app_assoc_str "{" inner "}").
  destruct (Nat.ltb_spec (slen ("{" +:+ inner +:+ "}")) 2) as [Hl|_]; [rewrite !slen_app in Hl; cbn in Hl; lia|]. cbn [orb negb].
  change (String quote_char ("time" +:+ String quote_char ":")) with time_key. rewrite Hi. cbv zeta.
  replace (str_drop (slen A + slen time_key) inner) with (v +:+ R)
    by (unfold inner; by rewrite (app_assoc_str A), <- slen_app, str_drop_app).
  rewrite Hv. set (valEnd := (slen A + slen time_key + slen v)%nat).
  assert (str_drop valEnd inner = R) as Hd.
  { unfold inner, valEnd. by rewrite (app_assoc_str A), (app_assoc_str (A +:+ time_key)), <- !slen_app, str_drop_app. }
  replace (str_take (valEnd - slen A) (str_drop (S (slen A)) ("{" +:+ inner +:+ "}"))) with (time_key +:+ v).
  2:{ cbn [str_drop String.append]. unfold inner. rewrite <- !app_assoc_str, str_drop_app, (app_assoc_str time_key).
      replace (valEnd - slen A)%nat with (slen (time_key +:+ v)) by (rewrite slen_app; unfold valEnd; lia). by rewrite str_take_app. }
  destruct HA as [->|(P & -> & HP)].
  - cbn [slen String.length Nat.ltb Nat.leb andb]. unfold at_. rewrite Hd. destruct HR as [->|(r & -> & Hr)].
    + cbn [str_take mbind option_bind]. by rewrite <- app_assoc_str.
    + cbn [str_take mbind option_bind]. change (String "," "" ==s ",") with true. cbv iota.
      assert (str_drop (S valEnd) inner = r) as ->.
      { replace (S valEnd) with (slen (time_key +:+ v +:+ ",")) by (unfold valEnd; rewrite !slen_app; cbn; lia).
        assert (inner = (time_key +:+ v +:+ ",") +:+ r) as -> by (unfold inner; by rewrite <- !app_assoc_str). by rewrite str_drop_app. }
      apply String.eqb_neq in Hr. rewrite Hr. by rewrite <- app_assoc_str.
  - assert (slen (P +:+ ",") - 1 = slen P)%nat as E1 by (rewrite slen_app; cbn; lia).
    assert ((0 <? slen (P +:+ ","))%nat = true) as -> by (apply Nat.ltb_lt; rewrite slen_app; cbn; lia).
    assert (at_ (slen (P +:+ ",") - 1) inner = ",") as Hat by (unfold at_, inner; by rewrite E1, <- app_assoc_str, str_drop_app).
    rewrite Hat, Hd, E1. cbn [andb]. change ("," ==s ",") with true. cbv iota.
    assert ((slen inner <? valEnd)%nat = false) as -> by (apply Nat.ltb_ge; unfold inner, valEnd; rewrite !slen_app; lia).
    assert (str_take (slen P) inner = P) as -> by (unfold inner; by rewrite <- app_assoc_str, str_take_app).
    rewrite str_take_app. cbn [mbind option_bind]. destruct (P +:+ ",") eqn:EP; [by destruct P|]. clear EP.
    destruct P as [|c P]; [done|]. cbn [String.append]. change (String c (P +:+ R) ==s "") with false. cbv iota. by rewrite <- app_assoc_str.
Qed.

(** ** Theorems *)

(** The time comes first, and nothing is lost.  A line of the log whose members have
    strings and other scalars for values, whatever is in them, is written with the
    time in front and the other members behind it in their order; no value of another
    member, so nothing a client chooses, is taken for the time. *)
Theorem time_comes_first pre v post :
  Forall (λ kv, name_ok kv.1 ∧ scalar kv.2) pre → scalar v →
  time_first "time" (braced_line (pre ++ ("time", v) :: post)) = Some (bare_line (("time", v) :: pre ++ post)).
Proof.
  intros Hpre Hv. unfold braced_line, bare_line. rewrite named_members_app, !members_cons, member_time, <- !app_assoc_str. fold (behind post).
  assert (behind post = "" ∨ ∃ r, behind post = String "," r ∧ r ≠ "") as HR
    by (destruct post as [|kv post]; [by left|right; exists (members (kv :: post)); split; [done|by rewrite members_cons]]).
  set (A := concat_str ((λ kv, member kv +:+ ",") <$> pre)) in *.
  assert (A = "" ∨ ∃ P, A = P +:+ "," ∧ P ≠ "") as HA
    by (unfold A; destruct pre as [|kv pre]; [by left|right; exists (members (kv :: pre)); split; [apply members_pre|by rewrite members_cons]]).
  pose proof (time_first_text A v (behind post) (Index_members pre _ Hpre) (value_end_scalar v _ Hv ltac:(naive_solver)) HR HA) as H.
  rewrite <- !app_assoc_str in H. rewrite H. unfold A. destruct pre as [|kv pre]; [done|]. change (kv :: pre ++ post) with ((kv :: pre) ++ post).
  rewrite members_pre, members_behind. replace (slen (members (kv :: pre) +:+ ",") - 1)%nat with (slen (members (kv :: pre))) by (rewrite slen_app; cbn; lia).
  rewrite str_take_app, members_cons. done.
Qed.
Definition forged_uri : list (string * string) :=
  [("level", "1"); ("uri", String quote_char ("/a\" +:+ String quote_char ("time\" +:+ String quote_char (":" +:+ String quote_char ""))))].
Lemma time_comes_first_witness :
  time_first "time" (braced_line (forged_uri ++ [("time", "5"); ("msg", "true")])) =
    Some (bare_line (("time", "5") :: forged_uri ++ [("msg", "true")])).
Proof.
  apply (time_comes_first forged_uri "5" [("msg", "true")]); [|by right].
  apply Forall_cons; split; [split; [done|by right]|]. apply Forall_cons; split; [|by apply Forall_nil].
  split; [done|left]. by exists ("/a\" +:+ String quote_char ("time\" +:+ String quote_char ":")).
Defined.
