(* ===== verification/AuditTrail.v ===== *)
(** * AuditTrail: the trail of what was done

    [internal/audit]: the files of [AuditLogger] (audit.go), one per user and one for
    authentications, and those of [ContainerLogger] (container.go), fed by the daemon's
    events.

    A name of a file leads to an inode; a file that is open stays the same inode when
    its name is taken away, which is what logrotate does and [Reopen] is there for.  A
    call can fail at any moment ([d_faults]), a write after some bytes. *)

From S2P Require Import Prelude GoStrings OsLookup Names GoJson GoJsonText GoTime GoPath Streams.

(** ** Files *)

Record Inode := mkInode { i_content : string; i_mode : Z; i_uid : Z; i_gid : Z }.
Record Disk := mkDisk { d_names : gmap string nat; d_inodes : gmap nat Inode; d_faults : list (option nat) }.
Record Handle := mkHandle { h_name : string; h_inode : nat }.

Definition fault (d : Disk) : option nat := match d_faults d with Some n :: _ => Some n | _ => None end.
Definition with_files (names : gmap string nat) (inodes : gmap nat Inode) (d : Disk) : Disk :=
  mkDisk names inodes (tail (d_faults d)).
Definition called (d : Disk) : Disk := with_files (d_names d) (d_inodes d) d.
Definition new_inode (d : Disk) : nat := fresh (dom (d_inodes d) : gset nat).

Section disk.
(** The process's umask. *)
Context (umask : Z).

(** [os.OpenFile(path, O_CREATE|O_APPEND|O_WRONLY, 0640)]. *)
Definition OpenAppend (path : string) (d : Disk) : option Handle * Disk :=
  match fault d with
  | Some _ => (None, called d)
  | None =>
    match d_names d !! path with
    | Some i => (Some (mkHandle path i), called d)
    | None =>
      let i := new_inode d in
      (Some (mkHandle path i),
       with_files (<[path := i]> (d_names d)) (<[i := mkInode "" (Z.ldiff 416 umask) 0 0]> (d_inodes d)) d)
    end
  end.
End disk.

(** [os.Chown], whose error is ignored. *)
Definition ChownPath (path : string) (uid gid : Z) (d : Disk) : Disk :=
  match fault d, d_names d !! path with
  | None, Some i => with_files (d_names d) (alter (λ n, mkInode (i_content n) (i_mode n) uid gid) i (d_inodes d)) d
  | _, _ => called d
  end.
(** [f.Write]: of a failing write a beginning may arrive. *)
Definition append_to (i : nat) (s : string) (inodes : gmap nat Inode) : gmap nat Inode :=
  alter (λ n, mkInode (i_content n +:+ s) (i_mode n) (i_uid n) (i_gid n)) i inodes.
Definition WriteTo (h : Handle) (s : string) (d : Disk) : Disk :=
  with_files (d_names d)
    (append_to (h_inode h) (match fault d with Some n => str_take n s | None => s end) (d_inodes d)) d.

(** ** Entries *)

Definition omitempty (key value : string) : list (string * json) := if value ==s "" then [] else [(key, JStr value)].
Definition omitzero (key : string) (value : Z) : list (string * json) := if value ==z 0 then [] else [(key, JInt value)].

Record AuthAuditEntry := mkAuthAuditEntry {
  aa_Time : string; aa_Event : string; aa_PID : Z; aa_ClientAddr : string;
  aa_EffectiveUID : Z; aa_EffectiveUsername : string; aa_LoginUID : Z; aa_LoginUsername : string;
  aa_RealUID : Z; aa_RealUsername : string; aa_SwitchedIdentity : bool; aa_SwitchType : string;
  aa_PasswdVerified : bool; aa_FailureReason : string; aa_ForgeryDetail : string;
}.
Definition auth_members (e : AuthAuditEntry) : list (string * json) :=
  [("time", JStr (aa_Time e)); ("event", JStr (aa_Event e)); ("pid", JInt (aa_PID e))] ++
  omitempty "client_addr" (aa_ClientAddr e) ++
  [("effective_uid", JInt (aa_EffectiveUID e))] ++ omitempty "effective_username" (aa_EffectiveUsername e) ++
  [("login_uid", JInt (aa_LoginUID e))] ++ omitempty "login_username" (aa_LoginUsername e) ++
  [("real_uid", JInt (aa_RealUID e))] ++ omitempty "real_username" (aa_RealUsername e) ++
  [("switched_identity", JBool (aa_SwitchedIdentity e))] ++ omitempty "switch_type" (aa_SwitchType e) ++
  [("passwd_verified", JBool (aa_PasswdVerified e))] ++ omitempty "failure_reason" (aa_FailureReason e) ++
  omitempty "forgery_detail" (aa_ForgeryDetail e).

Record AuditEntry := mkAuditEntry {
  ae_Time : string; ae_User : string; ae_UID : Z; ae_ClientIP : string; ae_AuthSource : string; ae_Method : string;
  ae_Action : string; ae_URI : string; ae_RewrittenPath : string; ae_Result : string; ae_PrivSource : string;
  ae_DenyReason : string; ae_ContainerID : string; ae_StatusCode : Z; ae_LatencyMs : Z; ae_TotalCount : Z;
  ae_FilteredCount : Z; ae_ResourceUsage : option (gmap string string);
}.
Definition audit_members (e : AuditEntry) : list (string * json) :=
  [("time", JStr (ae_Time e)); ("user", JStr (ae_User e)); ("uid", JInt (ae_UID e))] ++
  omitempty "client_ip" (ae_ClientIP e) ++ [("auth_source", JStr (ae_AuthSource e))] ++ omitempty "method" (ae_Method e) ++
  [("action", JStr (ae_Action e)); ("uri", JStr (ae_URI e))] ++ omitempty "rewritten_path" (ae_RewrittenPath e) ++
  [("result", JStr (ae_Result e))] ++ omitempty "priv_source" (ae_PrivSource e) ++ omitempty "deny_reason" (ae_DenyReason e) ++
  omitempty "container_id" (ae_ContainerID e) ++ [("status_code", JInt (ae_StatusCode e))] ++
  omitzero "latency_ms" (ae_LatencyMs e) ++ omitzero "total_count" (ae_TotalCount e) ++
  omitzero "filtered_count" (ae_FilteredCount e) ++
  (let usage := default ∅ (ae_ResourceUsage e) in
   if bool_decide (usage = ∅) then [] else [("resource_usage", marshal_map (JStr <$> usage))]).

Record ContainerEvent := mkContainerEvent {
  ce_Time : string; ce_ContainerID : string; ce_Action : string; ce_Image : string; ce_Username : string; ce_UID : Z;
  ce_ExitCode : string; ce_Error : string;
}.
Definition container_members (e : ContainerEvent) : list (string * json) :=
  [("time", JStr (ce_Time e)); ("container_id", JStr (ce_ContainerID e)); ("action", JStr (ce_Action e))] ++
  omitempty "image" (ce_Image e) ++ omitempty "username" (ce_Username e) ++ omitzero "uid" (ce_UID e) ++
  omitempty "exit_code" (ce_ExitCode e) ++ omitempty "error" (ce_Error e).

(** The line of an entry: its document without the braces. *)
Definition without_braces (line : string) : string :=
  if (2 <=? slen line)%nat && HasPrefix line "{" && HasSuffix line "}"
  then str_take (slen line - 2) (str_drop 1 line) else line.
Definition log_line (kvs : list (string * json)) : string := without_braces (json_text (JObj kvs)) +:+ String NL "".

(** ** Reading lines *)

(** [bufio.Scanner] with its buffer of 64 KiB: the lines, and whether one that does not
    fit ended the scan. *)
Definition too_long (line : string) : bool := (65536 <=? Z.of_nat (slen line))%Z.
Definition drop_cr (line : string) : string := if HasSuffix line (String "013" "") then str_take (slen line - 1) line else line.
Fixpoint scan_pieces (pieces : list string) : list string * bool :=
  match pieces with
  | [] => ([], false)
  | p :: ps =>
    if bool_decide (ps = []) && (p ==s "") then ([], false) else
    if too_long p then ([], true) else
    let '(lines, err) := scan_pieces ps in (drop_cr p :: lines, err)
  end.
Definition scan_lines (text : string) : list string * bool := scan_pieces (Split1 NL text).

(** ** The files of users *)

(** [files] and [uids] of both loggers. *)
Record UserFiles := mkUserFiles { files : gmap string Handle; uids : gmap string Z }.

Section logger.
Context (umask : Z).
(** The order in which a range statement goes over the map of files. *)
Context (range : gmap string Handle → list (string * Handle)).

Definition log_path (logDir sub username : string) : string := PathJoin (PathJoin logDir sub) (username +:+ ".log").
Definition getFile (logDir sub username : string) (uid : Z) (a : UserFiles) (d : Disk) : option Handle * UserFiles * Disk :=
  match files a !! username with
  | Some f => (Some f, a, d)
  | None =>
    let path := log_path logDir sub username in
    match OpenAppend umask path d with
    | (None, d) => (None, a, d)
    | (Some f, d) =>
      (Some f, mkUserFiles (<[username := f]> (files a)) (<[username := uid]> (uids a)), ChownPath path 0 uid d)
    end
  end.
Definition append_line (logDir sub username : string) (uid : Z) (line : string) (a : UserFiles) (d : Disk) : UserFiles * Disk :=
  match getFile logDir sub username uid a d with
  | (None, a, d) => (a, d)
  | (Some f, a, d) => (a, WriteTo f line d)
  end.

(** One file, opened again by its name. *)
Definition reopen_user (us : UserFiles * Disk) (uf : string * Handle) : UserFiles * Disk :=
  let '(a, d) := us in
  let '(username, f) := uf in
  let path := h_name f in
  match OpenAppend umask path d with
  | (Some newF, d) =>
    (mkUserFiles (<[username := newF]> (files a)) (uids a),
     match uids a !! username with Some uid => ChownPath path 0 uid d | None => d end)
  | (None, d) => (mkUserFiles (delete username (files a)) (uids a), d)
  end.
Definition reopen_users (a : UserFiles) (d : Disk) : UserFiles * Disk := foldl reopen_user (a, d) (range (files a)).

(** ** The audit logger *)

Record AuditLogger := mkAuditLogger { logDir : string; users : UserFiles; authLog : option Handle }.
Definition user_operation : string := "user-operation".
Definition no_files : UserFiles := mkUserFiles ∅ ∅.

(** [mkdir]: whether the directories could be made. *)
Definition NewAuditLogger (dir : string) (mkdir : bool) (d : Disk) : option AuditLogger * Disk :=
  if negb mkdir then (None, d) else
  match OpenAppend umask (PathJoin dir "auth.log") d with
  | (None, d) => (None, d)
  | (Some f, d) => (Some (mkAuditLogger dir no_files (Some f)), d)
  end.

(** A logger that is nil logs nothing. *)
Definition on_logger {L} (f : L → Disk → L * Disk) (a : option L) (d : Disk) : option L * Disk :=
  match a with None => (None, d) | Some a => let '(a, d) := f a d in (Some a, d) end.

Definition stamp (now : Z) (time : string) : string := if time ==s "" then FormatRFC3339 now else time.
Definition stamped_auth (now : Z) (e : AuthAuditEntry) : AuthAuditEntry :=
  mkAuthAuditEntry (stamp now (aa_Time e)) (aa_Event e) (aa_PID e) (aa_ClientAddr e) (aa_EffectiveUID e)
    (aa_EffectiveUsername e) (aa_LoginUID e) (aa_LoginUsername e) (aa_RealUID e) (aa_RealUsername e)
    (aa_SwitchedIdentity e) (aa_SwitchType e) (aa_PasswdVerified e) (aa_FailureReason e) (aa_ForgeryDetail e).
Definition LogAuth (now : Z) (e : AuthAuditEntry) : option AuditLogger → Disk → option AuditLogger * Disk :=
  on_logger (λ a d,
    (a, match authLog a with Some f => WriteTo f (log_line (auth_members (stamped_auth now e))) d | None => d end)).

Definition completed_entry (now : Z) (e : AuditEntry) : AuditEntry :=
  mkAuditEntry (stamp now (ae_Time e)) (ae_User e) (ae_UID e) (ae_ClientIP e)
    (if ae_AuthSource e ==s "" then "os_peercred" else ae_AuthSource e) (ae_Method e) (ae_Action e) (ae_URI e)
    (ae_RewrittenPath e) (ae_Result e) (ae_PrivSource e) (ae_DenyReason e) (ae_ContainerID e) (ae_StatusCode e)
    (ae_LatencyMs e) (ae_TotalCount e) (ae_FilteredCount e) (ae_ResourceUsage e).
Definition WriteEntry (now : Z) (e : AuditEntry) : option AuditLogger → Disk → option AuditLogger * Disk :=
  on_logger (λ a d,
    let '(us, d) := append_line (logDir a) user_operation (ae_User e) (ae_UID e)
                      (log_line (audit_members (completed_entry now e))) (users a) d in
    (mkAuditLogger (logDir a) us (authLog a), d)).

Definition LogFull (now : Z) (username : string) (uid : Z) (authSource action uri rewrittenPath result denyReason containerID : string)
    (statusCode latencyMs totalCount filteredCount : Z) (usage : option (gmap string string)) :=
  WriteEntry now (mkAuditEntry "" username uid "" authSource "" action uri rewrittenPath result "" denyReason containerID
    statusCode latencyMs totalCount filteredCount usage).
Definition LogWithResources (now : Z) (username : string) (uid : Z) (authSource action uri result denyReason containerID : string)
    (statusCode : Z) (usage : option (gmap string string)) :=
  LogFull now username uid authSource action uri "" result denyReason containerID statusCode 0 0 0 usage.
Definition Log (now : Z) (username : string) (uid : Z) (authSource action uri result denyReason containerID : string) (statusCode : Z) :=
  LogFull now username uid authSource action uri "" result denyReason containerID statusCode 0 0 0 None.

Definition Reopen : option AuditLogger → Disk → option AuditLogger * Disk :=
  on_logger (λ a d,
    let '(us, d) := reopen_users (users a) d in
    let '(auth, d) := match authLog a with None => (None, d) | Some f => OpenAppend umask (h_name f) d end in
    (mkAuditLogger (logDir a) us auth, d)).

(** ** The container logger *)

Record ContainerLogger := mkContainerLogger { cl_logDir : string; cl_users : UserFiles }.
Definition container_run : string := "container-run".
Definition NewContainerLogger (dir : string) (mkdir : bool) : option ContainerLogger :=
  if mkdir then Some (mkContainerLogger dir no_files) else None.

(** What is decoded of a line of the daemon. *)
Record RawEvent := mkRawEvent {
  re_Status : string; re_Action : string; re_Actor : string * option (gmap string string); re_Time : Z }.
Definition decode_raw : RawEvent → json → RawEvent * bool :=
  decode_struct
    (λ kvs e, mkRawEvent (field decode_string "status" kvs (re_Status e)) (field decode_string "Action" kvs (re_Action e))
                (field decode_actor "Actor" kvs (re_Actor e)) (field decode_int64 "time" kvs (re_Time e)))
    (λ kvs, field_ok decode_string "status" kvs "" && field_ok decode_string "Action" kvs "" &&
            field_ok decode_actor "Actor" kvs ("", None) && field_ok decode_int64 "time" kvs 0%Z).
Definition logged_actions : list string :=
  ["create"; "start"; "stop"; "die"; "kill"; "oom"; "destroy"; "pause"; "unpause"; "restart"].

Definition raw_action (raw : RawEvent) : string := if re_Action raw ==s "" then re_Status raw else re_Action raw.
(** The container of an event, its owner, and what is written. *)
Definition container_event (ownerLookup : string → option (string * Z)) (line : string) : option (string * Z * ContainerEvent) :=
  raw ← json_of_text line ≫= unmarshal_as decode_raw (mkRawEvent "" "" ("", None) 0);
  if negb (bool_decide (raw_action raw ∈ logged_actions)) then None else
  let '(id, attributes) := re_Actor raw in
  let '(username, uid) := default ("", 0%Z) (ownerLookup id) in
  Some (username, uid,
    mkContainerEvent (FormatRFC3339 (re_Time raw * second)%Z) (str_take 12 id) (raw_action raw)
      (map_get (default ∅ attributes) "image") username uid (map_get (default ∅ attributes) "exitCode") "").
Definition container_key (username : string) : string := if username ==s "" then "unknown" else username.
Definition write_event (username : string) (uid : Z) (e : ContainerEvent) (c : ContainerLogger) (d : Disk) : ContainerLogger * Disk :=
  let '(us, d) := append_line (cl_logDir c) container_run (container_key username) uid (log_line (container_members e)) (cl_users c) d in
  (mkContainerLogger (cl_logDir c) us, d).
Definition container_line (ownerLookup : string → option (string * Z)) (line : string) (c : ContainerLogger) (d : Disk)
    : ContainerLogger * Disk :=
  if line ==s "" then (c, d) else
  match container_event ownerLookup line with
  | Some (username, uid, e) => write_event username uid e c d
  | None => (c, d)
  end.
(** An answer of the daemon to the request for events: none, or its text and whether
    reading it failed in the end. *)
Inductive Connection := Refused | Answer (text : string) (broken : bool).
(** [lookup i] is the owner lookup at the moment of line [i]; the result says whether
    there was an error. *)
Definition stream (lookup : nat → string → option (string * Z)) (conn : Connection) (c : ContainerLogger) (d : Disk)
    : bool * ContainerLogger * Disk :=
  match conn with
  | Refused => (true, c, d)
  | Answer text broken =>
    let '(lines, long) := scan_lines text in
    let '(c, d) := foldl (λ '(c, d) il, container_line (lookup il.1) il.2 c d) (c, d) (imap pair lines) in
    (long || broken, c, d)
  end.
(** The connections one after the other; the result says whether it goes on. *)
Fixpoint run (conns : list (Connection * (nat → string → option (string * Z)))) (c : ContainerLogger) (d : Disk)
    : bool * ContainerLogger * Disk :=
  match conns with
  | [] => (true, c, d)
  | (conn, lookup) :: conns =>
    let '(err, c, d) := stream lookup conn c d in
    if err then run conns c d else (false, c, d)
  end.
Definition ReopenContainers (c : ContainerLogger) (d : Disk) : ContainerLogger * Disk :=
  let '(us, d) := reopen_users (cl_users c) d in (mkContainerLogger (cl_logDir c) us, d).
End logger.

(** ** Lemmas: the lines *)

Lemma without_braces_obj s : without_braces ("{" +:+ s +:+ "}") = s.
Proof.
  unfold without_braces. rewrite str_take_drop_braces. rewrite app_assoc_str, HasSuffix_app, <- app_assoc_str.
  rewrite HasPrefix_app, !slen_app. cbn [slen String.length].
  by destruct (Nat.leb_spec 2 (1 + (slen s + 1))); [|lia].
Qed.
Definition line_body (kvs : list (string * json)) : string := GoStrings.Join (List.map member_text kvs) ",".
Lemma log_line_body kvs : log_line kvs = line_body kvs +:+ String NL "".
Proof. unfold log_line. by rewrite json_text_obj, without_braces_obj. Qed.

(** Members with nothing but strings, integers and one level below. *)
Definition simple_value (v : json) : bool :=
  match v with JObj kvs => forallb (λ kv, match kv.2 with JStr _ => true | _ => false end) kvs | JStr _ | JInt _ | JBool _ => true | _ => false end.
Lemma simple_members_ok kvs : forallb (λ kv, simple_value kv.2) kvs = true →
  literals_ok (JObj kvs) = true ∧ (height (JObj kvs) <= 3)%N.
Proof.
  unfold literals_ok. cbn [forall_json literal_ok andb height]. intros H. induction kvs as [|[k v] kvs IH]; [done|].
  cbn [forallb foldr fst snd] in *. bool_hyps. destruct (IH ltac:(done)) as [IH1 IH2]. rewrite IH1.
  assert (forall_json literal_ok v = true ∧ (height v <= 2)%N) as [-> Hh]; [|split; [done|lia]].
  destruct v as [| | | | | |l]; try done. cbn [simple_value forall_json literal_ok andb height] in *. clear -H.
  induction l as [|[k v] l IH]; [done|]. cbn [forallb foldr fst snd] in *. bool_hyps.
  destruct (IH ltac:(done)) as [-> IH2], v; try done. cbn. split; [done|lia].
Qed.
Lemma log_line_reads kvs : forallb (λ kv, simple_value kv.2) kvs = true →
  str_forallb printable (line_body kvs) = true ∧
  json_of_text ("{" +:+ line_body kvs +:+ "}") = Some (sanitized (JObj kvs)).
Proof.
  intros [Hok Hh]%simple_members_ok. split.
  - pose proof (json_text_printable _ Hok) as H. rewrite json_text_obj, !str_forallb_app in H. by bool_hyps.
  - unfold line_body. rewrite <- json_text_obj. apply json_of_text_of; [done|]. unfold maxNestingDepth. lia.
Qed.

Lemma simple_omitempty k v : forallb (λ kv, simple_value kv.2) (omitempty k v) = true.
Proof. unfold omitempty. by case_match. Qed.
Lemma simple_omitzero k v : forallb (λ kv, simple_value kv.2) (omitzero k v) = true.
Proof. unfold omitzero. by case_match. Qed.
Lemma simple_audit_members e : forallb (λ kv, simple_value kv.2) (audit_members e) = true.
Proof.
  unfold audit_members. rewrite !forallb_app, !simple_omitempty, !simple_omitzero. cbn. case_bool_decide; [done|]. cbn. rewrite andb_true_r.
  apply forallb_forall. intros [k v] Hin%list_elem_of_In%marshal_members. cbn in *. rewrite lookup_fmap in Hin.
  destruct (_ !! k); [|done]. by injection Hin as <-.
Qed.
Lemma simple_auth_members e : forallb (λ kv, simple_value kv.2) (auth_members e) = true.
Proof. unfold auth_members. by rewrite !forallb_app, !simple_omitempty. Qed.
Lemma simple_container_members e : forallb (λ kv, simple_value kv.2) (container_members e) = true.
Proof. unfold container_members. by rewrite !forallb_app, !simple_omitempty, !simple_omitzero. Qed.

(** ** Lemmas: files *)

Definition content_of (d : Disk) (i : nat) : option string := i_content <$> d_inodes d !! i.
(** Every file is there still, and nothing of it has been lost. *)
Definition grows (d d' : Disk) : Prop :=
  ∀ i c, content_of d i = Some c → ∃ s, content_of d' i = Some (c +:+ s).
#[export] Instance grows_preorder : PreOrder grows.
Proof.
  split; [intros d i c H; exists ""; by rewrite app_nil_r_str|].
  intros d1 d2 d3 H1 H2 i c [s Hs]%H1. destruct (H2 i _ Hs) as [s' Hs']. exists (s +:+ s'). by rewrite app_assoc_str.
Qed.
Lemma same_inodes_grow d d' : d_inodes d' = d_inodes d → grows d d'.
Proof. intros H i c Hc. exists "". unfold content_of in *. by rewrite H, app_nil_r_str. Qed.

Lemma new_inode_fresh d : d_inodes d !! new_inode d = None.
Proof. apply (not_elem_of_dom (D:=gset nat)). unfold new_inode. apply is_fresh. Qed.
Lemma grows_insert names d i n : d_inodes d !! i = None → grows d (with_files names (<[i := n]> (d_inodes d)) d).
Proof.
  intros Hi j c. unfold content_of. cbn. intros Hj. exists "". rewrite app_nil_r_str, lookup_insert_ne; [done|].
  intros ->. by rewrite Hi in Hj.
Qed.
Lemma grows_alter names d i f : (∀ n, ∃ s, i_content (f n) = i_content n +:+ s) → grows d (with_files names (alter f i (d_inodes d)) d).
Proof.
  intros Hf j c. unfold content_of. cbn. intros Hj. destruct (decide (i = j)) as [->|Hne].
  - rewrite lookup_alter_eq. destruct (d_inodes d !! j) as [n|]; [|done]. injection Hj as <-. destruct (Hf n) as [s Hs]. exists s. cbn. by rewrite Hs.
  - exists "". by rewrite app_nil_r_str, lookup_alter_ne.
Qed.
Lemma OpenAppend_grows umask path d : grows d (OpenAppend umask path d).2.
Proof.
  unfold OpenAppend. destruct (fault d); [by apply same_inodes_grow|]. destruct (d_names d !! path); [by apply same_inodes_grow|].
  apply grows_insert, new_inode_fresh.
Qed.
Lemma ChownPath_grows path u g d : grows d (ChownPath path u g d).
Proof.
  unfold ChownPath. repeat case_match; try (by apply same_inodes_grow). apply grows_alter. intros x. exists "". by rewrite app_nil_r_str.
Qed.
Lemma WriteTo_grows h s d : grows d (WriteTo h s d).
Proof. unfold WriteTo, append_to. apply grows_alter. intros n. by eexists. Qed.

Lemma append_line_grows umask dir sub u uid line a d : grows d (append_line umask dir sub u uid line a d).2.
Proof.
  unfold append_line, getFile. destruct (files a !! u) as [f|]; [apply WriteTo_grows|].
  pose proof (OpenAppend_grows umask (log_path dir sub u) d) as Ho. destruct (OpenAppend _ _ _) as [[f|] d1]; [|done].
  cbn [snd] in *. etrans; [exact Ho|]. etrans; [apply ChownPath_grows|apply WriteTo_grows].
Qed.
Lemma reopen_user_grows umask us uf : grows us.2 (reopen_user umask us uf).2.
Proof.
  destruct us as [a d], uf as [u f]. unfold reopen_user. pose proof (OpenAppend_grows umask (h_name f) d) as Ho.
  destruct (OpenAppend _ _ _) as [[g|] d1]; [|done]. cbn [snd] in *. case_match; [|done]. etrans; [exact Ho|apply ChownPath_grows].
Qed.
Lemma reopen_users_grows umask range a d : grows d (reopen_users umask range a d).2.
Proof.
  unfold reopen_users. change (grows d (foldl (reopen_user umask) (a, d) (range (files a))).2). change d with ((a, d).2) at 1.
  generalize (a, d). induction (range (files a)) as [|uf l IH]; intros us; [done|]. cbn. etrans; [apply reopen_user_grows|apply IH].
Qed.

(** ** Lemmas: the files of users between calls that do not fail *)

Lemma app_inj_r_str (a b s : string) : a +:+ s = b +:+ s → a = b.
Proof.
  intros H. pose proof (f_equal slen H) as Hl. rewrite !slen_app in Hl. assert (slen a = slen b) as Hab by lia.
  pose proof (f_equal (str_take (slen a)) H) as Ht. by rewrite str_take_app, Hab, str_take_app in Ht.
Qed.

Lemma log_name_ok u : no_slash u = true → no_slash (u +:+ ".log") = true ∧ plain_name (u +:+ ".log").
Proof.
  intros Hu. split; [unfold no_slash in Hu |- *; by rewrite str_forallb_app, Hu|].
  split_and!; intros E%(f_equal slen); rewrite slen_app in E; cbn in E; lia.
Qed.

Section tidy.
Context (umask : Z) (dir sub : string).
Context (Hdir : is_rooted dir = true) (Hsub : no_slash sub = true) (Hplain : plain_name sub).
Notation path := (log_path dir sub).

Lemma log_path_inj u v : no_slash u = true → no_slash v = true → path u = path v → u = v.
Proof using Hdir Hsub Hplain.
  intros Hu Hv H. destruct (log_name_ok u Hu), (log_name_ok v Hv). apply (app_inj_r_str _ _ ".log").
  eapply PathJoin_inj; [by apply (clean_segs_below dir sub)|done..].
Qed.

(** A name for each file at most; the open files of users are theirs: no two share
    one, and none is found under the name of another user's. *)
Record tidy (a : UserFiles) (d : Disk) : Prop := {
  tidy_faults : d_faults d = [];
  tidy_names : ∀ p i, d_names d !! p = Some i → is_Some (d_inodes d !! i);
  tidy_links : ∀ p q i, d_names d !! p = Some i → d_names d !! q = Some i → p = q;
  tidy_open : ∀ u h, files a !! u = Some h → no_slash u = true ∧ h_name h = path u ∧ is_Some (d_inodes d !! h_inode h);
  tidy_own : ∀ u h p, files a !! u = Some h → d_names d !! p = Some (h_inode h) → p = path u ∨ ∀ v, no_slash v = true → p ≠ path v;
  tidy_apart : ∀ u v h g, files a !! u = Some h → files a !! v = Some g → h_inode h = h_inode g → u = v;
}.

Definition at_name (q : string) (d : Disk) : option string := d_names d !! q ≫= content_of d.
(** What is found under the name of the log of [u]; what is in the file the next line
    goes to; whether they are the same. *)
Definition named_log (u : string) (d : Disk) : string := default "" (d_names d !! path u ≫= content_of d).
Definition log_of (u : string) (a : UserFiles) (d : Disk) : string :=
  match files a !! u with Some h => default "" (content_of d (h_inode h)) | None => named_log u d end.
Definition attached (a : UserFiles) (d : Disk) (u : string) : Prop :=
  ∀ h, files a !! u = Some h → d_names d !! path u = Some (h_inode h).
Lemma attached_log a d u : attached a d u → log_of u a d = named_log u d.
Proof. unfold log_of, named_log. intros H. destruct (files a !! u) as [h|] eqn:E; [|done]. by rewrite (H h E). Qed.

(** No open file is found under the name [q], and none will be when it is opened. *)
Definition untouched (q : string) (a : UserFiles) (d : Disk) : Prop :=
  (∀ v h, files a !! v = Some h → d_names d !! q ≠ Some (h_inode h)) ∧ (∀ v, no_slash v = true → files a !! v = None → q ≠ path v).
Lemma attached_untouched q a d : tidy a d → (∀ v, no_slash v = true → attached a d v ∧ q ≠ path v) → untouched q a d.
Proof.
  intros Ht H. split; [|intros v Hv _; by apply H]. intros v h Hh E. destruct (tidy_open _ _ Ht v h Hh) as (Hv & _).
  destruct (H v Hv) as [Ha Hne]. apply Hne, (tidy_links _ _ Ht q (path v) (h_inode h)); [done|by apply Ha].
Qed.
(** Opening a file: it is found under its name, and nothing else has changed. *)
Lemma OpenAppend_spec p a d : tidy a d → ∃ h, (OpenAppend umask p d).1 = Some h ∧ h_name h = p ∧
  let d' := (OpenAppend umask p d).2 in
  d_faults d' = [] ∧ d_names d' !! p = Some (h_inode h) ∧ (∀ q, q ≠ p → d_names d' !! q = d_names d !! q) ∧
  (∀ i, is_Some (d_inodes d !! i) → d_inodes d' !! i = d_inodes d !! i) ∧ is_Some (d_inodes d' !! h_inode h) ∧
  default "" (content_of d' (h_inode h)) = default "" (d_names d !! p ≫= content_of d) ∧
  (d_names d !! p = Some (h_inode h) ∨ d_names d !! p = None ∧ d_inodes d !! h_inode h = None).
Proof.
  intros Ht. unfold OpenAppend, fault, called, with_files. rewrite (tidy_faults _ _ Ht).
  destruct (d_names d !! p) as [i|] eqn:E; cbn; (eexists; split; [done|]); cbn.
  - split_and!; try done; [by eapply tidy_names|by left].
  - pose proof (new_inode_fresh d) as Hf. split_and!; try done.
    + by rewrite lookup_insert_eq.
    + intros q Hq. by rewrite lookup_insert_ne.
    + intros i [n Hn]. rewrite lookup_insert_ne; [done|]. intros <-. by rewrite Hf in Hn.
    + by rewrite lookup_insert_eq.
    + unfold content_of. cbn. by rewrite lookup_insert_eq.
    + by right.
Qed.

Lemma OpenAppend_named p a d u : tidy a d → named_log u (OpenAppend umask p d).2 = named_log u d.
Proof.
  intros Ht. destruct (OpenAppend_spec p a d Ht) as (h & _ & _ & _ & Hp & Hq & Hi & _ & Hc & _). unfold named_log.
  destruct (decide (path u = p)) as [->|Hne]; [by rewrite Hp|]. rewrite Hq by done.
  destruct (d_names d !! path u) as [i|] eqn:E; [|done]. cbn. unfold content_of. by rewrite Hi by (by eapply tidy_names).
Qed.

(** With the file of [u] opened, or opened again. *)
Lemma open_tidy u us a d : no_slash u = true → tidy a d → ∃ h, (OpenAppend umask (path u) d).1 = Some h ∧ h_name h = path u ∧
  tidy (mkUserFiles (<[u := h]> (files a)) us) (OpenAppend umask (path u) d).2.
Proof using Hdir Hsub Hplain.
  intros Hu Ht. destruct (OpenAppend_spec (path u) a d Ht) as (h & Ho & Hn & Hf & Hp & Hq & Hi & Hs & _ & Hcase).
  exists h. split_and!; [done|done|]. set (d' := (OpenAppend umask (path u) d).2) in *.
  assert (∀ v g, files a !! v = Some g → h_inode g = h_inode h → u = v) as Hown.
  { intros v g Hg Hgh. destruct (tidy_open _ _ Ht v g Hg) as (Hv & _ & Hsome). destruct Hcase as [Hin|[_ Hin]].
    - rewrite <- Hgh in Hin. destruct (tidy_own _ _ Ht v g (path u) Hg Hin) as [E|E]; [by apply log_path_inj|by destruct (E u Hu)].
    - rewrite Hgh, Hin in Hsome. by destruct Hsome. }
  assert (∀ q i, d_names d' !! q = Some i → q = path u ∧ i = h_inode h ∨ q ≠ path u ∧ d_names d !! q = Some i) as Hnames.
  { intros q i. destruct (decide (q = path u)) as [->|Hne]; [rewrite Hp; intros [= <-]; by left|rewrite Hq by done; by right]. }
  assert (∀ q, q ≠ path u → d_names d !! q = Some (h_inode h) → False) as Hother.
  { intros q Hne Hqi. destruct Hcase as [Hin|[_ Hin]]; [by apply Hne, (tidy_links _ _ Ht q (path u) (h_inode h))|].
    destruct (tidy_names _ _ Ht _ _ Hqi) as [n E]. by rewrite Hin in E. }
  constructor; cbn; [done| | | | |].
  - intros q i [[-> ->]|[_ Hqi]]%Hnames; [done|]. pose proof (tidy_names _ _ Ht _ _ Hqi) as E. by rewrite Hi.
  - intros p q i Hpi Hqi. apply Hnames in Hpi as [[-> ->]|[Hne Hpi]], Hqi as [[-> Hh]|[Hne' Hqi]]; try done;
      [by destruct (Hother q Hne')|subst i; by destruct (Hother p Hne)|by apply (tidy_links _ _ Ht p q i)].
  - intros v g [[<- <-]|[Hne Hg]]%lookup_insert_Some; [done|]. destruct (tidy_open _ _ Ht v g Hg) as (? & ? & E). by rewrite Hi.
  - intros v g p [[<- <-]|[Hne Hg]]%lookup_insert_Some Hpi; apply Hnames in Hpi as [[-> E]|[Hnp Hpi]].
    + by left.
    + by destruct (Hother p Hnp).
    + destruct (Hne (Hown v g Hg E)).
    + by apply (tidy_own _ _ Ht v g).
  - intros v w g g' [[<- <-]|[Hne Hg]]%lookup_insert_Some [[<- <-]|[Hne' Hg']]%lookup_insert_Some E; [done| | |];
      [by apply (Hown w g')|symmetry; by apply (Hown v g)|by apply (tidy_apart _ _ Ht v w g g')].
Qed.

(** A change of the inodes that leaves them all there. *)
Lemma tidy_inodes a d names inodes : tidy a d → names = d_names d → (∀ i, is_Some (d_inodes d !! i) → is_Some (inodes !! i)) →
  tidy a (with_files names inodes d).
Proof.
  intros Ht -> Hi. constructor; cbn; [by rewrite (tidy_faults _ _ Ht)| | | | |]; try apply Ht.
  - intros p i Hp. by apply Hi, (tidy_names _ _ Ht p).
  - intros u h Hu. destruct (tidy_open _ _ Ht u h Hu) as (? & ? & ?). auto.
Qed.
Lemma ChownPath_spec p u g a d : tidy a d →
  tidy a (ChownPath p u g d) ∧ d_names (ChownPath p u g d) = d_names d ∧ ∀ i, content_of (ChownPath p u g d) i = content_of d i.
Proof.
  intros Ht. unfold ChownPath, fault, called. rewrite (tidy_faults _ _ Ht). destruct (d_names d !! p) as [j|].
  - split_and!; [|done|].
    + apply tidy_inodes; [done|done|]. intros i H. by apply lookup_alter_is_Some.
    + intros i. unfold content_of. cbn. destruct (decide (j = i)) as [->|Hne]; [|by rewrite lookup_alter_ne].
      rewrite lookup_alter_eq. by destruct (d_inodes d !! i).
  - split_and!; [|done|done]. by apply tidy_inodes.
Qed.
Lemma WriteTo_spec u h s a d : tidy a d → files a !! u = Some h →
  tidy a (WriteTo h s d) ∧ d_names (WriteTo h s d) = d_names d ∧
  (∀ i, content_of (WriteTo h s d) i = if decide (i = h_inode h) then (λ c, c +:+ s) <$> content_of d i else content_of d i).
Proof.
  intros Ht Hu. unfold WriteTo, append_to, fault. rewrite (tidy_faults _ _ Ht). split_and!; [|done|].
  - apply tidy_inodes; [done|done|]. intros i H. by apply lookup_alter_is_Some.
  - intros i. unfold content_of. cbn. case_decide as E; [subst i|by rewrite lookup_alter_ne]. rewrite lookup_alter_eq. by destruct (d_inodes d !! _).
Qed.

(** The file of [u], opened if it has not been. *)
Lemma getFile_spec u uid a d : no_slash u = true → tidy a d → ∃ h a' d', getFile umask dir sub u uid a d = (Some h, a', d') ∧
  tidy a' d' ∧ files a' !! u = Some h ∧ (∀ v, v ≠ u → files a' !! v = files a !! v) ∧
  (∀ i c, content_of d i = Some c → content_of d' i = Some c) ∧
  (∀ q, q ≠ path u → d_names d' !! q = d_names d !! q) ∧
  (∀ v, log_of v a' d' = log_of v a d) ∧ (attached a d u → attached a' d' u).
Proof using Hdir Hsub Hplain.
  intros Hu Ht. unfold getFile. destruct (files a !! u) as [h|] eqn:E; [by exists h, a, d|].
  destruct (open_tidy u (<[u := uid]> (uids a)) a d Hu Ht) as (h & Ho & Hn & Ht').
  destruct (OpenAppend_spec (path u) a d Ht) as (h' & Ho' & _ & _ & Hp & Hq & Hi & _ & Hc & _).
  pose proof (λ v, OpenAppend_named (path u) a d v Ht) as Hnamed.
  destruct (OpenAppend umask (path u) d) as [o d1]. cbn [fst snd] in *. subst o. injection Ho' as <-.
  destruct (ChownPath_spec (path u) 0 uid _ _ Ht') as (Ht2 & Hnames & Hcont).
  eexists h, _, _. split; [done|]. split_and!; [done|by cbn; rewrite lookup_insert_eq|intros v Hv; cbn; by rewrite lookup_insert_ne| | | |].
  - intros i c Hic. rewrite Hcont. unfold content_of in *. rewrite Hi; [done|]. destruct (d_inodes d !! i); [done|done].
  - intros q Hne. rewrite Hnames. by apply Hq.
  - intros v. unfold log_of, named_log in *. cbn [files]. destruct (decide (v = u)) as [->|Hne].
    + rewrite lookup_insert_eq, E, Hcont. done.
    + rewrite lookup_insert_ne by done. destruct (files a !! v) as [g|] eqn:Ev.
      * rewrite Hcont. unfold content_of. by rewrite Hi by (by eapply tidy_open).
      * rewrite Hnames, <- Hnamed. f_equal. destruct (d_names d1 !! path v); [|done]. cbn. apply Hcont.
  - intros _ g. cbn. rewrite lookup_insert_eq. intros [= <-]. by rewrite Hnames.
Qed.

(** A line goes to the log of its user, and nowhere else. *)
Lemma append_line_spec u uid line a d : no_slash u = true → tidy a d →
  let '(a', d') := append_line umask dir sub u uid line a d in
  tidy a' d' ∧ log_of u a' d' = log_of u a d +:+ line ∧ is_Some (files a' !! u) ∧
  (∀ v, v ≠ u → no_slash v = true → log_of v a' d' = log_of v a d ∧ files a' !! v = files a !! v ∧ d_names d' !! path v = d_names d !! path v) ∧
  (attached a d u → attached a' d' u).
Proof using Hdir Hsub Hplain.
  intros Hu Ht. unfold append_line. destruct (getFile_spec u uid a d Hu Ht) as (h & a' & d' & -> & Ht' & Hh & Hv & Hc & Hq & Hlog & Hatt).
  destruct (WriteTo_spec u h line a' d' Ht' Hh) as (Ht2 & Hnames & Hcont).
  destruct (tidy_open _ _ Ht' u h Hh) as (_ & _ & Hsome).
  split_and!; [done| |by eexists| |].
  - rewrite <- (Hlog u). unfold log_of. rewrite Hh, Hcont, decide_True by done. unfold content_of. by destruct Hsome as [n ->].
  - intros v Hne Hvs. split_and!; [|by apply Hv|].
    + rewrite <- (Hlog v). unfold log_of. destruct (files a' !! v) as [g|] eqn:Eg.
      * rewrite Hcont, decide_False; [done|]. intros E. by apply Hne, (tidy_apart _ _ Ht' v u g h).
      * unfold named_log. rewrite Hnames. destruct (d_names d' !! path v) as [i|] eqn:Ei; [|done]. cbn. rewrite Hcont, decide_False; [done|].
        intros ->. destruct (tidy_own _ _ Ht' u h (path v) Hh Ei) as [E|E]; [by apply Hne, log_path_inj|by destruct (E v Hvs)].
    + rewrite Hnames. apply Hq. intros E. by apply Hne, log_path_inj.
  - intros Ha g Hg. rewrite Hnames. by apply Hatt.
Qed.

(** Reopening one file, and all. *)
Lemma reopen_user_spec u h a d : no_slash u = true → h_name h = path u → tidy a d → (∃ f, files a !! u = Some f) →
  let '(a', d') := reopen_user umask (a, d) (u, h) in
  tidy a' d' ∧ dom (files a') = dom (files a) ∧ (∀ v, named_log v d' = named_log v d) ∧ attached a' d' u ∧
  (∀ v, no_slash v = true → attached a d v → attached a' d' v) ∧ (∀ i c, content_of d i = Some c → content_of d' i = Some c).
Proof using Hdir Hsub Hplain.
  intros Hu Hn Ht [f0 Hf0]. unfold reopen_user. rewrite Hn.
  destruct (open_tidy u (uids a) a d Hu Ht) as (f & Ho & _ & Ht').
  destruct (OpenAppend_spec (path u) a d Ht) as (h' & Ho' & _ & _ & Hp & Hq & Hi & _).
  pose proof (λ v, OpenAppend_named (path u) a d v Ht) as Hnamed.
  destruct (OpenAppend umask (path u) d) as [o d1]. cbn [fst snd] in *. subst o. injection Ho' as <-.
  set (d2 := match uids a !! u with Some uid => ChownPath (path u) 0 uid d1 | None => d1 end).
  assert (tidy (mkUserFiles (<[u:=f]> (files a)) (uids a)) d2 ∧ d_names d2 = d_names d1 ∧ ∀ i, content_of d2 i = content_of d1 i) as (Ht2 & Hnames & Hcont).
  { unfold d2. destruct (uids a !! u) as [uid|]; [by apply ChownPath_spec|done]. }
  split_and!; [done| | | | |].
  - cbn. rewrite dom_insert_L. apply elem_of_dom_2 in Hf0. set_solver.
  - intros v. rewrite <- Hnamed. unfold named_log. rewrite Hnames. f_equal. destruct (d_names d1 !! path v); [|done]. apply Hcont.
  - intros g. cbn. rewrite lookup_insert_eq, Hnames. by intros [= <-].
  - intros v Hv Hatt g. cbn. rewrite Hnames. intros [[<- <-]|[Hne Hg]]%lookup_insert_Some; [done|].
    rewrite Hq; [by apply Hatt|]. intros E. by apply Hne, log_path_inj.
  - intros i c Hic. rewrite Hcont. unfold content_of in *. rewrite Hi; [done|]. by destruct (d_inodes d !! i).
Qed.

Lemma reopen_all l a d : tidy a d → (∀ u h, (u, h) ∈ l → no_slash u = true ∧ h_name h = path u ∧ u ∈ dom (files a)) →
  let '(a', d') := foldl (reopen_user umask) (a, d) l in
  tidy a' d' ∧ dom (files a') = dom (files a) ∧ (∀ v, named_log v d' = named_log v d) ∧
  (∀ v, no_slash v = true → v ∈ l.*1 ∨ attached a d v → attached a' d' v) ∧ (∀ i c, content_of d i = Some c → content_of d' i = Some c).
Proof using Hdir Hsub Hplain.
  revert a d. induction l as [|[u h] l IH]; intros a d Ht Hl; [split_and!; try done; intros v _ [Hv|?]; [by apply elem_of_nil in Hv|done]|].
  destruct (Hl u h ltac:(left)) as (Hu & Hn & [f Hf]%elem_of_dom). cbn [foldl].
  pose proof (reopen_user_spec u h a d Hu Hn Ht (ex_intro _ f Hf)) as H1. destruct (reopen_user umask (a, d) (u, h)) as [a1 d1].
  destruct H1 as (Ht1 & Hdom & Hnamed & Hau & Hatt & Hc).
  specialize (IH a1 d1 Ht1). destruct (foldl (reopen_user umask) (a1, d1) l) as [a2 d2].
  destruct IH as (Ht2 & Hdom2 & Hnamed2 & Hatt2 & Hc2). { intros v g Hin. rewrite Hdom. apply Hl. by right. }
  split_and!; [done|by rewrite Hdom2|intros v; by rewrite Hnamed2| |auto].
  intros v Hv Hin. apply Hatt2; [done|]. cbn in Hin. rewrite elem_of_cons in Hin. destruct Hin as [[->|Hin]|Hin]; [by right|by left|right; by apply Hatt].
Qed.
Lemma reopen_users_spec range a d : (∀ m, range m ≡ₚ map_to_list m) → tidy a d →
  let '(a', d') := reopen_users umask range a d in
  tidy a' d' ∧ (∀ u, named_log u d' = named_log u d) ∧ (∀ u, no_slash u = true → attached a' d' u) ∧
  (∀ i c, content_of d i = Some c → content_of d' i = Some c).
Proof using Hdir Hsub Hplain.
  intros Hr Ht. unfold reopen_users. pose proof (reopen_all (range (files a)) a d Ht) as H.
  destruct (foldl _ _ _) as [a' d']. destruct H as (Ht' & Hdom & Hnamed & Hatt & Hc).
  { intros u h Hin. rewrite (Hr (files a)) in Hin. apply elem_of_map_to_list in Hin. destruct (tidy_open _ _ Ht u h Hin) as (? & ? & _).
    split_and!; [done..|]. by apply elem_of_dom_2 in Hin. }
  split_and!; [done..| |done]. intros u Hu. destruct (files a !! u) as [h|] eqn:E.
  - apply Hatt; [done|]. left. apply elem_of_map_to_list in E. rewrite <- (Hr (files a)) in E. change u with ((u, h).1). by apply list_elem_of_fmap_2.
  - intros g Hg%elem_of_dom_2. rewrite Hdom in Hg. apply elem_of_dom in Hg as [x Hg]. by rewrite E in Hg.
Qed.

(** Opening and reopening take no name away. *)
Definition names_stay (d d' : Disk) : Prop := ∀ q i, d_names d !! q = Some i → d_names d' !! q = Some i.
Lemma OpenAppend_names p d : names_stay d (OpenAppend umask p d).2.
Proof.
  unfold OpenAppend. intros q i Hq. repeat case_match; try done. cbn. rewrite lookup_insert_ne; [done|]. intros <-. congruence.
Qed.
Lemma reopen_user_names us uf : names_stay us.2 (reopen_user umask us uf).2.
Proof.
  destruct us as [a d], uf as [u f]. unfold reopen_user. pose proof (OpenAppend_names (h_name f) d) as H.
  destruct (OpenAppend _ _ _) as [[g|] d1]; [|done]. cbn [snd] in *. case_match; [|done]. intros q i Hq%H.
  unfold ChownPath. by repeat case_match.
Qed.
Lemma reopen_users_names range a d : names_stay d (reopen_users umask range a d).2.
Proof.
  unfold reopen_users. change (names_stay (a, d).2 (foldl (reopen_user umask) (a, d) (range (files a))).2).
  generalize (a, d). induction (range (files a)) as [|uf l IH]; intros us q i Hq; [done|]. cbn. by apply IH, reopen_user_names.
Qed.
Lemma OpenAppend_tidy p a d : tidy a d → tidy a (OpenAppend umask p d).2.
Proof.
  intros Ht. unfold OpenAppend, fault, called. rewrite (tidy_faults _ _ Ht).
  destruct (d_names d !! p) as [i|] eqn:E; [by apply tidy_inodes|]. pose proof (new_inode_fresh d) as Hf. set (j := new_inode d) in *.
  assert (∀ k, is_Some (d_inodes d !! k) → k ≠ j) as Hj by (intros k [n Hk] ->; by rewrite Hf in Hk).
  constructor; cbn; [by rewrite (tidy_faults _ _ Ht)| | | | |apply Ht].
  - intros q k [[<- <-]|[_ Hq]]%lookup_insert_Some; [by rewrite lookup_insert_eq|].
    pose proof (tidy_names _ _ Ht _ _ Hq). rewrite lookup_insert_ne; [done|]. symmetry. by apply Hj.
  - intros q r k [[<- <-]|[_ Hq]]%lookup_insert_Some [[<- E']|[_ Hr]]%lookup_insert_Some; [done| | |by apply (tidy_links _ _ Ht q r k)].
    + by destruct (Hj j (tidy_names _ _ Ht _ _ Hr)).
    + subst k. by destruct (Hj j (tidy_names _ _ Ht _ _ Hq)).
  - intros v h Hh. destruct (tidy_open _ _ Ht v h Hh) as (? & ? & Hs). split_and!; [done..|]. rewrite lookup_insert_ne; [done|]. symmetry. by apply Hj.
  - intros v h q Hh [[<- E']|[_ Hq]]%lookup_insert_Some; [|by apply (tidy_own _ _ Ht v h)].
    destruct (Hj (h_inode h)); [by eapply tidy_open|done].
Qed.

(** logrotate: the file gets the new name, and a new one is made under its old. *)
Definition rotate (old new : string) (d : Disk) : Disk :=
  match d_names d !! old with
  | None => d
  | Some i =>
    let j := new_inode d in
    mkDisk (<[old := j]> (<[new := i]> (d_names d))) (<[j := mkInode "" 416 0 0]> (d_inodes d)) (d_faults d)
  end.
Lemma rotate_spec u new i a d : no_slash u = true → tidy a d → d_names d !! path u = Some i →
  d_names d !! new = None → (∀ v, no_slash v = true → new ≠ path v) →
  let d' := rotate (path u) new d in
  tidy a d' ∧ d_names d' !! new = Some i ∧ named_log u d' = "" ∧ (∀ j c, content_of d j = Some c → content_of d' j = Some c) ∧
  (is_Some (files a !! u) → untouched (path u) a d').
Proof using Hdir Hsub Hplain.
  intros Hu Ht Hi Hnew Hv. unfold rotate. rewrite Hi. pose proof (new_inode_fresh d) as Hf. set (j := new_inode d) in *.
  assert (∀ k, is_Some (d_inodes d !! k) → k ≠ j) as Hj by (intros k [n Hk] ->; by rewrite Hf in Hk).
  pose proof (Hv u Hu) as Hne. pose proof (tidy_names _ _ Ht _ _ Hi) as Hsi.
  assert (∀ k c, content_of d k = Some c → content_of (mkDisk (<[path u:=j]> (<[new:=i]> (d_names d))) (<[j:=mkInode "" 416 0 0]> (d_inodes d)) (d_faults d)) k = Some c) as Hc.
  { intros k c Hk. unfold content_of in *. cbn. rewrite lookup_insert_ne; [done|]. intros <-. by rewrite Hf in Hk. }
  cbn zeta. split_and!; [constructor; cbn|by cbn; rewrite lookup_insert_ne, lookup_insert_eq| |done|].
  - apply Ht.
  - intros p k [[<- <-]|[_ [[<- <-]|[_ Hp]]%lookup_insert_Some]]%lookup_insert_Some; [by rewrite lookup_insert_eq| |].
    + rewrite lookup_insert_ne; [done|]. symmetry. by apply Hj.
    + pose proof (tidy_names _ _ Ht _ _ Hp). rewrite lookup_insert_ne; [done|]. symmetry. by apply Hj.
  - intros p q k [[<- <-]|[Hp1 [[<- <-]|[Hp2 Hp]]%lookup_insert_Some]]%lookup_insert_Some
      [[<- E]|[Hq1 [[<- E]|[Hq2 Hq]]%lookup_insert_Some]]%lookup_insert_Some; try done.
    + by destruct (Hj i).
    + by destruct (Hj j (tidy_names _ _ Ht _ _ Hq)).
    + by destruct (Hj i).
    + by destruct Hq1; apply (tidy_links _ _ Ht (path u) q i).
    + destruct (Hj k); [by eapply tidy_names|done].
    + subst k. by destruct Hp1; apply (tidy_links _ _ Ht (path u) p i).
    + by apply (tidy_links _ _ Ht p q k).
  - intros v h Hh. destruct (tidy_open _ _ Ht v h Hh) as (? & ? & Hs). split_and!; [done..|]. rewrite lookup_insert_ne; [done|]. symmetry. by apply Hj.
  - intros v h p Hh [[<- E]|[_ [[<- E]|[_ Hp]]%lookup_insert_Some]]%lookup_insert_Some.
    + destruct (Hj (h_inode h)); [by eapply tidy_open|done].
    + by right.
    + by apply (tidy_own _ _ Ht v h).
  - apply Ht.
  - unfold named_log. cbn. rewrite lookup_insert_eq. cbn. unfold content_of. cbn. by rewrite lookup_insert_eq.
  - intros Ho. split; [|intros v Hvs E ->%log_path_inj; [by destruct Ho as [? Ho]; rewrite E in Ho|done|done]].
    intros v h Hh. cbn. rewrite lookup_insert_eq. intros [= E]. apply (Hj (h_inode h)); [by eapply tidy_open|done].
Qed.

Lemma rotate_others u v new a d : no_slash u = true → no_slash v = true → v ≠ u → tidy a d → (∀ w, no_slash w = true → new ≠ path w) →
  let d' := rotate (path u) new d in
  (attached a d v → attached a d' v) ∧ log_of v a d' = log_of v a d.
Proof using Hdir Hsub Hplain.
  intros Hu Hv Hne Ht Hnew d'. subst d'. unfold rotate. destruct (d_names d !! path u) as [i|]; [|done].
  pose proof (new_inode_fresh d) as Hf. set (j := new_inode d) in *.
  assert (path u ≠ path v) as Hp by (intros E%log_path_inj; [by subst|done..]). pose proof (Hnew v Hv) as Hq.
  assert (∀ k, is_Some (d_inodes d !! k) → k ≠ j) as Hj by (intros k [n Hk] ->; by rewrite Hf in Hk).
  split.
  - intros Ha h Hh. cbn. rewrite !lookup_insert_ne by done. by apply Ha.
  - unfold log_of, named_log, content_of. cbn. rewrite !(lookup_insert_ne _ (path u)), (lookup_insert_ne _ new) by done.
    destruct (files a !! v) as [h|] eqn:Eh.
    + rewrite lookup_insert_ne; [done|]. symmetry. apply Hj. by apply (tidy_open _ _ Ht v h Eh).
    + destruct (d_names d !! path v) as [k|] eqn:Ek; [|done]. cbn. rewrite lookup_insert_ne; [done|]. symmetry. apply Hj. by apply (tidy_names _ _ Ht _ _ Ek).
Qed.

Lemma append_line_at q u uid line a d : no_slash u = true → tidy a d →
  let '(a', d') := append_line umask dir sub u uid line a d in
  (q ≠ path u → d_names d' !! q = d_names d !! q) ∧ (untouched q a d → at_name q d' = at_name q d ∧ untouched q a' d').
Proof using Hdir Hsub Hplain.
  intros Hu Ht. unfold append_line. destruct (getFile_spec u uid a d Hu Ht) as (h & a' & d' & Hg & Ht' & Hh & Hv & Hc & Hn & _ & Hatt).
  rewrite Hg. destruct (WriteTo_spec u h line a' d' Ht' Hh) as (_ & Hnames & Hcont).
  split; [intros Hq; rewrite Hnames; by apply Hn|]. intros [H1 H2].
  assert (d_names d' !! q = d_names d !! q ∧ d_names d !! q ≠ Some (h_inode h)) as [E Hne].
  { destruct (files a !! u) as [f|] eqn:Ef.
    - unfold getFile in Hg. rewrite Ef in Hg. injection Hg as <- <- <-. split; [done|by apply (H1 u)].
    - pose proof (H2 u Hu Ef) as Hq. split; [by apply Hn|]. intros Ei. rewrite <- (Hn q Hq) in Ei.
      apply Hq, (tidy_links _ _ Ht' q (path u) (h_inode h)); [done|]. apply Hatt; [|done]. intros g Hg'. by rewrite Ef in Hg'. }
  split.
  - unfold at_name. rewrite Hnames, E. destruct (d_names d !! q) as [i|] eqn:Ei; [|done]. cbn. rewrite Hcont, decide_False by congruence.
    destruct (tidy_names _ _ Ht _ _ Ei) as [n Hi]. assert (content_of d i = Some (i_content n)) as Ec by (unfold content_of; by rewrite Hi).
    by rewrite Ec, (Hc _ _ Ec).
  - split.
    + intros v g Hg'. rewrite Hnames, E. destruct (decide (v = u)) as [->|Hvu]; [congruence|]. rewrite Hv in Hg' by done. by apply (H1 v).
    + intros v Hvs Hnone. destruct (decide (v = u)) as [->|Hvu]; [congruence|]. rewrite Hv in Hnone by done. by apply H2.
Qed.
Lemma append_line_open u uid line a d v h : files a !! v = Some h → files (append_line umask dir sub u uid line a d).1 !! v = Some h.
Proof.
  intros Hv. unfold append_line, getFile. destruct (files a !! u) as [f|] eqn:E; [done|].
  destruct (OpenAppend _ _ _) as [[f|] d']; [|done]. cbn. rewrite lookup_insert_ne; [done|]. intros <-. by rewrite E in Hv.
Qed.

(** Many lines, each with its user and uid. *)
Definition write_lines (ws : list (string * Z * string)) (ad : UserFiles * Disk) : UserFiles * Disk :=
  foldl (λ '(a, d) '(u, uid, line), append_line umask dir sub u uid line a d) ad ws.
Definition text_of (u : string) (ws : list (string * Z * string)) : string :=
  concat_str (snd <$> List.filter (λ w, w.1.1 ==s u) ws).
Lemma text_of_cons u w ws : text_of u (w :: ws) = (if w.1.1 ==s u then w.2 else "") +:+ text_of u ws.
Proof. unfold text_of. cbn. by destruct (_ ==s u). Qed.
Definition plain_users (ws : list (string * Z * string)) : Prop := Forall (λ w, no_slash w.1.1 = true) ws.

Lemma write_lines_spec ws : ∀ us d, plain_users ws → tidy us d →
  let '(us', d') := write_lines ws (us, d) in
  tidy us' d' ∧ (∀ u, no_slash u = true → log_of u us' d' = log_of u us d +:+ text_of u ws) ∧
  (∀ u, no_slash u = true → attached us d u → attached us' d' u) ∧
  (∀ u, text_of u ws ≠ "" → is_Some (files us' !! u)) ∧
  (∀ u h, files us !! u = Some h → files us' !! u = Some h) ∧
  (∀ q, (∀ u, no_slash u = true → q ≠ path u) → d_names d' !! q = d_names d !! q) ∧
  (∀ q, untouched q us d → at_name q d' = at_name q d).
Proof using Hdir Hsub Hplain.
  induction ws as [|[[w uid] line] ws IH]; intros us d Hpl Ht.
  { cbn. split_and!; try done. intros u Hu. by rewrite app_nil_r_str. }
  apply Forall_cons in Hpl as [Hu Hpl]. cbn [fst] in Hu. cbn [write_lines foldl].
  pose proof (append_line_spec w uid line us d Hu Ht) as H.
  pose proof (λ v h, append_line_open w uid line us d v h) as Hopen.
  pose proof (λ q, append_line_at q w uid line us d Hu Ht) as Hat.
  destruct (append_line _ _ _ _ _ _ _ _) as [us1 d1]. destruct H as (Ht1 & Hlog & Hsome & Hother & Hatt). cbn [fst] in Hopen.
  specialize (IH us1 d1 Hpl Ht1). unfold write_lines in IH. destruct (foldl _ (us1, d1) ws) as [us' d'].
  destruct IH as (Ht' & Hlog' & Hatt' & Hsome' & Hopen' & Hq' & Hun').
  assert (∀ u, no_slash u = true → attached us d u → attached us1 d1 u) as Hatt1.
  { intros u Hun Ha. destruct (decide (u = w)) as [->|Hne]; [by apply Hatt|]. destruct (Hother u Hne Hun) as (_ & Hf & Hn).
    intros g. rewrite Hf, Hn. apply Ha. }
  split_and!; [done| |auto| |auto| |].
  - intros u Hun. rewrite Hlog', text_of_cons by done. cbn [fst snd]. destruct (String.eqb_spec w u) as [<-|Hne].
    + by rewrite Hlog, app_assoc_str.
    + by destruct (Hother u ltac:(congruence) Hun) as (-> & _ & _).
  - intros u. rewrite text_of_cons. cbn [fst snd]. destruct (String.eqb_spec w u) as [<-|Hne]; [|auto].
    intros _. destruct Hsome as [h Hh]. exists h. by apply Hopen'.
  - intros q Hq. rewrite Hq' by done. by apply (Hat q), Hq.
  - intros q Hq. destruct (proj2 (Hat q) Hq) as [<- Hq1]. by apply Hun'.
Qed.
End tidy.

(** ** Lemmas: many entries *)

Lemma operation_plain : no_slash user_operation = true ∧ plain_name user_operation.
Proof. done. Qed.
Definition entry_line (ne : Z * AuditEntry) : string := log_line (audit_members (completed_entry ne.1 ne.2)).
Definition entry_lines : list (Z * AuditEntry) → list (string * Z * string) := fmap (λ ne, (ae_User ne.2, ae_UID ne.2, entry_line ne)).
Definition write_entries umask (es : list (Z * AuditEntry)) (ad : option AuditLogger * Disk) : option AuditLogger * Disk :=
  foldl (λ ad ne, WriteEntry umask ne.1 ne.2 ad.1 ad.2) ad es.
Definition lines_of (u : string) (es : list (Z * AuditEntry)) : string := text_of u (entry_lines es).
Definition users_plain (es : list (Z * AuditEntry)) : Prop := plain_users (entry_lines es).
Lemma write_entries_lines umask es dir us auth d :
  write_entries umask es (Some (mkAuditLogger dir us auth), d) =
    let '(us', d') := write_lines umask dir user_operation (entry_lines es) (us, d) in (Some (mkAuditLogger dir us' auth), d').
Proof.
  revert us d. induction es as [|[now e] es IH]; intros us d; [done|].
  cbn [write_entries foldl fst snd WriteEntry on_logger logDir users authLog entry_lines fmap list_fmap write_lines].
  fold (entry_line (now, e)). destruct (append_line _ _ _ _ _ _ _ _) as [us1 d1]. apply IH.
Qed.

(** ** Theorems: the trail *)

(** C33: One entry, one line, whatever is in it.  The line of an entry has no control
    character but the line feed at its end, so nothing a client chooses (a path, a
    name, a command) can begin another one; between braces it is read back as the
    entry's members, but for bytes that are no UTF-8. *)
Theorem entry_is_one_line now e :
  let kvs := audit_members (completed_entry now e) in
  ∃ body, entry_line (now, e) = body +:+ String NL "" ∧ str_forallb printable body = true ∧
    json_of_text ("{" +:+ body +:+ "}") = Some (sanitized (JObj kvs)).
Proof.
  intros kvs. exists (line_body kvs). split; [apply log_line_body|]. apply log_line_reads, simple_audit_members.
Qed.

(** What happens to the trail: entries, rotations, and files opened again. *)
Inductive AuditOp :=
| OpEntry (now : Z) (e : AuditEntry)
| OpAuth (now : Z) (e : AuthAuditEntry)
| OpReopen
| OpRotate (old new : string)
| OpDown.
Definition audit_op (umask : Z) (range : gmap string Handle → list (string * Handle)) (op : AuditOp)
    (ad : option AuditLogger * Disk) : option AuditLogger * Disk :=
  match op with
  | OpEntry now e => WriteEntry umask now e ad.1 ad.2
  | OpAuth now e => LogAuth now e ad.1 ad.2
  | OpReopen => Reopen umask range ad.1 ad.2
  | OpRotate old new => (ad.1, rotate old new ad.2)
  | OpDown => (None, ad.2)
  end.

Lemma rotate_grows old new d : grows d (rotate old new d).
Proof. unfold rotate. destruct (d_names d !! old); [|done]. intros i c Hi. apply (grows_insert (d_names d) d _ _ (new_inode_fresh d) i c Hi). Qed.
Lemma audit_op_grows umask range op ad : grows ad.2 (audit_op umask range op ad).2.
Proof.
  destruct ad as [[a|] d], op as [now e|now e| |old new|]; cbn; try done; try apply rotate_grows.
  - pose proof (append_line_grows umask (logDir a) user_operation (ae_User e) (ae_UID e) (log_line (audit_members (completed_entry now e))) (users a) d) as H.
    by destruct (append_line _ _ _ _ _ _ _ _).
  - destruct (authLog a); [apply WriteTo_grows|done].
  - pose proof (reopen_users_grows umask range (users a) d) as H. destruct (reopen_users _ _ _ _) as [us d1].
    destruct (authLog a) as [f|]; [|done]. pose proof (OpenAppend_grows umask (h_name f) d1) as H2.
    destruct (OpenAppend _ _ _). by etrans.
Qed.

(** The trail is append-only.  Whatever the entries, whatever calls fail and however
    files are rotated, opened again and given to others in between, of what has once
    arrived in a file nothing is overwritten or cut off. *)
Theorem trail_only_grows umask range ops ad : grows ad.2 (foldr (audit_op umask range) ad ops).2.
Proof. induction ops as [|op ops IH]; [done|]. cbn. etrans; [exact IH|apply audit_op_grows]. Qed.

Lemma Reopen_spec umask range dir us auth d : is_rooted dir = true → (∀ m, range m ≡ₚ map_to_list m) → tidy dir user_operation us d →
  ∃ us' auth' d', Reopen umask range (Some (mkAuditLogger dir us auth)) d = (Some (mkAuditLogger dir us' auth'), d') ∧
  tidy dir user_operation us' d' ∧ (∀ u, named_log dir user_operation u d' = named_log dir user_operation u d) ∧
  (∀ u, no_slash u = true → attached dir user_operation us' d' u) ∧ names_stay d d' ∧
  (∀ i c, content_of d i = Some c → content_of d' i = Some c).
Proof.
  intros Hdir Hr Ht. destruct operation_plain as [Hs Hp]. cbn [Reopen on_logger users logDir authLog].
  pose proof (reopen_users_spec umask dir user_operation Hdir Hs Hp range us d Hr Ht) as H.
  pose proof (reopen_users_names umask range us d) as Hn. destruct (reopen_users umask range us d) as [us' d1].
  destruct H as (Ht1 & Hnamed & Hatt & Hc). destruct auth as [f|]; [|by eexists _, _, _].
  pose proof (OpenAppend_tidy umask dir user_operation (h_name f) us' d1 Ht1) as Ht2.
  pose proof (OpenAppend_names umask (h_name f) d1) as Hn2.
  pose proof (λ u, OpenAppend_named umask dir user_operation (h_name f) us' d1 u Ht1) as Hnamed2.
  destruct (OpenAppend_spec umask dir user_operation (h_name f) us' d1 Ht1) as (g & _ & _ & _ & _ & _ & Hi & _).
  destruct (OpenAppend umask (h_name f) d1) as [auth' d2]. cbn [snd] in *. eexists _, _, _. split_and!; [done|done| | | |].
  - intros u. by rewrite Hnamed2.
  - intros u Hu h Hh. by apply Hn2, Hatt.
  - intros q i Hq. by apply Hn2, Hn.
  - intros i c Hic%Hc. unfold content_of in *. rewrite Hi; [done|]. by destruct (d_inodes d1 !! i).
Qed.

(** C35: Rotation loses nothing.  While no call on the files fails, and with user names
    without a slash, the file of a user is renamed between entries, and later all files are
    opened again: the entries written before the rotation and between it and the reopening
    are in the rotated file, those written after it in the new one, each in order and
    complete, whoever else's entries come in between; and the file of every other user has
    all entries of that user, and no others, behind what it held. *)
Theorem rotation_loses_nothing umask range dir us auth d u h new w1 w2 w3 :
  is_rooted dir = true → (∀ m, range m ≡ₚ map_to_list m) → tidy dir user_operation us d →
  users_plain w1 → users_plain w2 → users_plain w3 → no_slash u = true → files us !! u = Some h →
  (∀ v, no_slash v = true → attached dir user_operation us d v) →
  d_names d !! new = None → (∀ v, no_slash v = true → new ≠ log_path dir user_operation v) →
  let p := log_path dir user_operation u in
  let '(l1, d1) := write_entries umask w1 (Some (mkAuditLogger dir us auth), d) in
  let '(l2, d2) := write_entries umask w2 (l1, rotate p new d1) in
  let '(l3, d3) := Reopen umask range l2 d2 in
  let '(l4, d4) := write_entries umask w3 (l3, d3) in
  at_name new d4 = Some (log_of dir user_operation u us d +:+ lines_of u w1 +:+ lines_of u w2) ∧
  default "" (at_name p d4) = lines_of u w3 ∧
  ∀ v, no_slash v = true → v ≠ u →
    default "" (at_name (log_path dir user_operation v) d4) =
      log_of dir user_operation v us d +:+ lines_of v w1 +:+ lines_of v w2 +:+ lines_of v w3.
Proof.
  intros Hdir Hr Ht Hw1 Hw2 Hw3 Hu Hh Hatt Hnew Hq. cbv zeta. destruct operation_plain as [Hs Hp].
  rewrite (write_entries_lines umask w1).
  pose proof (write_lines_spec umask dir user_operation Hdir Hs Hp _ us d Hw1 Ht) as H. destruct (write_lines _ _ _ _ _) as [us1 d1].
  destruct H as (Ht1 & Hlog1 & Hatt1 & _ & Ho1 & Hn1 & _).
  specialize (Hn1 new Hq). rewrite Hnew in Hn1. pose proof (Ho1 _ _ Hh) as Hh1.
  destruct (tidy_open _ _ _ _ Ht1 u h Hh1) as (_ & _ & [n Hn]).
  destruct (rotate_spec dir user_operation Hdir Hs Hp u new (h_inode h) us1 d1 Hu Ht1 (Hatt1 u Hu (Hatt u Hu) h Hh1) Hn1 Hq)
    as (Ht1' & Hnew1' & Hnamed & Hc1 & Hun1).
  pose proof (λ v Hv Hne, rotate_others dir user_operation Hdir Hs Hp u v new us1 d1 Hu Hv Hne Ht1 Hq) as Hothers. cbv zeta in Hothers. set (dr := rotate (log_path dir user_operation u) new d1) in *.
  rewrite (write_entries_lines umask w2).
  pose proof (write_lines_spec umask dir user_operation Hdir Hs Hp _ us1 dr Hw2 Ht1') as H. destruct (write_lines _ _ _ _ _) as [us2 d2].
  destruct H as (Ht2 & Hlog2 & Hatt2 & _ & Ho2 & Hn2 & Hun2).
  assert (log_of dir user_operation u us2 d2 = log_of dir user_operation u us d +:+ lines_of u w1 +:+ lines_of u w2) as Hl.
  { unfold lines_of. rewrite Hlog2, app_assoc_str, <- Hlog1 by done. f_equal. unfold log_of. rewrite Hh1.
    assert (content_of d1 (h_inode h) = Some (i_content n)) as E by (unfold content_of; by rewrite Hn). by rewrite E, (Hc1 _ _ E). }
  destruct (Reopen_spec umask range dir us2 auth d2 Hdir Hr Ht2) as (us3 & auth3 & d3 & -> & Ht3 & Hnamed3 & Hatt3 & Hstay & Hc3).
  rewrite (write_entries_lines umask w3).
  pose proof (write_lines_spec umask dir user_operation Hdir Hs Hp _ us3 d3 Hw3 Ht3) as H. destruct (write_lines _ _ _ _ _) as [us4 d4].
  destruct H as (Ht4 & Hlog4 & Hatt4 & _ & _ & _ & Hun4).
  assert (∀ v, no_slash v = true → named_log dir user_operation v d4 = named_log dir user_operation v d2 +:+ lines_of v w3) as Hnew4.
  { intros v Hv. rewrite <- (attached_log _ _ us4) by (by apply Hatt4; [|apply Hatt3]). rewrite Hlog4 by done.
    by rewrite (attached_log _ _ us3), Hnamed3 by (by apply Hatt3). }
  split_and!.
  - rewrite Hun4 by (apply attached_untouched; [done|]; intros v Hv; split; [by apply Hatt3|by apply Hq]).
    specialize (Hn2 new Hq). rewrite Hnew1' in Hn2. unfold at_name. rewrite (Hstay _ _ Hn2). cbn. apply Hc3. rewrite <- Hl. unfold log_of.
    rewrite (Ho2 _ _ Hh1). destruct (tidy_names _ _ _ _ Ht2 _ _ Hn2) as [m Hm]. unfold content_of. by rewrite Hm.
  - change (named_log dir user_operation u d4 = lines_of u w3). rewrite Hnew4 by done. unfold named_log in *.
    fold (at_name (log_path dir user_operation u) d2) (at_name (log_path dir user_operation u) dr) in *. rewrite Hun2, Hnamed; [done|].
    by apply Hun1.
  - intros v Hv Hne. destruct (Hothers v Hv Hne) as [Ha Hsame]. specialize (Ha (Hatt1 v Hv (Hatt v Hv))).
    change (named_log dir user_operation v d4 = log_of dir user_operation v us d +:+ lines_of v w1 +:+ lines_of v w2 +:+ lines_of v w3).
    rewrite Hnew4, <- (attached_log _ _ us2) by auto. by rewrite Hlog2, Hsame, Hlog1, !app_assoc_str by done.
Qed.

(** ** Theorems: the containers *)

Lemma container_run_plain : no_slash container_run = true ∧ plain_name container_run.
Proof. done. Qed.
(** The lines that events become, with the log each belongs to. *)
Definition event_line (lookup : string → option (string * Z)) (line : string) : option (string * Z * string) :=
  if line ==s "" then None else
  '(username, uid, e) ← container_event lookup line; Some (container_key username, uid, log_line (container_members e)).
Definition event_lines (lookup : nat → string → option (string * Z)) (lines : list string) : list (string * Z * string) :=
  omap (λ il, event_line (lookup il.1) il.2) (imap pair lines).
Lemma container_line_event umask lookup line dir us d :
  container_line umask lookup line (mkContainerLogger dir us) d =
    match event_line lookup line with
    | Some (u, uid, text) => let '(us, d) := append_line umask dir container_run u uid text us d in (mkContainerLogger dir us, d)
    | None => (mkContainerLogger dir us, d)
    end.
Proof.
  unfold container_line, event_line. destruct (line ==s ""); [done|]. by destruct (container_event lookup line) as [[[u uid] e]|].
Qed.
Lemma stream_lines umask lookup text broken dir us d :
  stream umask lookup (Answer text broken) (mkContainerLogger dir us) d =
    let '(us', d') := write_lines umask dir container_run (event_lines lookup (scan_lines text).1) (us, d) in
    ((scan_lines text).2 || broken, mkContainerLogger dir us', d').
Proof.
  unfold stream, event_lines. destruct (scan_lines text) as [lines long]. cbn [fst snd].
  generalize (imap pair lines). intros l. revert us d. induction l as [|[i line] l IH]; intros us d; [done|].
  cbn [foldl omap list_omap fst snd]. rewrite container_line_event. destruct (event_line (lookup i) line) as [[[u uid] w]|]; [|apply IH].
  cbn [write_lines foldl]. destruct (append_line _ _ _ _ _ _ _ _) as [us1 d1]. apply IH.
Qed.

(** The log of containers follows their owners.  Of the events of one connection, the
    log of a user has exactly those of containers that were the user's when the
    event was read (those of nobody's are in the log of [unknown]), in order, each
    one line; when a line is too long for the buffer, those up to it. *)
Theorem container_log_follows_owner umask dir us d lookup text broken u :
  is_rooted dir = true → tidy dir container_run us d → no_slash u = true →
  (∀ i id username uid, lookup i id = Some (username, uid) → no_slash username = true) →
  let '(_, c', d') := stream umask lookup (Answer text broken) (mkContainerLogger dir us) d in
  log_of dir container_run u (cl_users c') d' =
    log_of dir container_run u us d +:+ text_of u (event_lines lookup (scan_lines text).1).
Proof.
  intros Hdir Ht Hu Hl. destruct container_run_plain as [Hs Hp]. rewrite stream_lines.
  pose proof (write_lines_spec umask dir container_run Hdir Hs Hp (event_lines lookup (scan_lines text).1) us d) as H.
  destruct (write_lines _ _ _ _ _) as [us' d']. apply H; [|done|done]. apply Forall_forall.
  intros w (il & _ & Hw)%list_elem_of_omap. unfold event_line, container_event in Hw. destruct (_ ==s ""); [done|].
  destruct (json_of_text il.2 ≫= _) as [raw|]; [|done]. cbn [mbind option_bind] in Hw. destruct (negb _); [done|].
  destruct (re_Actor raw) as [id attributes]. destruct (lookup il.1 id) as [[username uid]|] eqn:E; injection Hw as <-; cbn [fst]; [|done].
  unfold container_key. destruct (_ ==s ""); [done|by eapply Hl].
Qed.

(** A connection the daemon ends in good order ends the log of containers: nothing of
    later connections is recorded. *)
Lemma container_log_ends umask text lookup conns c d :
  (scan_lines text).2 = false →
  run umask ((Answer text false, lookup) :: conns) c d = (false, (stream umask lookup (Answer text false) c d).1.2, (stream umask lookup (Answer text false) c d).2).
Proof. intros Hl. destruct c as [dir us]. cbn [run]. rewrite stream_lines. destruct (write_lines _ _ _ _ _) as [us' d']. by rewrite Hl. Qed.

(** A disk with no log on it. *)
Lemma tidy_no_files dir sub names inodes :
  (∀ p i, names !! p = Some i → is_Some (inodes !! i)) → (∀ p q i, names !! p = Some i → names !! q = Some i → p = q) →
  tidy dir sub no_files (mkDisk names inodes []).
Proof. intros H1 H2. constructor; cbn; try done; intros u h; by rewrite lookup_empty. Qed.
Lemma log_path_ne dir sub u name : is_rooted dir = true → no_slash sub = true → plain_name sub → no_slash u = true →
  no_slash name = true → plain_name name → HasSuffix name ".log" = false → PathJoin (PathJoin dir sub) name ≠ log_path dir sub u.
Proof.
  intros Hd Hs Hp Hu Hn Hpn Hl E. destruct (log_name_ok u Hu). eapply PathJoin_inj in E; [|by apply (clean_segs_below dir sub)|done..].
  subst name. by rewrite HasSuffix_app in Hl.
Qed.

Module AuditDemo.
Definition dir : string := "/var/log/docker-authz".
Definition range : gmap string Handle → list (string * Handle) := map_to_list.
Definition entry (user action : string) : Z * AuditEntry :=
  (0%Z, mkAuditEntry "" user 1000 "" "" "GET" action "/containers/json" "" "allow" "" "" "" 200 0 0 0 None).
Definition start : option AuditLogger * Disk := NewAuditLogger 18 dir true (mkDisk ∅ ∅ []).
Definition after : option AuditLogger * Disk := write_entries 18 [entry "alice" "ps"; entry "bob" "ps"; entry "alice" "rm"] start.
Example lines_of_alice :
  at_name "/var/log/docker-authz/user-operation/alice.log" after.2 =
    Some (entry_line (entry "alice" "ps") +:+ entry_line (entry "alice" "rm")).
Proof. vm_compute. reflexivity. Qed.
(** An event of the daemon, and one that is not recorded. *)
Definition event (action : string) : string := json_text (JObj [("Type", JStr "container"); ("Action", JStr action);
  ("Actor", JObj [("ID", JStr "0123456789abcdef"); ("Attributes", JObj [("image", JStr "nginx")])]); ("time", JInt 1700000000)]).
Definition events : string := event "start" +:+ String NL (event "exec_create" +:+ String NL "").
Definition owner (i : nat) (id : string) : option (string * Z) := Some ("alice", 1000%Z).
Example event_of_alice : event_lines owner (scan_lines events).1 =
  [("alice", 1000%Z, log_line [("time", JStr "2023-11-14T22:13:20Z"); ("container_id", JStr "0123456789ab"); ("action", JStr "start");
     ("image", JStr "nginx"); ("username", JStr "alice"); ("uid", JInt 1000)])].
Proof. vm_compute. reflexivity. Qed.
Definition alice_log : string := log_path dir user_operation "alice".
Definition rotated_log : string := PathJoin (PathJoin dir user_operation) "alice.log.1".
Example rotated_log_name : rotated_log = alice_log +:+ ".1".
Proof. vm_compute. reflexivity. Qed.
End AuditDemo.

Lemma rotation_loses_nothing_witness : let alice := AuditDemo.entry "alice" in
  ∃ us d, tidy AuditDemo.dir user_operation us d ∧
  let '(l1, d1) := write_entries 18 [alice "run"] (Some (mkAuditLogger AuditDemo.dir us None), d) in
  let '(l2, d2) := write_entries 18 [AuditDemo.entry "bob" "ps"; alice "stop"]
    (l1, rotate AuditDemo.alice_log AuditDemo.rotated_log d1) in
  let '(l3, d3) := Reopen 18 AuditDemo.range l2 d2 in
  let '(l4, d4) := write_entries 18 [alice "rm"] (l3, d3) in
  at_name AuditDemo.rotated_log d4 =
    Some (lines_of "alice" [alice "ps"] +:+ lines_of "alice" [alice "run"] +:+ lines_of "alice" [AuditDemo.entry "bob" "ps"; alice "stop"]) ∧
  default "" (at_name AuditDemo.alice_log d4) = lines_of "alice" [alice "rm"] ∧
  ∀ v, no_slash v = true → v ≠ "alice" → default "" (at_name (log_path AuditDemo.dir user_operation v) d4) =
    log_of AuditDemo.dir user_operation v us d +:+ lines_of v [alice "run"] +:+
    lines_of v [AuditDemo.entry "bob" "ps"; alice "stop"] +:+ lines_of v [alice "rm"].
Proof.
  intros alice. destruct operation_plain as [Hs Hp].
  assert (tidy AuditDemo.dir user_operation no_files (mkDisk ∅ ∅ [])) as H0 by (by apply tidy_no_files).
  pose proof (write_lines_spec 18 AuditDemo.dir user_operation eq_refl Hs Hp (entry_lines [alice "ps"]) no_files _ ltac:(by repeat constructor) H0) as H.
  destruct (write_lines _ _ _ _ _) as [us d]. destruct H as (Ht & Hlog & Hatt & Hsome & _ & Hn & _).
  destruct (Hsome "alice") as [h Hh]; [by vm_compute|].
  specialize (Hlog "alice" eq_refl). exists us, d. split; [done|].
  assert (∀ v, no_slash v = true → AuditDemo.rotated_log ≠ log_path AuditDemo.dir user_operation v) as Hne
    by (intros v Hv; unfold AuditDemo.rotated_log; apply log_path_ne; [done..|by split_and!|done]).
  pose proof (rotation_loses_nothing 18 AuditDemo.range AuditDemo.dir us None d "alice" h AuditDemo.rotated_log
    [alice "run"] [AuditDemo.entry "bob" "ps"; alice "stop"] [alice "rm"] eq_refl (λ m, reflexivity _) Ht
    ltac:(by repeat constructor) ltac:(by repeat constructor) ltac:(by repeat constructor) eq_refl Hh) as Hr.
  rewrite Hlog in Hr. apply Hr.
  - intros v Hv. apply Hatt; [done|]. intros g. cbn. by rewrite lookup_empty.
  - rewrite Hn; [done|exact Hne].
  - exact Hne.
Defined.

Lemma container_log_follows_owner_witness :
  let '(_, c', d') := stream 18 AuditDemo.owner (Answer AuditDemo.events false) (mkContainerLogger AuditDemo.dir no_files) (mkDisk ∅ ∅ []) in
  log_of AuditDemo.dir container_run "alice" (cl_users c') d' =
    log_of AuditDemo.dir container_run "alice" no_files (mkDisk ∅ ∅ []) +:+ text_of "alice" (event_lines AuditDemo.owner (scan_lines AuditDemo.events).1).
Proof.
  apply (container_log_follows_owner 18 AuditDemo.dir no_files (mkDisk ∅ ∅ []) AuditDemo.owner AuditDemo.events false "alice");
    [done|by apply tidy_no_files|done|]. intros i id username uid [= <- _]. done.
Defined.
