(* ===== verification/Trail.v ===== *)
(** * Trail: what requests leave in the audit trail

    The entries [internal/forward/proxy.go] writes while it serves a request:
    [makeAuditEntry], [privSource], those of the checks of [checkOwnershipPreRequest],
    of [ServeHTTP], of [postprocessResponse], and those of a new connection.  Each
    definition follows the code of PreRequest, Pipeline and Exchange line by line and
    adds the entries; that it adds nothing else is [exchange_is_logged].  Where the
    entries go is in AuditTrail. *)

From S2P Require Import Prelude GoStrings OsLookup Names GoJson GoJsonText AuditTrail.
From S2P Require Import Docker GoUrl Identity Routes Policy Tables Database ImageDB ResourceDB Events ImagePerm Quota GoPath.
From S2P Require Import Storage Bodies Filter PreRequest Pipeline Prune Streams Response Exchange Quoting Reports.

(** ** Entries *)

Definition AuthSource_text (s : AuthSource) : string :=
  match s with
  | AuthSourceNone => "" | AuthSourceOS => "os_peercred" | AuthSourceJWT => "jwt" | AuthSourceCert => "mtls_cert"
  end.
Definition privSource (id : CallerIdentity) : string := if ConfigPrivileged id then "config" else "".

Definition entry_with (uri : string) (id : CallerIdentity) (method action result denyReason containerID : string) (statusCode : Z)
    : AuditEntry :=
  mkAuditEntry "" (RealUsername id) (RealUID id) (ClientAddr id) (AuthSource_text (id_AuthSource id)) method action uri ""
    result (privSource id) denyReason containerID statusCode 0 0 0 None.
Definition makeAuditEntry (id : CallerIdentity) (r : Request) (action result denyReason containerID : string) (statusCode : Z)
    : AuditEntry :=
  entry_with (RequestURI (rq_URL r)) id (rq_Method r) action result denyReason containerID statusCode.

(** Nobody is known. *)
Definition unauthenticated_entry (client : string) (r : Request) : AuditEntry :=
  mkAuditEntry "" "unknown" (-1) client "" (rq_Method r) "unknown" (RequestURI (rq_URL r)) "" "deny" ""
    "authentication_required" "" 401 0 0 0 None.
(** The entries of [checkContainerOwnershipByLabel]: neither method nor URI. *)
Definition label_entry (id : CallerIdentity) (containerID action result reason : string) (statusCode : Z) : AuditEntry :=
  mkAuditEntry "" (RealUsername id) (RealUID id) (ClientAddr id) (AuthSource_text (id_AuthSource id)) "" action "" ""
    result "" reason (truncID containerID) statusCode 0 0 0 None.

(** ** Checks that leave entries *)

Definition LM (A : Type) : Type := OwnershipDB → list AuditEntry * (outcome A * OwnershipDB).
#[export] Instance LM_ret : MRet LM := λ A a d, ([], (Pass a, d)).
#[export] Instance LM_bind : MBind LM := λ A B k m d,
  match m d with
  | (es, (Pass a, d1)) => let '(es', x) := k a d1 in (es ++ es', x)
  | (es, (Reject rj, d1)) => (es, (Reject rj, d1))
  | (es, (Crash, d1)) => (es, (Crash, d1))
  end.
Definition silently {A} (m : M A) : LM A := λ d, ([], m d).
Definition record (e : AuditEntry) : LM unit := λ d, ([e], (Pass tt, d)).
(** An entry, then the answer. *)
Definition deny {A} (e : AuditEntry) (rj : Rejection) : LM A := λ d, ([e], (Reject rj, d)).
Definition deny_not_found {A} (e : AuditEntry) (kind name : string) : LM A := deny e (Respond (DockerNotFound kind name)).
Definition lask {A} (q : OwnershipDB → A) : LM A := silently (ask q).
Definition lwhen (b : bool) (m : LM unit) : LM unit := if b then m else mret tt.

Section logged.
Context (env : ProxyEnv).
Let docker : Docker := env_docker (pe_env env).
Let os : OsFiles := env_os (pe_env env).
Implicit Types (id : CallerIdentity) (action : string) (r : Request).

Definition by_label_logged id (containerID action : string) : LM unit :=
  match fetchContainerLabels docker containerID with
  | None =>
    if (action ==s ActionInspect) && (resolveImageIDByRef docker containerID !=s "") then mret tt
    else if absent_passes action then mret tt
    else deny_not_found (label_entry id containerID action "deny" "container_not_found" 403)
           "container" (TrimPrefix containerID (UserContainerPrefix (RealUID id)))
  | Some labels =>
    if labels_own id labels then record (label_entry id containerID action "allow" "label_ownership_verified" 200)
    else deny_not_found (label_entry id containerID action "deny" "container_not_owned_label" 403) "container" containerID
  end.

Definition owner_detail (o : OwnerInfo) : string := "owner=" +:+ oi_Username o +:+ "(uid=" +:+ Itoa (oi_UID o) +:+ ")".
Definition container_logged id action r : LM unit :=
  let containerID := ExtractContainerID (url_Path (rq_URL r)) in
  if (containerID ==s "") || containerSpecialIDs containerID then mret tt else
  owner ← lask (GetContainerOwner containerID);
  match owner with
  | None => if IsPrivileged id then mret tt else by_label_logged id containerID action
  | Some o =>
    if (oi_UID o !=z RealUID id) && negb (IsPrivileged id)
    then deny_not_found (makeAuditEntry id r action "deny" "container_not_owned" (owner_detail o) 404)
           "container" (TrimPrefix containerID (UserContainerPrefix (RealUID id)))
    else mret tt
  end.
(** The refusal for a recorded container leaves no entry. *)
Definition commit_logged id action r : LM unit :=
  let qContainerID := values_get (url_Query (rq_URL r)) "container" in
  if qContainerID ==s "" then mret tt else
  let dockerID := let i := resolveContainerDockerID docker qContainerID in if i ==s "" then qContainerID else i in
  owner ← lask (GetContainerOwner dockerID);
  match owner with
  | None => if IsPrivileged id then mret tt else by_label_logged id qContainerID action
  | Some o =>
    if (oi_UID o !=z RealUID id) && negb (IsPrivileged id) then silently (not_found "container" qContainerID) else mret tt
  end.

Definition create_networks_logged id action r : LM unit :=
  bad ← lask (λ d, find_first (λ n, negb (create_network_ok id n d)) (ExtractRequestedNetworks (rq_Body r)));
  match bad with
  | Some netName => deny_not_found (makeAuditEntry id r action "deny" "network_not_accessible" netName 404) "network" netName
  | None => mret tt
  end.
Definition create_quota_logged id action r (b : body) : LM body :=
  match pe_quota env with
  | None => mret b
  | Some qm =>
    d ← lask (λ d, d);
    let defaults := GetDefaultQuota qm in
    out ← silently (of_run (CheckAndInjectQuota (pe_numCPU env) b (GetQuota os id qm) (RealUID id) (Some d)
                              (qe_CPUCores defaults) (qe_MemMB defaults)));
    match out with
    | Refused e =>
      deny (makeAuditEntry id r action "deny" "quota_exceeded" (quota_error_text (quota_report (pe_numCPU env) (GetQuota os id qm) e)) 403)
        (QuotaDenied e)
    | Allowed b' => mret b'
    end
  end.
Definition bind_mounts_logged id action r (b : body) : LM unit :=
  let homeDir := if pe_allowHomeBind env then LookupHomeDir os (RealUID id) else "" in
  match ValidateBindMounts b (pe_storageBase env) (RealUID id) homeDir with
  | Some (src, roots) =>
    deny (makeAuditEntry id r action "deny" "bind_mount_not_allowed" (bind_mount_text src roots) 403) (BindMountDenied src roots)
  | None => mret tt
  end.
Definition tmpfs_logged id action r (b : body) : LM body :=
  match pe_quota env with
  | None => mret b
  | Some qm =>
    match ValidateAndInjectTmpfs b (qe_TmpfsSizeMB (GetQuota os id qm)) with
    | TmpfsViolation req limit =>
      deny (makeAuditEntry id r action "deny" "tmpfs_size_exceeded" (tmpfs_text req limit) 403) (TmpfsDenied req limit)
    | TmpfsBody b' => mret b'
    end
  end.
Definition devices_logged id action r (b : body) : LM unit :=
  match pe_quota env with
  | None => mret tt
  | Some qm =>
    match ValidateDeviceMounts b (qe_AllowedDevices (GetQuota os id qm)) (RealUID id) with
    | Some device => deny (makeAuditEntry id r action "deny" "device_not_allowed" (device_text device) 403) (DeviceDenied device)
    | None => mret tt
    end
  end.
Definition volumes_from_logged id action r (b : body) : LM unit :=
  bad ← lask (ValidateVolumesFrom (resolveContainerDockerID docker) b (RealUID id) (IsPrivileged id));
  match bad with
  | Some c => deny (makeAuditEntry id r action "deny" "volumes_from_not_allowed" (volumes_from_text c) 403) (VolumesFromDenied c)
  | None => mret tt
  end.
Definition named_volumes_logged id action r (b : body) : LM body :=
  d ← lask (λ d, d);
  out ← silently (of_run (ValidateAndRewriteNamedVolumes b (RealUID id) d));
  match out with
  | inl v => deny (makeAuditEntry id r action "deny" "volume_not_accessible" v 500) (VolumeDenied v)
  | inr b' => mret b'
  end.
Definition port_conflict_logged id r (b : body) : LM unit :=
  conflict ← lask (port_conflict b);
  match conflict with
  | Some (m, existing) =>
    deny (makeAuditEntry id r "container_create" "deny" "port_conflict" (port_conflict_text m existing) 409) (PortDenied m existing)
  | None => mret tt
  end.

Definition create_body_logged id action r (b : body) : LM Request :=
  _ ← bind_mounts_logged id action r b;
  b ← tmpfs_logged id action r b;
  _ ← devices_logged id action r b;
  _ ← volumes_from_logged id action r b;
  b ← named_volumes_logged id action r b;
  _ ← port_conflict_logged id r b;
  let r := match ExtractPortMappings b with [] => r | ps => set_ports ps r end in
  _ ← silently (ensure_bridge env id);
  peers ← lask (user_peer_networks (RealUID id));
  injected ← silently (of_run (InjectUserNetwork b (RealUID id) peers (user_requested_networks id b)));
  mret (set_body injected r).
Definition create_logged id action r : LM Request :=
  _ ← silently (check_create_image env id r);
  _ ← (if IsPrivileged id then mret tt else create_networks_logged id action r);
  b ← create_quota_logged id action r (rq_Body r);
  if IsPrivileged id then mret (set_body b r) else create_body_logged id action (set_body b r) b.

Definition update_logged id action r : LM unit :=
  match pe_quota env with
  | None => mret tt
  | Some qm =>
    match CheckUpdateQuota (pe_numCPU env) (rq_Body r) (GetQuota os id qm) with
    | Some e =>
      deny (makeAuditEntry id r action "deny" "quota_exceeded" (update_detail (quota_report (pe_numCPU env) (GetQuota os id qm) e)) 403)
        (QuotaDenied e)
    | None => mret tt
    end
  end.

Definition network_logged id action r : LM Request :=
  let networkName := ExtractNetworkID (url_Path (rq_URL r)) in
  if (networkName ==s "") || IsPrivileged id then mret r else
  lookup ← lask (lookup_network id networkName);
  let '(lookupID, needURLFix) := lookup in
  ok ← lask (CanUserAccessNetwork lookupID (RealUID id));
  match ok with
  | inr true =>
    mret (if needURLFix && (lookupID !=s networkName)
          then set_url (set_path (Replace1 (url_Path (rq_URL r)) ("/networks/" +:+ networkName) ("/networks/" +:+ lookupID))
                          (rq_URL r)) r
          else r)
  | _ => deny_not_found (makeAuditEntry id r action "deny" "network_not_accessible" "" 404)
           "network" (TrimPrefix networkName (UserResourcePrefix id))
  end.
Definition volume_remove_logged id action r : LM unit :=
  let volName := ExtractVolumeName (url_Path (rq_URL r)) in
  if (volName ==s "") || IsPrivileged id then mret tt else
  let prefix := UserVolumePrefix (RealUID id) in
  let volName := add_prefix prefix volName in
  owner ← lask (GetVolumeOwner volName);
  match owner with
  | None => deny_not_found (makeAuditEntry id r action "deny" "volume_not_tracked" "" 404) "volume" (TrimPrefix volName prefix)
  | Some o =>
    if oi_UID o !=z RealUID id
    then deny_not_found (makeAuditEntry id r action "deny" "not_your_volume" "" 404) "volume" (TrimPrefix volName prefix)
    else mret tt
  end.
Definition swarm_admin_logged id action r : LM unit :=
  lwhen (swarm_admin_action action && negb (IsPrivileged id))
    (deny (makeAuditEntry id r action "deny" "swarm_admin_required" "" 403) (NotPermitted action)).
Definition swarm_object_logged (kind : string) (actions : list string) (extract : string → string)
    (owner_of : string → OwnershipDB → option OwnerInfo) id action r : LM unit :=
  if negb (existsb (String.eqb action) actions) then mret tt else
  let objectID := extract (url_Path (rq_URL r)) in
  if (objectID ==s "") || IsPrivileged id then mret tt else
  owner ← lask (owner_of objectID);
  match owner with
  | None => deny_not_found (makeAuditEntry id r action "deny" (kind +:+ "_not_tracked") "" 404) kind objectID
  | Some o =>
    if oi_UID o !=z RealUID id
    then deny_not_found (makeAuditEntry id r action "deny" ("not_your_" +:+ kind) "" 404) kind objectID
    else mret tt
  end.
Definition service_logged := swarm_object_logged "service"
  [ActionServiceInspect; ActionServiceUpdate; ActionServiceRemove; ActionServiceLogs] ExtractServiceID GetServiceOwner.
Definition secret_logged := swarm_object_logged "secret"
  [ActionSecretInspect; ActionSecretUpdate; ActionSecretRemove] ExtractSecretID GetSecretOwner.
Definition config_logged := swarm_object_logged "config"
  [ActionConfigInspect; ActionConfigUpdate; ActionConfigRemove] ExtractConfigID GetConfigOwner.

Definition checks_logged id action r : LM Request :=
  _ ← container_logged id action r;
  _ ← lwhen (action ==s ActionCommit) (commit_logged id action r);
  r ← (if action ==s ActionCreateContainer then create_logged id action r else mret r);
  _ ← silently (check_image env id action r);
  _ ← lwhen (action ==s ActionUpdate) (update_logged id action r);
  r ← (if network_action action then network_logged id action r else mret r);
  _ ← lwhen (action ==s ActionVolumeRemove) (volume_remove_logged id action r);
  _ ← swarm_admin_logged id action r;
  _ ← service_logged id action r;
  _ ← secret_logged id action r;
  _ ← config_logged id action r;
  mret r.
End logged.

(** ** Serving a request *)

(** The entries, the decision, and the request as [ServeHTTP] has it when it is made. *)
Record Logged := mkLogged { lg_trail : list AuditEntry; lg_served : Served * OwnershipDB; lg_request : Request }.

Section serving.
Context (env : ProxyEnv) (is_print : N → bool).
Let policy : Policy := env_policy (pe_env env).

Definition policy_entry (id : CallerIdentity) (r : Request) (action detail : string) : AuditEntry :=
  makeAuditEntry id r action "deny" "command_not_permitted" detail 403.

(** The second decision by the policy leaves no entry. *)
Definition handleHijack_logged (id : CallerIdentity) (r : Request) (d : OwnershipDB) : Logged :=
  let action := request_action id r in
  if policy_denies env id action r then mkLogged [] (PolicyDenied action, d) r else
  match checks_logged env id action r d with
  | (es, (Pass _, d)) => mkLogged es (Hijacked (hijack_head r), d) r
  | (es, (Reject rj, d)) => mkLogged es (Rejected rj, d) r
  | (es, (Crash, d)) => mkLogged es (Crashed, d) r
  end.
Definition serve_hijack_logged (id : CallerIdentity) (r : Request) (d : OwnershipDB) : Logged :=
  let action := ClassifyAction (rq_Method r) (RequestURI (rq_URL r)) in
  if policy_denies env id action r then mkLogged [policy_entry id r action action] (PolicyDenied action, d) r
  else handleHijack_logged id r d.

Definition serve_request_logged (id : CallerIdentity) (r : Request) (d : OwnershipDB) : Logged :=
  let action := request_action id r in
  if policy_denies env id action r then mkLogged [policy_entry id r action ""] (PolicyDenied action, d) r else
  match checks_logged env id action r d with
  | (es, (Reject rj, d)) => mkLogged es (Rejected rj, d) r
  | (es, (Crash, d)) => mkLogged es (Crashed, d) r
  | (es, (Pass r, d)) =>
    mkLogged es
      (if prune_intercepted id action r then Pruned action r else
       match preprocessRequest r id action with Panics => Crashed | Returns r => Forwarded action r end, d) r
  end.

(** Who the authenticators say it is, known or not. *)
Definition claimed_identity (a : Arrival) : option CallerIdentity :=
  if known (ar_identity a) then ar_identity a
  else match omap id (ar_authenticators a) with i :: _ => Some i | [] => ar_identity a end.
Definition client_of (a : Arrival) : string := match claimed_identity a with Some i => ClientAddr i | None => "" end.

Definition ServeHTTP_logged (a : Arrival) (r : Request) (d : OwnershipDB) : Logged :=
  let isHijack := isHijackRequest r in
  if negb (ar_slot a (isHijack || isLongLivedRequest r)) then mkLogged [] (Overloaded, d) r else
  match authenticate a with
  | None => mkLogged [unauthenticated_entry (client_of a) r] (Unauthenticated, d) r
  | Some identity =>
    match VerifyIdentityAtRequest (Some identity) (ar_proc a) with
    | Some e =>
      mkLogged [makeAuditEntry identity r "unknown" "deny" "identity_mutation" (auth_error_text is_print e) 403]
        (IdentityChanged e, d) r
    | None =>
      let identity := set_ConfigPrivileged (IsConfigPrivileged (Some policy) (Some identity)) identity in
      let r := if IsPrivileged identity then r else rewrite_urls identity r in
      if isHijack then serve_hijack_logged identity r d else serve_request_logged identity r d
    end
  end.
End serving.

(** ** Connections *)

Definition set_ClientAddr (addr : string) (id : CallerIdentity) : CallerIdentity :=
  {| RealUsername := RealUsername id; RealUID := RealUID id; RealGID := RealGID id;
     EffectiveUsername := EffectiveUsername id; EffectiveUID := EffectiveUID id; EffectiveGID := EffectiveGID id;
     LoginUID := LoginUID id; LoginUsername := LoginUsername id; PID := PID id; ProcessName := ProcessName id;
     CmdLine := CmdLine id; DockerCommand := DockerCommand id; SwitchedIdentity := SwitchedIdentity id;
     id_UserType := id_UserType id; id_AuthSource := id_AuthSource id; ClientAddr := addr; ConfigPrivileged := ConfigPrivileged id |}.
Definition unknown_identity : CallerIdentity :=
  {| RealUsername := "unknown"; RealUID := -1; RealGID := 0; EffectiveUsername := "unknown"; EffectiveUID := 0; EffectiveGID := 0;
     LoginUID := -1; LoginUsername := ""; PID := 0; ProcessName := ""; CmdLine := ""; DockerCommand := "";
     SwitchedIdentity := false; id_UserType := UserTypeRegular; id_AuthSource := AuthSourceNone; ClientAddr := "";
     ConfigPrivileged := false |}.
Section connection.
Context (is_print : N → bool).
Definition failure_entry (clientAddr : string) (e : AuthError) : AuthAuditEntry :=
  let text := auth_error_text is_print e in
  mkAuthAuditEntry "" (if IsIdentityForgery e then "auth_forgery" else "auth_failure") 0 clientAddr (-1) "" (-1) "" (-1) "" false ""
    false text (if IsIdentityForgery e then text else "").
Definition success_entry (clientAddr : string) (id : CallerIdentity) : AuthAuditEntry :=
  mkAuthAuditEntry "" "auth_success" (PID id) clientAddr (EffectiveUID id) (EffectiveUsername id) (LoginUID id) (LoginUsername id)
    (RealUID id) (RealUsername id) (SwitchedIdentity id)
    (if SwitchedIdentity id then (if EffectiveUID id ==z 0 then "sudo" else "su") else "") true "" "".
(** The function [ConnContext] of a listener: the identity of a connection, and the entry
    it leaves among the authentications. *)
Definition ConnContext (clientAddr : string) (resolved : CallerIdentity + AuthError) : CallerIdentity * AuthAuditEntry :=
  match resolved with
  | inl id => (set_ClientAddr clientAddr id, success_entry clientAddr id)
  | inr e => (set_ClientAddr clientAddr unknown_identity, failure_entry clientAddr e)
  end.
End connection.

(** ** Answers of the daemon *)

(** What the lists of [action] count, before and after filtering. *)
Definition array_lists : list string :=
  [ActionPS; ActionImages; ActionNetworkList; ActionServiceList; ActionSecretList; ActionConfigList].
Definition counts (action : string) (reply : Reply) (w : Written) : Z * Z :=
  match w with
  | Shown _ b =>
    if existsb (String.eqb action) array_lists then (Z.of_nat (CountJSONArray (rp_body reply)), Z.of_nat (CountJSONArray b))
    else if action ==s ActionVolumeList then (Z.of_nat (CountVolumeList (rp_body reply)), Z.of_nat (CountVolumeList b))
    else (0, 0)%Z
  | _ => (0, 0)%Z
  end.
(** [postprocessResponse] ends early after a message of its own, in the report of the
    system where it does not count, and in a panic. *)
Definition returns_early (id : CallerIdentity) (action : string) (w : Written) : bool :=
  match w with
  | Message _ _ | Broken => true
  | Copied _ => (action ==s ActionSystemInfo)
  | _ => false
  end.

Definition creation_entry (id : CallerIdentity) (r : Request) (usage : option (gmap string string)) (containerID : string) (code : Z)
    : AuditEntry :=
  mkAuditEntry "" (RealUsername id) (RealUID id) "" (AuthSource_text (id_AuthSource id)) "" ActionCreateContainer
    (RequestURI (rq_URL r)) "" "allow" (privSource id) "" containerID code 0 0 0 usage.
(** The resources [preprocessRequest] has found in the body, [None] if there were none. *)
Definition resource_usage (b : body) : option (gmap string string) :=
  match ExtractRequestedResources b with Some m => if bool_decide (m = ∅) then None else Some m | None => None end.
Definition created_id (reply : Reply) : string := default "" (unmarshal_body (decode_id "Id") "" (rp_body reply)).

(** The entries of [postprocessResponse]; [b] is the body the daemon was sent. *)
Definition response_entries (id : CallerIdentity) (action : string) (r : Request) (b : body) (reply : Reply) (w : Written)
    : list AuditEntry :=
  let uri := RequestURI (rq_URL r) in
  (if (action ==s ActionCreateContainer) && rp_complete reply && created (rp_code reply) && (created_id reply !=s "")
   then [creation_entry id r (resource_usage b) (created_id reply) (rp_code reply)] else []) ++
  (if (action ==s ActionRemoveImage) && rp_complete reply && ok_code (rp_code reply)
   then [makeAuditEntry id r action "allow" "physical_delete" (ExtractImageID uri) (rp_code reply)] else []) ++
  (if returns_early id action w || isAuxiliaryCall (DockerCommand id) action "" uri then []
   else [makeAuditEntry id r action "allow" "" "" (rp_code reply)]).
(** The entry of [ServeHTTP] itself: [r] is the request before [preprocessRequest], the
    auxiliary calls were told from the request before the checks, [r0]. *)
Definition allow_entry (id : CallerIdentity) (action : string) (r : Request) (code latency total filtered : Z) : AuditEntry :=
  mkAuditEntry "" (RealUsername id) (RealUID id) "" (AuthSource_text (id_AuthSource id)) "" action (RequestURI (rq_URL r))
    (default "" (rq_rewrittenName r)) "allow" (privSource id) "" "" code latency total filtered None.
Definition served_entries (id : CallerIdentity) (action : string) (r0 r : Request) (reply : Reply) (w : Written) (latency : Z)
    : list AuditEntry :=
  if isAuxiliaryCall (DockerCommand id) action (rq_Method r0) (url_Path (rq_URL r0)) || (action ==s ActionCreateContainer) then []
  else let '(total, filtered) := counts action reply w in [allow_entry id action r (rp_code reply) latency total filtered].

(** ** Whole exchanges *)

Section exchange.
Context (env : ProxyEnv) (da : Daemon).
Context (parse_json : string → body) (range : gmap string json → list (string * json)) (during : nat → EventState).
Context (is_print : N → bool).
(** How long the daemon took, in milliseconds. *)
Context (latency : Z).

(** [r0], [r1]: the request before and after the checks. *)
Definition send_logged (id : CallerIdentity) (action : string) (r0 r1 r : Request) (sv : Server) : list AuditEntry * (Outcome * Server) :=
  let o := owner_info id in
  let w := window (env_docker (pe_env env)) (sv_db sv) id action r in
  let sv := match w with Some w => note (open_window o w) sv | None => sv end in
  let '(es, outcome, sv) :=
    match forward action r (upstream_of da) with
    | (_, inl code) => ([], UpstreamFailed code, sv)
    | (n, inr _) =>
      match da_attempts da (pred n) with
      | inl refused => ([], UpstreamFailed (if refused then 503 else 500)%Z, sv)
      | inr reply =>
        let '(written, sv) := postprocessResponse (da_docker da) (env_os (pe_env env)) (pe_now env) parse_json range
                                id action (RequestURI (rq_URL r)) (set_body EmptyBody r) reply during sv in
        (response_entries id action r (rq_Body r) reply written ++
         match written with Broken => [] | _ => served_entries id action r0 r1 reply written latency end,
         Answered written, sv)
      end
    end in
  (es, (outcome, match w with Some w => note (close_window o w) sv | None => sv end)).

Definition exchange_logged (a : Arrival) (r : Request) (sv : Server) : list AuditEntry * (Outcome * Server) :=
  let lg := ServeHTTP_logged env is_print a r (sv_db sv) in
  let '(served, d) := lg_served lg in
  let sv := mkServer d (sv_maps sv) in
  match served, effective_identity env <$> authenticate a with
  | Forwarded action r', Some id =>
    let '(es, x) := send_logged id action (own_names id r) (lg_request lg) r' sv in (lg_trail lg ++ es, x)
  | Pruned action r, Some id =>
    (lg_trail lg,
     match answer_prune (env_docker (pe_env env)) (da_dangling da) (da_delete da) parse_json id action r (prune_state sv) with
     | Some (answer, w) => (PruneAnswer answer, after_pruning w sv)
     | None => (NotServed served, sv)
     end)
  | Hijacked h, _ => (lg_trail lg, (Joined h, sv))
  | _, _ => (lg_trail lg, (NotServed served, sv))
  end.
End exchange.

(** ** Lemmas: the entries change nothing *)

Definition logs {A} (m' : LM A) (m : M A) : Prop := ∀ d, (m' d).2 = m d.

Lemma logs_ret {A} (a : A) : logs (mret a) (mret a).
Proof. done. Qed.
Lemma logs_silently {A} (m : M A) : logs (silently m) m.
Proof. done. Qed.
Lemma logs_lask {A} (q : OwnershipDB → A) : logs (lask q) (ask q).
Proof. done. Qed.
Lemma logs_record e : logs (record e) (mret tt).
Proof. done. Qed.
Lemma logs_deny {A} e rj : logs (@deny A e rj) (reject rj).
Proof. done. Qed.
Lemma logs_deny_not_found {A} e kind name : logs (@deny_not_found A e kind name) (not_found kind name).
Proof. done. Qed.
Lemma logs_bind {A B} (m' : LM A) (m : M A) (k' : A → LM B) (k : A → M B) :
  logs m' m → (∀ a, logs (k' a) (k a)) → logs (m' ≫= k') (m ≫= k).
Proof.
  intros Hm Hk d. unfold mbind, LM_bind, M_bind. specialize (Hm d). destruct (m' d) as [es [[a|rj|] d1]]; cbn in Hm; rewrite <- Hm; [|done..].
  specialize (Hk a d1). by destruct (k' a d1).
Qed.
Lemma logs_when b m' m : logs m' m → logs (lwhen b m') (when b m).
Proof. by destruct b. Qed.
Create HintDb logging.
#[export] Hint Resolve @logs_ret @logs_silently @logs_lask logs_record @logs_deny @logs_deny_not_found : logging.
Ltac logs_tac := repeat first [solve [auto with logging] | apply logs_bind; [|intros ?] | apply logs_when | case_match].

Section erasure.
Context (env : ProxyEnv).
Implicit Types (id : CallerIdentity) (r : Request) (action : string).

Lemma logs_by_label id c action : logs (by_label_logged env id c action) (checkContainerOwnershipByLabel env id c action).
Proof. unfold by_label_logged, checkContainerOwnershipByLabel. logs_tac. Qed.
#[local] Hint Resolve logs_by_label : logging.
Lemma logs_container id action r : logs (container_logged env id action r) (check_container env id action r).
Proof. unfold container_logged, check_container. logs_tac. Qed.
Lemma logs_commit id action r : logs (commit_logged env id action r) (check_commit env id action r).
Proof. unfold commit_logged, check_commit. logs_tac. Qed.
Lemma logs_create_networks id action r : logs (create_networks_logged id action r) (checkCreateContainerNetworks id r).
Proof. unfold create_networks_logged, checkCreateContainerNetworks. logs_tac. Qed.
Lemma logs_create_quota id action r b : logs (create_quota_logged env id action r b) (check_create_quota env id b).
Proof. unfold create_quota_logged, check_create_quota. logs_tac. Qed.
Lemma logs_bind_mounts id action r b : logs (bind_mounts_logged env id action r b) (check_bind_mounts env id b).
Proof. unfold bind_mounts_logged, check_bind_mounts. logs_tac. Qed.
Lemma logs_tmpfs id action r b : logs (tmpfs_logged env id action r b) (check_tmpfs env id b).
Proof. unfold tmpfs_logged, check_tmpfs. logs_tac. Qed.
Lemma logs_devices id action r b : logs (devices_logged env id action r b) (check_devices env id b).
Proof. unfold devices_logged, check_devices. logs_tac. Qed.
Lemma logs_volumes_from id action r b : logs (volumes_from_logged env id action r b) (check_volumes_from env id b).
Proof. unfold volumes_from_logged, check_volumes_from. logs_tac. Qed.
Lemma logs_named_volumes id action r b : logs (named_volumes_logged id action r b) (check_named_volumes id b).
Proof. unfold named_volumes_logged, check_named_volumes. logs_tac. Qed.
Lemma logs_port_conflict id r b : logs (port_conflict_logged id r b) (checkPortConflict b).
Proof. unfold port_conflict_logged, checkPortConflict. logs_tac. Qed.
#[local] Hint Resolve logs_create_networks logs_create_quota logs_bind_mounts logs_tmpfs logs_devices logs_volumes_from
  logs_named_volumes logs_port_conflict : logging.
Lemma logs_create_body id action r b : logs (create_body_logged env id action r b) (create_body_checks env id r b).
Proof. unfold create_body_logged, create_body_checks. logs_tac. Qed.
Lemma logs_create id action r : logs (create_logged env id action r) (check_create env id r).
Proof. unfold create_logged, check_create. logs_tac. Qed.
Lemma logs_update id action r : logs (update_logged env id action r) (check_update env id r).
Proof. unfold update_logged, check_update. logs_tac. Qed.
Lemma logs_network id action r : logs (network_logged id action r) (check_network id r).
Proof. unfold network_logged, check_network. logs_tac. Qed.
Lemma logs_volume_remove id action r : logs (volume_remove_logged id action r) (check_volume_remove id r).
Proof. unfold volume_remove_logged, check_volume_remove. logs_tac. Qed.
Lemma logs_swarm_object kind actions ex ow id action r :
  logs (swarm_object_logged kind actions ex ow id action r) (check_swarm_object kind actions ex ow id action r).
Proof. unfold swarm_object_logged, check_swarm_object. logs_tac. Qed.
Lemma logs_swarm_admin id action r :
  logs (swarm_admin_logged id action r) (when (swarm_admin_action action && negb (IsPrivileged id)) (reject (NotPermitted action))).
Proof. apply logs_when, logs_deny. Qed.
#[local] Hint Resolve logs_create_body : logging.
#[local] Hint Resolve logs_container logs_commit logs_create logs_update logs_network logs_volume_remove logs_swarm_object
  logs_swarm_admin : logging.
Lemma logs_checks id action r : logs (checks_logged env id action r) (checkOwnershipPreRequest env id action r).
Proof. unfold checks_logged, checkOwnershipPreRequest. logs_tac; apply logs_swarm_object. Qed.
End erasure.

Lemma claimed_authenticate a : authenticate a = (if known (claimed_identity a) then claimed_identity a else None).
Proof. reflexivity. Qed.

Section whole.
Context (env : ProxyEnv) (is_print : N → bool).

Lemma handleHijack_is_logged id r d : lg_served (handleHijack_logged env id r d) = handleHijack env id r d.
Proof.
  unfold handleHijack_logged, handleHijack. destruct (policy_denies _ _ _ _); [done|].
  rewrite <- (logs_checks env id (request_action id r) r d). by destruct (checks_logged _ _ _ _ _) as [es [[] d1]].
Qed.
Lemma serve_request_is_logged id r d : lg_served (serve_request_logged env id r d) = serve_request env id r d.
Proof.
  unfold serve_request_logged, serve_request. destruct (policy_denies _ _ _ _); [done|].
  rewrite <- (logs_checks env id (request_action id r) r d). destruct (checks_logged _ _ _ _ _) as [es [[] d1]]; [|done..].
  cbn. by repeat case_match.
Qed.
Lemma ServeHTTP_is_logged a r d : lg_served (ServeHTTP_logged env is_print a r d) = ServeHTTP env a r d.
Proof.
  unfold ServeHTTP_logged, ServeHTTP. destruct (negb _); [done|]. destruct (authenticate a); [|done].
  destruct (VerifyIdentityAtRequest _ _); [done|]. destruct (isHijackRequest r); [|apply serve_request_is_logged].
  unfold serve_hijack_logged, serve_hijack. destruct (policy_denies _ _ _ _); [done|]. apply handleHijack_is_logged.
Qed.
Lemma send_is_logged da parse_json range during latency id action r0 r1 r sv :
  (send_logged env da parse_json range during latency id action r0 r1 r sv).2 = send env da parse_json range during id action r sv.
Proof.
  unfold send_logged, send. set (sv1 := match window _ _ _ _ _ with Some _ => _ | None => _ end). clearbody sv1.
  destruct (forward action r (upstream_of da)) as [n [code|code]]; [done|]. destruct (da_attempts da (pred n)) as [?|reply]; [done|].
  by destruct (postprocessResponse _ _ _ _ _ _ _ _ _ _ _ _).
Qed.

(** Keeping the trail changes nothing: whatever the request, the decision, the answer
    and the state afterwards are those of [exchange]. *)
Theorem exchange_is_logged da parse_json range during latency a r sv :
  (exchange_logged env da parse_json range during is_print latency a r sv).2 = exchange env da parse_json range during a r sv.
Proof.
  unfold exchange_logged, exchange. rewrite <- (ServeHTTP_is_logged a r (sv_db sv)).
  destruct (lg_served (ServeHTTP_logged env is_print a r (sv_db sv))) as [s d]. cbn [fst snd].
  destruct s; try done; destruct (effective_identity env <$> authenticate a) as [id|]; try done.
  rewrite <- (send_is_logged da parse_json range during latency id action (own_names id r) (lg_request (ServeHTTP_logged env is_print a r (sv_db sv))) r0).
  by destruct (send_logged _ _ _ _ _ _ _ _ _ _ _ _).
Qed.
End whole.

(** ** What a refusal leaves *)

Definition label_reasons : list string := ["container_not_found"; "container_not_owned_label"].
(** The reasons that fit a refusal. *)
Definition reasons (rj : Rejection) : list string :=
  match rj with
  | Respond (DockerNotFound kind _) =>
    if kind ==s "container" then "container_not_owned" :: label_reasons
    else if kind ==s "network" then ["network_not_accessible"]
    else [kind +:+ "_not_tracked"; "not_your_" +:+ kind]
  | Respond _ | BridgeFailed => []
  | NotPermitted _ => ["swarm_admin_required"]
  | QuotaDenied _ => ["quota_exceeded"]
  | BindMountDenied _ _ => ["bind_mount_not_allowed"]
  | TmpfsDenied _ _ => ["tmpfs_size_exceeded"]
  | DeviceDenied _ => ["device_not_allowed"]
  | VolumesFromDenied _ => ["volumes_from_not_allowed"]
  | VolumeDenied _ => ["volume_not_accessible"]
  | PortDenied _ _ => ["port_conflict"]
  end.
(** The refusals that can leave no entry: all about images, a recorded container of
    another user that is to be committed, the container of a builder, a bridge that
    cannot be made. *)
Definition unrecorded (action : string) (rj : Rejection) : bool :=
  match rj with
  | Respond (DockerNotFound kind _) => (kind ==s "image") || ((kind ==s "container") && (action ==s ActionCommit))
  | Respond _ | BridgeFailed => true
  | NotPermitted a => a ==s ActionBuild
  | _ => false
  end.

Section tells.
Context (id : CallerIdentity) (action : string).

(** An entry that tells the truth about a refusal. *)
Definition denial (r : Request) (rj : Rejection) (e : AuditEntry) : Prop :=
  ae_User e = RealUsername id ∧ ae_UID e = RealUID id ∧ ae_ClientIP e = ClientAddr id ∧ ae_Result e = "deny" ∧
  ae_Action e = (match rj with PortDenied _ _ => "container_create" | _ => action end) ∧ ae_DenyReason e ∈ reasons rj ∧
  (ae_Method e = rq_Method r ∧ ae_URI e = RequestURI (rq_URL r) ∧ ae_StatusCode e = rejection_status rj ∨
   ae_DenyReason e ∈ label_reasons ∧ ae_StatusCode e = 403%Z).
(** A container the labels gave to the caller. *)
Definition verified (e : AuditEntry) : Prop :=
  ∃ c, e = label_entry id c action "allow" "label_ownership_verified" 200.

Definition told {A} (r : Request) (o : outcome A) (es : list AuditEntry) : Prop :=
  ∃ pre, Forall verified pre ∧
    match o with
    | Reject rj => (∃ e, es = pre ++ [e] ∧ denial r rj e) ∨ es = pre ∧ unrecorded action rj = true
    | _ => es = pre
    end.
Definition tells {A} (r : Request) (m : LM A) : Prop := ∀ d, told r (m d).2.1 (m d).1.
(** The refusals of a check that writes nothing. *)
Definition refuses {A} (m : M A) : Prop := ∀ d rj d', m d = (Reject rj, d') → unrecorded action rj = true.

Lemma tells_ret {A} r (a : A) : tells r (mret a).
Proof. intros d. by exists []. Qed.
Lemma tells_silently {A} r (m : M A) : refuses m → tells r (silently m).
Proof.
  intros H d. exists []. split; [done|]. cbn. destruct (m d) as [[a|rj|] d'] eqn:E; [done| |done]. right. split; [done|]. by eapply H.
Qed.
Lemma tells_lask {A} r (q : OwnershipDB → A) : tells r (lask q).
Proof. by apply tells_silently. Qed.
Lemma tells_record r e : verified e → tells r (record e).
Proof. intros H d. exists [e]. split; [by constructor|done]. Qed.
Lemma tells_deny {A} r e rj : denial r rj e → tells r (@deny A e rj).
Proof. intros H d. exists []. split; [done|]. left. by exists e. Qed.
Lemma tells_bind {A B} r (m : LM A) (k : A → LM B) : tells r m → (∀ a, tells r (k a)) → tells r (m ≫= k).
Proof.
  intros Hm Hk d. unfold mbind, LM_bind. destruct (Hm d) as (pre & Hpre & Hes). destruct (m d) as [es [[a|rj|] d1]]; cbn in Hes.
  - subst es. destruct (Hk a d1) as (pre2 & Hpre2 & Hes). destruct (k a d1) as [es x]. cbn in *. exists (pre ++ pre2). split; [by apply Forall_app|].
    destruct x as [[b|rj|] d2]; cbn in *; [by subst| |by subst]. destruct Hes as [(e & -> & He)|[-> Hu]]; [left|by right].
    exists e. by rewrite app_assoc.
  - by exists pre.
  - by exists pre.
Qed.
Lemma tells_bind_ret {A B} r (a : A) (k : A → LM B) : tells r (k a) → tells r (mret a ≫= k).
Proof. intros H d. specialize (H d). unfold mbind, LM_bind, mret, LM_ret. by destruct (k a d). Qed.
Lemma tells_when r b m : (b = true → tells r m) → tells r (lwhen b m).
Proof. destruct b; intros H; [by apply H|apply tells_ret]. Qed.
Lemma tells_deny_not_found {A} r kind name reason status detail :
  status = 404%Z → reason ∈ reasons (Respond (DockerNotFound kind name)) →
  tells r (@deny_not_found A (makeAuditEntry id r action "deny" reason detail status) kind name).
Proof. intros -> Hr. apply tells_deny. split_and!; try done. by left. Qed.
Lemma tells_deny_check {A} r reason status detail rj :
  status = rejection_status rj → reason ∈ reasons rj → (∀ m e, rj ≠ PortDenied m e) →
  tells r (@deny A (makeAuditEntry id r action "deny" reason detail status) rj).
Proof. intros -> Hr Hp. apply tells_deny. split_and!; try done; [|by left]. destruct rj; try done. by destruct (Hp m existing). Qed.

Lemma refuses_bind {A B} (m : M A) (k : A → M B) : refuses m → (∀ a, refuses (k a)) → refuses (m ≫= k).
Proof.
  intros Hm Hk d rj d'. unfold mbind, M_bind. destruct (m d) as [[a|r|] d1] eqn:E; [by apply Hk| |done]. intros [= <- <-]. by eapply Hm.
Qed.
Lemma refuses_ret {A} (a : A) : refuses (mret a).
Proof. done. Qed.
Lemma refuses_ask {A} (q : OwnershipDB → A) : refuses (ask q).
Proof. done. Qed.
Lemma refuses_update {A} (q : OwnershipDB → A * OwnershipDB) : refuses (update q).
Proof. intros d rj d'. unfold update. by destruct (q d). Qed.
Lemma refuses_of_run {A} (x : run A) : refuses (of_run x).
Proof. intros d rj d'. unfold of_run. by destruct x. Qed.
Lemma refuses_reject {A} rj : unrecorded action rj = true → refuses (@reject A rj).
Proof. by intros H d rj' d' [= <- <-]. Qed.
End tells.

Create HintDb telling.
#[export] Hint Resolve @tells_ret @tells_lask @refuses_ret @refuses_ask @refuses_update @refuses_of_run : telling.
Ltac reason_tac := unfold label_reasons; cbn; rewrite ?elem_of_cons; tauto.
(** One step of a proof that a check tells what it refuses. *)
Ltac tells_step := first
  [ solve [auto with telling]
  | apply tells_bind; [|intros ?]
  | apply tells_deny_not_found; [done|reason_tac]
  | apply tells_deny_check; [done|reason_tac|done]
  | case_match ].
Ltac refuses_step := first
  [ solve [auto with telling] | apply refuses_reject; done | apply refuses_bind; [|intros ?] | case_match ].

Section telling.
Context (env : ProxyEnv) (id : CallerIdentity) (action : string).
Notation tells := (tells id action).
Notation refuses := (refuses action).

Lemma tells_label_denial {A} r c reason kind name : kind = "container" → reason ∈ label_reasons →
  tells r (@deny_not_found A (label_entry id c action "deny" reason 403) kind name).
Proof.
  intros -> Hr. apply tells_deny. split_and!; try done; [|by right]. cbn in *. rewrite !elem_of_cons in *. tauto.
Qed.
Lemma tells_by_label r c : tells r (by_label_logged env id c action).
Proof.
  unfold by_label_logged. repeat case_match; auto with telling; try (apply tells_label_denial; [done|reason_tac]).
  apply tells_record. by exists c.
Qed.
#[local] Hint Resolve tells_by_label : telling.
Lemma tells_container r : tells r (container_logged env id action r).
Proof. unfold container_logged. repeat tells_step. Qed.
Lemma tells_commit r : (action ==s ActionCommit) = true → tells r (commit_logged env id action r).
Proof.
  intros Ha. unfold commit_logged. repeat first [tells_step|apply tells_silently, refuses_reject].
Qed.
Lemma tells_create_networks r : tells r (create_networks_logged id action r).
Proof. unfold create_networks_logged. repeat tells_step. Qed.
Lemma tells_create_quota r b : tells r (create_quota_logged env id action r b).
Proof. unfold create_quota_logged. repeat first [tells_step|apply tells_silently]. Qed.
Lemma tells_bind_mounts r b : tells r (bind_mounts_logged env id action r b).
Proof. unfold bind_mounts_logged. repeat tells_step. Qed.
Lemma tells_tmpfs r b : tells r (tmpfs_logged env id action r b).
Proof. unfold tmpfs_logged. repeat tells_step. Qed.
Lemma tells_devices r b : tells r (devices_logged env id action r b).
Proof. unfold devices_logged. repeat tells_step. Qed.
Lemma tells_volumes_from r b : tells r (volumes_from_logged env id action r b).
Proof. unfold volumes_from_logged. repeat tells_step. Qed.
Lemma tells_named_volumes r b : tells r (named_volumes_logged id action r b).
Proof. unfold named_volumes_logged. repeat first [tells_step|apply tells_silently]. Qed.
Lemma tells_port_conflict r b : tells r (port_conflict_logged id r b).
Proof.
  unfold port_conflict_logged. repeat tells_step. apply tells_deny. split_and!; try done; [reason_tac|by left].
Qed.
#[local] Hint Resolve tells_create_networks tells_create_quota tells_bind_mounts tells_tmpfs tells_devices tells_volumes_from
  tells_named_volumes tells_port_conflict : telling.
Lemma refuses_bridge : refuses (ensure_bridge env id).
Proof. unfold ensure_bridge. repeat refuses_step. Qed.
Lemma refuses_create_image r : refuses (check_create_image env id r).
Proof. unfold check_create_image, PreRequest.bridgeImageAccessByRefDigest. repeat refuses_step. Qed.
#[local] Hint Resolve refuses_bridge refuses_create_image : telling.
(** Entries are the same for requests that differ in their bodies only. *)
Lemma tells_same {A} r r' (m : LM A) : rq_URL r = rq_URL r' → rq_Method r = rq_Method r' → tells r m → tells r' m.
Proof.
  intros Hu Hm H d. destruct (H d) as (pre & Hpre & Hes). exists pre. split; [done|]. destruct (m d).2.1; try done; try by case_match.
  unfold denial in *. by rewrite <- Hu, <- Hm.
Qed.
Lemma tells_create_body r b : tells r (create_body_logged env id action r b).
Proof. unfold create_body_logged. repeat first [tells_step|apply tells_silently]. Qed.
Lemma tells_create_body_of r b : tells r (create_body_logged env id action (set_body b r) b).
Proof. by apply (tells_same (set_body b r)), tells_create_body. Qed.
#[local] Hint Resolve tells_create_body_of : telling.
Lemma tells_create r : tells r (create_logged env id action r).
Proof. unfold create_logged. repeat first [tells_step|apply tells_silently]. Qed.

(** What is said not to be found in the checks of images is an image. *)
Definition image_verdict (v : Verdict) : bool := match v with Answer (DockerNotFound kind _) => kind ==s "image" | _ => true end.
Lemma refuses_verdict v : image_verdict v = true → refuses (of_verdict v).
Proof. destruct v as [|[]]; intros H; try done; apply refuses_reject; try done. cbn in *. by rewrite H. Qed.
Lemma refuses_verdict_after (q : OwnershipDB → Verdict * OwnershipDB) :
  (∀ d, image_verdict (q d).1 = true) → refuses (v ← update q; of_verdict v).
Proof.
  intros H d rj d'. specialize (H d). unfold mbind, M_bind, update. destruct (q d) as [v d1]. by apply refuses_verdict.
Qed.
Lemma refuses_verdict_of (q : OwnershipDB → Verdict) : (∀ d, image_verdict (q d) = true) → refuses (v ← ask q; of_verdict v).
Proof. intros H d rj d'. specialize (H d). unfold mbind, M_bind, ask. by apply refuses_verdict. Qed.
Ltac verdict_tac := intros d; cbv zeta; repeat (case_match; cbn [fst snd] in *; simplify_eq; try done).
Lemma rmi_verdict e u d : image_verdict (checkImageRemovePermission e u id d).1 = true.
Proof. revert d. unfold checkImageRemovePermission, rmi_usage_checks, virtual_delete_answer. verdict_tac. Qed.
Lemma pull_verdict e u d : image_verdict (checkImagePullPermission e u id d).1 = true.
Proof. revert d. unfold checkImagePullPermission, grant_and_simulate. verdict_tac. Qed.
Lemma tag_verdict e u d : image_verdict (checkImageTagPermission e u id d) = true.
Proof. revert d. unfold checkImageTagPermission. verdict_tac. Qed.
Lemma push_verdict e u d : image_verdict (checkImagePushPermission e u id d) = true.
Proof. revert d. unfold checkImagePushPermission, push_tracked. verdict_tac. Qed.
Lemma refuses_image_read r : refuses (check_image_read env id action r).
Proof. unfold check_image_read. repeat first [refuses_step|apply refuses_reject]. Qed.
Lemma refuses_image r : refuses (check_image env id action r).
Proof.
  unfold check_image. destruct (_ || _); [apply refuses_image_read|].
  destruct (action ==s ActionRemoveImage); [apply refuses_verdict_after; intros; apply rmi_verdict|].
  destruct (action ==s ActionPull); [apply refuses_verdict_after; intros; apply pull_verdict|].
  destruct (action ==s ActionTag); [apply refuses_verdict_of; intros; apply tag_verdict|].
  destruct (action ==s ActionPush); [apply refuses_verdict_of; intros; apply push_verdict|done].
Qed.
Lemma tells_update r : tells r (update_logged env id action r).
Proof. unfold update_logged. repeat tells_step. Qed.
Lemma tells_network r : tells r (network_logged id action r).
Proof. unfold network_logged. repeat tells_step. Qed.
Lemma tells_volume_remove r : tells r (volume_remove_logged id action r).
Proof. unfold volume_remove_logged. repeat tells_step. Qed.
Lemma tells_swarm_admin r : tells r (swarm_admin_logged id action r).
Proof. apply tells_when. intros _. apply tells_deny_check; [done|reason_tac|done]. Qed.
Lemma tells_swarm_object kind actions ex ow r : kind ≠ "container" → kind ≠ "network" →
  tells r (swarm_object_logged kind actions ex ow id action r).
Proof.
  intros H1%String.eqb_neq H2%String.eqb_neq. unfold swarm_object_logged.
  repeat first [tells_step|apply tells_deny_not_found; [done|unfold reasons; rewrite H1, H2; reason_tac]].
Qed.

Definition same_line (r r' : Request) : Prop := rq_URL r' = rq_URL r ∧ rq_Method r' = rq_Method r.
Lemma tells_bind_same r (m : LM Request) (m' : M Request) (k : Request → LM Request) :
  logs m m' → (∀ d r' d', m' d = (Pass r', d') → same_line r r') → tells r m → (∀ r', same_line r r' → tells r' (k r')) →
  tells r (m ≫= k).
Proof.
  intros Hl Hs Hm Hk d. specialize (Hl d). specialize (Hs d). specialize (Hm d). unfold mbind, LM_bind.
  destruct (m d) as [es [[a|rj|] d1]] eqn:E; cbn in *; [|done..].
  assert (same_line r a) as Ha by (eapply Hs; by rewrite <- Hl). destruct Hm as (pre & Hpre & Hes). subst es.
  destruct (tells_same a r (k a) (proj1 Ha) (proj2 Ha) (Hk a Ha) d1) as (pre2 & Hpre2 & Hes). destruct (k a d1) as [es x]. cbn in *.
  exists (pre ++ pre2). split; [by apply Forall_app|]. destruct x as [[b|rj|] d2]; cbn in *; [by subst| |by subst].
  destruct Hes as [(e & -> & He)|[-> Hu]]; [left|by right]. exists e. by rewrite app_assoc.
Qed.
(** Behind the networks: checks of actions on other objects. *)
Definition object_checks (r : Request) : LM Request :=
  _ ← lwhen (action ==s ActionVolumeRemove) (volume_remove_logged id action r);
  _ ← swarm_admin_logged id action r;
  _ ← service_logged id action r;
  _ ← secret_logged id action r;
  _ ← config_logged id action r;
  mret r.
Lemma tells_objects r : tells r (object_checks r).
Proof.
  unfold object_checks. repeat (apply tells_bind; [|intros ?]); auto using tells_ret, tells_swarm_admin.
  - apply tells_when. intros _. apply tells_volume_remove.
  - by apply tells_swarm_object.
  - by apply tells_swarm_object.
  - by apply tells_swarm_object.
Qed.
Lemma network_then_objects r : network_action action = true → object_checks r = mret r.
Proof.
  unfold network_action. rewrite !orb_true_iff, !String.eqb_eq. intros [[[Ha|Ha]|Ha]|Ha]; unfold object_checks, swarm_admin_logged,
    service_logged, secret_logged, config_logged, swarm_object_logged; rewrite Ha; reflexivity.
Qed.
Lemma tells_checks r : tells r (checks_logged env id action r).
Proof.
  unfold checks_logged. apply tells_bind; [apply tells_container|intros _].
  apply tells_bind; [apply tells_when, tells_commit|intros _].
  apply (tells_bind_same _ _ (if action ==s ActionCreateContainer then check_create env id r else mret r)).
  { destruct (action ==s ActionCreateContainer); [apply logs_create|apply logs_ret]. }
  { intros d r' d'. destruct (action ==s ActionCreateContainer); [apply check_create_url|by intros [= <- _]]. }
  { destruct (action ==s ActionCreateContainer); [apply tells_create|apply tells_ret]. }
  intros r' _. apply tells_bind; [apply tells_silently, refuses_image|intros _].
  apply tells_bind; [apply tells_when; intros _; apply tells_update|intros _].
  change (tells r' ((if network_action action then network_logged id action r' else mret r') ≫= object_checks)).
  destruct (network_action action) eqn:N; [|apply tells_bind_ret, tells_objects].
  apply tells_bind; [apply tells_network|]. intros r2. rewrite network_then_objects by done. apply tells_ret.
Qed.
End telling.

(** ** Theorems: refusals *)

Section refusals.
Context (env : ProxyEnv) (is_print : N → bool).

(** What the trail has of a request that [id] has made, [r] with its names completed. *)
Definition decided (id : CallerIdentity) (hijack : bool) (r : Request) (s : Served) (es : list AuditEntry) : Prop :=
  let action := request_action id r in
  match s with
  | PolicyDenied act => es = [policy_entry id r act (if hijack then act else "")] ∨ hijack = true ∧ es = [] ∧ act = action
  | Rejected rj => told id action r (@Reject Request rj) es
  | Overloaded | Unauthenticated | IdentityChanged _ => False
  | _ => Forall (verified id action) es
  end.

Lemma checks_told id r d : told id (request_action id r) r (checks_logged env id (request_action id r) r d).2.1
  (checks_logged env id (request_action id r) r d).1.
Proof. apply tells_checks. Qed.
Lemma told_pass {A} id action r (o : outcome A) es : told id action r o es → (∀ rj, o ≠ Reject rj) → Forall (verified id action) es.
Proof. intros (pre & Hpre & Hes) Ho. destruct o as [a|rj|]; [by subst| |by subst]. by destruct (Ho rj). Qed.

Lemma decided_request id r d : let lg := serve_request_logged env id r d in decided id false r (lg_served lg).1 (lg_trail lg).
Proof.
  unfold serve_request_logged. destruct (policy_denies _ _ _ _); [by left|].
  pose proof (checks_told id r d) as H. destruct (checks_logged _ _ _ _ _) as [es [[r'|rj|] d1]]; cbn [fst snd lg_trail lg_served] in *.
  - apply told_pass in H; [|done]. repeat case_match; done.
  - exact H.
  - by apply told_pass in H.
Qed.
Lemma decided_hijack id r d : let lg := serve_hijack_logged env id r d in decided id true r (lg_served lg).1 (lg_trail lg).
Proof.
  unfold serve_hijack_logged. destruct (policy_denies _ _ _ _); [by left|]. unfold handleHijack_logged.
  destruct (policy_denies _ _ _ _); [by right|].
  pose proof (checks_told id r d) as H. destruct (checks_logged _ _ _ _ _) as [es [[r'|rj|] d1]]; cbn [fst snd lg_trail lg_served] in *.
  - by apply told_pass in H.
  - exact H.
  - by apply told_pass in H.
Qed.

Definition trail_of (a : Arrival) (r : Request) (s : Served) (es : list AuditEntry) : Prop :=
  match s with
  | Overloaded => es = []
  | Unauthenticated => authenticate a = None ∧ es = [unauthenticated_entry (client_of a) r]
  | IdentityChanged e => ∃ id, authenticate a = Some id ∧ VerifyIdentityAtRequest (Some id) (ar_proc a) = Some e ∧
      es = [makeAuditEntry id r "unknown" "deny" "identity_mutation" (auth_error_text is_print e) 403]
  | s => ∃ id, authenticate a = Some id ∧ VerifyIdentityAtRequest (Some id) (ar_proc a) = None ∧
      decided (effective_identity env id) (isHijackRequest r) (own_names (effective_identity env id) r) s es
  end.
Lemma decided_trail a r id s es : authenticate a = Some id → VerifyIdentityAtRequest (Some id) (ar_proc a) = None →
  decided (effective_identity env id) (isHijackRequest r) (own_names (effective_identity env id) r) s es → trail_of a r s es.
Proof. intros Ha Hv H. destruct s; try done; by exists id. Qed.

(** C31: A refusal leaves one denial, and it is true.  Whoever cannot be told, or is not any more
    who opened the connection, is in the trail as such.  For everybody else a
    denial by the policy or by a check leaves one denial with the name, the UID and
    the address of the caller, the action ("container_create" for a port conflict), and a
    reason that fits, and either method, URI and the status of the answer, or, where labels
    decided, status 403; what comes before it are only entries of the containers labels
    gave to the caller.  No denial is left by a full server, by the second policy decision
    on a connection, and by the refusals [unrecorded] names, although design.md says that
    all operations are recorded; a request that is let through leaves no denial. *)
Theorem refusals_are_recorded a r d :
  let lg := ServeHTTP_logged env is_print a r d in trail_of a r (lg_served lg).1 (lg_trail lg).
Proof.
  unfold ServeHTTP_logged. destruct (negb _); [done|]. destruct (authenticate a) as [id|] eqn:A; [|done].
  destruct (VerifyIdentityAtRequest _ _) eqn:V; [by exists id|]. apply (decided_trail _ _ id); [done..|].
  fold (effective_identity env id) (own_names (effective_identity env id) r).
  destruct (isHijackRequest r); [apply decided_hijack|apply decided_request].
Qed.
End refusals.

(** ** Theorems: answers, and whose log it is *)

Definition of_caller (id : CallerIdentity) (e : AuditEntry) : Prop := ae_User e = RealUsername id ∧ ae_UID e = RealUID id.
Definition allowed (id : CallerIdentity) (action : string) (code : Z) (e : AuditEntry) : Prop :=
  of_caller id e ∧ ae_Action e = action ∧ ae_Result e = "allow" ∧ ae_StatusCode e = code.

(** Without the method there is nothing more that is auxiliary. *)
Lemma auxiliary_without_method cmd action method path uri :
  isAuxiliaryCall cmd action method path = false → isAuxiliaryCall cmd action "" uri = false.
Proof. unfold isAuxiliaryCall. cbn. by destruct (((method ==s "GET") || (method ==s "HEAD")) && _). Qed.
Lemma verified_caller id action e : verified id action e → of_caller id e.
Proof. by intros [c ->]. Qed.
Lemma told_caller {A} id action r (o : outcome A) es : told id action r o es → Forall (of_caller id) es.
Proof.
  intros (pre & Hpre & Hes). assert (Forall (of_caller id) pre) as H by (eapply Forall_impl; [exact Hpre|apply verified_caller]).
  destruct o as [a|rj|]; [by subst| |by subst]. destruct Hes as [(e & -> & Hu & Hi & _)|[-> _]]; [|done].
  apply Forall_app. split; [done|]. by constructor.
Qed.
Lemma decided_caller id hijack r s es : decided id hijack r s es → Forall (of_caller id) es.
Proof.
  destruct s; cbn; try done; try (intros H; eapply Forall_impl; [exact H|apply verified_caller]).
  - intros [->|(_ & -> & _)]; by repeat constructor.
  - apply told_caller.
Qed.
Lemma response_caller id action r b reply w : Forall (of_caller id) (response_entries id action r b reply w).
Proof. unfold response_entries. rewrite !Forall_app. split_and!; case_match; by repeat constructor. Qed.
Lemma served_caller id action r0 r reply w latency : Forall (of_caller id) (served_entries id action r0 r reply w latency).
Proof. unfold served_entries. case_match; [done|]. destruct (counts _ _ _). by repeat constructor. Qed.

Section answers.
Context (env : ProxyEnv) (da : Daemon) (parse_json : string → body) (range : gmap string json → list (string * json)).
Context (during : nat → EventState) (is_print : N → bool) (latency : Z).
Notation exchange_logged := (exchange_logged env da parse_json range during is_print latency).

Lemma send_caller id action r0 r1 r sv :
  Forall (of_caller id) (send_logged env da parse_json range during latency id action r0 r1 r sv).1.
Proof.
  unfold send_logged. set (sv1 := match window _ _ _ _ _ with Some _ => _ | None => _ end). clearbody sv1.
  destruct (forward _ _ _) as [n [code|code]]; [done|]. destruct (da_attempts da (pred n)) as [?|reply]; [done|].
  destruct (postprocessResponse _ _ _ _ _ _ _ _ _ _ _ _) as [w sv2]. cbn [fst]. apply Forall_app. split; [apply response_caller|].
  destruct w; try apply served_caller. done.
Qed.
Lemma checks_caller a r d id : authenticate a = Some id → Forall (of_caller id) (lg_trail (ServeHTTP_logged env is_print a r d)).
Proof.
  intros A. unfold ServeHTTP_logged. destruct (negb _); [done|]. rewrite A.
  destruct (VerifyIdentityAtRequest _ _); [by repeat constructor|].
  fold (effective_identity env id) (own_names (effective_identity env id) r).
  destruct (isHijackRequest r); [apply (decided_caller _ _ _ _ _ (decided_hijack env (effective_identity env id) _ d))|
    apply (decided_caller _ _ _ _ _ (decided_request env (effective_identity env id) _ d))].
Qed.
Lemma exchange_caller a r sv id : authenticate a = Some id → Forall (of_caller id) (exchange_logged a r sv).1.
Proof.
  intros A. pose proof (checks_caller a r (sv_db sv) id A) as Hes. unfold Trail.exchange_logged.
  destruct (ServeHTTP_logged env is_print a r (sv_db sv)) as [es [s d] r1]. cbn [fst snd lg_trail lg_served lg_request] in *.
  rewrite A. cbn [fmap option_fmap option_map]. destruct s; try done.
  destruct (send_logged _ _ _ _ _ _ _ _ _ _ _ _) as [es2 x] eqn:E. cbn [fst]. apply Forall_app. split; [done|].
  pose proof (send_caller (effective_identity env id) action (own_names (effective_identity env id) r) r1 r0 (mkServer d (sv_maps sv))) as Hs.
  by rewrite E in Hs.
Qed.

Lemma text_of_caller id u ws : Forall (of_caller id ∘ snd) ws →
  text_of u (entry_lines ws) = if RealUsername id ==s u then concat_str (entry_line <$> ws) else "".
Proof.
  induction ws as [|[now e] ws IH]; intros H; [by case_match|]. apply Forall_cons in H as [[He _] H]. cbn in He.
  change (entry_lines ((now, e) :: ws)) with ((ae_User e, ae_UID e, entry_line (now, e)) :: entry_lines ws).
  rewrite text_of_cons, (IH H). cbn [fst snd]. rewrite He. by destruct (RealUsername id ==s u).
Qed.

(** C32: Whatever a caller asks for and the daemon answers, the entries are lines of the
    caller's own log: on a disk where no call fails, with the files in order, and for a user
    name without a slash, they are added there, complete and in order, and the log of no
    other user changes. *)
Theorem entries_are_in_callers_log umask dir us auth disk a r sv id ws :
  authenticate a = Some id → ws.*2 = (exchange_logged a r sv).1 →
  is_rooted dir = true → tidy dir user_operation us disk → no_slash (RealUsername id) = true →
  let '(lg, disk') := write_entries umask ws (Some (mkAuditLogger dir us auth), disk) in
  ∃ us', lg = Some (mkAuditLogger dir us' auth) ∧
    log_of dir user_operation (RealUsername id) us' disk' =
      log_of dir user_operation (RealUsername id) us disk +:+ concat_str (entry_line <$> ws) ∧
    ∀ u, no_slash u = true → u ≠ RealUsername id → log_of dir user_operation u us' disk' = log_of dir user_operation u us disk.
Proof.
  intros A Hws Hdir Ht Hu. destruct operation_plain as [Hs Hp]. rewrite write_entries_lines.
  pose proof (exchange_caller a r sv id A) as Hc. rewrite <- Hws in Hc. clear Hws. apply (Forall_fmap snd (of_caller id)) in Hc.
  assert (plain_users (entry_lines ws)) as Hpl.
  { unfold plain_users, entry_lines. apply Forall_fmap. eapply Forall_impl; [exact Hc|]. intros [now e] [He _]. cbn in *. by rewrite He. }
  pose proof (write_lines_spec umask dir user_operation Hdir Hs Hp (entry_lines ws) us disk Hpl Ht) as H.
  destruct (write_lines _ _ _ _ _) as [us' disk']. destruct H as (_ & Hlog & _). exists us'. split; [done|].
  pose proof (λ u, text_of_caller id u ws Hc) as Htext.
  split.
  - by rewrite Hlog, Htext, eqb_str_refl.
  - intros u Hun Hne. rewrite Hlog, Htext by done. destruct (String.eqb_spec (RealUsername id) u); [by subst|]. by rewrite app_nil_r_str.
Qed.

Lemma forwarded_action a r d action r' :
  (lg_served (ServeHTTP_logged env is_print a r d)).1 = Forwarded action r' →
  ∃ id, authenticate a = Some id ∧ let id := effective_identity env id in action = request_action id (own_names id r).
Proof.
  rewrite ServeHTTP_is_logged. destruct (ServeHTTP env a r d) as [s d'] eqn:E. cbn [fst]. intros ->.
  destruct (ServeHTTP_cases env a r d _ d' E eq_refl) as (id & A & _ & H). exists id. split; [done|]. cbv zeta in *.
  destruct (isHijackRequest r).
  - apply serve_hijack_cases in H as (_ & _ & H & _); done.
  - apply serve_request_cases in H as (_ & r2 & _ & H); [|done]. destruct (prune_intercepted _ _ _); [done|].
    destruct H as (r3 & _ & H). by injection H as -> _.
Qed.
Lemma created_message docker os now id uri r reply sv w sv' :
  postprocessResponse docker os now parse_json range id ActionCreateContainer uri r reply during sv = (w, sv') →
  returns_early id ActionCreateContainer w = true → w = read_failed ∨ w = Broken.
Proof.
  change (postprocessResponse docker os now parse_json range id ActionCreateContainer uri r reply during sv) with
    (after_create docker now id r reply sv).
  unfold after_create, error_answer. destruct (negb (rp_complete reply)); [by intros [= <- _]; left|].
  destruct (_ && _); intros [= <- _]; done.
Qed.

(** An answer the daemon gave leaves an entry that the caller was allowed the action, with
    the daemon's status; auxiliary calls of the docker client leave none, and neither does
    a creation whose answer could not be read. *)
Theorem answers_are_recorded a r sv id w :
  authenticate a = Some id → (exchange_logged a r sv).2.1 = Answered w → w ≠ Broken →
  let id := effective_identity env id in
  let r1 := own_names id r in
  let action := request_action id r1 in
  isAuxiliaryCall (DockerCommand id) action (rq_Method r1) (url_Path (rq_URL r1)) = false →
  (action = ActionCreateContainer → w ≠ read_failed) →
  ∃ n reply e, da_attempts da n = inr reply ∧ e ∈ (exchange_logged a r sv).1 ∧ allowed id action (rp_code reply) e.
Proof.
  intros A. cbv zeta. unfold Trail.exchange_logged. pose proof (forwarded_action a r (sv_db sv)) as Hf.
  destruct (ServeHTTP_logged env is_print a r (sv_db sv)) as [es [s d] r1]. cbn [fst snd lg_trail lg_served lg_request] in *.
  rewrite A. cbn [fmap option_fmap option_map]. destruct s; try done; [by destruct (answer_prune _ _ _ _ _ _ _ _) as [[]|]|].
  destruct (Hf action r0 eq_refl) as (id' & [= <-]%(eq_trans (eq_sym A)) & Haction). set (i := effective_identity env id) in *. clear Hf.
  unfold send_logged. set (sv1 := match window _ _ _ _ _ with Some _ => _ | None => _ end). clearbody sv1.
  destruct (forward _ _ _) as [n [code|code]]; [done|]. destruct (da_attempts da (pred n)) as [?|reply] eqn:Hr; [done|].
  destruct (postprocessResponse _ _ _ _ _ _ _ _ _ _ _ _) as [w' sv2] eqn:Ep. cbn [fst snd]. intros [= ->] Hb.
  rewrite <- Haction. intros Haux Hc. exists (pred n), reply. destruct (action ==s ActionCreateContainer) eqn:Hcreate.
  - exists (makeAuditEntry i r0 action "allow" "" "" (rp_code reply)). split; [done|]. split; [|by split_and!].
    apply elem_of_app. right. apply elem_of_app. left. unfold response_entries. rewrite !elem_of_app. right; right.
    apply String.eqb_eq in Hcreate. rewrite (auxiliary_without_method _ _ _ _ _ Haux), orb_false_r, Hcreate.
    destruct (returns_early i ActionCreateContainer w) eqn:He; [|by apply list_elem_of_singleton].
    exfalso. rewrite Hcreate in Ep. destruct (created_message _ _ _ _ _ _ _ _ _ _ Ep He); [by apply Hc|done].
  - destruct (counts action reply w) as [total filtered] eqn:Ec.
    exists (allow_entry i action r1 (rp_code reply) latency total filtered). split; [done|]. split; [|by split_and!].
    apply elem_of_app. right. apply elem_of_app. right. unfold served_entries. rewrite Haux, Hcreate, Ec. destruct w; try done; by apply list_elem_of_singleton.
Qed.
End answers.

(** A connection that could not be told whose it is serves nobody without a token or a
    certificate: each of its requests is refused and in the trail, with its address. *)
Lemma unknown_connection_is_refused env is_print clientAddr e a r d :
  ar_identity a = Some (ConnContext is_print clientAddr (inr e)).1 → omap id (ar_authenticators a) = [] → (∀ b, ar_slot a b = true) →
  let lg := ServeHTTP_logged env is_print a r d in
  lg_served lg = (Unauthenticated, d) ∧ lg_trail lg = [unauthenticated_entry clientAddr r].
Proof.
  intros Hi Ha Hs. unfold ServeHTTP_logged, client_of, claimed_identity, authenticate. rewrite Hs, Hi, Ha. done.
Qed.

(** ** Demonstrations *)

Module TrailDemo.
Definition bob : CallerIdentity := ExchangeDemo.bob.
Definition dave : CallerIdentity := tcp_identity "dave" 1003 1003 AuthSourceJWT.
Definition run_logged (id : CallerIdentity) (r : Request) (rp : Reply) (sv : Server) : list AuditEntry * (Outcome * Server) :=
  exchange_logged PipelineDemo.env (ExchangeDemo.daemon rp) (λ _, InvalidBody) map_to_list (λ _, ExchangeDemo.st) (λ _, true) 7
    (PipelineDemo.arrival id) r sv.
Definition web : string := "00112233445566778899aabbccddeeff" +:+ "00112233445566778899aabbccddeeff".
Definition created : Server :=
  (ExchangeDemo.run_exchange bob ExchangeDemo.create_web (ExchangeDemo.reply 201 (Doc (JObj [("Id", JStr web)]))) ExchangeDemo.pulled).2.
Definition ps : Request := plain_request "GET" "/v1.41/containers/json" "" EmptyBody.
Definition listed : list AuditEntry * (Outcome * Server) :=
  run_logged bob ps (ExchangeDemo.reply 200 (Doc (JArr []))) created.
Definition attach : Request :=
  plain_request "POST" ("/v1.41/containers/" +:+ web +:+ "/attach") "" EmptyBody.
Definition prune : Request := plain_request "POST" "/v1.41/containers/prune" "" EmptyBody.
Definition brief (e : AuditEntry) : string * string * string * Z := (ae_User e, ae_Action e, ae_Result e, ae_StatusCode e).
Definition disk : Disk := mkDisk ∅ ∅ [].
End TrailDemo.

(** One list, two entries. *)
Lemma answer_is_recorded_twice :
  TrailDemo.brief <$> TrailDemo.listed.1 = [("bob", "ps", "allow", 200%Z); ("bob", "ps", "allow", 200%Z)].
Proof. vm_compute. reflexivity. Qed.
(** Joined to the own container, as [docker attach] and [docker exec] do, and pruning:
    nothing in the trail.  Somebody else's attempt is. *)
Lemma attaching_leaves_nothing :
  (let '(es, (o, _)) := TrailDemo.run_logged TrailDemo.bob TrailDemo.attach (ExchangeDemo.reply 200 EmptyBody) TrailDemo.created in
   es = [] ∧ match o with Joined _ => True | _ => False end) ∧
  TrailDemo.brief <$> (TrailDemo.run_logged TrailDemo.dave TrailDemo.attach (ExchangeDemo.reply 200 EmptyBody) TrailDemo.created).1 =
    [("dave", "attach", "deny", 404%Z)].
Proof. split; vm_compute; done. Qed.
Lemma pruning_leaves_nothing :
  let '(es, (o, _)) := TrailDemo.run_logged TrailDemo.bob TrailDemo.prune (ExchangeDemo.reply 200 EmptyBody) TrailDemo.created in
  es = [] ∧ match o with PruneAnswer _ => True | _ => False end.
Proof. vm_compute. done. Qed.
(** The name a creation is given is not in its entries. *)
Lemma rewritten_path_is_empty id action r code latency total filtered :
  rq_rewrittenName r = None → ae_RewrittenPath (allow_entry id action r code latency total filtered) = "".
Proof. cbn. by intros ->. Qed.

(** ** Witnesses *)

Lemma entries_are_in_callers_log_witness :
  let '(lg, disk') := write_entries 18 (pair 0%Z <$> TrailDemo.listed.1) (Some (mkAuditLogger AuditDemo.dir no_files None), TrailDemo.disk) in
  ∃ us', lg = Some (mkAuditLogger AuditDemo.dir us' None) ∧
    log_of AuditDemo.dir user_operation "bob" us' disk' =
      log_of AuditDemo.dir user_operation "bob" no_files TrailDemo.disk +:+ concat_str (entry_line <$> (pair 0%Z <$> TrailDemo.listed.1)) ∧
    ∀ u, no_slash u = true → u ≠ "bob" → log_of AuditDemo.dir user_operation u us' disk' = log_of AuditDemo.dir user_operation u no_files TrailDemo.disk.
Proof.
  apply (entries_are_in_callers_log PipelineDemo.env (ExchangeDemo.daemon (ExchangeDemo.reply 200 (Doc (JArr [])))) (λ _, InvalidBody) map_to_list
    (λ _, ExchangeDemo.st) (λ _, true) 7 18 AuditDemo.dir no_files None TrailDemo.disk (PipelineDemo.arrival TrailDemo.bob) TrailDemo.ps
    TrailDemo.created TrailDemo.bob); [reflexivity| |reflexivity|by apply tidy_no_files|reflexivity].
  vm_compute. reflexivity.
Defined.

Lemma answers_are_recorded_witness :
  ∃ n reply e, da_attempts (ExchangeDemo.daemon (ExchangeDemo.reply 200 (Doc (JArr [])))) n = inr reply ∧
    e ∈ TrailDemo.listed.1 ∧ allowed (effective_identity PipelineDemo.env TrailDemo.bob) "ps" (rp_code reply) e.
Proof.
  apply (answers_are_recorded PipelineDemo.env (ExchangeDemo.daemon (ExchangeDemo.reply 200 (Doc (JArr [])))) (λ _, InvalidBody) map_to_list
    (λ _, ExchangeDemo.st) (λ _, true) 7 (PipelineDemo.arrival TrailDemo.bob) TrailDemo.ps TrailDemo.created TrailDemo.bob
    (Shown 200 (Doc (JArr [])))); [reflexivity|vm_compute; reflexivity|discriminate|vm_compute; reflexivity|vm_compute; discriminate].
Defined.
