(* ===== verification/Messages.v ===== *)
(** * Messages: the log of the proxy

    [internal/audit/logger.go]: the file of a day ([ProxyLogger]), the loggers over it
    ([NewLogger], [NewLoggerWithWriter]) and the messages about authorization
    ([LogAuthz...]).  The encoders are zap's: a parameter. *)

From S2P Require Import Prelude GoStrings OsLookup GoJson GoJsonText GoTime GoPath LogFormat AuditTrail.

(** ** The file *)

Record ProxyLogger := mkProxyLogger { pl_file : option Handle; pl_path : string }.

(** [mkdir]: whether the directory could be made; [date]: the local date. *)
Definition NewProxyRunLogger (umask : Z) (dir : string) (mkdir : bool) (date : string) (d : Disk) : option ProxyLogger * Disk :=
  if negb mkdir then (None, d) else
  let path := PathJoin (PathJoin dir "proxy-run") ("proxy-" +:+ date +:+ ".log") in
  match OpenAppend umask path d with
  | (None, d) => (None, d)
  | (Some f, d) => (Some (mkProxyLogger (Some f) path), d)
  end.
Definition WriteRun (b : string) (p : ProxyLogger) (d : Disk) : Disk :=
  match pl_file p with Some f => WriteTo f b d | None => d end.
Definition ReopenRun (umask : Z) (p : ProxyLogger) (d : Disk) : ProxyLogger * Disk :=
  let '(f, d) := OpenAppend umask (pl_path p) d in (mkProxyLogger f (pl_path p), d).
Definition CloseRun (p : ProxyLogger) : ProxyLogger := mkProxyLogger None (pl_path p).

(** ** Loggers *)

Inductive Level := DebugLevel | InfoLevel | WarnLevel | ErrorLevel | FatalLevel.
Definition level_number (l : Level) : Z :=
  match l with DebugLevel => -1 | InfoLevel => 0 | WarnLevel => 1 | ErrorLevel => 2 | FatalLevel => 5 end.
Definition zap_level (level : string) : Level :=
  if level ==s "debug" then DebugLevel else
  if level ==s "warn" then WarnLevel else
  if level ==s "error" then ErrorLevel else InfoLevel.

Inductive Sink := Stdout | LogFile (f : Handle) | RunLog.
Record Core := mkCore { c_console : bool; c_time_first : bool; c_sink : Sink; c_level : Level }.

(** A core for a sink: in the text format the console encoder, else JSON behind a
    [timeFirstWriter]. *)
Definition core (text : bool) (level : Level) (sink : Sink) : Core := mkCore text (negb text) sink level.
Definition NewLogger (umask : Z) (level format filePath : string) (d : Disk) : option (list Core) * Disk :=
  let text := format ==s "text" in
  let cores := [core text (zap_level level) Stdout] in
  if filePath ==s "" then (Some cores, d) else
  match OpenAppend umask filePath d with
  | (None, d) => (None, d)
  | (Some f, d) => (Some (cores ++ [core text (zap_level level) (LogFile f)]), d)
  end.
Definition NewLoggerWithWriter (level format : string) (extra : bool) : list Core :=
  core false (zap_level level) Stdout :: (if extra then [core false (zap_level level) RunLog] else []).

(** ** Messages *)

Record Message := mkMessage { msg_level : Level; msg_text : string; msg_fields : list (string * json) }.

(** [IdentityInfo] and [OwnerInfo]. *)
Record IdentityInfo := mkIdentityInfo {
  ii_RealUsername : string; ii_RealUID : Z; ii_RealGID : Z; ii_EffectiveUsername : string; ii_EffectiveUID : Z;
  ii_PID : Z; ii_CmdLine : string; ii_UserType : string; ii_AuthSource : string;
}.
Record OwnerInfo := mkOwnerInfo { oi_Username : string; oi_UID : Z; oi_GID : Z }.

(** [%s(uid=%d)] and [%s(uid=%d,gid=%d)]. *)
Definition with_uid (name : string) (uid : Z) : string := name +:+ "(uid=" +:+ Itoa uid +:+ ")".
Definition with_ids (name : string) (uid gid : Z) : string := name +:+ "(uid=" +:+ Itoa uid +:+ ",gid=" +:+ Itoa gid +:+ ")".

Definition logIdentityFields (id : IdentityInfo) : list (string * json) :=
  [("user", JStr (with_ids (ii_RealUsername id) (ii_RealUID id) (ii_RealGID id)));
   ("effective", JStr (with_uid (ii_EffectiveUsername id) (ii_EffectiveUID id)));
   ("user_type", JStr (ii_UserType id)); ("pid", JInt (ii_PID id)); ("cmdline", JStr (ii_CmdLine id))].
Definition logIdentityShort (id : IdentityInfo) : list (string * json) :=
  [("user", JStr (with_uid (ii_RealUsername id) (ii_RealUID id))); ("user_type", JStr (ii_UserType id))].
Definition logOwnerFields (prefix : string) (owner : OwnerInfo) : list (string * json) :=
  [(prefix, JStr (with_ids (oi_Username owner) (oi_UID owner) (oi_GID owner)))].

Definition LogAuthzAllowed (id : IdentityInfo) (action uri : string) : Message :=
  mkMessage InfoLevel "AUTHZ_ALLOW" (logIdentityShort id ++ [("action", JStr action); ("uri", JStr uri)]).
Definition LogAuthzDeniedCommand (id : IdentityInfo) (action uri : string) : Message :=
  mkMessage WarnLevel "AUTHZ_DENY"
    (logIdentityFields id ++ [("reason", JStr "command_not_permitted"); ("action", JStr action); ("uri", JStr uri)]).
Definition LogAuthzDeniedOwnership (id : IdentityInfo) (owner : OwnerInfo) (resourceType resourceID action : string) : Message :=
  mkMessage WarnLevel "AUTHZ_DENY"
    (logIdentityFields id ++ logOwnerFields "owner" owner ++
     [("reason", JStr ("not_your_" +:+ resourceType)); (resourceType +:+ "_id", JStr resourceID); ("action", JStr action)]).
Definition LogAuthzDeniedNotTracked (id : IdentityInfo) (resourceType resourceID action : string) : Message :=
  mkMessage WarnLevel "AUTHZ_DENY"
    (logIdentityFields id ++
     [("reason", JStr (resourceType +:+ "_not_tracked")); (resourceType +:+ "_id", JStr resourceID); ("action", JStr action)]).
Definition LogAuthzDeniedImageAccess (id : IdentityInfo) (imageRef action reason : string) : Message :=
  mkMessage WarnLevel "AUTHZ_DENY"
    (logIdentityFields id ++ [("reason", JStr reason); ("image", JStr imageRef); ("action", JStr action)]).
Definition LogAuthzRequest (id : IdentityInfo) (action method uri : string) : Message :=
  mkMessage DebugLevel "AUTHZ_REQUEST"
    (logIdentityShort id ++ [("action", JStr action); ("method", JStr method); ("uri", JStr uri)]).

(** ** Writing *)

Section emit.
(** zap's encoders, console and JSON: the line of a message, with its end. *)
Context (encode : bool → Message → string).

Record Output := mkOutput { o_stdout : string; o_disk : Disk }.
(** What a core hands to its sink; [None] is a panic of the writer. *)
Definition core_line (c : Core) (msg : Message) : option string :=
  if c_time_first c then time_first "time" (encode (c_console c) msg) else Some (encode (c_console c) msg).
Definition write_core (run : option ProxyLogger) (msg : Message) (o : option Output) (c : Core) : option Output :=
  o ← o;
  if (level_number (msg_level msg) <? level_number (c_level c))%Z then Some o else
  line ← core_line c msg;
  Some match c_sink c with
       | Stdout => mkOutput (o_stdout o +:+ line) (o_disk o)
       | LogFile f => mkOutput (o_stdout o) (WriteTo f line (o_disk o))
       | RunLog => mkOutput (o_stdout o) (match run with Some p => WriteRun line p (o_disk o) | None => o_disk o end)
       end.
Definition write_message (cores : list Core) (run : option ProxyLogger) (msg : Message) (o : Output) : option Output :=
  foldl (write_core run msg) (Some o) cores.
End emit.

(** Standard output and the file get the same bytes. *)
Lemma run_log_mirrors_stdout encode level format p f msg o o' n :
  pl_file p = Some f → d_faults (o_disk o) = [] → d_inodes (o_disk o) !! h_inode f = Some n →
  write_message encode (NewLoggerWithWriter level format true) (Some p) msg o = Some o' →
  ∃ s, o_stdout o' = o_stdout o +:+ s ∧ content_of (o_disk o') (h_inode f) = Some (i_content n +:+ s).
Proof.
  intros Hp Hf Hn. unfold NewLoggerWithWriter, write_message. cbn [foldl].
  unfold write_core. cbn [mbind option_bind c_level core c_sink].
  destruct (_ <? _)%Z; cbn [mbind option_bind].
  { intros [= <-]. exists "". unfold content_of. by rewrite Hn, !app_nil_r_str. }
  unfold core_line. cbn [c_time_first c_console core negb]. destruct (time_first _ _) as [line|]; [|done].
  cbn [mbind option_bind o_stdout o_disk]. intros [= <-]. exists line. split; [done|]. cbn [o_disk].
  unfold WriteRun. rewrite Hp. unfold content_of, WriteTo, fault, append_to, with_files. rewrite Hf. cbn. by rewrite lookup_alter_eq, Hn.
Qed.
