(* ===== verification/LogQuery.v ===== *)
(** * LogQuery: searching the trail

    [internal/audit/query.go]: the files a query reads, and the lines it prints.  A line
    is a document without its braces, or with them, or with a time in front; it is
    printed when the fields it is searched by can be read from it and match.  The
    files are those of AuditTrail; what the loggers have written is what is found. *)

From S2P Require Import Prelude GoStrings OsLookup Names GoJson GoJsonText GoTime GoPath Streams AuditTrail.

(** ** The query *)

Record LogQueryOptions := mkLogQueryOptions {
  LogDir : string; LogType : string; Username : string; UID : Z; Action : string; Result : string; Level : string;
  Since : string; Until : string; Limit : Z;
}.

(** The fields common to the logs. *)
Record Base := mkBase { b_Time : string; b_User : string; b_UID : Z; b_Action : string; b_Result : string; b_Level : string }.
Definition decode_base : Base → json → Base * bool :=
  decode_struct
    (λ kvs b, mkBase (field decode_string "time" kvs (b_Time b)) (field decode_string "user" kvs (b_User b))
                (field decode_int64 "uid" kvs (b_UID b)) (field decode_string "action" kvs (b_Action b))
                (field decode_string "result" kvs (b_Result b)) (field decode_string "level" kvs (b_Level b)))
    (λ kvs, field_ok decode_string "time" kvs "" && field_ok decode_string "user" kvs "" &&
            field_ok decode_int64 "uid" kvs 0%Z && field_ok decode_string "action" kvs "" &&
            field_ok decode_string "result" kvs "" && field_ok decode_string "level" kvs "").

Definition json_line (line : string) : string :=
  match line with
  | "" => ""
  | String c _ =>
    if Ascii.eqb c "{" then line else
    if Ascii.eqb c quote_char then "{" +:+ line +:+ "}" else
    match Index line "{" with Some (S i) => str_drop (S i) line | _ => "" end
  end.
Definition base_of (line : string) : option Base :=
  json_of_text (json_line line) ≫= unmarshal_as decode_base (mkBase "" "" 0 "" "" "").

(** Within the times asked for; the zero time stands for none. *)
Definition in_time (since until : Z) (time : string) : bool :=
  if IsZero since && IsZero until then true else
  match ParseRFC3339 time with
  | None => false
  | Some t => (IsZero since || (since <=? t)%Z) && (IsZero until || (t <=? until)%Z)
  end.
(** Filters are ASCII. *)
Definition fits (filter value : string) : bool := (filter ==s "") || EqualFold value filter.
Definition base_matches (opts : LogQueryOptions) (since until : Z) (b : Base) : bool :=
  in_time since until (b_Time b) && ((Username opts ==s "") || (b_User b ==s Username opts)) &&
  ((UID opts <? 0)%Z || (b_UID b ==z UID opts)) && fits (Action opts) (b_Action b) && fits (Result opts) (b_Result b) &&
  fits (Level opts) (b_Level b).
Definition matches (opts : LogQueryOptions) (since until : Z) (line : string) : bool :=
  match base_of line with Some b => base_matches opts since until b | None => false end.

(** The loop over the lines of a file: what is printed. *)
Fixpoint query_lines (opts : LogQueryOptions) (since until remaining count : Z) (lines : list string) : list string :=
  match lines with
  | [] => []
  | line :: lines =>
    if (0 <? remaining)%Z && (remaining <=? count)%Z then [] else
    if (line !=s "") && matches opts since until line
    then line :: query_lines opts since until remaining (count + 1) lines
    else query_lines opts since until remaining count lines
  end.
Definition queryFile (d : Disk) (path : string) (opts : LogQueryOptions) (since until remaining : Z) : list string :=
  match at_name path d with
  | None => []
  | Some content => query_lines opts since until remaining 0 (scan_lines content).1
  end.

(** [os.ReadDir], sorted by name; the directories of the trail hold files only. *)
Definition ReadDir (dir : string) (d : Disk) : list string :=
  let names := omap (λ p, if HasPrefix p (dir +:+ "/") then Some (str_drop (slen dir + 1) p) else None) (map_to_list (d_names d)).*1 in
  merge_sort String.le (List.filter no_slash names).
Definition globLogFiles (dir username : string) (d : Disk) : list string :=
  if username !=s "" then [PathJoin dir (username +:+ ".log")] else
  PathJoin dir <$> List.filter (λ name, HasSuffix name ".log") (ReadDir dir d).

Definition query_files (opts : LogQueryOptions) (d : Disk) : list string :=
  if LogType opts ==s "auth" then [PathJoin (LogDir opts) "auth.log"] else
  if LogType opts ==s "container" then globLogFiles (PathJoin (LogDir opts) container_run) (Username opts) d else
  if LogType opts ==s "proxy" then globLogFiles (PathJoin (LogDir opts) "proxy-run") "" d else
  globLogFiles (PathJoin (LogDir opts) user_operation) (Username opts) d.
Fixpoint query_each (d : Disk) (opts : LogQueryOptions) (since until count : Z) (files : list string) : list string :=
  match files with
  | [] => []
  | path :: files =>
    if (0 <? Limit opts)%Z && (Limit opts <=? count)%Z then [] else
    let printed := queryFile d path opts since until (Limit opts - count) in
    printed ++ query_each d opts since until (count + Z.of_nat (length printed)) files
  end.
Definition time_option (s : string) : option Z := if s ==s "" then Some zero_time else ParseRFC3339 s.
(** [None]: a time that cannot be read ends the program. *)
Definition RunLogQuery (opts : LogQueryOptions) (d : Disk) : option (list string) :=
  since ← time_option (Since opts); until ← time_option (Until opts);
  Some (query_each d opts since until 0 (query_files opts d)).

(** ** Lemmas: what is printed *)

(** The first [n] of a list; all of it when [n] is no limit. *)
Definition limited {A} (n : Z) (l : list A) : list A := if (0 <? n)%Z then take (Z.to_nat n) l else l.
Definition matching (opts : LogQueryOptions) (since until : Z) : list string → list string :=
  List.filter (λ line, (line !=s "") && matches opts since until line).

Lemma query_lines_spec opts since until remaining lines : ∀ count, (0 <= count)%Z →
  query_lines opts since until remaining count lines =
    if (0 <? remaining)%Z then take (Z.to_nat (remaining - count)) (matching opts since until lines) else matching opts since until lines.
Proof.
  induction lines as [|line lines IH]; intros count Hc; cbn [query_lines matching List.filter]; [by rewrite take_nil; case_match|].
  fold (matching opts since until lines). destruct (Z.ltb_spec 0 remaining) as [Hr|Hr]; cbn [andb].
  - destruct (Z.leb_spec remaining count) as [Hle|Hlt]; [by rewrite Z2Nat.nonpos by lia|].
    destruct (_ && _); rewrite IH by lia.
    + by replace (Z.to_nat (remaining - count)) with (S (Z.to_nat (remaining - (count + 1)))) by lia.
    + done.
  - destruct (_ && _); by rewrite IH by lia.
Qed.
Definition lines_at (path : string) (d : Disk) : list string :=
  match at_name path d with Some content => (scan_lines content).1 | None => [] end.
Lemma queryFile_spec d path opts since until remaining :
  queryFile d path opts since until remaining = limited remaining (matching opts since until (lines_at path d)).
Proof.
  unfold queryFile, lines_at, limited. destruct (at_name path d); [|by cbn; destruct (0 <? remaining)%Z; rewrite ?take_nil].
  rewrite query_lines_spec by lia. by rewrite Z.sub_0_r.
Qed.
Lemma query_each_spec d opts since until files : ∀ count, (0 <= count)%Z →
  query_each d opts since until count files =
    let found := concat ((λ path, matching opts since until (lines_at path d)) <$> files) in
    if (0 <? Limit opts)%Z then take (Z.to_nat (Limit opts - count)) found else found.
Proof.
  induction files as [|path files IH]; intros count Hc; cbn [query_each fmap list_fmap concat]; [by rewrite take_nil; case_match|].
  cbv zeta in *. rewrite IH by lia. rewrite queryFile_spec. unfold limited. set (ms := matching opts since until (lines_at path d)).
  destruct (Z.ltb_spec 0 (Limit opts)) as [Hl|Hl]; cbn [andb].
  - destruct (Z.leb_spec (Limit opts) count) as [Hle|Hlt]; [by rewrite Z2Nat.nonpos by lia|].
    rewrite (proj2 (Z.ltb_lt 0 (Limit opts - count))) by lia. rewrite take_app. f_equal. f_equal. rewrite length_take. lia.
  - rewrite (proj2 (Z.ltb_ge 0 (Limit opts - count))) by lia. done.
Qed.

(** A query prints the matching lines.  With times that can be read, those of its
    files in order that match, up to the limit and no more; a file counts up to the
    first line too long for the buffer. *)
Lemma query_prints_matches opts d since until :
  time_option (Since opts) = Some since → time_option (Until opts) = Some until →
  RunLogQuery opts d = Some (limited (Limit opts)
    (concat ((λ path, matching opts since until (lines_at path d)) <$> query_files opts d))).
Proof.
  intros Hs Hu. unfold RunLogQuery. rewrite Hs, Hu. cbn [mbind option_bind]. f_equal. rewrite query_each_spec by lia.
  unfold limited. by rewrite Z.sub_0_r.
Qed.

(** ** Lemmas: reading what was written *)

Fixpoint fitting (bodies : list string) : list string :=
  match bodies with [] => [] | b :: bs => if too_long b then [] else b :: fitting bs end.
Lemma printable_no_control b c : str_forallb printable b = true → (code c < 32)%N → str_forallb (λ x, negb (Ascii.eqb c x)) b = true.
Proof.
  intros Hb Hc. eapply str_forallb_impl, Hb. intros x Hx. unfold printable in Hx. apply negb_true_iff, Ascii.eqb_neq.
  intros ->. apply N.leb_le in Hx. lia.
Qed.
Lemma printable_drop_cr b : str_forallb printable b = true → drop_cr b = b.
Proof.
  intros Hb. unfold drop_cr. destruct (HasSuffix b _) eqn:E; [|done]. apply HasSuffix_spec in E as [r ->].
  rewrite str_forallb_app in Hb. bool_hyps. done.
Qed.
Lemma scan_bodies bodies : Forall (λ b, str_forallb printable b = true) bodies →
  (scan_lines (concat_str ((λ b, b +:+ String NL "") <$> bodies))).1 = fitting bodies.
Proof.
  intros Hb. unfold scan_lines.
  assert (Split1 NL (concat_str ((λ b, b +:+ String NL "") <$> bodies)) = bodies ++ [""]) as ->.
  { induction Hb as [|b bodies Hp _ IH]; [done|]. rewrite fmap_cons, concat_str_cons, <- app_assoc_str. cbn [String.append].
    rewrite Split1_app; [by rewrite IH|]. by apply printable_no_control. }
  induction Hb as [|b bodies Hp _ IH]; [done|]. cbn [app scan_pieces fitting].
  rewrite bool_decide_eq_false_2 by (by destruct bodies). cbn [andb]. destruct (too_long b); [done|].
  destruct (scan_pieces (bodies ++ [""])) as [lines err]. cbn in *. by rewrite printable_drop_cr, IH.
Qed.

(** The members a field is decoded from. *)
Definition san_member (kv : string * json) : string * json := (sanitize kv.1, sanitized kv.2).
Definition keyed (n : string) (kvs : list (string * json)) : list (string * json) :=
  List.filter (λ kv, key_is n kv.1) (List.map san_member kvs).
Lemma sanitized_obj kvs : sanitized (JObj kvs) = JObj (List.map san_member kvs).
Proof. cbn [sanitized]. f_equal. apply map_ext. by intros []. Qed.
Lemma keyed_app n a b : keyed n (a ++ b) = keyed n a ++ keyed n b.
Proof. unfold keyed. by rewrite map_app, List.filter_app. Qed.
Lemma keyed_omitempty n k v : key_is n (sanitize k) = false → keyed n (omitempty k v) = [].
Proof. unfold omitempty, keyed. intros H. case_match; [done|]. cbn [List.map List.filter san_member fst snd]. by rewrite H. Qed.
Lemma keyed_omitzero n k v : key_is n (sanitize k) = false → keyed n (omitzero k v) = [].
Proof. unfold omitzero, keyed. intros H. case_match; [done|]. cbn [List.map List.filter san_member fst snd]. by rewrite H. Qed.
Lemma field_keyed {A} (dec : A → json → A * bool) n kvs init :
  field dec n (List.map san_member kvs) init = foldl (λ a kv, (dec a kv.2).1) init (keyed n kvs).
Proof.
  unfold field, keyed. revert init. generalize (List.map san_member kvs). intros l. induction l as [|kv l IH]; intros init; [done|].
  cbn. destruct (key_is n kv.1); apply IH.
Qed.
Lemma field_ok_keyed {A} (dec : A → json → A * bool) n kvs init :
  field_ok dec n (List.map san_member kvs) init = forallb (λ kv, (dec init kv.2).2) (keyed n kvs).
Proof.
  unfold field_ok, keyed. generalize (List.map san_member kvs). intros l. induction l as [|kv l IH]; [done|].
  cbn. destruct (key_is n kv.1); cbn; by rewrite IH.
Qed.
Lemma keyed_cons n k v kvs : keyed n ((k, v) :: kvs) = if key_is n (sanitize k) then (sanitize k, sanitized v) :: keyed n kvs else keyed n kvs.
Proof. done. Qed.
Lemma keyed_nil n : keyed n [] = [].
Proof. done. Qed.
(** Find the members of an entry that have a name. *)
Ltac keyed_members :=
  repeat (rewrite ?keyed_app, ?keyed_cons, ?keyed_nil, ?keyed_omitempty, ?keyed_omitzero by (vm_compute; reflexivity);
    repeat match goal with |- context [key_is ?n (sanitize ?k)] =>
      let b := eval vm_compute in (key_is n (sanitize k)) in change (key_is n (sanitize k)) with b; cbv iota end);
  cbn [app foldl forallb snd fst sanitized].
Lemma base_of_members kvs b0 : forallb (λ kv, simple_value kv.2) kvs = true → kvs ≠ [] →
  unmarshal_as decode_base (mkBase "" "" 0 "" "" "") (JObj (List.map san_member kvs)) = b0 → base_of (line_body kvs) = b0.
Proof.
  intros Hs Hne Hb. destruct (log_line_reads kvs Hs) as [_ Hj]. rewrite sanitized_obj in Hj. unfold base_of.
  assert (json_line (line_body kvs) = "{" +:+ line_body kvs +:+ "}") as ->; [|by rewrite Hj].
  destruct kvs as [|kv kvs]; [done|]. unfold line_body. cbn [List.map].
  destruct (Join_start (member_text kv) (List.map member_text kvs) quote_char _ eq_refl) as [r ->]. done.
Qed.

Lemma base_of_entry e : in_int64 (ae_UID e) →
  base_of (line_body (audit_members e)) =
    Some (mkBase (sanitize (ae_Time e)) (sanitize (ae_User e)) (ae_UID e) (sanitize (ae_Action e)) (sanitize (ae_Result e)) "").
Proof.
  intros Hu. apply base_of_members; [apply simple_audit_members|done|].
  assert (∀ n, key_is n (sanitize "resource_usage") = false →
    keyed n (let usage := default ∅ (ae_ResourceUsage e) in
      if bool_decide (usage = ∅) then [] else [("resource_usage", marshal_map (JStr <$> usage))]) = []) as Husage.
  { intros n Hn. cbv zeta. case_bool_decide; [done|]. unfold keyed. cbn [List.map List.filter san_member fst snd]. by rewrite Hn. }
  unfold unmarshal_as, decode_base, decode_struct. rewrite !field_keyed, !field_ok_keyed. unfold audit_members.
  keyed_members. rewrite !Husage by (vm_compute; reflexivity). cbn [app foldl forallb snd fst].
  cbn [decode_string decode_int64 fst snd andb]. rewrite bool_decide_eq_true_2 by done. done.
Qed.

(** ** Theorems: the logger and the query *)

Definition entry_body (ne : Z * AuditEntry) : string := line_body (audit_members (completed_entry ne.1 ne.2)).
(** The entries before the first whose line is too long to be read. *)
Fixpoint readable (es : list (Z * AuditEntry)) : list (Z * AuditEntry) :=
  match es with [] => [] | ne :: es => if too_long (entry_body ne) then [] else ne :: readable es end.
(** A filter, without regard to case, on what an entry says. *)
Definition asked (filter value : string) : bool := (filter ==s "") || EqualFold (sanitize value) filter.
Definition entry_matches (opts : LogQueryOptions) (since until : Z) (ne : Z * AuditEntry) : bool :=
  let '(now, e) := ne in
  in_time since until (sanitize (stamp now (ae_Time e))) &&
  ((Username opts ==s "") || (sanitize (ae_User e) ==s Username opts)) &&
  ((UID opts <? 0)%Z || (ae_UID e ==z UID opts)) &&
  asked (Action opts) (ae_Action e) && asked (Result opts) (ae_Result e) && ((Level opts ==s "") || EqualFold "" (Level opts)).
Definition of_user (u : string) (es : list (Z * AuditEntry)) : list (Z * AuditEntry) := List.filter (λ ne, ae_User ne.2 ==s u) es.

Lemma lines_of_bodies u es : lines_of u es = concat_str ((λ b, b +:+ String NL "") <$> (entry_body <$> of_user u es)).
Proof.
  unfold lines_of, text_of, entry_lines, of_user. induction es as [|ne es IH]; [done|]. cbn [fmap list_fmap List.filter fst snd].
  destruct (ae_User ne.2 ==s u); [|done]. cbn [fmap list_fmap]. rewrite !concat_str_cons. f_equal; [apply log_line_body|exact IH].
Qed.
Lemma fitting_readable es : fitting (entry_body <$> es) = entry_body <$> readable es.
Proof. induction es as [|ne es IH]; [done|]. cbn. destruct (too_long _); [done|]. cbn. by rewrite IH. Qed.
Lemma readable_in ne es : ne ∈ readable es → ne ∈ es.
Proof.
  induction es as [|x es IH]; cbn; [done|]. destruct (too_long _); [by intros ?%elem_of_nil|]. rewrite !elem_of_cons. naive_solver.
Qed.
Lemma body_ne ne : (entry_body ne !=s "") = true.
Proof.
  unfold entry_body, line_body, audit_members. cbn [app List.map].
  match goal with |- context [GoStrings.Join (?w :: ?ws) ","] => destruct (Join_start w ws quote_char _ eq_refl) as [r ->] end. done.
Qed.
Lemma matching_bodies opts since until es : Forall (λ ne, in_int64 (ae_UID ne.2)) es →
  matching opts since until (entry_body <$> es) = entry_body <$> List.filter (entry_matches opts since until) es.
Proof.
  induction 1 as [|ne es Hu _ IH]; [done|]. rewrite fmap_cons. cbn [matching List.filter]. rewrite body_ne. cbn [andb].
  assert (matches opts since until (entry_body ne) = entry_matches opts since until ne) as ->.
  { unfold matches, entry_body. rewrite base_of_entry by done. by destruct ne. }
  fold (matching opts since until (entry_body <$> es)). rewrite IH. by destruct (entry_matches opts since until ne).
Qed.

(** C36: What is logged is found.  A query for the operations of a user prints the lines of
    exactly the user's entries that match, in the order they were written, whoever
    else's came in between; the first entry too long for the buffer hides the ones
    behind it. *)
Theorem logged_entries_are_found umask dir auth d es u opts since until :
  is_rooted dir = true → tidy dir user_operation no_files d → d_names d !! log_path dir user_operation u = None →
  users_plain es → Forall (λ ne, in_int64 (ae_UID ne.2)) es → u ≠ "" → no_slash u = true →
  LogDir opts = dir → LogType opts = "operation" → Username opts = u →
  time_option (Since opts) = Some since → time_option (Until opts) = Some until →
  RunLogQuery opts (write_entries umask es (Some (mkAuditLogger dir no_files auth), d)).2 =
    Some (limited (Limit opts) (entry_body <$> List.filter (entry_matches opts since until) (readable (of_user u es)))).
Proof.
  intros Hdir Ht Hnone Hpl Hint Hne Hu Hd Hty Hus Hs Hun. rewrite (query_prints_matches _ _ since until) by done.
  destruct operation_plain as [Hp1 Hp2]. rewrite write_entries_lines.
  pose proof (write_lines_spec umask dir user_operation Hdir Hp1 Hp2 (entry_lines es) no_files d Hpl Ht) as H.
  destruct (write_lines _ _ _ _ _) as [us d']. destruct H as (_ & Hlog & Hatt & _). cbn [snd]. do 2 f_equal.
  assert (query_files opts d' = [log_path dir user_operation u]) as ->.
  { unfold query_files. rewrite Hty, Hd, Hus. cbn [String.eqb Ascii.eqb Bool.eqb]. unfold globLogFiles. apply String.eqb_neq in Hne. by rewrite Hne. }
  cbn [fmap list_fmap concat]. rewrite app_nil_r.
  assert (default "" (at_name (log_path dir user_operation u) d') = lines_of u es) as Hc.
  { change (named_log dir user_operation u d' = lines_of u es). rewrite <- (attached_log dir user_operation us).
    - rewrite Hlog by done. unfold log_of, named_log. cbn [files no_files]. rewrite lookup_empty, Hnone. done.
    - apply Hatt; [done|]. intros h. cbn. by rewrite lookup_empty. }
  assert (lines_at (log_path dir user_operation u) d' = entry_body <$> readable (of_user u es)) as ->.
  { unfold lines_at. rewrite <- fitting_readable, <- scan_bodies, <- lines_of_bodies, <- Hc; [by destruct (at_name _ d')|].
    apply Forall_fmap, Forall_true. intros ne. apply log_line_reads, simple_audit_members. }
  apply matching_bodies. rewrite Forall_forall in *. intros ne Hin%readable_in. apply Hint. unfold of_user in Hin.
  by apply list_elem_of_In, List.filter_In in Hin as [Hin%list_elem_of_In _].
Qed.

(** ** What queries do not find *)

Lemma base_of_container e : in_int64 (ce_UID e) →
  base_of (line_body (container_members e)) = Some (mkBase (sanitize (ce_Time e)) "" (ce_UID e) (sanitize (ce_Action e)) "" "").
Proof.
  intros Hu. apply base_of_members; [apply simple_container_members|done|].
  assert (keyed "uid" (omitzero "uid" (ce_UID e)) = if ce_UID e ==z 0 then [] else [("uid", JInt (ce_UID e))]) as Huid
    by (unfold omitzero; by case_match).
  unfold unmarshal_as, decode_base, decode_struct. rewrite !field_keyed, !field_ok_keyed. unfold container_members.
  rewrite !keyed_app, Huid. keyed_members. destruct (Z.eqb_spec (ce_UID e) 0) as [E|E]; cbn [app foldl forallb fst snd];
    cbn [decode_string decode_int64 fst snd andb]; rewrite ?bool_decide_eq_true_2 by done; [by rewrite E|done].
Qed.
Lemma base_of_auth e :
  base_of (line_body (auth_members e)) = Some (mkBase (sanitize (aa_Time e)) "" 0 "" "" "").
Proof.
  apply base_of_members; [apply simple_auth_members|done|].
  unfold unmarshal_as, decode_base, decode_struct. rewrite !field_keyed, !field_ok_keyed. unfold auth_members. by keyed_members.
Qed.
Lemma matching_none {A} (f : A → string) opts since until (l : list A) :
  (∀ x, x ∈ l → matches opts since until (f x) = false) → matching opts since until (f <$> l) = [].
Proof.
  intros H. induction l as [|x l IH]; [done|]. rewrite fmap_cons. cbn [matching List.filter]. rewrite (H x) by left. rewrite andb_false_r.
  apply IH. intros y Hy. apply H. by right.
Qed.

(** The lines of containers have the owner as [username], those of authentications as
    [real_username]; a query looks for [user].  So a query by user finds nothing of
    either. *)
Lemma container_query_by_user_is_empty opts since until es :
  Username opts ≠ "" → Forall (λ e, in_int64 (ce_UID e)) es →
  matching opts since until ((λ e, line_body (container_members e)) <$> es) = [].
Proof.
  intros Hu Hi. apply matching_none. intros e He. rewrite Forall_forall in Hi. unfold matches. rewrite base_of_container by auto.
  unfold base_matches. cbn [b_User]. apply String.eqb_neq in Hu. rewrite Hu, (String.eqb_sym "" _), Hu. cbn. by rewrite andb_false_r.
Qed.
Lemma auth_query_by_user_is_empty opts since until es :
  Username opts ≠ "" → matching opts since until ((λ e, line_body (auth_members e)) <$> es) = [].
Proof.
  intros Hu. apply matching_none. intros e He. unfold matches. rewrite base_of_auth.
  unfold base_matches. cbn [b_User]. apply String.eqb_neq in Hu. rewrite Hu, (String.eqb_sym "" _), Hu. cbn. by rewrite andb_false_r.
Qed.

(** An entry of 64 KiB, which a client makes with a path of that length, hides what the
    user does from then on. *)
Lemma long_line_hides_the_rest es ne later : too_long (entry_body ne) = true → readable (es ++ ne :: later) = readable es.
Proof. intros Hl. induction es as [|x es IH]; cbn [app readable]; [by rewrite Hl|]. by rewrite IH. Qed.

(** The lines of the proxy's log carry zap's ISO 8601 times, whose offset has no colon:
    outside UTC no query with a time finds them. *)
Lemma proxy_times_with_offset_are_unreadable since until :
  IsZero since && IsZero until = false → in_time since until "2026-04-15T20:00:00.000+0800" = false.
Proof. intros H. unfold in_time. rewrite H. vm_compute. done. Qed.

Module QueryDemo.
Import AuditDemo.
Definition es : list (Z * AuditEntry) := [entry "alice" "ps"; entry "bob" "ps"; entry "alice" "rm"].
Definition opts : LogQueryOptions := mkLogQueryOptions dir "operation" "alice" (-1) "RM" "" "" "1970-01-01T00:00:00Z" "" 0.
Example printed : RunLogQuery opts (write_entries 18 es start).2 = Some [entry_body (entry "alice" "rm")].
Proof. vm_compute. reflexivity. Qed.
End QueryDemo.

Lemma logged_entries_are_found_witness :
  RunLogQuery QueryDemo.opts (write_entries 18 QueryDemo.es (Some (mkAuditLogger AuditDemo.dir no_files None), mkDisk ∅ ∅ [])).2 =
    Some (limited 0 (entry_body <$> List.filter (entry_matches QueryDemo.opts 0 zero_time) (readable (of_user "alice" QueryDemo.es)))).
Proof.
  apply (logged_entries_are_found 18 AuditDemo.dir None (mkDisk ∅ ∅ []) QueryDemo.es "alice" QueryDemo.opts 0 zero_time);
    [done|by apply tidy_no_files|done|by repeat constructor| |done..].
  repeat constructor; vm_compute; done.
Defined.
