(* ===== verification/Lifecycle.v ===== *)
(** * Lifecycle: the program from start to end

    [main.go]: the flags, the two kinds of query, what a start sets up and in which
    order, the goroutine that looks at the configuration files every two seconds
    ([watcher]), and the loop that waits for signals ([loop]).

    The goroutine and the loop share the policy, the quotas and nothing else; between
    any two of their steps the files can change and signals arrive.  A step ends where
    another one can come in between: a file is read, names are looked up in the
    accounts, and only then is the policy exchanged. *)

From S2P Require Import Prelude GoStrings OsLookup Identity Policy Tables Database ImageDB ResourceDB GoJson GoJsonText GoTime Docker Quota GoPath Streams.
From S2P Require Import Bridge Listeners Ctl LogFormat AuditTrail Messages LogQuery.

(** ** The world outside *)

(** A configuration file: when it was last modified, and its text if it can be read. *)
Record ConfigFile := mkConfigFile { cf_ModTime : Z; cf_text : option string }.
Record World := mkWorld { w_os : OsFiles; w_policy : option ConfigFile; w_quota : option ConfigFile }.

Inductive Signal := SIGINT | SIGTERM | SIGHUP | SIGUSR1.
Definition terminates (s : Signal) : bool := match s with SIGINT | SIGTERM => true | _ => false end.

(** ** Flags *)

Record Flags := mkFlags {
  socketDir : string; upstreamSock : string; policyFile : string; dbPath : string;
  logLevel : string; logFormat : string; logFile : string;
  requestTimeout : Z; maxConcurrent : Z; maxConcurrentStreams : Z;
  storageRoot : string; allowHomeBind : bool; storageCleanupInterval : Z;
  quotaFile : string; auditLogDir : string; jwtPort : string; jwtSecret : string;
  certPort : string; certFile : string; certKeyFile : string; certCAFile : string;
  queryType : string; queryImage : string; queryUser : string;
  queryLogType : string; queryUID : Z; queryAction : string; queryResult : string; queryLevel : string;
  querySince : string; queryUntil : string; queryLimit : Z; showVersion : bool;
}.
(** Without options. *)
Definition default_flags : Flags :=
  mkFlags "/run/docker-authz" "/var/run/docker.sock" "/etc/docker-authz/policy.yaml" "/var/lib/docker-authz/owners.db"
    "info" "json" "" 30 0 0 "/var/docker/user-storage" false 5 "" "/var/log/docker-authz" "" "" "" "" "" ""
    "" "" "" "operation" (-1) "" "" "" "" "" 0 false.

(** [config.GetDirOf]: what stands before the last slash. *)
Definition GetDirOf (path : string) : string :=
  match LastIndex path "/" with Some i => str_take i path | None => "." end.

(** ** The state *)

Inductive Watcher :=
| NoWatcher
| Ticking
| PolicyChanged
| PolicyLoaded (p : Policy)
| QuotaNext
| QuotaChanged
| QuotaParsed (cfg : option QuotaConfig).
Inductive Loop :=
| Waiting
| HupLoading
| HupLoaded (p : Policy)
| HupQuota
| HupParsed (cfg : option QuotaConfig)
| Stopping
| Returned.

(** [sigCh] has room for one signal; [mn_ctx]: the context has not been cancelled. *)
Record Main := mkMain {
  mn_policy : Policy; mn_quota : QuotaManager; lastModTime : Z; lastQuotaModTime : Z;
  watcher : Watcher; loop : Loop; sigCh : option Signal; mn_ctx : bool;
}.
Definition UpdatePolicy (p : Policy) (m : Main) : Main :=
  mkMain p (mn_quota m) (lastModTime m) (lastQuotaModTime m) (watcher m) (loop m) (sigCh m) (mn_ctx m).
Definition getPolicy (m : Main) : Policy := mn_policy m.
Definition with_quota (q : QuotaManager) (m : Main) : Main :=
  mkMain (mn_policy m) q (lastModTime m) (lastQuotaModTime m) (watcher m) (loop m) (sigCh m) (mn_ctx m).
Definition with_times (t q : Z) (m : Main) : Main :=
  mkMain (mn_policy m) (mn_quota m) t q (watcher m) (loop m) (sigCh m) (mn_ctx m).
Definition watching (w : Watcher) (m : Main) : Main :=
  mkMain (mn_policy m) (mn_quota m) (lastModTime m) (lastQuotaModTime m) w (loop m) (sigCh m) (mn_ctx m).
Definition looping (l : Loop) (m : Main) : Main :=
  mkMain (mn_policy m) (mn_quota m) (lastModTime m) (lastQuotaModTime m) (watcher m) l (sigCh m) (mn_ctx m).
Definition with_signal (s : option Signal) (ctx : bool) (m : Main) : Main :=
  mkMain (mn_policy m) (mn_quota m) (lastModTime m) (lastQuotaModTime m) (watcher m) (loop m) s ctx.

Section main.
(** The YAML decoders. *)
Context (parse_policy : string → option PolicyConfig) (parse_quota : string → option QuotaConfig).
Context (fl : Flags).

Definition policy_in (w : World) : option Policy := LoadPolicy (w_os w) parse_policy (w_policy w ≫= cf_text).
Definition quota_in (w : World) : option QuotaConfig := (w_quota w ≫= cf_text) ≫= parse_quota.
Definition newer (f : ConfigFile) (t : Z) : bool := (t <? cf_ModTime f)%Z.

(** ** A round of the watcher, undisturbed *)

Definition check_quota (w : World) (m : Main) : Main :=
  if quotaFile fl ==s "" then m else
  match w_quota w with
  | Some f =>
    if newer f (lastQuotaModTime m) then
      let m := with_times (lastModTime m) (cf_ModTime f) m in
      with_quota (Reload (quotaFile fl) (quota_in w) (mn_quota m)).1 m
    else m
  | None => m
  end.
Definition tick (w : World) (m : Main) : Main :=
  match w_policy w with
  | None => m
  | Some f =>
    if newer f (lastModTime m) then
      let m := with_times (cf_ModTime f) (lastQuotaModTime m) m in
      match policy_in w with
      | None => m
      | Some p => check_quota w (UpdatePolicy p m)
      end
    else check_quota w m
  end.

(** ** The steps of the watcher *)

Definition watch_step (w : World) (m : Main) : Main :=
  match watcher m with
  | NoWatcher => m
  | Ticking =>
    match w_policy w with
    | None => m
    | Some f =>
      if newer f (lastModTime m)
      then watching PolicyChanged (with_times (cf_ModTime f) (lastQuotaModTime m) m)
      else watching QuotaNext m
    end
  | PolicyChanged => watching (match policy_in w with None => Ticking | Some p => PolicyLoaded p end) m
  | PolicyLoaded p => watching QuotaNext (UpdatePolicy p m)
  | QuotaNext =>
    if quotaFile fl ==s "" then watching Ticking m else
    match w_quota w with
    | Some f =>
      if newer f (lastQuotaModTime m)
      then watching QuotaChanged (with_times (lastModTime m) (cf_ModTime f) m)
      else watching Ticking m
    | None => watching Ticking m
    end
  | QuotaChanged => watching (QuotaParsed (quota_in w)) m
  | QuotaParsed cfg => watching Ticking (with_quota (Reload (quotaFile fl) cfg (mn_quota m)).1 m)
  end.
(** From one tick to the next. *)
Fixpoint watch_on (fuel : nat) (w : World) (m : Main) : Main :=
  match fuel, watcher m with
  | O, _ | _, (NoWatcher | Ticking) => m
  | S n, _ => watch_on n w (watch_step w m)
  end.
Definition watch_round (w : World) (m : Main) : Main := watch_on 5 w (watch_step w m).

(** ** Signals *)

(** A signal that arrives: the context is cancelled by those that end the program; the
    channel takes it if it is empty, or else it is lost. *)
Definition signal (s : Signal) (m : Main) : Main :=
  with_signal (match sigCh m with None => Some s | some => some end) (mn_ctx m && negb (terminates s)) m.

Definition loop_step (w : World) (m : Main) : Main :=
  match loop m with
  | Waiting =>
    match sigCh m with
    | None => m
    | Some s =>
      looping (match s with SIGUSR1 => Waiting | SIGHUP => HupLoading | SIGINT | SIGTERM => Stopping end)
        (with_signal None (mn_ctx m) m)
    end
  | HupLoading => looping (match policy_in w with None => Waiting | Some p => HupLoaded p end) m
  | HupLoaded p => looping (if quotaFile fl ==s "" then Waiting else HupQuota) (UpdatePolicy p m)
  | HupQuota => looping (HupParsed (quota_in w)) m
  | HupParsed cfg => looping Waiting (with_quota (Reload (quotaFile fl) cfg (mn_quota m)).1 m)
  | Stopping => looping Returned m
  | Returned => m
  end.

(** The program runs until its loop has returned. *)
Inductive main_step : World * Main → World * Main → Prop :=
| Changes w w' m : main_step (w, m) (w', m)
| Watches w m : loop m ≠ Returned → main_step (w, m) (w, watch_step w m)
| Loops w m : main_step (w, m) (w, loop_step w m)
| Arrives w s m : loop m ≠ Returned → main_step (w, m) (w, signal s m).

(** ** The configuration at the start *)

(** [w]: when the files are loaded; [w']: when their times are taken. *)
Definition first_policy (w : World) : Policy := default DefaultAllowPolicy (policy_in w).
Definition first_quota (w : World) : QuotaManager :=
  if quotaFile fl ==s "" then DefaultQuotaManager else default DefaultQuotaManager (LoadQuotaManager (quota_in w)).
Definition time_of (f : option ConfigFile) : Z := match f with Some f => cf_ModTime f | None => zero_time end.
Definition start_main (w w' : World) : Main :=
  mkMain (first_policy w) (first_quota w)
    (time_of (w_policy w')) (if quotaFile fl ==s "" then zero_time else time_of (w_quota w'))
    (match w_policy w' with Some _ => Ticking | None => NoWatcher end) Waiting None true.
End main.

(** ** The whole program *)

Record ProxyOptions := mkProxyOptions {
  RequestTimeout : Z; MaxConcurrent : Z; MaxConcurrentStreams : Z;
  StorageBase : string; StorageCleanupInterval : Z; AllowHomeBind : bool;
}.
Definition proxy_options (fl : Flags) : ProxyOptions :=
  mkProxyOptions (requestTimeout fl * second) (maxConcurrent fl) (maxConcurrentStreams fl)
    (storageRoot fl) (storageCleanupInterval fl * 60 * second) (allowHomeBind fl).
Inductive Authenticator := JWTAuthenticator (secret : string) | CertAuthenticator (ca : string).

Section program.
Context {FW : Type} `{!Iptables FW}.
Context (parse_policy : string → option PolicyConfig) (parse_quota : string → option QuotaConfig).
Context (umask : Z) (random : FS → string) (docker : Docker) (now : Z) (fl : Flags).
(** The orders in which range statements go over maps. *)
Context (range : gmap string Handle → list (string * Handle)) (order : gmap string systemUser → list systemUser).

Record Program := mkProgram {
  pr_main : Main;
  pr_options : ProxyOptions;
  pr_authenticators : list Authenticator;
  pr_system : System (FW:=FW);
  pr_tcp : list (string * bool);
  pr_auditLog : option AuditLogger;
  pr_runLog : option ProxyLogger;
  pr_cores : list Core;
  pr_containers : option ContainerLogger;
  pr_disk : Disk;
  pr_pidFile : bool;
}.
Definition with_main (m : Main) (p : Program) : Program :=
  mkProgram m (pr_options p) (pr_authenticators p) (pr_system p) (pr_tcp p) (pr_auditLog p) (pr_runLog p) (pr_cores p)
    (pr_containers p) (pr_disk p) (pr_pidFile p).
Definition with_system (s : System) (p : Program) : Program :=
  mkProgram (pr_main p) (pr_options p) (pr_authenticators p) s (pr_tcp p) (pr_auditLog p) (pr_runLog p) (pr_cores p)
    (pr_containers p) (pr_disk p) (pr_pidFile p).
Definition with_logs (a : option AuditLogger) (r : option ProxyLogger) (c : option ContainerLogger) (d : Disk) (p : Program) : Program :=
  mkProgram (pr_main p) (pr_options p) (pr_authenticators p) (pr_system p) (pr_tcp p) a r (pr_cores p) c d (pr_pidFile p).

(** *** The start *)

(** What the calls of a start find: the directories that can be made, the database,
    certificates and keys, ports, and the files when they are read and when their times
    are taken. *)
Record Surroundings := mkSurroundings {
  su_mkdir : string → bool; su_open_db : string → option OwnershipDB; su_ca : string → bool; su_key_pair : string → string → bool;
  su_listen : string → bool; su_pid : bool; su_date : string; su_load : World; su_stat : World;
  su_machine : Machine; su_host : Host FW;
}.
Inductive Listing := Images (l : list ImageRow) | Containers (l : list ContainerRow) | Networks (l : list NetworkRow) | Volumes (l : list VolumeRow).
Definition listing {R} (f : list R → Listing) (r : DBError + list R) : option Listing :=
  match r with inr l => Some (f l) | inl _ => None end.
(** [authz.RunQuery]; [None]: it ends with an error. *)
Definition RunQuery (db : option OwnershipDB) (queryType filterImage filterUser : string) : option Listing :=
  d ← db;
  if queryType ==s "images" then listing Images (queryImages filterImage filterUser d) else
  if queryType ==s "containers" then listing Containers (queryContainers filterUser d) else
  if queryType ==s "networks" then listing Networks (queryNetworks filterUser d) else
  if queryType ==s "volumes" then listing Volumes (queryVolumes filterUser d) else None.

Inductive Startup :=
| PrintsVersion
| PrintsLog (lines : option (list string))
| PrintsRows (rows : option Listing)
| PanicsAtLogger
(** [logger.Fatal]: the program ends and nothing is taken back *)
| Fatal (s : option (System (FW:=FW))) (d : Disk)
| Serves (p : Program).

Definition log_query : LogQueryOptions :=
  mkLogQueryOptions (auditLogDir fl) (queryLogType fl) (queryUser fl) (queryUID fl) (queryAction fl) (queryResult fl) (queryLevel fl)
    (querySince fl) (queryUntil fl) (queryLimit fl).
Definition make_dir (su : Surroundings) (dir : string) : bool := (dir !=s "") && su_mkdir su dir.

(** The log of the proxy, and the loggers. *)
Definition start_log (su : Surroundings) (d : Disk) : option (option ProxyLogger * list Core) * Disk :=
  let '(run, d) := if auditLogDir fl ==s "" then (None, d)
                   else NewProxyRunLogger umask (auditLogDir fl) (make_dir su (PathJoin (auditLogDir fl) "proxy-run")) (su_date su) d in
  match run with
  | Some _ => (Some (run, NewLoggerWithWriter (logLevel fl) (logFormat fl) true), d)
  | None =>
    match NewLogger umask (logLevel fl) (logFormat fl) (logFile fl) d with
    | (Some cores, d) => (Some (None, cores), d)
    | (None, d) => (None, d)
    end
  end.
Definition authenticators (su : Surroundings) : option (list Authenticator) :=
  let jwt := if jwtSecret fl ==s "" then [] else [JWTAuthenticator (jwtSecret fl)] in
  if certCAFile fl ==s "" then Some jwt else
  if su_ca su (certCAFile fl) then Some (jwt ++ [CertAuthenticator (certCAFile fl)]) else None.
(** [auth.BuildServerTLSConfig]. *)
Definition BuildServerTLSConfig (su : Surroundings) (cert key ca : string) : bool :=
  su_key_pair su cert key && ((ca ==s "") || su_ca su ca).
(** [StartTCPListener] for the two ports: the listeners, or an error. *)
Definition tcp_listeners (su : Surroundings) : option (list (string * bool)) :=
  jwt ← (if jwtPort fl ==s "" then Some [] else if su_listen su (jwtPort fl) then Some [(jwtPort fl, false)] else None);
  if certPort fl ==s "" then Some jwt else
  if (certFile fl ==s "") || (certKeyFile fl ==s "") then None else
  if BuildServerTLSConfig su (certFile fl) (certKeyFile fl) (certCAFile fl) && su_listen su (certPort fl)
  then Some (jwt ++ [(certPort fl, true)]) else None.

Definition serve (su : Surroundings) (db : OwnershipDB) (run : option ProxyLogger) (cores : list Core) (d : Disk) : Startup :=
  let '(auditLog, d) := NewAuditLogger umask (auditLogDir fl) (make_dir su (PathJoin (auditLogDir fl) "user-operation")) d in
  let containers := if auditLogDir fl ==s "" then None
                    else NewContainerLogger (auditLogDir fl) (make_dir su (PathJoin (auditLogDir fl) "container-run")) in
  match authenticators su with
  | None => Fatal None d
  | Some auths =>
    if negb (make_dir su (storageRoot fl)) then Fatal None d else
    let '(ok, sys) := Start umask random docker now (socketDir fl) (storageRoot fl) (w_os (su_load su))
                        (mkSystem (su_machine su) ∅ (su_host su) db) in
    if negb ok then Fatal (Some sys) d else
    match tcp_listeners su with
    | None => Fatal (Some sys) d
    | Some tcp =>
      Serves (mkProgram (start_main parse_policy parse_quota fl (su_load su) (su_stat su)) (proxy_options fl) auths sys tcp
                auditLog run cores containers d (su_pid su))
    end
  end.
Definition main (su : Surroundings) (d : Disk) : Startup :=
  if showVersion fl then PrintsVersion else
  if queryType fl !=s "" then
    (if queryType fl ==s "log" then PrintsLog (RunLogQuery log_query d)
     else PrintsRows (RunQuery (su_open_db su (dbPath fl)) (queryType fl) (queryImage fl) (queryUser fl)))
  else
  match start_log su d with
  | (None, d) => PanicsAtLogger
  | (Some (run, cores), d) =>
    if negb (make_dir su (GetDirOf (dbPath fl))) then Fatal None d else
    match su_open_db su (dbPath fl) with
    | None => Fatal None d
    | Some db => serve su db run cores d
    end
  end.

(** *** The loop *)

(** SIGUSR1: the files of the logs are opened again. *)
Definition reopen_logs (p : Program) : Program :=
  let '(a, d) := AuditTrail.Reopen umask range (pr_auditLog p) (pr_disk p) in
  let '(r, d) := match pr_runLog p with Some r => let '(r, d) := ReopenRun umask r d in (Some r, d) | None => (None, d) end in
  let '(c, d) := match pr_containers p with Some c => let '(c, d) := ReopenContainers umask range c d in (Some c, d) | None => (None, d) end in
  with_logs a r c d p.
(** [proxy.Stop], and the file with the pid is removed when [main] returns. *)
Definition stop_program (p : Program) : Program :=
  mkProgram (pr_main p) (pr_options p) (pr_authenticators p) (Stop (socketDir fl) order (pr_system p)) [] (pr_auditLog p) (pr_runLog p)
    (pr_cores p) (pr_containers p) (pr_disk p) false.
Definition program_loop (w : World) (p : Program) : Program :=
  let p' := match loop (pr_main p), sigCh (pr_main p) with
            | Waiting, Some SIGUSR1 => reopen_logs p
            | Stopping, _ => stop_program p
            | _, _ => p
            end in
  with_main (loop_step parse_policy parse_quota fl w (pr_main p)) p'.

Definition log_entry (e : AuditEntry) (p : Program) : Program :=
  let '(a, d) := WriteEntry umask now e (pr_auditLog p) (pr_disk p) in
  with_logs a (pr_runLog p) (pr_containers p) d p.

(** What goes on at once: the loop, the two goroutines that watch, signals, the entries
    requests leave, and the world. *)
Inductive program_step : nat → World * Program → World * Program → Prop :=
| PLoop w p : program_step 1 (w, p) (w, program_loop w p)
| PChanges w w' p : program_step 0 (w, p) (w', p)
| PWatches w p : loop (pr_main p) ≠ Returned →
    program_step 0 (w, p) (w, with_main (watch_step parse_policy parse_quota fl w (pr_main p)) p)
| PArrives w s p : loop (pr_main p) ≠ Returned → program_step 0 (w, p) (w, with_main (signal s (pr_main p)) p)
| PNewUsers w p : loop (pr_main p) ≠ Returned →
    program_step 0 (w, p) (w, with_system (watch_tick umask docker now (socketDir fl) (storageRoot fl) (w_os w) (pr_system p)) p)
| PEntry w e p : loop (pr_main p) ≠ Returned →
    program_step 0 (w, p) (w, log_entry e p).
(** A run with [n] steps of the loop. *)
Inductive program_run : nat → World * Program → World * Program → Prop :=
| RunDone s : program_run 0 s s
| RunStep n k s s' s'' : program_step k s s' → program_run n s' s'' → program_run (k + n) s s''.
End program.

(** ** Lemmas: a round *)

Section lemmas.
Context (parse_policy : string → option PolicyConfig) (parse_quota : string → option QuotaConfig) (fl : Flags).
Notation policy_in := (policy_in parse_policy).
Notation quota_in := (quota_in parse_quota).
Notation tick := (tick parse_policy parse_quota fl).
Notation watch_step := (watch_step parse_policy parse_quota fl).
Notation watch_round := (watch_round parse_policy parse_quota fl).
Notation loop_step := (loop_step parse_policy parse_quota fl).
Notation main_step := (main_step parse_policy parse_quota fl).
Notation start_main := (start_main parse_policy parse_quota fl).

Lemma watch_round_tick w m : watcher m = Ticking → watch_round w m = tick w m.
Proof.
  destruct m as [p q t u wt l s c]. cbn. intros ->.
  unfold Lifecycle.watch_round, Lifecycle.tick, Lifecycle.check_quota, watching, with_times, UpdatePolicy, with_quota. cbn -[Reload].
  destruct (w_policy w) as [f|]; [|done].
  destruct (newer f t); cbn -[Reload];
    [destruct (policy_in w) as [p'|]; cbn -[Reload]; [|done]|];
    (destruct (quotaFile fl ==s ""); [done|]; destruct (w_quota w) as [g|]; [|done];
     cbn -[Reload]; by destruct (newer g u)).
Qed.
Lemma watch_on_runs w n : ∀ m, loop m ≠ Returned → rtc main_step (w, m) (w, Lifecycle.watch_on parse_policy parse_quota fl n w m).
Proof.
  assert (Hl : ∀ m, loop (watch_step w m) = loop m).
  { intros m. unfold Lifecycle.watch_step. by repeat case_match. }
  induction n as [|n IH]; intros m Hm; cbn [Lifecycle.watch_on]; [by destruct (watcher m)|].
  destruct (watcher m); try done; (eapply rtc_l; [by apply Watches|]; apply IH; by rewrite Hl).
Qed.
Lemma loop_watch_step w m : loop (watch_step w m) = loop m.
Proof. unfold Lifecycle.watch_step. by repeat case_match. Qed.
Lemma watch_round_runs w m : loop m ≠ Returned → rtc main_step (w, m) (w, watch_round w m).
Proof. intros Hm. eapply rtc_l; [by apply Watches|]. apply watch_on_runs. by rewrite loop_watch_step. Qed.

(** ** Lemmas: where the configuration comes from *)

(** Steps while the world stays in [W]. *)
Definition step_within (W : World → Prop) (s s' : World * Main) : Prop := main_step s s' ∧ W s'.1.

Lemma steps_anywhere s s' : rtc main_step s s' → rtc (step_within (λ _, True)) s s'.
Proof. apply rtc_subrel. by intros. Qed.

Section within.
Context (W : World → Prop) (w0 : World).
Definition known_policy (p : Policy) : Prop :=
  (policy_in w0 = None ∧ p = DefaultAllowPolicy) ∨ ∃ w, W w ∧ policy_in w = Some p.
Definition known_config (cfg : option QuotaConfig) : Prop := cfg = None ∨ ∃ w, W w ∧ quota_in w = cfg.
Definition known_quota (q : QuotaManager) : Prop :=
  negative_entry (qm_defaults q) = false ∧
  (q = DefaultQuotaManager ∨ ∃ w cfg, W w ∧ quota_in w = Some cfg ∧ q = mkQuotaManager (qc_Defaults cfg) (qc_Users cfg) (qc_Groups cfg)).
Definition known_watcher (x : Watcher) : Prop :=
  match x with PolicyLoaded p => known_policy p | QuotaParsed cfg => known_config cfg | _ => True end.
Definition known_loop (x : Loop) : Prop :=
  match x with HupLoaded p => known_policy p | HupParsed cfg => known_config cfg | _ => True end.
Record known (m : Main) : Prop := {
  kn_policy : known_policy (mn_policy m);
  kn_quota : known_quota (mn_quota m);
  kn_watcher : known_watcher (watcher m);
  kn_loop : known_loop (loop m);
}.
Lemma known_reload cfg q : known_config cfg → known_quota q → known_quota (Reload (quotaFile fl) cfg q).1.
Proof.
  intros Hc Hq. unfold Reload. destruct (quotaFile fl ==s ""); [done|]. destruct cfg as [cfg|]; [|done].
  destruct (negative_entry (qc_Defaults cfg)) eqn:En; [done|]. destruct (existsb _ _); [done|]. split; [done|]. right.
  destruct Hc as [?|(w & Hw & E)]; [done|]. by exists w, cfg.
Qed.
Lemma known_policy_in w p : W w → policy_in w = Some p → known_policy p.
Proof. intros Hw H. right. by exists w. Qed.
Lemma known_watch_step w m : W w → known m → known (watch_step w m).
Proof.
  intros Hw [Hp Hq Hwt Hl]. unfold Lifecycle.watch_step. destruct (watcher m) eqn:Ew; cbn [known_watcher] in Hwt; repeat case_match;
    split; cbn; rewrite ?Ew; eauto using known_policy_in, known_reload; by right; exists w.
Qed.
Lemma known_loop_step w m : W w → known m → known (loop_step w m).
Proof.
  intros Hw [Hp Hq Hwt Hl]. unfold Lifecycle.loop_step. destruct (loop m) eqn:El; cbn [known_loop] in Hl; repeat case_match;
    split; cbn; rewrite ?El; eauto using known_policy_in, known_reload; by right; exists w.
Qed.
Lemma known_start w1 : W w0 → known (start_main w0 w1).
Proof.
  intros H0. split; cbn; [| |by destruct (w_policy w1)|done].
  - unfold first_policy. destruct (policy_in w0) eqn:E; [right; by exists w0|by left].
  - unfold first_quota. destruct (quotaFile fl ==s ""); [split; [done|by left]|].
    unfold LoadQuotaManager. destruct (quota_in w0) as [cfg|] eqn:E; cbn; [|split; [done|by left]].
    destruct (negative_entry (qc_Defaults cfg)) eqn:En; cbn; [split; [done|by left]|]. split; [done|]. right. by exists w0, cfg.
Qed.
Lemma known_steps s s' : rtc (step_within W) s s' → W s.1 → known s.2 → known s'.2.
Proof.
  induction 1 as [|s1 s2 s3 [Hstep H2] _ IH]; [done|]. intros H1 Hk. apply IH; [done|].
  destruct Hstep; cbn in *; try done; [by apply known_watch_step|by apply known_loop_step|]. by destruct Hk.
Qed.
End within.

(** ** Lemmas: what is in force and what is in the file *)

(** A change of the policy file makes it newer; the accounts stay. *)
Definition file_step (w w' : World) : Prop :=
  w_os w' = w_os w ∧
  ∃ f f', w_policy w = Some f ∧ w_policy w' = Some f' ∧ (f' = f ∨ (cf_ModTime f < cf_ModTime f')%Z).
(** No round of the watcher begins while a policy that was read for SIGHUP waits to be
    put in force. *)
Definition hup_loaded (l : Loop) : bool := match l with HupLoaded _ => true | _ => false end.
Definition ticking (x : Watcher) : bool := match x with Ticking => true | _ => false end.
Inductive orderly_step : World * Main → World * Main → Prop :=
| OChanges w w' m : file_step w w' → orderly_step (w, m) (w', m)
| OWatches w m : loop m ≠ Returned → ticking (watcher m) && hup_loaded (loop m) = false → orderly_step (w, m) (w, watch_step w m)
| OLoops w m : orderly_step (w, m) (w, loop_step w m)
| OArrives w s m : loop m ≠ Returned → orderly_step (w, m) (w, signal s m).

Definition loaded_ok (p : Policy) (m : Main) : Prop :=
  match watcher m with NoWatcher => False | PolicyChanged => True | PolicyLoaded q => q = p | _ => mn_policy m = p end ∧
  match loop m with HupLoaded q => q = p | _ => True end.
Definition up_to_date (w : World) (m : Main) : Prop :=
  watcher m ≠ NoWatcher ∧
  ∃ f, w_policy w = Some f ∧ (lastModTime m <= cf_ModTime f)%Z ∧
       (lastModTime m = cf_ModTime f → ∀ p, policy_in w = Some p → loaded_ok p m).

Lemma up_to_date_world w w' m : file_step w w' → up_to_date w m → up_to_date w' m.
Proof.
  intros (Hos & f & f' & Hf & Hf' & Hn) [Hw (g & Hg & Hle & Hp)]. split; [done|]. simplify_eq. exists f'. split; [done|].
  destruct Hn as [->|Hn]; [|split; [lia|]; intros; lia]. split; [done|]. intros Ht p E. apply (Hp Ht).
  unfold Lifecycle.policy_in in *. by rewrite Hos, Hf' in E; rewrite Hf.
Qed.
Lemma up_to_date_watch w m : ticking (watcher m) && hup_loaded (loop m) = false → up_to_date w m → up_to_date w (watch_step w m).
Proof.
  intros Ho [Hw (f & Hf & Hle & Hp)]. destruct m as [p0 q t u wt l s c]. unfold up_to_date, loaded_ok in *.
  cbn [watcher loop lastModTime mn_policy ticking] in *.
  destruct wt as [| | |p'| | |cfg]; try done; unfold Lifecycle.watch_step; cbn [watcher lastModTime ticking] in *.
  - rewrite Hf. destruct (newer f t) eqn:En; (split; [done|]); exists f; cbn -[Z.le]; split_and!; try done; try lia.
    intros _ p _. split; [done|]. by destruct l.
  - destruct (policy_in w) as [p1|] eqn:E; (split; [done|]); exists f; cbn -[Z.le]; split_and!; try done;
      intros Ht p Hp1; try done; injection Hp1 as <-; split; [done|]; by apply (Hp Ht p1).
  - split; [done|]. exists f. cbn -[Z.le]. by split_and!.
  - destruct (quotaFile fl ==s ""); [|destruct (w_quota w) as [g|]; [destruct (newer g _)|]];
      (split; [done|]); exists f; cbn -[Z.le]; by split_and!.
  - split; [done|]. exists f. cbn -[Z.le]. by split_and!.
  - split; [done|]. exists f. cbn -[Z.le]. by split_and!.
Qed.
Lemma up_to_date_loop w m : up_to_date w m → up_to_date w (loop_step w m).
Proof.
  intros [Hw (f & Hf & Hle & Hp)]. destruct m as [p0 q t u wt l s c]. unfold up_to_date, loaded_ok in *.
  cbn [watcher loop lastModTime mn_policy] in *.
  destruct l as [| |p'| |cfg| |]; unfold Lifecycle.loop_step; cbn [loop sigCh].
  - destruct s as [[]|]; (split; [done|]); exists f; cbn -[Z.le]; (split_and!; [done..|]); intros Ht p Hp1; by destruct (Hp Ht p Hp1).
  - destruct (policy_in w) as [p1|] eqn:E; (split; [done|]); exists f; cbn -[Z.le]; (split_and!; [done..|]); intros Ht p Hp1; try done;
      injection Hp1 as <-; by destruct (Hp Ht p1 eq_refl).
  - split; [done|]. exists f. cbn -[Z.le]. split_and!; try done. intros Ht p Hp1. destruct (Hp Ht p Hp1) as [H1 ->].
    destruct (quotaFile fl ==s ""); split; try done; by destruct wt.
  - split; [done|]. exists f. cbn -[Z.le]. by split_and!.
  - split; [done|]. exists f. cbn -[Z.le]. by split_and!.
  - split; [done|]. exists f. cbn -[Z.le]. by split_and!.
  - split; [done|]. exists f. by split_and!.
Qed.
Lemma up_to_date_steps s s' : rtc orderly_step s s' → up_to_date s.1 s.2 → up_to_date s'.1 s'.2.
Proof.
  induction 1 as [|s1 s2 s3 Hstep _ IH]; [done|]. intros H. apply IH. destruct Hstep; cbn in *;
    [by eapply up_to_date_world|by apply up_to_date_watch|by apply up_to_date_loop|exact H].
Qed.
Lemma up_to_date_start w : is_Some (w_policy w) → up_to_date w (start_main w w).
Proof.
  intros [f Hf]. unfold Lifecycle.start_main, up_to_date, loaded_ok. rewrite Hf. cbn -[Z.le]. split; [done|]. exists f. split_and!; [done|lia|].
  intros _ p Hp. split; [|done]. unfold first_policy. by rewrite Hp.
Qed.
Lemma up_to_date_tick w m p : watcher m = Ticking → up_to_date w m → policy_in w = Some p → mn_policy (tick w m) = p.
Proof.
  intros Hwt [_ (f & Hf & Hle & Hp)] E. assert (Hcheck : ∀ m', mn_policy (Lifecycle.check_quota parse_quota fl w m') = mn_policy m').
  { intros m'. unfold check_quota. by repeat case_match. }
  unfold Lifecycle.tick. rewrite Hf. destruct (newer f (lastModTime m)) eqn:En; [by rewrite E, Hcheck|].
  rewrite Hcheck. unfold newer in En. apply Z.ltb_ge in En. destruct (Hp ltac:(lia) p E) as [H _]. by rewrite Hwt in H.
Qed.

(** ** Lemmas: the end *)

(** How many steps of the loop are left, once a signal that ends the program waits. *)
Definition steps_left (m : Main) : nat :=
  match loop m with
  | HupLoading => 6 | HupLoaded _ => 5 | HupQuota => 4 | HupParsed _ => 3 | Waiting => 2 | Stopping => 1 | Returned => 0
  end.
Definition ending (m : Main) : Prop :=
  match loop m with Stopping | Returned => True | _ => ∃ s, sigCh m = Some s ∧ terminates s = true end.
Lemma ending_loop w m : ending m → ending (loop_step w m) ∧ (steps_left (loop_step w m) <= steps_left m - 1)%nat.
Proof.
  unfold ending, steps_left. destruct m as [p0 q t u wt l s c]. unfold Lifecycle.loop_step. cbn [loop sigCh].
  intros He. destruct l as [| |p'| |cfg| |]; cbn.
  - destruct He as (x & Hx & Ht). rewrite Hx. by destruct x.
  - by destruct (policy_in w); cbn; split; try lia.
  - by destruct (quotaFile fl ==s ""); cbn; split; try lia.
  - split; [done|lia].
  - split; [done|lia].
  - split; [done|lia].
  - split; [done|lia].
Qed.
Lemma ending_other s s' : main_step s s' → ending s.2 → ending s'.2 ∧ (steps_left s'.2 <= steps_left s.2)%nat.
Proof.
  destruct 1 as [w w' m|w m Hm|w m|w x m Hm]; cbn [snd]; intros H; [done| | |].
  - unfold ending, steps_left in *. rewrite loop_watch_step. split; [|done].
    assert (sigCh (watch_step w m) = sigCh m) as -> by (unfold Lifecycle.watch_step; by repeat case_match). done.
  - destruct (ending_loop w m H). split; [done|lia].
  - unfold ending, steps_left, signal in *. cbn. split; [|done]. destruct (loop m); try done; by destruct H as (y & -> & Hy); exists y.
Qed.
End lemmas.

(** ** Lemmas: the program *)

Section program_lemmas.
Context {FW : Type} `{!Iptables FW}.
Context (parse_policy : string → option PolicyConfig) (parse_quota : string → option QuotaConfig).
Context (umask : Z) (random : FS → string) (docker : Docker) (now : Z) (fl : Flags).
Context (range : gmap string Handle → list (string * Handle)) (order : gmap string systemUser → list systemUser).
Notation program_step := (program_step parse_policy parse_quota umask docker now fl range order).
Notation program_run := (program_run parse_policy parse_quota umask docker now fl range order).
Notation program_loop := (program_loop parse_policy parse_quota umask fl range order).
Notation Program := (Program (FW:=FW)).

Lemma main_of_loop w (p : Program) : pr_main (program_loop w p) = loop_step parse_policy parse_quota fl w (pr_main p).
Proof. done. Qed.
Lemma program_main_step n s s' : program_step n s s' →
  (n = 1%nat ∧ s'.1 = s.1 ∧ pr_main s'.2 = loop_step parse_policy parse_quota fl s.1 (pr_main s.2)) ∨
  (n = 0%nat ∧ main_step parse_policy parse_quota fl (s.1, pr_main s.2) (s'.1, pr_main s'.2)).
Proof.
  destruct 1 as [w p|w w' p|w p Hp|w x p Hp|w p Hp|w e p Hp]; cbn [fst snd]; [by left|right; split; [done|]..].
  - apply Changes.
  - by apply Watches.
  - by apply Arrives.
  - apply Changes.
  - unfold log_entry. destruct (WriteEntry _ _ _ _ _) as [a d]. apply Changes.
Qed.

(** No socket at a path stays none through calls that only take names away. *)
Definition no_socket (path : string) (fs : FS) : Prop := ∀ b mo u g, fs !! path ≠ Some (mkNode (Sock b) mo u g).
Lemma no_socket_delete path path' fs : no_socket path fs → no_socket path (delete path' fs).
Proof. intros H b mo u g Hd. apply lookup_delete_Some in Hd as [_ Hd]. by eapply H. Qed.
Lemma Close_fs path m : m_fs (Close path m).2 = m_fs m ∨ m_fs (Close path m).2 = delete path (m_fs m).
Proof. unfold Close. cbn. destruct (m_fs m !! path) as [[[] ? ? ?]|]; eauto. Qed.
Lemma Close_none path m : no_socket path (m_fs (Close path m).2).
Proof.
  unfold Close. cbn. intros b mo u g. destruct (m_fs m !! path) as [[[] ? ? ?]|] eqn:E; rewrite ?lookup_delete_eq; try done. by rewrite E.
Qed.
Lemma Remove_fs path m : m_fs (ignore (Remove path) m).2 = m_fs m ∨ m_fs (ignore (Remove path) m).2 = delete path (m_fs m).
Proof.
  unfold ignore, Remove, syscall. cbn. destruct (m_faults m) as [|[n|] fs]; cbn; [|by left|];
    destruct (m_fs m !! path) as [[[] ? ? ?]|]; cbn; try (by left); try (by right); destruct (empty_dir _ _); cbn; eauto.
Qed.
Definition users_closed (order : list systemUser) (fs : FS) : Prop := ∀ u, u ∈ order → no_socket (userSockPath (socketDir fl) u) fs.
Lemma fold_keeps (f : systemUser → IO unit) (P : FS → Prop) (users : list systemUser) : ∀ s : System (FW:=FW),
  (∀ u m, P (m_fs m) → P (m_fs (f u m).2)) → P (m_fs (sy_machine s)) →
  P (m_fs (sy_machine (foldl (λ s u, machine_after (f u) s) s users))).
Proof. induction users as [|u us IH]; intros s Hf Hs; [done|]. cbn. apply IH; [done|]. by apply Hf. Qed.
Lemma Close_all_closes u users : ∀ s : System (FW:=FW), u ∈ users →
  no_socket (userSockPath (socketDir fl) u)
    (m_fs (sy_machine (foldl (λ s u, machine_after (Close (userSockPath (socketDir fl) u)) s) s users))).
Proof.
  induction users as [|v us IH]; intros s; [by intros ?%elem_of_nil|]. intros [->|Hu]%elem_of_cons; cbn; [|by apply IH].
  apply (fold_keeps (λ v, Close (userSockPath (socketDir fl) v))); [|apply Close_none].
  intros w m H. destruct (Close_fs (userSockPath (socketDir fl) w) m) as [->| ->]; [done|by apply no_socket_delete].
Qed.
Lemma Stop_closes (s : System (FW:=FW)) : users_closed (order (sy_listeners s)) (m_fs (sy_machine (Stop (socketDir fl) order s))).
Proof.
  intros u Hu. unfold Stop. apply (fold_keeps (λ v, ignore (Remove (userSockPath (socketDir fl) v)))); [|by apply Close_all_closes].
  intros v m H. destruct (Remove_fs (userSockPath (socketDir fl) v) m) as [->| ->]; [done|by apply no_socket_delete].
Qed.
Lemma Stop_listeners (s : System (FW:=FW)) : sy_listeners (Stop (socketDir fl) order s) = sy_listeners s.
Proof.
  unfold Stop. assert (H : ∀ (f : systemUser → IO unit) users (s0 : System (FW:=FW)),
    sy_listeners (foldl (λ s u, machine_after (f u) s) s0 users) = sy_listeners s0).
  { intros f users. induction users as [|u us IH]; intros s0; [done|]. cbn. by rewrite IH. }
  by rewrite (H (λ v, ignore (Remove (userSockPath (socketDir fl) v)))), (H (λ v, Close (userSockPath (socketDir fl) v))).
Qed.

(** Once it has returned everything the program listened on is closed. *)
Definition closed_down (p : Program) : Prop :=
  loop (pr_main p) = Returned →
  users_closed (order (sy_listeners (pr_system p))) (m_fs (sy_machine (pr_system p))) ∧ pr_tcp p = [] ∧ pr_pidFile p = false.
Lemma closed_down_step n s s' : program_step n s s' → closed_down s.2 → closed_down s'.2.
Proof.
  unfold closed_down. destruct 1 as [w p|w w' p|w p Hp|w x p Hp|w p Hp|w e p Hp]; cbn [snd]; intros Hc.
  - unfold Lifecycle.program_loop, loop_step. destruct (pr_main p) as [p0 q t u wt l s c] eqn:Em. cbn [loop sigCh] in *.
    destruct l; cbn; try (by repeat case_match). intros _. split; [|done]. rewrite Stop_listeners. apply Stop_closes.
  - done.
  - intros H. cbn in H. by rewrite loop_watch_step in H.
  - intros H. by cbn in H.
  - intros H. by cbn in H.
  - unfold log_entry. destruct (WriteEntry _ _ _ _ _) as [a d]. intros H. by cbn in H.
Qed.
Lemma program_ending n s s' : program_run n s s' → ending (pr_main s.2) → closed_down s.2 →
  (steps_left (pr_main s'.2) <= steps_left (pr_main s.2) - n)%nat ∧ closed_down s'.2.
Proof.
  induction 1 as [s|n k s s1 s2 Hstep _ IH]; intros He Hc; [by split; [lia|]|].
  pose proof (closed_down_step _ _ _ Hstep Hc) as Hc1.
  destruct (program_main_step _ _ _ Hstep) as [(-> & Hw & Hm)|(-> & Hm)].
  - destruct (ending_loop parse_policy parse_quota fl s.1 _ He) as [He1 Hl]. rewrite <- Hm in He1, Hl.
    destruct (IH He1 Hc1) as [Hn ?]. split; [lia|done].
  - destruct (ending_other parse_policy parse_quota fl _ _ Hm He) as [He1 Hl]. cbn [snd] in He1, Hl.
    destruct (IH He1 Hc1) as [Hn ?]. split; [lia|done].
Qed.
End program_lemmas.

(** ** A run of the program *)

Module LifecycleDemo.
Definition os : OsFiles :=
  mkOsFiles (Some ("root:x:0:0:root:/root:/bin/bash" +:+ String NL "alice:x:1001:1001::/home/alice:/bin/bash")) (Some "alice:x:1001:").
Definition open_config : PolicyConfig := mkPolicyConfig 1 "allow" [] [] ∅.
Definition strict_config : PolicyConfig := mkPolicyConfig 1 "allow" [mkDenyRule ["alice"] [] ["pull"]] [] ∅.
Definition parse_policy (text : string) : option PolicyConfig :=
  if text ==s "open" then Some open_config else if text ==s "strict" then Some strict_config else None.
Definition limits (mb : Z) : QuotaConfig := mkQuotaConfig (mkQuotaEntry f64_zero mb 0 0 0 []) ∅ ∅.
Definition parse_quota (text : string) : option QuotaConfig :=
  if text ==s "512" then Some (limits 512) else if text ==s "1024" then Some (limits 1024) else None.
Definition world (t : Z) (policy quota : string) : World :=
  mkWorld os (Some (mkConfigFile t (Some policy))) (Some (mkConfigFile t (Some quota))).
Definition fl : Flags :=
  mkFlags "/run/docker-authz" "/var/run/docker.sock" "/etc/docker-authz/policy.yaml" "/var/lib/docker-authz/owners.db"
    "info" "json" "" 30 0 0 "/var/docker/user-storage" false 5 "/etc/docker-authz/quota.yaml" "" "" "" "" "" "" ""
    "" "" "" "operation" (-1) "" "" "" "" "" 0 false.
Definition alice : CallerIdentity := tcp_identity "alice" 1001 1001 AuthSourceJWT.
Definition before : World := world 10 "open" "512".
Definition after : World := world 20 "strict" "1024".
Definition started : Main := start_main parse_policy parse_quota fl before before.
Notation watch := (watch_step parse_policy parse_quota fl).
Notation act := (loop_step parse_policy parse_quota fl).
Notation denied m := (IsDenied os (mn_policy m) alice "pull").

Example watched : let m := watch_round parse_policy parse_quota fl after started in
  denied started = false ∧ denied m = true ∧ qm_defaults (mn_quota m) = qc_Defaults (limits 1024).
Proof. vm_compute. done. Qed.
Example reloaded : let m := act after (act after (act after (act after (act after (signal SIGHUP started))))) in
  denied m = true ∧ qm_defaults (mn_quota m) = qc_Defaults (limits 1024) ∧ lastModTime m = 10 ∧ loop m = Waiting.
Proof. vm_compute. done. Qed.

(** A host without a firewall. *)
#[global] Instance no_firewall : Iptables unit := {| iptables _ fw := (false, fw); rules _ _ := None |}.
Definition sent : Main := signal SIGTERM (act before (signal SIGHUP started)).
Definition sys : System (FW := unit) :=
  mkSystem (mkMachine {["/run/docker-authz/alice/docker.sock" := mkNode (Sock true) 384 1001 1001]} [] [])
    {["alice" := mkSystemUser "alice" 1001 1001 "/home/alice"]} (mkHost tt ∅) initSchema.
Definition in_order (l : gmap string systemUser) : list systemUser := (map_to_list l).*2.
Definition program (m : Main) : Program :=
  mkProgram m (proxy_options fl) [] sys [("127.0.0.1:2376", false)] None None [] None (mkDisk ∅ ∅ []) true.
End LifecycleDemo.

(** ** Theorems: the configuration in force *)

(** C37: No policy and no quotas are ever in force that were not in the files: whatever the
    order of the watcher, the loop and the signals, the policy is one some state of the
    world had in its file since the start (the policy that allows everything only if the
    first file could not be loaded, and until one can), the quotas likewise, and no
    default quota is negative. *)
Theorem configuration_was_in_the_files parse_policy parse_quota fl (W : World → Prop) w0 w1 w m :
  W w0 → W w1 →
  rtc (step_within parse_policy parse_quota fl W) (w1, start_main parse_policy parse_quota fl w0 w1) (w, m) →
  ((policy_in parse_policy w0 = None ∧ mn_policy m = DefaultAllowPolicy) ∨
   ∃ w', W w' ∧ policy_in parse_policy w' = Some (mn_policy m)) ∧
  negative_entry (qm_defaults (mn_quota m)) = false ∧
  (mn_quota m = DefaultQuotaManager ∨
   ∃ w' cfg, W w' ∧ quota_in parse_quota w' = Some cfg ∧ mn_quota m = mkQuotaManager (qc_Defaults cfg) (qc_Users cfg) (qc_Groups cfg)).
Proof.
  intros H0 H1 Hrun. pose proof (known_start parse_policy parse_quota fl W w0 w1 H0) as Hs.
  by destruct (known_steps parse_policy parse_quota fl W w0 _ _ Hrun H1 Hs) as [? ? _ _].
Qed.

Lemma configuration_was_in_the_files_witness :
  let m := watch_round LifecycleDemo.parse_policy LifecycleDemo.parse_quota LifecycleDemo.fl LifecycleDemo.after LifecycleDemo.started in
  (policy_in LifecycleDemo.parse_policy LifecycleDemo.before = None ∧ mn_policy m = DefaultAllowPolicy) ∨
  ∃ w', True ∧ policy_in LifecycleDemo.parse_policy w' = Some (mn_policy m).
Proof.
  intros m. apply (configuration_was_in_the_files LifecycleDemo.parse_policy LifecycleDemo.parse_quota LifecycleDemo.fl (λ _, True)
    LifecycleDemo.before LifecycleDemo.before LifecycleDemo.after m); [done|done|].
  assert (H : rtc (main_step LifecycleDemo.parse_policy LifecycleDemo.parse_quota LifecycleDemo.fl)
                (LifecycleDemo.before, LifecycleDemo.started) (LifecycleDemo.after, m)).
  { eapply rtc_l; [apply Changes|]. apply watch_round_runs. vm_compute. done. }
  by apply steps_anywhere.
Defined.

(** C38: A change of the policy file takes effect with the next round of the watcher.  If the file
    was there at the start and did not change in the course of it, if it and the accounts
    stay, every change makes the file newer, and no round begins while a policy that was
    read for SIGHUP waits to be put in force, then, the program running and the watcher
    being due, after a round in which the world stands still the policy in force is the one
    in the file, if that can be loaded.  A round is what [tick] says, and it is made of
    steps of the program. *)
Theorem watched_policy_is_current parse_policy parse_quota fl w0 w m p :
  rtc (orderly_step parse_policy parse_quota fl) (w0, start_main parse_policy parse_quota fl w0 w0) (w, m) →
  is_Some (w_policy w0) → watcher m = Ticking → loop m ≠ Returned → policy_in parse_policy w = Some p →
  rtc (main_step parse_policy parse_quota fl) (w, m) (w, watch_round parse_policy parse_quota fl w m) ∧
  watch_round parse_policy parse_quota fl w m = tick parse_policy parse_quota fl w m ∧
  mn_policy (watch_round parse_policy parse_quota fl w m) = p.
Proof.
  intros Hrun H0 Hw Hl Hp. split; [by apply watch_round_runs|]. rewrite watch_round_tick by done. split; [done|].
  apply up_to_date_tick; [done| |done]. apply (up_to_date_steps _ _ _ _ _ Hrun). by apply up_to_date_start.
Qed.

Lemma watched_policy_is_current_witness :
  mn_policy (watch_round LifecycleDemo.parse_policy LifecycleDemo.parse_quota LifecycleDemo.fl LifecycleDemo.after LifecycleDemo.started) =
    resolve LifecycleDemo.os (mkPolicy LifecycleDemo.strict_config [] [] None).
Proof.
  apply (watched_policy_is_current LifecycleDemo.parse_policy LifecycleDemo.parse_quota LifecycleDemo.fl LifecycleDemo.before
    LifecycleDemo.after LifecycleDemo.started); [|done|done|done|done].
  eapply rtc_l; [|constructor]. apply OChanges. split; [done|]. do 2 eexists. split_and!; [done|done|right; done].
Defined.

(** ** Theorems: the end *)

(** C39: Once SIGINT or SIGTERM waits in the channel, or the loop is stopping, the program
    ends: six more steps of its loop, whatever else happens between them, a reload under
    way included, and [main] has returned; then no user's socket and no port is listened
    on, and the pid file is gone. *)
Theorem shutdown_completes {FW} `{!Iptables FW} parse_policy parse_quota umask docker now fl range order n w w' (p p' : Program (FW:=FW)) :
  program_run parse_policy parse_quota umask docker now fl range order n (w, p) (w', p') →
  loop (pr_main p) = Stopping ∨ (loop (pr_main p) ≠ Returned ∧ ∃ s, sigCh (pr_main p) = Some s ∧ terminates s = true) →
  (6 <= n)%nat →
  loop (pr_main p') = Returned ∧
  (∀ u b mo uid gid, u ∈ order (sy_listeners (pr_system p')) →
     m_fs (sy_machine (pr_system p')) !! userSockPath (socketDir fl) u ≠ Some (mkNode (Sock b) mo uid gid)) ∧
  pr_tcp p' = [] ∧ pr_pidFile p' = false.
Proof.
  intros Hrun He Hn.
  destruct (program_ending parse_policy parse_quota umask docker now fl range order n _ _ Hrun) as [Hl Hc]; cbn [snd] in *.
  - unfold ending. destruct He as [->|[? ?]]; [done|]. by destruct (loop (pr_main p)).
  - intros Hr. destruct He as [E|[? _]]; [by rewrite Hr in E|done].
  - assert (Hr : loop (pr_main p') = Returned).
    { assert (steps_left (pr_main p) <= 6)%nat by (unfold steps_left; case_match; lia).
      unfold steps_left in *. destruct (loop (pr_main p')); try done; lia. }
    destruct (Hc Hr) as (Hu & Ht & Hp). split_and!; [done| |done|done]. intros u b mo uid gid Hin. by apply Hu.
Qed.

Lemma shutdown_completes_witness :
  let go := program_loop LifecycleDemo.parse_policy LifecycleDemo.parse_quota 18 LifecycleDemo.fl map_to_list LifecycleDemo.in_order LifecycleDemo.before in
  let p' := go (go (go (go (go (go (LifecycleDemo.program LifecycleDemo.sent)))))) in
  loop (pr_main p') = Returned ∧ pr_tcp p' = [].
Proof.
  intros go p'.
  assert (H : program_run LifecycleDemo.parse_policy LifecycleDemo.parse_quota 18 (mkDocker (λ _, None) (λ _, None) (λ _, None)) 0 LifecycleDemo.fl map_to_list LifecycleDemo.in_order 6
            (LifecycleDemo.before, LifecycleDemo.program LifecycleDemo.sent) (LifecycleDemo.before, p')).
  { do 6 (eapply (RunStep _ _ _ _ _ _ _ _ _ 1); [apply PLoop|]). apply RunDone. }
  destruct (shutdown_completes _ _ _ _ _ _ _ _ _ _ _ _ _ H) as (? & _ & ? & _); [|lia|done].
  right. split; [by vm_compute|]. by exists SIGTERM.
Defined.

(** ** Where the configuration can be wrong *)

(** A file that cannot be loaded when the program starts: everybody may do everything. *)
Lemma broken_file_at_start_allows_all parse_policy parse_quota fl w0 w1 os id action :
  policy_in parse_policy w0 = None → IsDenied os (mn_policy (start_main parse_policy parse_quota fl w0 w1)) id action = false.
Proof. intros H. unfold start_main, first_policy. cbn. by rewrite H. Qed.

(** A change between the loading of the files and the taking of their times is not seen. *)
Lemma change_while_starting_is_missed parse_policy parse_quota fl w0 w1 :
  mn_policy (tick parse_policy parse_quota fl w1 (start_main parse_policy parse_quota fl w0 w1)) = first_policy parse_policy w0.
Proof.
  unfold tick, start_main. cbn. destruct (w_policy w1) as [f|]; [|done]. cbn. unfold newer. rewrite Z.ltb_irrefl.
  unfold check_quota. by repeat case_match.
Qed.

(** Without a policy file at the start nothing is watched, the quotas neither. *)
Lemma nothing_watched_without_policy parse_policy parse_quota fl w0 w1 :
  w_policy w1 = None → watcher (start_main parse_policy parse_quota fl w0 w1) = NoWatcher.
Proof. intros H. unfold start_main. cbn. by rewrite H. Qed.

(** A policy file that cannot be loaded keeps SIGHUP from reloading the quotas. *)
Lemma broken_policy_skips_quota parse_policy parse_quota fl w m :
  loop m = HupLoading → policy_in parse_policy w = None → loop_step parse_policy parse_quota fl w m = looping Waiting m.
Proof. intros Hl Hp. unfold loop_step. by rewrite Hl, Hp. Qed.

(** A policy read for SIGHUP and put in force after a round of the watcher stays although
    the file says otherwise: no later round looks at it. *)
Lemma stale_policy_after_sighup :
  ∃ m, rtc (main_step LifecycleDemo.parse_policy LifecycleDemo.parse_quota LifecycleDemo.fl)
         (LifecycleDemo.before, LifecycleDemo.started) (LifecycleDemo.after, m) ∧
    watcher m = Ticking ∧ loop m = HupQuota ∧
    IsDenied LifecycleDemo.os (mn_policy m) LifecycleDemo.alice "pull" = false ∧
    IsDenied LifecycleDemo.os (first_policy LifecycleDemo.parse_policy LifecycleDemo.after) LifecycleDemo.alice "pull" = true ∧
    tick LifecycleDemo.parse_policy LifecycleDemo.parse_quota LifecycleDemo.fl LifecycleDemo.after m = m.
Proof.
  set (act := loop_step LifecycleDemo.parse_policy LifecycleDemo.parse_quota LifecycleDemo.fl).
  set (round := watch_round LifecycleDemo.parse_policy LifecycleDemo.parse_quota LifecycleDemo.fl).
  exists (act LifecycleDemo.after (round LifecycleDemo.after (act LifecycleDemo.before (act LifecycleDemo.before (signal SIGHUP LifecycleDemo.started))))).
  split.
  - eapply rtc_l; [by apply (Arrives _ _ _ _ SIGHUP)|]. do 2 (eapply rtc_l; [apply Loops|]). eapply rtc_l; [apply Changes|].
    etrans; [apply watch_round_runs; by vm_compute|]. eapply rtc_l; [apply Loops|]. apply rtc_refl.
  - vm_compute. done.
Qed.

(** A signal that ends the program and finds another one waiting is lost, after it has
    cancelled the context: events are no longer listened to, requests are still served. *)
Lemma terminating_signal_is_lost :
  ∃ m, rtc (main_step LifecycleDemo.parse_policy LifecycleDemo.parse_quota LifecycleDemo.fl)
         (LifecycleDemo.before, signal SIGTERM (signal SIGHUP LifecycleDemo.started)) (LifecycleDemo.before, m) ∧
    mn_ctx m = false ∧ sigCh m = None ∧ loop m = Waiting.
Proof.
  set (act := loop_step LifecycleDemo.parse_policy LifecycleDemo.parse_quota LifecycleDemo.fl LifecycleDemo.before).
  exists (act (act (act (act (act (signal SIGTERM (signal SIGHUP LifecycleDemo.started))))))). split.
  - do 5 (eapply rtc_l; [apply Loops|]). constructor.
  - vm_compute. done.
Qed.

(** ** Where options have no effect *)

Lemma format_without_effect level format format' extra : NewLoggerWithWriter level format extra = NewLoggerWithWriter level format' extra.
Proof. done. Qed.
(** A database at the root of the file system: there is no directory to make. *)
Lemma database_at_root : GetDirOf "/owners.db" = "".
Proof. done. Qed.
